(* ===== verification/_CoqProject ===== *)
-Q . S2P
Prelude.v
Frame.v
Dll.v
Config.v
MemMap.v
ReqFormat.v
ReqQueues.v
DataBuffer.v
AddrMap.v
AddrInv.v
SliceMap.v
AddrCheck.v
State.v
HostLld.v
Nsc.v
HostTime.v
CustomIo.v
LowLevel.v
HostDma.v
Schedule.v
FlashOrder.v
ReqInv.v
WayLists.v
Ftl.v
BadBlock.v
Remap.v
Transform.v
Slices.v
Machine.v
StartUp.v
Runs.v
Scenarios.v
Nvme.v
Crc32.v
Fil.v
PageFormat.v
FilInv.v
BufLru.v
BufPool.v
BufBatch.v
BufInv.v
BufStore.v
BufEvict.v
BufRead.v
Mtr.v
BufAccess.v
BatchInv.v
MtrInv.v
BufRuns.v
FlashSafe.v
WaySafe.v
FlashRuns.v
WayRuns.v
RwPath.v
HostRuns.v
