(* ===== verification/Prelude.v ===== *)
(** * A write-and-read command for flash drives: firmware and host

    The repository holds two programs that speak to each other.  The firmware
    of an NVMe flash drive (src/cosmos-firmware, C, a bare-metal program for the
    Cosmos+ OpenSSD board) understands, besides reads and writes, one custom
    command that writes one page and reads another.  A MySQL server
    (src/mysql, C++) has been changed to use that command when it must evict a
    dirty page in order to read a new one.  This library models the firmware
    and, of the server, the buffer pool that evicts and reads pages and the
    files that send the command, and proves what makes them correct.

    ** The firmware and its files

    An NVMe command is fetched by the main loop (nvme_main.c), cut into requests
    for 16KB slices (request_transform.c), looked up in the data buffer or, for
    the custom command, in a second buffer (data_buffer.c, data_buffer_ccmd.c),
    and turned into host DMA transfers and flash requests.  Writes to flash go
    to fresh pages (address_translation.c), blocks are reclaimed by garbage
    collection (garbage_collection.c), requests wait for buffers and for the
    order of the pages in a block (request_transform.c), and are issued to the
    flash controllers by a scheduler (request_schedule.c, nsc_driver.c).

    - Config, MemMap: ftl_config.h, address_translation.h, memory_map.h.  The
      configurable factors are a class [Config] with side conditions [ConfigOk];
      every constant is a function of them.
    - ReqFormat, ReqQueues: request_format.h, request_queue.h and
      request_allocation.c.  [QSt] is the request pool with its queues.
    - DataBuffer: data_buffer.c and data_buffer_ccmd.c, one model instantiated
      twice.
    - AddrMap, AddrInv, SliceMap, AddrCheck: the slice, block and die maps and the
      victim lists ([ASt]); their invariant [AInv]; a sound decision procedure
      for it.
    - State: the device (a type class [Device]: registers and memory that may
      answer anything) and [RSt], the variables of the request layer.
    - HostLld, Nsc, HostTime, CustomIo: host_lld.c, nsc_driver.c,
      get_time_host_request.c and custom_io_cmd_completion.c.
    - LowLevel, Schedule: dependencies, host DMA and the NAND scheduler.
    - HostDma: the transfers of a host DMA request.
    - WayLists, WaySafe: the way lists of the scheduler, for a scheduling round and
      for the whole firmware.
    - Ftl, BadBlock: writes, garbage collection, bad blocks and InitFTL ([FSt] is
      the state of the whole firmware).
    - Transform, Nvme: from commands to requests; admin and I/O commands; the main
      loop.
    - Slices: which slice requests a command becomes.
    - FlashOrder, ReqInv, FlashSafe: the order of flash operations, for the
      request layer and for the whole firmware.
    - Remap: physical addresses and bad blocks.
    - Machine, StartUp, Runs, Scenarios, FlashRuns, WayRuns: the smallest machine, start-up,
      and the concrete runs on which the theorems are applied.

    ** The server and its files

    - Fil: the tablespace files (fil0fil.cc: opening, closing, flushing, the list of
      open files, and fil_io_with_rw_cmd), the system call (os0file.cc:
      os_rw_io_func) and block addresses (rw0rw.cc), as one thread runs them.
      The operating system is the class [HostOs].
    - FilInv: the invariant of the file cache and the specification of the call,
      under [HostOsLaws], what the code relies on of the operating system.
    - RwPath: the two programs together.
    - HostRuns: a small operating system and runs on it.
    - Crc32, PageFormat: ut0crc32.cc; the stamps and checksums of a page before a
      write (buf0flu.cc, buf0checksum.cc) and the check after a read (buf0buf.cc).
    - BufLru: control blocks and the LRU list with its midpoint (buf0lru.cc).
      [buf_pool_t] is one instance of the pool.
    - BufPool: the operations of the pool (buf0flu.cc, buf0lru.cc, buf0rea.cc,
      buf0buf.cc): flush list, writes, eviction, the search for a free block, the
      RW command, reads and access.  [PSt] adds the counters of rw0rw.cc, the
      adaptive hash index and the storage, which is a class [PageIo].
    - BufBatch: the batches that write pages back (buf0flu.cc), over the LRU list
      and over the flush list, with the neighbours of a page, and the flush
      before a checkpoint (log0log.cc).
    - Mtr: mini-transactions (mtr0mtr.cc, mtr0log.cc), the clients of the pool.
    - BufInv, BufStore: the tables of the pool ([PoolOk]); the laws of the storage
      ([PageIoOk]), the content of a page and the invariant [Inv].
    - BufEvict, BufRead, BufAccess, BatchInv, MtrInv: what a search for a block, a
      read, an access, a batch and a mini-transaction do to a state that
      satisfies it.
    - BufRuns: the theorems about the pool, a small pool and runs on it.

    ** How code is modelled

    A function of the code is a definition of the same name in the state and
    error monad [M] of this file; statements are written with lvalues ([l ∙ f],
    [l.[i]], [! l], [l ::= v]).  A member of a struct or a bit-field is assigned
    through an instance of [Field], which truncates to its width; unsigned
    arithmetic wraps at its width ([wrap]).  A failed assertion, an access
    outside an array, the use of an unassigned local and an exhausted budget are
    errors.  Loops that count are structural; loops that wait for the device, or
    whose bound is a property to prove, take a budget ([Fuel], [fuel]): a theorem
    that promises a result ([wp]) proves that the budget suffices or asks for a
    sufficient one, a theorem about everything the code may do before the device
    answers ([wlp]) holds for every budget.  The endless main loop is modelled by
    its first [n] iterations.

    ** What is proved

    - Address translation: a write returns a fresh slice of the right die and is
      what the next read finds; writes, garbage collection included, preserve
      the agreement of the maps; start-up establishes it from any memory; the
      translations between virtual and physical addresses are bijections or
      injections in range.
    - The flash: from start-up on, every block receives a legal sequence of
      operations; a free slot belongs to one owner; waiting for all requests
      leaves no request behind.
    - The scheduler: every way is always on exactly one list, which agrees with its
      die; a round ends whatever moves while it walks; its issue loops stop
      after one way (a fault that costs time, not data).
    - Queues and buffers: the linked lists in arrays implement lists; both buffers
      implement an LRU cache.
    - Commands: a command becomes exactly the requests of its slices.
    - Bad blocks: remapping is injective into good blocks; different slices stay in
      different pages; a failure marks the block that failed.
    - Registers: the words sent to the host interface carry their fields; completion
      of a DMA transfer is decided exactly from byte-wide counters, and a DMA
      request is done exactly when its last block is transferred; the read of
      a write-and-read command waits for its write.
    - The server: the search for a page's file is a lookup; the write-and-read call
      succeeds, sends one command with the addresses of the two pages and keeps
      the cache consistent; the command, once delivered, is queued by the
      firmware as the write of the one page followed by the read of the other.
    - The buffer pool: mini-transactions over it read and write a store of pages,
      whatever it evicts, whatever batches write back and whether the RW command
      is used; a page is read in, a free block is found within three rounds; a
      flush before a checkpoint ends, with the writes of its batch counted and
      their end signalled, and leaves no page dirty that was modified before its
      limit; the lists and tables agree with the states of the blocks, and
      the flush list is in the order of the modifications; every page in a file
      is intact and the log is ahead of it; the LRU list keeps its midpoint; a
      page that is written passes the check of a read; the fast CRC is the CRC.
    - Seven theorems state faults of the code: garbage collection may free the block
      that is being written; a failed write-and-read call leaves an I/O pending
      for ever; in the pool, the RW command may lose a block when a tablespace
      is dropped, leaves stale entries in the adaptive hash index, leaves an
      asynchronous read of the first page unfinished and makes a batch keep its
      hazard pointer, and a request for a watch on an absent page dereferences a
      null pointer.

    ** Bounds

    The smallest machine has one channel, one way and two blocks; its runs use
    1000 iterations for each wait, which its device, answering at once, never
    uses up.  Three rounds suffice to make room for a file in fil_io_with_rw_cmd, three
    for the search for a free block in the pool, and two attempts for access to
    a page.  A batch over the flush list takes one step for each page of the list;
    one over the LRU list with n pages takes at most n * n + n, since every step
    moves towards the head or frees a page.

    ** Not modelled

    - main.c and the vendor library: set-up of the processor, the caches and the
      interrupt controller.
    - Printing, and the text of the statistics.
    - V2FGetFeaturesSync and V2FStatusCheckSync of nsc_driver.c, which are never
      called.
    - Other threads and mutexes of the server: a wait for another thread is an
      exhausted budget.  What other threads hold of the pool, latches and fixed
      pages, is part of the state an operation starts from.  The theorems about
      mini-transactions are about clients that come one after the other, each
      with one page.
    - Of the buffer pool: compressed pages, the doublewrite buffer (it is off),
      recovery, the insert buffer (it is empty), read-ahead, the loop of the page
      cleaner thread, which decides how much to flush, and the allocation of the
      pool.  An asynchronous request is carried out when it is posted and is
      completed when the thread waits for the batch.  The adaptive hash index is the set of
      blocks it has entries for; a latch is its holders, not its lock word.
    - The log: its records are counted, the rest is the class [PageIo].
    - The rest of MySQL: code that does not touch the command.
    - The Linux driver, which is a hypothesis ([delivers] in RwPath). *)
From Stdlib Require Export ZArith Lia.
From stdpp Require Export base numbers gmap list.

#[global] Open Scope Z_scope.
Set Default Proof Using "Type".

(** ** Results and the state/error monad

    The ways a run of the firmware can fail to return: a failed [assert], an
    access outside an array, the use of a local that was never assigned, and
    (for the loops that are not structural) an exhausted iteration budget. *)

Inductive error :=
| Assert      (** [assert(!"...")] *)
| Bounds      (** array index outside the array *)
| Undef       (** read of an unassigned local *)
| NoFuel.     (** iteration budget of a [while] exhausted *)

Inductive result (S A : Type) :=
| Ok (a : A) (s : S)
| Err (e : error).
Arguments Ok {S A} _ _.
Arguments Err {S A} _.

Definition M (S A : Type) : Type := S → result S A.

Definition ret {S A} (a : A) : M S A := λ s, Ok a s.
Definition bind {S A B} (m : M S A) (k : A → M S B) : M S B :=
  λ s, match m s with Ok a s' => k a s' | Err e => Err e end.
Definition fail {S A} (e : error) : M S A := λ _, Err e.

Declare Scope fw_scope.
Delimit Scope fw_scope with fw.
#[global] Open Scope fw_scope.

Notation "x <- m ;; k" := (bind m (λ x, k))
  (at level 20, m at level 99, k at level 200) : fw_scope.
Notation "' p <- m ;; k" := (bind m (λ x, let p := x in k))
  (at level 20, p pattern, m at level 99, k at level 200) : fw_scope.
Notation "m ;; k" := (bind m (λ _, k))
  (at level 100, k at level 200, right associativity) : fw_scope.
Abbreviation skip := (ret tt).

Definition when {S} (b : bool) (m : M S unit) : M S unit := if b then m else skip.

(** ** Fields and lvalues

    A C lvalue is a path into the state: reading it may fall outside an array
    ([peek] is [None]); assigning it replaces the designated object.  [Field]
    gives the assignment of a struct member; for a bit-field the instance
    truncates to the declared width, as the C assignment does. *)

Class Field {R T : Type} (get : R → T) := fset : T → R → R.
Arguments fset {R T} get {_} _ _.

Record lval (S T : Type) := LV { peek : S → option T; poke : T → S → S }.
Arguments LV {S T} _ _.
Arguments peek {S T} _ _.
Arguments poke {S T} _ _ _.

(** A member of the state itself. *)
Definition glob {S T} (get : S → T) `{!Field get} : lval S T :=
  LV (λ s, Some (get s)) (fset get).

(** [l.f] *)
Definition dot {S R T} (l : lval S R) (get : R → T) `{!Field get} : lval S T :=
  LV (λ s, get <$> peek l s)
     (λ v s, match peek l s with Some r => poke l (fset get v r) s | None => s end).

(** [l[i]]; the elements of a two-dimensional array are indexed by pairs. *)
Definition idx {S K T} `{Countable K} (l : lval S (gmap K T)) (i : K) : lval S T :=
  LV (λ s, match peek l s with Some m => m !! i | None => None end)
     (λ v s, match peek l s with Some m => poke l (<[i:=v]> m) s | None => s end).

Notation "l ∙ f" := (dot l f) (at level 1, left associativity) : fw_scope.
Notation "l .[ i ]" := (idx l i) (at level 1, left associativity, format "l .[ i ]") : fw_scope.

Definition load {S T} (l : lval S T) : M S T :=
  λ s, match peek l s with Some v => Ok v s | None => Err Bounds end.
Definition store {S T} (l : lval S T) (v : T) : M S unit :=
  λ s, match peek l s with Some _ => Ok tt (poke l v s) | None => Err Bounds end.
Definition modify {S T} (l : lval S T) (f : T → T) : M S unit :=
  λ s, match peek l s with Some v => Ok tt (poke l (f v) s) | None => Err Bounds end.
Definition incr {S} (l : lval S Z) : M S unit := modify l (λ n, n + 1).
Definition decr {S} (l : lval S Z) : M S unit := modify l (λ n, n - 1).

Notation "! l" := (load l) (at level 25, format "! l") : fw_scope.
Notation "l ::= v" := (store l v) (at level 60, no associativity) : fw_scope.

(** Run a computation on a part of the state. *)
Definition zoom {S T A} (get : S → T) `{!Field get} (m : M T A) : M S A :=
  λ s, match m (get s) with Ok a t => Ok a (fset get t s) | Err e => Err e end.

(** Lift an option: [None] is an out-of-bounds access. *)
Definition from_option {S A} (o : option A) : M S A :=
  match o with Some a => ret a | None => fail Bounds end.

(** ** Machine integers: unsigned wrap-around at width [w]. *)

Definition wrap (w v : Z) : Z := v mod 2 ^ w.
#[global] Arguments wrap : simpl never.
Abbreviation u32 := (wrap 32).
Abbreviation u16 := (wrap 16).
Abbreviation u8 := (wrap 8).

(** Bit-fields: bits [lo .. lo+w-1] of a word, and their assignment. *)
Definition get_bits (lo w v : Z) : Z := wrap w (Z.shiftr v lo).
Definition set_bits (lo w x v : Z) : Z :=
  v - Z.shiftl (get_bits lo w v) lo + Z.shiftl (wrap w x) lo.

(** ** Loops *)

(** [for (i = lo; i < lo + n; i++) body(i)] *)
Fixpoint for_n {S} (n : nat) (i : Z) (body : Z → M S unit) : M S unit :=
  match n with
  | O => skip
  | Datatypes.S n => body i ;; for_n n (i + 1) body
  end.
Definition for_range {S} (lo hi : Z) (body : Z → M S unit) : M S unit :=
  for_n (Z.to_nat (hi - lo)) lo body.

(** The same with local variables [x] that the body updates. *)
Fixpoint for_acc_n {S X} (n : nat) (i : Z) (body : Z → X → M S X) (x : X) : M S X :=
  match n with
  | O => ret x
  | Datatypes.S n => x' <- body i x ;; for_acc_n n (i + 1) body x'
  end.
Definition for_acc {S X} (lo hi : Z) (body : Z → X → M S X) (x : X) : M S X :=
  for_acc_n (Z.to_nat (hi - lo)) lo body x.

(** [for] over the elements of a list *)
Fixpoint for_each {S A} (f : A → M S unit) (l : list A) : M S unit :=
  match l with [] => skip | x :: l => f x ;; for_each f l end.

(** A [while] loop with its local variables [x]; the body goes on ([inl]) or
    leaves the loop ([inr]). *)
Fixpoint loop {S X B} (fuel : nat) (body : X → M S (X + B)) (x : X) : M S B :=
  match fuel with
  | O => fail NoFuel
  | Datatypes.S fuel =>
      r <- body x ;;
      match r with inl x' => loop fuel body x' | inr b => ret b end
  end.

(** ** Weakest preconditions

    [wp m Q s]: run from [s], [m] returns (no failed assertion, no access out
    of bounds, no exhausted budget) and its result and final state satisfy
    [Q].  Theorems that promise a result have this form; what holds of every run
    that returns is stated with [wlp] of Frame.v. *)

Definition wp {S A} (m : M S A) (Q : A → S → Prop) (s : S) : Prop :=
  match m s with Ok a s' => Q a s' | Err _ => False end.

Section wp.
Context {S : Type}.
Implicit Types s : S.

Lemma wp_ok {A} (m : M S A) Q s :
  wp m Q s ↔ ∃ a s', m s = Ok a s' ∧ Q a s'.
Proof.
  unfold wp. destruct (m s) as [a s'|e]; split.
  - by exists a, s'.
  - by intros (?&?&[= -> ->]&?).
  - done.
  - by intros (?&?&?&?).
Qed.

Lemma wp_ret {A} (a : A) (Q : A → S → Prop) s : Q a s → wp (ret a) Q s.
Proof. done. Qed.

Lemma wp_bind {A B} (m : M S A) (k : A → M S B) Q s :
  wp m (λ a s', wp (k a) Q s') s → wp (bind m k) Q s.
Proof. unfold wp, bind. by destruct (m s). Qed.

Lemma wp_bind_inv {A B} (m : M S A) (k : A → M S B) Q s :
  wp (bind m k) Q s → wp m (λ a s', wp (k a) Q s') s.
Proof. unfold wp, bind. by destruct (m s). Qed.

Lemma wp_mono {A} (m : M S A) (P Q : A → S → Prop) s :
  wp m P s → (∀ a s', P a s' → Q a s') → wp m Q s.
Proof. unfold wp. destruct (m s); [auto|done]. Qed.

Lemma wp_and {A} (m : M S A) (P Q : A → S → Prop) s :
  wp m P s → wp m Q s → wp m (λ a s', P a s' ∧ Q a s') s.
Proof. unfold wp. by destruct (m s). Qed.

Lemma wp_load {T} (l : lval S T) (v : T) (Q : T → S → Prop) s :
  peek l s = Some v → Q v s → wp (load l) Q s.
Proof. unfold wp, load. by intros ->. Qed.

Lemma wp_store {T} (l : lval S T) (old v : T) (Q : unit → S → Prop) s :
  peek l s = Some old → Q tt (poke l v s) → wp (store l v) Q s.
Proof. unfold wp, store. by intros ->. Qed.

Lemma wp_modify {T} (l : lval S T) (f : T → T) (v : T) (Q : unit → S → Prop) s :
  peek l s = Some v → Q tt (poke l (f v) s) → wp (modify l f) Q s.
Proof. unfold wp, modify. by intros ->. Qed.

Lemma wp_from_option {A} (o : option A) a (Q : A → S → Prop) s :
  o = Some a → Q a s → wp (from_option o) Q s.
Proof. by intros ->. Qed.

Lemma wp_zoom {T A} (get : S → T) `{!Field get} (m : M T A) (Q : A → S → Prop) s :
  wp m (λ a t, Q a (fset get t s)) (get s) → wp (zoom get m) Q s.
Proof. unfold wp, zoom. by destruct (m (get s)). Qed.

Lemma wp_when b (m : M S unit) (Q : unit → S → Prop) s :
  (b = true → wp m Q s) → (b = false → Q tt s) → wp (when b m) Q s.
Proof. destruct b; naive_solver. Qed.

(** A counted loop by its invariant [I i s] (before iteration [i]). *)
Lemma wp_for_n (I : Z → S → Prop) body n lo s :
  I lo s →
  (∀ i s, lo ≤ i < lo + Z.of_nat n → I i s → wp (body i) (λ _ s', I (i + 1) s') s) →
  wp (for_n n lo body) (λ _ s', I (lo + Z.of_nat n) s') s.
Proof.
  revert lo s. induction n as [|n IH]; intros lo s HI Hb; cbn [for_n].
  - apply wp_ret. by rewrite Z.add_0_r.
  - apply wp_bind. eapply wp_mono; [apply Hb; [lia|done]|].
    intros ? s' HI'. replace (lo + Z.of_nat (Datatypes.S n))
      with (lo + 1 + Z.of_nat n) by lia.
    apply IH; [done|]. intros i ? ?. apply Hb. lia.
Qed.

Lemma wp_for_range (I : Z → S → Prop) body lo hi s :
  lo ≤ hi → I lo s →
  (∀ i s, lo ≤ i < hi → I i s → wp (body i) (λ _ s', I (i + 1) s') s) →
  wp (for_range lo hi body) (λ _ s', I hi s') s.
Proof.
  intros Hle HI Hb. unfold for_range.
  pose proof (wp_for_n I body (Z.to_nat (hi - lo)) lo s HI) as H.
  rewrite Z2Nat.id in H by lia. replace (lo + (hi - lo)) with hi in H by lia.
  by apply H.
Qed.

Lemma wp_for_acc_n {X} (I : Z → X → S → Prop) body n lo x s :
  I lo x s →
  (∀ i x s, lo ≤ i < lo + Z.of_nat n → I i x s → wp (body i x) (λ x' s', I (i + 1) x' s') s) →
  wp (for_acc_n n lo body x) (λ x' s', I (lo + Z.of_nat n) x' s') s.
Proof.
  revert lo x s. induction n as [|n IH]; intros lo x s HI Hb; cbn [for_acc_n].
  - apply wp_ret. by rewrite Z.add_0_r.
  - apply wp_bind. eapply wp_mono; [apply Hb; [lia|done]|].
    intros x' s' HI'. replace (lo + Z.of_nat (Datatypes.S n))
      with (lo + 1 + Z.of_nat n) by lia.
    apply IH; [done|]. intros i ? ? ?. apply Hb. lia.
Qed.

Lemma wp_for_acc {X} (I : Z → X → S → Prop) body lo hi x s :
  lo ≤ hi → I lo x s →
  (∀ i x s, lo ≤ i < hi → I i x s → wp (body i x) (λ x' s', I (i + 1) x' s') s) →
  wp (for_acc lo hi body x) (λ x' s', I hi x' s') s.
Proof.
  intros Hle HI Hb. unfold for_acc.
  pose proof (wp_for_acc_n I body (Z.to_nat (hi - lo)) lo x s HI) as H.
  rewrite Z2Nat.id in H by lia. replace (lo + (hi - lo)) with hi in H by lia.
  by apply H.
Qed.

Lemma wp_for_each {X} (I : S → Prop) (f : X → M S unit) l s :
  I s → (∀ x s, x ∈ l → I s → wp (f x) (λ _ s', I s') s) → wp (for_each f l) (λ _ s', I s') s.
Proof.
  revert s. induction l as [|x l IH]; intros s HI Hf; [done|]. cbn [for_each].
  apply wp_bind. eapply wp_mono; [apply Hf; [by left|done]|]. intros [] s' HI'.
  apply IH; [done|]. intros y s'' Hy. apply Hf. by right.
Qed.

(** A [while] loop by an invariant and a variant: the budget suffices as soon
    as it exceeds the variant. *)
Lemma wp_loop {X B} (I : X → S → Prop) (var : X → S → nat)
    (body : X → M S (X + B)) (Q : B → S → Prop) fuel x s :
  (var x s < fuel)%nat → I x s →
  (∀ x s, I x s →
     wp (body x) (λ r s', match r with
                          | inl x' => I x' s' ∧ (var x' s' < var x s)%nat
                          | inr b => Q b s' end) s) →
  wp (loop fuel body x) Q s.
Proof.
  intros Hf HI Hb. revert x s Hf HI.
  induction fuel as [|fuel IH]; intros x s Hf HI; [lia|]. cbn [loop].
  apply wp_bind. eapply wp_mono; [by apply Hb|].
  intros [x'|b] s'; [|done]. intros [HI' Hlt]. apply IH; [lia|done].
Qed.
End wp.

(** ** Arithmetic shared by the components *)

Lemma wrap_small w v : 0 ≤ v < 2 ^ w → wrap w v = v.
Proof. apply Z.mod_small. Qed.

Lemma wrap_bound w v : 0 ≤ w → 0 ≤ wrap w v < 2 ^ w.
Proof. intros. apply Z.mod_pos_bound. lia. Qed.

Lemma wrap_wrap w v : wrap w (wrap w v) = wrap w v.
Proof. apply Zmod_mod. Qed.

(** ** Bit-fields *)

Lemma get_bits_bound lo w v : 0 ≤ w → 0 ≤ get_bits lo w v < 2 ^ w.
Proof. apply wrap_bound. Qed.

Lemma set_bits_eq lo w x v :
  0 ≤ lo → set_bits lo w x v = v + (wrap w x - get_bits lo w v) * 2 ^ lo.
Proof. intros. unfold set_bits. rewrite !Z.shiftl_mul_pow2 by lia. ring. Qed.

Lemma get_set_bits lo w x v : 0 ≤ lo → 0 ≤ w → get_bits lo w (set_bits lo w x v) = wrap w x.
Proof.
  intros Hlo Hw. rewrite set_bits_eq by done. unfold get_bits. rewrite !Z.shiftr_div_pow2 by lia.
  pose proof (Z.pow_pos_nonneg 2 lo ltac:(lia) Hlo). pose proof (Z.pow_pos_nonneg 2 w ltac:(lia) Hw).
  rewrite Z.div_add by lia. unfold wrap.
  replace (v / 2 ^ lo + (x mod 2 ^ w - (v / 2 ^ lo) mod 2 ^ w))
    with (x mod 2 ^ w + (v / 2 ^ lo / 2 ^ w) * 2 ^ w)
    by (pose proof (Z.div_mod (v / 2 ^ lo) (2 ^ w)); lia).
  rewrite Z.mod_add, Z.mod_mod by lia. done.
Qed.

Lemma get_set_bits_above lo w x v lo' w' :
  0 ≤ lo → 0 ≤ w → lo + w ≤ lo' → get_bits lo' w' (set_bits lo w x v) = get_bits lo' w' v.
Proof.
  intros Hlo Hw Hlo'. unfold get_bits at 1 2. f_equal. rewrite !Z.shiftr_div_pow2 by lia.
  replace lo' with (lo + w + (lo' - lo - w)) by lia.
  rewrite (Z.pow_add_r 2 (lo + w)) by lia.
  pose proof (Z.pow_pos_nonneg 2 (lo + w) ltac:(lia) ltac:(lia)).
  pose proof (Z.pow_pos_nonneg 2 (lo' - lo - w) ltac:(lia) ltac:(lia)).
  rewrite <- !Z.div_div by lia. f_equal. rewrite set_bits_eq by done.
  pose proof (wrap_bound w x Hw) as Hx. pose proof (get_bits_bound lo w v Hw) as Hg.
  pose proof (Z.pow_pos_nonneg 2 lo ltac:(lia) Hlo). unfold get_bits in *.
  rewrite Z.shiftr_div_pow2 in * by lia. unfold wrap in Hg.
  rewrite Z.pow_add_r, <- !Z.div_div by lia. rewrite Z.div_add by lia.
  set (q := v / 2 ^ lo) in *. symmetry. unfold wrap at 2.
  apply Z.div_unique with (wrap w x); [lia|].
  pose proof (Z.div_mod q (2 ^ w)). lia.
Qed.

Lemma get_set_bits_below lo w x v lo' w' :
  0 ≤ lo' → 0 ≤ w' → lo' + w' ≤ lo → get_bits lo' w' (set_bits lo w x v) = get_bits lo' w' v.
Proof.
  intros Hlo' Hw' Hlo. rewrite set_bits_eq by lia. unfold get_bits at 1 3, wrap.
  rewrite !Z.shiftr_div_pow2 by lia.
  replace (2 ^ lo) with (2 ^ (lo - lo' - w') * 2 ^ w' * 2 ^ lo')
    by (rewrite <- !Z.pow_add_r by lia; f_equal; lia).
  pose proof (Z.pow_pos_nonneg 2 lo' ltac:(lia) Hlo').
  pose proof (Z.pow_pos_nonneg 2 w' ltac:(lia) Hw').
  rewrite !Z.mul_assoc, Z.div_add, Z.mod_add by lia. done.
Qed.

Lemma set_bits_range lo w x v n :
  0 ≤ lo → 0 ≤ w → lo + w ≤ n → 0 ≤ v < 2 ^ n → 0 ≤ set_bits lo w x v < 2 ^ n.
Proof.
  intros Hlo Hw Hn Hv.
  assert (set_bits lo w x v / 2 ^ n = v / 2 ^ n) as Hq.
  { apply Z.bits_inj'. intros k Hk.
    pose proof (get_set_bits_above lo w x v n (k + 1) Hlo Hw Hn) as Hg. unfold get_bits, wrap in Hg.
    rewrite !Z.shiftr_div_pow2 in Hg by lia.
    apply (f_equal (λ z, Z.testbit z k)) in Hg. rewrite !Z.mod_pow2_bits_low in Hg by lia. done. }
  rewrite (Z.div_small v) in Hq by done.
  pose proof (Z.pow_pos_nonneg 2 n ltac:(lia) ltac:(lia)) as Hp.
  apply Z.div_small_iff in Hq; lia.
Qed.

(** ** Arrays

    [array n m]: [m] is an array of [n] elements (indices [0 .. n-1]). *)

Definition array {T} (n : Z) (m : gmap Z T) : Prop :=
  ∀ i, is_Some (m !! i) ↔ 0 ≤ i < n.

Lemma array_lookup {T} n (m : gmap Z T) i :
  array n m → 0 ≤ i < n → ∃ v, m !! i = Some v.
Proof. intros H Hi. by destruct (proj2 (H i) Hi) as [v ?]; exists v. Qed.

Lemma array_range {T} n (m : gmap Z T) i v :
  array n m → m !! i = Some v → 0 ≤ i < n.
Proof. intros H Hi. apply H. eauto. Qed.

Lemma array_insert {T} n (m : gmap Z T) i v :
  array n m → 0 ≤ i < n → array n (<[i:=v]> m).
Proof.
  intros H Hi j. rewrite lookup_insert. case_decide; subst; [|apply H].
  split; [done|eauto].
Qed.

Lemma array_same_dom {T U} n (m : gmap Z T) (m' : gmap Z U) :
  array n m → (∀ i, is_Some (m' !! i) ↔ is_Some (m !! i)) → array n m'.
Proof. intros H Hd i. rewrite Hd. apply H. Qed.

Lemma array_fmap_eq {T U} n (f : T → U) (m m' : gmap Z T) :
  f <$> m' = f <$> m → array n m → array n m'.
Proof.
  intros Hf H. eapply array_same_dom; [done|]. intros i.
  pose proof (f_equal (.!! i) Hf) as Hi. cbn in Hi. rewrite !lookup_fmap in Hi.
  destruct (m' !! i), (m !! i); naive_solver.
Qed.

(** A list of distinct indices is no longer than the array. *)
Lemma NoDup_length_bound (n : Z) (l : list Z) :
  NoDup l → (∀ x, x ∈ l → 0 ≤ x < n) → Z.of_nat (length l) ≤ Z.max 0 n.
Proof.
  intros Hnd Hr. assert (l ⊆+ seqZ 0 n) as Hs.
  { apply NoDup_submseteq; [done|]. intros x Hx%Hr. apply elem_of_seqZ. lia. }
  apply submseteq_length in Hs. rewrite length_seqZ in Hs. lia.
Qed.

(** The executable array with all [n] elements equal to [f i]. *)
Definition mk_array {T} (n : nat) (f : Z → T) : gmap Z T :=
  list_to_map ((λ i, (Z.of_nat i, f (Z.of_nat i))) <$> seq 0 n).

Lemma lookup_mk_array {T} n (f : Z → T) i :
  0 ≤ i < Z.of_nat n → mk_array n f !! i = Some (f i).
Proof.
  intros Hi. unfold mk_array. apply elem_of_list_to_map_1.
  - rewrite <- list_fmap_compose. apply NoDup_fmap_2_strong; [cbn; lia|apply NoDup_seq].
  - apply list_elem_of_fmap. exists (Z.to_nat i). rewrite Z2Nat.id by lia.
    split; [done|]. apply elem_of_seq. lia.
Qed.

Lemma array_mk_array {T} n (f : Z → T) : array (Z.of_nat n) (mk_array n f).
Proof.
  intros i. split.
  - intros [v Hv]. apply elem_of_list_to_map_2, list_elem_of_fmap in Hv.
    destruct Hv as (k & [= -> _] & Hk%elem_of_seq). lia.
  - intros Hi. rewrite lookup_mk_array by done. eauto.
Qed.

(** Choosing a value for each of finitely many indices. *)
Lemma finite_choice {T} (x0 : T) n (P : Z → T → Prop) :
  (∀ i, 0 ≤ i < n → ∃ x, P i x) → ∃ F, ∀ i, 0 ≤ i < n → P i (F i).
Proof.
  intros HP. destruct (decide (0 ≤ n)) as [Hn|]; [|exists (λ _, x0); lia].
  revert HP. pattern n. apply natlike_ind; [exists (λ _, x0); lia| |done].
  intros k Hk IH HP. unfold Z.succ in *. destruct IH as [F HF]; [intros; apply HP; lia|].
  destruct (HP k) as [x Hx]; [lia|]. exists (λ i, if i =? k then x else F i). intros i Hi.
  destruct (Z.eqb_spec i k) as [->|]; [done|]. apply HF. lia.
Qed.

(** ** Counting

    How many indices below [n] satisfy [f]. *)

Fixpoint count_n (f : Z → bool) (n : nat) : Z :=
  match n with
  | O => 0
  | Datatypes.S n => count_n f n + (if f (Z.of_nat n) then 1 else 0)
  end.
Definition count (f : Z → bool) (n : Z) : Z := count_n f (Z.to_nat n).

Lemma count_ext f g n : (∀ p, 0 ≤ p < n → f p = g p) → count f n = count g n.
Proof.
  intros H. unfold count. assert (∀ p, 0 ≤ p < Z.of_nat (Z.to_nat n) → f p = g p) as Hn
    by (intros; apply H; lia). clear H.
  induction (Z.to_nat n) as [|k IH]; [done|]. cbn [count_n].
  rewrite IH, (Hn (Z.of_nat k)) by (intros; try apply Hn; lia). done.
Qed.

Lemma count_succ f n : 0 ≤ n → count f (n + 1) = count f n + (if f n then 1 else 0).
Proof.
  intros Hn. unfold count. replace (Z.to_nat (n + 1)) with (Datatypes.S (Z.to_nat n)) by lia.
  cbn [count_n]. by rewrite Z2Nat.id by lia.
Qed.

Lemma count_bound f n : 0 ≤ n → 0 ≤ count f n ≤ n.
Proof.
  intros Hn. pattern n. apply natlike_ind; [done| |done].
  intros k Hk IH. unfold Z.succ. rewrite count_succ by done. destruct (f k); lia.
Qed.

Lemma count_every f n : 0 ≤ n → (∀ p, 0 ≤ p < n → f p = true) → count f n = n.
Proof.
  intros Hn. pattern n. apply natlike_ind; [done| |done].
  intros k Hk IH Hf. unfold Z.succ in *. rewrite count_succ, IH, Hf by (done || lia || (intros; apply Hf; lia)).
  done.
Qed.

Lemma count_all f n p : count f n = n → 0 ≤ p < n → f p = true.
Proof.
  intros Hc Hp. assert (0 ≤ n) as Hn by lia. revert p Hp Hc. pattern n.
  apply natlike_ind; [lia| |done]. intros k Hk IH p Hp. unfold Z.succ in *.
  rewrite count_succ by done. pose proof (count_bound f k Hk) as Hb. intros Hc.
  destruct (f k) eqn:Hf; [|lia]. destruct (decide (p = k)) as [->|]; [done|apply IH; lia].
Qed.

Lemma count_flip f g n p :
  0 ≤ p < n → f p = false → g p = true → (∀ q, 0 ≤ q < n → q ≠ p → g q = f q) →
  count g n = count f n + 1.
Proof.
  intros Hp Hf Hg He. assert (0 ≤ n) as Hn by lia. revert p Hp Hf Hg He. pattern n.
  apply natlike_ind; [lia| |done]. intros k Hk IH p Hp Hf Hg He. unfold Z.succ in *.
  rewrite !count_succ by done. destruct (decide (p = k)) as [->|Hne].
  - rewrite Hf, Hg, (count_ext g f) by (intros; apply He; lia). lia.
  - rewrite (IH p), (He k) by (done || lia || (intros; apply He; lia)). lia.
Qed.

(** ** Tactics and hints *)

Create HintDb fw.
#[export] Hint Resolve wrap_bound array_insert : fw.

(** Evaluate [peek]/[poke] paths down to map lookups and record updates. *)
Ltac lv_simpl :=
  cbn [peek poke dot idx glob fset option_map fmap option_fmap] in *.

Ltac case_Z :=
  repeat match goal with
  | |- context [Z.eqb ?a ?b] => destruct (Z.eqb_spec a b)
  | |- context [Z.ltb ?a ?b] => destruct (Z.ltb_spec a b)
  | |- context [Z.leb ?a ?b] => destruct (Z.leb_spec a b)
  end.

(** Read bit-fields back through assignments of other ones. *)
Ltac bits :=
  repeat first
    [ rewrite get_set_bits by lia
    | rewrite get_set_bits_above by lia
    | rewrite get_set_bits_below by lia ].
