(* ===== verification/Frame.v ===== *)
(** Safety reasoning: [wlp] (whatever a run that returns has done) and the parts
    of the state an operation keeps. *)
From S2P Require Import Prelude.

(** ** Weakest liberal preconditions

    [wlp m Q s]: if [m] returns from [s], its result and final state satisfy
    [Q].  Used for invariants of code that waits for the device, which returns
    only if the device answers. *)

Definition wlp {S A} (m : M S A) (Q : A → S → Prop) (s : S) : Prop :=
  match m s with Ok a s' => Q a s' | Err _ => True end.

Section wlp.
Context {S : Type}.
Implicit Types s : S.

Lemma wp_wlp {A} (m : M S A) Q s : wp m Q s → wlp m Q s.
Proof. unfold wp, wlp. by destruct (m s). Qed.

Lemma wlp_ret {A} (a : A) (Q : A → S → Prop) s : Q a s → wlp (ret a) Q s.
Proof. done. Qed.

Lemma wlp_fail {A} e (Q : A → S → Prop) s : wlp (fail e) Q s.
Proof. done. Qed.

Lemma wlp_bind {A B} (m : M S A) (k : A → M S B) Q s :
  wlp m (λ a s', wlp (k a) Q s') s → wlp (bind m k) Q s.
Proof. unfold wlp, bind. by destruct (m s). Qed.

Lemma wlp_assoc {A B C} (m : M S A) (k : A → M S B) (k' : B → M S C) Φ s :
  wlp (bind (bind m k) k') Φ s → wlp (bind m (λ a, bind (k a) k')) Φ s.
Proof. unfold wlp, bind. by destruct (m s). Qed.

Lemma wlp_mono {A} (m : M S A) (P Q : A → S → Prop) s :
  wlp m P s → (∀ a s', P a s' → Q a s') → wlp m Q s.
Proof. unfold wlp. destruct (m s); auto. Qed.

Lemma wlp_and {A} (m : M S A) (P Q : A → S → Prop) s :
  wlp m P s → wlp m Q s → wlp m (λ a s', P a s' ∧ Q a s') s.
Proof. unfold wlp. by destruct (m s). Qed.

Lemma wlp_load {T} (l : lval S T) (Q : T → S → Prop) s :
  (∀ v, peek l s = Some v → Q v s) → wlp (load l) Q s.
Proof. unfold wlp, load. destruct (peek l s); auto. Qed.

Lemma wlp_store {T} (l : lval S T) (v : T) (Q : unit → S → Prop) s :
  (∀ old, peek l s = Some old → Q tt (poke l v s)) → wlp (store l v) Q s.
Proof. unfold wlp, store. destruct (peek l s); eauto. Qed.

Lemma wlp_modify {T} (l : lval S T) (f : T → T) (Q : unit → S → Prop) s :
  (∀ v, peek l s = Some v → Q tt (poke l (f v) s)) → wlp (modify l f) Q s.
Proof. unfold wlp, modify. destruct (peek l s); eauto. Qed.

Lemma wlp_when b (m : M S unit) (Q : unit → S → Prop) s :
  (b = true → wlp m Q s) → (b = false → Q tt s) → wlp (when b m) Q s.
Proof. destruct b; cbn; intros; [auto|]. apply wlp_ret. auto. Qed.

Lemma wlp_zoom {T A} (get : S → T) `{!Field get} (m : M T A) (Q : A → S → Prop) s :
  wlp m (λ a t, Q a (fset get t s)) (get s) → wlp (zoom get m) Q s.
Proof. unfold wlp, zoom. by destruct (m (get s)). Qed.

Lemma wlp_loop {X B} (I : X → S → Prop) (body : X → M S (X + B)) (Q : B → S → Prop) fuel x s :
  I x s →
  (∀ x s, I x s → wlp (body x) (λ r s', match r with inl x' => I x' s' | inr b => Q b s' end) s) →
  wlp (loop fuel body x) Q s.
Proof.
  intros HI Hb. revert x s HI. induction fuel as [|fuel IH]; intros x s HI; [done|].
  cbn [loop]. apply wlp_bind. eapply wlp_mono; [by apply Hb|].
  intros [x'|b] s' Hr; [by apply IH|done].
Qed.

Lemma wlp_for_range (I : Z → S → Prop) body lo hi s :
  lo ≤ hi → I lo s →
  (∀ i s, lo ≤ i < hi → I i s → wlp (body i) (λ _ s', I (i + 1) s') s) →
  wlp (for_range lo hi body) (λ _ s', I hi s') s.
Proof.
  intros Hle HI Hb. unfold for_range.
  assert (∀ n lo s, lo + Z.of_nat n = hi → I lo s →
    (∀ i s, lo ≤ i < hi → I i s → wlp (body i) (λ _ s', I (i + 1) s') s) →
    wlp (for_n n lo body) (λ _ s', I hi s') s) as H.
  { clear. induction n as [|n IH]; intros lo s Hhi HI Hb; cbn [for_n].
    - apply wlp_ret. by replace hi with lo by lia.
    - apply wlp_bind. eapply wlp_mono; [apply Hb; [lia|done]|].
      intros ? s' HI'. apply IH; [lia|done|]. intros i ? ?. apply Hb. lia. }
  apply H; [lia|done|done].
Qed.
End wlp.

(** ** Runs that may fail, and how

    [wpe m Q E s]: [m] returns with [Q], or fails with an error in [E]. *)

Definition wpe {S A} (m : M S A) (Q : A → S → Prop) (E : error → Prop) (s : S) : Prop :=
  match m s with Ok a s' => Q a s' | Err e => E e end.

Section wpe.
Context {S : Type} (E : error → Prop).
Implicit Types s : S.

Lemma wp_wpe {A} (m : M S A) Q s : wp m Q s → wpe m Q E s.
Proof. unfold wp, wpe. by destruct (m s). Qed.

Lemma wpe_wlp {A} (m : M S A) Q s : wpe m Q E s → wlp m Q s.
Proof. unfold wlp, wpe. by destruct (m s). Qed.

Lemma wpe_bind {A B} (m : M S A) (k : A → M S B) Q s :
  wpe m (λ a s', wpe (k a) Q E s') E s → wpe (bind m k) Q E s.
Proof. unfold wpe, bind. by destruct (m s). Qed.

Lemma wpe_mono {A} (m : M S A) (P Q : A → S → Prop) s :
  wpe m P E s → (∀ a s', P a s' → Q a s') → wpe m Q E s.
Proof. unfold wpe. destruct (m s); auto. Qed.

Lemma wpe_ret {A} (a : A) (Q : A → S → Prop) s : Q a s → wpe (ret a) Q E s.
Proof. done. Qed.

Lemma wpe_load {T} (l : lval S T) (Q : T → S → Prop) s :
  E Bounds → (∀ v, peek l s = Some v → Q v s) → wpe (load l) Q E s.
Proof. unfold wpe, load. destruct (peek l s); auto. Qed.

(** What a run has done and how it may fail, from the two apart. *)
Lemma wlp_wpe {A} (m : M S A) (P Q : A → S → Prop) s :
  wlp m P s → wpe m Q E s → wpe m (λ a s', P a s' ∧ Q a s') E s.
Proof. unfold wlp, wpe. by destruct (m s). Qed.

(** The invariant of a loop with the number of rounds left. *)
Lemma wpe_rounds {X B} (I : nat → X → S → Prop) (body : X → M S (X + B)) (Q : B → S → Prop) n fuel x s :
  (n < fuel)%nat → I n x s →
  (∀ n x s, I n x s →
     wpe (body x) (λ r s', match r with
                           | inl x' => ∃ m, (m < n)%nat ∧ I m x' s'
                           | inr b => Q b s' end) E s) →
  wpe (loop fuel body x) Q E s.
Proof.
  intros Hf HI Hb. revert n x s Hf HI. induction fuel as [|fuel IH]; intros n x s Hf HI; [lia|]. cbn [loop].
  apply wpe_bind. eapply wpe_mono; [by eapply Hb|]. intros [x'|b] s'; [|done].
  intros (m & Hm & HI'). by apply (IH m); [lia|].
Qed.

Lemma wpe_loop {X B} (I : X → S → Prop) (var : X → S → nat)
    (body : X → M S (X + B)) (Q : B → S → Prop) fuel x s :
  (var x s < fuel)%nat → I x s →
  (∀ x s, I x s →
     wpe (body x) (λ r s', match r with
                           | inl x' => I x' s' ∧ (var x' s' < var x s)%nat
                           | inr b => Q b s' end) E s) →
  wpe (loop fuel body x) Q E s.
Proof.
  intros Hf HI Hb. revert x s Hf HI.
  induction fuel as [|fuel IH]; intros x s Hf HI; [lia|]. cbn [loop].
  apply wpe_bind. eapply wpe_mono; [by apply Hb|].
  intros [x'|b] s'; [|done]. intros [HI' Hlt]. apply IH; [lia|done].
Qed.
End wpe.

(** ** Kept parts of the state

    [Keeps g m]: a run of [m] that returns leaves the part [g] of the state as
    it was. *)

Class Keeps {S A T} (g : S → T) (m : M S A) : Prop :=
  keeps s : wlp m (λ _ s', g s' = g s) s.

(** An assignment of the lvalue keeps [g]. *)
Class LKeeps {S V T} (g : S → T) (l : lval S V) : Prop :=
  lkeeps v s : g (poke l v s) = g s.

Section keeps.
Context {S T : Type} (g : S → T).

#[global] Instance keeps_ret {A} (a : A) : Keeps g (ret a).
Proof. by intros s. Qed.
#[global] Instance keeps_fail {A} e : Keeps (A:=A) g (fail e).
Proof. by intros s. Qed.
#[global] Instance keeps_bind {A B} (m : M S A) (k : A → M S B) :
  Keeps g m → (∀ a, Keeps g (k a)) → Keeps g (bind m k).
Proof.
  intros Hm Hk s. apply wlp_bind. eapply wlp_mono; [apply Hm|]. intros a s' Hs. cbn in Hs.
  eapply wlp_mono; [apply Hk|]. cbn. congruence.
Qed.
#[global] Instance keeps_when b (m : M S unit) : Keeps g m → Keeps g (when b m).
Proof. destruct b; [done|]. intros _. apply keeps_ret. Qed.
#[global] Instance keeps_load {V} (l : lval S V) : Keeps g (load l).
Proof. intros s. by apply wlp_load. Qed.
#[global] Instance keeps_store {V} (l : lval S V) v : LKeeps g l → Keeps g (store l v).
Proof. intros Hl s. apply wlp_store. intros _ _. apply Hl. Qed.
#[global] Instance keeps_modify {V} (l : lval S V) f : LKeeps g l → Keeps g (modify l f).
Proof. intros Hl s. apply wlp_modify. intros v _. apply Hl. Qed.
#[global] Instance keeps_from_option {A} (o : option A) : Keeps g (from_option o).
Proof. destruct o; [apply keeps_ret|apply keeps_fail]. Qed.
#[global] Instance keeps_loop {X B} fuel (body : X → M S (X + B)) x :
  (∀ x, Keeps g (body x)) → Keeps g (loop fuel body x).
Proof.
  intros Hb s. apply (wlp_loop (λ _ s', g s' = g s)); [done|]. intros x' s' Hs.
  eapply wlp_mono; [apply Hb|]. cbn. intros [] s'' ?; congruence.
Qed.
#[global] Instance keeps_for_n n lo (body : Z → M S unit) :
  (∀ i, Keeps g (body i)) → Keeps g (for_n n lo body).
Proof. intros Hb. revert lo. induction n; intros lo; cbn [for_n]; apply _. Qed.
#[global] Instance keeps_for_range lo hi (body : Z → M S unit) :
  (∀ i, Keeps g (body i)) → Keeps g (for_range lo hi body).
Proof. apply keeps_for_n. Qed.
#[global] Instance keeps_for_acc_n {X} n lo (body : Z → X → M S X) x :
  (∀ i x, Keeps g (body i x)) → Keeps g (for_acc_n n lo body x).
Proof. intros Hb. revert lo x. induction n; intros lo x; cbn [for_acc_n]; apply _. Qed.
#[global] Instance keeps_for_acc {X} lo hi (body : Z → X → M S X) x :
  (∀ i x, Keeps g (body i x)) → Keeps g (for_acc lo hi body x).
Proof. apply keeps_for_acc_n. Qed.

(** A component that [g] does not look at. *)
Lemma keeps_zoom_other {C A} (get : S → C) `{!Field get} (m : M C A) :
  (∀ c s, g (fset get c s) = g s) → Keeps g (zoom get m).
Proof. intros Hg s. apply wlp_zoom. unfold wlp. destruct (m (get s)); [apply Hg|done]. Qed.

(** A component of which [g] sees the part [h]. *)
Lemma keeps_zoom {C A U} (get : S → C) `{!Field get} (h : C → U) (m : M C A) :
  Keeps h m → (∀ c s, h c = h (get s) → g (fset get c s) = g s) → Keeps g (zoom get m).
Proof.
  intros Hm Hg s. apply wlp_zoom. eapply wlp_mono; [apply Hm|]. intros a c. apply Hg.
Qed.

#[global] Instance lkeeps_dot {R V} (l : lval S R) (f : R → V) `{!Field f} :
  LKeeps g l → LKeeps g (dot l f).
Proof. intros Hl v s. cbn. destruct (peek l s); [apply Hl|done]. Qed.
#[global] Instance lkeeps_idx {K V} `{Countable K} (l : lval S (gmap K V)) i :
  LKeeps g l → LKeeps g (idx l i).
Proof. intros Hl v s. cbn. destruct (peek l s); [apply Hl|done]. Qed.
End keeps.

(** Pass an operation that keeps [g]. *)
Lemma wlp_keeping {S A B T} (g : S → T) (m : M S A) (k : A → M S B) Φ s :
  Keeps g m → (∀ a s', g s' = g s → wlp (k a) Φ s') → wlp (bind m k) Φ s.
Proof. intros Hm HΦ. apply wlp_bind. eapply wlp_mono; [apply Hm|]. intros a s'. apply HΦ. Qed.

(** A projection of a kept part is kept. *)
Lemma keeps_proj {S A T U} (g : S → T) (h : T → U) (m : M S A) :
  Keeps g m → Keeps (λ s, h (g s)) m.
Proof. intros Hm s. eapply wlp_mono; [apply Hm|]. cbn. congruence. Qed.

Create HintDb keeps.

(** Decompose a computation; known operations are closed by the database
    [keeps] or by an instance. *)
Ltac keeps_step :=
  first
    [ assumption
    | solve [auto with keeps nocore]
    | lazymatch goal with
      | |- forall _, _ => intro
      | |- Keeps _ (bind _ _) => apply keeps_bind
      | |- Keeps _ (ret _) => apply keeps_ret
      | |- Keeps _ (fail _) => apply keeps_fail
      | |- Keeps _ (when _ _) => apply keeps_when
      | |- Keeps _ (load _) => apply keeps_load
      | |- Keeps _ (store _ _) => apply keeps_store
      | |- Keeps _ (modify _ _) => apply keeps_modify
      | |- Keeps _ (from_option _) => apply keeps_from_option
      | |- Keeps _ (loop _ _ _) => apply keeps_loop
      | |- Keeps _ (for_range _ _ _) => apply keeps_for_range
      | |- Keeps _ (for_acc _ _ _ _) => apply keeps_for_acc
      | |- Keeps _ (match ?x with _ => _ end) => destruct x
      | |- LKeeps _ (dot _ _) => apply lkeeps_dot
      | |- LKeeps _ (idx _ _) => apply lkeeps_idx
      | |- LKeeps _ _ => intros ? ?; reflexivity
      end
    | progress cbn beta zeta ].
Ltac keeps := repeat keeps_step.

(** The same through the definitions of the operations. *)
Ltac head_of m := lazymatch m with ?f _ => head_of f | _ => m end.
Ltac keeps_deep :=
  repeat first
    [ keeps_step
    | lazymatch goal with
      | |- Keeps _ (zoom _ _) => apply keeps_zoom_other; intros ? ?; reflexivity
      | |- Keeps _ ?m => let f := head_of m in unfold f
      end ].

(** ** Kept predicates

    [Stable P m]: a run of [m] that starts in [P] and returns ends in [P]. *)

Class Stable {S A} (P : S → Prop) (m : M S A) : Prop :=
  stable s : P s → wlp m (λ _ s', P s') s.

Section stable.
Context {S : Type} (P : S → Prop).

Lemma stable_keeps {A T} (g : S → T) (m : M S A) :
  Keeps g m → (∀ s s', g s' = g s → P s → P s') → Stable P m.
Proof. intros Hm Hg s Hs. eapply wlp_mono; [apply Hm|]. intros a s' E. exact (Hg _ _ E Hs). Qed.
Lemma stable_ret {A} (a : A) : Stable P (ret a).
Proof. intros s Hs. exact Hs. Qed.
Lemma stable_bind {A B} (m : M S A) (k : A → M S B) :
  Stable P m → (∀ a, Stable P (k a)) → Stable P (bind m k).
Proof.
  intros Hm Hk s Hs. apply wlp_bind. eapply wlp_mono; [by apply Hm|]. intros a s' Hs'. by apply Hk.
Qed.
Lemma stable_when b (m : M S unit) : Stable P m → Stable P (when b m).
Proof. destruct b; [done|]. intros _. apply stable_ret. Qed.
Lemma stable_loop {X B} fuel (body : X → M S (X + B)) x :
  (∀ x, Stable P (body x)) → Stable P (loop fuel body x).
Proof.
  intros Hb s Hs. apply (wlp_loop (λ _ s', P s')); [done|]. intros x' s' Hs'.
  eapply wlp_mono; [by apply Hb|]. by intros [].
Qed.
Lemma stable_for_n n lo (body : Z → M S unit) :
  (∀ i, Stable P (body i)) → Stable P (for_n n lo body).
Proof.
  intros Hb. revert lo. induction n as [|n IH]; intros lo; cbn [for_n]; [apply stable_ret|].
  apply stable_bind; [apply Hb|intros _; apply IH].
Qed.
Lemma stable_for_range lo hi (body : Z → M S unit) :
  (∀ i, Stable P (body i)) → Stable P (for_range lo hi body).
Proof. apply stable_for_n. Qed.
Lemma stable_for_acc_n {X} n lo (body : Z → X → M S X) x :
  (∀ i x, Stable P (body i x)) → Stable P (for_acc_n n lo body x).
Proof.
  intros Hb. revert lo x. induction n as [|n IH]; intros lo x; cbn [for_acc_n]; [apply stable_ret|].
  apply stable_bind; [apply Hb|intros x'; apply IH].
Qed.
Lemma stable_for_acc {X} lo hi (body : Z → X → M S X) x :
  (∀ i x, Stable P (body i x)) → Stable P (for_acc lo hi body x).
Proof. apply stable_for_acc_n. Qed.
Lemma stable_zoom {C A} (get : S → C) `{!Field get} (R : C → Prop) (m : M C A) :
  Stable R m → (∀ s, P s → R (get s)) → (∀ c s, P s → R c → P (fset get c s)) → Stable P (zoom get m).
Proof.
  intros Hm HPR HRP s Hs. apply wlp_zoom. eapply wlp_mono; [apply Hm, HPR, Hs|]. intros a c. by apply HRP.
Qed.
End stable.

Create HintDb stable.

(** ** Computations that end

    [Ends m]: [m] does not run out of budget, whatever state it starts in. *)

Definition budget_left (e : error) : Prop := e ≠ NoFuel.

Class Ends {S A} (m : M S A) : Prop :=
  ends s : wpe m (λ _ _, True) budget_left s.

Section ends.
Context {S : Type}.

Lemma ends_ret {A} (a : A) : Ends (ret (S:=S) a).
Proof. by intros s. Qed.
Lemma ends_fail {A} e : e ≠ NoFuel → Ends (fail (S:=S) (A:=A) e).
Proof. by intros He s. Qed.
Lemma ends_bind {A B} (m : M S A) (k : A → M S B) : Ends m → (∀ a, Ends (k a)) → Ends (bind m k).
Proof. intros Hm Hk s. apply wpe_bind. eapply wpe_mono; [apply Hm|]. intros a s' _. apply Hk. Qed.
Lemma ends_when b (m : M S unit) : Ends m → Ends (when b m).
Proof. destruct b; [done|]. intros _. apply ends_ret. Qed.
Lemma ends_load {T} (l : lval S T) : Ends (load l).
Proof. intros s. by apply wpe_load. Qed.
Lemma ends_store {T} (l : lval S T) v : Ends (store l v).
Proof. intros s. unfold wpe, store. by destruct (peek l s). Qed.
Lemma ends_modify {T} (l : lval S T) f : Ends (modify l f).
Proof. intros s. unfold wpe, modify. by destruct (peek l s). Qed.
Lemma ends_from_option {A} (o : option A) : Ends (from_option (S:=S) o).
Proof. destruct o; [apply ends_ret|by apply ends_fail]. Qed.
Lemma ends_zoom {C A} (get : S → C) `{!Field get} (m : M C A) : Ends m → Ends (zoom get m).
Proof. intros Hm s. specialize (Hm (get s)). unfold wpe, zoom in *. by destruct (m (get s)). Qed.
Lemma ends_for_n n lo (body : Z → M S unit) : (∀ i, Ends (body i)) → Ends (for_n n lo body).
Proof.
  intros Hb. revert lo. induction n as [|n IH]; intros lo; cbn [for_n]; [apply ends_ret|].
  apply ends_bind; [apply Hb|intros _; apply IH].
Qed.
Lemma ends_for_range lo hi (body : Z → M S unit) : (∀ i, Ends (body i)) → Ends (for_range lo hi body).
Proof. apply ends_for_n. Qed.
End ends.

Create HintDb ends.

(** Decompose a computation through the definitions of its operations. *)
Ltac ends_step :=
  first
    [ assumption
    | solve [auto with ends nocore]
    | lazymatch goal with
      | |- forall _, _ => intro
      | |- Ends (bind _ _) => apply ends_bind
      | |- Ends (ret _) => apply ends_ret
      | |- Ends (fail _) => apply ends_fail; discriminate
      | |- Ends (when _ _) => apply ends_when
      | |- Ends (load _) => apply ends_load
      | |- Ends (store _ _) => apply ends_store
      | |- Ends (modify _ _) => apply ends_modify
      | |- Ends (from_option _) => apply ends_from_option
      | |- Ends (zoom _ _) => apply ends_zoom
      | |- Ends (for_range _ _ _) => apply ends_for_range
      | |- Ends (match ?x with _ => _ end) => destruct x
      | |- Ends (λ _, _) => intros ?; (exact I || (unfold wpe; done))
      | |- Ends ?m => let f := head_of m in unfold f
      end
    | progress cbn beta zeta ].
Ltac ends := repeat ends_step.
