(* ===== verification/Dll.v ===== *)
(** Intrusive doubly-linked lists.

    Every queue of the firmware (request queues, LRU lists, hash chains, free
    block lists, GC victim lists, way lists of the NAND scheduler) is a
    doubly-linked list whose links are members of the elements of a global
    array and whose head and tail are members of a queue struct.  The code
    repeats four idioms on them, which this file defines once, as functions on
    the element array and the head/tail pair, and proves to implement the
    operations of a mathematical list. *)
From stdpp Require Import functions.
From S2P Require Import Prelude.

(** The link members of an array element, and the "no element" index. *)
Record links (N : Type) := Links {
  none : Z;
  prv : N → Z;
  nxt : N → Z;
  set_prv : Z → N → N;
  set_nxt : Z → N → N;
}.
Arguments none {N} _.
Arguments prv {N} _ _.
Arguments nxt {N} _ _.
Arguments set_prv {N} _ _ _.
Arguments set_nxt {N} _ _ _.

(** What a pair of link members promises: assignments of indices are read
    back, the two members are independent, and assignments commute. *)
Class LinksOk {N} (L : links N) : Prop := {
  none_pos : 0 < none L;
  prv_set_prv v n : 0 ≤ v ≤ none L → prv L (set_prv L v n) = v;
  nxt_set_nxt v n : 0 ≤ v ≤ none L → nxt L (set_nxt L v n) = v;
  prv_set_nxt v n : prv L (set_nxt L v n) = prv L n;
  nxt_set_prv v n : nxt L (set_prv L v n) = nxt L n;
  set_prv_prv a b n : set_prv L a (set_prv L b n) = set_prv L a n;
  set_nxt_nxt a b n : set_nxt L a (set_nxt L b n) = set_nxt L a n;
  set_nxt_prv a b n : set_nxt L a (set_prv L b n) = set_prv L b (set_nxt L a n);
}.

(** ** The operations *)

Section ops.
Context {N : Type} (L : links N).
Implicit Types (nodes : gmap Z N) (h t x : Z).

(** Append at the tail ([PutTo...]). *)
Definition put_tail nodes h t x : option (gmap Z N * (Z * Z)) :=
  if t =? none L then
    nx ← nodes !! x;
    Some (<[x := set_nxt L (none L) (set_prv L (none L) nx)]> nodes, (x, x))
  else
    nx ← nodes !! x;
    let nodes1 := <[x := set_nxt L (none L) (set_prv L t nx)]> nodes in
    nt ← nodes1 !! t;
    Some (<[t := set_nxt L x nt]> nodes1, (h, x)).

(** Insert at the head (the LRU lists). *)
Definition put_head nodes h t x : option (gmap Z N * (Z * Z)) :=
  if h =? none L then
    nx ← nodes !! x;
    Some (<[x := set_nxt L (none L) (set_prv L (none L) nx)]> nodes, (x, x))
  else
    nx ← nodes !! x;
    let nodes1 := <[x := set_nxt L h (set_prv L (none L) nx)]> nodes in
    nh ← nodes1 !! h;
    Some (<[h := set_prv L x nh]> nodes1, (x, t)).

(** Unlink an element wherever it is ([SelectiveGetFrom...]). *)
Definition selective_get nodes h t x : option (gmap Z N * (Z * Z)) :=
  n ← nodes !! x;
  let p := prv L n in
  let q := nxt L n in
  if negb (q =? none L) && negb (p =? none L) then
    np ← nodes !! p;
    let nodes1 := <[p := set_nxt L q np]> nodes in
    nq ← nodes1 !! q;
    Some (<[q := set_prv L p nq]> nodes1, (h, t))
  else if (q =? none L) && negb (p =? none L) then
    np ← nodes !! p;
    Some (<[p := set_nxt L (none L) np]> nodes, (h, p))
  else if negb (q =? none L) && (p =? none L) then
    nq ← nodes !! q;
    Some (<[q := set_prv L (none L) nq]> nodes, (q, t))
  else Some (nodes, (none L, none L)).

(** Remove the first element ([GetFrom...]). *)
Definition pop_head nodes h t : option (gmap Z N * (Z * Z)) :=
  n ← nodes !! h;
  if negb (nxt L n =? none L) then
    nn ← nodes !! nxt L n;
    Some (<[nxt L n := set_prv L (none L) nn]> nodes, (nxt L n, t))
  else Some (nodes, (none L, none L)).

(** Move the last element to the front (the eviction of the LRU lists). *)
Definition rotate_tail nodes h t : option (gmap Z N * (Z * Z)) :=
  n ← nodes !! t;
  if negb (prv L n =? none L) then
    np ← nodes !! prv L n;
    let nodes1 := <[prv L n := set_nxt L (none L) np]> nodes in
    n1 ← nodes1 !! t;
    let nodes2 := <[t := set_nxt L h (set_prv L (none L) n1)]> nodes1 in
    nh ← nodes2 !! h;
    Some (<[h := set_prv L t nh]> nodes2, (t, prv L n))
  else Some (<[t := set_nxt L (none L) (set_prv L (none L) n)]> nodes, (t, t)).
End ops.

(** ** The lists they implement *)

Definition hdz (d : Z) (l : list Z) : Z := match l with [] => d | x :: _ => x end.
Fixpoint lstz (d : Z) (l : list Z) : Z := match l with [] => d | x :: l' => lstz x l' end.

Section dll.
Context {N : Type} (L : links N).
Implicit Types (nodes : gmap Z N) (h t x p z : Z) (l : list Z).

(** A segment: the elements [l] linked to each other, the first one back to
    [p], the last one on to [z]. *)
Fixpoint lseg nodes p l z : Prop :=
  match l with
  | [] => True
  | x :: l' =>
      ∃ n, nodes !! x = Some n ∧ prv L n = p ∧ nxt L n = hdz z l' ∧ lseg nodes x l' z
  end.

(** A whole list with its head and tail. *)
Definition dll nodes h t l : Prop :=
  h = hdz (none L) l ∧ t = lstz (none L) l ∧
  lseg nodes (none L) l (none L) ∧ NoDup l ∧ Forall (λ x, 0 ≤ x < none L) l.

(** An element without its links, and arrays that differ in links only, at
    the indices [D] only. *)
Definition pay (n : N) : N := set_nxt L 0 (set_prv L 0 n).
Definition relinked (D : list Z) nodes nodes' : Prop :=
  pay <$> nodes' = pay <$> nodes ∧ ∀ y, y ∉ D → nodes' !! y = nodes !! y.

Context `{!LinksOk L}.

Lemma pay_set_prv v n : pay (set_prv L v n) = pay n.
Proof. unfold pay. by rewrite set_prv_prv. Qed.
Lemma pay_set_nxt v n : pay (set_nxt L v n) = pay n.
Proof. unfold pay. by rewrite !set_nxt_prv, set_nxt_nxt. Qed.

Lemma hdz_app d l1 l2 : hdz d (l1 ++ l2) = hdz (hdz d l2) l1.
Proof. by destruct l1. Qed.
Lemma lstz_app d l1 l2 : lstz d (l1 ++ l2) = lstz (lstz d l1) l2.
Proof. revert d. by induction l1; simpl. Qed.
Lemma lstz_snoc d l x : lstz d (l ++ [x]) = x.
Proof. by rewrite lstz_app. Qed.
Lemma lstz_cons d x l : lstz d (x :: l) = lstz x l.
Proof. done. Qed.
Lemma hdz_in d l : l ≠ [] → hdz d l ∈ l.
Proof. destruct l; [done|]. intros _. left. Qed.
Lemma lstz_in d l : l ≠ [] → lstz d l ∈ l.
Proof.
  intros Hl. destruct (exists_last Hl) as (l' & x & ->). rewrite lstz_snoc.
  apply elem_of_app. right. left.
Qed.

Lemma lseg_app nodes p l1 l2 z :
  lseg nodes p (l1 ++ l2) z ↔ lseg nodes p l1 (hdz z l2) ∧ lseg nodes (lstz p l1) l2 z.
Proof.
  revert p. induction l1 as [|x l1 IH]; intros p; cbn [app lseg].
  - simpl. tauto.
  - rewrite lstz_cons. setoid_rewrite IH. setoid_rewrite hdz_app. naive_solver.
Qed.

Lemma lseg_lookup nodes p l z x : lseg nodes p l z → x ∈ l → is_Some (nodes !! x).
Proof.
  revert p. induction l as [|y l IH]; intros p; [by intros _ ?%elem_of_nil|].
  intros (n & Hn & _ & _ & Hl) [->|Hx]%elem_of_cons; eauto.
Qed.

(** Segments depend only on the links of their own elements. *)
Lemma lseg_ext nodes nodes' p l z :
  (∀ x, x ∈ l → nodes' !! x = nodes !! x) → lseg nodes p l z → lseg nodes' p l z.
Proof.
  revert p. induction l as [|y l IH]; intros p He; [done|].
  intros (n & Hn & ? & ? & Hl). exists n. rewrite He by left. split_and!; try done.
  apply IH; [|done]. intros x Hx. apply He. by right.
Qed.

Lemma lseg_map nodes nodes' p l z :
  (∀ x n, x ∈ l → nodes !! x = Some n →
     ∃ n', nodes' !! x = Some n' ∧ prv L n' = prv L n ∧ nxt L n' = nxt L n) →
  lseg nodes p l z → lseg nodes' p l z.
Proof.
  revert p. induction l as [|y l IH]; intros p He; [done|].
  intros (n & Hn & ? & ? & Hl). destruct (He y n) as (n' & ? & ? & ?); [left|done|].
  exists n'. split_and!; try congruence.
  apply IH; [|done]. intros x nx Hx. apply He. by right.
Qed.

Lemma lseg_insert_ne nodes p l z x n :
  x ∉ l → lseg nodes p l z → lseg (<[x:=n]> nodes) p l z.
Proof.
  intros Hx. apply lseg_ext. intros y Hy. apply lookup_insert_ne. by intros ->.
Qed.

(** Redirecting the two ends of a segment. *)
Lemma lseg_set_first nodes p p' x l z n :
  nodes !! x = Some n → 0 ≤ p' ≤ none L → x ∉ l →
  lseg nodes p (x :: l) z → lseg (<[x := set_prv L p' n]> nodes) p' (x :: l) z.
Proof.
  intros Hn Hp Hx (n' & Hn' & ? & ? & Hl). simplify_eq. eexists.
  rewrite lookup_insert_eq. split_and!; [done|by apply prv_set_prv|by rewrite nxt_set_prv|].
  by apply lseg_insert_ne.
Qed.

Lemma lseg_set_last nodes p l x z z' n :
  nodes !! x = Some n → 0 ≤ z' ≤ none L → x ∉ l →
  lseg nodes p (l ++ [x]) z → lseg (<[x := set_nxt L z' n]> nodes) p (l ++ [x]) z'.
Proof.
  intros Hn Hp Hx [Hl (n' & Hn' & ? & ? & _)]%lseg_app. simplify_eq.
  apply lseg_app. split; [by apply lseg_insert_ne|]. eexists.
  rewrite lookup_insert_eq. split_and!; [done|by rewrite prv_set_nxt|by apply nxt_set_nxt|done].
Qed.

(** *** Relinking *)

Lemma relinked_refl D nodes : relinked D nodes nodes.
Proof. done. Qed.
Lemma relinked_trans D n1 n2 n3 : relinked D n1 n2 → relinked D n2 n3 → relinked D n1 n3.
Proof. intros [? H1] [? H2]. split; [congruence|]. intros. rewrite H2, H1; done. Qed.
Lemma relinked_mono D D' n1 n2 : relinked D n1 n2 → D ⊆ D' → relinked D' n1 n2.
Proof. intros [? H1] HD. split; [done|]. intros y Hy. apply H1. set_solver. Qed.
Lemma relinked_insert D nodes x n n' :
  nodes !! x = Some n → pay n' = pay n → x ∈ D → relinked D nodes (<[x:=n']> nodes).
Proof.
  intros Hn Hp HD. split; [|intros y Hy; apply lookup_insert_ne; set_solver].
  apply map_eq. intros i. rewrite !lookup_fmap, lookup_insert.
  case_decide; subst; [|done]. rewrite Hn. simpl. by rewrite Hp.
Qed.
Lemma relinked_lookup D nodes nodes' x n :
  relinked D nodes nodes' → nodes !! x = Some n →
  ∃ n', nodes' !! x = Some n' ∧ pay n' = pay n.
Proof.
  intros [Hp _] Hn. pose proof (f_equal (.!! x) Hp) as H. cbn in H.
  rewrite !lookup_fmap, Hn in H. destruct (nodes' !! x); naive_solver.
Qed.
Lemma relinked_lookup_inv D nodes nodes' x n' :
  relinked D nodes nodes' → nodes' !! x = Some n' →
  ∃ n, nodes !! x = Some n ∧ pay n' = pay n.
Proof.
  intros [Hp _] Hn. pose proof (f_equal (.!! x) Hp) as H. cbn in H.
  rewrite !lookup_fmap, Hn in H. destruct (nodes !! x); naive_solver.
Qed.
Lemma relinked_array D k nodes nodes' :
  relinked D nodes nodes' → array k nodes → array k nodes'.
Proof. intros [Hp _]. by eapply array_fmap_eq. Qed.

(** A list disjoint from the relinked indices survives. *)
Lemma dll_relinked D nodes nodes' h t l :
  relinked D nodes nodes' → (∀ x, x ∈ l → x ∉ D) → dll nodes h t l → dll nodes' h t l.
Proof.
  intros [_ Hr] Hd (? & ? & Hl & ? & ?). split_and!; try done.
  eapply lseg_ext; [|done]. intros x Hx. apply Hr, Hd, Hx.
Qed.

(** *** Basic facts of a list *)

Lemma dll_nil nodes : dll nodes (none L) (none L) [].
Proof. split_and!; try done; constructor. Qed.

Lemma dll_lookup nodes h t l x : dll nodes h t l → x ∈ l → is_Some (nodes !! x).
Proof. intros (_ & _ & Hl & _). by eapply lseg_lookup. Qed.

Lemma dll_range nodes h t l x : dll nodes h t l → x ∈ l → 0 ≤ x < none L.
Proof. intros (_ & _ & _ & _ & Hf) Hx. rewrite list.Forall_forall in Hf. by apply Hf. Qed.

Lemma dll_ends nodes h t l : dll nodes h t l → 0 ≤ h ≤ none L ∧ 0 ≤ t ≤ none L.
Proof.
  intros (-> & -> & _ & _ & Hf). rewrite Forall_forall in Hf. pose proof (none_pos (L:=L)).
  destruct (decide (l = [])) as [->|Hl]; [cbn; lia|].
  pose proof (Hf _ (hdz_in (none L) l Hl)). pose proof (Hf _ (lstz_in (none L) l Hl)). lia.
Qed.

Lemma dll_head_none nodes h t l : dll nodes h t l → h = none L ↔ l = [].
Proof.
  intros (-> & _ & _ & _ & Hf). destruct l as [|x l]; [done|].
  apply Forall_cons in Hf as [? _]. simpl. split; [lia|done].
Qed.
Lemma dll_tail_none nodes h t l : dll nodes h t l → t = none L ↔ l = [].
Proof.
  intros (_ & -> & _ & _ & Hf). destruct l as [|x l]; [done|].
  assert (lstz (none L) (x :: l) ∈ x :: l) as Hin by by apply lstz_in.
  eapply Forall_forall in Hf; [|done]. split; [lia|done].
Qed.

(** *** The operations on whole lists *)

Lemma put_tail_spec nodes h t l x :
  dll nodes h t l → x ∉ l → 0 ≤ x < none L → is_Some (nodes !! x) →
  ∃ nodes' h' t', put_tail L nodes h t x = Some (nodes', (h', t')) ∧
    dll nodes' h' t' (l ++ [x]) ∧ relinked (x :: l) nodes nodes'.
Proof.
  intros Hd Hx Hr [nx Hnx]. pose proof (dll_tail_none _ _ _ _ Hd) as Ht.
  pose proof (none_pos (L:=L)) as Hpos.
  destruct Hd as (-> & -> & Hl & Hnd & Hf). unfold put_tail.
  assert (NoDup (l ++ [x])) as Hnd'.
  { apply NoDup_app. split_and!; [done| |apply NoDup_singleton]. set_solver. }
  assert (Forall (λ x, 0 ≤ x < none L) (l ++ [x])) as Hf'.
  { apply Forall_app. split; [done|]. by constructor. }
  destruct (Z.eqb_spec (lstz (none L) l) (none L)) as [E|E].
  - assert (l = []) as -> by tauto. rewrite Hnx. simpl.
    eexists _, _, _. split; [done|]. split.
    + split_and!; try done. eexists. rewrite lookup_insert_eq.
      split_and!; [done|rewrite prv_set_nxt; apply prv_set_prv; lia|simpl; apply nxt_set_nxt; lia|done].
    + eapply relinked_insert; [done|by rewrite pay_set_nxt, pay_set_prv|left].
  - assert (l ≠ []) as Hne by tauto. destruct (exists_last Hne) as (l' & y & ->).
    rewrite lstz_snoc in *. rewrite Hnx. simpl.
    assert (x ≠ y) by set_solver. rewrite lookup_insert_ne by done.
    destruct (lseg_lookup _ _ _ _ y Hl) as [ny Hny]; [set_solver|]. rewrite Hny. simpl.
    eexists _, _, _. split; [done|].
    apply Forall_app in Hf as [? [? _]%Forall_cons].
    apply NoDup_app in Hnd as (? & Hy & _).
    split; [split_and!|].
    + by rewrite hdz_app, hdz_app; destruct l'.
    + by rewrite lstz_snoc.
    + rewrite lseg_app. split.
      * eapply lseg_set_last; [by rewrite lookup_insert_ne|simpl; lia| |].
        { intros Hin. eapply Hy; [done|left]. }
        by apply lseg_insert_ne.
      * rewrite lstz_snoc. eexists. rewrite lookup_insert_ne by done.
        rewrite lookup_insert_eq. split_and!; [done| |simpl; apply nxt_set_nxt; lia|done].
        rewrite prv_set_nxt. apply prv_set_prv. lia.
    + done.
    + done.
    + eapply relinked_trans; eapply relinked_insert;
        [done|by rewrite pay_set_nxt, pay_set_prv|left| | |].
      * by rewrite lookup_insert_ne.
      * by rewrite pay_set_nxt.
      * set_solver.
Qed.

Lemma put_head_spec nodes h t l x :
  dll nodes h t l → x ∉ l → 0 ≤ x < none L → is_Some (nodes !! x) →
  ∃ nodes' h' t', put_head L nodes h t x = Some (nodes', (h', t')) ∧
    dll nodes' h' t' (x :: l) ∧ relinked (x :: l) nodes nodes'.
Proof.
  intros Hd Hx Hr [nx Hnx]. pose proof (none_pos (L:=L)) as Hpos.
  destruct Hd as (-> & -> & Hl & Hnd & Hf). unfold put_head.
  assert (NoDup (x :: l)) as Hnd' by by constructor.
  assert (Forall (λ x, 0 ≤ x < none L) (x :: l)) as Hf' by by constructor.
  destruct l as [|y l]; simpl hdz.
  - rewrite Z.eqb_refl, Hnx. simpl. eexists _, _, _. split; [done|]. split.
    + split_and!; try done. eexists. rewrite lookup_insert_eq.
      split_and!; [done|rewrite prv_set_nxt; apply prv_set_prv; lia|simpl; apply nxt_set_nxt; lia|done].
    + eapply relinked_insert; [done|by rewrite pay_set_nxt, pay_set_prv|left].
  - apply Forall_cons in Hf as [? _]. apply NoDup_cons in Hnd as [Hy _].
    destruct (Z.eqb_spec y (none L)); [lia|]. rewrite Hnx. simpl.
    assert (x ≠ y) by set_solver. rewrite lookup_insert_ne by done.
    destruct (lseg_lookup _ _ _ _ y Hl) as [ny Hny]; [left|]. rewrite Hny. simpl.
    eexists _, _, _. split; [done|]. split; [split_and!; try done|].
    + cbn [lseg]. eexists. rewrite lookup_insert_ne by done. rewrite lookup_insert_eq.
      split_and!; [done|rewrite prv_set_nxt; apply prv_set_prv; lia|simpl; apply nxt_set_nxt; lia|].
      eapply (lseg_set_first _ (none L)); [by rewrite lookup_insert_ne|lia|done|].
      by apply lseg_insert_ne.
    + eapply relinked_trans; eapply relinked_insert;
        [done|by rewrite pay_set_nxt, pay_set_prv|left|by rewrite lookup_insert_ne|by rewrite pay_set_prv|set_solver].
Qed.

(** A list with a marked element, opened at it. *)
Lemma dll_split nodes h t l1 x l2 :
  dll nodes h t (l1 ++ x :: l2) →
  ∃ n, nodes !! x = Some n ∧ prv L n = lstz (none L) l1 ∧ nxt L n = hdz (none L) l2 ∧
    lseg nodes (none L) l1 x ∧ lseg nodes x l2 (none L) ∧
    NoDup (l1 ++ l2) ∧ (x ∉ l1) ∧ (x ∉ l2) ∧ Forall (λ x, 0 ≤ x < none L) (l1 ++ l2) ∧
    0 ≤ x < none L.
Proof.
  intros (_ & _ & [Hl1 (n & ? & ? & ? & Hl2)]%lseg_app & Hnd & Hf). exists n.
  apply NoDup_app in Hnd as (? & Hd & [? ?]%NoDup_cons).
  apply Forall_app in Hf as [? [? ?]%Forall_cons].
  split_and!; try done.
  - apply NoDup_app. split_and!; [done| |done]. set_solver.
  - intros Hx. apply (Hd x Hx). left.
  - by apply Forall_app.
  - tauto.
  - tauto.
Qed.

Lemma selective_get_spec nodes h t l1 x l2 :
  dll nodes h t (l1 ++ x :: l2) →
  ∃ nodes' h' t', selective_get L nodes h t x = Some (nodes', (h', t')) ∧
    dll nodes' h' t' (l1 ++ l2) ∧ relinked (l1 ++ l2) nodes nodes'.
Proof.
  intros Hd. destruct (dll_split _ _ _ _ _ _ Hd)
    as (n & Hn & Hp & Hq & Hl1 & Hl2 & Hnd & Hx1 & Hx2 & Hf & Hxr).
  destruct Hd as (-> & -> & _). pose proof (none_pos (L:=L)) as Hpos.
  unfold selective_get. rewrite Hn. simpl. rewrite Hp, Hq.
  destruct l1 as [|a l1 _] using rev_ind; [|rewrite lstz_snoc];
    (destruct l2 as [|b l2]; cbn [hdz lstz app]); rewrite ?Z.eqb_refl.
  - eexists _, _, _. split; [done|]. split; [apply dll_nil|apply relinked_refl].
  - apply Forall_cons in Hf as [? ?]. apply NoDup_cons in Hnd as [? ?].
    destruct (Z.eqb_spec b (none L)); [lia|]. simpl.
    destruct (lseg_lookup _ _ _ _ b Hl2) as [nb Hnb]; [left|]. rewrite Hnb. simpl.
    eexists _, _, _. split; [done|]. split.
    + split_and!; try done; [|by constructor|by constructor].
      eapply (lseg_set_first _ x); done || lia.
    + eapply relinked_insert; [done|by rewrite pay_set_prv|left].
  - rewrite app_nil_r in *. apply Forall_app in Hf as Hf'. destruct Hf' as [? [? _]%Forall_cons].
    destruct (Z.eqb_spec a (none L)); [lia|]. simpl.
    destruct (lseg_lookup _ _ _ _ a Hl1) as [na Hna]; [set_solver|]. rewrite Hna. simpl.
    apply NoDup_app in Hnd as Hnd'. destruct Hnd' as (? & Ha & _).
    eexists _, _, _. split; [done|]. split.
    + split_and!; try done.
      * by rewrite !hdz_app.
      * by rewrite lstz_snoc.
      * eapply (lseg_set_last _ _ _ _ x); try done; [lia|].
        intros Hin. apply (Ha a Hin). left.
    + eapply relinked_insert; [done|by rewrite pay_set_nxt|set_solver].
  - apply Forall_app in Hf as Hf'.
    destruct Hf' as [[? [? _]%Forall_cons]%Forall_app [? ?]%Forall_cons].
    destruct (Z.eqb_spec a (none L)); [lia|]. destruct (Z.eqb_spec b (none L)); [lia|]. simpl.
    destruct (lseg_lookup _ _ _ _ a Hl1) as [na Hna]; [set_solver|]. rewrite Hna. simpl.
    apply NoDup_app in Hnd as Hnd'. destruct Hnd' as (Hnd1 & Hdis & [? ?]%NoDup_cons).
    apply NoDup_app in Hnd1 as (? & Ha & _).
    assert (a ≠ b) by (intros ->; apply (Hdis b); set_solver).
    rewrite lookup_insert_ne by done.
    destruct (lseg_lookup _ _ _ _ b Hl2) as [nb Hnb]; [left|]. rewrite Hnb. simpl.
    eexists _, _, _. split; [done|]. split.
    + split_and!; try done.
      * by rewrite !hdz_app.
      * by rewrite !lstz_app.
      * rewrite lseg_app. simpl hdz. split.
        -- apply lseg_insert_ne; [intros Hb; apply (Hdis b Hb); left|].
           eapply (lseg_set_last _ _ _ _ x); try done; [lia|].
           intros Hin. apply (Ha a Hin). left.
        -- rewrite lstz_snoc. eapply (lseg_set_first _ x); [by rewrite lookup_insert_ne|lia|done|].
           apply lseg_insert_ne; [|done]. intros Hb. apply (Hdis a); set_solver.
    + eapply relinked_trans; eapply relinked_insert;
        [done|by rewrite pay_set_nxt|set_solver|by rewrite lookup_insert_ne|by rewrite pay_set_prv|set_solver].
Qed.

Lemma pop_head_spec nodes h t x l :
  dll nodes h t (x :: l) →
  h = x ∧ ∃ nodes' h' t', pop_head L nodes h t = Some (nodes', (h', t')) ∧
    dll nodes' h' t' l ∧ relinked l nodes nodes'.
Proof.
  intros Hd. destruct (dll_split _ _ _ [] _ _ Hd)
    as (n & Hn & _ & Hq & _ & Hl2 & Hnd & _ & Hx & Hf & Hxr).
  destruct Hd as (-> & -> & _). split; [done|]. simpl hdz. simpl in Hnd, Hf.
  unfold pop_head. rewrite Hn. simpl. rewrite Hq.
  destruct l as [|b l]; simpl hdz.
  - rewrite Z.eqb_refl. eexists _, _, _. split; [done|]. split; [apply dll_nil|apply relinked_refl].
  - pose proof (none_pos (L:=L)) as Hpos.
    apply Forall_cons in Hf as [? ?]. apply NoDup_cons in Hnd as [? ?].
    destruct (Z.eqb_spec b (none L)); [lia|]. simpl.
    destruct (lseg_lookup _ _ _ _ b Hl2) as [nb Hnb]; [left|]. rewrite Hnb. simpl.
    eexists _, _, _. split; [done|]. split.
    + split_and!; try done; [|by constructor|by constructor].
      eapply (lseg_set_first _ x); done || lia.
    + eapply relinked_insert; [done|by rewrite pay_set_prv|left].
Qed.

(** On a list, the eviction is an unlinking followed by an insertion. *)
Lemma rotate_tail_split nodes h t l x :
  dll nodes h t (l ++ [x]) →
  ∃ nodes1 h1 t1, selective_get L nodes h t x = Some (nodes1, (h1, t1)) ∧
    rotate_tail L nodes h t = put_head L nodes1 h1 t1 x.
Proof.
  intros Hd. destruct (dll_split _ _ _ _ _ _ Hd)
    as (n & Hn & Hp & Hq & Hl1 & _ & Hnd & Hx & _ & Hf & Hxr).
  destruct Hd as (Hh & Ht & _). rewrite app_nil_r in *. rewrite lstz_snoc in Ht. subst t.
  unfold rotate_tail, selective_get. rewrite Hn. simpl. rewrite Hp, Hq. simpl hdz.
  rewrite Z.eqb_refl. destruct l as [|a l _] using rev_ind; simpl.
  - rewrite Z.eqb_refl. simpl. eexists _, _, _. split; [done|]. unfold put_head.
    by rewrite Z.eqb_refl, Hn.
  - rewrite lstz_snoc. apply Forall_app in Hf as Hf'. destruct Hf' as [Hf1 [? _]%Forall_cons].
    destruct (Z.eqb_spec a (none L)); [lia|]. simpl.
    destruct (lseg_lookup _ _ _ _ a Hl1) as [na Hna]; [set_solver|]. rewrite Hna. simpl.
    eexists _, _, _. split; [done|]. unfold put_head.
    assert (h ≠ none L) as Hhn.
    { subst h. rewrite <- app_assoc, hdz_app. simpl. destruct l as [|b l]; simpl; [lia|].
      apply Forall_cons in Hf1 as [? _]. lia. }
    by destruct (Z.eqb_spec h (none L)).
Qed.

Lemma rotate_tail_spec nodes h t l x :
  dll nodes h t (l ++ [x]) →
  t = x ∧ ∃ nodes' h' t', rotate_tail L nodes h t = Some (nodes', (h', t')) ∧
    dll nodes' h' t' (x :: l) ∧ relinked (x :: l) nodes nodes'.
Proof.
  intros Hd. split; [destruct Hd as (_ & -> & _); apply lstz_snoc|].
  destruct (rotate_tail_split _ _ _ _ _ Hd) as (n1 & h1 & t1 & Hs & ->).
  destruct (selective_get_spec _ _ _ _ _ _ Hd) as (n1' & h1' & t1' & Hs' & Hd1 & Hr1).
  rewrite Hs in Hs'. simplify_eq. rewrite app_nil_r in *.
  destruct (dll_split _ _ _ _ _ _ Hd) as (n & Hn & _ & _ & _ & _ & _ & Hx & _ & _ & Hxr).
  destruct (relinked_lookup _ _ _ _ _ Hr1 Hn) as (n' & Hn' & _).
  destruct (put_head_spec n1' h1' t1' l x) as (n2 & h2 & t2 & Hp & Hd2 & Hr2); eauto.
  eexists _, _, _. split_and!; [exact Hp|done|].
  eapply relinked_trans; [|done]. eapply relinked_mono; [done|set_solver].
Qed.

(** Use of an element: unlink it, then insert it at the front. *)
Lemma move_to_front_spec nodes h t l1 x l2 :
  dll nodes h t (l1 ++ x :: l2) →
  ∃ nodes1 h1 t1 nodes' h' t',
    selective_get L nodes h t x = Some (nodes1, (h1, t1)) ∧
    dll nodes1 h1 t1 (l1 ++ l2) ∧
    put_head L nodes1 h1 t1 x = Some (nodes', (h', t')) ∧
    dll nodes' h' t' (x :: l1 ++ l2) ∧ relinked (x :: l1 ++ l2) nodes nodes'.
Proof.
  intros Hd. destruct (selective_get_spec _ _ _ _ _ _ Hd) as (n1 & h1 & t1 & Hs & Hd1 & Hr1).
  destruct (dll_split _ _ _ _ _ _ Hd) as (n & Hn & _ & _ & _ & _ & _ & Hx1 & Hx2 & _ & Hxr).
  destruct (relinked_lookup _ _ _ _ _ Hr1 Hn) as (n' & Hn' & _).
  destruct (put_head_spec n1 h1 t1 (l1 ++ l2) x) as (n2 & h2 & t2 & Hp & Hd2 & Hr2);
    [done|set_solver|done|eauto|].
  eexists _, _, _, _, _, _. split_and!; [exact Hs|done|exact Hp|done|].
  eapply relinked_trans; [|done]. eapply relinked_mono; [done|set_solver].
Qed.

(** The list of all elements of an array, in order (the initialisations). *)
Lemma lstz_seqZ d n : 0 < n → lstz d (seqZ 0 n) = n - 1.
Proof.
  intros Hn. replace n with ((n - 1) + 1) at 1 by lia. rewrite seqZ_app, lstz_app by lia.
  by rewrite Z.add_0_l, (seqZ_cons (n - 1)) by lia.
Qed.

Lemma lseg_range nodes p z (n : nat) lo :
  (∀ j, lo ≤ j < lo + Z.of_nat n → ∃ r, nodes !! j = Some r ∧
     prv L r = (if j =? lo then p else j - 1) ∧
     nxt L r = (if j =? lo + Z.of_nat n - 1 then z else j + 1)) →
  lseg nodes p (seqZ lo (Z.of_nat n)) z.
Proof.
  revert p lo. induction n as [|n IH]; intros p lo Hj; [done|].
  rewrite seqZ_cons by lia. destruct (Hj lo) as (r & Hr & Hp & Hn); [lia|].
  exists r. rewrite Z.eqb_refl in Hp. replace (Z.pred (Z.of_nat (S n))) with (Z.of_nat n) by lia.
  split_and!; [done|done| |].
  - rewrite Hn. destruct n as [|n]; [rewrite (proj2 (Z.eqb_eq _ _)) by lia; done|].
    rewrite (proj2 (Z.eqb_neq _ _)) by lia. rewrite seqZ_cons by lia. simpl. lia.
  - apply IH. intros j Hj'. destruct (Hj j) as (r' & Hr' & Hp' & Hn'); [lia|].
    exists r'. rewrite Hr', Hp', Hn'. split_and!; [done| |].
    + rewrite (proj2 (Z.eqb_neq j lo)) by lia. case_Z; lia.
    + case_Z; lia.
Qed.

Lemma dll_seqZ nodes n :
  0 < n ≤ none L →
  (∀ j, 0 ≤ j < n → ∃ r, nodes !! j = Some r ∧
     prv L r = (if j =? 0 then none L else j - 1) ∧
     nxt L r = (if j =? n - 1 then none L else j + 1)) →
  dll nodes 0 (n - 1) (seqZ 0 n).
Proof.
  intros Hn Hj. split_and!.
  - by rewrite seqZ_cons by lia.
  - by rewrite lstz_seqZ by lia.
  - replace n with (Z.of_nat (Z.to_nat n)) by lia. apply lseg_range.
    rewrite Z2Nat.id by lia. intros j Hjr. apply Hj. lia.
  - apply NoDup_seqZ.
  - apply Forall_forall. intros x Hx%elem_of_seqZ. lia.
Qed.
End dll.

(** ** Families of lists over one array

    The elements of an array are usually spread over several lists (the request
    queues, the free and victim lists of a die, the way lists of a channel):
    lists indexed by [I], no element on two of them. *)

Section family.
Context {N : Type} (L : links N) `{!LinksOk L} {I : Type} `{!EqDecision I}.
Implicit Types (nodes : gmap Z N) (hd tl : I → Z) (Q : I → list Z).

Definition family nodes hd tl Q : Prop :=
  (∀ i, dll L nodes (hd i) (tl i) (Q i)) ∧ (∀ i j x, x ∈ Q i → x ∈ Q j → i = j).

Lemma family_dll nodes hd tl Q i : family nodes hd tl Q → dll L nodes (hd i) (tl i) (Q i).
Proof. intros [H _]. apply H. Qed.

Lemma family_range nodes hd tl Q i x : family nodes hd tl Q → x ∈ Q i → 0 ≤ x < none L.
Proof. intros [H _]. by eapply dll_range. Qed.

Lemma family_lookup nodes hd tl Q i x : family nodes hd tl Q → x ∈ Q i → is_Some (nodes !! x).
Proof. intros [H _]. by eapply dll_lookup. Qed.

(** Only the links of listed elements matter. *)
Lemma family_map nodes nodes' hd tl Q :
  (∀ i x n, x ∈ Q i → nodes !! x = Some n →
     ∃ n', nodes' !! x = Some n' ∧ prv L n' = prv L n ∧ nxt L n' = nxt L n) →
  family nodes hd tl Q → family nodes' hd tl Q.
Proof.
  intros Hm [Hd Hq]. split; [|done]. intros i. destruct (Hd i) as (? & ? & Hl & ? & ?).
  split_and!; try done. eapply lseg_map; [|done]. intros x n Hx. by apply (Hm i).
Qed.

(** Replacing one list, when the change of the array is confined to it. *)
Lemma family_replace nodes nodes' hd tl Q i h t l D :
  family nodes hd tl Q → relinked L D nodes nodes' → dll L nodes' h t l →
  (∀ j x, x ∈ Q j → x ∈ D → j = i) → (∀ j x, x ∈ Q j → x ∈ l → j = i) →
  family nodes' (<[i:=h]> hd) (<[i:=t]> tl) (<[i:=l]> Q).
Proof.
  intros [Hd Hq] Hr Hl HD Hnew. split.
  - intros j. destruct (decide (i = j)) as [<-|Hij]; [by rewrite !fn_lookup_insert|].
    rewrite !fn_lookup_insert_ne by done. eapply dll_relinked; [done| |apply Hd].
    intros x Hx Hx'. by destruct (Hij (eq_sym (HD _ _ Hx Hx'))).
  - intros j k x.
    destruct (decide (i = j)) as [<-|Hij], (decide (i = k)) as [<-|Hik]; try done;
      rewrite ?fn_lookup_insert, ?fn_lookup_insert_ne by done; intros Hx Hx'.
    + symmetry. by eapply Hnew.
    + by eapply Hnew.
    + by eapply Hq.
Qed.

Lemma family_put nodes hd tl Q i x :
  family nodes hd tl Q → (∀ j, x ∉ Q j) → 0 ≤ x < none L → is_Some (nodes !! x) →
  ∃ nodes' h t, put_tail L nodes (hd i) (tl i) x = Some (nodes', (h, t)) ∧
    family nodes' (<[i:=h]> hd) (<[i:=t]> tl) (<[i:=Q i ++ [x]]> Q) ∧
    relinked L (x :: Q i) nodes nodes'.
Proof.
  intros Hf Hx Hr Hs. destruct (put_tail_spec L nodes (hd i) (tl i) (Q i) x)
    as (nodes' & h & t & Hp & Hd & Hrl); [by apply family_dll|apply Hx|done|done|].
  exists nodes', h, t. split_and!; try done. destruct Hf as [Hf Hq].
  eapply family_replace; [done|done|done| |]; intros j y Hy.
  - intros [->|]%elem_of_cons; [by destruct (Hx j)|by eapply Hq].
  - intros [?|Hxy%list_elem_of_singleton]%elem_of_app; [by eapply Hq|subst; by destruct (Hx j)].
Qed.

Lemma family_get nodes hd tl Q i l1 x l2 :
  family nodes hd tl Q → Q i = l1 ++ x :: l2 →
  ∃ nodes' h t, selective_get L nodes (hd i) (tl i) x = Some (nodes', (h, t)) ∧
    family nodes' (<[i:=h]> hd) (<[i:=t]> tl) (<[i:=l1 ++ l2]> Q) ∧
    relinked L (l1 ++ l2) nodes nodes'.
Proof.
  intros Hf Hi. destruct (selective_get_spec L nodes (hd i) (tl i) l1 x l2)
    as (nodes' & h & t & Hp & Hd & Hrl); [rewrite <- Hi; by apply family_dll|].
  exists nodes', h, t. split_and!; try done. destruct Hf as [Hf Hq].
  eapply family_replace; [done|done|done| |]; intros j y Hy Hy'; eapply Hq; try done;
    rewrite Hi; set_solver.
Qed.

Lemma family_pop nodes hd tl Q i x l :
  family nodes hd tl Q → Q i = x :: l →
  hd i = x ∧ ∃ nodes' h t, pop_head L nodes (hd i) (tl i) = Some (nodes', (h, t)) ∧
    family nodes' (<[i:=h]> hd) (<[i:=t]> tl) (<[i:=l]> Q) ∧ relinked L l nodes nodes'.
Proof.
  intros Hf Hi. destruct (pop_head_spec L nodes (hd i) (tl i) x l)
    as (Hh & nodes' & h & t & Hp & Hd & Hrl); [rewrite <- Hi; by apply family_dll|].
  split; [done|]. exists nodes', h, t. split_and!; try done. destruct Hf as [Hf Hq].
  eapply family_replace; [done|done|done| |]; intros j y Hy Hy'; eapply Hq; try done;
    rewrite Hi; set_solver.
Qed.
End family.
