(* ===== verification/Config.v ===== *)
(** The build-time configuration of the firmware: flash geometry, FTL sizes,
    address-space macros and the DRAM map (ftl_config.h, address_translation.h,
    memory_map.h and the table-size constants of the other headers). *)
From S2P Require Import Prelude.

(** The factors a build chooses: the number of channels found in the generated
    [xparameters.h], and the three factors ftl_config.h calls "user configurable". *)
Class Config := {
  NUMBER_OF_CONNECTED_CHANNEL : Z;
  BITS_PER_FLASH_CELL : Z;
  USER_BLOCKS_PER_LUN : Z;
  USER_WAYS : Z;
}.

(** ** ftl_config.h *)

Definition BYTES_PER_DATA_REGION_OF_NAND_ROW := 16384.
Definition BYTES_PER_SPARE_REGION_OF_NAND_ROW := 1664.
Definition ROWS_PER_SLC_BLOCK := 128.
Definition ROWS_PER_MLC_BLOCK := 256.
Definition MAIN_BLOCKS_PER_LUN := 4096.
Definition EXTENDED_BLOCKS_PER_LUN := 88.
Definition TOTAL_BLOCKS_PER_LUN := MAIN_BLOCKS_PER_LUN + EXTENDED_BLOCKS_PER_LUN.
Definition MAIN_ROWS_PER_SLC_LUN := ROWS_PER_SLC_BLOCK * MAIN_BLOCKS_PER_LUN.
Definition MAIN_ROWS_PER_MLC_LUN := ROWS_PER_MLC_BLOCK * MAIN_BLOCKS_PER_LUN.
Definition LUNS_PER_DIE := 2.
Definition MAIN_BLOCKS_PER_DIE := MAIN_BLOCKS_PER_LUN * LUNS_PER_DIE.
Definition TOTAL_BLOCKS_PER_DIE := TOTAL_BLOCKS_PER_LUN * LUNS_PER_DIE.
Definition BAD_BLOCK_MARK_PAGE0 := 0.
Definition BAD_BLOCK_MARK_PAGE1 := ROWS_PER_MLC_BLOCK - 1.
Definition BAD_BLOCK_MARK_BYTE0 := 0.
Definition BAD_BLOCK_MARK_BYTE1 := BYTES_PER_DATA_REGION_OF_NAND_ROW.

Definition NSC_MAX_WAYS := 8.
Definition BYTES_PER_DATA_REGION_OF_PAGE := 16384.
Definition BYTES_PER_SPARE_REGION_OF_PAGE := 256.
Definition PAGES_PER_SLC_BLOCK := ROWS_PER_SLC_BLOCK.
Definition PAGES_PER_MLC_BLOCK := ROWS_PER_MLC_BLOCK.
Definition BIT_ERROR_THRESHOLD_PER_CHUNK := 20.
Definition ERROR_INFO_WORD_COUNT := 11.
Definition BYTES_PER_NVME_BLOCK := 4096.
Definition SLC_MODE := 1.
Definition MLC_MODE := 2.
Definition BYTES_PER_DATA_REGION_OF_SLICE := 16384.
Definition BYTES_PER_SPARE_REGION_OF_SLICE := 256.
Definition SLICES_PER_PAGE := BYTES_PER_DATA_REGION_OF_PAGE / BYTES_PER_DATA_REGION_OF_SLICE.
Definition NVME_BLOCKS_PER_PAGE := BYTES_PER_DATA_REGION_OF_PAGE / BYTES_PER_NVME_BLOCK.
Definition NVME_BLOCKS_PER_SLICE := BYTES_PER_DATA_REGION_OF_SLICE / BYTES_PER_NVME_BLOCK.

(** ** Constants of address_translation.h, data_buffer.h, request_allocation.h,
       request_schedule.h and the completion tables *)

Definition LSA_NONE := 0xffffffff.
Definition LSA_FAIL := 0xffffffff.
Definition VSA_NONE := 0xffffffff.
Definition VSA_FAIL := 0xffffffff.
Definition PAGE_NONE := 0xffff.
Definition BLOCK_NONE := 0xffff.
Definition BLOCK_FAIL := 0xffff.
Definition DIE_NONE := 0xff.
Definition RESERVED_FREE_BLOCK_COUNT := 1.
Definition GET_FREE_BLOCK_NORMAL := 0.
Definition GET_FREE_BLOCK_GC := 1.
Definition BLOCK_STATE_NORMAL := 0.
Definition BLOCK_STATE_BAD := 1.
Definition DIE_STATE_BAD_BLOCK_TABLE_NOT_EXIST := 0.
Definition DIE_STATE_BAD_BLOCK_TABLE_EXIST := 1.
Definition BAD_BLOCK_TABLE_MAKER_IDLE := 0.
Definition BAD_BLOCK_TABLE_MAKER_TRIGGER := 1.
Definition DIE_STATE_BAD_BLOCK_TABLE_HOLD := 2.
Definition DIE_STATE_BAD_BLOCK_TABLE_UPDATE := 3.
Definition CLEAN_DATA_IN_BYTE := 0xff.
Definition USED_PAGES_FOR_BAD_BLOCK_TABLE_PER_DIE :=
  TOTAL_BLOCKS_PER_DIE / BYTES_PER_DATA_REGION_OF_PAGE + 1.
Definition DATA_SIZE_OF_BAD_BLOCK_TABLE_PER_DIE := TOTAL_BLOCKS_PER_DIE.
Definition START_PAGE_NO_OF_BAD_BLOCK_TABLE_BLOCK := 1.
Definition BBT_INFO_GROWN_BAD_UPDATE_NONE := 0.
Definition BBT_INFO_GROWN_BAD_UPDATE_BOOKED := 1.

Definition DATA_BUF_NONE := 0xffff.
Definition DATA_BUF_FAIL := 0xffff.
Definition DATA_BUF_DIRTY := 1.
Definition DATA_BUF_CLEAN := 0.
Definition REQ_SLOT_TAG_NONE := 0xffff.
Definition REQ_SLOT_TAG_FAIL := 0xffff.
Definition WAY_NONE := 0xF.
Definition MAX_CMD_SLOT_TAG := 1024.
Definition PRINT_BUFFER_ENTRY_CNT := 1024.
Definition PRINT_BUFFER_DATA_SIZE := 256.

Section config.
Context `{Config}.

Definition NSC_MAX_CHANNELS := NUMBER_OF_CONNECTED_CHANNEL.
Definition USER_CHANNELS := NUMBER_OF_CONNECTED_CHANNEL.
Definition USER_DIES := USER_CHANNELS * USER_WAYS.
Definition USER_PAGES_PER_BLOCK := PAGES_PER_SLC_BLOCK * BITS_PER_FLASH_CELL.
Definition USER_PAGES_PER_LUN := USER_PAGES_PER_BLOCK * USER_BLOCKS_PER_LUN.
Definition USER_PAGES_PER_DIE := USER_PAGES_PER_LUN * LUNS_PER_DIE.
Definition USER_PAGES_PER_CHANNEL := USER_PAGES_PER_DIE * USER_WAYS.
Definition USER_PAGES_PER_SSD := USER_PAGES_PER_CHANNEL * USER_CHANNELS.
Definition SLICES_PER_BLOCK := USER_PAGES_PER_BLOCK * SLICES_PER_PAGE.
Definition SLICES_PER_SSD := USER_PAGES_PER_SSD * SLICES_PER_PAGE.
Definition USER_BLOCKS_PER_DIE := USER_BLOCKS_PER_LUN * LUNS_PER_DIE.
Definition USER_BLOCKS_PER_CHANNEL := USER_BLOCKS_PER_DIE * USER_WAYS.
Definition USER_BLOCKS_PER_SSD := USER_BLOCKS_PER_CHANNEL * USER_CHANNELS.
Definition MB_PER_BLOCK :=
  (BYTES_PER_DATA_REGION_OF_SLICE * SLICES_PER_BLOCK) / (1024 * 1024).
Definition MB_PER_SSD := USER_BLOCKS_PER_SSD * MB_PER_BLOCK.
Definition MB_PER_MIN_FREE_BLOCK_SPACE := USER_DIES * MB_PER_BLOCK.
Definition MB_PER_METADATA_BLOCK_SPACE := USER_DIES * MB_PER_BLOCK.
Definition MB_PER_OVER_PROVISION_BLOCK_SPACE := (USER_BLOCKS_PER_SSD / 10) * MB_PER_BLOCK.

Definition AVAILABLE_DATA_BUFFER_ENTRY_COUNT := 47 * USER_DIES.
Definition AVAILABLE_TEMPORARY_DATA_BUFFER_ENTRY_COUNT := USER_DIES.
Definition AVAILABLE_CCMD_DATA_BUFFER_ENTRY_COUNT := 1 * USER_DIES.
Definition AVAILABLE_OUNTSTANDING_REQ_COUNT := USER_DIES * 128.

(** ** Address translation macros (address_translation.h) *)

Definition Vsa2VdieTranslation (vsa : Z) : Z := vsa mod USER_DIES.
Definition Vsa2VblockTranslation (vsa : Z) : Z := vsa / USER_DIES / SLICES_PER_BLOCK.
Definition Vsa2VpageTranslation (vsa : Z) : Z := (vsa / USER_DIES) mod SLICES_PER_BLOCK.
Definition Vorg2VsaTranslation (dieNo blockNo pageNo : Z) : Z :=
  dieNo + USER_DIES * (blockNo * SLICES_PER_BLOCK + pageNo).
Definition Vdie2PchTranslation (dieNo : Z) : Z := dieNo mod USER_CHANNELS.
Definition Vdie2PwayTranslation (dieNo : Z) : Z := dieNo / USER_CHANNELS.
Definition Vblock2PblockOfTbsTranslation (blockNo : Z) : Z :=
  (blockNo / USER_BLOCKS_PER_LUN) * TOTAL_BLOCKS_PER_LUN + blockNo mod USER_BLOCKS_PER_LUN.
Definition Vblock2PblockOfMbsTranslation (blockNo : Z) : Z :=
  (blockNo / USER_BLOCKS_PER_LUN) * MAIN_BLOCKS_PER_LUN + blockNo mod USER_BLOCKS_PER_LUN.
Definition Vpage2PlsbPageTranslation (pageNo : Z) : Z :=
  if pageNo >? 0 then 2 * pageNo - 1 else 0.
Definition Pcw2VdieTranslation (chNo wayNo : Z) : Z := chNo + wayNo * USER_CHANNELS.
Definition PlsbPage2VpageTranslation (pageNo : Z) : Z :=
  if pageNo >? 0 then (pageNo + 1) / 2 else 0.

Definition FindDataBufHashTableEntry (logicalSliceAddr : Z) : Z :=
  logicalSliceAddr mod AVAILABLE_DATA_BUFFER_ENTRY_COUNT.
Definition FindCcmdDataBufHashTableEntry (logicalSliceAddr : Z) : Z :=
  logicalSliceAddr mod AVAILABLE_CCMD_DATA_BUFFER_ENTRY_COUNT.
End config.

(** ** Well-formed configurations

    What a build provides: between one and eight channels (there are eight
    possible controllers), at least one way and one block, and the
    restrictions that CheckConfigRestriction asserts at start-up. *)
Class ConfigOk `{Config} : Prop := {
  cfg_channels : 1 ≤ NUMBER_OF_CONNECTED_CHANNEL ≤ 8;
  cfg_ways : 1 ≤ USER_WAYS ≤ NSC_MAX_WAYS;
  cfg_blocks : 1 ≤ USER_BLOCKS_PER_LUN ≤ MAIN_BLOCKS_PER_LUN;
  cfg_bits : BITS_PER_FLASH_CELL = SLC_MODE ∨ BITS_PER_FLASH_CELL = MLC_MODE;
}.

(** The configuration in the repository, on a board with eight controllers. *)
Definition shipped_config : Config :=
  {| NUMBER_OF_CONNECTED_CHANNEL := 8; BITS_PER_FLASH_CELL := SLC_MODE;
     USER_BLOCKS_PER_LUN := 142; USER_WAYS := 8 |}.

Lemma shipped_config_ok : @ConfigOk shipped_config.
Proof. split; vm_compute; first [by left|split; discriminate]. Qed.

(** The smallest device: one channel, one way, two blocks per LUN; used to run
    the model on concrete inputs. *)
Definition tiny_config : Config :=
  {| NUMBER_OF_CONNECTED_CHANNEL := 1; BITS_PER_FLASH_CELL := SLC_MODE;
     USER_BLOCKS_PER_LUN := 2; USER_WAYS := 1 |}.

Lemma tiny_config_ok : @ConfigOk tiny_config.
Proof. split; vm_compute; first [by left|split; discriminate]. Qed.

(** Bounds every proof about the geometry starts from. *)
Section config_facts.
Context `{ConfigOk}.

Lemma USER_CHANNELS_bound : 1 ≤ USER_CHANNELS ≤ 8.
Proof. apply cfg_channels. Qed.

Lemma USER_WAYS_bound : 1 ≤ USER_WAYS ≤ 8.
Proof. apply cfg_ways. Qed.

Lemma USER_DIES_bound : 1 ≤ USER_DIES ≤ 64.
Proof. pose proof USER_CHANNELS_bound. pose proof USER_WAYS_bound. unfold USER_DIES. nia. Qed.

Lemma SLICES_PER_BLOCK_cases : SLICES_PER_BLOCK = 128 ∨ SLICES_PER_BLOCK = 256.
Proof.
  unfold SLICES_PER_BLOCK, USER_PAGES_PER_BLOCK.
  destruct cfg_bits as [->| ->]; vm_compute; auto.
Qed.

Lemma USER_BLOCKS_PER_LUN_bound : 1 ≤ USER_BLOCKS_PER_LUN ≤ 4096.
Proof. apply cfg_blocks. Qed.

Lemma USER_BLOCKS_PER_DIE_eq : USER_BLOCKS_PER_DIE = 2 * USER_BLOCKS_PER_LUN.
Proof. unfold USER_BLOCKS_PER_DIE, LUNS_PER_DIE. lia. Qed.

Lemma USER_BLOCKS_PER_DIE_bound : 2 ≤ USER_BLOCKS_PER_DIE ≤ 8192.
Proof. rewrite USER_BLOCKS_PER_DIE_eq. pose proof USER_BLOCKS_PER_LUN_bound. lia. Qed.

Lemma SLICES_PER_SSD_eq : SLICES_PER_SSD = USER_DIES * (USER_BLOCKS_PER_DIE * SLICES_PER_BLOCK).
Proof.
  unfold SLICES_PER_SSD, USER_PAGES_PER_SSD, USER_PAGES_PER_CHANNEL, USER_PAGES_PER_DIE,
    USER_PAGES_PER_LUN, USER_DIES, USER_BLOCKS_PER_DIE, SLICES_PER_BLOCK. ring.
Qed.

Lemma SLICES_PER_SSD_bound : 0 < SLICES_PER_SSD ≤ 0x8000000.
Proof.
  rewrite SLICES_PER_SSD_eq. pose proof USER_DIES_bound. pose proof USER_BLOCKS_PER_DIE_bound.
  destruct SLICES_PER_BLOCK_cases as [->| ->]; nia.
Qed.
End config_facts.

(** Pose the bounds of the geometry. *)
Ltac geometry :=
  pose proof USER_CHANNELS_bound; pose proof USER_WAYS_bound; pose proof USER_DIES_bound;
  pose proof USER_BLOCKS_PER_LUN_bound; pose proof USER_BLOCKS_PER_DIE_bound;
  pose proof SLICES_PER_SSD_bound; pose proof SLICES_PER_BLOCK_cases.

(** ** The address spaces *)

Section address_spaces.
Context `{ConfigOk}.

Lemma Vorg2Vsa_bound die block page :
  0 ≤ die < USER_DIES → 0 ≤ block < USER_BLOCKS_PER_DIE → 0 ≤ page < SLICES_PER_BLOCK →
  0 ≤ Vorg2VsaTranslation die block page < SLICES_PER_SSD.
Proof.
  intros. geometry. rewrite SLICES_PER_SSD_eq. unfold Vorg2VsaTranslation.
  assert (0 ≤ block * SLICES_PER_BLOCK + page < USER_BLOCKS_PER_DIE * SLICES_PER_BLOCK) by nia.
  nia.
Qed.

Lemma Vsa2V_Vorg2Vsa die block page :
  0 ≤ die < USER_DIES → 0 ≤ block < USER_BLOCKS_PER_DIE → 0 ≤ page < SLICES_PER_BLOCK →
  Vsa2VdieTranslation (Vorg2VsaTranslation die block page) = die ∧
  Vsa2VblockTranslation (Vorg2VsaTranslation die block page) = block ∧
  Vsa2VpageTranslation (Vorg2VsaTranslation die block page) = page.
Proof.
  intros. geometry. unfold Vsa2VdieTranslation, Vsa2VblockTranslation, Vsa2VpageTranslation,
    Vorg2VsaTranslation.
  rewrite (Z.mul_comm USER_DIES), Z_mod_plus_full, Z_div_plus_full, (Z.div_small die) by lia.
  rewrite Z.mod_small, Z.add_0_l, (Z.add_comm (_ * _)), Z_div_plus_full, Z_mod_plus_full,
    Z.div_small, Z.mod_small by lia. lia.
Qed.

Lemma Vsa2V_bound vsa :
  0 ≤ vsa < SLICES_PER_SSD →
  0 ≤ Vsa2VdieTranslation vsa < USER_DIES ∧
  0 ≤ Vsa2VblockTranslation vsa < USER_BLOCKS_PER_DIE ∧
  0 ≤ Vsa2VpageTranslation vsa < SLICES_PER_BLOCK.
Proof.
  rewrite SLICES_PER_SSD_eq. intros. geometry.
  unfold Vsa2VdieTranslation, Vsa2VblockTranslation, Vsa2VpageTranslation. split_and!.
  1-2: apply Z.mod_pos_bound; lia.
  - apply Z.div_pos; [apply Z.div_pos|]; lia.
  - apply Z.div_lt_upper_bound; [lia|]. apply Z.div_lt_upper_bound; [lia|]. nia.
  - apply Z.mod_pos_bound; lia.
  - apply Z.mod_pos_bound; lia.
Qed.

Lemma Vorg2Vsa_Vsa2V vsa :
  Vorg2VsaTranslation (Vsa2VdieTranslation vsa) (Vsa2VblockTranslation vsa)
    (Vsa2VpageTranslation vsa) = vsa.
Proof.
  geometry. unfold Vsa2VdieTranslation, Vsa2VblockTranslation, Vsa2VpageTranslation,
    Vorg2VsaTranslation.
  rewrite (Z.mul_comm (_ / _ / _)), <- Z.div_mod, Z.add_comm, <- Z.div_mod by lia. done.
Qed.

Lemma Pcw2Vdie_bound ch way :
  0 ≤ ch < USER_CHANNELS → 0 ≤ way < USER_WAYS → 0 ≤ Pcw2VdieTranslation ch way < USER_DIES.
Proof. intros. geometry. unfold Pcw2VdieTranslation, USER_DIES in *. nia. Qed.

Lemma Vdie2P_Pcw2Vdie ch way :
  0 ≤ ch < USER_CHANNELS → 0 ≤ way < USER_WAYS →
  Vdie2PchTranslation (Pcw2VdieTranslation ch way) = ch ∧
  Vdie2PwayTranslation (Pcw2VdieTranslation ch way) = way.
Proof.
  intros. geometry. unfold Vdie2PchTranslation, Vdie2PwayTranslation, Pcw2VdieTranslation.
  rewrite Z_mod_plus_full, Z_div_plus_full, Z.mod_small, Z.div_small by lia. lia.
Qed.

Lemma Vdie2P_bound die :
  0 ≤ die < USER_DIES →
  0 ≤ Vdie2PchTranslation die < USER_CHANNELS ∧ 0 ≤ Vdie2PwayTranslation die < USER_WAYS.
Proof.
  intros. geometry. unfold Vdie2PchTranslation, Vdie2PwayTranslation, USER_DIES in *. split.
  - apply Z.mod_pos_bound; lia.
  - split; [apply Z.div_pos; lia|apply Z.div_lt_upper_bound; nia].
Qed.

Lemma Pcw2Vdie_Vdie2P die :
  Pcw2VdieTranslation (Vdie2PchTranslation die) (Vdie2PwayTranslation die) = die.
Proof.
  geometry. unfold Vdie2PchTranslation, Vdie2PwayTranslation, Pcw2VdieTranslation.
  rewrite Z.add_comm, Z.mul_comm, <- Z.div_mod by lia. done.
Qed.

(** A virtual block and the LUN it lies in. *)
Lemma Vblock_split block :
  0 ≤ block < USER_BLOCKS_PER_DIE →
  0 ≤ block / USER_BLOCKS_PER_LUN < LUNS_PER_DIE ∧
  0 ≤ block mod USER_BLOCKS_PER_LUN < USER_BLOCKS_PER_LUN.
Proof.
  rewrite USER_BLOCKS_PER_DIE_eq. intros. geometry. split_and!; try apply Z.mod_pos_bound; try lia.
  - apply Z.div_pos; lia.
  - apply Z.div_lt_upper_bound; unfold LUNS_PER_DIE; lia.
Qed.

Lemma Vblock2PblockOfTbs_bound block :
  0 ≤ block < USER_BLOCKS_PER_DIE →
  0 ≤ Vblock2PblockOfTbsTranslation block < TOTAL_BLOCKS_PER_DIE ∧
  Vblock2PblockOfTbsTranslation block / TOTAL_BLOCKS_PER_LUN = block / USER_BLOCKS_PER_LUN ∧
  Vblock2PblockOfTbsTranslation block mod TOTAL_BLOCKS_PER_LUN = block mod USER_BLOCKS_PER_LUN.
Proof.
  intros Hb. destruct (Vblock_split block Hb) as [Hl Hm]. geometry.
  unfold Vblock2PblockOfTbsTranslation, TOTAL_BLOCKS_PER_DIE.
  change TOTAL_BLOCKS_PER_LUN with 4184 in *. change LUNS_PER_DIE with 2 in *. split; [nia|].
  rewrite Z.add_comm, Z_div_plus_full, Z_mod_plus_full, Z.div_small, Z.mod_small by lia. lia.
Qed.

Lemma Vblock2PblockOfMbs_bound block :
  0 ≤ block < USER_BLOCKS_PER_DIE →
  0 ≤ Vblock2PblockOfMbsTranslation block < MAIN_BLOCKS_PER_DIE ∧
  Vblock2PblockOfMbsTranslation block / MAIN_BLOCKS_PER_LUN = block / USER_BLOCKS_PER_LUN ∧
  Vblock2PblockOfMbsTranslation block mod MAIN_BLOCKS_PER_LUN = block mod USER_BLOCKS_PER_LUN.
Proof.
  intros Hb. destruct (Vblock_split block Hb) as [Hl Hm]. geometry.
  unfold Vblock2PblockOfMbsTranslation, MAIN_BLOCKS_PER_DIE.
  change MAIN_BLOCKS_PER_LUN with 4096 in *. change LUNS_PER_DIE with 2 in *. split; [nia|].
  rewrite Z.add_comm, Z_div_plus_full, Z_mod_plus_full, Z.div_small, Z.mod_small by lia. lia.
Qed.

Lemma block_of_lun_split b b' n :
  0 < n → b / n = b' / n → b mod n = b' mod n → b = b'.
Proof. intros. rewrite (Z.div_mod b n), (Z.div_mod b' n) by lia. congruence. Qed.
End address_spaces.

(** ** Properties *)

(** C39: the virtual slice addresses are exactly the (die, block, page) triples:
    composing an address from a triple in range yields a number below
    SLICES_PER_SSD (so never VSA_NONE) from which the three macros recover the
    triple, and every address below SLICES_PER_SSD comes from its own triple,
    which is in range. *)
Theorem vsa_bijection `{ConfigOk} :
  (∀ die block page,
     0 ≤ die < USER_DIES → 0 ≤ block < USER_BLOCKS_PER_DIE → 0 ≤ page < SLICES_PER_BLOCK →
     let vsa := Vorg2VsaTranslation die block page in
     0 ≤ vsa < SLICES_PER_SSD ∧ vsa < VSA_NONE ∧
     Vsa2VdieTranslation vsa = die ∧ Vsa2VblockTranslation vsa = block ∧
     Vsa2VpageTranslation vsa = page) ∧
  (∀ vsa, 0 ≤ vsa < SLICES_PER_SSD →
     0 ≤ Vsa2VdieTranslation vsa < USER_DIES ∧
     0 ≤ Vsa2VblockTranslation vsa < USER_BLOCKS_PER_DIE ∧
     0 ≤ Vsa2VpageTranslation vsa < SLICES_PER_BLOCK ∧
     Vorg2VsaTranslation (Vsa2VdieTranslation vsa) (Vsa2VblockTranslation vsa)
       (Vsa2VpageTranslation vsa) = vsa).
Proof.
  split.
  - intros. pose proof (Vorg2Vsa_bound die block page) as Hb. geometry.
    split; [tauto|]. split; [unfold VSA_NONE; subst vsa; lia|]. by apply Vsa2V_Vorg2Vsa.
  - intros vsa Hv. pose proof (Vsa2V_bound vsa Hv). rewrite Vorg2Vsa_Vsa2V. tauto.
Qed.

Lemma vsa_bijection_witness :
  let _ := shipped_config in
  Vsa2VpageTranslation (Vorg2VsaTranslation 63 283 127) = 127.
Proof.
  apply (proj1 (@vsa_bijection shipped_config shipped_config_ok) 63 283 127);
    vm_compute; split; congruence.
Defined.

(** the physical translation of dies and blocks loses nothing: (channel,
    way) and die number determine each other, and distinct virtual blocks of a
    die get distinct physical blocks, in the same LUN, both in the total and in
    the main block space. *)
Theorem physical_translation_injective `{ConfigOk} :
  (∀ ch way, 0 ≤ ch < USER_CHANNELS → 0 ≤ way < USER_WAYS →
     0 ≤ Pcw2VdieTranslation ch way < USER_DIES ∧
     Vdie2PchTranslation (Pcw2VdieTranslation ch way) = ch ∧
     Vdie2PwayTranslation (Pcw2VdieTranslation ch way) = way) ∧
  (∀ die, 0 ≤ die < USER_DIES →
     0 ≤ Vdie2PchTranslation die < USER_CHANNELS ∧ 0 ≤ Vdie2PwayTranslation die < USER_WAYS ∧
     Pcw2VdieTranslation (Vdie2PchTranslation die) (Vdie2PwayTranslation die) = die) ∧
  (∀ b b', 0 ≤ b < USER_BLOCKS_PER_DIE → 0 ≤ b' < USER_BLOCKS_PER_DIE →
     0 ≤ Vblock2PblockOfTbsTranslation b < TOTAL_BLOCKS_PER_DIE ∧
     Vblock2PblockOfTbsTranslation b / TOTAL_BLOCKS_PER_LUN = b / USER_BLOCKS_PER_LUN ∧
     (Vblock2PblockOfTbsTranslation b = Vblock2PblockOfTbsTranslation b' → b = b') ∧
     0 ≤ Vblock2PblockOfMbsTranslation b < MAIN_BLOCKS_PER_DIE ∧
     Vblock2PblockOfMbsTranslation b / MAIN_BLOCKS_PER_LUN = b / USER_BLOCKS_PER_LUN ∧
     (Vblock2PblockOfMbsTranslation b = Vblock2PblockOfMbsTranslation b' → b = b')).
Proof.
  geometry. split_and!.
  - intros ch way ? ?. pose proof (Vdie2P_Pcw2Vdie ch way). pose proof (Pcw2Vdie_bound ch way). tauto.
  - intros die Hd. pose proof (Vdie2P_bound die Hd). rewrite Pcw2Vdie_Vdie2P. tauto.
  - intros b b' Hb Hb'.
    destruct (Vblock2PblockOfTbs_bound b Hb) as (? & Ht1 & Ht2).
    destruct (Vblock2PblockOfTbs_bound b' Hb') as (? & Ht1' & Ht2').
    destruct (Vblock2PblockOfMbs_bound b Hb) as (? & Hm1 & Hm2).
    destruct (Vblock2PblockOfMbs_bound b' Hb') as (? & Hm1' & Hm2').
    split_and!; try tauto; intros E; apply (block_of_lun_split b b' USER_BLOCKS_PER_LUN); try lia;
      congruence.
Qed.
