(* ===== verification/MemMap.v ===== *)
(** The DRAM map (memory_map.h) and the start-up check of the configuration
    against it (CheckConfigRestriction of ftl_config.c).

    The sizes of the tables are those of the structs under the ARM EABI: a
    bit-field that does not fit in the current 32-bit unit starts a new one. *)
From Stdlib Require Import Sorted.
From S2P Require Import Prelude Config.

Section memmap.
Context `{Config}.

Definition DRAM_START_ADDR := 0x00100000.
Definition MEMORY_SEGMENTS_START_ADDR := DRAM_START_ADDR.
Definition MEMORY_SEGMENTS_END_ADDR := 0x001FFFFF.
Definition NVME_MANAGEMENT_START_ADDR := 0x00200000.
Definition NVME_MANAGEMENT_END_ADDR := 0x002FFFFF.
Definition RESERVED0_START_ADDR := 0x00300000.
Definition RESERVED0_END_ADDR := 0x0FFFFFFF.
Definition FTL_MANAGEMENT_START_ADDR := 0x10000000.
Definition DATA_BUFFER_BASE_ADDR := 0x10000000.
Definition TEMPORARY_DATA_BUFFER_BASE_ADDR :=
  DATA_BUFFER_BASE_ADDR + AVAILABLE_DATA_BUFFER_ENTRY_COUNT * BYTES_PER_DATA_REGION_OF_SLICE.
Definition SPARE_DATA_BUFFER_BASE_ADDR :=
  TEMPORARY_DATA_BUFFER_BASE_ADDR +
  AVAILABLE_TEMPORARY_DATA_BUFFER_ENTRY_COUNT * BYTES_PER_DATA_REGION_OF_SLICE.
Definition TEMPORARY_SPARE_DATA_BUFFER_BASE_ADDR :=
  SPARE_DATA_BUFFER_BASE_ADDR +
  AVAILABLE_DATA_BUFFER_ENTRY_COUNT * BYTES_PER_SPARE_REGION_OF_SLICE.
Definition CCMD_DATA_BUFFER_BASE_ADDR :=
  TEMPORARY_SPARE_DATA_BUFFER_BASE_ADDR +
  AVAILABLE_TEMPORARY_DATA_BUFFER_ENTRY_COUNT * BYTES_PER_SPARE_REGION_OF_SLICE.
Definition CCMD_SPARE_DATA_BUFFER_BASE_ADDR :=
  CCMD_DATA_BUFFER_BASE_ADDR +
  AVAILABLE_CCMD_DATA_BUFFER_ENTRY_COUNT * BYTES_PER_DATA_REGION_OF_SLICE.
Definition RESERVED_DATA_BUFFER_BASE_ADDR :=
  CCMD_SPARE_DATA_BUFFER_BASE_ADDR +
  AVAILABLE_CCMD_DATA_BUFFER_ENTRY_COUNT * BYTES_PER_SPARE_REGION_OF_SLICE.

(** Sizes of the tables of the map. *)
Definition sizeof_COMPLETE_FLAG_TABLE := 4 * USER_CHANNELS * USER_WAYS.
Definition sizeof_STATUS_REPORT_TABLE := 4 * USER_CHANNELS * USER_WAYS.
Definition sizeof_ERROR_INFO_TABLE := 4 * USER_CHANNELS * USER_WAYS * ERROR_INFO_WORD_COUNT.
Definition sizeof_DATA_BUF_MAP := 16 * AVAILABLE_DATA_BUFFER_ENTRY_COUNT.
Definition sizeof_DATA_BUF_HASH_TABLE := 4 * AVAILABLE_DATA_BUFFER_ENTRY_COUNT.
Definition sizeof_TEMPORARY_DATA_BUF_MAP := 4 * AVAILABLE_TEMPORARY_DATA_BUFFER_ENTRY_COUNT.
Definition sizeof_CCMD_DATA_BUF_MAP := 16 * AVAILABLE_DATA_BUFFER_ENTRY_COUNT.
Definition sizeof_CCMD_DATA_BUF_HASH_TABLE := 4 * AVAILABLE_DATA_BUFFER_ENTRY_COUNT.
Definition sizeof_LOGICAL_SLICE_MAP := 4 * SLICES_PER_SSD.
Definition sizeof_VIRTUAL_SLICE_MAP := 4 * SLICES_PER_SSD.
Definition sizeof_VIRTUAL_BLOCK_MAP := 12 * USER_DIES * USER_BLOCKS_PER_DIE.
Definition sizeof_PHY_BLOCK_MAP := 4 * USER_DIES * TOTAL_BLOCKS_PER_DIE.
Definition sizeof_BAD_BLOCK_TABLE_INFO_MAP := 4 * USER_DIES.
Definition sizeof_VIRTUAL_DIE_MAP := 12 * USER_DIES.
Definition sizeof_GC_VICTIM_MAP := 4 * USER_DIES * (SLICES_PER_BLOCK + 1).
Definition sizeof_REQ_POOL := 44 * AVAILABLE_OUNTSTANDING_REQ_COUNT.
Definition sizeof_ROW_ADDR_DEPENDENCY_TABLE := 4 * USER_CHANNELS * USER_WAYS * MAIN_BLOCKS_PER_DIE.
Definition sizeof_DIE_STATE_TABLE := 4 * USER_CHANNELS * USER_WAYS.
Definition sizeof_RETRY_LIMIT_TABLE := 4 * USER_CHANNELS * USER_WAYS.
Definition sizeof_WAY_PRIORITY_TABLE := 8 * USER_CHANNELS.
Definition sizeof_CUSTOM_IO_CMD_COMPLETE_TABLE := 12 * MAX_CMD_SLOT_TAG.
Definition sizeof_HOST_REQUEST_TIME_TABLE := 64 * MAX_CMD_SLOT_TAG.
Definition sizeof_PRINT_BUFFER_TABLE := PRINT_BUFFER_DATA_SIZE * PRINT_BUFFER_ENTRY_CNT.

Definition COMPLETE_FLAG_TABLE_ADDR := 0x17000000.
Definition STATUS_REPORT_TABLE_ADDR := COMPLETE_FLAG_TABLE_ADDR + sizeof_COMPLETE_FLAG_TABLE.
Definition ERROR_INFO_TABLE_ADDR := STATUS_REPORT_TABLE_ADDR + sizeof_STATUS_REPORT_TABLE.
Definition TEMPORARY_PAY_LOAD_ADDR := ERROR_INFO_TABLE_ADDR + sizeof_ERROR_INFO_TABLE.
Definition DATA_BUFFER_MAP_ADDR := 0x18000000.
Definition DATA_BUFFFER_HASH_TABLE_ADDR := DATA_BUFFER_MAP_ADDR + sizeof_DATA_BUF_MAP.
Definition TEMPORARY_DATA_BUFFER_MAP_ADDR :=
  DATA_BUFFFER_HASH_TABLE_ADDR + sizeof_DATA_BUF_HASH_TABLE.
Definition CCMD_DATA_BUF_MAP_ADDR :=
  TEMPORARY_DATA_BUFFER_MAP_ADDR + sizeof_TEMPORARY_DATA_BUF_MAP.
Definition CCMD_DATA_BUF_HASH_TABLE_ADDR := CCMD_DATA_BUF_MAP_ADDR + sizeof_CCMD_DATA_BUF_MAP.
Definition LOGICAL_SLICE_MAP_ADDR :=
  CCMD_DATA_BUF_HASH_TABLE_ADDR + sizeof_CCMD_DATA_BUF_HASH_TABLE.
Definition VIRTUAL_SLICE_MAP_ADDR := LOGICAL_SLICE_MAP_ADDR + sizeof_LOGICAL_SLICE_MAP.
Definition VIRTUAL_BLOCK_MAP_ADDR := VIRTUAL_SLICE_MAP_ADDR + sizeof_VIRTUAL_SLICE_MAP.
Definition PHY_BLOCK_MAP_ADDR := VIRTUAL_BLOCK_MAP_ADDR + sizeof_VIRTUAL_BLOCK_MAP.
Definition BAD_BLOCK_TABLE_INFO_MAP_ADDR := PHY_BLOCK_MAP_ADDR + sizeof_PHY_BLOCK_MAP.
Definition VIRTUAL_DIE_MAP_ADDR :=
  BAD_BLOCK_TABLE_INFO_MAP_ADDR + sizeof_BAD_BLOCK_TABLE_INFO_MAP.
Definition GC_VICTIM_MAP_ADDR := VIRTUAL_DIE_MAP_ADDR + sizeof_VIRTUAL_DIE_MAP.
Definition REQ_POOL_ADDR := GC_VICTIM_MAP_ADDR + sizeof_GC_VICTIM_MAP.
Definition ROW_ADDR_DEPENDENCY_TABLE_ADDR := REQ_POOL_ADDR + sizeof_REQ_POOL.
Definition DIE_STATE_TABLE_ADDR :=
  ROW_ADDR_DEPENDENCY_TABLE_ADDR + sizeof_ROW_ADDR_DEPENDENCY_TABLE.
Definition RETRY_LIMIT_TABLE_ADDR := DIE_STATE_TABLE_ADDR + sizeof_DIE_STATE_TABLE.
Definition WAY_PRIORITY_TABLE_ADDR := RETRY_LIMIT_TABLE_ADDR + sizeof_RETRY_LIMIT_TABLE.
Definition CUSTOM_IO_CMD_COMPLETE_TABLE_ADDR :=
  WAY_PRIORITY_TABLE_ADDR + sizeof_WAY_PRIORITY_TABLE.
Definition HOST_REQUEST_TIME_TABLE_ADDR :=
  CUSTOM_IO_CMD_COMPLETE_TABLE_ADDR + sizeof_CUSTOM_IO_CMD_COMPLETE_TABLE.
Definition PRINT_BUFFER_TABLE_ADDR :=
  HOST_REQUEST_TIME_TABLE_ADDR + sizeof_HOST_REQUEST_TIME_TABLE.
Definition FTL_MANAGEMENT_END_ADDR := PRINT_BUFFER_TABLE_ADDR + sizeof_PRINT_BUFFER_TABLE - 1.
Definition DRAM_END_ADDR := 0x3FFFFFFF.

(** ftl_config.c *)
Definition CheckConfigRestriction {S} : M S unit :=
  when (USER_CHANNELS >? NSC_MAX_CHANNELS) (fail Assert) ;;
  when (USER_WAYS >? NSC_MAX_WAYS) (fail Assert) ;;
  when (USER_BLOCKS_PER_LUN >? MAIN_BLOCKS_PER_LUN) (fail Assert) ;;
  when (negb (BITS_PER_FLASH_CELL =? SLC_MODE) && negb (BITS_PER_FLASH_CELL =? MLC_MODE))
    (fail Assert) ;;
  when (RESERVED_DATA_BUFFER_BASE_ADDR + 0x00200000 >? COMPLETE_FLAG_TABLE_ADDR) (fail Assert) ;;
  when (TEMPORARY_PAY_LOAD_ADDR + 0x00001000 >? DATA_BUFFER_MAP_ADDR) (fail Assert) ;;
  when (FTL_MANAGEMENT_END_ADDR >? DRAM_END_ADDR) (fail Assert).

(** The regions of the map, in address order: base and size. *)
Definition regions : list (Z * Z) :=
  [ (DATA_BUFFER_BASE_ADDR, AVAILABLE_DATA_BUFFER_ENTRY_COUNT * BYTES_PER_DATA_REGION_OF_SLICE);
    (TEMPORARY_DATA_BUFFER_BASE_ADDR,
       AVAILABLE_TEMPORARY_DATA_BUFFER_ENTRY_COUNT * BYTES_PER_DATA_REGION_OF_SLICE);
    (SPARE_DATA_BUFFER_BASE_ADDR,
       AVAILABLE_DATA_BUFFER_ENTRY_COUNT * BYTES_PER_SPARE_REGION_OF_SLICE);
    (TEMPORARY_SPARE_DATA_BUFFER_BASE_ADDR,
       AVAILABLE_TEMPORARY_DATA_BUFFER_ENTRY_COUNT * BYTES_PER_SPARE_REGION_OF_SLICE);
    (CCMD_DATA_BUFFER_BASE_ADDR,
       AVAILABLE_CCMD_DATA_BUFFER_ENTRY_COUNT * BYTES_PER_DATA_REGION_OF_SLICE);
    (CCMD_SPARE_DATA_BUFFER_BASE_ADDR,
       AVAILABLE_CCMD_DATA_BUFFER_ENTRY_COUNT * BYTES_PER_SPARE_REGION_OF_SLICE);
    (COMPLETE_FLAG_TABLE_ADDR, sizeof_COMPLETE_FLAG_TABLE);
    (STATUS_REPORT_TABLE_ADDR, sizeof_STATUS_REPORT_TABLE);
    (ERROR_INFO_TABLE_ADDR, sizeof_ERROR_INFO_TABLE);
    (TEMPORARY_PAY_LOAD_ADDR, 0x00001000);
    (DATA_BUFFER_MAP_ADDR, sizeof_DATA_BUF_MAP);
    (DATA_BUFFFER_HASH_TABLE_ADDR, sizeof_DATA_BUF_HASH_TABLE);
    (TEMPORARY_DATA_BUFFER_MAP_ADDR, sizeof_TEMPORARY_DATA_BUF_MAP);
    (CCMD_DATA_BUF_MAP_ADDR, sizeof_CCMD_DATA_BUF_MAP);
    (CCMD_DATA_BUF_HASH_TABLE_ADDR, sizeof_CCMD_DATA_BUF_HASH_TABLE);
    (LOGICAL_SLICE_MAP_ADDR, sizeof_LOGICAL_SLICE_MAP);
    (VIRTUAL_SLICE_MAP_ADDR, sizeof_VIRTUAL_SLICE_MAP);
    (VIRTUAL_BLOCK_MAP_ADDR, sizeof_VIRTUAL_BLOCK_MAP);
    (PHY_BLOCK_MAP_ADDR, sizeof_PHY_BLOCK_MAP);
    (BAD_BLOCK_TABLE_INFO_MAP_ADDR, sizeof_BAD_BLOCK_TABLE_INFO_MAP);
    (VIRTUAL_DIE_MAP_ADDR, sizeof_VIRTUAL_DIE_MAP);
    (GC_VICTIM_MAP_ADDR, sizeof_GC_VICTIM_MAP);
    (REQ_POOL_ADDR, sizeof_REQ_POOL);
    (ROW_ADDR_DEPENDENCY_TABLE_ADDR, sizeof_ROW_ADDR_DEPENDENCY_TABLE);
    (DIE_STATE_TABLE_ADDR, sizeof_DIE_STATE_TABLE);
    (RETRY_LIMIT_TABLE_ADDR, sizeof_RETRY_LIMIT_TABLE);
    (WAY_PRIORITY_TABLE_ADDR, sizeof_WAY_PRIORITY_TABLE);
    (CUSTOM_IO_CMD_COMPLETE_TABLE_ADDR, sizeof_CUSTOM_IO_CMD_COMPLETE_TABLE);
    (HOST_REQUEST_TIME_TABLE_ADDR, sizeof_HOST_REQUEST_TIME_TABLE);
    (PRINT_BUFFER_TABLE_ADDR, sizeof_PRINT_BUFFER_TABLE) ].
End memmap.

(** ** Properties *)

Lemma when_fail_inv {S} (b : bool) (m : M S unit) s s' :
  (when b (fail Assert) ;; m) s = Ok tt s' → b = false ∧ m s = Ok tt s'.
Proof. by destruct b. Qed.

Lemma adjacent_disjoint (l : list (Z * Z)) :
  Forall (λ r, 0 ≤ r.2) l → Sorted (λ r r', r.1 + r.2 ≤ r'.1) l →
  StronglySorted (λ r r', r.1 + r.2 ≤ r'.1) l.
Proof.
  induction l as [|r l IH]; intros Hf Hs; [constructor|].
  apply Forall_cons in Hf as [Hr Hf]. apply Sorted_inv in Hs as [Hs Hhd].
  specialize (IH Hf Hs). constructor; [done|].
  destruct l as [|r1 l]; [constructor|]. apply HdRel_inv in Hhd.
  apply StronglySorted_inv in IH as [_ Hl]. apply Forall_cons in Hf as [Hr1 _].
  constructor; [done|]. eapply Forall_impl; [done|]. simpl. intros. lia.
Qed.

Lemma disjoint_span r0 l rn :
  Forall (λ r, 0 ≤ r.2) (r0 :: l ++ [rn]) →
  StronglySorted (λ r r' : Z * Z, r.1 + r.2 ≤ r'.1) (r0 :: l ++ [rn]) →
  Forall (λ r, r0.1 ≤ r.1 ∧ r.1 + r.2 ≤ rn.1 + rn.2) (r0 :: l ++ [rn]).
Proof.
  rewrite !Forall_forall. intros Hz Hs r Hr.
  assert (0 ≤ r0.2 ∧ 0 ≤ rn.2) as [? ?] by (split; apply Hz; set_solver).
  apply StronglySorted_inv in Hs as [Hs Hl]. rewrite Forall_forall in Hl. split.
  - apply elem_of_cons in Hr as [->|Hr]; [lia|]. specialize (Hl r Hr). lia.
  - assert (r = rn ∨ r.1 + r.2 ≤ rn.1) as [->|]; [|lia..].
    apply elem_of_cons in Hr as [->|Hr]; [right; apply Hl; set_solver|].
    clear Hl Hz. induction l as [|r1 l IH]; simpl in *.
    + left. set_solver.
    + apply StronglySorted_inv in Hs as [Hs Hl]. rewrite Forall_forall in Hl.
      apply elem_of_cons in Hr as [->|Hr]; [right; apply Hl; set_solver|auto].
Qed.

Ltac mem_unfold :=
  cbv [regions fst snd
    DATA_BUFFER_BASE_ADDR TEMPORARY_DATA_BUFFER_BASE_ADDR SPARE_DATA_BUFFER_BASE_ADDR
    TEMPORARY_SPARE_DATA_BUFFER_BASE_ADDR CCMD_DATA_BUFFER_BASE_ADDR
    CCMD_SPARE_DATA_BUFFER_BASE_ADDR RESERVED_DATA_BUFFER_BASE_ADDR
    sizeof_COMPLETE_FLAG_TABLE sizeof_STATUS_REPORT_TABLE sizeof_ERROR_INFO_TABLE
    sizeof_DATA_BUF_MAP sizeof_DATA_BUF_HASH_TABLE sizeof_TEMPORARY_DATA_BUF_MAP
    sizeof_CCMD_DATA_BUF_MAP sizeof_CCMD_DATA_BUF_HASH_TABLE sizeof_LOGICAL_SLICE_MAP
    sizeof_VIRTUAL_SLICE_MAP sizeof_VIRTUAL_BLOCK_MAP sizeof_PHY_BLOCK_MAP
    sizeof_BAD_BLOCK_TABLE_INFO_MAP sizeof_VIRTUAL_DIE_MAP sizeof_GC_VICTIM_MAP sizeof_REQ_POOL
    sizeof_ROW_ADDR_DEPENDENCY_TABLE sizeof_DIE_STATE_TABLE sizeof_RETRY_LIMIT_TABLE
    sizeof_WAY_PRIORITY_TABLE sizeof_CUSTOM_IO_CMD_COMPLETE_TABLE sizeof_HOST_REQUEST_TIME_TABLE
    sizeof_PRINT_BUFFER_TABLE MAX_CMD_SLOT_TAG PRINT_BUFFER_DATA_SIZE PRINT_BUFFER_ENTRY_CNT
    COMPLETE_FLAG_TABLE_ADDR STATUS_REPORT_TABLE_ADDR ERROR_INFO_TABLE_ADDR
    TEMPORARY_PAY_LOAD_ADDR DATA_BUFFER_MAP_ADDR DATA_BUFFFER_HASH_TABLE_ADDR
    TEMPORARY_DATA_BUFFER_MAP_ADDR CCMD_DATA_BUF_MAP_ADDR CCMD_DATA_BUF_HASH_TABLE_ADDR
    LOGICAL_SLICE_MAP_ADDR VIRTUAL_SLICE_MAP_ADDR VIRTUAL_BLOCK_MAP_ADDR PHY_BLOCK_MAP_ADDR
    BAD_BLOCK_TABLE_INFO_MAP_ADDR VIRTUAL_DIE_MAP_ADDR GC_VICTIM_MAP_ADDR REQ_POOL_ADDR
    ROW_ADDR_DEPENDENCY_TABLE_ADDR DIE_STATE_TABLE_ADDR RETRY_LIMIT_TABLE_ADDR
    WAY_PRIORITY_TABLE_ADDR CUSTOM_IO_CMD_COMPLETE_TABLE_ADDR HOST_REQUEST_TIME_TABLE_ADDR
    PRINT_BUFFER_TABLE_ADDR FTL_MANAGEMENT_END_ADDR DRAM_END_ADDR FTL_MANAGEMENT_START_ADDR
    AVAILABLE_DATA_BUFFER_ENTRY_COUNT AVAILABLE_TEMPORARY_DATA_BUFFER_ENTRY_COUNT
    AVAILABLE_CCMD_DATA_BUFFER_ENTRY_COUNT AVAILABLE_OUNTSTANDING_REQ_COUNT
    BYTES_PER_DATA_REGION_OF_SLICE BYTES_PER_SPARE_REGION_OF_SLICE ERROR_INFO_WORD_COUNT
    TOTAL_BLOCKS_PER_DIE MAIN_BLOCKS_PER_DIE TOTAL_BLOCKS_PER_LUN MAIN_BLOCKS_PER_LUN
    EXTENDED_BLOCKS_PER_LUN LUNS_PER_DIE] in *.

Section memmap_facts.
Context `{ConfigOk}.

Lemma regions_sizes : Forall (λ r, 0 ≤ r.2) regions.
Proof.
  geometry. assert (0 ≤ USER_CHANNELS * USER_WAYS) by nia. mem_unfold.
  repeat (constructor; [simpl; nia|]). constructor.
Qed.

Lemma regions_sorted :
  RESERVED_DATA_BUFFER_BASE_ADDR + 0x00200000 ≤ COMPLETE_FLAG_TABLE_ADDR →
  TEMPORARY_PAY_LOAD_ADDR + 0x00001000 ≤ DATA_BUFFER_MAP_ADDR →
  Sorted (λ r r', r.1 + r.2 ≤ r'.1) regions.
Proof.
  intros H1 H2. geometry. mem_unfold.
  repeat (constructor; [|constructor; simpl; lia]). repeat constructor.
Qed.

Lemma regions_ends :
  ∃ l, regions =
    (DATA_BUFFER_BASE_ADDR, AVAILABLE_DATA_BUFFER_ENTRY_COUNT * BYTES_PER_DATA_REGION_OF_SLICE)
      :: l ++ [(PRINT_BUFFER_TABLE_ADDR, sizeof_PRINT_BUFFER_TABLE)].
Proof. exists (take 28 (tail regions)). reflexivity. Qed.
End memmap_facts.

(** Unfold the last address before the arithmetic it is defined with. *)
#[local] Strategy expand [FTL_MANAGEMENT_END_ADDR].

Lemma CheckConfigRestriction_inv `{Config} S (s : S) :
  1 ≤ NUMBER_OF_CONNECTED_CHANNEL ≤ 8 → 1 ≤ USER_WAYS → 1 ≤ USER_BLOCKS_PER_LUN →
  CheckConfigRestriction s = Ok tt s →
  ConfigOk ∧ RESERVED_DATA_BUFFER_BASE_ADDR + 0x00200000 ≤ COMPLETE_FLAG_TABLE_ADDR ∧
  TEMPORARY_PAY_LOAD_ADDR + 0x00001000 ≤ DATA_BUFFER_MAP_ADDR ∧
  FTL_MANAGEMENT_END_ADDR ≤ DRAM_END_ADDR.
Proof.
  intros Hc Hw Hb Hk. unfold CheckConfigRestriction in Hk.
  apply when_fail_inv in Hk as [_ Hk]. apply when_fail_inv in Hk as [Hways Hk].
  apply when_fail_inv in Hk as [Hblk Hk]. apply when_fail_inv in Hk as [Hbits Hk].
  apply when_fail_inv in Hk as [H1 Hk]. apply when_fail_inv in Hk as [H2 Hk].
  destruct (FTL_MANAGEMENT_END_ADDR >? DRAM_END_ADDR) eqn:H3; [done|]. clear Hk.
  rewrite Z.gtb_ltb, Z.ltb_ge in *. split; [|done].
  split; [done..|]. destruct (Z.eqb_spec BITS_PER_FLASH_CELL SLC_MODE),
    (Z.eqb_spec BITS_PER_FLASH_CELL MLC_MODE); naive_solver.
Qed.


