(* ===== verification/ReqFormat.v ===== *)
(** Requests and request queues: the structs of request_format.h and
    request_queue.h, with their bit-field widths, and the request constants.

    The two unions of NAND_INFO overlay a virtual slice address on the physical
    channel/way/block, and a page count on the physical page.  A NAND_INFO is
    modelled as its two words; the members are views of the words. *)
From S2P Require Import Prelude Config.

Definition REQ_TYPE_SLICE := 0x0.
Definition REQ_TYPE_NAND := 0x1.
Definition REQ_TYPE_NVME_DMA := 0x2.
Definition REQ_QUEUE_TYPE_NONE := 0x0.
Definition REQ_QUEUE_TYPE_FREE := 0x1.
Definition REQ_QUEUE_TYPE_SLICE := 0x2.
Definition REQ_QUEUE_TYPE_BLOCKED_BY_BUF_DEP := 0x3.
Definition REQ_QUEUE_TYPE_BLOCKED_BY_ROW_ADDR_DEP := 0x4.
Definition REQ_QUEUE_TYPE_NVME_DMA := 0x5.
Definition REQ_QUEUE_TYPE_NAND := 0x6.
Definition REQ_QUEUE_TYPE_CUSTOM_CMD := 0x7.
Definition REQ_CODE_WRITE := 0x00.
Definition REQ_CODE_READ := 0x08.
Definition REQ_CODE_READ_TRANSFER := 0x09.
Definition REQ_CODE_ERASE := 0x0C.
Definition REQ_CODE_RESET := 0x0D.
Definition REQ_CODE_SET_FEATURE := 0x0E.
Definition REQ_CODE_FLUSH := 0x0F.
Definition REQ_CODE_RxDMA := 0x10.
Definition REQ_CODE_TxDMA := 0x20.
Definition REQ_CODE_OCSSD_PHY_TYPE_BASE := 0xA0.
Definition REQ_OPT_DATA_BUF_ENTRY := 0.
Definition REQ_OPT_DATA_BUF_TEMP_ENTRY := 1.
Definition REQ_OPT_DATA_BUF_ADDR := 2.
Definition REQ_OPT_DATA_BUF_NONE := 3.
Definition REQ_OPT_NAND_ADDR_VSA := 0.
Definition REQ_OPT_NAND_ADDR_PHY_ORG := 1.
Definition REQ_OPT_NAND_ECC_OFF := 0.
Definition REQ_OPT_NAND_ECC_ON := 1.
Definition REQ_OPT_NAND_ECC_WARNING_OFF := 0.
Definition REQ_OPT_NAND_ECC_WARNING_ON := 1.
Definition REQ_OPT_ROW_ADDR_DEPENDENCY_NONE := 0.
Definition REQ_OPT_ROW_ADDR_DEPENDENCY_CHECK := 1.
Definition REQ_OPT_FORCE_UNIT_ACCESS_OFF := 0.
Definition REQ_OPT_FORCE_UNIT_ACCESS_ON := 1.
Definition REQ_OPT_CUSTOM_CMD_OFF := 0.
Definition REQ_OPT_CUSTOM_CMD_ON := 1.
Definition REQ_OPT_CUSTOM_CMD_BUF_OFF := 0.
Definition REQ_OPT_CUSTOM_CMD_BUF_ON := 1.
Definition REQ_INFO_ISSUED_FLAG_OFF := 0.
Definition REQ_INFO_ISSUED_FLAG_ON := 1.
Definition REQ_OPT_BLOCK_SPACE_MAIN := 0.
Definition REQ_OPT_BLOCK_SPACE_TOTAL := 1.
Definition LOGICAL_SLICE_ADDR_NONE := 0xffffffff.

Record REQ_OPTION := MkREQ_OPTION {
  dataBufFormat : Z;  (** 2 bits *)
  nandAddr : Z;  (** 2 bits *)
  nandEcc : Z;  (** 1 bits *)
  nandEccWarning : Z;  (** 1 bits *)
  rowAddrDependencyCheck : Z;  (** 1 bits *)
  forceUnitAccess : Z;  (** 1 bits *)
  blockSpace : Z;  (** 1 bits *)
  customCmd : Z;  (** 1 bits *)
  ccmdDataBuf : Z;  (** 1 bits *)
}.
#[global] Instance set_dataBufFormat : Field dataBufFormat := λ v r,
  MkREQ_OPTION (wrap 2 v) (nandAddr r) (nandEcc r) (nandEccWarning r) (rowAddrDependencyCheck r) (forceUnitAccess r) (blockSpace r) (customCmd r) (ccmdDataBuf r).
#[global] Instance set_nandAddr : Field nandAddr := λ v r,
  MkREQ_OPTION (dataBufFormat r) (wrap 2 v) (nandEcc r) (nandEccWarning r) (rowAddrDependencyCheck r) (forceUnitAccess r) (blockSpace r) (customCmd r) (ccmdDataBuf r).
#[global] Instance set_nandEcc : Field nandEcc := λ v r,
  MkREQ_OPTION (dataBufFormat r) (nandAddr r) (wrap 1 v) (nandEccWarning r) (rowAddrDependencyCheck r) (forceUnitAccess r) (blockSpace r) (customCmd r) (ccmdDataBuf r).
#[global] Instance set_nandEccWarning : Field nandEccWarning := λ v r,
  MkREQ_OPTION (dataBufFormat r) (nandAddr r) (nandEcc r) (wrap 1 v) (rowAddrDependencyCheck r) (forceUnitAccess r) (blockSpace r) (customCmd r) (ccmdDataBuf r).
#[global] Instance set_rowAddrDependencyCheck : Field rowAddrDependencyCheck := λ v r,
  MkREQ_OPTION (dataBufFormat r) (nandAddr r) (nandEcc r) (nandEccWarning r) (wrap 1 v) (forceUnitAccess r) (blockSpace r) (customCmd r) (ccmdDataBuf r).
#[global] Instance set_forceUnitAccess : Field forceUnitAccess := λ v r,
  MkREQ_OPTION (dataBufFormat r) (nandAddr r) (nandEcc r) (nandEccWarning r) (rowAddrDependencyCheck r) (wrap 1 v) (blockSpace r) (customCmd r) (ccmdDataBuf r).
#[global] Instance set_blockSpace : Field blockSpace := λ v r,
  MkREQ_OPTION (dataBufFormat r) (nandAddr r) (nandEcc r) (nandEccWarning r) (rowAddrDependencyCheck r) (forceUnitAccess r) (wrap 1 v) (customCmd r) (ccmdDataBuf r).
#[global] Instance set_customCmd : Field customCmd := λ v r,
  MkREQ_OPTION (dataBufFormat r) (nandAddr r) (nandEcc r) (nandEccWarning r) (rowAddrDependencyCheck r) (forceUnitAccess r) (blockSpace r) (wrap 1 v) (ccmdDataBuf r).
#[global] Instance set_ccmdDataBuf : Field ccmdDataBuf := λ v r,
  MkREQ_OPTION (dataBufFormat r) (nandAddr r) (nandEcc r) (nandEccWarning r) (rowAddrDependencyCheck r) (forceUnitAccess r) (blockSpace r) (customCmd r) (wrap 1 v).

(** [addr] and [entry] are the two members of a union: one word. *)
Record DATA_BUF_INFO := MkDATA_BUF_INFO {
  entry : Z;
}.
#[global] Instance set_entry : Field entry := λ v r,
  MkDATA_BUF_INFO (wrap 32 v).

Abbreviation addr := entry.

Record NVME_DMA_INFO := MkNVME_DMA_INFO {
  startIndex : Z;  (** 16 bits *)
  nvmeBlockOffset : Z;  (** 16 bits *)
  numOfNvmeBlock : Z;  (** 16 bits *)
  reqTail : Z;  (** 8 bits *)
  issuedFlag : Z;  (** 1 bits *)
  overFlowCnt : Z;
}.
#[global] Instance set_startIndex : Field startIndex := λ v r,
  MkNVME_DMA_INFO (wrap 16 v) (nvmeBlockOffset r) (numOfNvmeBlock r) (reqTail r) (issuedFlag r) (overFlowCnt r).
#[global] Instance set_nvmeBlockOffset : Field nvmeBlockOffset := λ v r,
  MkNVME_DMA_INFO (startIndex r) (wrap 16 v) (numOfNvmeBlock r) (reqTail r) (issuedFlag r) (overFlowCnt r).
#[global] Instance set_numOfNvmeBlock : Field numOfNvmeBlock := λ v r,
  MkNVME_DMA_INFO (startIndex r) (nvmeBlockOffset r) (wrap 16 v) (reqTail r) (issuedFlag r) (overFlowCnt r).
#[global] Instance set_reqTail : Field reqTail := λ v r,
  MkNVME_DMA_INFO (startIndex r) (nvmeBlockOffset r) (numOfNvmeBlock r) (wrap 8 v) (issuedFlag r) (overFlowCnt r).
#[global] Instance set_issuedFlag : Field issuedFlag := λ v r,
  MkNVME_DMA_INFO (startIndex r) (nvmeBlockOffset r) (numOfNvmeBlock r) (reqTail r) (wrap 1 v) (overFlowCnt r).
#[global] Instance set_overFlowCnt : Field overFlowCnt := λ v r,
  MkNVME_DMA_INFO (startIndex r) (nvmeBlockOffset r) (numOfNvmeBlock r) (reqTail r) (issuedFlag r) (wrap 32 v).

Record NAND_INFO := MkNAND_INFO {
  nandWord0 : Z;
  nandWord1 : Z;
}.
#[global] Instance set_nandWord0 : Field nandWord0 := λ v r,
  MkNAND_INFO (wrap 32 v) (nandWord1 r).
#[global] Instance set_nandWord1 : Field nandWord1 := λ v r,
  MkNAND_INFO (nandWord0 r) (wrap 32 v).

Definition virtualSliceAddr (n : NAND_INFO) : Z := nandWord0 n.
Definition physicalCh (n : NAND_INFO) : Z := get_bits 0 4 (nandWord0 n).
Definition physicalWay (n : NAND_INFO) : Z := get_bits 4 4 (nandWord0 n).
Definition physicalBlock (n : NAND_INFO) : Z := get_bits 8 16 (nandWord0 n).
Definition programmedPageCnt (n : NAND_INFO) : Z := nandWord1 n.
Definition physicalPage (n : NAND_INFO) : Z := get_bits 0 16 (nandWord1 n).
#[global] Instance set_virtualSliceAddr : Field virtualSliceAddr := fset nandWord0.
#[global] Instance set_programmedPageCnt : Field programmedPageCnt := fset nandWord1.
#[global] Instance set_physicalCh : Field physicalCh :=
  λ v r, fset nandWord0 (set_bits 0 4 v (nandWord0 r)) r.
#[global] Instance set_physicalWay : Field physicalWay :=
  λ v r, fset nandWord0 (set_bits 4 4 v (nandWord0 r)) r.
#[global] Instance set_physicalBlock : Field physicalBlock :=
  λ v r, fset nandWord0 (set_bits 8 16 v (nandWord0 r)) r.
#[global] Instance set_physicalPage : Field physicalPage :=
  λ v r, fset nandWord1 (set_bits 0 16 v (nandWord1 r)) r.

Record SSD_REQ_FORMAT := MkSSD_REQ_FORMAT {
  reqType : Z;  (** 4 bits *)
  reqQueueType : Z;  (** 4 bits *)
  reqCode : Z;  (** 8 bits *)
  nvmeCmdSlotTag : Z;  (** 16 bits *)
  logicalSliceAddr : Z;
  reqOpt : REQ_OPTION;
  dataBufInfo : DATA_BUF_INFO;
  nvmeDmaInfo : NVME_DMA_INFO;
  nandInfo : NAND_INFO;
  prevReq : Z;  (** 16 bits *)
  nextReq : Z;  (** 16 bits *)
  prevBlockingReq : Z;  (** 16 bits *)
  nextBlockingReq : Z;  (** 16 bits *)
}.
#[global] Instance set_reqType : Field reqType := λ v r,
  MkSSD_REQ_FORMAT (wrap 4 v) (reqQueueType r) (reqCode r) (nvmeCmdSlotTag r) (logicalSliceAddr r) (reqOpt r) (dataBufInfo r) (nvmeDmaInfo r) (nandInfo r) (prevReq r) (nextReq r) (prevBlockingReq r) (nextBlockingReq r).
#[global] Instance set_reqQueueType : Field reqQueueType := λ v r,
  MkSSD_REQ_FORMAT (reqType r) (wrap 4 v) (reqCode r) (nvmeCmdSlotTag r) (logicalSliceAddr r) (reqOpt r) (dataBufInfo r) (nvmeDmaInfo r) (nandInfo r) (prevReq r) (nextReq r) (prevBlockingReq r) (nextBlockingReq r).
#[global] Instance set_reqCode : Field reqCode := λ v r,
  MkSSD_REQ_FORMAT (reqType r) (reqQueueType r) (wrap 8 v) (nvmeCmdSlotTag r) (logicalSliceAddr r) (reqOpt r) (dataBufInfo r) (nvmeDmaInfo r) (nandInfo r) (prevReq r) (nextReq r) (prevBlockingReq r) (nextBlockingReq r).
#[global] Instance set_nvmeCmdSlotTag : Field nvmeCmdSlotTag := λ v r,
  MkSSD_REQ_FORMAT (reqType r) (reqQueueType r) (reqCode r) (wrap 16 v) (logicalSliceAddr r) (reqOpt r) (dataBufInfo r) (nvmeDmaInfo r) (nandInfo r) (prevReq r) (nextReq r) (prevBlockingReq r) (nextBlockingReq r).
#[global] Instance set_logicalSliceAddr : Field logicalSliceAddr := λ v r,
  MkSSD_REQ_FORMAT (reqType r) (reqQueueType r) (reqCode r) (nvmeCmdSlotTag r) (wrap 32 v) (reqOpt r) (dataBufInfo r) (nvmeDmaInfo r) (nandInfo r) (prevReq r) (nextReq r) (prevBlockingReq r) (nextBlockingReq r).
#[global] Instance set_reqOpt : Field reqOpt := λ v r,
  MkSSD_REQ_FORMAT (reqType r) (reqQueueType r) (reqCode r) (nvmeCmdSlotTag r) (logicalSliceAddr r) v (dataBufInfo r) (nvmeDmaInfo r) (nandInfo r) (prevReq r) (nextReq r) (prevBlockingReq r) (nextBlockingReq r).
#[global] Instance set_dataBufInfo : Field dataBufInfo := λ v r,
  MkSSD_REQ_FORMAT (reqType r) (reqQueueType r) (reqCode r) (nvmeCmdSlotTag r) (logicalSliceAddr r) (reqOpt r) v (nvmeDmaInfo r) (nandInfo r) (prevReq r) (nextReq r) (prevBlockingReq r) (nextBlockingReq r).
#[global] Instance set_nvmeDmaInfo : Field nvmeDmaInfo := λ v r,
  MkSSD_REQ_FORMAT (reqType r) (reqQueueType r) (reqCode r) (nvmeCmdSlotTag r) (logicalSliceAddr r) (reqOpt r) (dataBufInfo r) v (nandInfo r) (prevReq r) (nextReq r) (prevBlockingReq r) (nextBlockingReq r).
#[global] Instance set_nandInfo : Field nandInfo := λ v r,
  MkSSD_REQ_FORMAT (reqType r) (reqQueueType r) (reqCode r) (nvmeCmdSlotTag r) (logicalSliceAddr r) (reqOpt r) (dataBufInfo r) (nvmeDmaInfo r) v (prevReq r) (nextReq r) (prevBlockingReq r) (nextBlockingReq r).
#[global] Instance set_prevReq : Field prevReq := λ v r,
  MkSSD_REQ_FORMAT (reqType r) (reqQueueType r) (reqCode r) (nvmeCmdSlotTag r) (logicalSliceAddr r) (reqOpt r) (dataBufInfo r) (nvmeDmaInfo r) (nandInfo r) (wrap 16 v) (nextReq r) (prevBlockingReq r) (nextBlockingReq r).
#[global] Instance set_nextReq : Field nextReq := λ v r,
  MkSSD_REQ_FORMAT (reqType r) (reqQueueType r) (reqCode r) (nvmeCmdSlotTag r) (logicalSliceAddr r) (reqOpt r) (dataBufInfo r) (nvmeDmaInfo r) (nandInfo r) (prevReq r) (wrap 16 v) (prevBlockingReq r) (nextBlockingReq r).
#[global] Instance set_prevBlockingReq : Field prevBlockingReq := λ v r,
  MkSSD_REQ_FORMAT (reqType r) (reqQueueType r) (reqCode r) (nvmeCmdSlotTag r) (logicalSliceAddr r) (reqOpt r) (dataBufInfo r) (nvmeDmaInfo r) (nandInfo r) (prevReq r) (nextReq r) (wrap 16 v) (nextBlockingReq r).
#[global] Instance set_nextBlockingReq : Field nextBlockingReq := λ v r,
  MkSSD_REQ_FORMAT (reqType r) (reqQueueType r) (reqCode r) (nvmeCmdSlotTag r) (logicalSliceAddr r) (reqOpt r) (dataBufInfo r) (nvmeDmaInfo r) (nandInfo r) (prevReq r) (nextReq r) (prevBlockingReq r) (wrap 16 v).

(** The seven queue structs of request_queue.h have the same members. *)
Record REQUEST_QUEUE := MkREQUEST_QUEUE {
  headReq : Z;  (** 16 bits *)
  tailReq : Z;  (** 16 bits *)
  reqCnt : Z;  (** 16 bits *)
}.
#[global] Instance set_headReq : Field headReq := λ v r,
  MkREQUEST_QUEUE (wrap 16 v) (tailReq r) (reqCnt r).
#[global] Instance set_tailReq : Field tailReq := λ v r,
  MkREQUEST_QUEUE (headReq r) (wrap 16 v) (reqCnt r).
#[global] Instance set_reqCnt : Field reqCnt := λ v r,
  MkREQUEST_QUEUE (headReq r) (tailReq r) (wrap 16 v).

Definition zero_req : SSD_REQ_FORMAT :=
  MkSSD_REQ_FORMAT 0 0 0 0 0 (MkREQ_OPTION 0 0 0 0 0 0 0 0 0) (MkDATA_BUF_INFO 0)
    (MkNVME_DMA_INFO 0 0 0 0 0 0) (MkNAND_INFO 0 0) 0 0 0 0.
Definition zero_queue : REQUEST_QUEUE := MkREQUEST_QUEUE 0 0 0.
