(* ===== verification/ReqQueues.v ===== *)
(** The request queues (request_allocation.c).

    A request slot is an element of the request pool; a queue is a list of slots
    linked through [prevReq]/[nextReq].  [QInv] states what the queues are for:
    every slot is in at most one queue, the one its [reqQueueType] names (or in
    none, when it is NONE), and the counters count the queues.  The operations
    are shown to be the operations of a family of mathematical lists. *)
From stdpp Require Import functions.
From S2P Require Import Prelude Dll Config ReqFormat.

(** The queue variables. *)
Inductive queue_id :=
| freeReqQ
| sliceReqQ
| blockedByBufDepReqQ
| blockedByRowAddrDepReqQ (chNo wayNo : Z)
| nvmeDmaReqQ
| nandReqQ (chNo wayNo : Z)
| customCmdQ.

#[global] Instance queue_id_eq_dec : EqDecision queue_id.
Proof. solve_decision. Defined.
#[global] Instance queue_id_countable : Countable queue_id.
Proof.
  refine (inj_countable'
    (λ q, match q with
          | freeReqQ => (0, 0, 0) | sliceReqQ => (1, 0, 0) | blockedByBufDepReqQ => (2, 0, 0)
          | blockedByRowAddrDepReqQ c w => (3, c, w) | nvmeDmaReqQ => (4, 0, 0)
          | nandReqQ c w => (5, c, w) | customCmdQ => (6, 0, 0) end)
    (λ '(k, c, w), match k with
          | 0 => freeReqQ | 1 => sliceReqQ | 2 => blockedByBufDepReqQ
          | 3 => blockedByRowAddrDepReqQ c w | 4 => nvmeDmaReqQ
          | 5 => nandReqQ c w | _ => customCmdQ end) _).
  by intros [].
Defined.

(** The request pool, the queues and their counters. *)
Record QSt := MkQSt {
  q_reqPool : gmap Z SSD_REQ_FORMAT;
  q_queues : gmap queue_id REQUEST_QUEUE;
  q_notCompletedNandReqCnt : Z;
  q_notCompletedCustomCmdCnt : Z;
  q_blockedReqCnt : Z;
}.
#[global] Instance set_q_reqPool : Field q_reqPool := λ v r,
  MkQSt v (q_queues r) (q_notCompletedNandReqCnt r) (q_notCompletedCustomCmdCnt r) (q_blockedReqCnt r).
#[global] Instance set_q_queues : Field q_queues := λ v r,
  MkQSt (q_reqPool r) v (q_notCompletedNandReqCnt r) (q_notCompletedCustomCmdCnt r) (q_blockedReqCnt r).
#[global] Instance set_q_notCompletedNandReqCnt : Field q_notCompletedNandReqCnt := λ v r,
  MkQSt (q_reqPool r) (q_queues r) (wrap 32 v) (q_notCompletedCustomCmdCnt r) (q_blockedReqCnt r).
#[global] Instance set_q_notCompletedCustomCmdCnt : Field q_notCompletedCustomCmdCnt := λ v r,
  MkQSt (q_reqPool r) (q_queues r) (q_notCompletedNandReqCnt r) (wrap 32 v) (q_blockedReqCnt r).
#[global] Instance set_q_blockedReqCnt : Field q_blockedReqCnt := λ v r,
  MkQSt (q_reqPool r) (q_queues r) (q_notCompletedNandReqCnt r) (q_notCompletedCustomCmdCnt r) (wrap 32 v).

Definition reqPool : lval QSt (gmap Z SSD_REQ_FORMAT) := glob q_reqPool.
Definition queues : lval QSt (gmap queue_id REQUEST_QUEUE) := glob q_queues.
Definition notCompletedNandReqCnt : lval QSt Z := glob q_notCompletedNandReqCnt.
Definition notCompletedCustomCmdCnt : lval QSt Z := glob q_notCompletedCustomCmdCnt.
Definition blockedReqCnt : lval QSt Z := glob q_blockedReqCnt.

Definition req_links : links SSD_REQ_FORMAT :=
  Links _ REQ_SLOT_TAG_NONE prevReq nextReq (fset prevReq) (fset nextReq).

#[global] Instance req_links_ok : LinksOk req_links.
Proof.
  split; intros; cbn in *; try done; try reflexivity; apply wrap_small;
    unfold REQ_SLOT_TAG_NONE in *; lia.
Qed.

(** ** The operations *)

Section operations.
Context `{Config}.

(** Apply one of the list idioms to queue [q]. *)
Definition q_relink (op : gmap Z SSD_REQ_FORMAT → Z → Z → option (gmap Z SSD_REQ_FORMAT * (Z * Z)))
    (q : queue_id) : M QSt unit :=
  pool <- !reqPool ;; h <- !(queues.[q]∙headReq) ;; t <- !(queues.[q]∙tailReq) ;;
  '(pool', (h', t')) <- from_option (op pool h t) ;;
  reqPool ::= pool' ;; queues.[q]∙headReq ::= h' ;; queues.[q]∙tailReq ::= t'.

(** The part of each PutTo... function that links the slot at the tail, of each
    SelectiveGetFrom... function that unlinks the slot, and of each GetFrom...
    function that unlinks the head. *)
Definition q_put_tail (q : queue_id) (reqSlotTag : Z) : M QSt unit :=
  q_relink (λ pool h t, put_tail req_links pool h t reqSlotTag) q.
Definition q_selective_get (q : queue_id) (reqSlotTag : Z) : M QSt unit :=
  q_relink (λ pool h t, selective_get req_links pool h t reqSlotTag) q.
Definition q_pop_head (q : queue_id) : M QSt unit :=
  q_relink (λ pool h t, pop_head req_links pool h t) q.

Definition set_queue_type (reqSlotTag ty : Z) : M QSt unit :=
  reqPool.[reqSlotTag]∙reqQueueType ::= ty.

(** The slot enters queue [q]: what every PutTo... function does. *)
Definition q_link (q : queue_id) (ty reqSlotTag : Z) : M QSt unit :=
  q_put_tail q reqSlotTag ;;
  set_queue_type reqSlotTag ty ;;
  incr (queues.[q]∙reqCnt).

(** The slot leaves queue [q]: what every SelectiveGetFrom... function does. *)
Definition q_unlink (q : queue_id) (reqSlotTag : Z) : M QSt unit :=
  q_selective_get q reqSlotTag ;;
  set_queue_type reqSlotTag REQ_QUEUE_TYPE_NONE ;;
  decr (queues.[q]∙reqCnt).

(** The first slot leaves queue [q]: what every GetFrom... function does. *)
Definition q_take (q : queue_id) : M QSt Z :=
  reqSlotTag <- !(queues.[q]∙headReq) ;;
  q_pop_head q ;;
  set_queue_type reqSlotTag REQ_QUEUE_TYPE_NONE ;;
  decr (queues.[q]∙reqCnt) ;;
  ret reqSlotTag.

Definition clear_queue (q : queue_id) : M QSt unit :=
  queues.[q]∙headReq ::= REQ_SLOT_TAG_NONE ;;
  queues.[q]∙tailReq ::= REQ_SLOT_TAG_NONE ;;
  queues.[q]∙reqCnt ::= 0.

Definition InitReqPool : M QSt unit :=
  queues.[freeReqQ]∙headReq ::= 0 ;;
  queues.[freeReqQ]∙tailReq ::= AVAILABLE_OUNTSTANDING_REQ_COUNT - 1 ;;
  clear_queue sliceReqQ ;;
  clear_queue blockedByBufDepReqQ ;;
  clear_queue nvmeDmaReqQ ;;
  for_range 0 USER_CHANNELS (λ chNo,
    for_range 0 USER_WAYS (λ wayNo,
      clear_queue (blockedByRowAddrDepReqQ chNo wayNo) ;;
      clear_queue (nandReqQ chNo wayNo))) ;;
  clear_queue customCmdQ ;;
  for_range 0 AVAILABLE_OUNTSTANDING_REQ_COUNT (λ reqSlotTag,
    reqPool.[reqSlotTag]∙reqQueueType ::= REQ_QUEUE_TYPE_FREE ;;
    reqPool.[reqSlotTag]∙prevBlockingReq ::= REQ_SLOT_TAG_NONE ;;
    reqPool.[reqSlotTag]∙nextBlockingReq ::= REQ_SLOT_TAG_NONE ;;
    reqPool.[reqSlotTag]∙prevReq ::= reqSlotTag - 1 ;;
    reqPool.[reqSlotTag]∙nextReq ::= reqSlotTag + 1) ;;
  reqPool.[0]∙prevReq ::= REQ_SLOT_TAG_NONE ;;
  reqPool.[AVAILABLE_OUNTSTANDING_REQ_COUNT - 1]∙nextReq ::= REQ_SLOT_TAG_NONE ;;
  queues.[freeReqQ]∙reqCnt ::= AVAILABLE_OUNTSTANDING_REQ_COUNT ;;
  notCompletedNandReqCnt ::= 0 ;;
  blockedReqCnt ::= 0.

Definition PutToFreeReqQ (reqSlotTag : Z) : M QSt unit :=
  q_link freeReqQ REQ_QUEUE_TYPE_FREE reqSlotTag.

(** GetFromFreeReqQ after its wait for a free slot. *)
Definition TakeFromFreeReqQ : M QSt Z := q_take freeReqQ.

(** PutToSliceReqQ before it updates the statistics. *)
Definition LinkToSliceReqQ (reqSlotTag : Z) : M QSt unit :=
  q_link sliceReqQ REQ_QUEUE_TYPE_SLICE reqSlotTag.

Definition GetFromSliceReqQ : M QSt Z :=
  reqSlotTag <- !(queues.[sliceReqQ]∙headReq) ;;
  if reqSlotTag =? REQ_SLOT_TAG_NONE then ret REQ_SLOT_TAG_FAIL else
  q_take sliceReqQ.

Definition PutToBlockedByBufDepReqQ (reqSlotTag : Z) : M QSt unit :=
  q_link blockedByBufDepReqQ REQ_QUEUE_TYPE_BLOCKED_BY_BUF_DEP reqSlotTag ;;
  incr blockedReqCnt.

Definition SelectiveGetFromBlockedByBufDepReqQ (reqSlotTag : Z) : M QSt unit :=
  when (reqSlotTag =? REQ_SLOT_TAG_NONE) (fail Assert) ;;
  q_unlink blockedByBufDepReqQ reqSlotTag ;;
  decr blockedReqCnt.

Definition PutToBlockedByRowAddrDepReqQ (reqSlotTag chNo wayNo : Z) : M QSt unit :=
  q_link (blockedByRowAddrDepReqQ chNo wayNo) REQ_QUEUE_TYPE_BLOCKED_BY_ROW_ADDR_DEP reqSlotTag ;;
  incr blockedReqCnt.

Definition SelectiveGetFromBlockedByRowAddrDepReqQ (reqSlotTag chNo wayNo : Z) : M QSt unit :=
  when (reqSlotTag =? REQ_SLOT_TAG_NONE) (fail Assert) ;;
  q_unlink (blockedByRowAddrDepReqQ chNo wayNo) reqSlotTag ;;
  decr blockedReqCnt.

(** PutToNvmeDmaReqQ before it takes the time stamp. *)
Definition LinkToNvmeDmaReqQ (reqSlotTag : Z) : M QSt unit :=
  q_link nvmeDmaReqQ REQ_QUEUE_TYPE_NVME_DMA reqSlotTag.

(** SelectiveGetFromNvmeDmaReqQ before it takes the time stamp. *)
Definition UnlinkFromNvmeDmaReqQ (reqSlotTag : Z) : M QSt unit :=
  q_unlink nvmeDmaReqQ reqSlotTag.

Definition PutToNandReqQ (reqSlotTag chNo wayNo : Z) : M QSt unit :=
  q_link (nandReqQ chNo wayNo) REQ_QUEUE_TYPE_NAND reqSlotTag ;;
  incr notCompletedNandReqCnt.

(** GetFromNandReqQ before it reports the completion; the slot it took. *)
Definition TakeFromNandReqQ (chNo wayNo : Z) : M QSt Z :=
  reqSlotTag <- !(queues.[nandReqQ chNo wayNo]∙headReq) ;;
  when (reqSlotTag =? REQ_SLOT_TAG_NONE) (fail Assert) ;;
  reqSlotTag <- q_take (nandReqQ chNo wayNo) ;;
  decr notCompletedNandReqCnt ;;
  ret reqSlotTag.

(** PutToCustomCmdReqQ before it takes the time stamp. *)
Definition LinkToCustomCmdReqQ (reqSlotTag : Z) : M QSt unit :=
  q_link customCmdQ REQ_QUEUE_TYPE_CUSTOM_CMD reqSlotTag ;;
  incr notCompletedCustomCmdCnt.

(** SelectiveGetFromCustomCmdReqQ unlinks the slot, reports the completion, and
    only then updates the type and the counters. *)
Definition ForgetCustomCmdReq (reqSlotTag : Z) : M QSt unit :=
  set_queue_type reqSlotTag REQ_QUEUE_TYPE_NONE ;;
  decr (queues.[customCmdQ]∙reqCnt) ;;
  decr notCompletedCustomCmdCnt.
End operations.

(** ** The queues as mathematical lists *)

Definition q_type (q : queue_id) : Z :=
  match q with
  | freeReqQ => REQ_QUEUE_TYPE_FREE
  | sliceReqQ => REQ_QUEUE_TYPE_SLICE
  | blockedByBufDepReqQ => REQ_QUEUE_TYPE_BLOCKED_BY_BUF_DEP
  | blockedByRowAddrDepReqQ _ _ => REQ_QUEUE_TYPE_BLOCKED_BY_ROW_ADDR_DEP
  | nvmeDmaReqQ => REQ_QUEUE_TYPE_NVME_DMA
  | nandReqQ _ _ => REQ_QUEUE_TYPE_NAND
  | customCmdQ => REQ_QUEUE_TYPE_CUSTOM_CMD
  end.

(** A slot without its place in a queue. *)
Definition req_core (r : SSD_REQ_FORMAT) : SSD_REQ_FORMAT :=
  fset reqQueueType 0 (fset prevReq 0 (fset nextReq 0 r)).

Section queues.
Context `{Config}.

(** The queue variables that exist in this configuration. *)
Definition q_valid (q : queue_id) : Prop :=
  match q with
  | blockedByRowAddrDepReqQ c w | nandReqQ c w => 0 ≤ c < USER_CHANNELS ∧ 0 ≤ w < USER_WAYS
  | _ => True
  end.

#[global] Instance q_valid_dec q : Decision (q_valid q).
Proof. destruct q; apply _. Defined.

(** [QInv s Q]: the queues of [s] hold the lists [Q]. *)
Record QInv (s : QSt) (Q : queue_id → list Z) : Prop := {
  qi_pool : array AVAILABLE_OUNTSTANDING_REQ_COUNT (q_reqPool s);
  qi_valid q : is_Some (q_queues s !! q) ↔ q_valid q;
  qi_list q c : q_queues s !! q = Some c →
    dll req_links (q_reqPool s) (headReq c) (tailReq c) (Q q) ∧
    reqCnt c = Z.of_nat (length (Q q));
  qi_dead q : q_queues s !! q = None → Q q = [];
  qi_type tag r : q_reqPool s !! tag = Some r →
    (reqQueueType r = REQ_QUEUE_TYPE_NONE ∧ ∀ q, tag ∉ Q q) ∨
    (∃ q, tag ∈ Q q ∧ reqQueueType r = q_type q ∧ ∀ q', tag ∈ Q q' → q' = q);
}.

(** The slots keep everything but their place in a queue. *)
Definition same_core (s s' : QSt) : Prop :=
  req_core <$> q_reqPool s' = req_core <$> q_reqPool s.

(** The three counters besides those of the queues. *)
Definition same_counters (s s' : QSt) : Prop :=
  q_notCompletedNandReqCnt s' = q_notCompletedNandReqCnt s ∧
  q_notCompletedCustomCmdCnt s' = q_notCompletedCustomCmdCnt s ∧
  q_blockedReqCnt s' = q_blockedReqCnt s.

Lemma wp_q_relink op q c pool' h' t' (Φ : unit → QSt → Prop) s :
  q_queues s !! q = Some c →
  op (q_reqPool s) (headReq c) (tailReq c) = Some (pool', (h', t')) →
  0 ≤ h' ≤ REQ_SLOT_TAG_NONE → 0 ≤ t' ≤ REQ_SLOT_TAG_NONE →
  Φ tt (fset q_reqPool pool' (fset q_queues
          (<[q := MkREQUEST_QUEUE h' t' (reqCnt c)]> (q_queues s)) s)) →
  wp (q_relink op q) Φ s.
Proof.
  unfold REQ_SLOT_TAG_NONE. intros Hq Hop Hh Ht HΦ. unfold q_relink, reqPool, queues.
  apply wp_bind, (wp_load _ (q_reqPool s)); [done|].
  apply wp_bind, (wp_load _ (headReq c)); [by lv_simpl; rewrite Hq|].
  apply wp_bind, (wp_load _ (tailReq c)); [by lv_simpl; rewrite Hq|].
  apply wp_bind, (wp_from_option _ (pool', (h', t'))); [done|].
  apply wp_bind, (wp_store _ (q_reqPool s)); [done|].
  apply wp_bind, (wp_store _ (headReq c)); [by cbn; rewrite Hq|].
  apply (wp_store _ (tailReq c)); [by cbn; rewrite Hq; cbn; rewrite lookup_insert_eq|].
  cbn. rewrite Hq. cbn. rewrite lookup_insert_eq. cbn. rewrite insert_insert_eq.
  replace (fset tailReq t' (fset headReq h' c)) with (MkREQUEST_QUEUE h' t' (reqCnt c)); [done|].
  unfold fset, set_tailReq, set_headReq. cbn. by rewrite !wrap_small by lia.
Qed.

(** The new contents of queue [q] when slot [tag] enters or leaves it. *)
Definition moved (Q : queue_id → list Z) (q : queue_id) (tag : Z) (l' : list Z) (ty : Z) : Prop :=
  (∀ y, y ≠ tag → y ∈ l' ↔ y ∈ Q q) ∧
  ((tag ∈ l' ∧ (∀ q', tag ∉ Q q') ∧ ty = q_type q) ∨
   ((tag ∉ l') ∧ tag ∈ Q q ∧ ty = REQ_QUEUE_TYPE_NONE)).

Lemma q_type_bound q : 0 < q_type q < 16.
Proof. destruct q; vm_compute; auto. Qed.

Lemma pay_core (n n' : SSD_REQ_FORMAT) :
  pay req_links n' = pay req_links n →
  req_core n' = req_core n ∧ reqQueueType n' = reqQueueType n.
Proof. destruct n, n'. cbv. intros [=]. by subst. Qed.

Lemma pay_type ty (n n' : SSD_REQ_FORMAT) :
  pay req_links n' = pay req_links n → req_core (fset reqQueueType ty n') = req_core n.
Proof. destruct n, n'. cbv. intros [=]. by subst. Qed.

Lemma QInv_unique s Q q q' tag :
  QInv s Q → tag ∈ Q q → tag ∈ Q q' → q' = q.
Proof.
  intros HI Hq Hq'.
  destruct (q_queues s !! q) as [c|] eqn:E; [|rewrite (qi_dead s Q HI q E) in Hq; set_solver].
  destruct (qi_list s Q HI q c E) as [Hd _]. destruct (dll_lookup _ _ _ _ _ _ Hd Hq) as [r Hr].
  destruct (qi_type s Q HI tag r Hr) as [[_ Hn]|(q0 & _ & _ & Hu)]; [by destruct (Hn q)|].
  by rewrite (Hu q), (Hu q').
Qed.

Lemma QInv_lookup s Q q tag :
  QInv s Q → tag ∈ Q q →
  ∃ c r, q_queues s !! q = Some c ∧ q_reqPool s !! tag = Some r ∧ reqQueueType r = q_type q.
Proof.
  intros HI Hq.
  destruct (q_queues s !! q) as [c|] eqn:E; [|rewrite (qi_dead s Q HI q E) in Hq; set_solver].
  destruct (qi_list s Q HI q c E) as [Hd _]. destruct (dll_lookup _ _ _ _ _ _ Hd Hq) as [r Hr].
  exists c, r. destruct (qi_type s Q HI tag r Hr) as [[_ Hn]|(q0 & _ & ? & Hu)]; [by destruct (Hn q)|].
  by rewrite (Hu q).
Qed.

Lemma QInv_move s Q q c pool' h' t' l' tag r' ty D s' :
  QInv s Q → q_queues s !! q = Some c →
  dll req_links pool' h' t' l' → relinked req_links D (q_reqPool s) pool' →
  (∀ y, y ∈ D → y = tag ∨ y ∈ Q q) → pool' !! tag = Some r' → moved Q q tag l' ty →
  q_reqPool s' = <[tag := fset reqQueueType ty r']> pool' →
  q_queues s' = <[q := MkREQUEST_QUEUE h' t' (Z.of_nat (length l'))]> (q_queues s) →
  QInv s' (<[q := l']> Q) ∧ same_core s s'.
Proof.
  intros HI Hq Hd Hrel HD Hr' [Hmem Hmv] Hp' Hq'.
  assert (∀ q', q' ≠ q → tag ∉ Q q') as Hout.
  { intros q' Hne Hin. destruct Hmv as [(_ & Hn & _)|(_ & Hin' & _)]; [by destruct (Hn q')|].
    by apply Hne, (QInv_unique s Q q q' tag). }
  assert (∀ h t l, dll req_links pool' h t l → dll req_links (q_reqPool s') h t l) as Hty.
  { intros h t l (? & ? & Hl & ? & ?). split_and!; try done. rewrite Hp'.
    eapply lseg_map; [|done]. intros x n _ Hn. rewrite lookup_insert.
    case_decide; simplify_eq; eauto. }
  split; [split|].
  - rewrite Hp'. apply array_insert; [by eapply relinked_array, qi_pool|].
    eapply (array_range _ pool'); [by eapply relinked_array, qi_pool|done].
  - intros q'. rewrite Hq', lookup_insert, <- (qi_valid s Q HI q').
    case_decide; subst; [rewrite Hq|]; naive_solver.
  - intros q' c'. rewrite Hq', lookup_insert. case_decide as Hqq; intros Hc'.
    + subst q'. simplify_eq. rewrite fn_lookup_insert. split; [by apply Hty|done].
    + rewrite fn_lookup_insert_ne by done. destruct (qi_list s Q HI q' c' Hc') as [Hd' ?].
      split; [|done]. apply Hty. eapply dll_relinked; [done| |done].
      intros x Hx HxD. destruct (HD x HxD) as [->|HxQ]; [by destruct (Hout q')|].
      by apply Hqq, (QInv_unique s Q q' q x).
  - intros q'. rewrite Hq', lookup_insert. case_decide; [done|].
    rewrite fn_lookup_insert_ne by done. apply (qi_dead s Q HI).
  - intros y r. rewrite Hp', lookup_insert. case_decide as Hy; intros Hr.
    + subst y. simplify_eq. destruct Hmv as [(Hin & Hn & ->)|(Hn & Hin & ->)].
      * right. exists q. rewrite fn_lookup_insert. split_and!; [done| |].
        -- cbn. apply wrap_small. pose proof (q_type_bound q). lia.
        -- intros q' Hq''. destruct (decide (q' = q)); [done|].
           rewrite fn_lookup_insert_ne in Hq'' by done. by destruct (Hn q').
      * left. split; [done|]. intros q'. destruct (decide (q' = q)) as [->|];
          [by rewrite fn_lookup_insert|rewrite fn_lookup_insert_ne by done; by apply Hout].
    + destruct (relinked_lookup_inv _ _ _ _ _ _ Hrel Hr) as (r0 & Hr0 & [_ ->]%pay_core).
      destruct (qi_type s Q HI y r0 Hr0) as [[Ht Hn]|(q0 & Hin & Ht & Hu)]; [left|right].
      * split; [done|]. intros q'. destruct (decide (q' = q)) as [->|];
          [rewrite fn_lookup_insert; rewrite Hmem by done; done|by rewrite fn_lookup_insert_ne].
      * exists q0. split_and!; [|done|].
        -- destruct (decide (q0 = q)) as [->|];
             [rewrite fn_lookup_insert; by apply Hmem|by rewrite fn_lookup_insert_ne].
        -- intros q'. destruct (decide (q' = q)) as [->|];
             [rewrite fn_lookup_insert; rewrite Hmem by done; by apply Hu
             |rewrite fn_lookup_insert_ne by done; by apply Hu].
  - unfold same_core. rewrite Hp'. apply map_eq. intros y. rewrite !lookup_fmap, lookup_insert.
    case_decide as Hy; [subst y|].
    + destruct (relinked_lookup_inv _ _ _ _ _ _ Hrel Hr') as (r0 & -> & Hpay).
      cbn. f_equal. by apply pay_type.
    + destruct (pool' !! y) as [n'|] eqn:E.
      * destruct (relinked_lookup_inv _ _ _ _ _ _ Hrel E) as (n & -> & Hpay).
        cbn. f_equal. by apply pay_core.
      * destruct (q_reqPool s !! y) as [n|] eqn:E'; [|done].
        destruct (relinked_lookup _ _ _ _ _ _ Hrel E') as (? & ? & _). congruence.
Qed.

Lemma QInv_length s Q q :
  QInv s Q → Z.of_nat (length (Q q)) ≤ Z.max 0 AVAILABLE_OUNTSTANDING_REQ_COUNT.
Proof.
  intros HI. destruct (q_queues s !! q) as [c|] eqn:E; [|rewrite (qi_dead s Q HI q E); simpl; lia].
  destruct (qi_list s Q HI q c E) as [Hd _]. apply NoDup_length_bound; [apply Hd|].
  intros x Hx. destruct (dll_lookup _ _ _ _ _ _ Hd Hx). by eapply array_range, H0; apply qi_pool in HI.
Qed.

Context `{!ConfigOk}.

Lemma req_count_bound : 128 ≤ AVAILABLE_OUNTSTANDING_REQ_COUNT ≤ 8192.
Proof. geometry. unfold AVAILABLE_OUNTSTANDING_REQ_COUNT. lia. Qed.

(** The tail every operation shares: after the relinking, set the type of the
    slot and count. *)
Lemma wp_q_finish s Q q c pool' h' t' l' tag r' ty D d (Φ : unit → QSt → Prop) :
  QInv s Q → q_queues s !! q = Some c →
  dll req_links pool' h' t' l' → relinked req_links D (q_reqPool s) pool' →
  (∀ y, y ∈ D → y = tag ∨ y ∈ Q q) → pool' !! tag = Some r' → moved Q q tag l' ty →
  Z.of_nat (length (Q q)) + d = Z.of_nat (length l') →
  (∀ s', QInv s' (<[q := l']> Q) → same_core s s' → same_counters s s' → Φ tt s') →
  wp (set_queue_type tag ty ;; modify (queues.[q]∙reqCnt) (λ n, n + d)) Φ
    (fset q_reqPool pool' (fset q_queues
       (<[q := MkREQUEST_QUEUE h' t' (reqCnt c)]> (q_queues s)) s)).
Proof.
  intros HI Hq Hd Hrel HD Hr' Hmv Hlen HΦ. unfold set_queue_type, reqPool, queues.
  apply wp_bind, (wp_store _ (reqQueueType r')); [by cbn; rewrite Hr'|].
  cbn. rewrite Hr'. cbn.
  apply (wp_modify _ _ (reqCnt c)); [by cbn; rewrite lookup_insert_eq|].
  cbn. rewrite lookup_insert_eq. cbn. rewrite insert_insert_eq.
  destruct (qi_list s Q HI q c Hq) as [_ ->]. rewrite Hlen.
  match goal with |- Φ tt ?s' => assert (QInv s' (<[q := l']> Q) ∧ same_core s s') as [??] end;
    [|by apply HΦ].
  eapply QInv_move; try done. cbn.
  unfold fset, set_reqCnt. cbn. do 2 f_equal. apply wrap_small. split; [lia|].
  assert (Z.of_nat (length l') ≤ Z.max 0 AVAILABLE_OUNTSTANDING_REQ_COUNT).
  { apply NoDup_length_bound; [apply Hd|]. intros x Hx.
    destruct (dll_lookup _ _ _ _ _ _ Hd Hx). eapply array_range; [|done].
    eapply relinked_array, qi_pool; done. }
  pose proof req_count_bound. lia.
Qed.

Lemma wp_q_link s Q q tag r (Φ : unit → QSt → Prop) :
  QInv s Q → q_valid q → q_reqPool s !! tag = Some r → reqQueueType r = REQ_QUEUE_TYPE_NONE →
  (∀ s', QInv s' (<[q := Q q ++ [tag]]> Q) → same_core s s' → same_counters s s' → Φ tt s') →
  wp (q_link q (q_type q) tag) Φ s.
Proof.
  intros HI Hv Hr Ht HΦ. apply (qi_valid s Q HI) in Hv as [c Hc].
  destruct (qi_list s Q HI q c Hc) as [Hd _].
  destruct (qi_type s Q HI tag r Hr) as [[_ Hn]|(q0 & _ & E & _)];
    [|rewrite Ht in E; destruct q0; discriminate].
  pose proof (array_range _ _ _ _ (qi_pool s Q HI) Hr). pose proof req_count_bound.
  destruct (put_tail_spec req_links (q_reqPool s) (headReq c) (tailReq c) (Q q) tag)
    as (pool' & h' & t' & Hop & Hd' & Hrel); [done|apply Hn|cbn; unfold REQ_SLOT_TAG_NONE; lia|eauto|].
  destruct (relinked_lookup _ _ _ _ _ _ Hrel Hr) as (r' & Hr' & _).
  destruct (dll_ends req_links _ _ _ _ Hd') as [? ?].
  apply wp_bind. eapply wp_q_relink; [done|exact Hop|done..|].
  eapply (wp_q_finish s Q q c); try done.
  - set_solver.
  - split; [set_solver|]. left. set_solver.
  - rewrite length_app. simpl. lia.
Qed.

Lemma wp_q_unlink s Q q l1 tag l2 (Φ : unit → QSt → Prop) :
  QInv s Q → Q q = l1 ++ tag :: l2 →
  (∀ s', QInv s' (<[q := l1 ++ l2]> Q) → same_core s s' → same_counters s s' → Φ tt s') →
  wp (q_unlink q tag) Φ s.
Proof.
  intros HI HQ HΦ. destruct (QInv_lookup s Q q tag HI) as (c & r & Hc & Hr & Ht);
    [rewrite HQ; set_solver|].
  destruct (qi_list s Q HI q c Hc) as [Hd _]. rewrite HQ in Hd.
  destruct (dll_split _ _ _ _ _ _ _ Hd) as (_ & _ & _ & _ & _ & _ & _ & Hx1 & Hx2 & _).
  destruct (selective_get_spec _ _ _ _ _ _ _ Hd) as (pool' & h' & t' & Hop & Hd' & Hrel).
  destruct (relinked_lookup _ _ _ _ _ _ Hrel Hr) as (r' & Hr' & _).
  destruct (dll_ends req_links _ _ _ _ Hd') as [? ?].
  apply wp_bind. eapply wp_q_relink; [done|exact Hop|done..|].
  eapply (wp_q_finish s Q q c); try done.
  - rewrite HQ. set_solver.
  - split; [rewrite HQ; set_solver|]. right. rewrite HQ. set_solver.
  - rewrite HQ, !length_app. simpl. lia.
Qed.

Lemma wp_q_take s Q q tag l (Φ : Z → QSt → Prop) :
  QInv s Q → Q q = tag :: l →
  (∀ s', QInv s' (<[q := l]> Q) → same_core s s' → same_counters s s' → Φ tag s') →
  wp (q_take q) Φ s.
Proof.
  intros HI HQ HΦ. destruct (QInv_lookup s Q q tag HI) as (c & r & Hc & Hr & Ht);
    [rewrite HQ; set_solver|].
  destruct (qi_list s Q HI q c Hc) as [Hd _]. rewrite HQ in Hd.
  destruct (dll_split _ _ _ _ [] _ _ Hd) as (_ & _ & _ & _ & _ & _ & _ & _ & Hx2 & _).
  destruct (pop_head_spec _ _ _ _ _ _ Hd) as (Hh & pool' & h' & t' & Hop & Hd' & Hrel).
  destruct (relinked_lookup _ _ _ _ _ _ Hrel Hr) as (r' & Hr' & _).
  apply wp_bind, (wp_load _ tag); [by cbn; rewrite Hc; cbn; rewrite Hh|].
  destruct (dll_ends req_links _ _ _ _ Hd') as [? ?].
  apply wp_bind. eapply wp_q_relink; [done|exact Hop|done..|].
  assert (wp (set_queue_type tag REQ_QUEUE_TYPE_NONE ;; modify (queues.[q]∙reqCnt) (λ n, n + -1))
    (λ _, Φ tag) (fset q_reqPool pool' (fset q_queues
       (<[q := MkREQUEST_QUEUE h' t' (reqCnt c)]> (q_queues s)) s))) as Hw.
  { eapply (wp_q_finish s Q q c); try done.
    - rewrite HQ. set_solver.
    - split; [rewrite HQ; set_solver|]. right. rewrite HQ. set_solver.
    - rewrite HQ. simpl. lia. }
  apply wp_bind. apply wp_bind_inv in Hw. eapply wp_mono; [exact Hw|].
  intros ? ? Hk. apply wp_bind. eapply wp_mono; [exact Hk|]. by intros.
Qed.

(** ** The counters *)

(** Over all ways, the length of one of the queues of each. *)
Definition all_ways : list (Z * Z) :=
  (λ die, (Vdie2PchTranslation die, Vdie2PwayTranslation die)) <$> seqZ 0 USER_DIES.
Definition total (f : Z → Z → queue_id) (Q : queue_id → list Z) : nat :=
  sum_list_with (λ p, length (Q (f p.1 p.2))) all_ways.

Record QFull (s : QSt) (Q : queue_id → list Z) : Prop := {
  qf_inv : QInv s Q;
  qf_nand : q_notCompletedNandReqCnt s = Z.of_nat (total nandReqQ Q);
  qf_blocked : q_blockedReqCnt s =
    Z.of_nat (length (Q blockedByBufDepReqQ) + total blockedByRowAddrDepReqQ Q);
  qf_custom : q_notCompletedCustomCmdCnt s = Z.of_nat (length (Q customCmdQ));
}.

Lemma elem_of_all_ways c w :
  (c, w) ∈ all_ways ↔ 0 ≤ c < USER_CHANNELS ∧ 0 ≤ w < USER_WAYS.
Proof.
  unfold all_ways. rewrite list_elem_of_fmap. split.
  - intros (die & [= -> ->] & Hd%elem_of_seqZ). apply Vdie2P_bound. lia.
  - intros [Hc Hw]. exists (Pcw2VdieTranslation c w).
    destruct (Vdie2P_Pcw2Vdie c w Hc Hw) as [-> ->]. split; [done|].
    apply elem_of_seqZ. pose proof (Pcw2Vdie_bound c w Hc Hw). lia.
Qed.

Lemma NoDup_all_ways : NoDup all_ways.
Proof.
  apply NoDup_fmap_2_strong; [|apply NoDup_seqZ].
  intros d d' _ _ [= E1 E2]. by rewrite <- (Pcw2Vdie_Vdie2P d), <- (Pcw2Vdie_Vdie2P d'), E1, E2.
Qed.

(** A sum over distinct keys when the function changes at one of them. *)
Lemma sum_list_with_update {A} (f g : A → nat) (l : list A) (x : A) :
  NoDup l → x ∈ l → (∀ y, y ≠ x → f y = g y) →
  (sum_list_with f l + g x = sum_list_with g l + f x)%nat.
Proof.
  induction 1 as [|y l Hy Hl IH]; intros Hx Heq; [by apply elem_of_nil in Hx|]. simpl.
  apply elem_of_cons in Hx as [->|Hx].
  - assert (sum_list_with f l = sum_list_with g l) as ->; [|lia].
    clear IH Hl. induction l as [|z l IH]; [done|]. simpl. rewrite IH, Heq; set_solver.
  - assert (y ≠ x) by set_solver. rewrite (Heq y) by done. specialize (IH Hx Heq). lia.
Qed.

Lemma total_insert f Q c w l :
  (∀ c w c' w', f c w = f c' w' → c = c' ∧ w = w') → (c, w) ∈ all_ways →
  (total f (<[f c w := l]> Q) + length (Q (f c w)) = total f Q + length l)%nat.
Proof.
  intros Hf Hin. unfold total.
  pose proof (sum_list_with_update (λ p, length (<[f c w := l]> Q (f p.1 p.2)))
    (λ p, length (Q (f p.1 p.2))) all_ways (c, w) NoDup_all_ways Hin) as H1.
  cbn [fst snd] in H1. rewrite fn_lookup_insert in H1. apply H1.
  intros [c' w'] Hne. cbn. rewrite fn_lookup_insert_ne; [done|].
  intros [-> ->]%Hf. done.
Qed.

Lemma total_insert_ne f Q q l :
  (∀ c w, f c w ≠ q) → total f (<[q := l]> Q) = total f Q.
Proof.
  intros Hf. unfold total. induction all_ways as [|p ps IH]; [done|]. simpl.
  by rewrite IH, fn_lookup_insert_ne by (intros E; by apply (Hf p.1 p.2)).
Qed.

Lemma total_bound f s Q : QInv s Q → Z.of_nat (total f Q) ≤ 0x80000.
Proof.
  intros HI. pose proof USER_DIES_bound. pose proof req_count_bound. unfold total.
  assert (length all_ways = Z.to_nat USER_DIES) as Hl by (unfold all_ways; by
    rewrite length_fmap, length_seqZ).
  assert (∀ l, Z.of_nat (sum_list_with (λ p : Z * Z, length (Q (f p.1 p.2))) l) ≤
    0x2000 * Z.of_nat (length l)) as Hs; [|specialize (Hs all_ways); lia].
  induction l as [|p l IH]; [done|]. simpl. pose proof (QInv_length s Q (f p.1 p.2) HI). lia.
Qed.

(** ** The abstract queues

    One constructor per queue function; the functions that also report to the
    statistics or to the host enter with their queue part. *)
Inductive qop :=
| OpPutToFree (tag : Z)
| OpGetFromFree
| OpPutToSlice (tag : Z)
| OpGetFromSlice
| OpPutToBlockedByBufDep (tag : Z)
| OpGetFromBlockedByBufDep (tag : Z)
| OpPutToBlockedByRowAddrDep (tag chNo wayNo : Z)
| OpGetFromBlockedByRowAddrDep (tag chNo wayNo : Z)
| OpPutToNvmeDma (tag : Z)
| OpGetFromNvmeDma (tag : Z)
| OpPutToNand (tag chNo wayNo : Z)
| OpGetFromNand (chNo wayNo : Z)
| OpPutToCustomCmd (tag : Z)
| OpGetFromCustomCmd (tag : Z).

Definition exec (o : qop) : M QSt Z :=
  match o with
  | OpPutToFree tag => PutToFreeReqQ tag ;; ret 0
  | OpGetFromFree => TakeFromFreeReqQ
  | OpPutToSlice tag => LinkToSliceReqQ tag ;; ret 0
  | OpGetFromSlice => GetFromSliceReqQ
  | OpPutToBlockedByBufDep tag => PutToBlockedByBufDepReqQ tag ;; ret 0
  | OpGetFromBlockedByBufDep tag => SelectiveGetFromBlockedByBufDepReqQ tag ;; ret 0
  | OpPutToBlockedByRowAddrDep tag c w => PutToBlockedByRowAddrDepReqQ tag c w ;; ret 0
  | OpGetFromBlockedByRowAddrDep tag c w => SelectiveGetFromBlockedByRowAddrDepReqQ tag c w ;; ret 0
  | OpPutToNvmeDma tag => LinkToNvmeDmaReqQ tag ;; ret 0
  | OpGetFromNvmeDma tag => UnlinkFromNvmeDmaReqQ tag ;; ret 0
  | OpPutToNand tag c w => PutToNandReqQ tag c w ;; ret 0
  | OpGetFromNand c w => TakeFromNandReqQ c w
  | OpPutToCustomCmd tag => LinkToCustomCmdReqQ tag ;; ret 0
  | OpGetFromCustomCmd tag => q_selective_get customCmdQ tag ;; ForgetCustomCmdReq tag ;; ret 0
  end.

(** A slot that the code holds: it exists and is in no queue. *)
Definition held (Q : queue_id → list Z) (tag : Z) : Prop :=
  0 ≤ tag < AVAILABLE_OUNTSTANDING_REQ_COUNT ∧ ∀ q, tag ∉ Q q.

(** What the operations are on lists of slots. *)
Inductive enters : qop → Z → queue_id → Prop :=
| enters_free tag : enters (OpPutToFree tag) tag freeReqQ
| enters_slice tag : enters (OpPutToSlice tag) tag sliceReqQ
| enters_buf tag : enters (OpPutToBlockedByBufDep tag) tag blockedByBufDepReqQ
| enters_row tag c w : enters (OpPutToBlockedByRowAddrDep tag c w) tag (blockedByRowAddrDepReqQ c w)
| enters_dma tag : enters (OpPutToNvmeDma tag) tag nvmeDmaReqQ
| enters_nand tag c w : enters (OpPutToNand tag c w) tag (nandReqQ c w)
| enters_custom tag : enters (OpPutToCustomCmd tag) tag customCmdQ.

Inductive leaves : qop → Z → queue_id → Prop :=
| leaves_buf tag : leaves (OpGetFromBlockedByBufDep tag) tag blockedByBufDepReqQ
| leaves_row tag c w : leaves (OpGetFromBlockedByRowAddrDep tag c w) tag (blockedByRowAddrDepReqQ c w)
| leaves_dma tag : leaves (OpGetFromNvmeDma tag) tag nvmeDmaReqQ
| leaves_custom tag : leaves (OpGetFromCustomCmd tag) tag customCmdQ.

Inductive takes : qop → queue_id → Prop :=
| takes_free : takes OpGetFromFree freeReqQ
| takes_slice : takes OpGetFromSlice sliceReqQ
| takes_nand c w : takes (OpGetFromNand c w) (nandReqQ c w).

Inductive astep : qop → (queue_id → list Z) → Z → (queue_id → list Z) → Prop :=
| a_enter o tag q Q : enters o tag q → q_valid q → held Q tag → astep o Q 0 (<[q := Q q ++ [tag]]> Q)
| a_leave o tag q l1 l2 Q : leaves o tag q → Q q = l1 ++ tag :: l2 → astep o Q 0 (<[q := l1 ++ l2]> Q)
| a_take o tag q l Q : takes o q → Q q = tag :: l → astep o Q tag (<[q := l]> Q)
| a_empty Q : Q sliceReqQ = [] → astep OpGetFromSlice Q REQ_SLOT_TAG_FAIL Q.

Lemma QInv_counters s s' Q :
  q_reqPool s' = q_reqPool s → q_queues s' = q_queues s → QInv s Q → QInv s' Q.
Proof. intros E1 E2 []. by split; rewrite ?E1, ?E2. Qed.

Lemma held_lookup s Q tag :
  QInv s Q → held Q tag →
  ∃ r, q_reqPool s !! tag = Some r ∧ reqQueueType r = REQ_QUEUE_TYPE_NONE.
Proof.
  intros HI [Hr Hn]. destruct (array_lookup _ _ tag (qi_pool s Q HI) Hr) as [r E].
  exists r. split; [done|]. destruct (qi_type s Q HI tag r E) as [[? _]|(q & Hq & _)]; [done|].
  by destruct (Hn q).
Qed.

(** Which of the three counters a queue counts in. *)
Definition counts_nand (q : queue_id) : bool := match q with nandReqQ _ _ => true | _ => false end.
Definition counts_blocked (q : queue_id) : bool :=
  match q with blockedByBufDepReqQ | blockedByRowAddrDepReqQ _ _ => true | _ => false end.
Definition counts_custom (q : queue_id) : bool := match q with customCmdQ => true | _ => false end.

Lemma QFull_intro s s' Q q l :
  let δ := Z.of_nat (length l) - Z.of_nat (length (Q q)) in
  QFull s Q → q_valid q → QInv s' (<[q := l]> Q) →
  q_notCompletedNandReqCnt s' = (if counts_nand q then u32 (q_notCompletedNandReqCnt s + δ)
                                 else q_notCompletedNandReqCnt s) →
  q_blockedReqCnt s' = (if counts_blocked q then u32 (q_blockedReqCnt s + δ)
                        else q_blockedReqCnt s) →
  q_notCompletedCustomCmdCnt s' = (if counts_custom q then u32 (q_notCompletedCustomCmdCnt s + δ)
                                   else q_notCompletedCustomCmdCnt s) →
  QFull s' (<[q := l]> Q).
Proof.
  intros δ [HI Hn Hb Hc] Hv HI' Hn' Hb' Hc'. split; [done|..].
  - rewrite Hn', Hn. pose proof (total_bound nandReqQ s' _ HI').
    destruct q; cbn [counts_nand]; rewrite ?total_insert_ne by done; try done.
    pose proof (total_insert nandReqQ Q chNo wayNo l ltac:(by intros ???? [= -> ->])
      (proj2 (elem_of_all_ways _ _) Hv)).
    rewrite wrap_small; subst δ; lia.
  - rewrite Hb', Hb. pose proof (total_bound blockedByRowAddrDepReqQ s' _ HI').
    pose proof (QInv_length s' _ blockedByBufDepReqQ HI'). pose proof req_count_bound.
    destruct q; cbn [counts_blocked]; rewrite ?total_insert_ne by done;
      rewrite ?(fn_lookup_insert_ne Q) in * by done; try done.
    + rewrite fn_lookup_insert, total_insert_ne in * by done. rewrite wrap_small; subst δ; lia.
    + pose proof (total_insert blockedByRowAddrDepReqQ Q chNo wayNo l
        ltac:(by intros ???? [= -> ->]) (proj2 (elem_of_all_ways _ _) Hv)).
      rewrite wrap_small; subst δ; lia.
  - rewrite Hc', Hc. pose proof (QInv_length s' _ customCmdQ HI'). pose proof req_count_bound.
    destruct q; cbn [counts_custom]; rewrite ?(fn_lookup_insert_ne Q) by done; try done.
    rewrite fn_lookup_insert in *. rewrite wrap_small; subst δ; lia.
Qed.

(** After the list update [s1], the code's counter update [s'] completes [QFull]. *)
Lemma QFull_counted s s1 s' Q q l d :
  QFull s Q → q_valid q → QInv s1 (<[q := l]> Q) → same_counters s s1 →
  Z.of_nat (length (Q q)) + d = Z.of_nat (length l) →
  q_reqPool s' = q_reqPool s1 → q_queues s' = q_queues s1 →
  q_notCompletedNandReqCnt s' = (if counts_nand q then u32 (q_notCompletedNandReqCnt s1 + d)
                                 else q_notCompletedNandReqCnt s1) →
  q_blockedReqCnt s' = (if counts_blocked q then u32 (q_blockedReqCnt s1 + d)
                        else q_blockedReqCnt s1) →
  q_notCompletedCustomCmdCnt s' = (if counts_custom q then u32 (q_notCompletedCustomCmdCnt s1 + d)
                                   else q_notCompletedCustomCmdCnt s1) →
  QFull s' (<[q := l]> Q).
Proof.
  intros HF Hv HI (E1 & E2 & E3) Hd Hp Hq Hn Hb Hc.
  replace d with (Z.of_nat (length l) - Z.of_nat (length (Q q))) in * by lia.
  rewrite E1, E2, E3 in *. eapply QFull_intro; try done. by eapply QInv_counters.
Qed.

Lemma same_core_counters s s1 s' :
  q_reqPool s' = q_reqPool s1 → same_core s s1 → same_core s s'.
Proof. unfold same_core. by intros ->. Qed.

Lemma exec_enters o tag q s Q :
  enters o tag q → QFull s Q → q_valid q → held Q tag →
  wp (exec o) (λ r s', r = 0 ∧ QFull s' (<[q := Q q ++ [tag]]> Q) ∧ same_core s s') s.
Proof.
  intros Ho HF Hv Hh. destruct (held_lookup s Q tag (qf_inv _ _ HF) Hh) as (r & Hr & Ht).
  assert (Z.of_nat (length (Q q)) + 1 = Z.of_nat (length (Q q ++ [tag]))) as Hlen
    by (rewrite length_app; simpl; lia).
  destruct Ho; cbn [exec]; apply wp_bind;
    first [refine (wp_q_link s Q _ tag r _ (qf_inv _ _ HF) Hv Hr Ht _)
          |apply wp_bind; refine (wp_q_link s Q _ tag r _ (qf_inv _ _ HF) Hv Hr Ht _)];
    intros s1 HI Hcore Hcnt; (split; [done|]);
    (split; [by eapply (QFull_counted s s1)|by eapply same_core_counters]).
Qed.

Lemma exec_leaves o tag q s Q l1 l2 :
  leaves o tag q → QFull s Q → Q q = l1 ++ tag :: l2 →
  wp (exec o) (λ r s', r = 0 ∧ QFull s' (<[q := l1 ++ l2]> Q) ∧ same_core s s') s.
Proof.
  intros Ho HF HQ. destruct (QInv_lookup s Q q tag (qf_inv _ _ HF)) as (c & r & Hc & Hr & Ht);
    [rewrite HQ; set_solver|].
  assert (q_valid q) as Hv by (apply (qi_valid s Q (qf_inv _ _ HF)); eauto).
  pose proof (array_range _ _ _ _ (qi_pool s Q (qf_inv _ _ HF)) Hr). pose proof req_count_bound.
  assert (Z.of_nat (length (Q q)) + -1 = Z.of_nat (length (l1 ++ l2))) as Hlen
    by (rewrite HQ, !length_app; simpl; lia).
  assert ((tag =? REQ_SLOT_TAG_NONE) = false) as Hne by (apply Z.eqb_neq; unfold REQ_SLOT_TAG_NONE; lia).
  destruct Ho; cbn [exec].
  - unfold SelectiveGetFromBlockedByBufDepReqQ. rewrite Hne. apply wp_bind.
    apply wp_bind, wp_ret, wp_bind. eapply wp_q_unlink; [apply HF|done|].
    intros s1 HI Hcore Hcnt. split; [done|].
    split; [by eapply (QFull_counted s s1)|by eapply same_core_counters].
  - unfold SelectiveGetFromBlockedByRowAddrDepReqQ. rewrite Hne. apply wp_bind.
    apply wp_bind, wp_ret, wp_bind. eapply wp_q_unlink; [apply HF|done|].
    intros s1 HI Hcore Hcnt. split; [done|].
    split; [by eapply (QFull_counted s s1)|by eapply same_core_counters].
  - apply wp_bind. eapply wp_q_unlink; [apply HF|done|].
    intros s1 HI Hcore Hcnt. split; [done|].
    split; [by eapply (QFull_counted s s1)|by eapply same_core_counters].
  - assert (wp (q_unlink customCmdQ tag) (λ _ s1, QInv s1 (<[customCmdQ:=l1 ++ l2]> Q) ∧
      same_core s s1 ∧ same_counters s s1) s) as Hw by (by eapply wp_q_unlink; [apply HF|..]).
    apply wp_bind_inv in Hw. apply wp_bind. eapply wp_mono; [exact Hw|]. clear Hw.
    intros ? s0 Hw. apply wp_bind, wp_bind. apply wp_bind_inv in Hw. eapply wp_mono; [exact Hw|].
    clear Hw. intros ? s2 Hw. apply wp_bind. eapply wp_mono; [exact Hw|].
    intros ? s1 (HI & Hcore & Hcnt). split; [done|].
    split; [by eapply (QFull_counted s s1)|by eapply same_core_counters].
Qed.

Lemma exec_takes o q s Q tag l :
  takes o q → QFull s Q → Q q = tag :: l →
  wp (exec o) (λ r s', r = tag ∧ QFull s' (<[q := l]> Q) ∧ same_core s s') s.
Proof.
  intros Ho HF HQ. destruct (QInv_lookup s Q q tag (qf_inv _ _ HF)) as (c & r & Hc & Hr & Ht);
    [rewrite HQ; set_solver|].
  assert (q_valid q) as Hv by (apply (qi_valid s Q (qf_inv _ _ HF)); eauto).
  pose proof (array_range _ _ _ _ (qi_pool s Q (qf_inv _ _ HF)) Hr). pose proof req_count_bound.
  assert (Z.of_nat (length (Q q)) + -1 = Z.of_nat (length l)) as Hlen by (rewrite HQ; simpl; lia).
  assert (peek (queues.[q]∙headReq) s = Some tag) as Hhd.
  { cbn. rewrite Hc. cbn. destruct (qi_list s Q (qf_inv _ _ HF) q c Hc) as [(-> & _) _].
    by rewrite HQ. }
  assert ((tag =? REQ_SLOT_TAG_NONE) = false) as Hne by (apply Z.eqb_neq; unfold REQ_SLOT_TAG_NONE; lia).
  destruct Ho; cbn [exec].
  - eapply wp_q_take; [apply HF|done|]. intros s1 HI Hcore Hcnt. split; [done|].
    split; [by eapply (QFull_counted s s1)|done].
  - apply wp_bind, (wp_load _ tag); [done|]. rewrite Hne.
    eapply wp_q_take; [apply HF|done|]. intros s1 HI Hcore Hcnt. split; [done|].
    split; [by eapply (QFull_counted s s1)|done].
  - apply wp_bind, (wp_load _ tag); [done|]. rewrite Hne. apply wp_bind, wp_ret, wp_bind.
    eapply wp_q_take; [apply HF|done|]. intros s1 HI Hcore Hcnt. split; [done|].
    split; [by eapply (QFull_counted s s1)|by eapply same_core_counters].
Qed.

Lemma exec_refines o s Q r Q' :
  QFull s Q → astep o Q r Q' →
  wp (exec o) (λ r' s', r' = r ∧ QFull s' Q' ∧ same_core s s') s.
Proof.
  intros HF Ha. revert HF. destruct Ha as [o' tag q Q0 Ho Hv Hh|o' tag q l1 l2 Q0 Ho HQ|o' tag q l Q0 Ho HQ|Q0 HQ]; intros HF.
  - by apply exec_enters.
  - eapply exec_leaves; eassumption.
  - eapply exec_takes; eassumption.
  - assert (is_Some (q_queues s !! sliceReqQ)) as [c Hc] by by apply (qi_valid s _ (qf_inv _ _ HF)).
    apply wp_bind, (wp_load _ REQ_SLOT_TAG_NONE); [|by apply wp_ret].
    cbn. rewrite Hc. cbn. destruct (qi_list s _ (qf_inv _ _ HF) sliceReqQ c Hc) as [(-> & _) _].
    by rewrite HQ.
Qed.

(** ** Initialisation *)

(** The memory the queues live in, before InitReqPool: any contents. *)
Record QShape (s : QSt) : Prop := {
  qs_pool : array AVAILABLE_OUNTSTANDING_REQ_COUNT (q_reqPool s);
  qs_valid q : is_Some (q_queues s !! q) ↔ q_valid q;
}.

Definition empty_queue : REQUEST_QUEUE := MkREQUEST_QUEUE REQ_SLOT_TAG_NONE REQ_SLOT_TAG_NONE 0.

Lemma wp_clear_queue q c (Φ : unit → QSt → Prop) s :
  q_queues s !! q = Some c →
  Φ tt (fset q_queues (<[q := empty_queue]> (q_queues s)) s) → wp (clear_queue q) Φ s.
Proof.
  intros Hq HΦ. unfold clear_queue, queues.
  apply wp_bind, (wp_store _ (headReq c)); [by cbn; rewrite Hq|].
  cbn. rewrite Hq. cbn.
  apply wp_bind, (wp_store _ (tailReq c)); [by cbn; rewrite lookup_insert_eq|].
  cbn. rewrite lookup_insert_eq. cbn. rewrite insert_insert_eq.
  apply (wp_store _ (reqCnt c)); [by cbn; rewrite lookup_insert_eq|].
  cbn. rewrite lookup_insert_eq. cbn. rewrite insert_insert_eq. exact HΦ.
Qed.

(** Clearing queues touches nothing but the cleared queues. *)
Definition cleared (C : queue_id → Prop) (s0 s : QSt) : Prop :=
  q_reqPool s = q_reqPool s0 ∧ same_counters s0 s ∧
  (∀ q, C q → q_valid q → q_queues s !! q = Some empty_queue) ∧
  (∀ q, ¬ (C q ∧ q_valid q) → q_queues s !! q = q_queues s0 !! q).

Lemma cleared_valid C s0 s q :
  QShape s0 → (∀ q, Decision (C q)) → cleared C s0 s → q_valid q → is_Some (q_queues s !! q).
Proof.
  intros HS ? (_ & _ & Hc & Hn) Hv. destruct (decide (C q)) as [HC|HC]; [rewrite Hc by done; eauto|].
  rewrite Hn by tauto. by apply (qs_valid s0 HS).
Qed.

Lemma wp_clear_cleared C C' q s0 s (Φ : unit → QSt → Prop) :
  QShape s0 → (∀ q, Decision (C q)) → q_valid q → cleared C s0 s →
  (∀ q', C' q' ↔ C q' ∨ q' = q) → (∀ s', cleared C' s0 s' → Φ tt s') →
  wp (clear_queue q) Φ s.
Proof.
  intros HS HD Hv HC HC' HΦ. destruct (cleared_valid C s0 s q HS HD HC Hv) as [c Hq].
  eapply wp_clear_queue; [done|]. apply HΦ. destruct HC as (Hp & Hcnt & Hc & Hn).
  split_and!; [done|apply Hcnt..| |].
  - intros q' Hq' Hv'. cbn. rewrite lookup_insert. case_decide; [done|].
    apply Hc; [|done]. naive_solver.
  - intros q' Hq'. cbn. rewrite lookup_insert_ne by (intros <-; apply Hq'; naive_solver).
    apply Hn. naive_solver.
Qed.

Lemma cleared_weaken C C' s0 s :
  (∀ q, q_valid q → C' q → C q) → (∀ q, C q → C' q) → cleared C s0 s → cleared C' s0 s.
Proof. intros H1 H2 (? & ? & Hc & Hn). split_and!; try done; naive_solver. Qed.

(** The queues cleared before way [w] of channel [c] in the nested loop. *)
Definition before_way (c w : Z) (q : queue_id) : bool :=
  match q with
  | sliceReqQ | blockedByBufDepReqQ | nvmeDmaReqQ => true
  | blockedByRowAddrDepReqQ c' w' | nandReqQ c' w' => (c' <? c) || ((c' =? c) && (w' <? w))
  | freeReqQ | customCmdQ => false
  end.

Lemma before_way_last c q : q_valid q → before_way (c + 1) 0 q → before_way c USER_WAYS q.
Proof. destruct q; cbn; try done; rewrite !Is_true_true; lia. Qed.
Lemma before_way_next c q : before_way c USER_WAYS q → before_way (c + 1) 0 q.
Proof. destruct q; cbn; try done; rewrite !Is_true_true; lia. Qed.

Lemma before_way_step c w q :
  before_way c (w + 1) q ↔
  (before_way c w q ∨ q = blockedByRowAddrDepReqQ c w) ∨ q = nandReqQ c w.
Proof.
  destruct q as [| | |c' w'| |c' w'|]; cbn; rewrite ?Is_true_true;
    try (split; [tauto|by intros [[|]|]]).
  - split; [|intros [[?|[= -> ->]]|[=]]; lia]. intros. left.
    destruct (decide (c' = c ∧ w' = w)) as [[-> ->]|]; [by right|left; lia].
  - split; [|intros [[?|[=]]|[= -> ->]]; lia]. intros.
    destruct (decide (c' = c ∧ w' = w)) as [[-> ->]|]; [by right|left; left; lia].
Qed.

Lemma wp_clear_ways s0 s (Φ : unit → QSt → Prop) :
  QShape s0 → cleared (before_way 0 0) s0 s →
  (∀ s', cleared (before_way USER_CHANNELS 0) s0 s' → Φ tt s') →
  wp (for_range 0 USER_CHANNELS (λ chNo, for_range 0 USER_WAYS (λ wayNo,
        clear_queue (blockedByRowAddrDepReqQ chNo wayNo) ;; clear_queue (nandReqQ chNo wayNo)))) Φ s.
Proof.
  intros HS HC HΦ. geometry.
  apply (wp_mono _ (λ _, cleared (before_way USER_CHANNELS 0) s0)); [|intros [] s'; apply HΦ].
  apply (wp_for_range (λ c, cleared (before_way c 0) s0)); [lia|done|].
  intros c s1 Hc Hs1. eapply wp_mono.
  { apply (wp_for_range (λ w, cleared (before_way c w) s0)); [lia|done|].
    intros w s2 Hw Hs2. apply wp_bind.
    eapply (wp_clear_cleared (before_way c w) (λ q, before_way c w q ∨ q = blockedByRowAddrDepReqQ c w));
      [done|intros; apply _|done|done|done|]. intros s3 Hs3.
    eapply (wp_clear_cleared (λ q, before_way c w q ∨ q = blockedByRowAddrDepReqQ c w)
      (before_way c (w + 1))); [done|intros; apply _|done|exact Hs3| |intros s4 Hs4; exact Hs4].
    intros q. apply before_way_step. }
  intros ? s2 Hs2. eapply cleared_weaken; [|apply before_way_next|exact Hs2].
  intros q. apply before_way_last.
Qed.

Lemma wp_pool_store {T} (f : SSD_REQ_FORMAT → T) `{!Field f} i r v (Φ : unit → QSt → Prop) s :
  q_reqPool s !! i = Some r →
  Φ tt (fset q_reqPool (<[i := fset f v r]> (q_reqPool s)) s) →
  wp (reqPool.[i]∙f ::= v) Φ s.
Proof.
  intros Hr HΦ. apply (wp_store _ (f r)); [by cbn; rewrite Hr|]. cbn. by rewrite Hr.
Qed.

(** The slots initialised before slot [i]. *)
Definition slots_before (i : Z) (s0 s : QSt) : Prop :=
  q_queues s = q_queues s0 ∧ same_counters s0 s ∧
  array AVAILABLE_OUNTSTANDING_REQ_COUNT (q_reqPool s) ∧
  ∀ j, 0 ≤ j < i → ∃ r, q_reqPool s !! j = Some r ∧ reqQueueType r = REQ_QUEUE_TYPE_FREE ∧
    prevReq r = u16 (j - 1) ∧ nextReq r = u16 (j + 1).

Lemma wp_init_slots s0 s (Φ : unit → QSt → Prop) :
  slots_before 0 s0 s →
  (∀ s', slots_before AVAILABLE_OUNTSTANDING_REQ_COUNT s0 s' → Φ tt s') →
  wp (for_range 0 AVAILABLE_OUNTSTANDING_REQ_COUNT (λ reqSlotTag,
    reqPool.[reqSlotTag]∙reqQueueType ::= REQ_QUEUE_TYPE_FREE ;;
    reqPool.[reqSlotTag]∙prevBlockingReq ::= REQ_SLOT_TAG_NONE ;;
    reqPool.[reqSlotTag]∙nextBlockingReq ::= REQ_SLOT_TAG_NONE ;;
    reqPool.[reqSlotTag]∙prevReq ::= reqSlotTag - 1 ;;
    reqPool.[reqSlotTag]∙nextReq ::= reqSlotTag + 1)) Φ s.
Proof.
  intros HS HΦ. pose proof req_count_bound.
  apply (wp_mono _ (λ _, slots_before AVAILABLE_OUNTSTANDING_REQ_COUNT s0));
    [|intros [] s'; apply HΦ].
  apply (wp_for_range (λ i, slots_before i s0)); [lia|done|].
  intros i s1 Hi (Hq & Hcnt & Ha & Hs). destruct (array_lookup _ _ i Ha Hi) as [r Hr].
  apply wp_bind; eapply wp_pool_store; [done|].
  do 3 (apply wp_bind; eapply wp_pool_store; [apply lookup_insert_eq|]).
  eapply wp_pool_store; [apply lookup_insert_eq|]. cbn. rewrite !insert_insert_eq.
  split_and!; [done|apply Hcnt..|by apply array_insert|].
  intros j Hj. cbn. rewrite lookup_insert. case_decide as E.
  - subst j. eexists. split; [done|]. split; [reflexivity|]. split; reflexivity.
  - apply Hs. lia.
Qed.

Definition initial_queues (q : queue_id) : list Z :=
  match q with freeReqQ => seqZ 0 AVAILABLE_OUNTSTANDING_REQ_COUNT | _ => [] end.

Lemma wp_clear_all s0 (k : M QSt unit) (Φ : unit → QSt → Prop) :
  QShape s0 →
  (∀ s', cleared (λ q, q ≠ freeReqQ) s0 s' → wp k Φ s') →
  wp (clear_queue sliceReqQ ;; clear_queue blockedByBufDepReqQ ;; clear_queue nvmeDmaReqQ ;;
      for_range 0 USER_CHANNELS (λ chNo, for_range 0 USER_WAYS (λ wayNo,
        clear_queue (blockedByRowAddrDepReqQ chNo wayNo) ;; clear_queue (nandReqQ chNo wayNo))) ;;
      clear_queue customCmdQ ;; k) Φ s0.
Proof.
  intros HS HΦ. geometry.
  apply wp_bind, (wp_clear_cleared (λ _, False) (λ q, q = sliceReqQ) _ s0);
    [done|intros; apply _|done|done|intros; tauto|intros s1 H1'].
  apply wp_bind, (wp_clear_cleared (λ q, q = sliceReqQ)
    (λ q, q = sliceReqQ ∨ q = blockedByBufDepReqQ) _ s0);
    [done|intros; apply _|done|done|intros; tauto|intros s2 H2'].
  apply wp_bind, (wp_clear_cleared (λ q, q = sliceReqQ ∨ q = blockedByBufDepReqQ)
    (λ q, (q = sliceReqQ ∨ q = blockedByBufDepReqQ) ∨ q = nvmeDmaReqQ) _ s0);
    [done|intros; apply _|done|done|intros; tauto|intros s3 H3'].
  apply wp_bind, (wp_clear_ways s0); [done| |intros s4 H4'].
  { eapply cleared_weaken; [| |exact H3'].
    - intros []; cbn; rewrite ?Is_true_true; intros; try lia; auto.
    - by intros ? [[-> | ->]| ->]. }
  apply wp_bind, (wp_clear_cleared (before_way USER_CHANNELS 0)
    (λ q, before_way USER_CHANNELS 0 q ∨ q = customCmdQ) _ s0);
    [done|intros; apply _|done|done|intros; tauto|intros s5 H5'].
  apply HΦ. eapply cleared_weaken; [| |exact H5'].
  - intros []; cbn; rewrite ?Is_true_true; intros; auto; try done; left; lia.
  - intros q [Hq| ->]; [|done]. by intros ->.
Qed.

(** The queues of a state whose slots are all free, in order. *)
Lemma all_free_QInv s :
  array AVAILABLE_OUNTSTANDING_REQ_COUNT (q_reqPool s) →
  (∀ q, is_Some (q_queues s !! q) ↔ q_valid q) →
  (∀ q, q ≠ freeReqQ → q_valid q → q_queues s !! q = Some empty_queue) →
  q_queues s !! freeReqQ = Some (MkREQUEST_QUEUE 0 (AVAILABLE_OUNTSTANDING_REQ_COUNT - 1)
    AVAILABLE_OUNTSTANDING_REQ_COUNT) →
  (∀ j, 0 ≤ j < AVAILABLE_OUNTSTANDING_REQ_COUNT → ∃ r, q_reqPool s !! j = Some r ∧
     reqQueueType r = REQ_QUEUE_TYPE_FREE ∧
     prevReq r = (if j =? 0 then REQ_SLOT_TAG_NONE else j - 1) ∧
     nextReq r = (if j =? AVAILABLE_OUNTSTANDING_REQ_COUNT - 1 then REQ_SLOT_TAG_NONE else j + 1)) →
  QInv s initial_queues.
Proof.
  pose proof req_count_bound as HN. set (N := AVAILABLE_OUNTSTANDING_REQ_COUNT) in *.
  intros Ha Hv Hne Hfree Hj. split; [done|done|..].
  - intros q c Hc. destruct (decide (q = freeReqQ)) as [->|Hq].
    + rewrite Hfree in Hc. simplify_eq. cbn. rewrite length_seqZ. split; [|lia].
      apply (dll_seqZ req_links); [cbn; unfold REQ_SLOT_TAG_NONE; lia|].
      intros j Hjr. destruct (Hj j Hjr) as (r & ? & _ & ? & ?). eauto.
    + assert (q_valid q) as Hvq by (apply Hv; eauto). rewrite (Hne q Hq Hvq) in Hc. simplify_eq.
      destruct q; try done; split; try done; apply (dll_nil req_links).
  - intros q Hq. destruct q; try done. congruence.
  - intros tag r Hr. pose proof (array_range _ _ _ _ Ha Hr) as Htag.
    destruct (Hj tag Htag) as (r' & Hr' & Ht & _). simplify_eq. right. exists freeReqQ.
    split_and!; [apply elem_of_seqZ; lia|done|]. intros [] Hq; try done; by apply elem_of_nil in Hq.
Qed.

Lemma total_initial f : (∀ c w, f c w ≠ freeReqQ) → total f initial_queues = 0%nat.
Proof.
  intros Hf. unfold total. induction all_ways as [|p ps IH]; [done|]. simpl. rewrite IH.
  specialize (Hf p.1 p.2). by destruct (f p.1 p.2).
Qed.

Lemma InitReqPool_spec s :
  QShape s → q_notCompletedCustomCmdCnt s = 0 →
  wp InitReqPool (λ _ s', QFull s' initial_queues) s.
Proof.
  intros HS Hcust. pose proof req_count_bound as HN. unfold InitReqPool.
  destruct (proj2 (qs_valid s HS freeReqQ) I) as [c Hc].
  apply wp_bind, (wp_store _ (headReq c)); [by cbn; rewrite Hc|]. cbn. rewrite Hc. cbn.
  apply wp_bind, (wp_store _ (tailReq c)); [by cbn; rewrite lookup_insert_eq|].
  cbn. rewrite lookup_insert_eq. cbn. rewrite insert_insert_eq.
  match goal with |- wp _ _ ?s1 => set (s0 := s1) end.
  assert (QShape s0) as HS0.
  { split; [apply HS|]. intros q. cbn. rewrite lookup_insert. case_decide; [subst; naive_solver|].
    apply (qs_valid s HS). }
  apply wp_clear_all; [done|]. intros s1 (Hp1 & (Hn1 & Hcu1 & Hb1) & Hcl & Hfr).
  assert (∀ q, ¬ q_valid q → q_queues s1 !! q = None) as Hinv.
  { intros q Hv. rewrite Hfr by tauto. apply eq_None_not_Some. by intros ?%(qs_valid s0 HS0). }
  specialize (Hfr freeReqQ ltac:(tauto)). cbn in Hfr. rewrite lookup_insert_eq in Hfr.
  apply wp_bind, (wp_init_slots s1); [by split_and!; try done; [rewrite Hp1; apply HS|lia]|].
  intros s2 (Hq2 & (Hn2 & Hcu2 & Hb2) & Ha2 & Hs2).
  destruct (Hs2 0) as (r0 & Hr0 & Ht0 & Hp0 & Hx0); [lia|].
  apply wp_bind; eapply wp_pool_store; [done|].
  destruct (Hs2 (AVAILABLE_OUNTSTANDING_REQ_COUNT - 1)) as (rn & Hrn & Htn & Hpn & Hxn); [lia|].
  apply wp_bind; eapply wp_pool_store; [cbn; by rewrite lookup_insert_ne by lia|].
  rewrite <- Hq2 in Hfr.
  apply wp_bind; eapply (wp_store _ (reqCnt c)); [by cbn; rewrite Hfr|].
  cbn. rewrite Hfr. cbn.
  split; cbn; [|by rewrite total_initial..|by rewrite Hcu2, Hcu1].
  apply all_free_QInv; cbn.
  - by repeat (apply array_insert; [|lia]).
  - intros q. rewrite lookup_insert, Hq2. case_decide; [subst; naive_solver|]. split.
    + intros [c' Hc']. apply dec_stable. intros Hv. rewrite (Hinv q Hv) in Hc'. done.
    + intros Hv. rewrite Hcl by done. eauto.
  - intros q Hq Hv. rewrite lookup_insert_ne, Hq2 by done. by apply Hcl.
  - rewrite lookup_insert_eq. unfold fset, set_reqCnt, set_tailReq, set_headReq. cbn.
    by rewrite !wrap_small by lia.
  - intros j Hj. destruct (Hs2 j Hj) as (r & Hr & Ht & Hp & Hx). rewrite !lookup_insert.
    destruct (decide (AVAILABLE_OUNTSTANDING_REQ_COUNT - 1 = j)) as [<-|];
      [|destruct (decide (0 = j)) as [<-|]]; eexists; (split; [done|]); cbn -[Z.eqb]; simplify_eq.
    + split; [done|]. rewrite Hpn, Z.eqb_refl, (proj2 (Z.eqb_neq _ 0)), wrap_small by lia. done.
    + split; [done|]. rewrite Hx0, (proj2 (Z.eqb_neq 0 (AVAILABLE_OUNTSTANDING_REQ_COUNT - 1))) by lia. done.
    + split; [done|]. rewrite Hp, Hx, !(proj2 (Z.eqb_neq _ _)), !wrap_small by lia. done.
Qed.
End queues.

(** ** Properties *)

Fixpoint run `{Config} (os : list qop) : M QSt (list Z) :=
  match os with
  | [] => ret []
  | o :: os => r <- exec o ;; rs <- run os ;; ret (r :: rs)
  end.

Inductive aruns `{Config} : list qop → (queue_id → list Z) → list Z → (queue_id → list Z) → Prop :=
| aruns_nil Q : aruns [] Q [] Q
| aruns_cons o os Q r Q1 rs Q2 : astep o Q r Q1 → aruns os Q1 rs Q2 → aruns (o :: os) Q (r :: rs) Q2.

Lemma run_refines `{ConfigOk} os s Q rs Q' :
  QFull s Q → aruns os Q rs Q' → wp (run os) (λ rs' s', rs' = rs ∧ QFull s' Q') s.
Proof.
  intros HF Ha. revert s HF. induction Ha as [Q|o os Q r Q1 rs Q2 Ho Ha IH]; intros s HF; [done|].
  cbn [run]. apply wp_bind. eapply wp_mono; [by apply (exec_refines o s Q r Q1)|].
  intros ? s1 (-> & HF1 & _). apply wp_bind. eapply wp_mono; [by apply IH|].
  intros ? s2 (-> & HF2). by apply wp_ret.
Qed.

(** C4: the linked request queues implement mathematical lists.  From any
    contents of the memory, InitReqPool and then any sequence of queue
    operations that is possible on lists of slots (a slot enters a queue when it
    is in no queue, leaves it where it stands, is taken from the head; taking
    from an empty slice queue reports failure) runs without a failed assertion
    or a bad access, returns the same slots, and ends with queues that hold the
    same lists: each slot in at most one queue, the one its reqQueueType names,
    every counter equal to the number of slots it counts. *)
Theorem request_queues_refine_lists `{ConfigOk} s os rs Q :
  QShape s → q_notCompletedCustomCmdCnt s = 0 → aruns os initial_queues rs Q →
  wp (InitReqPool ;; run os) (λ rs' s', rs' = rs ∧ QFull s' Q) s.
Proof.
  intros HS Hc Ha. apply wp_bind. eapply wp_mono; [by apply InitReqPool_spec|].
  intros ? s1 HF. by apply (run_refines os s1 initial_queues).
Qed.

Definition tiny_QSt : QSt :=
  MkQSt (mk_array 128 (λ _, zero_req))
    (list_to_map ((λ q, (q, zero_queue)) <$>
       [freeReqQ; sliceReqQ; blockedByBufDepReqQ; blockedByRowAddrDepReqQ 0 0; nvmeDmaReqQ;
        nandReqQ 0 0; customCmdQ])) 0 0 0.

Lemma tiny_QShape : @QShape tiny_config tiny_QSt.
Proof.
  split; [apply (array_mk_array 128)|]. intros q. split.
  - intros [c Hc]. apply elem_of_list_to_map_2 in Hc. cbn in Hc. set_unfold.
    repeat (destruct Hc as [Hc|Hc]; [injection Hc as -> _; vm_compute; intuition congruence|]). done.
  - destruct q as [| | |c w| |c w|]; cbn [q_valid]; intros Hv; try (eexists; vm_compute; reflexivity).
    all: change (0 ≤ c < 1 ∧ 0 ≤ w < 1) in Hv; assert (c = 0) as -> by lia; assert (w = 0) as -> by lia;
      eexists; vm_compute; reflexivity.
Qed.

Lemma request_queues_refine_lists_witness :
  let _ := tiny_config in
  wp (InitReqPool ;; run [OpGetFromFree; OpPutToNand 0 0 0; OpGetFromSlice; OpGetFromNand 0 0])
    (λ rs s', rs = [0; 0; REQ_SLOT_TAG_FAIL; 0] ∧ q_notCompletedNandReqCnt s' = 0) tiny_QSt.
Proof.
  intros C. eapply wp_mono.
  - eapply (@request_queues_refine_lists tiny_config tiny_config_ok); [apply tiny_QShape|done|].
    eapply aruns_cons; [eapply (a_take _ 0 freeReqQ (seqZ 1 127)); [constructor|vm_compute; reflexivity]|].
    eapply aruns_cons; [eapply (a_enter _ 0 (nandReqQ 0 0)); [constructor|vm_compute; intuition congruence|]|].
    { split; [vm_compute; intuition congruence|]. intros []; cbv [fn_insert insert]; cbn -[seqZ];
        try (by intros ?%elem_of_nil). intros ?%elem_of_seqZ. lia. }
    eapply aruns_cons; [apply a_empty; reflexivity|].
    eapply aruns_cons; [eapply (a_take _ 0 (nandReqQ 0 0) []); [constructor|vm_compute; reflexivity]|].
    apply aruns_nil.
  - intros rs s' [-> HF]. split; [done|]. rewrite (qf_nand _ _ HF). vm_compute. reflexivity.
Defined.
