(* ===== verification/DataBuffer.v ===== *)
(** The data buffer (data_buffer.c) and the buffer of the custom commands, the
    R-Buf (data_buffer_ccmd.c).

    Both are the same code over different variables and a different number of
    entries, so this file models the buffer once, for [N] entries, and
    instantiates it twice.  A buffer is a set of entries, each caching one
    logical slice, in an LRU list, with a hash table from slice addresses to
    entries.  [BInv] is the invariant; the operations are shown to be those of
    an LRU cache. *)
From stdpp Require Import functions.
From S2P Require Import Prelude Dll Config ReqFormat.

Record DATA_BUF_ENTRY := MkDATA_BUF_ENTRY {
  bufLogicalSliceAddr : Z;
  prevEntry : Z;  (** 16 bits *)
  nextEntry : Z;  (** 16 bits *)
  blockingReqTail : Z;  (** 16 bits *)
  hashPrevEntry : Z;  (** 16 bits *)
  hashNextEntry : Z;  (** 16 bits *)
  dirty : Z;  (** 1 bits *)
}.
#[global] Instance set_bufLogicalSliceAddr : Field bufLogicalSliceAddr := λ v r,
  MkDATA_BUF_ENTRY (wrap 32 v) (prevEntry r) (nextEntry r) (blockingReqTail r) (hashPrevEntry r) (hashNextEntry r) (dirty r).
#[global] Instance set_prevEntry : Field prevEntry := λ v r,
  MkDATA_BUF_ENTRY (bufLogicalSliceAddr r) (wrap 16 v) (nextEntry r) (blockingReqTail r) (hashPrevEntry r) (hashNextEntry r) (dirty r).
#[global] Instance set_nextEntry : Field nextEntry := λ v r,
  MkDATA_BUF_ENTRY (bufLogicalSliceAddr r) (prevEntry r) (wrap 16 v) (blockingReqTail r) (hashPrevEntry r) (hashNextEntry r) (dirty r).
#[global] Instance set_blockingReqTail : Field blockingReqTail := λ v r,
  MkDATA_BUF_ENTRY (bufLogicalSliceAddr r) (prevEntry r) (nextEntry r) (wrap 16 v) (hashPrevEntry r) (hashNextEntry r) (dirty r).
#[global] Instance set_hashPrevEntry : Field hashPrevEntry := λ v r,
  MkDATA_BUF_ENTRY (bufLogicalSliceAddr r) (prevEntry r) (nextEntry r) (blockingReqTail r) (wrap 16 v) (hashNextEntry r) (dirty r).
#[global] Instance set_hashNextEntry : Field hashNextEntry := λ v r,
  MkDATA_BUF_ENTRY (bufLogicalSliceAddr r) (prevEntry r) (nextEntry r) (blockingReqTail r) (hashPrevEntry r) (wrap 16 v) (dirty r).
#[global] Instance set_dirty : Field dirty := λ v r,
  MkDATA_BUF_ENTRY (bufLogicalSliceAddr r) (prevEntry r) (nextEntry r) (blockingReqTail r) (hashPrevEntry r) (hashNextEntry r) (wrap 1 v).

(** DATA_BUF_LRU_LIST and DATA_BUF_HASH_ENTRY *)
Record DATA_BUF_LIST := MkDATA_BUF_LIST {
  headEntry : Z;  (** 16 bits *)
  tailEntry : Z;  (** 16 bits *)
}.
#[global] Instance set_headEntry : Field headEntry := λ v r,
  MkDATA_BUF_LIST (wrap 16 v) (tailEntry r).
#[global] Instance set_tailEntry : Field tailEntry := λ v r,
  MkDATA_BUF_LIST (headEntry r) (wrap 16 v).

(** The variables of one buffer. *)
Record BSt := MkBSt {
  b_dataBuf : gmap Z DATA_BUF_ENTRY;
  b_lru : DATA_BUF_LIST;
  b_hash : gmap Z DATA_BUF_LIST;
}.
#[global] Instance set_b_dataBuf : Field b_dataBuf := λ v r,
  MkBSt v (b_lru r) (b_hash r).
#[global] Instance set_b_lru : Field b_lru := λ v r,
  MkBSt (b_dataBuf r) v (b_hash r).
#[global] Instance set_b_hash : Field b_hash := λ v r,
  MkBSt (b_dataBuf r) (b_lru r) v.

Definition dataBuf : lval BSt (gmap Z DATA_BUF_ENTRY) := glob b_dataBuf.
Definition dataBufLruList : lval BSt DATA_BUF_LIST := glob b_lru.
Definition dataBufHash : lval BSt (gmap Z DATA_BUF_LIST) := glob b_hash.

Definition lru_links : links DATA_BUF_ENTRY :=
  Links _ DATA_BUF_NONE prevEntry nextEntry (fset prevEntry) (fset nextEntry).
Definition hash_links : links DATA_BUF_ENTRY :=
  Links _ DATA_BUF_NONE hashPrevEntry hashNextEntry (fset hashPrevEntry) (fset hashNextEntry).

#[global] Instance lru_links_ok : LinksOk lru_links.
Proof.
  split; intros; cbn in *; try done; try reflexivity; apply wrap_small;
    unfold DATA_BUF_NONE in *; lia.
Qed.
#[global] Instance hash_links_ok : LinksOk hash_links.
Proof.
  split; intros; cbn in *; try done; try reflexivity; apply wrap_small;
    unfold DATA_BUF_NONE in *; lia.
Qed.

(** ** The operations, for a buffer of [N] entries *)

Section operations.
Context (N : Z).

Definition FindHashTableEntry (logicalSliceAddr : Z) : Z := logicalSliceAddr mod N.

(** Apply a list idiom to the LRU list, or to a hash chain. *)
Definition lru_relink
    (op : gmap Z DATA_BUF_ENTRY → Z → Z → option (gmap Z DATA_BUF_ENTRY * (Z * Z))) : M BSt unit :=
  ents <- !dataBuf ;; h <- !(dataBufLruList∙headEntry) ;; t <- !(dataBufLruList∙tailEntry) ;;
  '(ents', (h', t')) <- from_option (op ents h t) ;;
  dataBuf ::= ents' ;; dataBufLruList∙headEntry ::= h' ;; dataBufLruList∙tailEntry ::= t'.
Definition hash_relink (hashEntry : Z)
    (op : gmap Z DATA_BUF_ENTRY → Z → Z → option (gmap Z DATA_BUF_ENTRY * (Z * Z))) : M BSt unit :=
  ents <- !dataBuf ;; h <- !(dataBufHash.[hashEntry]∙headEntry) ;;
  t <- !(dataBufHash.[hashEntry]∙tailEntry) ;;
  '(ents', (h', t')) <- from_option (op ents h t) ;;
  dataBuf ::= ents' ;; dataBufHash.[hashEntry]∙headEntry ::= h' ;;
  dataBufHash.[hashEntry]∙tailEntry ::= t'.

Definition InitBuf : M BSt unit :=
  for_range 0 N (λ bufEntry,
    dataBuf.[bufEntry]∙bufLogicalSliceAddr ::= LSA_NONE ;;
    dataBuf.[bufEntry]∙prevEntry ::= bufEntry - 1 ;;
    dataBuf.[bufEntry]∙nextEntry ::= bufEntry + 1 ;;
    dataBuf.[bufEntry]∙dirty ::= DATA_BUF_CLEAN ;;
    dataBuf.[bufEntry]∙blockingReqTail ::= REQ_SLOT_TAG_NONE ;;
    dataBufHash.[bufEntry]∙headEntry ::= DATA_BUF_NONE ;;
    dataBufHash.[bufEntry]∙tailEntry ::= DATA_BUF_NONE ;;
    dataBuf.[bufEntry]∙hashPrevEntry ::= DATA_BUF_NONE ;;
    dataBuf.[bufEntry]∙hashNextEntry ::= DATA_BUF_NONE) ;;
  dataBuf.[0]∙prevEntry ::= DATA_BUF_NONE ;;
  dataBuf.[N - 1]∙nextEntry ::= DATA_BUF_NONE ;;
  dataBufLruList∙headEntry ::= 0 ;;
  dataBufLruList∙tailEntry ::= N - 1.

(** The body of the search loop of CheckDataBufHit: stop at the end of the chain
    or at the entry that caches the slice, which moves to the front of the LRU
    list. *)
Definition CheckHit_step (logicalSliceAddr bufEntry : Z) : M BSt (Z + Z) :=
  if bufEntry =? DATA_BUF_NONE then ret (inr DATA_BUF_FAIL) else
  lsa <- !(dataBuf.[bufEntry]∙bufLogicalSliceAddr) ;;
  if lsa =? logicalSliceAddr then
    lru_relink (λ ents h t, selective_get lru_links ents h t bufEntry) ;;
    lru_relink (λ ents h t, put_head lru_links ents h t bufEntry) ;;
    ret (inr bufEntry)
  else
    next <- !(dataBuf.[bufEntry]∙hashNextEntry) ;;
    ret (inl next).

(** CheckDataBufHit for the slice address of the request.  A chain has at most
    [N] entries. *)
Definition CheckHit (logicalSliceAddr : Z) : M BSt Z :=
  bufEntry <- !(dataBufHash.[FindHashTableEntry logicalSliceAddr]∙headEntry) ;;
  loop (Z.to_nat N + 2) (CheckHit_step logicalSliceAddr) bufEntry.

Definition PutToHashList (bufEntry : Z) : M BSt unit :=
  lsa <- !(dataBuf.[bufEntry]∙bufLogicalSliceAddr) ;;
  hash_relink (FindHashTableEntry lsa) (λ ents h t, put_tail hash_links ents h t bufEntry).

Definition SelectiveGetFromHashList (bufEntry : Z) : M BSt unit :=
  lsa <- !(dataBuf.[bufEntry]∙bufLogicalSliceAddr) ;;
  when (negb (lsa =? LSA_NONE))
    (hash_relink (FindHashTableEntry lsa) (λ ents h t, selective_get hash_links ents h t bufEntry)).

Definition Allocate : M BSt Z :=
  evictedEntry <- !(dataBufLruList∙tailEntry) ;;
  when (evictedEntry =? DATA_BUF_NONE) (fail Assert) ;;
  lru_relink (rotate_tail lru_links) ;;
  SelectiveGetFromHashList evictedEntry ;;
  ret evictedEntry.
End operations.

(** ** The invariant *)

Section invariant.
Context (N : Z) (HN : 1 ≤ N < DATA_BUF_NONE).

(** [BInv s lru chain D]: all [N] entries are in the LRU list [lru], most
    recently used first; chain [h] of the hash table holds the entries that
    cache a slice with hash [h]; no slice is cached twice.  [D] is the entry
    that was taken by Allocate and caches nothing yet, if there is one. *)
Record BInv (s : BSt) (lru : list Z) (chain : Z → list Z) (D : option Z) : Prop := {
  bi_ents i : 0 ≤ i < N → is_Some (b_dataBuf s !! i);
  bi_hash h : 0 ≤ h < N → is_Some (b_hash s !! h);
  bi_lru : dll lru_links (b_dataBuf s) (headEntry (b_lru s)) (tailEntry (b_lru s)) lru;
  bi_perm i : i ∈ lru ↔ 0 ≤ i < N;
  bi_chain h c : 0 ≤ h < N → b_hash s !! h = Some c →
    dll hash_links (b_dataBuf s) (headEntry c) (tailEntry c) (chain h);
  bi_in h i : 0 ≤ h < N → i ∈ chain h ↔ 0 ≤ i < N ∧ D ≠ Some i ∧
    ∃ e, b_dataBuf s !! i = Some e ∧ bufLogicalSliceAddr e ≠ LSA_NONE ∧
      FindHashTableEntry N (bufLogicalSliceAddr e) = h;
  bi_uniq i j e e' : 0 ≤ i < N → 0 ≤ j < N → D ≠ Some i → D ≠ Some j →
    b_dataBuf s !! i = Some e → b_dataBuf s !! j = Some e' →
    bufLogicalSliceAddr e = bufLogicalSliceAddr e' → bufLogicalSliceAddr e ≠ LSA_NONE → i = j;
}.

(** Entry [i] caches slice [lsa]. *)
Definition caches (s : BSt) (D : option Z) (i lsa : Z) : Prop :=
  0 ≤ i < N ∧ D ≠ Some i ∧ ∃ e, b_dataBuf s !! i = Some e ∧ bufLogicalSliceAddr e = lsa.

Lemma hash_bound lsa : 0 ≤ FindHashTableEntry N lsa < N.
Proof. apply Z.mod_pos_bound. lia. Qed.

Lemma wp_lru_relink op ents' h' t' (Φ : unit → BSt → Prop) s :
  op (b_dataBuf s) (headEntry (b_lru s)) (tailEntry (b_lru s)) = Some (ents', (h', t')) →
  0 ≤ h' ≤ DATA_BUF_NONE ∧ 0 ≤ t' ≤ DATA_BUF_NONE →
  Φ tt (MkBSt ents' (MkDATA_BUF_LIST h' t') (b_hash s)) → wp (lru_relink op) Φ s.
Proof.
  unfold DATA_BUF_NONE. intros Hop Hends HΦ. unfold lru_relink, dataBuf, dataBufLruList.
  apply wp_bind, (wp_load _ (b_dataBuf s)); [done|].
  apply wp_bind, (wp_load _ (headEntry (b_lru s))); [done|].
  apply wp_bind, (wp_load _ (tailEntry (b_lru s))); [done|].
  apply wp_bind, (wp_from_option _ (ents', (h', t'))); [done|]. cbn.
  unfold fset, set_tailEntry, set_headEntry, set_b_lru, set_b_dataBuf. cbn.
  by rewrite !wrap_small by lia.
Qed.

Lemma wp_hash_relink h c op ents' h' t' (Φ : unit → BSt → Prop) s :
  b_hash s !! h = Some c →
  op (b_dataBuf s) (headEntry c) (tailEntry c) = Some (ents', (h', t')) →
  0 ≤ h' ≤ DATA_BUF_NONE ∧ 0 ≤ t' ≤ DATA_BUF_NONE →
  Φ tt (MkBSt ents' (b_lru s) (<[h := MkDATA_BUF_LIST h' t']> (b_hash s))) →
  wp (hash_relink h op) Φ s.
Proof.
  unfold DATA_BUF_NONE. intros Hc Hop Hends HΦ. unfold hash_relink, dataBuf, dataBufHash.
  apply wp_bind, (wp_load _ (b_dataBuf s)); [done|].
  apply wp_bind, (wp_load _ (headEntry c)); [by cbn; rewrite Hc|].
  apply wp_bind, (wp_load _ (tailEntry c)); [by cbn; rewrite Hc|].
  apply wp_bind, (wp_from_option _ (ents', (h', t'))); [done|].
  apply wp_bind, (wp_store _ (b_dataBuf s)); [done|].
  apply wp_bind, (wp_store _ (headEntry c)); [by cbn; rewrite Hc|]. cbn. rewrite Hc. cbn.
  apply (wp_store _ (tailEntry c)); [by cbn; rewrite lookup_insert_eq|].
  cbn. rewrite lookup_insert_eq. cbn. rewrite insert_insert_eq.
  unfold fset, set_tailEntry, set_headEntry, set_b_hash, set_b_dataBuf. cbn.
  by rewrite !wrap_small by lia.
Qed.

(** What a change of the LRU links keeps. *)
Lemma pay_lru n n' :
  pay lru_links n' = pay lru_links n →
  bufLogicalSliceAddr n' = bufLogicalSliceAddr n ∧ hashPrevEntry n' = hashPrevEntry n ∧
  hashNextEntry n' = hashNextEntry n ∧ dirty n' = dirty n ∧ blockingReqTail n' = blockingReqTail n.
Proof. destruct n, n'. cbv. intros [=]. by subst. Qed.
Lemma pay_hash n n' :
  pay hash_links n' = pay hash_links n →
  bufLogicalSliceAddr n' = bufLogicalSliceAddr n ∧ prevEntry n' = prevEntry n ∧
  nextEntry n' = nextEntry n ∧ dirty n' = dirty n ∧ blockingReqTail n' = blockingReqTail n.
Proof. destruct n, n'. cbv. intros [=]. by subst. Qed.

Lemma dll_map (L : links DATA_BUF_ENTRY) ents ents' h t l :
  (∀ x n, x ∈ l → ents !! x = Some n →
     ∃ n', ents' !! x = Some n' ∧ prv L n' = prv L n ∧ nxt L n' = nxt L n) →
  dll L ents h t l → dll L ents' h t l.
Proof. intros Hm (? & ? & Hl & ? & ?). split_and!; try done. by eapply lseg_map. Qed.

Lemma BInv_lru_update s lru chain D ents' h' t' lru' X :
  BInv s lru chain D → relinked lru_links X (b_dataBuf s) ents' →
  dll lru_links ents' h' t' lru' → (∀ i, i ∈ lru' ↔ i ∈ lru) →
  BInv (MkBSt ents' (MkDATA_BUF_LIST h' t') (b_hash s)) lru' chain D.
Proof.
  intros HI Hrel Hd Hm.
  assert (∀ i e', ents' !! i = Some e' → ∃ e, b_dataBuf s !! i = Some e ∧
    bufLogicalSliceAddr e' = bufLogicalSliceAddr e) as Hback.
  { intros i e' Hi. destruct (relinked_lookup_inv _ _ _ _ _ _ Hrel Hi) as (e & ? & [? _]%pay_lru); eauto. }
  split; cbn.
  - intros i Hi. destruct (bi_ents _ _ _ _ HI i Hi) as [e He].
    destruct (relinked_lookup _ _ _ _ _ _ Hrel He) as (? & ? & _); eauto.
  - apply (bi_hash _ _ _ _ HI).
  - done.
  - intros i. rewrite Hm. apply (bi_perm _ _ _ _ HI).
  - intros h c Hh Hc. eapply dll_map; [|by apply (bi_chain _ _ _ _ HI)].
    intros x n _ Hn. destruct (relinked_lookup _ _ _ _ _ _ Hrel Hn) as (n' & ? & Hp%pay_lru).
    exists n'. cbn. tauto.
  - intros h i Hh. rewrite (bi_in _ _ _ _ HI h i Hh). split; intros (? & ? & e & He & Hne & Hhe).
    + destruct (relinked_lookup _ _ _ _ _ _ Hrel He) as (e' & ? & [E _]%pay_lru).
      split; [done|split; [done|]]. exists e'. by rewrite E.
    + destruct (Hback i e He) as (e0 & ? & E). split; [done|split; [done|]]. exists e0. by rewrite <- E.
  - intros i j e e' Hi Hj Di Dj He He'. destruct (Hback i e He) as (e0 & ? & ->).
    destruct (Hback j e' He') as (e0' & ? & ->). by apply (bi_uniq _ _ _ _ HI).
Qed.

(** ** CheckDataBufHit *)

Lemma CheckHit_loop s lru chain D lsa (l2 l1 : list Z) fuel (Φ : Z → BSt → Prop) :
  BInv s lru chain D → lsa ≠ LSA_NONE →
  chain (FindHashTableEntry N lsa) = l1 ++ l2 → (length l2 < fuel)%nat →
  (∀ i, i ∈ l1 → ¬ caches s D i lsa) →
  ((∀ i, ¬ caches s D i lsa) → Φ DATA_BUF_FAIL s) →
  (∀ b s' m1 m2, lru = m1 ++ b :: m2 → caches s D b lsa → BInv s' (b :: m1 ++ m2) chain D →
     relinked lru_links (b :: m1 ++ m2) (b_dataBuf s) (b_dataBuf s') → b_hash s' = b_hash s →
     Φ b s') →
  wp (loop fuel (CheckHit_step lsa) (hdz DATA_BUF_NONE l2)) Φ s.
Proof.
  intros HI Hlsa. set (h := FindHashTableEntry N lsa). pose proof (hash_bound lsa) as Hh.
  revert l1 fuel. induction l2 as [|b l2 IH]; intros l1 fuel Hch Hfuel Hl1 Hmiss Hhit;
    (destruct fuel as [|fuel]; [simpl in *; lia|]); cbn [loop hdz].
  - apply wp_bind, wp_ret, wp_ret, Hmiss. intros i Hc. apply (Hl1 i); [|done].
    destruct Hc as (? & ? & e & ? & Hel). rewrite app_nil_r in Hch. rewrite <- Hch.
    apply (bi_in _ _ _ _ HI h i Hh). split; [done|split; [done|]]. exists e. subst lsa. done.
  - destruct (bi_hash _ _ _ _ HI h Hh) as [c Hc].
    pose proof (bi_chain _ _ _ _ HI h c Hh Hc) as Hd. rewrite Hch in Hd.
    destruct (dll_split _ _ _ _ _ _ _ Hd) as (e & He & _ & Hnext & _ & _ & _ & _ & _ & _ & Hb).
    assert (b ∈ chain h) as Hbin by (rewrite Hch; set_solver).
    apply (bi_in _ _ _ _ HI h b Hh) in Hbin as (Hbr & HbD & e0 & He0 & _). rewrite He in He0. injection He0 as <-.
    apply wp_bind. unfold CheckHit_step. cbn in Hb.
    rewrite (proj2 (Z.eqb_neq b DATA_BUF_NONE)) by lia.
    apply wp_bind, (wp_load _ (bufLogicalSliceAddr e)); [by cbn; rewrite He|].
    destruct (Z.eqb_spec (bufLogicalSliceAddr e) lsa) as [Heq|Hneq].
    + pose proof (proj2 (bi_perm _ _ _ _ HI b) Hbr) as Hin.
      apply list_elem_of_split in Hin as (m1 & m2 & ->).
      destruct (move_to_front_spec _ _ _ _ _ _ _ (bi_lru _ _ _ _ HI))
        as (n1 & h1 & t1 & n2 & h2 & t2 & Hs1 & Hd1 & Hs2 & Hd2 & Hrel).
      apply wp_bind. eapply wp_lru_relink; [exact Hs1|exact (dll_ends lru_links _ _ _ _ Hd1)|].
      apply wp_bind. eapply wp_lru_relink; [exact Hs2|exact (dll_ends lru_links _ _ _ _ Hd2)|].
      apply wp_ret, wp_ret. eapply Hhit; [done|split; [done|split; [done|eauto]]| |done|done].
      apply (BInv_lru_update s _ chain D n2 h2 t2 _ _ HI Hrel Hd2). set_solver.
    + apply wp_bind, (wp_load _ (hashNextEntry e)); [by cbn; rewrite He|].
      apply wp_ret. cbn in Hnext. rewrite Hnext.
      apply (IH (l1 ++ [b])); [by rewrite <- app_assoc|simpl in *; lia| |done|done].
      intros i [Hi| ->%list_elem_of_singleton]%elem_of_app; [by apply Hl1|].
      intros (_ & _ & e' & ? & ?). congruence.
Qed.

Lemma chain_length s lru chain D h :
  BInv s lru chain D → 0 ≤ h < N → Z.of_nat (length (chain h)) ≤ N.
Proof.
  intros HI Hh. destruct (bi_hash _ _ _ _ HI h Hh) as [c Hc].
  assert (Z.of_nat (length (chain h)) ≤ Z.max 0 N); [|lia]. apply NoDup_length_bound.
  - apply (bi_chain _ _ _ _ HI h c Hh Hc).
  - intros x Hx. by apply (bi_in _ _ _ _ HI h x Hh) in Hx as (? & _).
Qed.

Lemma CheckHit_spec s lru chain D lsa (Φ : Z → BSt → Prop) :
  BInv s lru chain D → lsa ≠ LSA_NONE →
  ((∀ i, ¬ caches s D i lsa) → Φ DATA_BUF_FAIL s) →
  (∀ b s' m1 m2, lru = m1 ++ b :: m2 → caches s D b lsa → BInv s' (b :: m1 ++ m2) chain D →
     relinked lru_links (b :: m1 ++ m2) (b_dataBuf s) (b_dataBuf s') → b_hash s' = b_hash s →
     Φ b s') →
  wp (CheckHit N lsa) Φ s.
Proof.
  intros HI Hlsa Hmiss Hhit. pose proof (hash_bound lsa) as Hh.
  destruct (bi_hash _ _ _ _ HI _ Hh) as [c Hc].
  pose proof (bi_chain _ _ _ _ HI _ c Hh Hc) as Hd.
  apply wp_bind, (wp_load _ (headEntry c)); [by cbn; rewrite Hc|].
  destruct Hd as (-> & _). pose proof (chain_length s lru chain D _ HI Hh).
  apply (CheckHit_loop s lru chain D lsa (chain (FindHashTableEntry N lsa)) []);
    [done|done|done|lia|set_solver|done|done].
Qed.

(** ** Eviction *)

(** Changing hash links in one chain keeps the rest of the invariant. *)
Lemma BInv_hash_update s lru chain D ents' h' t' h l' X D' (f : DATA_BUF_ENTRY → DATA_BUF_ENTRY) e0 x :
  BInv s lru chain D → 0 ≤ h < N → 0 ≤ x < N → b_dataBuf s !! x = Some e0 →
  prevEntry (f e0) = prevEntry e0 → nextEntry (f e0) = nextEntry e0 →
  relinked hash_links X (<[x := f e0]> (b_dataBuf s)) ents' →
  (∀ y, y ∈ X → ∀ g, g ≠ h → 0 ≤ g < N → y ∉ chain g) →
  (∀ g, g ≠ h → 0 ≤ g < N → x ∉ chain g) →
  dll hash_links ents' h' t' l' →
  (∀ g i, 0 ≤ g < N → i ∈ (<[h := l']> chain) g ↔ 0 ≤ i < N ∧ D' ≠ Some i ∧
     ∃ e, <[x := f e0]> (b_dataBuf s) !! i = Some e ∧ bufLogicalSliceAddr e ≠ LSA_NONE ∧
       FindHashTableEntry N (bufLogicalSliceAddr e) = g) →
  (∀ i j e e', 0 ≤ i < N → 0 ≤ j < N → D' ≠ Some i → D' ≠ Some j →
    <[x := f e0]> (b_dataBuf s) !! i = Some e → <[x := f e0]> (b_dataBuf s) !! j = Some e' →
    bufLogicalSliceAddr e = bufLogicalSliceAddr e' → bufLogicalSliceAddr e ≠ LSA_NONE → i = j) →
  BInv (MkBSt ents' (b_lru s) (<[h := MkDATA_BUF_LIST h' t']> (b_hash s))) lru (<[h := l']> chain) D'.
Proof.
  intros HI Hh Hx He0 Hfp Hfn Hrel HX Hxo Hd Hin Huniq.
  assert (∀ i e', ents' !! i = Some e' → ∃ e, <[x := f e0]> (b_dataBuf s) !! i = Some e ∧
    bufLogicalSliceAddr e' = bufLogicalSliceAddr e) as Hback.
  { intros i e' Hi. destruct (relinked_lookup_inv _ _ _ _ _ _ Hrel Hi) as (e & ? & [? _]%pay_hash); eauto. }
  assert (∀ i e, <[x := f e0]> (b_dataBuf s) !! i = Some e → ∃ e', ents' !! i = Some e' ∧
    bufLogicalSliceAddr e' = bufLogicalSliceAddr e ∧ prevEntry e' = prevEntry e ∧
    nextEntry e' = nextEntry e) as Hfwd.
  { intros i e Hi. destruct (relinked_lookup _ _ _ _ _ _ Hrel Hi) as (e' & ? & Hp%pay_hash). exists e'. tauto. }
  split; cbn.
  - intros i Hi. destruct (bi_ents _ _ _ _ HI i Hi) as [e He].
    destruct (Hfwd i (if decide (i = x) then f e0 else e)) as (? & ? & _); [|eauto].
    rewrite lookup_insert. case_decide; case_decide; congruence.
  - intros g Hg. rewrite lookup_insert. case_decide; [eauto|by apply (bi_hash _ _ _ _ HI)].
  - eapply dll_map; [|apply (bi_lru _ _ _ _ HI)]. intros y n _ Hn.
    destruct (Hfwd y (if decide (y = x) then f n else n)) as (n' & ? & _ & ? & ?).
    { rewrite lookup_insert. case_decide; case_decide; congruence. }
    exists n'. cbn. case_decide; simplify_eq; split_and!; congruence.
  - apply (bi_perm _ _ _ _ HI).
  - intros g c Hg. rewrite lookup_insert. case_decide as E; intros Hc; simplify_eq.
    + by rewrite fn_lookup_insert.
    + rewrite fn_lookup_insert_ne by done. pose proof (bi_chain _ _ _ _ HI g c Hg Hc) as Hdg.
      eapply dll_relinked; [exact Hrel|intros y Hy HyX; by apply (HX y HyX g)|].
      eapply dll_map; [|exact Hdg]. intros y n Hy Hn. exists n.
      rewrite lookup_insert_ne; [done|]. intros ->. by apply (Hxo g).
  - intros g i Hg. rewrite (Hin g i Hg). split; intros (? & ? & e & He & Hne & Hhe).
    + destruct (Hfwd i e He) as (e' & ? & E & _). split; [done|split; [done|]]. exists e'. by rewrite E.
    + destruct (Hback i e He) as (e1 & ? & E). split; [done|split; [done|]]. exists e1. by rewrite <- E.
  - intros i j e e' Hi Hj Di Dj He He'. destruct (Hback i e He) as (e1 & ? & ->).
    destruct (Hback j e' He') as (e1' & ? & ->). by apply Huniq.
Qed.

(** Removing an element from a list of distinct elements. *)
Lemma elem_of_remove (l1 l2 : list Z) x y :
  NoDup (l1 ++ x :: l2) → y ∈ l1 ++ l2 ↔ y ∈ l1 ++ x :: l2 ∧ y ≠ x.
Proof.
  intros (_ & Hd & [Hx _]%NoDup_cons)%NoDup_app. split.
  - intros Hy. split; [set_solver|]. intros ->. apply elem_of_app in Hy as [Hy|Hy]; [|done].
    apply (Hd x Hy). left.
  - set_solver.
Qed.

Lemma SelectiveGet_spec s lru chain x e (Φ : unit → BSt → Prop) :
  BInv s lru chain None → 0 ≤ x < N → b_dataBuf s !! x = Some e →
  (∀ s' chain', BInv s' lru chain' (Some x) →
     (∀ y ey, b_dataBuf s !! y = Some ey → ∃ ey', b_dataBuf s' !! y = Some ey' ∧
        pay hash_links ey' = pay hash_links ey) → b_lru s' = b_lru s → Φ tt s') →
  wp (SelectiveGetFromHashList N x) Φ s.
Proof.
  intros HI Hx He HΦ.
  apply wp_bind, (wp_load _ (bufLogicalSliceAddr e)); [by cbn; rewrite He|].
  apply wp_when.
  - intros Hne%negb_true_iff%Z.eqb_neq. pose proof (hash_bound (bufLogicalSliceAddr e)) as Hh.
    set (h := FindHashTableEntry N (bufLogicalSliceAddr e)) in *.
    destruct (bi_hash _ _ _ _ HI h Hh) as [c Hc]. pose proof (bi_chain _ _ _ _ HI h c Hh Hc) as Hd.
    assert (x ∈ chain h) as Hin by (apply (bi_in _ _ _ _ HI h x Hh); naive_solver).
    apply list_elem_of_split in Hin as (l1 & l2 & Hl). rewrite Hl in Hd.
    destruct (selective_get_spec _ _ _ _ _ _ _ Hd) as (ents' & h' & t' & Hop & Hd' & Hrel).
    assert (NoDup (l1 ++ x :: l2)) as Hnd by apply Hd.
    eapply wp_hash_relink; [done|exact Hop|exact (dll_ends hash_links _ _ _ _ Hd')|].
    apply (HΦ _ (<[h := l1 ++ l2]> chain)); [|intros y ey Hy; by eapply relinked_lookup|done].
    assert (∀ y g, y ∈ chain h → g ≠ h → 0 ≤ g < N → y ∉ chain g) as Hother.
    { intros y g Hy Hgh Hg Hyg. apply (bi_in _ _ _ _ HI h y Hh) in Hy as (_ & _ & e1 & ? & _ & ?).
      apply (bi_in _ _ _ _ HI g y Hg) in Hyg as (_ & _ & e2 & ? & _ & ?). congruence. }
    eapply (BInv_hash_update s lru chain None ents' h' t' h _ (l1 ++ l2) (Some x) id e x); try done.
    + by rewrite insert_id.
    + intros y Hy g. apply Hother. rewrite Hl. set_solver.
    + intros g. apply Hother. rewrite Hl. set_solver.
    + intros g i Hg. rewrite insert_id by done. destruct (decide (g = h)) as [->|].
      * rewrite fn_lookup_insert, elem_of_remove by done. rewrite <- Hl, (bi_in _ _ _ _ HI h i Hh).
        naive_solver.
      * rewrite fn_lookup_insert_ne, (bi_in _ _ _ _ HI g i Hg) by done.
        split; intros (? & ? & e1 & ? & ? & ?); (split; [done|split; [|eauto]]); [|done].
        intros [= <-]. by simplify_eq.
    + intros i j e1 e2. rewrite insert_id by done. intros ?? Di Dj. by apply (bi_uniq _ _ _ _ HI).
  - intros Hne%negb_false_iff%Z.eqb_eq. apply (HΦ s chain); [|by eauto|done].
    destruct HI as [? ? ? ? ? Hin Huniq]. split; try done.
    + intros h i Hh. rewrite (Hin h i Hh). split; intros (? & ? & e1 & ? & ? & ?);
        (split; [done|split; [|eauto]]); [|done]. intros [= <-]. by simplify_eq.
    + intros i j e1 e2 ?? Di Dj. by apply Huniq.
Qed.

Lemma Allocate_spec s lru x chain (Φ : Z → BSt → Prop) :
  BInv s (lru ++ [x]) chain None →
  (∀ s' chain', BInv s' (x :: lru) chain' (Some x) →
     (∀ y ey, b_dataBuf s !! y = Some ey → ∃ ey', b_dataBuf s' !! y = Some ey' ∧
        bufLogicalSliceAddr ey' = bufLogicalSliceAddr ey ∧ dirty ey' = dirty ey ∧
        blockingReqTail ey' = blockingReqTail ey) → Φ x s') →
  wp (Allocate N) Φ s.
Proof.
  intros HI HΦ. assert (0 ≤ x < N) as Hx by (apply (bi_perm _ _ _ _ HI); set_solver).
  destruct (rotate_tail_spec _ _ _ _ _ _ (bi_lru _ _ _ _ HI))
    as (Ht & ents' & h' & t' & Hop & Hd & Hrel).
  apply wp_bind, (wp_load _ x); [by cbn; rewrite Ht|].
  rewrite (proj2 (Z.eqb_neq x DATA_BUF_NONE)) by (unfold DATA_BUF_NONE in *; lia).
  apply wp_bind, wp_ret, wp_bind.
  eapply wp_lru_relink; [exact Hop|exact (dll_ends lru_links _ _ _ _ Hd)|].
  assert (BInv (MkBSt ents' (MkDATA_BUF_LIST h' t') (b_hash s)) (x :: lru) chain None) as HI1.
  { apply (BInv_lru_update s _ chain None _ _ _ _ _ HI Hrel Hd). set_solver. }
  destruct (bi_ents _ _ _ _ HI1 x Hx) as [e He]. cbn in He.
  apply wp_bind. eapply SelectiveGet_spec; [exact HI1|done|exact He|].
  intros s' chain' HI' Hpay _. apply wp_ret, (HΦ s' chain'); [done|].
  intros y ey Hy. destruct (relinked_lookup _ _ _ _ _ _ Hrel Hy) as (e1 & He1 & Hp1%pay_lru).
  destruct (Hpay y e1 He1) as (e2 & He2 & Hp2%pay_hash). exists e2. intuition congruence.
Qed.

(** The entry taken by Allocate starts to cache slice [lsa], which no other entry
    caches. *)
Lemma PutToHash_spec s lru chain x lsa (Φ : unit → BSt → Prop) :
  BInv s lru chain (Some x) → 0 ≤ x < N → 0 ≤ lsa < LSA_NONE → (∀ i, ¬ caches s (Some x) i lsa) →
  (∀ s' chain', BInv s' lru chain' None → caches s' None x lsa →
     (∀ y ey, y ≠ x → b_dataBuf s !! y = Some ey → ∃ ey', b_dataBuf s' !! y = Some ey' ∧
        pay hash_links ey' = pay hash_links ey) → Φ tt s') →
  wp (dataBuf.[x]∙bufLogicalSliceAddr ::= lsa ;; PutToHashList N x) Φ s.
Proof.
  unfold LSA_NONE. intros HI Hx Hlsa Hnew HΦ. destruct (bi_ents _ _ _ _ HI x Hx) as [e He].
  apply wp_bind, (wp_store _ (bufLogicalSliceAddr e)); [by cbn; rewrite He|].
  cbn. rewrite He. cbn. set (ents1 := <[x := fset bufLogicalSliceAddr lsa e]> (b_dataBuf s)).
  assert (bufLogicalSliceAddr (fset bufLogicalSliceAddr lsa e) = lsa) as Hl by (cbn; apply wrap_small; lia).
  apply wp_bind, (wp_load _ lsa).
  { cbn. unfold ents1. rewrite lookup_insert_eq. cbn [fmap option_fmap option_map]. by rewrite Hl. }
  pose proof (hash_bound lsa) as Hh. set (h := FindHashTableEntry N lsa) in *.
  destruct (bi_hash _ _ _ _ HI h Hh) as [c Hc]. pose proof (bi_chain _ _ _ _ HI h c Hh Hc) as Hd.
  assert (∀ g, 0 ≤ g < N → x ∉ chain g) as Hxout.
  { intros g Hg Hin. by apply (bi_in _ _ _ _ HI g x Hg) in Hin as (_ & ? & _). }
  assert (dll hash_links ents1 (headEntry c) (tailEntry c) (chain h)) as Hd1.
  { eapply dll_map; [|exact Hd]. intros y n Hy Hn. exists n. unfold ents1.
    rewrite lookup_insert_ne; [done|]. intros <-. by apply (Hxout h). }
  destruct (put_tail_spec hash_links ents1 _ _ _ x Hd1) as (ents' & h' & t' & Hop & Hd' & Hrel);
    [by apply Hxout|cbn; lia|unfold ents1; rewrite lookup_insert_eq; eauto|].
  eapply wp_hash_relink; [done|exact Hop|exact (dll_ends hash_links _ _ _ _ Hd')|].
  assert (∀ y g, y ∈ chain h → g ≠ h → 0 ≤ g < N → y ∉ chain g) as Hother.
  { intros y g Hy Hgh Hg Hyg. apply (bi_in _ _ _ _ HI h y Hh) in Hy as (_ & _ & e1 & ? & _ & ?).
    apply (bi_in _ _ _ _ HI g y Hg) in Hyg as (_ & _ & e2 & ? & _ & ?). congruence. }
  apply (HΦ _ (<[h := chain h ++ [x]]> chain)).
  - eapply (BInv_hash_update s lru chain (Some x) ents' h' t' h _ (x :: chain h) None
      (fset bufLogicalSliceAddr lsa) e x); try done.
    + intros y [->|Hy]%elem_of_cons g ? ?; [by apply Hxout|by apply (Hother y)].
    + intros g ? ?. by apply Hxout.
    + intros g i Hg. rewrite lookup_insert. destruct (decide (x = i)) as [<-|Hxi].
      * split.
        -- intros Hin. split; [done|split; [done|]]. eexists. split; [done|]. rewrite Hl.
           split; [unfold LSA_NONE; lia|]. destruct (decide (g = h)) as [->|]; [done|].
           rewrite fn_lookup_insert_ne in Hin by done. by destruct (Hxout g).
        -- intros (_ & _ & e' & [= <-] & _ & Hg'). rewrite Hl in Hg'. change (h = g) in Hg'. subst g.
           rewrite fn_lookup_insert. set_solver.
      * assert (i ∈ (<[h:=chain h ++ [x]]> chain) g ↔ i ∈ chain g) as ->.
        { destruct (decide (g = h)) as [->|]; [rewrite fn_lookup_insert; set_solver|].
          by rewrite fn_lookup_insert_ne. }
        rewrite (bi_in _ _ _ _ HI g i Hg). split; intros (? & ? & ?); (split; [done|split; [congruence|done]]).
    + intros i j e1 e2 Hi Hj _ _ H1 H2 Heq Hne. rewrite lookup_insert in H1. rewrite lookup_insert in H2.
      case_decide as E1; case_decide as E2; simplify_eq; [done|..].
      * destruct (Hnew i). split; [done|split; [congruence|]]. exists e1. split; [done|congruence].
      * destruct (Hnew j). split; [done|split; [congruence|]]. exists e2. split; [done|congruence].
      * apply (bi_uniq _ _ _ _ HI i j e1 e2); congruence.
  - split; [done|split; [done|]].
    destruct (relinked_lookup _ _ _ _ x (fset bufLogicalSliceAddr lsa e) Hrel) as (e' & He' & [E _]%pay_hash);
      [unfold ents1; apply lookup_insert_eq|]. exists e'. split; [done|]. by rewrite E.
  - intros y ey Hy Hey. eapply relinked_lookup; [exact Hrel|]. unfold ents1. by rewrite lookup_insert_ne.
Qed.

(** Fields outside the lists may change freely. *)
Lemma BInv_frame s s' lru chain D :
  (∀ i, is_Some (b_dataBuf s' !! i) ↔ is_Some (b_dataBuf s !! i)) →
  (∀ i e e', b_dataBuf s !! i = Some e → b_dataBuf s' !! i = Some e' →
     bufLogicalSliceAddr e' = bufLogicalSliceAddr e ∧ prevEntry e' = prevEntry e ∧
     nextEntry e' = nextEntry e ∧ hashPrevEntry e' = hashPrevEntry e ∧
     hashNextEntry e' = hashNextEntry e) →
  b_lru s' = b_lru s → b_hash s' = b_hash s → BInv s lru chain D → BInv s' lru chain D.
Proof.
  intros Hdom Hf El Eh HI.
  assert (∀ i e, b_dataBuf s !! i = Some e → ∃ e', b_dataBuf s' !! i = Some e') as Hfwd.
  { intros i e He. assert (is_Some (b_dataBuf s' !! i)) as [? ?] by (apply Hdom; eauto). eauto. }
  assert (∀ i e', b_dataBuf s' !! i = Some e' → ∃ e, b_dataBuf s !! i = Some e) as Hbwd.
  { intros i e He. assert (is_Some (b_dataBuf s !! i)) as [? ?] by (apply Hdom; eauto). eauto. }
  split; rewrite ?El, ?Eh.
  - intros i Hi. by apply Hdom, (bi_ents _ _ _ _ HI).
  - apply (bi_hash _ _ _ _ HI).
  - eapply dll_map; [|apply (bi_lru _ _ _ _ HI)]. intros x n _ Hn. destruct (Hfwd x n Hn) as [n' Hn'].
    exists n'. cbn. destruct (Hf x n n' Hn Hn'). tauto.
  - apply (bi_perm _ _ _ _ HI).
  - intros h c Hh Hc. eapply dll_map; [|by apply (bi_chain _ _ _ _ HI)]. intros x n _ Hn.
    destruct (Hfwd x n Hn) as [n' Hn']. exists n'. cbn. destruct (Hf x n n' Hn Hn'). tauto.
  - intros h i Hh. rewrite (bi_in _ _ _ _ HI h i Hh). split; intros (? & ? & e & He & ? & ?).
    + destruct (Hfwd i e He) as [e' He']. destruct (Hf i e e' He He') as [E _]. rewrite <- E in *. eauto 10.
    + destruct (Hbwd i e He) as [e' He']. destruct (Hf i e' e He' He) as [E _]. rewrite E in *. eauto 10.
  - intros i j e e' Hi Hj Di Dj He He'.
    destruct (Hbwd i e He) as [e1 He1]. destruct (Hf i e1 e He1 He) as [-> _].
    destruct (Hbwd j e' He') as [e2 He2]. destruct (Hf j e2 e' He2 He') as [-> _].
    by apply (bi_uniq _ _ _ _ HI).
Qed.

(** ** Initialisation *)

Lemma wp_ent_store {T} (f : DATA_BUF_ENTRY → T) `{!Field f} i e v (Φ : unit → BSt → Prop) s :
  b_dataBuf s !! i = Some e →
  Φ tt (fset b_dataBuf (<[i := fset f v e]> (b_dataBuf s)) s) →
  wp (dataBuf.[i]∙f ::= v) Φ s.
Proof. intros He HΦ. apply (wp_store _ (f e)); [by cbn; rewrite He|]. cbn. by rewrite He. Qed.

Lemma wp_hash_store {T} (f : DATA_BUF_LIST → T) `{!Field f} i c v (Φ : unit → BSt → Prop) s :
  b_hash s !! i = Some c →
  Φ tt (fset b_hash (<[i := fset f v c]> (b_hash s)) s) →
  wp (dataBufHash.[i]∙f ::= v) Φ s.
Proof. intros He HΦ. apply (wp_store _ (f c)); [by cbn; rewrite He|]. cbn. by rewrite He. Qed.

(** The entries and chains initialised before entry [i]. *)
Definition entries_before (i : Z) (s : BSt) : Prop :=
  (∀ j, 0 ≤ j < N → is_Some (b_dataBuf s !! j) ∧ is_Some (b_hash s !! j)) ∧
  ∀ j, 0 ≤ j < i → (∃ e, b_dataBuf s !! j = Some e ∧ bufLogicalSliceAddr e = LSA_NONE ∧
    prevEntry e = u16 (j - 1) ∧ nextEntry e = u16 (j + 1) ∧ dirty e = DATA_BUF_CLEAN ∧
    blockingReqTail e = REQ_SLOT_TAG_NONE) ∧
    b_hash s !! j = Some (MkDATA_BUF_LIST DATA_BUF_NONE DATA_BUF_NONE).

Lemma InitBuf_spec s :
  (∀ j, 0 ≤ j < N → is_Some (b_dataBuf s !! j) ∧ is_Some (b_hash s !! j)) →
  wp (InitBuf N) (λ _ s', BInv s' (seqZ 0 N) (λ _, []) None ∧
    ∀ j e, 0 ≤ j < N → b_dataBuf s' !! j = Some e → bufLogicalSliceAddr e = LSA_NONE ∧
      dirty e = DATA_BUF_CLEAN ∧ blockingReqTail e = REQ_SLOT_TAG_NONE) s.
Proof.
  unfold DATA_BUF_NONE in HN. intros Hshape. unfold InitBuf. apply wp_bind. eapply wp_mono.
  { apply (wp_for_range entries_before); [lia|split; [done|lia]|].
    intros i s1 Hi [Hs Hb]. destruct (Hs i Hi) as [[e He] [c Hc]].
    apply wp_bind; eapply wp_ent_store; [done|].
    do 4 (apply wp_bind; eapply wp_ent_store; [apply lookup_insert_eq|]).
    apply wp_bind; eapply wp_hash_store; [done|].
    apply wp_bind; eapply wp_hash_store; [apply lookup_insert_eq|].
    apply wp_bind; eapply wp_ent_store; [apply lookup_insert_eq|].
    eapply wp_ent_store; [apply lookup_insert_eq|]. cbn. rewrite !insert_insert_eq. split; cbn.
    - intros j Hj. rewrite !lookup_insert. case_decide; [eauto|by apply Hs].
    - intros j Hj. rewrite !lookup_insert. case_decide; [subst j|apply Hb; lia].
      split; [|done]. eexists. split; [done|]. cbn. done. }
  intros ? s1 [Hs Hb]. cbn beta.
  destruct (Hb 0) as [(e0 & He0 & Hl0 & Hp0 & Hx0 & Hd0 & Ht0) _]; [lia|].
  apply wp_bind; eapply wp_ent_store; [done|].
  set (ents1 := <[0 := fset prevEntry DATA_BUF_NONE e0]> (b_dataBuf s1)).
  assert (∃ en, ents1 !! (N - 1) = Some en ∧ bufLogicalSliceAddr en = LSA_NONE ∧
    prevEntry en = (if N - 1 =? 0 then DATA_BUF_NONE else N - 1 - 1) ∧ dirty en = DATA_BUF_CLEAN ∧
    blockingReqTail en = REQ_SLOT_TAG_NONE) as (en & Hen & Hln & Hpn & Hdn & Htn).
  { unfold ents1. rewrite lookup_insert. destruct (Z.eqb_spec (N - 1) 0); case_decide; try lia.
    - by exists (fset prevEntry DATA_BUF_NONE e0).
    - destruct (Hb (N - 1)) as [(en & ? & ? & Hp & ? & ? & ?) _]; [lia|]. exists en.
      rewrite Hp, wrap_small by lia. done. }
  apply wp_bind; eapply wp_ent_store; [exact Hen|]. cbn.
  assert (∀ j, 0 ≤ j < N → ∃ e, <[N - 1 := fset nextEntry DATA_BUF_NONE en]> ents1 !! j = Some e ∧
    bufLogicalSliceAddr e = LSA_NONE ∧ dirty e = DATA_BUF_CLEAN ∧
    blockingReqTail e = REQ_SLOT_TAG_NONE ∧
    prevEntry e = (if j =? 0 then DATA_BUF_NONE else j - 1) ∧
    nextEntry e = (if j =? N - 1 then DATA_BUF_NONE else j + 1)) as Hall.
  { intros j Hj. destruct (Hb j Hj) as [(e & He & ? & Hp & Hx & ? & ?) _].
    unfold ents1. rewrite !lookup_insert. destruct (decide (N - 1 = j)) as [<-|]; [|destruct (decide (0 = j)) as [<-|]];
      eexists; (split; [done|]); cbn -[Z.eqb].
    - rewrite Z.eqb_refl. done.
    - rewrite Hx0, (proj2 (Z.eqb_neq 0 (N - 1))) by lia. done.
    - rewrite Hp, Hx, !(proj2 (Z.eqb_neq _ _)), !wrap_small by lia. done. }
  split.
  - split; cbn.
    + intros i Hi. destruct (Hall i Hi) as (? & ? & _). eauto.
    + intros h Hh. apply Hs. lia.
    + unfold fset, set_tailEntry, set_headEntry, set_b_lru. cbn. rewrite !wrap_small by lia.
      apply (dll_seqZ lru_links); [cbn; unfold DATA_BUF_NONE; lia|].
      intros j Hj. destruct (Hall j Hj) as (e & ? & _ & _ & _ & ? & ?). eauto.
    + intros i. rewrite elem_of_seqZ. lia.
    + intros h c Hh. rewrite (proj2 (Hb h Hh)). intros [= <-]. apply (dll_nil hash_links).
    + intros h i Hh. split; [by intros ?%elem_of_nil|].
      intros (Hi & _ & e & He & Hne & _). destruct (Hall i Hi) as (? & ? & ? & _). congruence.
    + intros i j e e' Hi Hj _ _ He He' _ Hne. destruct (Hall i Hi) as (? & ? & ? & _). congruence.
  - intros j e Hj He. cbn in He. destruct (Hall j Hj) as (? & ? & ? & ? & ? & _). naive_solver.
Qed.
End invariant.

(** ** The two buffers *)

Section instances.
Context `{Config}.

(** [reqPool[reqSlotTag].logicalSliceAddr] is read by the callers and passed on. *)
Definition CheckDataBufHit (logicalSliceAddr : Z) : M BSt Z :=
  CheckHit AVAILABLE_DATA_BUFFER_ENTRY_COUNT logicalSliceAddr.
Definition AllocateDataBuf : M BSt Z := Allocate AVAILABLE_DATA_BUFFER_ENTRY_COUNT.
Definition PutToDataBufHashList (bufEntry : Z) : M BSt unit :=
  PutToHashList AVAILABLE_DATA_BUFFER_ENTRY_COUNT bufEntry.
Definition SelectiveGetFromDataBufHashList (bufEntry : Z) : M BSt unit :=
  SelectiveGetFromHashList AVAILABLE_DATA_BUFFER_ENTRY_COUNT bufEntry.

Definition InitCcmdDataBuf : M BSt unit := InitBuf AVAILABLE_CCMD_DATA_BUFFER_ENTRY_COUNT.
Definition CheckCcmdDataBufHit (logicalSliceAddr : Z) : M BSt Z :=
  CheckHit AVAILABLE_CCMD_DATA_BUFFER_ENTRY_COUNT logicalSliceAddr.
Definition AllocateCcmdDataBuf : M BSt Z := Allocate AVAILABLE_CCMD_DATA_BUFFER_ENTRY_COUNT.
Definition PutToCcmdDataBufHashList (bufEntry : Z) : M BSt unit :=
  PutToHashList AVAILABLE_CCMD_DATA_BUFFER_ENTRY_COUNT bufEntry.
Definition SelectiveGetFromCcmdDataBufHashList (bufEntry : Z) : M BSt unit :=
  SelectiveGetFromHashList AVAILABLE_CCMD_DATA_BUFFER_ENTRY_COUNT bufEntry.

Context `{!ConfigOk}.

Lemma data_buf_count_bound : 1 ≤ AVAILABLE_DATA_BUFFER_ENTRY_COUNT < DATA_BUF_NONE.
Proof. geometry. unfold AVAILABLE_DATA_BUFFER_ENTRY_COUNT, DATA_BUF_NONE. lia. Qed.
Lemma ccmd_buf_count_bound : 1 ≤ AVAILABLE_CCMD_DATA_BUFFER_ENTRY_COUNT < DATA_BUF_NONE.
Proof. geometry. unfold AVAILABLE_CCMD_DATA_BUFFER_ENTRY_COUNT, DATA_BUF_NONE. lia. Qed.
End instances.

(** ** An LRU cache

    The abstract cache is the list of its entries, most recently used first,
    each with the slice it caches (or LSA_NONE). *)

Fixpoint take_slice (lsa : Z) (c : list (Z * Z)) : option (Z * list (Z * Z)) :=
  match c with
  | [] => None
  | (b, l) :: c =>
      if l =? lsa then Some (b, c)
      else '(b', c') ← take_slice lsa c; Some (b', (b, l) :: c')
  end.

Definition lru_access (c : list (Z * Z)) (lsa : Z) : list (Z * Z) * Z :=
  match take_slice lsa c with
  | Some (b, c') => ((b, lsa) :: c', b)
  | None =>
      match list.last c with
      | Some (b, _) => ((b, lsa) :: take (length c - 1) c, b)
      | None => (c, DATA_BUF_FAIL)
      end
  end.

Fixpoint lru_accesses (c : list (Z * Z)) (lsas : list Z) : list (Z * Z) * list Z :=
  match lsas with
  | [] => (c, [])
  | lsa :: lsas =>
      let (c1, b) := lru_access c lsa in
      let (c2, bs) := lru_accesses c1 lsas in (c2, b :: bs)
  end.

(** The lookup-or-replace sequence of ReqTransSliceToLowLevel, without the
    transfer of the evicted data. *)
Definition access (N lsa : Z) : M BSt Z :=
  b <- CheckHit N lsa ;;
  if negb (b =? DATA_BUF_FAIL) then ret b else
  b <- Allocate N ;;
  (dataBuf.[b]∙bufLogicalSliceAddr ::= lsa ;; PutToHashList N b) ;;
  ret b.

Fixpoint accesses (N : Z) (lsas : list Z) : M BSt (list Z) :=
  match lsas with
  | [] => ret []
  | lsa :: lsas => b <- access N lsa ;; bs <- accesses N lsas ;; ret (b :: bs)
  end.

Section refinement.
Context (N : Z) (HN : 1 ≤ N < DATA_BUF_NONE).

Definition slice_at (s : BSt) (i : Z) : Z :=
  match b_dataBuf s !! i with Some e => bufLogicalSliceAddr e | None => LSA_NONE end.

(** The abstract cache [c] that a buffer represents. *)
Definition is_cache (s : BSt) (c : list (Z * Z)) : Prop :=
  ∃ lru chain, BInv N s lru chain None ∧ c = (λ i, (i, slice_at s i)) <$> lru.

Lemma take_slice_hit lsa c1 b c2 :
  Forall (λ p, p.2 ≠ lsa) c1 → take_slice lsa (c1 ++ (b, lsa) :: c2) = Some (b, c1 ++ c2).
Proof.
  induction 1 as [|[b' l] c1 Hl _ IH]; simpl; [by rewrite Z.eqb_refl|].
  simpl in Hl. by rewrite (proj2 (Z.eqb_neq _ _) Hl), IH.
Qed.

Lemma take_slice_miss lsa c : Forall (λ p, p.2 ≠ lsa) c → take_slice lsa c = None.
Proof.
  induction 1 as [|[b l] c Hl _ IH]; simpl; [done|].
  simpl in Hl. by rewrite (proj2 (Z.eqb_neq _ _) Hl), IH.
Qed.

Lemma caches_slice_at s i lsa : caches N s None i lsa → slice_at s i = lsa.
Proof. unfold slice_at. intros (_ & _ & e & -> & ?). done. Qed.

Lemma slice_at_caches s lru chain i :
  BInv N s lru chain None → i ∈ lru → caches N s None i (slice_at s i).
Proof.
  intros HI Hi. apply (bi_perm _ _ _ _ _ HI) in Hi.
  destruct (bi_ents _ _ _ _ _ HI i Hi) as [e He].
  split; [done|split; [done|]]. exists e. unfold slice_at. by rewrite He.
Qed.

Lemma caches_unique s lru chain i j lsa :
  BInv N s lru chain None → lsa ≠ LSA_NONE → caches N s None i lsa → caches N s None j lsa → i = j.
Proof.
  intros HI Hne (? & ? & e & ? & ?) (? & ? & e' & ? & ?).
  apply (bi_uniq _ _ _ _ _ HI i j e e'); congruence.
Qed.

(** A miss: the least recently used entry is reused for the slice. *)
Lemma replace_spec s lru chain lsa :
  BInv N s lru chain None → 0 ≤ lsa < LSA_NONE → (∀ i, ¬ caches N s None i lsa) →
  let c := (λ i, (i, slice_at s i)) <$> lru in
  wp (b <- Allocate N ;;
      (dataBuf.[b]∙bufLogicalSliceAddr ::= lsa ;; PutToHashList N b) ;; ret b)
    (λ b s', b = (lru_access c lsa).2 ∧ is_cache s' (lru_access c lsa).1) s.
Proof.
  intros HI Hlsa Hmiss c. subst c.
  destruct lru as [|x lru _] using rev_ind.
  { assert (0 ∈ []) as Hnil by (apply (bi_perm _ _ _ _ _ HI 0); lia). by apply elem_of_nil in Hnil. }
  apply wp_bind. eapply (Allocate_spec N HN); [exact HI|]. intros s1 chain1 HI1 Hkeep.
  assert (0 ≤ x < N) as Hx by (apply (bi_perm _ _ _ _ _ HI1); left).
  assert (∀ i, slice_at s1 i = slice_at s i ∨ b_dataBuf s !! i = None) as Hsl.
  { intros i. unfold slice_at. destruct (b_dataBuf s !! i) as [e|] eqn:E; [left|by right].
    destruct (Hkeep i e E) as (e' & -> & ? & _). done. }
  apply wp_bind. eapply (PutToHash_spec N HN); [exact HI1|done|done| |].
  { intros i (Hi & _ & e' & He' & Hl'). apply (Hmiss i). split; [done|split; [done|]].
    destruct (bi_ents _ _ _ _ _ HI i Hi) as [e He]. exists e. split; [done|].
    destruct (Hkeep i e He) as (? & ? & ? & _). congruence. }
  intros s2 chain2 HI2 Hc2 Hkeep2. apply wp_ret. unfold lru_access.
  rewrite take_slice_miss.
  2:{ apply Forall_fmap, Forall_forall. intros i Hi. cbn. intros E. apply (Hmiss i).
      rewrite <- E. by eapply slice_at_caches. }
  rewrite fmap_app, list.last_app. cbn. split; [done|]. exists (x :: lru), chain2. split; [done|].
  cbn. rewrite (caches_slice_at _ _ _ Hc2). f_equal.
  rewrite length_app, length_fmap. cbn.
  replace (length lru + 1 - 1)%nat with (length ((λ i, (i, slice_at s i)) <$> lru))
    by (rewrite length_fmap; lia). rewrite take_app_length.
  apply list_fmap_ext. intros k i Hk. f_equal.
  assert (i ≠ x) as Hix.
  { intros ->. pose proof (bi_lru _ _ _ _ _ HI1) as (_ & _ & _ & [Hn _]%NoDup_cons & _).
    apply Hn. by eapply list_elem_of_lookup_2. }
  assert (0 ≤ i < N) as Hi.
  { apply (bi_perm _ _ _ _ _ HI1). right. by eapply list_elem_of_lookup_2. }
  destruct (bi_ents _ _ _ _ _ HI i Hi) as [e He]. destruct (Hkeep i e He) as (e1 & He1 & E1 & _).
  destruct (Hkeep2 i e1 Hix He1) as (e2 & He2 & [E2 _]%pay_hash). unfold slice_at.
  rewrite He, He2. congruence.
Qed.

(** A hit: the entry moves to the front. *)
Lemma hit_spec s s' m1 b m2 chain lsa :
  BInv N s (m1 ++ b :: m2) chain None → 0 ≤ lsa < LSA_NONE → caches N s None b lsa →
  BInv N s' (b :: m1 ++ m2) chain None →
  relinked lru_links (b :: m1 ++ m2) (b_dataBuf s) (b_dataBuf s') →
  let c := (λ i, (i, slice_at s i)) <$> m1 ++ b :: m2 in
  b = (lru_access c lsa).2 ∧ is_cache s' (lru_access c lsa).1.
Proof.
  intros HI Hlsa Hc HI' Hrel c. subst c.
  unfold lru_access. rewrite fmap_app, fmap_cons, (caches_slice_at _ _ _ Hc).
  rewrite take_slice_hit.
  2:{ apply Forall_fmap, Forall_forall. intros i Hi. cbn. intros E.
      assert (i = b) as ->; [|pose proof (bi_lru _ _ _ _ _ HI) as (_ & _ & _ & Hnd & _);
        apply NoDup_app in Hnd as (_ & Hd & _); apply (Hd b Hi); left].
      apply (caches_unique s _ _ _ _ lsa HI); [lia| |exact Hc]. rewrite <- E.
      eapply slice_at_caches; [exact HI|set_solver]. }
  cbn. split; [done|]. exists (b :: m1 ++ m2), chain. split; [done|].
  assert (∀ i, slice_at s' i = slice_at s i) as Hsl.
  { intros i. unfold slice_at. destruct (b_dataBuf s !! i) as [e|] eqn:E.
    - destruct (relinked_lookup _ _ _ _ _ _ Hrel E) as (e' & -> & [-> _]%pay_lru). done.
    - destruct (b_dataBuf s' !! i) as [e'|] eqn:E'; [|done].
      destruct (relinked_lookup_inv _ _ _ _ _ _ Hrel E') as (? & ? & _). congruence. }
  rewrite fmap_cons, fmap_app. setoid_rewrite Hsl. by rewrite (caches_slice_at _ _ _ Hc).
Qed.

Lemma access_spec s c lsa :
  is_cache s c → 0 ≤ lsa < LSA_NONE →
  wp (access N lsa) (λ b s', b = (lru_access c lsa).2 ∧ is_cache s' (lru_access c lsa).1) s.
Proof.
  intros (lru & chain & HI & ->) Hlsa. apply wp_bind.
  eapply (CheckHit_spec N HN s lru chain None); [done|lia| |].
  - intros Hmiss. rewrite (proj2 (Z.eqb_eq _ _) eq_refl). by eapply replace_spec.
  - intros b s' m1 m2 -> Hc HI' Hrel _. assert (0 ≤ b < N) as Hb by apply Hc.
    rewrite (proj2 (Z.eqb_neq b DATA_BUF_FAIL)) by (unfold DATA_BUF_FAIL, DATA_BUF_NONE in *; lia).
    apply wp_ret. by eapply hit_spec.
Qed.

Lemma accesses_spec lsas s c :
  is_cache s c → Forall (λ lsa, 0 ≤ lsa < LSA_NONE) lsas →
  wp (accesses N lsas) (λ bs s', bs = (lru_accesses c lsas).2 ∧ is_cache s' (lru_accesses c lsas).1) s.
Proof.
  intros Hc Hl. revert s c Hc. induction Hl as [|lsa lsas Hlsa _ IH]; intros s c Hc; [done|].
  cbn [accesses lru_accesses]. apply wp_bind. eapply wp_mono; [by apply access_spec|].
  intros b s1 [-> Hc1]. destruct (lru_access c lsa) as [c1 b] eqn:E. cbn in Hc1 |- *.
  apply wp_bind. eapply wp_mono; [by apply IH|]. intros bs s2 [-> Hc2].
  destruct (lru_accesses c1 lsas) as [c2 bs] eqn:E2. by apply wp_ret.
Qed.
End refinement.

(** ** Properties *)

(** C5: both buffers are LRU caches.  From any contents of the memory,
    initialisation and any sequence of lookups, each followed on a miss by the
    eviction of the entry that Allocate picks, terminates without a failed
    assertion or bad access and returns the entries that an LRU cache returns: a
    slice that is cached is found, whatever its hash chain, and moves to the
    front; otherwise the least recently used entry is reused.  [N] is 47 entries
    per die for the data buffer and one per die for the R-Buf. *)
Theorem buffer_is_lru_cache `{ConfigOk} N s lsas :
  N = AVAILABLE_DATA_BUFFER_ENTRY_COUNT ∨ N = AVAILABLE_CCMD_DATA_BUFFER_ENTRY_COUNT →
  (∀ j, 0 ≤ j < N → is_Some (b_dataBuf s !! j) ∧ is_Some (b_hash s !! j)) →
  Forall (λ lsa, 0 ≤ lsa < LSA_NONE) lsas →
  let c := (λ i, (i, LSA_NONE)) <$> seqZ 0 N in
  wp (InitBuf N ;; accesses N lsas)
    (λ bs s', bs = (lru_accesses c lsas).2 ∧ is_cache N s' (lru_accesses c lsas).1) s.
Proof.
  intros HN Hs Hl c. assert (1 ≤ N < DATA_BUF_NONE) as HN'
    by (destruct HN as [-> | ->]; [apply data_buf_count_bound|apply ccmd_buf_count_bound]).
  apply wp_bind. eapply wp_mono; [by apply InitBuf_spec|]. intros ? s1 [HI Hnone].
  apply accesses_spec; [done| |done]. exists (seqZ 0 N), (λ _, []). split; [done|].
  apply list_fmap_ext. intros k i Hk. f_equal. apply list_elem_of_lookup_2, elem_of_seqZ in Hk.
  unfold slice_at. destruct (b_dataBuf s1 !! i) as [e|] eqn:E; [|done].
  symmetry. apply (Hnone i e); [lia|done].
Qed.

Definition tiny_BSt (n : nat) : BSt :=
  MkBSt (mk_array n (λ _, MkDATA_BUF_ENTRY 0 0 0 0 0 0 0)) (MkDATA_BUF_LIST 0 0)
    (mk_array n (λ _, MkDATA_BUF_LIST 0 0)).

Lemma buffer_is_lru_cache_witness :
  let _ := tiny_config in
  wp (InitBuf 47 ;; accesses 47 [5; 52; 5; 99; 52])
    (λ bs s', bs = [46; 45; 46; 44; 45]) (tiny_BSt 47).
Proof.
  intros C. eapply wp_mono.
  - apply (@buffer_is_lru_cache tiny_config tiny_config_ok 47); [left; reflexivity| |].
    + intros j Hj. unfold tiny_BSt. cbn [b_dataBuf b_hash].
      rewrite !lookup_mk_array by lia. eauto.
    + unfold LSA_NONE. repeat constructor; lia.
  - intros bs s' [-> _]. vm_compute. reflexivity.
Defined.
