(* ===== verification/AddrMap.v ===== *)
(** Address translation on the slice, block and die maps (address_translation.c)
    and the GC victim lists (garbage_collection.c): the operations that only
    touch those maps. *)
From S2P Require Import Prelude Dll Config ReqFormat ReqQueues.

(** The members [bad] and [free] are named [vBad] and [vFree]. *)
Record VIRTUAL_BLOCK_ENTRY := MkVIRTUAL_BLOCK_ENTRY {
  vBad : Z;  (** 1 bits *)
  vFree : Z;  (** 1 bits *)
  invalidSliceCnt : Z;  (** 16 bits *)
  currentPage : Z;  (** 16 bits *)
  eraseCnt : Z;  (** 16 bits *)
  prevBlock : Z;  (** 16 bits *)
  nextBlock : Z;  (** 16 bits *)
}.
#[global] Instance set_vBad : Field vBad := λ v r,
  MkVIRTUAL_BLOCK_ENTRY (wrap 1 v) (vFree r) (invalidSliceCnt r) (currentPage r) (eraseCnt r) (prevBlock r) (nextBlock r).
#[global] Instance set_vFree : Field vFree := λ v r,
  MkVIRTUAL_BLOCK_ENTRY (vBad r) (wrap 1 v) (invalidSliceCnt r) (currentPage r) (eraseCnt r) (prevBlock r) (nextBlock r).
#[global] Instance set_invalidSliceCnt : Field invalidSliceCnt := λ v r,
  MkVIRTUAL_BLOCK_ENTRY (vBad r) (vFree r) (wrap 16 v) (currentPage r) (eraseCnt r) (prevBlock r) (nextBlock r).
#[global] Instance set_currentPage : Field currentPage := λ v r,
  MkVIRTUAL_BLOCK_ENTRY (vBad r) (vFree r) (invalidSliceCnt r) (wrap 16 v) (eraseCnt r) (prevBlock r) (nextBlock r).
#[global] Instance set_eraseCnt : Field eraseCnt := λ v r,
  MkVIRTUAL_BLOCK_ENTRY (vBad r) (vFree r) (invalidSliceCnt r) (currentPage r) (wrap 16 v) (prevBlock r) (nextBlock r).
#[global] Instance set_prevBlock : Field prevBlock := λ v r,
  MkVIRTUAL_BLOCK_ENTRY (vBad r) (vFree r) (invalidSliceCnt r) (currentPage r) (eraseCnt r) (wrap 16 v) (nextBlock r).
#[global] Instance set_nextBlock : Field nextBlock := λ v r,
  MkVIRTUAL_BLOCK_ENTRY (vBad r) (vFree r) (invalidSliceCnt r) (currentPage r) (eraseCnt r) (prevBlock r) (wrap 16 v).

(** The members [prevDie] and [nextDie] are never used. *)
Record VIRTUAL_DIE_ENTRY := MkVIRTUAL_DIE_ENTRY {
  currentBlock : Z;  (** 16 bits *)
  headFreeBlock : Z;  (** 16 bits *)
  tailFreeBlock : Z;  (** 16 bits *)
  freeBlockCnt : Z;  (** 16 bits *)
}.
#[global] Instance set_currentBlock : Field currentBlock := λ v r,
  MkVIRTUAL_DIE_ENTRY (wrap 16 v) (headFreeBlock r) (tailFreeBlock r) (freeBlockCnt r).
#[global] Instance set_headFreeBlock : Field headFreeBlock := λ v r,
  MkVIRTUAL_DIE_ENTRY (currentBlock r) (wrap 16 v) (tailFreeBlock r) (freeBlockCnt r).
#[global] Instance set_tailFreeBlock : Field tailFreeBlock := λ v r,
  MkVIRTUAL_DIE_ENTRY (currentBlock r) (headFreeBlock r) (wrap 16 v) (freeBlockCnt r).
#[global] Instance set_freeBlockCnt : Field freeBlockCnt := λ v r,
  MkVIRTUAL_DIE_ENTRY (currentBlock r) (headFreeBlock r) (tailFreeBlock r) (wrap 16 v).

Record GC_VICTIM_LIST_ENTRY := MkGC_VICTIM_LIST_ENTRY {
  headBlock : Z;  (** 16 bits *)
  tailBlock : Z;  (** 16 bits *)
}.
#[global] Instance set_headBlock : Field headBlock := λ v r,
  MkGC_VICTIM_LIST_ENTRY (wrap 16 v) (tailBlock r).
#[global] Instance set_tailBlock : Field tailBlock := λ v r,
  MkGC_VICTIM_LIST_ENTRY (headBlock r) (wrap 16 v).

(** The maps, the next die to allocate from and the static variables of
    FindDieForFreeSliceAllocation.  An entry of a slice map is one word. *)
Record ASt := MkASt {
  a_logicalSlice : gmap Z Z;
  a_virtualSlice : gmap Z Z;
  a_block : gmap Z (gmap Z VIRTUAL_BLOCK_ENTRY);
  a_die : gmap Z VIRTUAL_DIE_ENTRY;
  a_gcVictim : gmap (Z * Z) GC_VICTIM_LIST_ENTRY;
  a_targetDie : Z;  (** 8 bits *)
  a_targetCh : Z;  (** 8 bits *)
  a_targetWay : Z;  (** 8 bits *)
}.
#[global] Instance set_a_logicalSlice : Field a_logicalSlice := λ v r,
  MkASt v (a_virtualSlice r) (a_block r) (a_die r) (a_gcVictim r) (a_targetDie r) (a_targetCh r) (a_targetWay r).
#[global] Instance set_a_virtualSlice : Field a_virtualSlice := λ v r,
  MkASt (a_logicalSlice r) v (a_block r) (a_die r) (a_gcVictim r) (a_targetDie r) (a_targetCh r) (a_targetWay r).
#[global] Instance set_a_block : Field a_block := λ v r,
  MkASt (a_logicalSlice r) (a_virtualSlice r) v (a_die r) (a_gcVictim r) (a_targetDie r) (a_targetCh r) (a_targetWay r).
#[global] Instance set_a_die : Field a_die := λ v r,
  MkASt (a_logicalSlice r) (a_virtualSlice r) (a_block r) v (a_gcVictim r) (a_targetDie r) (a_targetCh r) (a_targetWay r).
#[global] Instance set_a_gcVictim : Field a_gcVictim := λ v r,
  MkASt (a_logicalSlice r) (a_virtualSlice r) (a_block r) (a_die r) v (a_targetDie r) (a_targetCh r) (a_targetWay r).
#[global] Instance set_a_targetDie : Field a_targetDie := λ v r,
  MkASt (a_logicalSlice r) (a_virtualSlice r) (a_block r) (a_die r) (a_gcVictim r) (wrap 8 v) (a_targetCh r) (a_targetWay r).
#[global] Instance set_a_targetCh : Field a_targetCh := λ v r,
  MkASt (a_logicalSlice r) (a_virtualSlice r) (a_block r) (a_die r) (a_gcVictim r) (a_targetDie r) (wrap 8 v) (a_targetWay r).
#[global] Instance set_a_targetWay : Field a_targetWay := λ v r,
  MkASt (a_logicalSlice r) (a_virtualSlice r) (a_block r) (a_die r) (a_gcVictim r) (a_targetDie r) (a_targetCh r) (wrap 8 v).

Definition logicalSlice : lval ASt (gmap Z Z) := glob a_logicalSlice.
Definition virtualSlice : lval ASt (gmap Z Z) := glob a_virtualSlice.
Definition vBlock : lval ASt (gmap Z (gmap Z VIRTUAL_BLOCK_ENTRY)) := glob a_block.
Definition vDie : lval ASt (gmap Z VIRTUAL_DIE_ENTRY) := glob a_die.
Definition gcVictimList : lval ASt (gmap (Z * Z) GC_VICTIM_LIST_ENTRY) := glob a_gcVictim.
Definition sliceAllocationTargetDie : lval ASt Z := glob a_targetDie.
Definition targetCh : lval ASt Z := glob a_targetCh.
Definition targetWay : lval ASt Z := glob a_targetWay.

Definition block_links : links VIRTUAL_BLOCK_ENTRY :=
  Links _ BLOCK_NONE prevBlock nextBlock (fset prevBlock) (fset nextBlock).

Section operations.
Context `{Config}.

(** ** Free blocks *)

(** Apply a list idiom to the free block list of a die, or to a victim list. *)
Definition fb_relink
    (op : gmap Z VIRTUAL_BLOCK_ENTRY → Z → Z → option (gmap Z VIRTUAL_BLOCK_ENTRY * (Z * Z)))
    (dieNo : Z) : M ASt unit :=
  blocks <- !(vBlock.[dieNo]) ;;
  h <- !(vDie.[dieNo]∙headFreeBlock) ;; t <- !(vDie.[dieNo]∙tailFreeBlock) ;;
  '(blocks', (h', t')) <- from_option (op blocks h t) ;;
  vBlock.[dieNo] ::= blocks' ;;
  vDie.[dieNo]∙headFreeBlock ::= h' ;; vDie.[dieNo]∙tailFreeBlock ::= t'.
Definition gc_relink
    (op : gmap Z VIRTUAL_BLOCK_ENTRY → Z → Z → option (gmap Z VIRTUAL_BLOCK_ENTRY * (Z * Z)))
    (dieNo cnt : Z) : M ASt unit :=
  blocks <- !(vBlock.[dieNo]) ;;
  h <- !(gcVictimList.[(dieNo, cnt)]∙headBlock) ;; t <- !(gcVictimList.[(dieNo, cnt)]∙tailBlock) ;;
  '(blocks', (h', t')) <- from_option (op blocks h t) ;;
  vBlock.[dieNo] ::= blocks' ;;
  gcVictimList.[(dieNo, cnt)]∙headBlock ::= h' ;; gcVictimList.[(dieNo, cnt)]∙tailBlock ::= t'.

Definition PutToFbList (dieNo blockNo : Z) : M ASt unit :=
  fb_relink (λ b h t, put_tail block_links b h t blockNo) dieNo ;;
  incr (vDie.[dieNo]∙freeBlockCnt).

Definition GetFromFbList (dieNo getFreeBlockOption : Z) : M ASt Z :=
  evictedBlockNo <- !(vDie.[dieNo]∙headFreeBlock) ;;
  n <- !(vDie.[dieNo]∙freeBlockCnt) ;;
  none <- (if getFreeBlockOption =? GET_FREE_BLOCK_NORMAL then
             ret (n <=? RESERVED_FREE_BLOCK_COUNT)
           else if getFreeBlockOption =? GET_FREE_BLOCK_GC then
             ret (evictedBlockNo =? BLOCK_NONE)
           else fail Assert) ;;
  if (none : bool) then ret BLOCK_FAIL else
  fb_relink (λ b h t, pop_head block_links b h t) dieNo ;;
  vBlock.[dieNo].[evictedBlockNo]∙vFree ::= 0 ;;
  decr (vDie.[dieNo]∙freeBlockCnt) ;;
  vBlock.[dieNo].[evictedBlockNo]∙nextBlock ::= BLOCK_NONE ;;
  vBlock.[dieNo].[evictedBlockNo]∙prevBlock ::= BLOCK_NONE ;;
  ret evictedBlockNo.

(** ** GC victims: the blocks of a die with [cnt] invalid slices *)

Definition InitGcVictimMap : M ASt unit :=
  for_range 0 USER_DIES (λ dieNo,
    for_range 0 (SLICES_PER_BLOCK + 1) (λ cnt,
      gcVictimList.[(dieNo, cnt)]∙headBlock ::= BLOCK_NONE ;;
      gcVictimList.[(dieNo, cnt)]∙tailBlock ::= BLOCK_NONE)).

Definition PutToGcVictimList (dieNo blockNo cnt : Z) : M ASt unit :=
  gc_relink (λ b h t, put_tail block_links b h t blockNo) dieNo cnt.

(** From the most invalid slices down to one. *)
Definition GetFromGcVictimList (dieNo : Z) : M ASt Z :=
  loop (Datatypes.S (Z.to_nat SLICES_PER_BLOCK)) (λ cnt,
    if cnt >? 0 then
      evictedBlockNo <- !(gcVictimList.[(dieNo, cnt)]∙headBlock) ;;
      if negb (evictedBlockNo =? BLOCK_NONE) then
        gc_relink (λ b h t, pop_head block_links b h t) dieNo cnt ;;
        ret (inr evictedBlockNo)
      else ret (inl (cnt - 1))
    else fail Assert) SLICES_PER_BLOCK.

Definition SelectiveGetFromGcVictimList (dieNo blockNo : Z) : M ASt unit :=
  cnt <- !(vBlock.[dieNo].[blockNo]∙invalidSliceCnt) ;;
  gc_relink (λ b h t, selective_get block_links b h t blockNo) dieNo cnt.

(** ** Slices *)

Definition InitSliceMap : M ASt unit :=
  for_range 0 SLICES_PER_SSD (λ sliceAddr,
    logicalSlice.[sliceAddr] ::= VSA_NONE ;;
    virtualSlice.[sliceAddr] ::= LSA_NONE).

Definition InitDieMap : M ASt unit :=
  for_range 0 USER_DIES (λ dieNo,
    vDie.[dieNo]∙headFreeBlock ::= BLOCK_NONE ;;
    vDie.[dieNo]∙tailFreeBlock ::= BLOCK_NONE ;;
    vDie.[dieNo]∙freeBlockCnt ::= 0).

Definition InitCurrentBlockOfDieMap : M ASt unit :=
  for_range 0 USER_DIES (λ dieNo,
    b <- GetFromFbList dieNo GET_FREE_BLOCK_NORMAL ;;
    vDie.[dieNo]∙currentBlock ::= b ;;
    c <- !(vDie.[dieNo]∙currentBlock) ;;
    when (c =? BLOCK_FAIL) (fail Assert)).

Definition AddrTransRead (logicalSliceAddr : Z) : M ASt Z :=
  if logicalSliceAddr <? SLICES_PER_SSD then
    virtualSliceAddr <- !(logicalSlice.[logicalSliceAddr]) ;;
    ret (if negb (virtualSliceAddr =? VSA_NONE) then virtualSliceAddr else VSA_FAIL)
  else fail Assert.

Definition InvalidateOldVsa (logicalSliceAddr : Z) : M ASt unit :=
  virtualSliceAddr <- !(logicalSlice.[logicalSliceAddr]) ;;
  when (negb (virtualSliceAddr =? VSA_NONE))
    (lsa <- !(virtualSlice.[virtualSliceAddr]) ;;
     when (lsa =? logicalSliceAddr)
       (let dieNo := Vsa2VdieTranslation virtualSliceAddr in
        let blockNo := Vsa2VblockTranslation virtualSliceAddr in
        SelectiveGetFromGcVictimList dieNo blockNo ;;
        incr (vBlock.[dieNo].[blockNo]∙invalidSliceCnt) ;;
        logicalSlice.[logicalSliceAddr] ::= VSA_NONE ;;
        cnt <- !(vBlock.[dieNo].[blockNo]∙invalidSliceCnt) ;;
        PutToGcVictimList dieNo blockNo cnt)).

(** Channels first, then ways. *)
Definition FindDieForFreeSliceAllocation : M ASt Z :=
  c <- !targetCh ;; w <- !targetWay ;;
  (if negb (c =? USER_CHANNELS - 1) then targetCh ::= c + 1
   else targetCh ::= 0 ;; targetWay ::= (w + 1) mod USER_WAYS) ;;
  ret (Pcw2VdieTranslation c w).

(** The next page of the current block: the end of both FindFreeVirtualSlice functions. *)
Definition next_slice (dieNo blockNo : Z) : M ASt Z :=
  p <- !(vBlock.[dieNo].[blockNo]∙currentPage) ;;
  incr (vBlock.[dieNo].[blockNo]∙currentPage) ;;
  ret (Vorg2VsaTranslation dieNo blockNo p).

Definition FindFreeVirtualSliceForGc (copyTargetDieNo victimBlockNo : Z) : M ASt Z :=
  let dieNo := copyTargetDieNo in
  c <- !(vDie.[dieNo]∙currentBlock) ;;
  when (victimBlockNo =? c)
    (b <- GetFromFbList dieNo GET_FREE_BLOCK_GC ;;
     vDie.[dieNo]∙currentBlock ::= b ;;
     b <- !(vDie.[dieNo]∙currentBlock) ;;
     when (b =? BLOCK_FAIL) (fail Assert)) ;;
  c <- !(vDie.[dieNo]∙currentBlock) ;;
  p <- !(vBlock.[dieNo].[c]∙currentPage) ;;
  c <- (if p =? USER_PAGES_PER_BLOCK then
          b <- GetFromFbList dieNo GET_FREE_BLOCK_GC ;;
          if negb (b =? BLOCK_FAIL) then vDie.[dieNo]∙currentBlock ::= b ;; ret b
          else fail Assert
        else if p >? USER_PAGES_PER_BLOCK then fail Assert
        else ret c) ;;
  next_slice dieNo c.

(** EraseBlock after its erase request: the block is free and its slices unmapped. *)
Definition forget_block (dieNo blockNo : Z) : M ASt unit :=
  vBlock.[dieNo].[blockNo]∙vFree ::= 1 ;;
  incr (vBlock.[dieNo].[blockNo]∙eraseCnt) ;;
  vBlock.[dieNo].[blockNo]∙invalidSliceCnt ::= 0 ;;
  vBlock.[dieNo].[blockNo]∙currentPage ::= 0 ;;
  PutToFbList dieNo blockNo ;;
  for_range 0 USER_PAGES_PER_BLOCK (λ pageNo,
    virtualSlice.[Vorg2VsaTranslation dieNo blockNo pageNo] ::= LSA_NONE).
End operations.
