(* ===== verification/AddrInv.v ===== *)
(** The invariant of the address maps: the free and victim lists of every die,
    and the agreement of the logical and the virtual slice map; every operation
    of AddrMap.v preserves it. *)
From stdpp Require Import functions.
From S2P Require Import Prelude Frame Dll Config ReqFormat ReqQueues AddrMap.

#[global] Instance block_links_ok : LinksOk block_links.
Proof.
  split; try done.
  - intros v n Hv. cbn. apply wrap_small. unfold block_links, BLOCK_NONE in Hv. cbn in Hv. lia.
  - intros v n Hv. cbn. apply wrap_small. unfold block_links, BLOCK_NONE in Hv. cbn in Hv. lia.
Qed.

(** The lists of a die. *)
Inductive block_list := FreeL | VictimL (cnt : Z).
#[global] Instance block_list_eq : EqDecision block_list.
Proof. solve_decision. Defined.

(** What the slice maps need to know of a block: programmed pages and invalid
    slices. *)
Definition block_core (n : VIRTUAL_BLOCK_ENTRY) : Z * Z := (currentPage n, invalidSliceCnt n).

Section lists.
Context `{ConfigOk}.
Implicit Types (d b c h t : Z) (m : gmap Z VIRTUAL_BLOCK_ENTRY) (e : VIRTUAL_DIE_ENTRY)
  (g : Z → option GC_VICTIM_LIST_ENTRY) (Q : block_list → list Z) (mov : Z → Prop).

(** ** The lists of one die *)

Definition list_head e g (i : block_list) : Z :=
  match i with
  | FreeL => headFreeBlock e
  | VictimL c => match g c with Some v => headBlock v | None => BLOCK_NONE end
  end.
Definition list_tail e g (i : block_list) : Z :=
  match i with
  | FreeL => tailFreeBlock e
  | VictimL c => match g c with Some v => tailBlock v | None => BLOCK_NONE end
  end.

(** The blocks a list may hold. *)
Definition listed (i : block_list) (n : VIRTUAL_BLOCK_ENTRY) : Prop :=
  match i with
  | FreeL => block_core n = (0, 0)
  | VictimL c => invalidSliceCnt n = c ∧ 0 < c ≤ SLICES_PER_BLOCK
  end.

(** [mov]: the blocks on their way between two lists. *)
Record DieInv mov m e g Q : Prop := {
  di_blocks : array USER_BLOCKS_PER_DIE m;
  di_victims c : 0 ≤ c ≤ SLICES_PER_BLOCK → is_Some (g c);
  di_lists : family block_links m (list_head e g) (list_tail e g) Q;
  di_cnt : freeBlockCnt e = Z.of_nat (length (Q FreeL));
  di_listed b n i : b ∈ Q i → m !! b = Some n → listed i n;
  di_idle b n :
    m !! b = Some n → (∀ i, b ∉ Q i) → ¬ mov b →
    prevBlock n = BLOCK_NONE ∧ nextBlock n = BLOCK_NONE ∧ invalidSliceCnt n = 0;
  di_moving b : mov b → ∀ i, b ∉ Q i;
  di_current : 0 ≤ currentBlock e < USER_BLOCKS_PER_DIE ∧ currentBlock e ∉ Q FreeL;
}.

Lemma DieInv_mov mov mov' m e g Q :
  (∀ b, mov b ↔ mov' b) → DieInv mov m e g Q → DieInv mov' m e g Q.
Proof.
  intros Hm [????? Hidle Hmov ?]. split; try done.
  - intros b n Hb Hi Hm'. apply (Hidle b); [done|done|]. by rewrite Hm.
  - intros b Hb. by apply Hmov, Hm.
Qed.

Lemma block_core_pay n n' :
  pay block_links n' = pay block_links n → block_core n' = block_core n.
Proof. destruct n, n'. cbv. intros [=]. by subst. Qed.

Lemma listed_core i n n' : block_core n' = block_core n → listed i n → listed i n'.
Proof. destruct i; cbn; unfold block_core; [congruence|]. intros [= _ ->]. done. Qed.

Lemma block_range m b n : array USER_BLOCKS_PER_DIE m → m !! b = Some n → 0 ≤ b < BLOCK_NONE.
Proof. intros Ha Hb. apply (array_range _ _ _ _ Ha) in Hb. geometry. unfold BLOCK_NONE. lia. Qed.

Lemma family_ends m hd hd' tl tl' Q :
  (∀ i, hd' i = hd i) → (∀ i, tl' i = tl i) →
  family block_links m hd tl Q → family block_links m hd' tl' Q.
Proof. intros Hh Ht [Hd Hq]. split; [|done]. intros i. rewrite Hh, Ht. apply Hd. Qed.

(** Replacing one list of a die. *)
Lemma die_relink mov mov' m m' e e' g g' Q i h t l R :
  DieInv mov m e g Q →
  family block_links m' (<[i:=h]> (list_head e g)) (<[i:=t]> (list_tail e g)) (<[i:=l]> Q) →
  relinked block_links R m m' → (∀ b, b ∈ R → b ∈ l) →
  (∀ j, list_head e' g' j = <[i:=h]> (list_head e g) j) →
  (∀ j, list_tail e' g' j = <[i:=t]> (list_tail e g) j) →
  (∀ c, is_Some (g c) → is_Some (g' c)) →
  freeBlockCnt e' = Z.of_nat (length (<[i:=l]> Q FreeL)) →
  currentBlock e' = currentBlock e → currentBlock e ∉ <[i:=l]> Q FreeL →
  (∀ b n, b ∈ l → m !! b = Some n → b ∈ Q i ∨ listed i n) →
  (∀ b, mov' b → (b ∉ l) ∧ (mov b ∨ b ∈ Q i ∨ ∀ j, b ∉ Q j)) →
  (∀ b, mov b ∨ b ∈ Q i → b ∈ l ∨ mov' b) →
  DieInv mov' m' e' g' (<[i:=l]> Q).
Proof.
  intros [Hb Hv Hf Hc Hl Hi Hm Hcur] Hf' Hr HR Hh Ht Hg Hc' He' Hcur' Hnew Hmov' Hkeep. split.
  - by eapply relinked_array.
  - intros c Hcr. by apply Hg, Hv.
  - by eapply family_ends.
  - done.
  - intros b n' j Hbj Hn'. destruct (relinked_lookup_inv _ _ _ _ _ _ Hr Hn') as (n & Hn & Hp).
    apply block_core_pay in Hp. apply (listed_core _ n); [done|].
    destruct (decide (i = j)) as [<-|Hij].
    + rewrite fn_lookup_insert in Hbj. destruct (Hnew b n Hbj Hn); [by eapply Hl|done].
    + rewrite fn_lookup_insert_ne in Hbj by done. by eapply Hl.
  - intros b n Hn Hnot Hnm. pose proof (Hnot i) as Hbl. rewrite fn_lookup_insert in Hbl.
    assert (¬ mov b ∧ b ∉ Q i) as [Hnm0 Hbi].
    { split; intros Hx; destruct (Hkeep b); auto. }
    apply (Hi b); [|intros j|done].
    + rewrite <- Hn. symmetry. apply Hr. by intros ?%HR.
    + destruct (decide (i = j)) as [<-|Hij]; [done|].
      specialize (Hnot j). by rewrite fn_lookup_insert_ne in Hnot.
  - intros b [Hbl Hor]%Hmov' j. destruct (decide (i = j)) as [<-|Hij].
    + by rewrite fn_lookup_insert.
    + rewrite fn_lookup_insert_ne by done. destruct Hor as [Hor|[Hor|Hor]]; [by apply Hm| |done].
      intros Hbj. apply Hij. by eapply (proj2 Hf).
  - rewrite He'. split; [apply Hcur|done].
Qed.

(** ** The lists of all dies *)

Implicit Types (s : ASt) (D : list (Z * Z)).

Definition Die s d mov Q : Prop :=
  ∃ m e, a_block s !! d = Some m ∧ a_die s !! d = Some e ∧
    DieInv mov m e (λ c, a_gcVictim s !! (d, c)) Q.

(** [D]: the blocks on their way between two lists. *)
Definition Lists D (Q : Z → block_list → list Z) s : Prop :=
  array USER_DIES (a_die s) ∧ ∀ d, 0 ≤ d < USER_DIES → Die s d (λ b, (d, b) ∈ D) (Q d).

(** What the list operations leave alone. *)
Definition core s d b : option (Z * Z) := m ← a_block s !! d; block_core <$> m !! b.
Definition current s d : option Z := currentBlock <$> a_die s !! d.
Definition targets s : Z * Z * Z := (a_targetDie s, a_targetCh s, a_targetWay s).
Definition only_lists s s' : Prop :=
  a_logicalSlice s' = a_logicalSlice s ∧ a_virtualSlice s' = a_virtualSlice s ∧
  targets s' = targets s ∧ (∀ d b, core s' d b = core s d b) ∧ (∀ d, current s' d = current s d).

(** New lists for one die. *)
Definition set_lists d m e (gc : gmap (Z * Z) GC_VICTIM_LIST_ENTRY) s : ASt :=
  MkASt (a_logicalSlice s) (a_virtualSlice s) (<[d:=m]> (a_block s)) (<[d:=e]> (a_die s)) gc
    (a_targetDie s) (a_targetCh s) (a_targetWay s).

Lemma Lists_set D D' QQ s d m e gc Q' :
  Lists D QQ s → 0 ≤ d < USER_DIES →
  (∀ d' c, d' ≠ d → gc !! (d', c) = a_gcVictim s !! (d', c)) →
  (∀ d' b, d' ≠ d → (d', b) ∈ D ↔ (d', b) ∈ D') →
  DieInv (λ b, (d, b) ∈ D') m e (λ c, gc !! (d, c)) Q' →
  Lists D' (<[d:=Q']> QQ) (set_lists d m e gc s).
Proof.
  intros [Ha Hd] Hdr Hgc HD Hi. split; [by apply array_insert|].
  intros d' Hd'. destruct (decide (d = d')) as [<-|Hne].
  - exists m, e. rewrite fn_lookup_insert. cbn. by rewrite !lookup_insert_eq.
  - rewrite fn_lookup_insert_ne by done. destruct (Hd d' Hd') as (m' & e' & Hm & He & Hi').
    exists m', e'. cbn. rewrite !lookup_insert_ne by done. split_and!; [done|done|].
    eapply (DieInv_mov (λ b, (d', b) ∈ D)); [intros b; by apply HD|].
    destruct Hi' as [?? Hf ?????]. split; try done.
    + intros c Hc. rewrite Hgc by done. auto.
    + eapply family_ends; [| |exact Hf]; intros []; cbn; rewrite ?Hgc by done; done.
Qed.

Lemma relinked_core R m m' :
  relinked block_links R m m' → ∀ b, block_core <$> m' !! b = block_core <$> m !! b.
Proof.
  intros Hr b. destruct (m !! b) as [n|] eqn:Hn.
  - destruct (relinked_lookup _ _ _ _ _ _ Hr Hn) as (n' & -> & Hp).
    cbn. by rewrite (block_core_pay _ _ Hp).
  - destruct (m' !! b) as [n'|] eqn:Hn'; [|done].
    destruct (relinked_lookup_inv _ _ _ _ _ _ Hr Hn') as (? & ? & _). congruence.
Qed.

Lemma only_lists_set d m m' e e' gc s :
  a_block s !! d = Some m → a_die s !! d = Some e →
  (∀ b, block_core <$> m' !! b = block_core <$> m !! b) → currentBlock e' = currentBlock e →
  only_lists s (set_lists d m' e' gc s).
Proof.
  intros Hm He Hr Hc. split_and!; try done.
  - intros d' b. unfold core. cbn. rewrite lookup_insert.
    case_decide as Hdd; [|done]. subst d'. rewrite Hm. apply Hr.
  - intros d'. unfold current. cbn. rewrite lookup_insert.
    case_decide as Hdd; [|done]. subst d'. rewrite He. cbn. by rewrite Hc.
Qed.

(** ** Single assignments *)

Lemma set_lists_twice d m m' e e' gc gc' s :
  set_lists d m' e' gc' (set_lists d m e gc s) = set_lists d m' e' gc' s.
Proof. unfold set_lists. cbn. by rewrite !insert_insert_eq. Qed.

Lemma set_lists_block d m e gc s : a_block (set_lists d m e gc s) !! d = Some m.
Proof. cbn. by rewrite lookup_insert_eq. Qed.
Lemma set_lists_die d m e gc s : a_die (set_lists d m e gc s) !! d = Some e.
Proof. cbn. by rewrite lookup_insert_eq. Qed.

Lemma set_lists_gc d m e gc s : a_gcVictim (set_lists d m e gc s) = gc.
Proof. done. Qed.

Section assignments.
Context {s : ASt} {d : Z} {m : gmap Z VIRTUAL_BLOCK_ENTRY} {e : VIRTUAL_DIE_ENTRY}
  (Hm : a_block s !! d = Some m) (He : a_die s !! d = Some e).

Lemma wp_block_load b f `{!Field f} n (Φ : Z → ASt → Prop) :
  m !! b = Some n → Φ (f n) s → wp (load vBlock.[d].[b]∙f) Φ s.
Proof using Hm. intros Hn HΦ. apply (wp_load _ (f n)); [|done]. cbn. rewrite Hm. cbn. by rewrite Hn. Qed.

Lemma wp_block_store b f `{!Field f} n (v : Z) (Φ : unit → ASt → Prop) :
  m !! b = Some n → Φ tt (set_lists d (<[b:=fset f v n]> m) e (a_gcVictim s) s) →
  wp (vBlock.[d].[b]∙f ::= v) Φ s.
Proof using Hm He.
  intros Hn HΦ. apply (wp_store _ (f n)); [cbn; rewrite Hm; cbn; by rewrite Hn|].
  cbn. rewrite Hm. cbn. rewrite Hn. unfold set_lists in HΦ. by rewrite (insert_id (a_die s)) in HΦ.
Qed.

Lemma wp_block_modify b f `{!Field f} n (h : Z → Z) (Φ : unit → ASt → Prop) :
  m !! b = Some n → Φ tt (set_lists d (<[b:=fset f (h (f n)) n]> m) e (a_gcVictim s) s) →
  wp (modify vBlock.[d].[b]∙f h) Φ s.
Proof using Hm He.
  intros Hn HΦ. apply (wp_modify _ _ (f n)); [cbn; rewrite Hm; cbn; by rewrite Hn|].
  cbn. rewrite Hm. cbn. rewrite Hn. unfold set_lists in HΦ. by rewrite (insert_id (a_die s)) in HΦ.
Qed.

Lemma wp_die_load f `{!Field f} (Φ : Z → ASt → Prop) :
  Φ (f e) s → wp (load vDie.[d]∙f) Φ s.
Proof using He. intros HΦ. apply (wp_load _ (f e)); [|done]. cbn. by rewrite He. Qed.

Lemma wp_die_store f `{!Field f} (v : Z) (Φ : unit → ASt → Prop) :
  Φ tt (set_lists d m (fset f v e) (a_gcVictim s) s) → wp (vDie.[d]∙f ::= v) Φ s.
Proof using Hm He.
  intros HΦ. apply (wp_store _ (f e)); [cbn; by rewrite He|].
  cbn. rewrite He. unfold set_lists in HΦ. by rewrite (insert_id (a_block s)) in HΦ.
Qed.

Lemma wp_die_modify f `{!Field f} (h : Z → Z) (Φ : unit → ASt → Prop) :
  Φ tt (set_lists d m (fset f (h (f e)) e) (a_gcVictim s) s) → wp (modify vDie.[d]∙f h) Φ s.
Proof using Hm He.
  intros HΦ. apply (wp_modify _ _ (f e)); [cbn; by rewrite He|].
  cbn. rewrite He. unfold set_lists in HΦ. by rewrite (insert_id (a_block s)) in HΦ.
Qed.
End assignments.

Lemma wp_fb_relink op d m e m' h t (Φ : unit → ASt → Prop) s :
  a_block s !! d = Some m → a_die s !! d = Some e →
  op m (headFreeBlock e) (tailFreeBlock e) = Some (m', (h, t)) →
  0 ≤ h ≤ BLOCK_NONE → 0 ≤ t ≤ BLOCK_NONE →
  Φ tt (set_lists d m' (MkVIRTUAL_DIE_ENTRY (currentBlock e) h t (freeBlockCnt e))
          (a_gcVictim s) s) →
  wp (fb_relink op d) Φ s.
Proof.
  unfold BLOCK_NONE. intros Hm He Hop Hh Ht HΦ. unfold fb_relink, vBlock, vDie.
  apply wp_bind, (wp_load _ m); [by lv_simpl; rewrite Hm|].
  apply wp_bind, (wp_load _ (headFreeBlock e)); [by lv_simpl; rewrite He|].
  apply wp_bind, (wp_load _ (tailFreeBlock e)); [by lv_simpl; rewrite He|].
  apply wp_bind, (wp_from_option _ (m', (h, t))); [done|].
  apply wp_bind, (wp_store _ m); [by cbn; rewrite Hm|].
  apply wp_bind, (wp_store _ (headFreeBlock e)); [by cbn; rewrite He|].
  apply (wp_store _ (tailFreeBlock e)); [by cbn; rewrite He; cbn; rewrite lookup_insert_eq|].
  cbn. rewrite He. cbn. rewrite lookup_insert_eq. cbn. rewrite insert_insert_eq.
  unfold fset, set_headFreeBlock, set_tailFreeBlock. cbn. by rewrite !wrap_small by lia.
Qed.

Lemma wp_gc_relink op d c m e v m' h t (Φ : unit → ASt → Prop) s :
  a_block s !! d = Some m → a_die s !! d = Some e → a_gcVictim s !! (d, c) = Some v →
  op m (headBlock v) (tailBlock v) = Some (m', (h, t)) →
  0 ≤ h ≤ BLOCK_NONE → 0 ≤ t ≤ BLOCK_NONE →
  Φ tt (set_lists d m' e (<[(d, c) := MkGC_VICTIM_LIST_ENTRY h t]> (a_gcVictim s)) s) →
  wp (gc_relink op d c) Φ s.
Proof.
  unfold BLOCK_NONE. intros Hm He Hv Hop Hh Ht HΦ. unfold gc_relink, vBlock, gcVictimList.
  apply wp_bind, (wp_load _ m); [by lv_simpl; rewrite Hm|].
  apply wp_bind, (wp_load _ (headBlock v)); [by lv_simpl; rewrite Hv|].
  apply wp_bind, (wp_load _ (tailBlock v)); [by lv_simpl; rewrite Hv|].
  apply wp_bind, (wp_from_option _ (m', (h, t))); [done|].
  apply wp_bind, (wp_store _ m); [by cbn; rewrite Hm|].
  apply wp_bind, (wp_store _ (headBlock v)); [by cbn; rewrite Hv|].
  apply (wp_store _ (tailBlock v)); [by cbn; rewrite Hv; cbn; rewrite lookup_insert_eq|].
  cbn. rewrite Hv. cbn. rewrite lookup_insert_eq. cbn. rewrite insert_insert_eq.
  unfold set_lists in HΦ. rewrite (insert_id (a_die s)) in HΦ by done.
  unfold fset, set_headBlock, set_tailBlock. cbn. by rewrite !wrap_small by lia.
Qed.

(** ** One list of a die changes *)

Lemma die_relink_victim mov mov' m m' e g g' Q c h t l R :
  DieInv mov m e g Q →
  family block_links m' (<[VictimL c:=h]> (list_head e g)) (<[VictimL c:=t]> (list_tail e g))
    (<[VictimL c:=l]> Q) →
  relinked block_links R m m' → (∀ b, b ∈ R → b ∈ l) →
  g' c = Some (MkGC_VICTIM_LIST_ENTRY h t) → (∀ c', c' ≠ c → g' c' = g c') →
  (∀ b n, b ∈ l → m !! b = Some n → b ∈ Q (VictimL c) ∨ listed (VictimL c) n) →
  (∀ b, mov' b → (b ∉ l) ∧ (mov b ∨ b ∈ Q (VictimL c) ∨ ∀ j, b ∉ Q j)) →
  (∀ b, mov b ∨ b ∈ Q (VictimL c) → b ∈ l ∨ mov' b) →
  DieInv mov' m' e g' (<[VictimL c:=l]> Q).
Proof.
  intros Hi Hf Hr HR Hg Hgo Hnew Hmov' Hkeep.
  eapply (die_relink mov mov' m m' e e g g' Q (VictimL c) h t l R); try done.
  1-2: intros j; destruct (decide (VictimL c = j)) as [<-|Hne];
    [rewrite fn_lookup_insert; cbn; by rewrite Hg|rewrite fn_lookup_insert_ne by done];
    destruct j as [|c']; cbn; [done|]; rewrite Hgo; [done|congruence].
  - intros c' Hc'. destruct (decide (c' = c)) as [->|]; [by rewrite Hg|by rewrite Hgo].
  - rewrite fn_lookup_insert_ne by done. apply (di_cnt _ _ _ _ _ Hi).
  - rewrite fn_lookup_insert_ne by done. apply (di_current _ _ _ _ _ Hi).
Qed.

Lemma die_relink_free mov mov' m m' e g Q h t l R :
  DieInv mov m e g Q →
  family block_links m' (<[FreeL:=h]> (list_head e g)) (<[FreeL:=t]> (list_tail e g))
    (<[FreeL:=l]> Q) →
  relinked block_links R m m' → (∀ b, b ∈ R → b ∈ l) → currentBlock e ∉ l →
  (∀ b n, b ∈ l → m !! b = Some n → b ∈ Q FreeL ∨ listed FreeL n) →
  (∀ b, mov' b → (b ∉ l) ∧ (mov b ∨ b ∈ Q FreeL ∨ ∀ j, b ∉ Q j)) →
  (∀ b, mov b ∨ b ∈ Q FreeL → b ∈ l ∨ mov' b) →
  DieInv mov' m' (MkVIRTUAL_DIE_ENTRY (currentBlock e) h t (Z.of_nat (length l))) g
    (<[FreeL:=l]> Q).
Proof.
  intros Hi Hf Hr HR Hc Hnew Hmov' Hkeep.
  eapply (die_relink mov mov' m m' e _ g g Q FreeL h t l R); try done.
  1-2: intros []; [by rewrite fn_lookup_insert|by rewrite fn_lookup_insert_ne].
Qed.

Lemma selective_get_idle m h t b n :
  m !! b = Some n → prevBlock n = BLOCK_NONE → nextBlock n = BLOCK_NONE →
  selective_get block_links m h t b = Some (m, (BLOCK_NONE, BLOCK_NONE)).
Proof. intros Hn Hp Hq. unfold selective_get. rewrite Hn. cbn. by rewrite Hp, Hq. Qed.

Lemma filter_ne_notin (b : Z) (l : list Z) : b ∉ l → filter (.≠ b) l = l.
Proof.
  intros Hb. induction l as [|x l IH]; [done|].
  rewrite filter_cons_True, IH by set_solver. done.
Qed.

Lemma filter_ne_split (b : Z) (l1 l2 : list Z) :
  (b ∉ l1) → (b ∉ l2) → filter (.≠ b) (l1 ++ b :: l2) = l1 ++ l2.
Proof.
  intros H1 H2. rewrite filter_app, filter_cons_False by auto.
  by rewrite !filter_ne_notin.
Qed.

(** Take a block off the victim list of its count (a block with no invalid
    slice is on none). *)
Lemma die_detach mov m e g Q b n c :
  DieInv mov m e g Q → m !! b = Some n → invalidSliceCnt n = c → 0 ≤ c ≤ SLICES_PER_BLOCK →
  b ∉ Q FreeL → ¬ mov b →
  ∃ v m' h t R, g c = Some v ∧
    selective_get block_links m (headBlock v) (tailBlock v) b = Some (m', (h, t)) ∧
    0 ≤ h ≤ BLOCK_NONE ∧ 0 ≤ t ≤ BLOCK_NONE ∧ relinked block_links R m m' ∧
    ∀ g', g' c = Some (MkGC_VICTIM_LIST_ENTRY h t) → (∀ c', c' ≠ c → g' c' = g c') →
      DieInv (λ x, x = b ∨ mov x) m' e g' (<[VictimL c:=filter (.≠ b) (Q (VictimL c))]> Q).
Proof.
  intros Hi Hn Hc Hcr Hfree Hmov. destruct (di_victims _ _ _ _ _ Hi c Hcr) as [v Hv].
  pose proof (di_lists _ _ _ _ _ Hi) as Hf.
  destruct (decide (b ∈ Q (VictimL c))) as [Hin|Hnin].
  - apply list_elem_of_split in Hin as (l1 & l2 & Hl).
    pose proof (family_dll _ _ _ _ _ (VictimL c) Hf) as Hd. rewrite Hl in Hd.
    destruct (dll_split _ _ _ _ _ _ _ Hd) as (_ & _ & _ & _ & _ & _ & _ & H1 & H2 & _).
    destruct (family_get _ _ _ _ _ (VictimL c) l1 b l2 Hf Hl) as (m' & h & t & Hop & Hf' & Hr).
    pose proof (family_dll _ _ _ _ _ (VictimL c) Hf') as Hd'. rewrite !fn_lookup_insert in Hd'.
    apply dll_ends in Hd' as [[??] [??]]; [|apply _]. cbn in Hop. rewrite Hv in Hop.
    exists v, m', h, t, (l1 ++ l2). split_and!; try done; try lia. intros g' Hg Hgo.
    rewrite Hl, filter_ne_split by done.
    assert (∀ x, x ∈ Q (VictimL c) ↔ x ∈ l1 ++ l2 ∨ x = b) as HQ by (rewrite Hl; set_solver).
    eapply die_relink_victim; try done.
    + intros x nx Hx _. left. apply HQ. by left.
    + intros x [->|Hx]; [set_solver|]. split; [|by left]. intros Hx'.
      eapply (di_moving _ _ _ _ _ Hi x Hx (VictimL c)), HQ. by left.
    + intros x [Hx|[Hx|Hx]%HQ]; auto.
  - assert (∀ i, b ∉ Q i) as Hno.
    { intros [|c'] Hb; [done|]. destruct (di_listed _ _ _ _ _ Hi b n _ Hb Hn). congruence. }
    destruct (di_idle _ _ _ _ _ Hi b n Hn Hno Hmov) as (Hp & Hq & Hz).
    exists v, m, BLOCK_NONE, BLOCK_NONE, []. split_and!; try done.
    { by eapply selective_get_idle. } intros g' Hg Hgo. rewrite filter_ne_notin by done.
    assert (Q (VictimL c) = []) as HQ.
    { destruct (Q (VictimL c)) as [|x l] eqn:HQ; [done|].
      destruct (family_lookup _ _ _ _ _ (VictimL c) x Hf) as [nx Hnx]; [rewrite HQ; left|].
      destruct (di_listed _ _ _ _ _ Hi x nx (VictimL c)); [rewrite HQ; left|done|]. lia. }
    eapply (die_relink_victim mov _ m m e g g' Q c BLOCK_NONE BLOCK_NONE _ []); try done.
    + rewrite HQ. eapply (family_replace _ _ _ _ _ _ _ _ _ _ []);
        [done|apply relinked_refl|apply dll_nil|set_solver..].
    + by intros x ?%elem_of_nil.
    + intros x nx Hx _. by left.
    + intros b' Hb'. rewrite HQ. split; [set_solver|]. naive_solver.
    + rewrite HQ. set_solver.
Qed.

(** Put a block on its way on a list. *)
Lemma die_attach mov mov' m e g Q b n i :
  DieInv mov m e g Q → m !! b = Some n → mov b → listed i n →
  (∀ x, mov x ↔ x = b ∨ mov' x) → ¬ mov' b →
  ∃ m' h t,
    put_tail block_links m (list_head e g i) (list_tail e g i) b = Some (m', (h, t)) ∧
    0 ≤ h ≤ BLOCK_NONE ∧ 0 ≤ t ≤ BLOCK_NONE ∧ relinked block_links (b :: Q i) m m' ∧
    match i with
    | FreeL =>
        currentBlock e ≠ b →
        DieInv mov' m' (MkVIRTUAL_DIE_ENTRY (currentBlock e) h t (freeBlockCnt e + 1)) g
          (<[FreeL:=Q FreeL ++ [b]]> Q)
    | VictimL c =>
        ∀ g', g' c = Some (MkGC_VICTIM_LIST_ENTRY h t) → (∀ c', c' ≠ c → g' c' = g c') →
          DieInv mov' m' e g' (<[VictimL c:=Q (VictimL c) ++ [b]]> Q)
    end.
Proof.
  intros Hi Hn Hm Hl Hmov Hnm. pose proof (di_lists _ _ _ _ _ Hi) as Hf.
  destruct (family_put block_links m _ _ Q i b Hf) as (m' & h & t & Hop & Hf' & Hr);
    [by apply (di_moving _ _ _ _ _ Hi)|eapply block_range; [apply Hi|done]|eauto|].
  pose proof (family_dll _ _ _ _ _ i Hf') as Hd'. rewrite !fn_lookup_insert in Hd'.
  apply dll_ends in Hd' as [[??] [??]]; [|apply _].
  exists m', h, t. split_and!; try done.
  assert (∀ x, x ∈ b :: Q i → x ∈ Q i ++ [b]) as HR by set_solver.
  assert (∀ x nx, x ∈ Q i ++ [b] → m !! x = Some nx → x ∈ Q i ∨ listed i nx) as Hnew.
  { intros x nx [?| ->%list_elem_of_singleton]%elem_of_app Hx; [by left|right]. congruence. }
  assert (∀ x, mov' x → (x ∉ Q i ++ [b]) ∧ (mov x ∨ x ∈ Q i ∨ ∀ j, x ∉ Q j)) as Hmov'.
  { intros x Hx. assert (mov x) as Hmx by (apply Hmov; auto). split; [|by left].
    intros [Hq| ->%list_elem_of_singleton]%elem_of_app; [|done].
    by eapply (di_moving _ _ _ _ _ Hi x Hmx i). }
  assert (∀ x, mov x ∨ x ∈ Q i → x ∈ Q i ++ [b] ∨ mov' x) as Hkeep.
  { intros x [[->|]%Hmov|]; [|by right|]; set_solver. }
  destruct i as [|c].
  - intros Hcur. replace (freeBlockCnt e + 1) with (Z.of_nat (length (Q FreeL ++ [b])))
      by (rewrite (di_cnt _ _ _ _ _ Hi), length_app; cbn; lia).
    eapply die_relink_free; try done.
    pose proof (di_current _ _ _ _ _ Hi). set_solver.
  - intros g' Hg Hgo. by eapply die_relink_victim.
Qed.

(** Take the first block off a list. *)
Lemma die_pop mov m e g Q b l i :
  DieInv mov m e g Q → Q i = b :: l →
  list_head e g i = b ∧ ∃ m' h t,
    pop_head block_links m (list_head e g i) (list_tail e g i) = Some (m', (h, t)) ∧
    0 ≤ h ≤ BLOCK_NONE ∧ 0 ≤ t ≤ BLOCK_NONE ∧ relinked block_links l m m' ∧
    match i with
    | FreeL =>
        DieInv (λ x, x = b ∨ mov x) m'
          (MkVIRTUAL_DIE_ENTRY (currentBlock e) h t (freeBlockCnt e - 1)) g (<[FreeL:=l]> Q)
    | VictimL c =>
        ∀ g', g' c = Some (MkGC_VICTIM_LIST_ENTRY h t) → (∀ c', c' ≠ c → g' c' = g c') →
          DieInv (λ x, x = b ∨ mov x) m' e g' (<[VictimL c:=l]> Q)
    end.
Proof.
  intros Hi Hq. pose proof (di_lists _ _ _ _ _ Hi) as Hf.
  destruct (family_pop _ _ _ _ _ i b l Hf Hq) as (Hb & m' & h & t & Hop & Hf' & Hr).
  pose proof (family_dll _ _ _ _ _ i Hf') as Hd'. rewrite !fn_lookup_insert in Hd'.
  apply dll_ends in Hd' as [[??] [??]]; [|apply _].
  split; [done|]. exists m', h, t. split_and!; try done.
  assert (b ∉ l) as Hbl.
  { destruct (family_dll _ _ _ _ _ i Hf) as (_ & _ & _ & Hnd & _). rewrite Hq in Hnd.
    by inversion Hnd. }
  assert (∀ x, x ∈ Q i ↔ x = b ∨ x ∈ l) as HQ by (rewrite Hq; set_solver).
  assert (∀ x nx, x ∈ l → m !! x = Some nx → x ∈ Q i ∨ listed i nx) as Hnew.
  { intros x nx Hx _. left. apply HQ. by right. }
  assert (∀ x, x = b ∨ mov x → (x ∉ l) ∧ (mov x ∨ x ∈ Q i ∨ ∀ j, x ∉ Q j)) as Hmov'.
  { intros x [->|Hx]; [split; [done|]; right; left; apply HQ; by left|]. split; [|by left].
    intros Hxl. eapply (di_moving _ _ _ _ _ Hi x Hx i), HQ. by right. }
  assert (∀ x, mov x ∨ x ∈ Q i → x ∈ l ∨ x = b ∨ mov x) as Hkeep.
  { intros x [?|[?|?]%HQ]; auto. }
  destruct i as [|c].
  - replace (freeBlockCnt e - 1) with (Z.of_nat (length l))
      by (rewrite (di_cnt _ _ _ _ _ Hi), Hq; cbn; lia).
    eapply die_relink_free; try done. intros Hcl. apply (di_current _ _ _ _ _ Hi), HQ. by right.
  - intros g' Hg Hgo. by eapply die_relink_victim.
Qed.

(** ** The list operations *)

Lemma Lists_die D QQ s d :
  Lists D QQ s → 0 ≤ d < USER_DIES →
  ∃ m e, a_block s !! d = Some m ∧ a_die s !! d = Some e ∧
    DieInv (λ b, (d, b) ∈ D) m e (λ c, a_gcVictim s !! (d, c)) (QQ d).
Proof. intros [_ HD] Hd. by apply HD. Qed.

Lemma core_lookup s d b m x :
  a_block s !! d = Some m → core s d b = Some x → ∃ n, m !! b = Some n ∧ block_core n = x.
Proof. unfold core. intros -> Hb. cbn in Hb. by apply fmap_Some in Hb as (n & ? & ->); eauto. Qed.

Lemma SelectiveGetFromGcVictimList_spec D QQ s d b cp c :
  Lists D QQ s → 0 ≤ d < USER_DIES → core s d b = Some (cp, c) → 0 ≤ c ≤ SLICES_PER_BLOCK →
  (b ∉ QQ d FreeL) → (d, b) ∉ D →
  wp (SelectiveGetFromGcVictimList d b) (λ _ s', only_lists s s' ∧
    Lists ((d, b) :: D)
      (<[d:=<[VictimL c:=filter (.≠ b) (QQ d (VictimL c))]> (QQ d)]> QQ) s') s.
Proof.
  intros HL Hd Hb Hc Hfree HbD. destruct (Lists_die _ _ _ _ HL Hd) as (m & e & Hm & He & Hi).
  destruct (core_lookup _ _ _ _ _ Hm Hb) as (n & Hn & [= _ Hcn]).
  destruct (die_detach _ _ _ _ _ b n c Hi Hn Hcn Hc Hfree HbD)
    as (v & m' & h & t & R & Hv & Hop & Hh & Ht & Hr & Hi').
  unfold SelectiveGetFromGcVictimList.
  apply wp_bind, (wp_load _ c); [cbn; rewrite Hm; cbn; rewrite Hn; cbn; by rewrite Hcn|].
  eapply wp_gc_relink; [done|done|done|exact Hop|done|done|]. split; [eapply only_lists_set; [done|done|by eapply relinked_core|done]|].
  eapply Lists_set; [done|done| | |].
  - intros d' c' Hne. rewrite lookup_insert_ne by congruence. done.
  - intros d' b' Hne. set_solver.
  - eapply DieInv_mov; [|apply Hi'].
    + intros x. set_solver.
    + by rewrite lookup_insert_eq.
    + intros c' Hne. rewrite lookup_insert_ne by congruence. done.
Qed.

Lemma PutToGcVictimList_spec D QQ s d b cp c :
  Lists ((d, b) :: D) QQ s → (d, b) ∉ D → 0 ≤ d < USER_DIES →
  core s d b = Some (cp, c) → 0 < c ≤ SLICES_PER_BLOCK →
  wp (PutToGcVictimList d b c) (λ _ s', only_lists s s' ∧
    Lists D (<[d:=<[VictimL c:=QQ d (VictimL c) ++ [b]]> (QQ d)]> QQ) s') s.
Proof.
  intros HL HbD Hd Hb Hc. destruct (Lists_die _ _ _ _ HL Hd) as (m & e & Hm & He & Hi).
  destruct (core_lookup _ _ _ _ _ Hm Hb) as (n & Hn & [= _ Hcn]).
  destruct (die_attach _ (λ x, (d, x) ∈ D) _ _ _ _ b n (VictimL c) Hi Hn)
    as (m' & h & t & Hop & Hh & Ht & Hr & Hi'); [left|done| |done|].
  { intros x. set_solver. }
  destruct (di_victims _ _ _ _ _ Hi c) as [v Hv]; [lia|]. cbn in Hop. rewrite Hv in Hop.
  eapply wp_gc_relink; [done|done|done|exact Hop|done|done|]. split; [eapply only_lists_set; [done|done|by eapply relinked_core|done]|].
  eapply Lists_set; [done|done| | |].
  - intros d' c' Hne. rewrite lookup_insert_ne by congruence. done.
  - intros d' b' Hne. set_solver.
  - apply Hi'; [by rewrite lookup_insert_eq|].
    intros c' Hne. rewrite lookup_insert_ne by congruence. done.
Qed.

Lemma free_count_bound mov m e g Q :
  DieInv mov m e g Q → 0 ≤ freeBlockCnt e ≤ USER_BLOCKS_PER_DIE.
Proof.
  intros Hi. rewrite (di_cnt _ _ _ _ _ Hi). split; [lia|].
  destruct (family_dll _ _ _ _ _ FreeL (di_lists _ _ _ _ _ Hi)) as (_ & _ & _ & Hnd & _).
  pose proof (NoDup_length_bound USER_BLOCKS_PER_DIE (Q FreeL) Hnd) as Hb.
  pose proof USER_BLOCKS_PER_DIE_bound.
  enough (Z.of_nat (length (Q FreeL)) ≤ Z.max 0 USER_BLOCKS_PER_DIE) by lia. apply Hb.
  intros x Hx. apply (di_blocks _ _ _ _ _ Hi). eapply family_lookup; [apply Hi|done].
Qed.

(** PutToFbList and GetFromFbList on the arrays of the die. *)
Lemma wp_PutToFbList d b m e m' h t (Φ : unit → ASt → Prop) s :
  a_block s !! d = Some m → a_die s !! d = Some e →
  put_tail block_links m (headFreeBlock e) (tailFreeBlock e) b = Some (m', (h, t)) →
  0 ≤ h ≤ BLOCK_NONE → 0 ≤ t ≤ BLOCK_NONE → 0 ≤ freeBlockCnt e < BLOCK_NONE →
  Φ tt (set_lists d m' (MkVIRTUAL_DIE_ENTRY (currentBlock e) h t (freeBlockCnt e + 1))
          (a_gcVictim s) s) →
  wp (PutToFbList d b) Φ s.
Proof.
  unfold BLOCK_NONE. intros Hm He Hop Hh Ht Hc HΦ.
  unfold PutToFbList. apply wp_bind. eapply wp_fb_relink; [done|done|exact Hop|done|done|].
  eapply wp_die_modify; [apply set_lists_block|apply set_lists_die|].
  unfold fset, set_freeBlockCnt. cbn. by rewrite wrap_small, set_lists_twice by lia.
Qed.

Definition unlink_block (n : VIRTUAL_BLOCK_ENTRY) : VIRTUAL_BLOCK_ENTRY :=
  fset prevBlock BLOCK_NONE (fset nextBlock BLOCK_NONE (fset vFree 0 n)).

Lemma wp_GetFromFbList d opt m e m' h t n (Φ : Z → ASt → Prop) s :
  a_block s !! d = Some m → a_die s !! d = Some e →
  pop_head block_links m (headFreeBlock e) (tailFreeBlock e) = Some (m', (h, t)) →
  0 ≤ h ≤ BLOCK_NONE → 0 ≤ t ≤ BLOCK_NONE → 0 < freeBlockCnt e ≤ BLOCK_NONE →
  m' !! headFreeBlock e = Some n →
  (opt = GET_FREE_BLOCK_NORMAL ∧ 1 < freeBlockCnt e ∨
   opt = GET_FREE_BLOCK_GC ∧ headFreeBlock e ≠ BLOCK_NONE) →
  Φ (headFreeBlock e)
    (set_lists d (<[headFreeBlock e:=unlink_block n]> m')
       (MkVIRTUAL_DIE_ENTRY (currentBlock e) h t (freeBlockCnt e - 1)) (a_gcVictim s) s) →
  wp (GetFromFbList d opt) Φ s.
Proof.
  unfold BLOCK_NONE. intros Hm He Hop Hh Ht Hc Hn Hopt HΦ. unfold GetFromFbList.
  apply wp_bind. eapply wp_die_load; [done|].
  apply wp_bind. eapply wp_die_load; [done|].
  apply wp_bind, (wp_mono _ (λ r s', r = false ∧ s' = s)).
  { destruct Hopt as [[-> Hl]|[-> Hl]]; cbn; (split; [|done]).
    - unfold RESERVED_FREE_BLOCK_COUNT. lia.
    - unfold BLOCK_NONE. lia. }
  intros ? ? [-> ->].
  apply wp_bind. eapply wp_fb_relink; [done|done|exact Hop|done|done|].
  apply wp_bind. eapply wp_block_store; [apply set_lists_block|apply set_lists_die|done|].
  apply wp_bind. eapply wp_die_modify; [apply set_lists_block|apply set_lists_die|].
  apply wp_bind. eapply wp_block_store;
    [apply set_lists_block|apply set_lists_die|apply lookup_insert_eq|].
  apply wp_bind. eapply wp_block_store;
    [apply set_lists_block|apply set_lists_die|apply lookup_insert_eq|].
  apply wp_ret. rewrite !set_lists_twice, !insert_insert_eq, !set_lists_gc.
  unfold fset at 4, set_freeBlockCnt. cbn [freeBlockCnt currentBlock headFreeBlock tailFreeBlock].
  by rewrite (wrap_small 16) by lia.
Qed.

Lemma wp_GetFromFbList_none d opt m e (Φ : Z → ASt → Prop) s :
  a_block s !! d = Some m → a_die s !! d = Some e →
  opt = GET_FREE_BLOCK_NORMAL ∧ freeBlockCnt e ≤ 1 ∨
  opt = GET_FREE_BLOCK_GC ∧ headFreeBlock e = BLOCK_NONE →
  Φ BLOCK_FAIL s → wp (GetFromFbList d opt) Φ s.
Proof.
  intros Hm He Hopt HΦ. unfold GetFromFbList.
  apply wp_bind. eapply wp_die_load; [done|].
  apply wp_bind. eapply wp_die_load; [done|].
  apply wp_bind, (wp_mono _ (λ r s', r = true ∧ s' = s)); [|by intros ? ? [-> ->]].
  destruct Hopt as [[-> Hl]|[-> Hl]]; cbn; (split; [|done]).
  - unfold RESERVED_FREE_BLOCK_COUNT. lia.
  - lia.
Qed.

Lemma PutToFbList_spec D QQ s d b :
  Lists ((d, b) :: D) QQ s → (d, b) ∉ D → 0 ≤ d < USER_DIES →
  core s d b = Some (0, 0) → current s d ≠ Some b →
  wp (PutToFbList d b) (λ _ s', only_lists s s' ∧
    Lists D (<[d:=<[FreeL:=QQ d FreeL ++ [b]]> (QQ d)]> QQ) s') s.
Proof.
  intros HL HbD Hd Hb Hcur. destruct (Lists_die _ _ _ _ HL Hd) as (m & e & Hm & He & Hi).
  destruct (core_lookup _ _ _ _ _ Hm Hb) as (n & Hn & Hcn).
  unfold current in Hcur. rewrite He in Hcur. cbn in Hcur.
  destruct (die_attach _ (λ x, (d, x) ∈ D) _ _ _ _ b n FreeL Hi Hn)
    as (m' & h & t & Hop & Hh & Ht & Hr & Hi'); [left|done| |done|].
  { intros x. set_solver. }
  pose proof (free_count_bound _ _ _ _ _ Hi). geometry.
  eapply wp_PutToFbList; [done|done|exact Hop|done|done|unfold BLOCK_NONE; lia|].
  split; [eapply only_lists_set; [done|done|by eapply relinked_core|done]|].
  eapply (Lists_set ((d, b) :: D)); [done|done|done|set_solver|]. apply Hi'. congruence.
Qed.

(** Assign members of one block. *)
Lemma die_set_block mov mov' m e g Q b n n' :
  DieInv mov m e g Q → m !! b = Some n →
  (∀ i, b ∈ Q i → prevBlock n' = prevBlock n ∧ nextBlock n' = nextBlock n ∧ listed i n') →
  (¬ mov' b → (∀ i, b ∉ Q i) →
     prevBlock n' = BLOCK_NONE ∧ nextBlock n' = BLOCK_NONE ∧ invalidSliceCnt n' = 0) →
  (∀ x, x ≠ b → mov x ↔ mov' x) → (mov' b → ∀ i, b ∉ Q i) →
  DieInv mov' (<[b:=n']> m) e g Q.
Proof.
  intros [Ha Hv Hf Hc Hl Hi Hm Hcur] Hn Hlink Hidle Hmov Hb. split; try done.
  - apply array_insert; [done|]. by eapply array_range.
  - eapply family_map; [|done]. intros i x nx Hx Hnx. rewrite lookup_insert. case_decide; [|eauto].
    subst x. simplify_eq. destruct (Hlink i Hx) as (Hp & Hq & _). eexists. by split_and!.
  - intros x nx i Hx. rewrite lookup_insert. case_decide; [|by apply Hl].
    intros [= <-]. subst x. by apply Hlink.
  - intros x nx. rewrite lookup_insert. case_decide; [subst x; intros [= <-]; auto|].
    intros Hx Hno Hnm. apply (Hi x); [done|done|]. by rewrite Hmov.
  - intros x Hx. destruct (decide (x = b)) as [->|]; [by apply Hb|]. by apply Hm, Hmov.
Qed.

(** The first free block, unlinked. *)
Lemma die_take_free mov m e g Q b l :
  DieInv mov m e g Q → Q FreeL = b :: l → ¬ mov b →
  headFreeBlock e = b ∧ freeBlockCnt e = Z.of_nat (length l) + 1 ∧ ∃ m' h t n,
    pop_head block_links m (headFreeBlock e) (tailFreeBlock e) = Some (m', (h, t)) ∧
    0 ≤ h ≤ BLOCK_NONE ∧ 0 ≤ t ≤ BLOCK_NONE ∧ m' !! b = Some n ∧ block_core n = (0, 0) ∧
    ∀ n', prevBlock n' = BLOCK_NONE → nextBlock n' = BLOCK_NONE → block_core n' = (0, 0) →
      (∀ x, block_core <$> <[b:=n']> m' !! x = block_core <$> m !! x) ∧
      DieInv mov (<[b:=n']> m')
        (MkVIRTUAL_DIE_ENTRY (currentBlock e) h t (freeBlockCnt e - 1)) g (<[FreeL:=l]> Q).
Proof.
  intros Hi Hq Hb.
  destruct (die_pop _ _ _ _ _ b l FreeL Hi Hq) as (Hh0 & m' & h & t & Hop & Hh & Ht & Hr & Hi').
  destruct (family_lookup _ _ _ _ _ FreeL b (di_lists _ _ _ _ _ Hi)) as [n Hn];
    [rewrite Hq; left|].
  assert (block_core n = (0, 0)) as Hcn
    by (apply (di_listed _ _ _ _ _ Hi b n FreeL); [rewrite Hq; left|done]).
  destruct (relinked_lookup _ _ _ _ _ _ Hr Hn) as (n1 & Hn1 & Hp%block_core_pay).
  rewrite Hcn in Hp. split; [done|]. split.
  { rewrite (di_cnt _ _ _ _ _ Hi), Hq. cbn. lia. }
  exists m', h, t, n1. split_and!; try done; try lia. intros n' Hpn Hnn Hc'. split.
  - intros x. rewrite lookup_insert. case_decide; [|by apply (relinked_core _ _ _ Hr)].
    subst x. rewrite Hn. cbn. congruence.
  - eapply die_set_block; [exact Hi'|exact Hn1|..].
    + intros i Hbi. exfalso. eapply (di_moving _ _ _ _ _ Hi' b); [by left|exact Hbi].
    + intros _ _. split_and!; try done. by injection Hc' as _ ->.
    + naive_solver.
    + done.
Qed.

Lemma GetFromFbList_spec D QQ s d b l opt :
  Lists D QQ s → 0 ≤ d < USER_DIES → QQ d FreeL = b :: l → (d, b) ∉ D →
  opt = GET_FREE_BLOCK_NORMAL ∧ l ≠ [] ∨ opt = GET_FREE_BLOCK_GC →
  wp (GetFromFbList d opt) (λ r s', r = b ∧ only_lists s s' ∧
    Lists D (<[d:=<[FreeL:=l]> (QQ d)]> QQ) s') s.
Proof.
  intros HL Hd Hq HbD Hopt. destruct (Lists_die _ _ _ _ HL Hd) as (m & e & Hm & He & Hi).
  destruct (die_take_free _ _ _ _ _ b l Hi Hq HbD)
    as (Hh0 & Hcnt & m' & h & t & n & Hop & Hh & Ht & Hn & Hcn & Hi').
  assert (0 ≤ b < BLOCK_NONE) as Hbr
    by (apply (family_range block_links m _ _ _ FreeL b (di_lists _ _ _ _ _ Hi)); rewrite Hq; left).
  pose proof (free_count_bound _ _ _ _ _ Hi). geometry. subst b.
  eapply wp_GetFromFbList; [done|done|exact Hop|done|done| |exact Hn| |].
  { unfold BLOCK_NONE. lia. }
  { destruct Hopt as [[-> Hl]| ->]; [left|right; split; [done|lia]].
    split; [done|]. destruct l; [done|]. cbn in Hcnt. lia. }
  destruct (Hi' (unlink_block n)) as [Hco Hi2]; [done..|].
  split_and!; [done|eapply only_lists_set; [exact Hm|exact He|exact Hco|done]|].
  by eapply (Lists_set D).
Qed.

(** No block for normal writes while only the reserved one is left; none at all. *)
Lemma GetFromFbList_none D QQ s d opt :
  Lists D QQ s → 0 ≤ d < USER_DIES →
  opt = GET_FREE_BLOCK_NORMAL ∧ (length (QQ d FreeL) ≤ 1)%nat ∨
  opt = GET_FREE_BLOCK_GC ∧ QQ d FreeL = [] →
  wp (GetFromFbList d opt) (λ r s', r = BLOCK_FAIL ∧ s' = s) s.
Proof.
  intros HL Hd Hopt. destruct (Lists_die _ _ _ _ HL Hd) as (m & e & Hm & He & Hi).
  eapply wp_GetFromFbList_none; [done|done| |done].
  destruct Hopt as [[-> Hl]|[-> Hl]]; [left|right]; (split; [done|]).
  - rewrite (di_cnt _ _ _ _ _ Hi). lia.
  - pose proof (family_dll _ _ _ _ _ FreeL (di_lists _ _ _ _ _ Hi)) as (Hh & _).
    by rewrite Hl in Hh.
Qed.

(** The victim: the oldest block among those with the most invalid slices. *)
Definition is_victim (Q : block_list → list Z) b c l : Prop :=
  Q (VictimL c) = b :: l ∧ 0 < c ≤ SLICES_PER_BLOCK ∧
  ∀ c', c < c' ≤ SLICES_PER_BLOCK → Q (VictimL c') = [].

Lemma GetFromGcVictimList_spec D QQ s d :
  Lists D QQ s → 0 ≤ d < USER_DIES →
  wpe (GetFromGcVictimList d)
    (λ b s', ∃ c l, is_victim (QQ d) b c l ∧ only_lists s s' ∧
      Lists ((d, b) :: D) (<[d:=<[VictimL c:=l]> (QQ d)]> QQ) s')
    (λ er, er = Assert ∧ ∀ c, 0 < c ≤ SLICES_PER_BLOCK → QQ d (VictimL c) = []) s.
Proof.
  intros HL Hd. destruct (Lists_die _ _ _ _ HL Hd) as (m & e & Hm & He & Hi). geometry.
  apply (wpe_loop _ (λ c s', s' = s ∧ 0 ≤ c ≤ SLICES_PER_BLOCK ∧
      ∀ c', c < c' ≤ SLICES_PER_BLOCK → QQ d (VictimL c') = []) (λ c _, Z.to_nat c));
    [lia|split_and!; [done|lia..]|].
  intros c ? (-> & Hc & Habove). destruct (Z.gtb_spec c 0) as [Hpos|Hz];
    [|split; [done|]; intros c' Hc'; apply Habove; lia].
  destruct (di_victims _ _ _ _ _ Hi c Hc) as [v Hv].
  pose proof (family_dll _ _ _ _ _ (VictimL c) (di_lists _ _ _ _ _ Hi)) as Hdl.
  pose proof (dll_head_none _ _ _ _ _ Hdl) as Hh. cbn in Hh. rewrite Hv in Hh.
  apply wp_wpe, wp_bind, (wp_load _ (headBlock v)); [cbn; by rewrite Hv|].
  destruct (Z.eqb_spec (headBlock v) BLOCK_NONE) as [E|E]; cbn [negb].
  - apply wp_ret. split_and!; try done; try lia. intros c' Hc'.
    destruct (decide (c' = c)) as [->|]; [by apply Hh|apply Habove; lia].
  - destruct (QQ d (VictimL c)) as [|b l] eqn:Hq; [by destruct E; apply Hh|].
    destruct (die_pop _ _ _ _ _ b l (VictimL c) Hi Hq)
      as (Hb & m' & h & t & Hop & Hhr & Htr & Hr & Hi'). cbn in Hb, Hop. rewrite Hv in Hb, Hop.
    apply wp_bind. eapply wp_gc_relink; [done|done|done|exact Hop|done|done|].
    apply wp_ret. rewrite Hb. exists c, l. split; [split_and!; (done || lia)|].
    split; [eapply only_lists_set; [done|done|by eapply relinked_core|done]|].
    eapply (Lists_set D); [done|done| |set_solver|].
    + intros d' c' Hne. rewrite lookup_insert_ne by congruence. done.
    + eapply DieInv_mov; [|apply Hi'; [by rewrite lookup_insert_eq|]]; [set_solver|].
      intros c' Hne. rewrite lookup_insert_ne by congruence. done.
Qed.

(** Assignments that leave the lists as they are. *)
Lemma Lists_ext D QQ QQ' s : (∀ d, QQ' d = QQ d) → Lists D QQ s → Lists D QQ' s.
Proof. intros Hq [Ha Hd]. split; [done|]. intros d Hdr. rewrite Hq. by apply Hd. Qed.

Lemma Lists_slices D QQ s s' :
  a_block s' = a_block s → a_die s' = a_die s → a_gcVictim s' = a_gcVictim s →
  Lists D QQ s → Lists D QQ s'.
Proof. unfold Lists, Die. by intros -> -> ->. Qed.

Lemma Lists_update D D' QQ s d m e m' e' :
  Lists D QQ s → 0 ≤ d < USER_DIES → a_block s !! d = Some m → a_die s !! d = Some e →
  (∀ d' b, d' ≠ d → (d', b) ∈ D ↔ (d', b) ∈ D') →
  (∀ g, DieInv (λ b, (d, b) ∈ D) m e g (QQ d) → DieInv (λ b, (d, b) ∈ D') m' e' g (QQ d)) →
  Lists D' QQ (set_lists d m' e' (a_gcVictim s) s).
Proof.
  intros HL Hd Hm He HD Hi. apply (Lists_ext _ (<[d:=QQ d]> QQ)).
  { intros d'. destruct (decide (d = d')) as [<-|];
      [by rewrite fn_lookup_insert|by rewrite fn_lookup_insert_ne]. }
  destruct (Lists_die _ _ _ _ HL Hd) as (m1 & e1 & Hm1 & He1 & Hi1). simplify_eq.
  eapply (Lists_set D); [done|done|done|done|]. by apply Hi.
Qed.

Lemma core_range D QQ s d b x :
  Lists D QQ s → 0 ≤ d < USER_DIES → core s d b = Some x → 0 ≤ b < USER_BLOCKS_PER_DIE.
Proof.
  intros HL Hd Hb. destruct (Lists_die _ _ _ _ HL Hd) as (m & e & Hm & He & Hi).
  destruct (core_lookup _ _ _ _ _ Hm Hb) as (n & Hn & _).
  by eapply array_range; [apply Hi|].
Qed.

Lemma core_total D QQ s d b :
  Lists D QQ s → 0 ≤ d < USER_DIES → 0 ≤ b < USER_BLOCKS_PER_DIE →
  ∃ cp iv, core s d b = Some (cp, iv).
Proof.
  intros HL Hd Hb. destruct (Lists_die _ _ _ _ HL Hd) as (m & e & Hm & He & Hi).
  destruct (array_lookup _ _ _ (di_blocks _ _ _ _ _ Hi) Hb) as [n Hn].
  unfold core. rewrite Hm. cbn. rewrite Hn. by eexists _, _.
Qed.

Lemma core_set_lists d m e gc s d' b :
  core (set_lists d m e gc s) d' b =
    if decide (d = d') then block_core <$> m !! b else core s d' b.
Proof. unfold core. cbn. rewrite lookup_insert. by case_decide. Qed.

Lemma current_set_lists d m e gc s d' :
  current (set_lists d m e gc s) d' =
    if decide (d = d') then Some (currentBlock e) else current s d'.
Proof. unfold current. cbn. rewrite lookup_insert. by case_decide. Qed.
End lists.
