(* ===== verification/SliceMap.v ===== *)
(** The agreement of the logical and the virtual slice map with the page and
    invalid-slice counters of the blocks. *)
From stdpp Require Import functions.
From S2P Require Import Prelude Frame Dll Config ReqFormat ReqQueues AddrMap AddrInv.

Section slices.
Context `{ConfigOk}.
Implicit Types (L V : gmap Z Z) (co : Z → Z → option (Z * Z)) (D : list (Z * Z)).
Implicit Types (d b p v lsa : Z).

(** A virtual slice holds the current data of its logical slice. *)
Definition live L V v : bool :=
  match V !! v with Some lsa => bool_decide (L !! lsa = Some v) | None => false end.

(** The invalid slices among the first [n] of a block. *)
Definition invalid L V d b n : Z :=
  count (λ p, negb (live L V (Vorg2VsaTranslation d b p))) n.

(** [co d b]: the programmed pages and the invalid slices of a block.  The
    counter of a block in [D] may be out of date. *)
Record Slices D L V co : Prop := {
  sl_logical : array SLICES_PER_SSD L;
  sl_virtual : array SLICES_PER_SSD V;
  sl_map lsa v : L !! lsa = Some v → v ≠ VSA_NONE → V !! v = Some lsa;
  sl_block d b cp iv :
    0 ≤ d < USER_DIES → 0 ≤ b < USER_BLOCKS_PER_DIE → co d b = Some (cp, iv) →
    0 ≤ cp ≤ SLICES_PER_BLOCK ∧
    (∀ p, 0 ≤ p < cp →
       ∃ lsa, V !! Vorg2VsaTranslation d b p = Some lsa ∧ 0 ≤ lsa < SLICES_PER_SSD) ∧
    (∀ p, cp ≤ p < SLICES_PER_BLOCK → V !! Vorg2VsaTranslation d b p = Some LSA_NONE) ∧
    ((d, b) ∉ D → iv = invalid L V d b cp);
}.

Lemma pages_slices : USER_PAGES_PER_BLOCK = SLICES_PER_BLOCK.
Proof. unfold SLICES_PER_BLOCK. change SLICES_PER_PAGE with 1. lia. Qed.

Lemma Vorg2Vsa_inj d b p d' b' p' :
  0 ≤ d < USER_DIES → 0 ≤ b < USER_BLOCKS_PER_DIE → 0 ≤ p < SLICES_PER_BLOCK →
  0 ≤ d' < USER_DIES → 0 ≤ b' < USER_BLOCKS_PER_DIE → 0 ≤ p' < SLICES_PER_BLOCK →
  Vorg2VsaTranslation d b p = Vorg2VsaTranslation d' b' p' → d = d' ∧ b = b' ∧ p = p'.
Proof.
  intros ?????? E. destruct (Vsa2V_Vorg2Vsa d b p) as (? & ? & ?); [done..|].
  destruct (Vsa2V_Vorg2Vsa d' b' p') as (? & ? & ?); [done..|]. rewrite E in *. lia.
Qed.

Lemma slice_not_none v : 0 ≤ v < SLICES_PER_SSD → v ≠ VSA_NONE ∧ v ≠ LSA_NONE.
Proof. geometry. unfold VSA_NONE, LSA_NONE. lia. Qed.

Lemma Slices_ext D D' L V co co' :
  (∀ d b, co' d b = co d b) → (∀ x, x ∈ D → x ∈ D') → Slices D L V co → Slices D' L V co'.
Proof.
  intros He HD [? ? ? Hb]. split; try done. intros d b cp iv Hd Hbr Hc. rewrite He in Hc.
  destruct (Hb d b cp iv Hd Hbr Hc) as (? & ? & ? & Hcnt). split_and!; try lia; try done. auto.
Qed.

(** A mapped logical slice is live at its address, in a programmed page. *)
Lemma mapped_live D L V co lsa v :
  Slices D L V co → L !! lsa = Some v → v ≠ VSA_NONE →
  0 ≤ v < SLICES_PER_SSD ∧ 0 ≤ lsa < SLICES_PER_SSD ∧ V !! v = Some lsa ∧ live L V v = true.
Proof.
  intros Hs Hl Hv. pose proof (sl_map _ _ _ _ Hs _ _ Hl Hv) as HV. split_and!; try done.
  1-2: by apply (array_range _ _ _ _ (sl_virtual _ _ _ _ Hs) HV).
  1-2: by apply (array_range _ _ _ _ (sl_logical _ _ _ _ Hs) Hl).
  unfold live. rewrite HV. by apply bool_decide_eq_true.
Qed.

Lemma live_mapped L V v : live L V v = true → ∃ lsa, V !! v = Some lsa ∧ L !! lsa = Some v.
Proof.
  unfold live. destruct (V !! v) as [lsa|] eqn:E; [|done].
  intros Hl%bool_decide_eq_true. eauto.
Qed.

Lemma mapped_page D L V co lsa v cp iv :
  Slices D L V co → L !! lsa = Some v → v ≠ VSA_NONE →
  co (Vsa2VdieTranslation v) (Vsa2VblockTranslation v) = Some (cp, iv) →
  0 ≤ Vsa2VpageTranslation v < cp.
Proof.
  intros Hs Hl Hv Hc. destruct (mapped_live _ _ _ _ _ _ Hs Hl Hv) as (Hr & Hlr & HV & _).
  destruct (Vsa2V_bound v Hr) as (Hd & Hb & Hp).
  destruct (sl_block _ _ _ _ Hs _ _ _ _ Hd Hb Hc) as (_ & _ & Hun & _). split; [lia|].
  destruct (decide (Vsa2VpageTranslation v < cp)) as [|Hge]; [done|].
  assert (V !! v = Some LSA_NONE) as HV'.
  { rewrite <- (Vorg2Vsa_Vsa2V v) by done. apply Hun. lia. }
  apply slice_not_none in Hlr as [_ ?]. congruence.
Qed.

(** A slice not touched by a remapping of [lsa] keeps its state. *)
Lemma live_remap L V lsa v x :
  (V !! x = Some lsa → L !! lsa ≠ Some x ∧ v ≠ x) → live (<[lsa:=v]> L) V x = live L V x.
Proof.
  intros Hx. unfold live. destruct (V !! x) as [l|] eqn:E; [|done].
  apply bool_decide_ext. rewrite lookup_insert. case_decide as Hl; [|done]. subst l.
  destruct Hx as [Hx Hv]; [done|]. split; [by intros [= ->]|by intros ?].
Qed.

Lemma live_program L V v lsa x : v ≠ x → live L (<[v:=lsa]> V) x = live L V x.
Proof. intros Hx. unfold live. by rewrite lookup_insert_ne. Qed.

(** Invalidating the old slice of [lsa]. *)
Lemma Slices_invalidate D L V co co' lsa v cp iv :
  Slices D L V co → L !! lsa = Some v → v ≠ VSA_NONE →
  let d := Vsa2VdieTranslation v in let b := Vsa2VblockTranslation v in
  co d b = Some (cp, iv) → (d, b) ∉ D →
  (∀ d' b', co' d' b' = if decide ((d', b') = (d, b)) then Some (cp, iv + 1) else co d' b') →
  0 ≤ iv < SLICES_PER_BLOCK ∧ Slices D (<[lsa:=VSA_NONE]> L) V co'.
Proof.
  intros Hs Hl Hv d b Hc HD Hco.
  destruct (mapped_live _ _ _ _ _ _ Hs Hl Hv) as (Hvr & Hlr & HV & Hlive).
  destruct (Vsa2V_bound v Hvr) as (Hd & Hb & Hp).
  pose proof (mapped_page _ _ _ _ _ _ _ _ Hs Hl Hv Hc) as Hpc.
  destruct (sl_block _ _ _ _ Hs d b cp iv Hd Hb Hc) as (Hcp & Hus & Hun & Hcnt).
  assert (∀ x, x ≠ v → 0 ≤ x < SLICES_PER_SSD →
    live (<[lsa:=VSA_NONE]> L) V x = live L V x) as Hother.
  { intros x Hx Hxr. apply live_remap. intros _. split; [congruence|].
    by apply not_eq_sym, slice_not_none. }
  assert (live (<[lsa:=VSA_NONE]> L) V v = false) as Hdead.
  { unfold live. rewrite HV, lookup_insert_eq. apply bool_decide_eq_false. congruence. }
  assert (invalid (<[lsa:=VSA_NONE]> L) V d b cp = invalid L V d b cp + 1) as Hinc.
  { unfold invalid. eapply (count_flip _ _ _ (Vsa2VpageTranslation v)); [done|..].
    1-2: cbn beta; subst d b; rewrite Vorg2Vsa_Vsa2V by done; by rewrite ?Hdead, ?Hlive.
    intros q Hq Hne. rewrite Hother; [done| |apply Vorg2Vsa_bound; (done || lia)].
    intros E. apply Hne. rewrite <- E. symmetry. apply Vsa2V_Vorg2Vsa; (done || lia). }
  pose proof (count_bound (λ p, negb (live (<[lsa:=VSA_NONE]> L) V (Vorg2VsaTranslation d b p)))
    cp ltac:(lia)) as Hbound.
  pose proof (count_bound (λ p, negb (live L V (Vorg2VsaTranslation d b p))) cp ltac:(lia)).
  specialize (Hcnt HD). unfold invalid in *. split; [lia|]. split.
  - by apply array_insert; [apply Hs|].
  - apply Hs.
  - intros l w. rewrite lookup_insert. case_decide; [by intros [= <-]|]. apply Hs.
  - intros d' b' cp' iv' Hd' Hb'. rewrite Hco. case_decide as E.
    + injection E as -> ->. intros [= <- <-]. split_and!; try done; try lia.
      intros _. unfold invalid. lia.
    + intros Hc'. destruct (sl_block _ _ _ _ Hs d' b' cp' iv' Hd' Hb' Hc')
        as (? & ? & ? & Hcnt'). split_and!; try done; try lia.
      intros HD'. rewrite (Hcnt' HD'). apply count_ext. intros p' Hp'.
      rewrite Hother; [done| |apply Vorg2Vsa_bound; (done || lia)].
      intros Ev. apply E. subst d b. rewrite <- Ev.
      destruct (Vsa2V_Vorg2Vsa d' b' p') as (-> & -> & _); (done || lia).
Qed.

(** Programming the next page of a block with [lsa], whose old slice (if any)
    is in a block of [D]. *)
Lemma Slices_program D L V co co' d b cp iv lsa :
  Slices D L V co → 0 ≤ d < USER_DIES → 0 ≤ b < USER_BLOCKS_PER_DIE →
  co d b = Some (cp, iv) → cp < SLICES_PER_BLOCK → 0 ≤ lsa < SLICES_PER_SSD →
  (∀ old, L !! lsa = Some old → old ≠ VSA_NONE →
     (Vsa2VdieTranslation old, Vsa2VblockTranslation old) ∈ D) →
  (∀ d' b', co' d' b' = if decide ((d', b') = (d, b)) then Some (cp + 1, iv) else co d' b') →
  let v := Vorg2VsaTranslation d b cp in
  Slices D (<[lsa:=v]> L) (<[v:=lsa]> V) co'.
Proof.
  intros Hs Hd Hb Hc Hcp Hlsa Hold Hco v.
  destruct (sl_block _ _ _ _ Hs d b cp iv Hd Hb Hc) as (Hcpr & Hus & Hun & Hcnt).
  assert (0 ≤ v < SLICES_PER_SSD) as Hvr by (apply Vorg2Vsa_bound; (done || lia)).
  assert (V !! v = Some LSA_NONE) as HV by (apply Hun; lia).
  assert (∀ d' b' p', 0 ≤ d' < USER_DIES → 0 ≤ b' < USER_BLOCKS_PER_DIE →
    0 ≤ p' < SLICES_PER_BLOCK → (d', b') ∉ D → Vorg2VsaTranslation d' b' p' ≠ v →
    live (<[lsa:=v]> L) (<[v:=lsa]> V) (Vorg2VsaTranslation d' b' p') =
    live L V (Vorg2VsaTranslation d' b' p')) as Hother.
  { intros d' b' p' Hd' Hb' Hp' HD' Hne. rewrite live_program by done. apply live_remap.
    intros _. split; [|done]. intros Hl. apply HD'.
    destruct (Vsa2V_Vorg2Vsa d' b' p') as (E1 & E2 & _); try done.
    specialize (Hold _ Hl). rewrite E1, E2 in Hold. by apply Hold, slice_not_none, Vorg2Vsa_bound. }
  split.
  - by apply array_insert; [apply Hs|].
  - by apply array_insert; [apply Hs|].
  - intros l w. rewrite lookup_insert. case_decide; [intros [= <-] _; subst; by rewrite lookup_insert_eq|].
    intros Hl Hw. pose proof (sl_map _ _ _ _ Hs _ _ Hl Hw) as Hw'.
    rewrite lookup_insert_ne; [done|]. intros ->.
    pose proof (array_range _ _ _ _ (sl_logical _ _ _ _ Hs) Hl) as Hlr.
    apply slice_not_none in Hlr as [_ ?]. congruence.
  - intros d' b' cp' iv' Hd' Hb'. rewrite Hco. case_decide as E.
    + injection E as -> ->. intros [= <- <-]. split_and!; try lia.
      * intros p Hp. rewrite lookup_insert. case_decide; [by exists lsa|]. apply Hus.
        destruct (decide (p = cp)) as [->|]; [done|lia].
      * intros p Hp. rewrite lookup_insert_ne; [apply Hun; lia|]. intros E.
        apply Vorg2Vsa_inj in E; (done || lia).
      * intros HD. unfold invalid. rewrite count_succ by lia. rewrite (Hcnt HD).
        unfold live at 2. rewrite lookup_insert_eq, lookup_insert_eq, bool_decide_eq_true_2 by done.
        cbn. rewrite Z.add_0_r. apply count_ext. intros p Hp. f_equal. symmetry.
        apply Hother; try done; [lia|]. intros E. apply Vorg2Vsa_inj in E; (done || lia).
    + intros Hc'. destruct (sl_block _ _ _ _ Hs d' b' cp' iv' Hd' Hb' Hc')
        as (Hcp' & Hus' & Hun' & Hcnt').
      assert (∀ p, 0 ≤ p < SLICES_PER_BLOCK → Vorg2VsaTranslation d' b' p ≠ v) as Hnv.
      { intros p Hp Ev. apply Vorg2Vsa_inj in Ev as (-> & -> & _); (done || lia). }
      split_and!; try lia.
      * intros p Hp. rewrite lookup_insert_ne by (apply not_eq_sym, Hnv; lia). by apply Hus'.
      * intros p Hp. rewrite lookup_insert_ne by (apply not_eq_sym, Hnv; lia). by apply Hun'.
      * intros HD'. rewrite (Hcnt' HD'). apply count_ext. intros p Hp. f_equal. symmetry.
        apply Hother; try done; [lia|]. apply Hnv. lia.
Qed.

(** Erasing a block without live slices. *)
Lemma Slices_forget D L V V' co co' d b :
  Slices ((d, b) :: D) L V co → 0 ≤ d < USER_DIES → 0 ≤ b < USER_BLOCKS_PER_DIE →
  (∀ p, 0 ≤ p < SLICES_PER_BLOCK → live L V (Vorg2VsaTranslation d b p) = false) →
  array SLICES_PER_SSD V' →
  (∀ p, 0 ≤ p < SLICES_PER_BLOCK → V' !! Vorg2VsaTranslation d b p = Some LSA_NONE) →
  (∀ x, (∀ p, 0 ≤ p < SLICES_PER_BLOCK → x ≠ Vorg2VsaTranslation d b p) → V' !! x = V !! x) →
  (∀ d' b', co' d' b' = if decide ((d', b') = (d, b)) then Some (0, 0) else co d' b') →
  Slices D L V' co'.
Proof.
  intros Hs Hd Hb Hdead HVa HV' HVo Hco.
  assert (∀ d' b' p', 0 ≤ d' < USER_DIES → 0 ≤ b' < USER_BLOCKS_PER_DIE →
    0 ≤ p' < SLICES_PER_BLOCK → (d', b') ≠ (d, b) →
    V' !! Vorg2VsaTranslation d' b' p' = V !! Vorg2VsaTranslation d' b' p') as Hother.
  { intros d' b' p' Hd' Hb' Hp' Hne. apply HVo. intros p Hp E.
    apply Vorg2Vsa_inj in E as (-> & -> & _); done. }
  split; [apply Hs|done| |].
  - intros l w Hl Hw. destruct (mapped_live _ _ _ _ _ _ Hs Hl Hw) as (_ & _ & HV & Hlive).
    rewrite HVo; [done|]. intros p Hp ->. by rewrite Hdead in Hlive.
  - intros d' b' cp iv Hd' Hb'. rewrite Hco. geometry. case_decide as E.
    + injection E as -> ->. intros [= <- <-]. split_and!; try lia; try done.
    + intros Hc. destruct (sl_block _ _ _ _ Hs d' b' cp iv Hd' Hb' Hc) as (Hcp & Hus & Hun & Hcnt).
      split_and!; try lia.
      * intros p Hp. rewrite Hother by (done || lia). by apply Hus.
      * intros p Hp. rewrite Hother by (done || lia). by apply Hun.
      * intros HD. rewrite Hcnt by set_solver. apply count_ext. intros p Hp. unfold live.
        rewrite Hother by (done || lia). done.
Qed.

(** ** The invariant of the address maps *)

Implicit Types (s : ASt) (QQ : Z → block_list → list Z).

Definition AInv D QQ s : Prop :=
  Lists D QQ s ∧ Slices D (a_logicalSlice s) (a_virtualSlice s) (core s).

Lemma AInv_only_lists D D' QQ QQ' s s' :
  AInv D QQ s → only_lists s s' → Lists D' QQ' s' → (∀ x, x ∈ D → x ∈ D') → AInv D' QQ' s'.
Proof.
  intros [_ Hs] (HL & HV & _ & Hco & _) HL' HD. split; [done|]. rewrite HL, HV.
  by eapply Slices_ext.
Qed.

(** The lists after one more slice of block [b] became invalid. *)
Definition invalidate_lists QQ d b c : Z → block_list → list Z :=
  <[d:=<[VictimL (c + 1):=QQ d (VictimL (c + 1)) ++ [b]]>
         (<[VictimL c:=filter (.≠ b) (QQ d (VictimL c))]> (QQ d))]> QQ.

(** The counters of one block change. *)
Definition set_core co d b x : Z → Z → option (Z * Z) :=
  λ d' b', if decide ((d', b') = (d, b)) then Some x else co d' b'.

Lemma core_set_block s d m e b n gc :
  a_block s !! d = Some m →
  ∀ d' b', core (set_lists d (<[b:=n]> m) e gc s) d' b' = set_core (core s) d b (block_core n) d' b'.
Proof.
  intros Hm d' b'. rewrite core_set_lists. unfold set_core, core.
  destruct (decide (d = d')) as [<-|]; [|by rewrite decide_False by congruence].
  rewrite lookup_insert, Hm. cbn.
  destruct (decide (b = b')) as [<-|]; [by rewrite decide_True|by rewrite decide_False by congruence].
Qed.

(** Only the members of one block change, to the counters [x]. *)
Definition only_block d b x s s' : Prop :=
  a_logicalSlice s' = a_logicalSlice s ∧ a_virtualSlice s' = a_virtualSlice s ∧
  targets s' = targets s ∧ (∀ d', current s' d' = current s d') ∧
  ∀ d' b', core s' d' b' = set_core (core s) d b x d' b'.

Lemma only_block_set s d m e b n :
  a_block s !! d = Some m → a_die s !! d = Some e →
  only_block d b (block_core n) s (set_lists d (<[b:=n]> m) e (a_gcVictim s) s).
Proof.
  intros Hm He. split_and!; try done.
  - intros d'. rewrite current_set_lists. case_decide as E; [|done].
    subst d'. unfold current. by rewrite He.
  - by apply core_set_block.
Qed.

(** Assigning a member of a block that is on no list. *)
Lemma Lists_moving_block D QQ s d b m e n n' :
  Lists D QQ s → 0 ≤ d < USER_DIES → (d, b) ∈ D →
  a_block s !! d = Some m → a_die s !! d = Some e → m !! b = Some n →
  Lists D QQ (set_lists d (<[b:=n']> m) e (a_gcVictim s) s).
Proof.
  intros HL Hd HD Hm He Hn. eapply Lists_update; try done. intros g Hi.
  eapply die_set_block; try done; try by (intros; by destruct (di_moving _ _ _ _ _ Hi b HD i)).
  by apply (di_moving _ _ _ _ _ Hi).
Qed.

(** A block with a live slice is neither free nor being moved. *)
Lemma mapped_block D QQ s lsa v :
  AInv D QQ s → a_logicalSlice s !! lsa = Some v → v ≠ VSA_NONE →
  let d := Vsa2VdieTranslation v in let b := Vsa2VblockTranslation v in
  0 ≤ d < USER_DIES ∧ 0 ≤ b < USER_BLOCKS_PER_DIE ∧ (b ∉ QQ d FreeL) ∧
  ∃ cp iv, core s d b = Some (cp, iv).
Proof.
  intros [HL Hs] Hl Hv d b.
  destruct (mapped_live _ _ _ _ _ _ Hs Hl Hv) as (Hvr & _ & _ & _).
  destruct (Vsa2V_bound v Hvr) as (Hd & Hb & _).
  destruct (core_total _ _ _ _ _ HL Hd Hb) as (cp & iv & Hc). split_and!; try lia; [|eauto].
  intros Hfree. pose proof (mapped_page _ _ _ _ _ _ _ _ Hs Hl Hv Hc) as Hp.
  destruct (Lists_die _ _ _ _ HL Hd) as (m & e & Hm & He & Hi).
  destruct (core_lookup _ _ _ _ _ Hm Hc) as (n & Hn & Hcn).
  pose proof (di_listed _ _ _ _ _ Hi _ _ _ Hfree Hn) as Hf. cbn in Hf. rewrite Hf in Hcn.
  injection Hcn as <- _. lia.
Qed.

(** One more invalid slice in a block that is on no list. *)
Lemma bump_invalid_spec D QQ s d b cp c :
  Lists D QQ s → 0 ≤ d < USER_DIES → (d, b) ∈ D → core s d b = Some (cp, c) →
  0 ≤ c < SLICES_PER_BLOCK →
  wp (incr vBlock.[d].[b]∙invalidSliceCnt) (λ _ s', Lists D QQ s' ∧
    only_block d b (cp, c + 1) s s') s.
Proof.
  intros HL Hd HD Hc Hcr. destruct (Lists_die _ _ _ _ HL Hd) as (m & e & Hm & He & Hi).
  destruct (core_lookup _ _ _ _ _ Hm Hc) as (n & Hn & Hcn).
  eapply wp_block_modify; [exact Hm|exact He|exact Hn|]. cbn beta.
  set (n' := fset invalidSliceCnt (invalidSliceCnt n + 1) n).
  assert (block_core n' = (cp, c + 1)) as <-.
  { injection Hcn as <- <-. subst n'. unfold block_core. cbn.
    rewrite wrap_small by (geometry; lia). done. }
  split; [by eapply Lists_moving_block|by apply only_block_set].
Qed.

Lemma load_block D QQ s d b cp iv :
  Lists D QQ s → 0 ≤ d < USER_DIES → core s d b = Some (cp, iv) →
  peek vBlock.[d].[b]∙invalidSliceCnt s = Some iv ∧ peek vBlock.[d].[b]∙currentPage s = Some cp.
Proof.
  intros HL Hd Hc. destruct (Lists_die _ _ _ _ HL Hd) as (m & e & Hm & He & Hi).
  destruct (core_lookup _ _ _ _ _ Hm Hc) as (n & Hn & [= <- <-]).
  cbn. rewrite Hm. cbn. by rewrite Hn.
Qed.

Lemma InvalidateOldVsa_mapped QQ s lsa v :
  AInv [] QQ s → a_logicalSlice s !! lsa = Some v → v ≠ VSA_NONE →
  let d := Vsa2VdieTranslation v in let b := Vsa2VblockTranslation v in
  wp (InvalidateOldVsa lsa) (λ _ s', ∃ cp c, core s d b = Some (cp, c) ∧ c < SLICES_PER_BLOCK ∧
    AInv [] (invalidate_lists QQ d b c) s' ∧
    a_logicalSlice s' = <[lsa:=VSA_NONE]> (a_logicalSlice s) ∧
    a_virtualSlice s' = a_virtualSlice s ∧ targets s' = targets s ∧
    (∀ d', current s' d' = current s d') ∧
    ∀ d' b', core s' d' b' = set_core (core s) d b (cp, c + 1) d' b') s.
Proof.
  intros HI Hl Hv d b. pose proof HI as [HL Hs].
  destruct (mapped_block _ _ _ _ _ HI Hl Hv) as (Hd & Hb & Hfree & cp & c & Hc).
  fold d in Hd, Hfree, Hc. fold b in Hb, Hfree, Hc.
  destruct (Slices_invalidate _ _ _ _ (set_core (core s) d b (cp, c + 1)) _ _ _ _ Hs Hl Hv Hc)
    as [Hcr Hs']; [set_solver|done|].
  unfold InvalidateOldVsa.
  apply wp_bind, (wp_load _ v); [done|]. apply wp_when; [intros _|rewrite negb_false_iff; lia].
  apply wp_bind, (wp_load _ lsa); [by apply (sl_map _ _ _ _ Hs)|].
  apply wp_when; [intros _|lia]. fold d b. cbn zeta.
  apply wp_bind. eapply wp_mono;
    [apply (SelectiveGetFromGcVictimList_spec [] QQ s d b cp c); (done || lia || set_solver)|].
  intros _ s1 ((HL1 & HV1 & Ht1 & Hco1 & Hcu1) & Hls1).
  apply wp_bind. eapply wp_mono;
    [apply (bump_invalid_spec _ _ s1 d b cp c Hls1 Hd); [left|by rewrite Hco1|done]|].
  intros _ s2 (Hls2 & HL2 & HV2 & Ht2 & Hcu2 & Hco2).
  apply wp_bind, (wp_store _ v); [cbn; by rewrite HL2, HL1|].
  set (s3 := poke _ _ _). assert (Lists [(d, b)] _ s3) as Hls3 by by eapply Lists_slices, Hls2.
  assert (∀ d' b', core s3 d' b' = set_core (core s) d b (cp, c + 1) d' b') as Hco3.
  { intros d' b'. change (core s3 d' b') with (core s2 d' b').
    rewrite Hco2. unfold set_core. by rewrite Hco1. }
  assert (core s3 d b = Some (cp, c + 1)) as Hc3.
  { rewrite Hco3. unfold set_core. by rewrite decide_True. }
  apply wp_bind, (wp_load _ (c + 1)); [by eapply load_block|].
  eapply wp_mono; [eapply (PutToGcVictimList_spec [] _ s3 d b cp); (done || lia || set_solver)|].
  intros _ s4 ((HL4 & HV4 & Ht4 & Hco4 & Hcu4) & Hls4). exists cp, c.
  assert (a_logicalSlice s4 = <[lsa:=VSA_NONE]> (a_logicalSlice s)) as HL'
    by (rewrite HL4; cbn; by rewrite HL2, HL1).
  assert (a_virtualSlice s4 = a_virtualSlice s) as HV' by (rewrite HV4; cbn; by rewrite HV2, HV1).
  split_and!; try done; try lia.
  - split.
    + eapply Lists_ext, Hls4. intros d'. unfold invalidate_lists.
      destruct (decide (d = d')) as [<-|Hne]; [|by rewrite !fn_lookup_insert_ne].
      rewrite !fn_lookup_insert. by rewrite (fn_lookup_insert_ne (QQ d)) by (intros [=]; lia).
    + rewrite HL', HV'. eapply Slices_ext, Hs'; [|done]. intros d' b'. by rewrite Hco4, Hco3.
  - rewrite Ht4. change (targets s3) with (targets s2). by rewrite Ht2, Ht1.
  - intros d'. rewrite Hcu4. change (current s3 d') with (current s2 d'). by rewrite Hcu2, Hcu1.
  - intros d' b'. by rewrite Hco4, Hco3.
Qed.

(** Before a write: the old slice of [lsa] is invalid, whether it had one or not. *)
Lemma InvalidateOldVsa_spec QQ s lsa :
  AInv [] QQ s → 0 ≤ lsa < SLICES_PER_SSD →
  wp (InvalidateOldVsa lsa) (λ _ s', ∃ QQ', AInv [] QQ' s' ∧
    (∀ d, QQ' d FreeL = QQ d FreeL) ∧
    a_logicalSlice s' = <[lsa:=VSA_NONE]> (a_logicalSlice s) ∧
    a_virtualSlice s' = a_virtualSlice s ∧ targets s' = targets s ∧
    (∀ d, current s' d = current s d) ∧ ∀ d b, fst <$> core s' d b = fst <$> core s d b) s.
Proof.
  intros HI Hlr. destruct (array_lookup _ _ _ (sl_logical _ _ _ _ (proj2 HI)) Hlr) as [v Hl].
  destruct (decide (v = VSA_NONE)) as [->|Hv].
  - unfold InvalidateOldVsa. apply wp_bind, (wp_load _ VSA_NONE); [done|].
    rewrite Z.eqb_refl. apply wp_ret. exists QQ. split_and!; try done. by rewrite insert_id.
  - eapply wp_mono; [by apply InvalidateOldVsa_mapped|].
    intros _ s' (cp & c & Hc & _ & HI' & HL & HV & Ht & Hcu & Hco).
    eexists. split_and!; try done.
    + intros d. unfold invalidate_lists. destruct (decide (Vsa2VdieTranslation v = d)) as [<-|].
      * by rewrite fn_lookup_insert, !fn_lookup_insert_ne.
      * by rewrite fn_lookup_insert_ne.
    + intros d b. rewrite Hco. unfold set_core. case_decide as E; [|done].
      injection E as -> ->. by rewrite Hc.
Qed.

(** ** Allocation of the next slice *)

(** The page of [v] is taken but not written yet. *)
Definition Pending D QQ v s : Prop :=
  Lists D QQ s ∧ ∃ d b cp iv, 0 ≤ d < USER_DIES ∧ 0 ≤ b < USER_BLOCKS_PER_DIE ∧
    0 ≤ cp < SLICES_PER_BLOCK ∧ core s d b = Some (cp + 1, iv) ∧ v = Vorg2VsaTranslation d b cp ∧
    Slices D (a_logicalSlice s) (a_virtualSlice s) (set_core (core s) d b (cp, iv)).

Lemma Pending_bound D QQ v s :
  Pending D QQ v s → 0 ≤ v < SLICES_PER_SSD ∧ a_virtualSlice s !! v = Some LSA_NONE ∧
  array SLICES_PER_SSD (a_logicalSlice s).
Proof.
  intros (_ & d & b & cp & iv & Hd & Hb & Hcp & Hc & -> & Hs). split_and!.
  1-2: by apply Vorg2Vsa_bound.
  - destruct (sl_block _ _ _ _ Hs d b cp iv Hd Hb) as (_ & _ & Hun & _);
      [unfold set_core; by rewrite decide_True|]. apply Hun. lia.
  - apply Hs.
Qed.

(** Recording [lsa] at the allocated address. *)
Definition mapped lsa v s : ASt :=
  fset a_virtualSlice (<[v:=lsa]> (a_virtualSlice s))
    (fset a_logicalSlice (<[lsa:=v]> (a_logicalSlice s)) s).

Lemma Pending_commit D QQ v s lsa :
  Pending D QQ v s → 0 ≤ lsa < SLICES_PER_SSD →
  (∀ old, a_logicalSlice s !! lsa = Some old → old ≠ VSA_NONE →
     (Vsa2VdieTranslation old, Vsa2VblockTranslation old) ∈ D) →
  AInv D QQ (mapped lsa v s).
Proof.
  intros (HL & d & b & cp & iv & Hd & Hb & Hcp & Hc & -> & Hs) Hlr Hold. split.
  - by eapply Lists_slices, HL.
  - cbn. eapply (Slices_program _ _ _ _ _ d b cp iv); [exact Hs|done|done| |lia|done|done|].
    + unfold set_core. by rewrite decide_True.
    + intros d' b'. unfold set_core. case_decide as E; [|done].
      injection E as -> ->. change (core (mapped _ _ s)) with (core s). by rewrite Hc.
Qed.

Lemma next_slice_spec D QQ s d b cp iv :
  AInv D QQ s → 0 ≤ d < USER_DIES → core s d b = Some (cp, iv) → cp < SLICES_PER_BLOCK →
  (b ∉ QQ d FreeL) →
  wp (next_slice d b) (λ v s', v = Vorg2VsaTranslation d b cp ∧ Pending D QQ v s' ∧
    only_block d b (cp + 1, iv) s s') s.
Proof.
  intros [HL Hs] Hd Hc Hcp Hfree. pose proof (core_range _ _ _ _ _ _ HL Hd Hc) as Hb.
  destruct (Lists_die _ _ _ _ HL Hd) as (m & e & Hm & He & Hi).
  destruct (core_lookup _ _ _ _ _ Hm Hc) as (n & Hn & Hcn).
  destruct (sl_block _ _ _ _ Hs d b cp iv Hd Hb Hc) as ([Hcp0 _] & _).
  unfold next_slice. apply wp_bind, (wp_load _ cp); [by eapply load_block|].
  apply wp_bind. eapply wp_block_modify; [exact Hm|exact He|exact Hn|]. cbn beta.
  set (n' := fset currentPage (currentPage n + 1) n).
  assert (block_core n' = (cp + 1, iv)) as Hn'.
  { injection Hcn as <- <-. subst n'. unfold block_core. cbn.
    rewrite wrap_small by (geometry; lia). done. }
  destruct (only_block_set s d m e b n' Hm He) as (HL' & HV' & Ht' & Hcu' & Hco').
  rewrite Hn' in Hco'. apply wp_ret. split; [done|]. split; [|by split_and!]. split.
  - eapply Lists_update; try done. intros g Hi'.
    eapply die_set_block; try done; [| |by apply (di_moving _ _ _ _ _ Hi')].
    + intros [|c] Hbi; [done|]. split_and!; try done.
      by apply (di_listed _ _ _ _ _ Hi' b n (VictimL c)).
    + intros Hnm Hno. exact (di_idle _ _ _ _ _ Hi' b n Hn Hno Hnm).
  - exists d, b, cp, iv. split_and!; try done; try lia.
    + rewrite Hco'. unfold set_core. by rewrite decide_True.
    + eapply Slices_ext, Hs; [|done]. intros d' b'. unfold set_core at 1. case_decide as E.
      * injection E as -> ->. done.
      * rewrite Hco'. unfold set_core. by rewrite decide_False.
Qed.

Lemma set_current_spec D QQ s d b :
  Lists D QQ s → 0 ≤ d < USER_DIES → 0 ≤ b < USER_BLOCKS_PER_DIE → (b ∉ QQ d FreeL) →
  wp (vDie.[d]∙currentBlock ::= b) (λ _ s', Lists D QQ s' ∧
    a_logicalSlice s' = a_logicalSlice s ∧ a_virtualSlice s' = a_virtualSlice s ∧
    targets s' = targets s ∧ (∀ d' b', core s' d' b' = core s d' b') ∧
    (∀ d', current s' d' = if decide (d' = d) then Some b else current s d')) s.
Proof.
  intros HL Hd Hb Hfree. destruct (Lists_die _ _ _ _ HL Hd) as (m & e & Hm & He & Hi).
  eapply wp_die_store; [exact Hm|exact He|]. set (e' := fset currentBlock b e).
  assert (currentBlock e' = b) as He' by (geometry; cbn; apply wrap_small; lia).
  split_and!; try done.
  - eapply Lists_update; try done. intros g []. split; try done. by rewrite He'.
  - intros d' b'. rewrite core_set_lists. case_decide as E; [|done].
    subst d'. unfold core. by rewrite Hm.
  - intros d'. rewrite current_set_lists, He'. destruct (decide (d = d')), (decide (d' = d)); congruence.
Qed.

(** A free block becomes the current block of its die. *)
Definition same_slices s s' : Prop :=
  a_logicalSlice s' = a_logicalSlice s ∧ a_virtualSlice s' = a_virtualSlice s ∧
  targets s' = targets s.

Lemma same_slices_trans s1 s2 s3 : same_slices s1 s2 → same_slices s2 s3 → same_slices s1 s3.
Proof. unfold same_slices. intuition congruence. Qed.

Lemma AInv_same D QQ QQ' s s' :
  AInv D QQ s → same_slices s s' → (∀ d b, core s' d b = core s d b) → Lists D QQ' s' →
  AInv D QQ' s'.
Proof. intros [_ Hs] (HL & HV & _) Hco HL'. split; [done|]. rewrite HL, HV. by eapply Slices_ext. Qed.

(** The first free block [b]: taken off the list, and made the current block. *)
Lemma free_block D QQ s d b l :
  AInv D QQ s → 0 ≤ d < USER_DIES → QQ d FreeL = b :: l →
  core s d b = Some (0, 0) ∧ 0 ≤ b < USER_BLOCKS_PER_DIE ∧ b ≠ BLOCK_FAIL ∧ (b ∉ l) ∧ (d, b) ∉ D.
Proof.
  intros [HL _] Hd Hq. destruct (Lists_die _ _ _ _ HL Hd) as (m & e & Hm & He & Hi).
  assert (b ∈ QQ d FreeL) as Hb by (rewrite Hq; left).
  destruct (family_lookup _ _ _ _ _ FreeL b (di_lists _ _ _ _ _ Hi) Hb) as [n Hn].
  pose proof (di_listed _ _ _ _ _ Hi b n FreeL Hb Hn) as Hc. cbn in Hc.
  pose proof (array_range _ _ _ _ (di_blocks _ _ _ _ _ Hi) Hn). geometry. split_and!; try lia.
  - unfold core. rewrite Hm. cbn. rewrite Hn. cbn. by rewrite Hc.
  - unfold BLOCK_FAIL. lia.
  - destruct (family_dll _ _ _ _ _ FreeL (di_lists _ _ _ _ _ Hi)) as (_ & _ & _ & Hnd & _).
    rewrite Hq in Hnd. by inversion Hnd.
  - intros HD. by apply (di_moving _ _ _ _ _ Hi b HD FreeL).
Qed.

Definition drop_free QQ d l : Z → block_list → list Z := <[d:=<[FreeL:=l]> (QQ d)]> QQ.

Lemma take_block_spec D QQ s d b l opt :
  AInv D QQ s → 0 ≤ d < USER_DIES → QQ d FreeL = b :: l →
  opt = GET_FREE_BLOCK_NORMAL ∧ l ≠ [] ∨ opt = GET_FREE_BLOCK_GC →
  wp (GetFromFbList d opt) (λ r s', r = b ∧ AInv D (drop_free QQ d l) s' ∧
    same_slices s s' ∧ (∀ d b, core s' d b = core s d b) ∧ ∀ d, current s' d = current s d) s.
Proof.
  intros HI Hd Hq Hopt. destruct (free_block _ _ _ _ _ _ HI Hd Hq) as (_ & _ & _ & _ & HbD).
  eapply wp_mono; [apply (GetFromFbList_spec D QQ s d b l); try done; apply HI|].
  intros r s' (-> & (HL & HV & Ht & Hco & Hcu) & Hls). split_and!; try done.
  by eapply AInv_same.
Qed.

Lemma make_current_spec D QQ s d b l :
  AInv D (drop_free QQ d l) s → 0 ≤ d < USER_DIES → 0 ≤ b < USER_BLOCKS_PER_DIE → (b ∉ l) →
  wp (vDie.[d]∙currentBlock ::= b) (λ _ s', AInv D (drop_free QQ d l) s' ∧ same_slices s s' ∧
    (∀ d b, core s' d b = core s d b) ∧
    (∀ d', current s' d' = if decide (d' = d) then Some b else current s d')) s.
Proof.
  intros HI Hd Hb Hbl. eapply wp_mono; [apply (set_current_spec D _ s d b (proj1 HI) Hd Hb)|].
  { unfold drop_free. by rewrite !fn_lookup_insert. }
  intros _ s' (Hls & HL & HV & Ht & Hco & Hcu). split_and!; try done. by eapply AInv_same.
Qed.

Lemma load_current D QQ s d :
  Lists D QQ s → 0 ≤ d < USER_DIES →
  ∃ c, current s d = Some c ∧ peek vDie.[d]∙currentBlock s = Some c ∧
    0 ≤ c < USER_BLOCKS_PER_DIE ∧ (c ∉ QQ d FreeL).
Proof.
  intros HL Hd. destruct (Lists_die _ _ _ _ HL Hd) as (m & e & Hm & He & Hi).
  exists (currentBlock e). unfold current. cbn. rewrite He. cbn.
  pose proof (di_current _ _ _ _ _ Hi). tauto.
Qed.

(** ** Allocation during garbage collection *)

Lemma peek_current s d : peek vDie.[d]∙currentBlock s = current s d.
Proof. done. Qed.

(** The state after switching to a free block, which is not the victim. *)
Definition switched D d b s s' : Prop :=
  ∃ QQ', AInv D QQ' s' ∧ same_slices s s' ∧ (∀ d b, core s' d b = core s d b) ∧
    current s' d ≠ Some b.

Lemma switch_for_gc D QQ s d b :
  AInv D QQ s → 0 ≤ d < USER_DIES → (d, b) ∈ D →
  wlp (GetFromFbList d GET_FREE_BLOCK_GC) (λ r s1,
    wlp (vDie.[d]∙currentBlock ::= r) (λ _ s',
      r = BLOCK_FAIL ∧ s1 = s ∧ current s' d = Some BLOCK_FAIL ∨
      r ≠ BLOCK_FAIL ∧ switched D d b s s' ∧ current s' d = Some r ∧
      core s' d r = Some (0, 0)) s1) s.
Proof.
  intros HI Hd HD. destruct (QQ d FreeL) as [|r l] eqn:Hq.
  - eapply wp_wlp, wp_mono; [apply (GetFromFbList_none D QQ); [apply HI|done|by right]|].
    intros ? ? [-> ->]. destruct (Lists_die _ _ _ _ (proj1 HI) Hd) as (m & e & Hm & He & Hi).
    eapply wp_wlp, wp_die_store; [exact Hm|exact He|]. left. split_and!; try done.
    rewrite current_set_lists. by rewrite decide_True.
  - destruct (free_block _ _ _ _ _ _ HI Hd Hq) as (Hc & Hr & Hnf & Hrl & HrD).
    eapply wp_wlp, wp_mono; [apply (take_block_spec D QQ s d r l); auto|].
    intros ? s1 (-> & HI1 & Hs1 & Hco1 & Hcu1).
    eapply wp_wlp, wp_mono; [by eapply make_current_spec|].
    intros ? s2 (HI2 & Hs2 & Hco2 & Hcu2). right.
    assert (current s2 d = Some r) as Hcur by (rewrite Hcu2; by rewrite decide_True).
    split; [done|]. split; [|by rewrite Hco2, Hco1]. eexists. split_and!; [done| | |].
    + by eapply same_slices_trans.
    + intros. by rewrite Hco2, Hco1.
    + rewrite Hcur. intros [= ->]. done.
Qed.

(** Its first half: leave the victim, if it is the current block. *)
Lemma leave_victim_spec QQ s d b c :
  AInv [(d, b)] QQ s → 0 ≤ d < USER_DIES → current s d = Some c →
  wlp (when (b =? c)
         (b <- GetFromFbList d GET_FREE_BLOCK_GC ;;
          vDie.[d]∙currentBlock ::= b ;;
          b <- !(vDie.[d]∙currentBlock) ;;
          when (b =? BLOCK_FAIL) (fail Assert)))
    (λ _ s', switched [(d, b)] d b s s') s.
Proof.
  intros HI Hd Hcur. apply wlp_when; intros Hbc;
    [|exists QQ; split_and!; try done; rewrite Hcur; intros [= ->]; lia].
  apply wlp_bind. eapply wlp_mono; [eapply (switch_for_gc _ _ _ _ b HI Hd); left|].
  intros r s1 Hs1. apply wlp_bind. eapply wlp_mono; [exact Hs1|].
  intros ? s2 [(-> & _ & Hcu)|(Hr & Hsw & Hcu & Hco)].
  all: apply wlp_bind, wlp_load; intros r'; rewrite peek_current, Hcu; intros [= <-].
  - done.
  - apply wlp_when; [lia|done].
Qed.

(** Its second half: a current block with room. *)
Lemma find_room_spec QQ s d b c cp iv :
  AInv [(d, b)] QQ s → 0 ≤ d < USER_DIES → current s d = Some c → c ≠ b →
  core s d c = Some (cp, iv) →
  wlp (if cp =? SLICES_PER_BLOCK then
         b <- GetFromFbList d GET_FREE_BLOCK_GC ;;
         if negb (b =? BLOCK_FAIL) then vDie.[d]∙currentBlock ::= b ;; ret b
         else fail Assert
       else if cp >? SLICES_PER_BLOCK then fail Assert
       else ret c)
    (λ c s', ∃ cp iv, switched [(d, b)] d b s s' ∧
      current s' d = Some c ∧ core s' d c = Some (cp, iv) ∧ cp < SLICES_PER_BLOCK) s.
Proof.
  intros HI Hd Hcur Hcb Hc. destruct (Z.eqb_spec cp SLICES_PER_BLOCK) as [Hfull|Hroom].
  - apply wlp_bind. eapply wlp_mono; [eapply (switch_for_gc _ _ _ _ b HI Hd); left|].
    intros r s2 Hs2. destruct (Z.eqb_spec r BLOCK_FAIL) as [->|Hnf]; [done|].
    apply wlp_bind. eapply wlp_mono; [exact Hs2|].
    intros ? s3 [(? & _)|(_ & Hsw & Hcr3 & Hc3)]; [done|].
    apply wlp_ret. exists 0, 0. geometry. split_and!; try done. lia.
  - destruct (Z.gtb_spec cp SLICES_PER_BLOCK); [done|]. apply wlp_ret.
    exists cp, iv. split_and!; try done; [|lia]. exists QQ. split_and!; try done. congruence.
Qed.

Lemma FindFreeVirtualSliceForGc_spec QQ s d b :
  AInv [(d, b)] QQ s → 0 ≤ d < USER_DIES → 0 ≤ b < USER_BLOCKS_PER_DIE →
  wlp (FindFreeVirtualSliceForGc d b) (λ v s', ∃ QQ', Pending [(d, b)] QQ' v s' ∧
    same_slices s s' ∧ current s' d ≠ Some b ∧ core s' d b = core s d b ∧
    ∀ p, 0 ≤ p < SLICES_PER_BLOCK → v ≠ Vorg2VsaTranslation d b p) s.
Proof.
  intros HI Hd Hb. unfold FindFreeVirtualSliceForGc. cbn zeta.
  destruct (load_current _ _ _ _ (proj1 HI) Hd) as (c & Hcur & _).
  apply wlp_bind, wlp_load. intros c'. rewrite peek_current, Hcur. intros [= <-].
  apply wlp_bind. eapply wlp_mono; [by eapply leave_victim_spec|].
  intros ? s1 (QQ1 & HI1 & Hs1 & Hco1 & Hcu1). clear c Hcur.
  destruct (load_current _ _ _ _ (proj1 HI1) Hd) as (c & Hcur & _ & Hcr & Hcf).
  destruct (core_total _ _ _ d c (proj1 HI1) Hd Hcr) as (cp & iv & Hc).
  apply wlp_bind, wlp_load. intros c'. rewrite peek_current, Hcur. intros [= <-].
  apply wlp_bind, wlp_load. intros p Hp.
  rewrite (proj2 (load_block _ _ _ _ _ _ _ (proj1 HI1) Hd Hc)) in Hp. injection Hp as <-.
  rewrite pages_slices. apply wlp_bind. eapply wlp_mono;
    [eapply (find_room_spec QQ1 s1 d b c cp iv); try done; congruence|].
  intros c2 s2 (cp2 & iv2 & (QQ2 & HI2 & Hs2 & Hco2 & Hcu2) & Hcur2 & Hc2 & Hcp2).
  destruct (load_current _ _ _ _ (proj1 HI2) Hd) as (c2' & Hcur2' & _ & Hcr2 & Hcf2).
  rewrite Hcur2 in Hcur2'. injection Hcur2' as <-.
  destruct (sl_block _ _ _ _ (proj2 HI2) d c2 cp2 iv2 Hd Hcr2 Hc2) as (Hcpr & _).
  eapply wp_wlp, wp_mono; [by eapply next_slice_spec|].
  intros v s3 (-> & Hp3 & HL3 & HV3 & Ht3 & Hcu3 & Hco3). exists QQ2. split_and!; try done.
  - eapply same_slices_trans; [exact Hs1|]. by eapply same_slices_trans; [exact Hs2|].
  - congruence.
  - rewrite Hco3. unfold set_core. rewrite decide_False by congruence. congruence.
  - intros p Hp E. apply Vorg2Vsa_inj in E as (_ & -> & _); (done || lia).
Qed.

(** ** Erasing *)

(** The pages of a block below [n] are unmapped in [V'], the others as in [V]. *)
Definition unmapped d b n V V' : Prop :=
  array SLICES_PER_SSD V' ∧
  (∀ p, 0 ≤ p < n → V' !! Vorg2VsaTranslation d b p = Some LSA_NONE) ∧
  (∀ x, (∀ p, 0 ≤ p < n → x ≠ Vorg2VsaTranslation d b p) → V' !! x = V !! x).

Lemma unmap_pages_spec s d b :
  array SLICES_PER_SSD (a_virtualSlice s) →
  0 ≤ d < USER_DIES → 0 ≤ b < USER_BLOCKS_PER_DIE →
  wp (for_range 0 USER_PAGES_PER_BLOCK (λ pageNo,
        virtualSlice.[Vorg2VsaTranslation d b pageNo] ::= LSA_NONE))
    (λ _ s', ∃ V', s' = fset a_virtualSlice V' s ∧
       unmapped d b SLICES_PER_BLOCK (a_virtualSlice s) V') s.
Proof.
  intros Ha Hd Hb. rewrite pages_slices. geometry.
  apply (wp_for_range (λ i s', ∃ V', s' = fset a_virtualSlice V' s ∧
    unmapped d b i (a_virtualSlice s) V')); [lia| |].
  - exists (a_virtualSlice s). split; [by destruct s|]. split_and!; [done|lia|done].
  - intros i ? Hi (V' & -> & Ha' & Hin & Hout).
    assert (0 ≤ Vorg2VsaTranslation d b i < SLICES_PER_SSD) as Hv by by apply Vorg2Vsa_bound.
    destruct (array_lookup _ _ _ Ha' Hv) as [old Hold].
    apply (wp_store _ old); [done|]. eexists. split; [done|]. split_and!.
    + by apply array_insert.
    + intros p Hp. rewrite lookup_insert. case_decide; [done|]. apply Hin.
      destruct (decide (p = i)) as [->|]; [done|lia].
    + intros x Hx. rewrite lookup_insert_ne by (apply not_eq_sym, Hx; lia).
      apply Hout. intros p Hp. apply Hx. lia.
Qed.

Lemma forget_block_spec D QQ s d b :
  AInv ((d, b) :: D) QQ s → 0 ≤ d < USER_DIES → 0 ≤ b < USER_BLOCKS_PER_DIE → (d, b) ∉ D →
  (∀ p, 0 ≤ p < SLICES_PER_BLOCK →
     live (a_logicalSlice s) (a_virtualSlice s) (Vorg2VsaTranslation d b p) = false) →
  current s d ≠ Some b →
  wp (forget_block d b) (λ _ s',
    AInv D (<[d:=<[FreeL:=QQ d FreeL ++ [b]]> (QQ d)]> QQ) s' ∧
    a_logicalSlice s' = a_logicalSlice s ∧ targets s' = targets s ∧
    (∀ d', current s' d' = current s d') ∧
    ∀ d' b', core s' d' b' = set_core (core s) d b (0, 0) d' b') s.
Proof.
  intros [HL Hs] Hd Hb HD Hdead Hcur.
  destruct (Lists_die _ _ _ _ HL Hd) as (m & e & Hm & He & Hi).
  destruct (array_lookup _ _ _ (di_blocks _ _ _ _ _ Hi) Hb) as [n Hn].
  unfold forget_block.
  apply wp_bind. eapply wp_block_store; [exact Hm|exact He|exact Hn|].
  apply wp_bind. eapply wp_block_modify;
    [apply set_lists_block|apply set_lists_die|apply lookup_insert_eq|].
  apply wp_bind. eapply wp_block_store;
    [apply set_lists_block|apply set_lists_die|apply lookup_insert_eq|].
  apply wp_bind. eapply wp_block_store;
    [apply set_lists_block|apply set_lists_die|apply lookup_insert_eq|].
  rewrite !set_lists_twice, !insert_insert_eq, !set_lists_gc. cbn beta.
  set (n' := fset currentPage _ _). assert (block_core n' = (0, 0)) as Hn' by done.
  destruct (only_block_set s d m e b n' Hm He) as (HL1 & HV1 & Ht1 & Hcu1 & Hco1).
  rewrite Hn' in Hco1. set (s1 := set_lists _ _ _ _ _) in *.
  assert (Lists ((d, b) :: D) QQ s1) as Hls1
    by (eapply (Lists_moving_block _ _ _ _ _ m e n); try done; left).
  apply wp_bind. eapply wp_mono; [apply (PutToFbList_spec D QQ s1 d b); try done|].
  { rewrite Hco1. unfold set_core. by rewrite decide_True. } { by rewrite Hcu1. }
  intros ? s2 ((HL2 & HV2 & Ht2 & Hco2 & Hcu2) & Hls2).
  eapply wp_mono; [apply (unmap_pages_spec s2 d b); [rewrite HV2, HV1; apply Hs|done..]|].
  intros ? ? (V' & -> & Ha' & Hin & Hout). split_and!.
  - split; [by eapply Lists_slices, Hls2|]. cbn [a_logicalSlice a_virtualSlice fset set_a_virtualSlice].
    rewrite HL2, HL1. eapply (Slices_forget _ _ (a_virtualSlice s) V' (core s)); try done.
    + intros x Hx. rewrite Hout by done. by rewrite HV2, HV1.
    + intros d' b'. change (core (fset _ _ s2) d' b') with (core s2 d' b'). by rewrite Hco2, Hco1.
  - cbn. by rewrite HL2, HL1.
  - change (targets (fset _ _ s2)) with (targets s2). congruence.
  - intros d'. change (current (fset _ _ s2) d') with (current s2 d'). by rewrite Hcu2, Hcu1.
  - intros d' b'. change (core (fset _ _ s2) d' b') with (core s2 d' b'). by rewrite Hco2, Hco1.
Qed.

(** ** The next die *)

Definition maps s := (a_logicalSlice s, a_virtualSlice s, a_block s, a_die s, a_gcVictim s).

Definition cursor_ok s : Prop :=
  0 ≤ a_targetCh s < USER_CHANNELS ∧ 0 ≤ a_targetWay s < USER_WAYS.
Definition TInv s : Prop := 0 ≤ a_targetDie s < USER_DIES ∧ cursor_ok s.

(** The die the next call of FindDieForFreeSliceAllocation returns. *)
Definition cursor s : Z := Pcw2VdieTranslation (a_targetCh s) (a_targetWay s).

Lemma AInv_maps D QQ s s' : maps s' = maps s → AInv D QQ s → AInv D QQ s'.
Proof.
  intros [= HL HV Hb Hd Hg] [Hls Hs]. split; [by eapply Lists_slices|]. rewrite HL, HV.
  eapply Slices_ext, Hs; [|done]. intros. unfold core. by rewrite Hb.
Qed.

Lemma Pending_maps D QQ v s s' : maps s' = maps s → Pending D QQ v s → Pending D QQ v s'.
Proof.
  intros [= HL HV Hb Hd Hg] (Hls & d & b & cp & iv & ? & ? & ? & Hc & ? & Hs).
  split; [by eapply Lists_slices|]. assert (∀ d b, core s' d b = core s d b) as Hco
    by (intros; unfold core; by rewrite Hb).
  exists d, b, cp, iv. split_and!; try lia; try done; [by rewrite Hco|]. rewrite HL, HV.
  eapply Slices_ext, Hs; [|done]. intros. unfold set_core. by rewrite Hco.
Qed.

Lemma cursor_bound s : cursor_ok s → 0 ≤ cursor s < USER_DIES.
Proof. intros [??]. by apply Pcw2Vdie_bound. Qed.

Lemma FindDieForFreeSliceAllocation_spec s :
  cursor_ok s →
  wp FindDieForFreeSliceAllocation (λ d s', d = cursor s ∧
    cursor s' = (cursor s + 1) mod USER_DIES ∧ cursor_ok s' ∧ maps s' = maps s) s.
Proof.
  intros HT. pose proof (cursor_bound s HT) as Hcb. destruct HT as (Hc & Hw).
  unfold FindDieForFreeSliceAllocation. geometry.
  apply wp_bind, (wp_load _ (a_targetCh s)); [done|].
  apply wp_bind, (wp_load _ (a_targetWay s)); [done|].
  unfold cursor_ok, cursor, Pcw2VdieTranslation in *.
  destruct (Z.eqb_spec (a_targetCh s) (USER_CHANNELS - 1)) as [E|E]; cbn [negb].
  - apply wp_bind, wp_bind. eapply wp_store; [done|]. eapply wp_store; [done|]. apply wp_ret.
    cbn. assert (0 < USER_WAYS) as Hpos by lia.
    pose proof (Z.mod_pos_bound (a_targetWay s + 1) USER_WAYS Hpos).
    rewrite !wrap_small by lia. split_and!; try done; try lia. rewrite E.
    replace (USER_CHANNELS - 1 + a_targetWay s * USER_CHANNELS + 1)
      with ((a_targetWay s + 1) * USER_CHANNELS) by ring.
    unfold USER_DIES. rewrite (Z.mul_comm USER_CHANNELS), Zmult_mod_distr_r. done.
  - apply wp_bind. eapply wp_store; [done|]. apply wp_ret. cbn.
    rewrite !wrap_small by lia. split_and!; try done; try lia.
    rewrite Z.mod_small; [ring|]. unfold USER_DIES in *. nia.
Qed.
End slices.
