(* ===== verification/AddrCheck.v ===== *)
(** A decision procedure for the invariant of the address maps.  It reads the
    lists of a concrete state off their links and checks every clause of [AInv];
    it is sound, so that the invariant of a machine state can be evaluated. *)
From stdpp Require Import functions.
From S2P Require Import Prelude Frame Dll Config ReqFormat ReqQueues AddrMap AddrInv SliceMap.

Section check.
Context `{Config}.
Implicit Types (d b c h t : Z) (m : gmap Z VIRTUAL_BLOCK_ENTRY) (e : VIRTUAL_DIE_ENTRY)
  (g : Z → option GC_VICTIM_LIST_ENTRY) (Q : block_list → list Z) (s : ASt).

Definition arrayb {T} (n : Z) (a : gmap Z T) : bool :=
  forallb (λ i, bool_decide (is_Some (a !! i))) (seqZ 0 n) &&
  forallb (λ ix, (0 <=? ix.1) && (ix.1 <? n)) (map_to_list a).

(** The list that starts at block [x]. *)
Fixpoint walk m (x : Z) (fuel : nat) : list Z :=
  match fuel, m !! x with
  | S fuel, Some n => x :: walk m (nextBlock n) fuel
  | _, _ => []
  end.

Fixpoint lsegb m (p : Z) (l : list Z) (z : Z) : bool :=
  match l with
  | [] => true
  | x :: l' =>
      match m !! x with
      | Some n => (prevBlock n =? p) && (nextBlock n =? hdz z l') && lsegb m x l' z
      | None => false
      end
  end.

Definition dllb m h t (l : list Z) : bool :=
  (h =? hdz BLOCK_NONE l) && (t =? lstz BLOCK_NONE l) && lsegb m BLOCK_NONE l BLOCK_NONE &&
  bool_decide (NoDup l) && forallb (λ x, (0 <=? x) && (x <? BLOCK_NONE)) l.

Definition listedb (i : block_list) (n : VIRTUAL_BLOCK_ENTRY) : bool :=
  match i with
  | FreeL => (currentPage n =? 0) && (invalidSliceCnt n =? 0)
  | VictimL c => (invalidSliceCnt n =? c) && (0 <? c) && (c <=? SLICES_PER_BLOCK)
  end.

Definition all_lists : list block_list := FreeL :: (VictimL <$> seqZ 0 (SLICES_PER_BLOCK + 1)).

Definition lists_of s d (i : block_list) : list Z :=
  match a_block s !! d, a_die s !! d with
  | Some m, Some e => walk m (list_head e (λ c, a_gcVictim s !! (d, c)) i) (Z.to_nat USER_BLOCKS_PER_DIE)
  | _, _ => []
  end.

Definition dieb s d m e : bool :=
  let g := λ c, a_gcVictim s !! (d, c) in
  let Q := lists_of s d in
  let listed_blocks := all_lists ≫= Q in
  arrayb USER_BLOCKS_PER_DIE m &&
  forallb (λ c, bool_decide (is_Some (g c))) (seqZ 0 (SLICES_PER_BLOCK + 1)) &&
  forallb (λ i, dllb m (list_head e g i) (list_tail e g i) (Q i)) all_lists &&
  bool_decide (NoDup listed_blocks) &&
  (freeBlockCnt e =? Z.of_nat (length (Q FreeL))) &&
  forallb (λ i, forallb (λ b, match m !! b with Some n => listedb i n | None => false end) (Q i)) all_lists &&
  forallb (λ bn, bool_decide (bn.1 ∈ listed_blocks)
                 || ((prevBlock bn.2 =? BLOCK_NONE) && (nextBlock bn.2 =? BLOCK_NONE)
                     && (invalidSliceCnt bn.2 =? 0))) (map_to_list m) &&
  (0 <=? currentBlock e) && (currentBlock e <? USER_BLOCKS_PER_DIE) &&
  negb (bool_decide (currentBlock e ∈ Q FreeL)).

Definition blockb L V d b (cp iv : Z) : bool :=
  (0 <=? cp) && (cp <=? SLICES_PER_BLOCK) &&
  forallb (λ p, match V !! Vorg2VsaTranslation d b p with
                | Some lsa => if p <? cp then (0 <=? lsa) && (lsa <? SLICES_PER_SSD) else lsa =? LSA_NONE
                | None => false
                end) (seqZ 0 SLICES_PER_BLOCK) &&
  (iv =? invalid L V d b cp).

Definition slicesb s : bool :=
  let L := a_logicalSlice s in
  let V := a_virtualSlice s in
  arrayb SLICES_PER_SSD L && arrayb SLICES_PER_SSD V &&
  forallb (λ lv, (lv.2 =? VSA_NONE) || bool_decide (V !! lv.2 = Some lv.1)) (map_to_list L) &&
  forallb (λ d, forallb (λ b, match core s d b with
                              | Some (cp, iv) => blockb L V d b cp iv
                              | None => true
                              end) (seqZ 0 USER_BLOCKS_PER_DIE)) (seqZ 0 USER_DIES).

Definition check_AInv s : bool :=
  arrayb USER_DIES (a_die s) &&
  forallb (λ kv, (0 <=? kv.1.2) && (kv.1.2 <=? SLICES_PER_BLOCK)) (map_to_list (a_gcVictim s)) &&
  forallb (λ d, match a_block s !! d, a_die s !! d with
                | Some m, Some e => dieb s d m e
                | _, _ => false
                end) (seqZ 0 USER_DIES) &&
  slicesb s.
End check.

(** ** Soundness *)

(** Split boolean conjunctions and turn boolean tests into propositions. *)
Ltac booleans :=
  repeat match goal with
  | H : _ && _ = true |- _ => apply andb_prop in H as [? ?]
  | H : (_ =? _) = true |- _ => apply Z.eqb_eq in H
  | H : (_ <? _) = true |- _ => apply Z.ltb_lt in H
  | H : (_ <=? _) = true |- _ => apply Z.leb_le in H
  | H : bool_decide _ = true |- _ => apply bool_decide_eq_true in H
  end.

Lemma forallb_elem {A} (f : A → bool) l x : forallb f l = true → x ∈ l → f x = true.
Proof. rewrite forallb_forall. intros Hf Hx. by apply Hf, list_elem_of_In. Qed.

Lemma forallb_seqZ f n i : forallb f (seqZ 0 n) = true → 0 ≤ i < n → f i = true.
Proof. intros Hf Hi. apply (forallb_elem _ _ _ Hf), elem_of_seqZ. lia. Qed.

Lemma forallb_map {K T} `{Countable K} f (m : gmap K T) k x :
  forallb f (map_to_list m) = true → m !! k = Some x → f (k, x) = true.
Proof. intros Hf Hk. apply (forallb_elem _ _ _ Hf). by apply elem_of_map_to_list. Qed.

Lemma NoDup_bind_unique {A B} (f : A → list B) l i j x :
  NoDup (l ≫= f) → i ∈ l → j ∈ l → x ∈ f i → x ∈ f j → i = j.
Proof.
  induction l as [|a l IH]; cbn; [by intros _ ?%elem_of_nil|].
  intros (_ & Hdis & Hnd)%NoDup_app [->|Hi]%elem_of_cons [->|Hj]%elem_of_cons Hxi Hxj; [done| | |by auto].
  - destruct (Hdis x Hxi). apply list_elem_of_bind. eauto.
  - destruct (Hdis x Hxj). apply list_elem_of_bind. eauto.
Qed.

Section sound.
Context `{ConfigOk}.
Implicit Types (d b c h t : Z) (m : gmap Z VIRTUAL_BLOCK_ENTRY) (e : VIRTUAL_DIE_ENTRY) (s : ASt).

Lemma arrayb_sound {T} n (a : gmap Z T) : arrayb n a = true → array n a.
Proof.
  unfold arrayb. intros. booleans. intros i. split.
  - intros [x Hx]. pose proof (forallb_map _ _ _ _ H2 Hx). cbn in *. booleans. lia.
  - intros Hi. pose proof (forallb_seqZ _ _ _ H1 Hi). cbn in *. by booleans.
Qed.

Lemma lsegb_sound m p l z : lsegb m p l z = true → lseg block_links m p l z.
Proof.
  revert p. induction l as [|x l IH]; intros p; cbn; [done|].
  destruct (m !! x) as [n|]; [|done]. intros. booleans. exists n. split_and!; auto.
Qed.

Lemma dllb_sound m h t l : dllb m h t l = true → dll block_links m h t l.
Proof.
  unfold dllb. intros. booleans. split_and!; try done; [by apply lsegb_sound|].
  apply Forall_forall. intros x Hx. pose proof (forallb_elem _ _ _ H2 Hx). cbn in *. booleans. done.
Qed.

Lemma elem_of_all_lists c : VictimL c ∈ all_lists ↔ 0 ≤ c ≤ SLICES_PER_BLOCK.
Proof.
  unfold all_lists. rewrite elem_of_cons, list_elem_of_fmap. split.
  - intros [|(c' & [= <-] & Hc%elem_of_seqZ)]; [done|lia].
  - intros Hc. right. exists c. split; [done|]. apply elem_of_seqZ. lia.
Qed.

Lemma lists_of_outside s d m e c :
  a_block s !! d = Some m → a_die s !! d = Some e → array USER_BLOCKS_PER_DIE m →
  a_gcVictim s !! (d, c) = None → lists_of s d (VictimL c) = [].
Proof.
  intros Hm He Ha Hc. unfold lists_of. rewrite Hm, He. cbn [list_head]. rewrite Hc.
  destruct (m !! BLOCK_NONE) as [n|] eqn:E.
  - apply (block_range _ _ _ Ha) in E. unfold BLOCK_NONE in E. lia.
  - destruct (Z.to_nat _); cbn; [done|]. by rewrite E.
Qed.

Lemma dieb_lists s d m e :
  a_block s !! d = Some m → a_die s !! d = Some e → dieb s d m e = true →
  (∀ c, ¬ 0 ≤ c ≤ SLICES_PER_BLOCK → a_gcVictim s !! (d, c) = None) →
  family block_links m (list_head e (λ c, a_gcVictim s !! (d, c)))
    (list_tail e (λ c, a_gcVictim s !! (d, c))) (lists_of s d) ∧
  (∀ i, i ∈ all_lists ∨ lists_of s d i = []).
Proof.
  intros Hm He Hb Hout. unfold dieb in Hb. booleans.
  assert (array USER_BLOCKS_PER_DIE m) as Ha by by apply arrayb_sound.
  assert (∀ i, i ∈ all_lists ∨ lists_of s d i = []) as Hall.
  { intros [|c]; [left; by left|]. destruct (decide (0 ≤ c ≤ SLICES_PER_BLOCK)) as [Hc|Hc].
    - left. by apply elem_of_all_lists.
    - right. eapply lists_of_outside; eauto. }
  split; [|done]. split.
  - intros i. destruct (decide (i ∈ all_lists)) as [Hi|Hi].
    + apply dllb_sound. match goal with H : forallb (λ i, dllb _ _ _ _) _ = true |- _ =>
        exact (forallb_elem _ _ _ H Hi) end.
    + destruct (Hall i) as [|E]; [done|]. rewrite E. destruct i as [|c]; [destruct Hi; by left|].
      cbn [list_head list_tail]. rewrite Hout; [apply dll_nil|]. by rewrite <- elem_of_all_lists.
  - intros i j x Hi Hj.
    destruct (Hall i) as [Hil|E]; [|rewrite E in Hi; by apply elem_of_nil in Hi].
    destruct (Hall j) as [Hjl|E]; [|rewrite E in Hj; by apply elem_of_nil in Hj].
    by eapply NoDup_bind_unique.
Qed.

Lemma listedb_sound i n : listedb i n = true → listed i n.
Proof.
  destruct i as [|c]; cbn; intros; booleans; [|done]. unfold block_core. congruence.
Qed.

Lemma dieb_sound s d m e :
  a_block s !! d = Some m → a_die s !! d = Some e → dieb s d m e = true →
  (∀ c, ¬ 0 ≤ c ≤ SLICES_PER_BLOCK → a_gcVictim s !! (d, c) = None) →
  DieInv (λ _, False) m e (λ c, a_gcVictim s !! (d, c)) (lists_of s d).
Proof.
  intros Hm He Hb Hout. destruct (dieb_lists s d m e Hm He Hb Hout) as [Hf Hall].
  unfold dieb in Hb. booleans. split; try done.
  - by apply arrayb_sound.
  - intros c Hc. match goal with H : forallb (λ c, bool_decide (is_Some _)) _ = true |- _ =>
      pose proof (forallb_seqZ _ _ c H ltac:(lia)) end. cbn in *. by booleans.
  - intros b n i Hbi Hn. destruct (Hall i) as [Hi|E]; [|rewrite E in Hbi; by apply elem_of_nil in Hbi].
    match goal with H : forallb (λ i, forallb _ _) _ = true |- _ =>
      pose proof (forallb_elem _ _ _ (forallb_elem _ _ _ H Hi) Hbi) as Hl end. cbn in Hl.
    rewrite Hn in Hl. by apply listedb_sound.
  - intros b n Hn Hno _. match goal with H : forallb _ (map_to_list m) = true |- _ =>
      pose proof (forallb_map _ _ _ _ H Hn) as Hi end. cbn [fst snd] in Hi.
    apply orb_prop in Hi as [Hi|Hi]; booleans; [|done].
    apply list_elem_of_bind in Hi as (i & Hi & _). by destruct (Hno i).
  - match goal with H : negb (bool_decide _) = true |- _ =>
      apply negb_true_iff, bool_decide_eq_false in H end. done.
Qed.

Lemma blockb_sound L V d b cp iv :
  blockb L V d b cp iv = true →
  0 ≤ cp ≤ SLICES_PER_BLOCK ∧
  (∀ p, 0 ≤ p < cp → ∃ lsa, V !! Vorg2VsaTranslation d b p = Some lsa ∧ 0 ≤ lsa < SLICES_PER_SSD) ∧
  (∀ p, cp ≤ p < SLICES_PER_BLOCK → V !! Vorg2VsaTranslation d b p = Some LSA_NONE) ∧
  iv = invalid L V d b cp.
Proof.
  unfold blockb. intros. booleans.
  assert (∀ p, 0 ≤ p < SLICES_PER_BLOCK → ∃ lsa, V !! Vorg2VsaTranslation d b p = Some lsa ∧
    (if p <? cp then (0 <=? lsa) && (lsa <? SLICES_PER_SSD) else lsa =? LSA_NONE) = true) as Hp.
  { intros p Hp. match goal with H : forallb _ _ = true |- _ => pose proof (forallb_seqZ _ _ _ H Hp) as Hv end.
    cbn in Hv. destruct (V !! _) as [lsa|]; [eauto|done]. }
  split_and!; try done.
  - intros p Hpr. destruct (Hp p) as (lsa & HV & Hl); [lia|].
    rewrite (proj2 (Z.ltb_lt p cp)) in Hl by lia. booleans. eauto.
  - intros p Hpr. destruct (Hp p) as (lsa & HV & Hl); [lia|].
    rewrite (proj2 (Z.ltb_ge p cp)) in Hl by lia. booleans. by subst.
Qed.

Lemma slicesb_sound s :
  slicesb s = true → Slices [] (a_logicalSlice s) (a_virtualSlice s) (core s).
Proof.
  unfold slicesb. cbn zeta. intros. booleans. split; [by apply arrayb_sound..| |].
  - intros lsa v Hl Hv. match goal with H : forallb _ (map_to_list _) = true |- _ =>
      pose proof (forallb_map _ _ _ _ H Hl) as Hi end. cbn in Hi.
    apply orb_prop in Hi as [?|?]; by booleans.
  - intros d b cp iv Hd Hb Hc. match goal with H : forallb _ (seqZ 0 USER_DIES) = true |- _ =>
      pose proof (forallb_seqZ _ _ _ (forallb_seqZ _ _ _ H Hd) Hb) as Hi end. cbn in Hi.
    rewrite Hc in Hi. apply blockb_sound in Hi as (? & ? & ? & ?). split_and!; try done; lia.
Qed.

(** The check is sound, for the lists it reads off the links. *)
Lemma check_AInv_sound s : check_AInv s = true → AInv [] (lists_of s) s.
Proof.
  unfold check_AInv. intros. booleans. split; [|by apply slicesb_sound]. split; [by apply arrayb_sound|].
  intros d Hd. match goal with H : forallb _ (seqZ 0 USER_DIES) = true |- _ =>
    pose proof (forallb_seqZ _ _ _ H Hd) as Hi end. cbn in Hi.
  destruct (a_block s !! d) as [m|] eqn:Hm; [|done]. destruct (a_die s !! d) as [e|] eqn:He; [|done].
  exists m, e. split_and!; try done. eapply DieInv_mov, dieb_sound; try done; [set_solver|].
  intros c Hc. destruct (a_gcVictim s !! (d, c)) as [x|] eqn:E; [|done].
  match goal with H : forallb _ (map_to_list (a_gcVictim s)) = true |- _ =>
    pose proof (forallb_map _ _ _ _ H E) as Hk end. cbn in Hk. booleans. lia.
Qed.
End sound.
