(* ===== verification/State.v ===== *)
(** The state of the request layer: the structs of the remaining headers, the
    device the firmware drives, and the record of all variables of the layer.

    The device (flash controllers, host interface, DRAM written by DMA, timer)
    is a parameter: a type of worlds with register and memory accesses that may
    change it.  The base addresses come from the generated [xparameters.h] and
    are part of the parameter. *)
From S2P Require Import Prelude Config MemMap ReqFormat ReqQueues DataBuffer.

(** ** The device *)

Class Device (W : Type) := {
  dev_read32 : Z → W → Z * W;
  dev_write32 : Z → Z → W → W;
  dev_read8 : Z → W → Z * W;
  dev_write8 : Z → Z → W → W;
  dev_time : W → Z * W;                (** XTime_GetTime *)
  dev_inbyte : W → Z * W;              (** inbyte *)
  dev_undef : W → Z * W;               (** contents of an uninitialised local *)
  NSC_BASEADDR : Z → Z;                (** XPAR_TIGER4NSC_n_BASEADDR *)
  HOST_IP_ADDR : Z;                    (** XPAR_NVMEHOSTCONTROLLER_0_BASEADDR *)
}.

Section device.
Context {W : Type} `{Device W}.

Definition IO_READ32 (a : Z) : M W Z := λ w, let (v, w') := dev_read32 a w in Ok (u32 v) w'.
Definition IO_WRITE32 (a v : Z) : M W unit := λ w, Ok tt (dev_write32 a (u32 v) w).
Definition READ8 (a : Z) : M W Z := λ w, let (v, w') := dev_read8 a w in Ok (u8 v) w'.
Definition WRITE8 (a v : Z) : M W unit := λ w, Ok tt (dev_write8 a (u8 v) w).
Definition XTime_GetTime : M W Z := λ w, let (v, w') := dev_time w in Ok (wrap 64 v) w'.
Definition inbyte : M W Z := λ w, let (v, w') := dev_inbyte w in Ok (u8 v) w'.
Definition undef32 : M W Z := λ w, let (v, w') := dev_undef w in Ok (u32 v) w'.
End device.

(** A device that is plain memory: used to run the model on concrete inputs. *)
Definition mem_device : Device (gmap Z Z) :=
  {| dev_read32 a w := (default 0 (w !! a), w);
     dev_write32 a v w := <[a := v]> w;
     dev_read8 a w := (default 0 (w !! a), w);
     dev_write8 a v w := <[a := v]> w;
     dev_time w := (1, w);
     dev_inbyte w := (0, w);
     dev_undef w := (0, w);
     NSC_BASEADDR i := 0x43C00000 + 0x10000 * i;
     HOST_IP_ADDR := 0x83C00000 |}.

(** ** Structs *)

Record ROW_ADDR_DEPENDENCY_ENTRY := MkROW_ADDR_DEPENDENCY_ENTRY {
  permittedProgPage : Z;  (** 12 bits *)
  blockedReadReqCnt : Z;  (** 16 bits *)
  blockedEraseReqFlag : Z;  (** 1 bits *)
}.
#[global] Instance set_permittedProgPage : Field permittedProgPage := λ v r,
  MkROW_ADDR_DEPENDENCY_ENTRY (wrap 12 v) (blockedReadReqCnt r) (blockedEraseReqFlag r).
#[global] Instance set_blockedReadReqCnt : Field blockedReadReqCnt := λ v r,
  MkROW_ADDR_DEPENDENCY_ENTRY (permittedProgPage r) (wrap 16 v) (blockedEraseReqFlag r).
#[global] Instance set_blockedEraseReqFlag : Field blockedEraseReqFlag := λ v r,
  MkROW_ADDR_DEPENDENCY_ENTRY (permittedProgPage r) (blockedReadReqCnt r) (wrap 1 v).

Record DIE_STATE_ENTRY := MkDIE_STATE_ENTRY {
  dieState : Z;  (** 8 bits *)
  reqStatusCheckOpt : Z;  (** 4 bits *)
  prevWay : Z;  (** 4 bits *)
  nextWay : Z;  (** 4 bits *)
}.
#[global] Instance set_dieState : Field dieState := λ v r,
  MkDIE_STATE_ENTRY (wrap 8 v) (reqStatusCheckOpt r) (prevWay r) (nextWay r).
#[global] Instance set_reqStatusCheckOpt : Field reqStatusCheckOpt := λ v r,
  MkDIE_STATE_ENTRY (dieState r) (wrap 4 v) (prevWay r) (nextWay r).
#[global] Instance set_prevWay : Field prevWay := λ v r,
  MkDIE_STATE_ENTRY (dieState r) (reqStatusCheckOpt r) (wrap 4 v) (nextWay r).
#[global] Instance set_nextWay : Field nextWay := λ v r,
  MkDIE_STATE_ENTRY (dieState r) (reqStatusCheckOpt r) (prevWay r) (wrap 4 v).

(** A head/tail pair of WAY_PRIORITY_ENTRY. *)
Record WAY_LIST := MkWAY_LIST {
  headWay : Z;  (** 4 bits *)
  tailWay : Z;  (** 4 bits *)
}.
#[global] Instance set_headWay : Field headWay := λ v r,
  MkWAY_LIST (wrap 4 v) (tailWay r).
#[global] Instance set_tailWay : Field tailWay := λ v r,
  MkWAY_LIST (headWay r) (wrap 4 v).

(** WAY_PRIORITY_ENTRY: idleHead/idleTail ... statusCheckHead/statusCheckTail. *)
Record WAY_PRIORITY_ENTRY := MkWAY_PRIORITY_ENTRY {
  idleList : WAY_LIST;
  statusReportList : WAY_LIST;
  readTriggerList : WAY_LIST;
  writeList : WAY_LIST;
  readTransferList : WAY_LIST;
  eraseList : WAY_LIST;
  statusCheckList : WAY_LIST;
}.
#[global] Instance set_idleList : Field idleList := λ v r,
  MkWAY_PRIORITY_ENTRY v (statusReportList r) (readTriggerList r) (writeList r) (readTransferList r) (eraseList r) (statusCheckList r).
#[global] Instance set_statusReportList : Field statusReportList := λ v r,
  MkWAY_PRIORITY_ENTRY (idleList r) v (readTriggerList r) (writeList r) (readTransferList r) (eraseList r) (statusCheckList r).
#[global] Instance set_readTriggerList : Field readTriggerList := λ v r,
  MkWAY_PRIORITY_ENTRY (idleList r) (statusReportList r) v (writeList r) (readTransferList r) (eraseList r) (statusCheckList r).
#[global] Instance set_writeList : Field writeList := λ v r,
  MkWAY_PRIORITY_ENTRY (idleList r) (statusReportList r) (readTriggerList r) v (readTransferList r) (eraseList r) (statusCheckList r).
#[global] Instance set_readTransferList : Field readTransferList := λ v r,
  MkWAY_PRIORITY_ENTRY (idleList r) (statusReportList r) (readTriggerList r) (writeList r) v (eraseList r) (statusCheckList r).
#[global] Instance set_eraseList : Field eraseList := λ v r,
  MkWAY_PRIORITY_ENTRY (idleList r) (statusReportList r) (readTriggerList r) (writeList r) (readTransferList r) v (statusCheckList r).
#[global] Instance set_statusCheckList : Field statusCheckList := λ v r,
  MkWAY_PRIORITY_ENTRY (idleList r) (statusReportList r) (readTriggerList r) (writeList r) (readTransferList r) (eraseList r) v.

Record CUSTOM_IO_CMD_COMPLETE_ENTRY := MkCUSTOM_IO_CMD_COMPLETE_ENTRY {
  notIssuedRxCount : Z;  (** 16 bits *)
  notCompletedRxCount : Z;  (** 16 bits *)
  notIssuedTxCount : Z;  (** 16 bits *)
  notCompletedTxCount : Z;  (** 16 bits *)
  notCompletedNANDCount : Z;  (** 16 bits *)
}.
#[global] Instance set_notIssuedRxCount : Field notIssuedRxCount := λ v r,
  MkCUSTOM_IO_CMD_COMPLETE_ENTRY (wrap 16 v) (notCompletedRxCount r) (notIssuedTxCount r) (notCompletedTxCount r) (notCompletedNANDCount r).
#[global] Instance set_notCompletedRxCount : Field notCompletedRxCount := λ v r,
  MkCUSTOM_IO_CMD_COMPLETE_ENTRY (notIssuedRxCount r) (wrap 16 v) (notIssuedTxCount r) (notCompletedTxCount r) (notCompletedNANDCount r).
#[global] Instance set_notIssuedTxCount : Field notIssuedTxCount := λ v r,
  MkCUSTOM_IO_CMD_COMPLETE_ENTRY (notIssuedRxCount r) (notCompletedRxCount r) (wrap 16 v) (notCompletedTxCount r) (notCompletedNANDCount r).
#[global] Instance set_notCompletedTxCount : Field notCompletedTxCount := λ v r,
  MkCUSTOM_IO_CMD_COMPLETE_ENTRY (notIssuedRxCount r) (notCompletedRxCount r) (notIssuedTxCount r) (wrap 16 v) (notCompletedNANDCount r).
#[global] Instance set_notCompletedNANDCount : Field notCompletedNANDCount := λ v r,
  MkCUSTOM_IO_CMD_COMPLETE_ENTRY (notIssuedRxCount r) (notCompletedRxCount r) (notIssuedTxCount r) (notCompletedTxCount r) (wrap 16 v).

Record HOST_REQUEST_TIME_ENTRY := MkHOST_REQUEST_TIME_ENTRY {
  timeReqCode : Z;
  fetch : Z;  (** 64 bits *)
  blockedBufferDef : Z;  (** 64 bits *)
  nandReqStart : Z;  (** 64 bits *)
  nandReqEnd : Z;  (** 64 bits *)
  nvmeDmaStart : Z;  (** 64 bits *)
  nvmeDmaEnd : Z;  (** 64 bits *)
  nvmeDmaCnt : Z;
  nandReqCnt : Z;
}.
#[global] Instance set_timeReqCode : Field timeReqCode := λ v r,
  MkHOST_REQUEST_TIME_ENTRY (wrap 32 v) (fetch r) (blockedBufferDef r) (nandReqStart r) (nandReqEnd r) (nvmeDmaStart r) (nvmeDmaEnd r) (nvmeDmaCnt r) (nandReqCnt r).
#[global] Instance set_fetch : Field fetch := λ v r,
  MkHOST_REQUEST_TIME_ENTRY (timeReqCode r) (wrap 64 v) (blockedBufferDef r) (nandReqStart r) (nandReqEnd r) (nvmeDmaStart r) (nvmeDmaEnd r) (nvmeDmaCnt r) (nandReqCnt r).
#[global] Instance set_blockedBufferDef : Field blockedBufferDef := λ v r,
  MkHOST_REQUEST_TIME_ENTRY (timeReqCode r) (fetch r) (wrap 64 v) (nandReqStart r) (nandReqEnd r) (nvmeDmaStart r) (nvmeDmaEnd r) (nvmeDmaCnt r) (nandReqCnt r).
#[global] Instance set_nandReqStart : Field nandReqStart := λ v r,
  MkHOST_REQUEST_TIME_ENTRY (timeReqCode r) (fetch r) (blockedBufferDef r) (wrap 64 v) (nandReqEnd r) (nvmeDmaStart r) (nvmeDmaEnd r) (nvmeDmaCnt r) (nandReqCnt r).
#[global] Instance set_nandReqEnd : Field nandReqEnd := λ v r,
  MkHOST_REQUEST_TIME_ENTRY (timeReqCode r) (fetch r) (blockedBufferDef r) (nandReqStart r) (wrap 64 v) (nvmeDmaStart r) (nvmeDmaEnd r) (nvmeDmaCnt r) (nandReqCnt r).
#[global] Instance set_nvmeDmaStart : Field nvmeDmaStart := λ v r,
  MkHOST_REQUEST_TIME_ENTRY (timeReqCode r) (fetch r) (blockedBufferDef r) (nandReqStart r) (nandReqEnd r) (wrap 64 v) (nvmeDmaEnd r) (nvmeDmaCnt r) (nandReqCnt r).
#[global] Instance set_nvmeDmaEnd : Field nvmeDmaEnd := λ v r,
  MkHOST_REQUEST_TIME_ENTRY (timeReqCode r) (fetch r) (blockedBufferDef r) (nandReqStart r) (nandReqEnd r) (nvmeDmaStart r) (wrap 64 v) (nvmeDmaCnt r) (nandReqCnt r).
#[global] Instance set_nvmeDmaCnt : Field nvmeDmaCnt := λ v r,
  MkHOST_REQUEST_TIME_ENTRY (timeReqCode r) (fetch r) (blockedBufferDef r) (nandReqStart r) (nandReqEnd r) (nvmeDmaStart r) (nvmeDmaEnd r) (wrap 32 v) (nandReqCnt r).
#[global] Instance set_nandReqCnt : Field nandReqCnt := λ v r,
  MkHOST_REQUEST_TIME_ENTRY (timeReqCode r) (fetch r) (blockedBufferDef r) (nandReqStart r) (nandReqEnd r) (nvmeDmaStart r) (nvmeDmaEnd r) (nvmeDmaCnt r) (wrap 32 v).

(** The statistics (get_time_host_request.c). *)
Record TSt := MkTSt {
  t_entry : gmap Z HOST_REQUEST_TIME_ENTRY;
  t_printBuffer : gmap Z (list Z);
  t_bufferWritePoint : Z;
  t_time_cnt : Z;
  t_total_r : Z;
  t_total_w : Z;
}.
#[global] Instance set_t_entry : Field t_entry := λ v r,
  MkTSt v (t_printBuffer r) (t_bufferWritePoint r) (t_time_cnt r) (t_total_r r) (t_total_w r).
#[global] Instance set_t_printBuffer : Field t_printBuffer := λ v r,
  MkTSt (t_entry r) v (t_bufferWritePoint r) (t_time_cnt r) (t_total_r r) (t_total_w r).
#[global] Instance set_t_bufferWritePoint : Field t_bufferWritePoint := λ v r,
  MkTSt (t_entry r) (t_printBuffer r) (wrap 32 v) (t_time_cnt r) (t_total_r r) (t_total_w r).
#[global] Instance set_t_time_cnt : Field t_time_cnt := λ v r,
  MkTSt (t_entry r) (t_printBuffer r) (t_bufferWritePoint r) (wrap 32 v) (t_total_r r) (t_total_w r).
#[global] Instance set_t_total_r : Field t_total_r := λ v r,
  MkTSt (t_entry r) (t_printBuffer r) (t_bufferWritePoint r) (t_time_cnt r) (wrap 32 v) (t_total_w r).
#[global] Instance set_t_total_w : Field t_total_w := λ v r,
  MkTSt (t_entry r) (t_printBuffer r) (t_bufferWritePoint r) (t_time_cnt r) (t_total_r r) (wrap 32 v).

Record PHY_BLOCK_ENTRY := MkPHY_BLOCK_ENTRY {
  remappedPhyBlock : Z;  (** 16 bits *)
  phyBad : Z;  (** 1 bits *)
}.
#[global] Instance set_remappedPhyBlock : Field remappedPhyBlock := λ v r,
  MkPHY_BLOCK_ENTRY (wrap 16 v) (phyBad r).
#[global] Instance set_phyBad : Field phyBad := λ v r,
  MkPHY_BLOCK_ENTRY (remappedPhyBlock r) (wrap 1 v).

Record BAD_BLOCK_TABLE_INFO_ENTRY := MkBAD_BLOCK_TABLE_INFO_ENTRY {
  bbtPhyBlock : Z;  (** 16 bits *)
  grownBadUpdate : Z;  (** 1 bits *)
}.
#[global] Instance set_bbtPhyBlock : Field bbtPhyBlock := λ v r,
  MkBAD_BLOCK_TABLE_INFO_ENTRY (wrap 16 v) (grownBadUpdate r).
#[global] Instance set_grownBadUpdate : Field grownBadUpdate := λ v r,
  MkBAD_BLOCK_TABLE_INFO_ENTRY (bbtPhyBlock r) (wrap 1 v).

(** [fifoHead] and [fifoTail] are HOST_DMA_FIFO_CNT_REG words of four byte counters. *)
Record HOST_DMA_STATUS := MkHOST_DMA_STATUS {
  fifoHead : Z;
  fifoTail : Z;
  directDmaTxCnt : Z;
  directDmaRxCnt : Z;
  autoDmaTxCnt : Z;
  autoDmaRxCnt : Z;
}.
#[global] Instance set_fifoHead : Field fifoHead := λ v r,
  MkHOST_DMA_STATUS (wrap 32 v) (fifoTail r) (directDmaTxCnt r) (directDmaRxCnt r) (autoDmaTxCnt r) (autoDmaRxCnt r).
#[global] Instance set_fifoTail : Field fifoTail := λ v r,
  MkHOST_DMA_STATUS (fifoHead r) (wrap 32 v) (directDmaTxCnt r) (directDmaRxCnt r) (autoDmaTxCnt r) (autoDmaRxCnt r).
#[global] Instance set_directDmaTxCnt : Field directDmaTxCnt := λ v r,
  MkHOST_DMA_STATUS (fifoHead r) (fifoTail r) (wrap 32 v) (directDmaRxCnt r) (autoDmaTxCnt r) (autoDmaRxCnt r).
#[global] Instance set_directDmaRxCnt : Field directDmaRxCnt := λ v r,
  MkHOST_DMA_STATUS (fifoHead r) (fifoTail r) (directDmaTxCnt r) (wrap 32 v) (autoDmaTxCnt r) (autoDmaRxCnt r).
#[global] Instance set_autoDmaTxCnt : Field autoDmaTxCnt := λ v r,
  MkHOST_DMA_STATUS (fifoHead r) (fifoTail r) (directDmaTxCnt r) (directDmaRxCnt r) (wrap 32 v) (autoDmaRxCnt r).
#[global] Instance set_autoDmaRxCnt : Field autoDmaRxCnt := λ v r,
  MkHOST_DMA_STATUS (fifoHead r) (fifoTail r) (directDmaTxCnt r) (directDmaRxCnt r) (autoDmaTxCnt r) (wrap 32 v).

Record HOST_DMA_ASSIST_STATUS := MkHOST_DMA_ASSIST_STATUS {
  autoDmaTxOverFlowCnt : Z;
  autoDmaRxOverFlowCnt : Z;
}.
#[global] Instance set_autoDmaTxOverFlowCnt : Field autoDmaTxOverFlowCnt := λ v r,
  MkHOST_DMA_ASSIST_STATUS (wrap 32 v) (autoDmaRxOverFlowCnt r).
#[global] Instance set_autoDmaRxOverFlowCnt : Field autoDmaRxOverFlowCnt := λ v r,
  MkHOST_DMA_ASSIST_STATUS (autoDmaTxOverFlowCnt r) (wrap 32 v).

Record NVME_IO_SQ_STATUS := MkNVME_IO_SQ_STATUS {
  sqValid : Z;  (** 8 bits *)
  sqCqVector : Z;  (** 8 bits *)
  sqQSzie : Z;  (** 16 bits *)
  sqPcieBaseAddrL : Z;
  sqPcieBaseAddrH : Z;
}.
#[global] Instance set_sqValid : Field sqValid := λ v r,
  MkNVME_IO_SQ_STATUS (wrap 8 v) (sqCqVector r) (sqQSzie r) (sqPcieBaseAddrL r) (sqPcieBaseAddrH r).
#[global] Instance set_sqCqVector : Field sqCqVector := λ v r,
  MkNVME_IO_SQ_STATUS (sqValid r) (wrap 8 v) (sqQSzie r) (sqPcieBaseAddrL r) (sqPcieBaseAddrH r).
#[global] Instance set_sqQSzie : Field sqQSzie := λ v r,
  MkNVME_IO_SQ_STATUS (sqValid r) (sqCqVector r) (wrap 16 v) (sqPcieBaseAddrL r) (sqPcieBaseAddrH r).
#[global] Instance set_sqPcieBaseAddrL : Field sqPcieBaseAddrL := λ v r,
  MkNVME_IO_SQ_STATUS (sqValid r) (sqCqVector r) (sqQSzie r) (wrap 32 v) (sqPcieBaseAddrH r).
#[global] Instance set_sqPcieBaseAddrH : Field sqPcieBaseAddrH := λ v r,
  MkNVME_IO_SQ_STATUS (sqValid r) (sqCqVector r) (sqQSzie r) (sqPcieBaseAddrL r) (wrap 32 v).

Record NVME_IO_CQ_STATUS := MkNVME_IO_CQ_STATUS {
  cqValid : Z;  (** 8 bits *)
  cqIrqEn : Z;  (** 8 bits *)
  cqIrqVector : Z;  (** 16 bits *)
  cqQSzie : Z;  (** 16 bits *)
  cqPcieBaseAddrL : Z;
  cqPcieBaseAddrH : Z;
}.
#[global] Instance set_cqValid : Field cqValid := λ v r,
  MkNVME_IO_CQ_STATUS (wrap 8 v) (cqIrqEn r) (cqIrqVector r) (cqQSzie r) (cqPcieBaseAddrL r) (cqPcieBaseAddrH r).
#[global] Instance set_cqIrqEn : Field cqIrqEn := λ v r,
  MkNVME_IO_CQ_STATUS (cqValid r) (wrap 8 v) (cqIrqVector r) (cqQSzie r) (cqPcieBaseAddrL r) (cqPcieBaseAddrH r).
#[global] Instance set_cqIrqVector : Field cqIrqVector := λ v r,
  MkNVME_IO_CQ_STATUS (cqValid r) (cqIrqEn r) (wrap 16 v) (cqQSzie r) (cqPcieBaseAddrL r) (cqPcieBaseAddrH r).
#[global] Instance set_cqQSzie : Field cqQSzie := λ v r,
  MkNVME_IO_CQ_STATUS (cqValid r) (cqIrqEn r) (cqIrqVector r) (wrap 16 v) (cqPcieBaseAddrL r) (cqPcieBaseAddrH r).
#[global] Instance set_cqPcieBaseAddrL : Field cqPcieBaseAddrL := λ v r,
  MkNVME_IO_CQ_STATUS (cqValid r) (cqIrqEn r) (cqIrqVector r) (cqQSzie r) (wrap 32 v) (cqPcieBaseAddrH r).
#[global] Instance set_cqPcieBaseAddrH : Field cqPcieBaseAddrH := λ v r,
  MkNVME_IO_CQ_STATUS (cqValid r) (cqIrqEn r) (cqIrqVector r) (cqQSzie r) (cqPcieBaseAddrL r) (wrap 32 v).

Record NVME_CONTEXT := MkNVME_CONTEXT {
  status : Z;
  cacheEn : Z;
  numOfIOSubmissionQueuesAllocated : Z;  (** 16 bits *)
  numOfIOCompletionQueuesAllocated : Z;  (** 16 bits *)
  ioSqInfo : gmap Z NVME_IO_SQ_STATUS;
  ioCqInfo : gmap Z NVME_IO_CQ_STATUS;
}.
#[global] Instance set_status : Field status := λ v r,
  MkNVME_CONTEXT (wrap 32 v) (cacheEn r) (numOfIOSubmissionQueuesAllocated r) (numOfIOCompletionQueuesAllocated r) (ioSqInfo r) (ioCqInfo r).
#[global] Instance set_cacheEn : Field cacheEn := λ v r,
  MkNVME_CONTEXT (status r) (wrap 32 v) (numOfIOSubmissionQueuesAllocated r) (numOfIOCompletionQueuesAllocated r) (ioSqInfo r) (ioCqInfo r).
#[global] Instance set_numOfIOSubmissionQueuesAllocated : Field numOfIOSubmissionQueuesAllocated := λ v r,
  MkNVME_CONTEXT (status r) (cacheEn r) (wrap 16 v) (numOfIOCompletionQueuesAllocated r) (ioSqInfo r) (ioCqInfo r).
#[global] Instance set_numOfIOCompletionQueuesAllocated : Field numOfIOCompletionQueuesAllocated := λ v r,
  MkNVME_CONTEXT (status r) (cacheEn r) (numOfIOSubmissionQueuesAllocated r) (wrap 16 v) (ioSqInfo r) (ioCqInfo r).
#[global] Instance set_ioSqInfo : Field ioSqInfo := λ v r,
  MkNVME_CONTEXT (status r) (cacheEn r) (numOfIOSubmissionQueuesAllocated r) (numOfIOCompletionQueuesAllocated r) v (ioCqInfo r).
#[global] Instance set_ioCqInfo : Field ioCqInfo := λ v r,
  MkNVME_CONTEXT (status r) (cacheEn r) (numOfIOSubmissionQueuesAllocated r) (numOfIOCompletionQueuesAllocated r) (ioSqInfo r) v.

(** The NVMe context, the variables of host_lld.c, and the device. *)
Record HSt (W : Type) := MkHSt {
  h_nvmeTask : NVME_CONTEXT;
  h_dma : HOST_DMA_STATUS;
  h_assist : HOST_DMA_ASSIST_STATUS;
  h_world : W;
}.
Arguments MkHSt {W} _ _ _ _.
Arguments h_nvmeTask {W} _.
Arguments h_dma {W} _.
Arguments h_assist {W} _.
Arguments h_world {W} _.
#[global] Instance set_h_nvmeTask {W : Type} : Field (R:=HSt W) (T:=NVME_CONTEXT) h_nvmeTask := λ v r,
  MkHSt v (h_dma r) (h_assist r) (h_world r).
#[global] Instance set_h_dma {W : Type} : Field (R:=HSt W) (T:=HOST_DMA_STATUS) h_dma := λ v r,
  MkHSt (h_nvmeTask r) v (h_assist r) (h_world r).
#[global] Instance set_h_assist {W : Type} : Field (R:=HSt W) (T:=HOST_DMA_ASSIST_STATUS) h_assist := λ v r,
  MkHSt (h_nvmeTask r) (h_dma r) v (h_world r).
#[global] Instance set_h_world {W : Type} : Field (R:=HSt W) (T:=W) h_world := λ v r,
  MkHSt (h_nvmeTask r) (h_dma r) (h_assist r) v.

(** The variables of the NAND scheduler (request_schedule.c). *)
Record SSt := MkSSt {
  s_dieState : gmap Z (gmap Z DIE_STATE_ENTRY);
  s_wayPriority : gmap Z WAY_PRIORITY_ENTRY;
  s_retryLimit : gmap (Z * Z) Z;
}.
#[global] Instance set_s_dieState : Field s_dieState := λ v r,
  MkSSt v (s_wayPriority r) (s_retryLimit r).
#[global] Instance set_s_wayPriority : Field s_wayPriority := λ v r,
  MkSSt (s_dieState r) v (s_retryLimit r).
#[global] Instance set_s_retryLimit : Field s_retryLimit := λ v r,
  MkSSt (s_dieState r) (s_wayPriority r) v.

(** All variables of the request layer. *)
Record RSt (W : Type) := MkRSt {
  r_q : QSt;
  r_buf : BSt;
  r_ccmd : BSt;
  r_tempDataBuf : gmap Z Z;
  r_rowAddrDep : gmap (Z * Z * Z) ROW_ADDR_DEPENDENCY_ENTRY;
  r_sched : SSt;
  r_customIo : gmap Z CUSTOM_IO_CMD_COMPLETE_ENTRY;
  r_time : TSt;
  r_phyBlock : gmap (Z * Z) PHY_BLOCK_ENTRY;
  r_bbtInfo : gmap Z BAD_BLOCK_TABLE_INFO_ENTRY;
  r_chCtlReg : gmap Z Z;
  r_host : HSt W;
}.
Arguments MkRSt {W} _ _ _ _ _ _ _ _ _ _ _ _.
Arguments r_q {W} _.
Arguments r_buf {W} _.
Arguments r_ccmd {W} _.
Arguments r_tempDataBuf {W} _.
Arguments r_rowAddrDep {W} _.
Arguments r_sched {W} _.
Arguments r_customIo {W} _.
Arguments r_time {W} _.
Arguments r_phyBlock {W} _.
Arguments r_bbtInfo {W} _.
Arguments r_chCtlReg {W} _.
Arguments r_host {W} _.
#[global] Instance set_r_q {W : Type} : Field (R:=RSt W) (T:=QSt) r_q := λ v r,
  MkRSt v (r_buf r) (r_ccmd r) (r_tempDataBuf r) (r_rowAddrDep r) (r_sched r) (r_customIo r) (r_time r) (r_phyBlock r) (r_bbtInfo r) (r_chCtlReg r) (r_host r).
#[global] Instance set_r_buf {W : Type} : Field (R:=RSt W) (T:=BSt) r_buf := λ v r,
  MkRSt (r_q r) v (r_ccmd r) (r_tempDataBuf r) (r_rowAddrDep r) (r_sched r) (r_customIo r) (r_time r) (r_phyBlock r) (r_bbtInfo r) (r_chCtlReg r) (r_host r).
#[global] Instance set_r_ccmd {W : Type} : Field (R:=RSt W) (T:=BSt) r_ccmd := λ v r,
  MkRSt (r_q r) (r_buf r) v (r_tempDataBuf r) (r_rowAddrDep r) (r_sched r) (r_customIo r) (r_time r) (r_phyBlock r) (r_bbtInfo r) (r_chCtlReg r) (r_host r).
#[global] Instance set_r_tempDataBuf {W : Type} : Field (R:=RSt W) (T:=gmap Z Z) r_tempDataBuf := λ v r,
  MkRSt (r_q r) (r_buf r) (r_ccmd r) v (r_rowAddrDep r) (r_sched r) (r_customIo r) (r_time r) (r_phyBlock r) (r_bbtInfo r) (r_chCtlReg r) (r_host r).
#[global] Instance set_r_rowAddrDep {W : Type} : Field (R:=RSt W) (T:=gmap (Z * Z * Z) ROW_ADDR_DEPENDENCY_ENTRY) r_rowAddrDep := λ v r,
  MkRSt (r_q r) (r_buf r) (r_ccmd r) (r_tempDataBuf r) v (r_sched r) (r_customIo r) (r_time r) (r_phyBlock r) (r_bbtInfo r) (r_chCtlReg r) (r_host r).
#[global] Instance set_r_sched {W : Type} : Field (R:=RSt W) (T:=SSt) r_sched := λ v r,
  MkRSt (r_q r) (r_buf r) (r_ccmd r) (r_tempDataBuf r) (r_rowAddrDep r) v (r_customIo r) (r_time r) (r_phyBlock r) (r_bbtInfo r) (r_chCtlReg r) (r_host r).
#[global] Instance set_r_customIo {W : Type} : Field (R:=RSt W) (T:=gmap Z CUSTOM_IO_CMD_COMPLETE_ENTRY) r_customIo := λ v r,
  MkRSt (r_q r) (r_buf r) (r_ccmd r) (r_tempDataBuf r) (r_rowAddrDep r) (r_sched r) v (r_time r) (r_phyBlock r) (r_bbtInfo r) (r_chCtlReg r) (r_host r).
#[global] Instance set_r_time {W : Type} : Field (R:=RSt W) (T:=TSt) r_time := λ v r,
  MkRSt (r_q r) (r_buf r) (r_ccmd r) (r_tempDataBuf r) (r_rowAddrDep r) (r_sched r) (r_customIo r) v (r_phyBlock r) (r_bbtInfo r) (r_chCtlReg r) (r_host r).
#[global] Instance set_r_phyBlock {W : Type} : Field (R:=RSt W) (T:=gmap (Z * Z) PHY_BLOCK_ENTRY) r_phyBlock := λ v r,
  MkRSt (r_q r) (r_buf r) (r_ccmd r) (r_tempDataBuf r) (r_rowAddrDep r) (r_sched r) (r_customIo r) (r_time r) v (r_bbtInfo r) (r_chCtlReg r) (r_host r).
#[global] Instance set_r_bbtInfo {W : Type} : Field (R:=RSt W) (T:=gmap Z BAD_BLOCK_TABLE_INFO_ENTRY) r_bbtInfo := λ v r,
  MkRSt (r_q r) (r_buf r) (r_ccmd r) (r_tempDataBuf r) (r_rowAddrDep r) (r_sched r) (r_customIo r) (r_time r) (r_phyBlock r) v (r_chCtlReg r) (r_host r).
#[global] Instance set_r_chCtlReg {W : Type} : Field (R:=RSt W) (T:=gmap Z Z) r_chCtlReg := λ v r,
  MkRSt (r_q r) (r_buf r) (r_ccmd r) (r_tempDataBuf r) (r_rowAddrDep r) (r_sched r) (r_customIo r) (r_time r) (r_phyBlock r) (r_bbtInfo r) v (r_host r).
#[global] Instance set_r_host {W : Type} : Field (R:=RSt W) (T:=HSt W) r_host := λ v r,
  MkRSt (r_q r) (r_buf r) (r_ccmd r) (r_tempDataBuf r) (r_rowAddrDep r) (r_sched r) (r_customIo r) (r_time r) (r_phyBlock r) (r_bbtInfo r) (r_chCtlReg r) v.

(** ** The variables as lvalues of the request layer *)

(** A variable of a component, seen in the whole state. *)
Definition sub {S S' T} (get : S' → S) `{!Field get} (l : lval S T) : lval S' T :=
  LV (λ s, peek l (get s)) (λ v s, fset get (poke l v (get s)) s).

Section lvalues.
Context {W : Type}.

Definition rPool : lval (RSt W) (gmap Z SSD_REQ_FORMAT) := sub r_q reqPool.
Definition rQueues : lval (RSt W) (gmap queue_id REQUEST_QUEUE) := sub r_q queues.
Definition rBuf : lval (RSt W) (gmap Z DATA_BUF_ENTRY) := sub r_buf dataBuf.
Definition rCcmdBuf : lval (RSt W) (gmap Z DATA_BUF_ENTRY) := sub r_ccmd dataBuf.
Definition tempDataBuf : lval (RSt W) (gmap Z Z) := glob r_tempDataBuf.
Definition rowAddrDep : lval (RSt W) (gmap (Z * Z * Z) ROW_ADDR_DEPENDENCY_ENTRY) := glob r_rowAddrDep.
Definition customIo : lval (RSt W) (gmap Z CUSTOM_IO_CMD_COMPLETE_ENTRY) := glob r_customIo.
Definition phyBlock : lval (RSt W) (gmap (Z * Z) PHY_BLOCK_ENTRY) := glob r_phyBlock.
Definition bbtInfo : lval (RSt W) (gmap Z BAD_BLOCK_TABLE_INFO_ENTRY) := glob r_bbtInfo.
Definition chCtlReg : lval (RSt W) (gmap Z Z) := glob r_chCtlReg.

Definition dieStates : lval SSt (gmap Z (gmap Z DIE_STATE_ENTRY)) := glob s_dieState.
Definition wayPriority : lval SSt (gmap Z WAY_PRIORITY_ENTRY) := glob s_wayPriority.
Definition retryLimit : lval SSt (gmap (Z * Z) Z) := glob s_retryLimit.
Definition rDieState : lval (RSt W) (gmap Z (gmap Z DIE_STATE_ENTRY)) := sub r_sched dieStates.
Definition rWayPriority : lval (RSt W) (gmap Z WAY_PRIORITY_ENTRY) := sub r_sched wayPriority.
Definition rRetryLimit : lval (RSt W) (gmap (Z * Z) Z) := sub r_sched retryLimit.

(** Run host-interface or device code in the request layer. *)
Definition hostM {A} (m : M (HSt W) A) : M (RSt W) A := zoom r_host m.
Definition devM {A} (m : M W A) : M (RSt W) A := zoom r_host (zoom h_world m).
End lvalues.
