(* ===== verification/HostLld.v ===== *)
(** The host interface: register and DMA access (nvme/host_lld.c) and the
    statistics of the host requests' DMA transfers.

    Register images are words built with bit-field assignments; a local image
    that the code does not initialise starts with arbitrary contents
    ([undef32]).  The auto-DMA engine counts transfers in byte-wide registers;
    the driver extends them with overflow counters, and decides from them
    whether the transfer with a given number is done. *)
From S2P Require Import Prelude Frame Config MemMap ReqFormat State.

(** Iterations allowed to a loop that waits for the device. *)
Class Fuel := wait_fuel : nat.

Section host_lld.
Context {W : Type} `{Device W} `{Fuel}.

Definition DEV_IRQ_MASK_REG_ADDR := HOST_IP_ADDR + 0x4.
Definition DEV_IRQ_CLEAR_REG_ADDR := HOST_IP_ADDR + 0x8.
Definition DEV_IRQ_STATUS_REG_ADDR := HOST_IP_ADDR + 0xC.
Definition PCIE_STATUS_REG_ADDR := HOST_IP_ADDR + 0x100.
Definition PCIE_FUNC_REG_ADDR := HOST_IP_ADDR + 0x104.
Definition NVME_STATUS_REG_ADDR := HOST_IP_ADDR + 0x200.
Definition HOST_DMA_FIFO_CNT_REG_ADDR := HOST_IP_ADDR + 0x204.
Definition NVME_ADMIN_QUEUE_SET_REG_ADDR := HOST_IP_ADDR + 0x21C.
Definition NVME_IO_SQ_SET_REG_ADDR := HOST_IP_ADDR + 0x220.
Definition NVME_IO_CQ_SET_REG_ADDR := HOST_IP_ADDR + 0x260.
Definition NVME_CMD_FIFO_REG_ADDR := HOST_IP_ADDR + 0x300.
Definition NVME_CPL_FIFO_REG_ADDR := HOST_IP_ADDR + 0x304.
Definition HOST_DMA_CMD_FIFO_REG_ADDR := HOST_IP_ADDR + 0x310.
Definition NVME_CMD_SRAM_ADDR := HOST_IP_ADDR + 0x10000.

Definition HOST_DMA_DIRECT_TYPE := 1.
Definition HOST_DMA_AUTO_TYPE := 0.
Definition HOST_DMA_TX_DIRECTION := 1.
Definition HOST_DMA_RX_DIRECTION := 0.
Definition ONLY_CPL_TYPE := 0.
Definition AUTO_CPL_TYPE := 1.
Definition CMD_SLOT_RELEASE_TYPE := 2.
Definition P_SLOT_TAG_WIDTH := 10.

Definition NVME_TASK_IDLE := 0x0.
Definition NVME_TASK_WAIT_CC_EN := 0x1.
Definition NVME_TASK_RUNNING := 0x2.
Definition NVME_TASK_SHUTDOWN := 0x3.
Definition NVME_TASK_WAIT_RESET := 0x4.
Definition NVME_TASK_RESET := 0x5.

Abbreviation read32 a := (zoom h_world (IO_READ32 a)).
Abbreviation write32 a v := (zoom h_world (IO_WRITE32 a v)).
Abbreviation undef := (zoom h_world undef32).

Definition g_nvmeTask : lval (HSt W) NVME_CONTEXT := glob h_nvmeTask.
Definition g_hostDmaStatus : lval (HSt W) HOST_DMA_STATUS := glob h_dma.
Definition g_hostDmaAssistStatus : lval (HSt W) HOST_DMA_ASSIST_STATUS := glob h_assist.

(** [ASSERT] of debug.h: report and stop. *)
Definition ASSERT {S} (b : bool) : M S unit := when (negb b) (fail Assert).

(** ** Interrupts and controller registers *)

Definition dev_irq_init : M (HSt W) unit :=
  let devReg := 0 in
  let devReg := set_bits 0 1 1 devReg in    (* pcieLink *)
  let devReg := set_bits 1 1 1 devReg in    (* busMaster *)
  let devReg := set_bits 2 1 1 devReg in    (* pcieIrq *)
  let devReg := set_bits 3 1 1 devReg in    (* pcieMsi *)
  let devReg := set_bits 4 1 1 devReg in    (* pcieMsix *)
  let devReg := set_bits 5 1 1 devReg in    (* nvmeCcEn *)
  let devReg := set_bits 6 1 1 devReg in    (* nvmeCcShn *)
  let devReg := set_bits 7 1 1 devReg in    (* mAxiWriteErr *)
  let devReg := set_bits 9 1 1 devReg in    (* pcieMreqErr *)
  let devReg := set_bits 10 1 1 devReg in   (* pcieCpldErr *)
  let devReg := set_bits 11 1 1 devReg in   (* pcieCpldLenErr *)
  write32 DEV_IRQ_MASK_REG_ADDR devReg.

Definition dev_irq_handler : M (HSt W) unit :=
  devReg <- read32 DEV_IRQ_STATUS_REG_ADDR ;;
  write32 DEV_IRQ_CLEAR_REG_ADDR devReg ;;
  when (get_bits 0 1 devReg =? 1)
    (pcieReg <- read32 PCIE_STATUS_REG_ADDR ;;
     when (get_bits 8 1 pcieReg =? 0) (g_nvmeTask∙status ::= NVME_TASK_RESET)) ;;
  when (get_bits 1 1 devReg =? 1) (_ <- read32 PCIE_FUNC_REG_ADDR ;; skip) ;;
  when (get_bits 2 1 devReg =? 1) (_ <- read32 PCIE_FUNC_REG_ADDR ;; skip) ;;
  when (get_bits 3 1 devReg =? 1) (_ <- read32 PCIE_FUNC_REG_ADDR ;; skip) ;;
  when (get_bits 4 1 devReg =? 1) (_ <- read32 PCIE_FUNC_REG_ADDR ;; skip) ;;
  when (get_bits 5 1 devReg =? 1)
    (nvmeReg <- read32 NVME_STATUS_REG_ADDR ;;
     if get_bits 0 1 nvmeReg =? 1 then g_nvmeTask∙status ::= NVME_TASK_WAIT_CC_EN
     else g_nvmeTask∙status ::= NVME_TASK_RESET) ;;
  when (get_bits 6 1 devReg =? 1)
    (nvmeReg <- read32 NVME_STATUS_REG_ADDR ;;
     when (get_bits 1 2 nvmeReg =? 1) (g_nvmeTask∙status ::= NVME_TASK_SHUTDOWN)).

Definition check_nvme_cc_en : M (HSt W) Z :=
  nvmeReg <- read32 NVME_STATUS_REG_ADDR ;; ret (get_bits 0 1 nvmeReg).

Definition pcie_async_reset (rstCnt : Z) : M (HSt W) unit :=
  nvmeReg <- undef ;;
  let nvmeReg := set_bits 7 4 rstCnt nvmeReg in
  write32 NVME_STATUS_REG_ADDR nvmeReg.

Definition set_link_width (linkNum : Z) : M (HSt W) unit :=
  nvmeReg <- undef ;;
  let nvmeReg := set_bits 11 2 linkNum nvmeReg in
  let nvmeReg := set_bits 13 2 1 nvmeReg in
  write32 NVME_STATUS_REG_ADDR nvmeReg.

Definition set_nvme_csts_rdy (rdy : Z) : M (HSt W) unit :=
  nvmeReg <- read32 NVME_STATUS_REG_ADDR ;;
  write32 NVME_STATUS_REG_ADDR (set_bits 4 1 rdy nvmeReg).

Definition set_nvme_csts_shst (shst : Z) : M (HSt W) unit :=
  nvmeReg <- read32 NVME_STATUS_REG_ADDR ;;
  write32 NVME_STATUS_REG_ADDR (set_bits 5 2 shst nvmeReg).

Definition set_nvme_admin_queue (sqValid cqValid cqIrqEn : Z) : M (HSt W) unit :=
  nvmeReg <- read32 NVME_ADMIN_QUEUE_SET_REG_ADDR ;;
  let nvmeReg := set_bits 1 1 sqValid nvmeReg in
  let nvmeReg := set_bits 0 1 cqValid nvmeReg in
  let nvmeReg := set_bits 2 1 cqIrqEn nvmeReg in
  write32 NVME_ADMIN_QUEUE_SET_REG_ADDR nvmeReg.

(** A command as fetched: queue, slot, sequence number and its 16 words. *)
Record NVME_COMMAND := MkNVME_COMMAND { qID : Z; cmdSlotTag : Z; cmdSeqNum : Z; cmdDword : list Z }.

Fixpoint read_words (n : nat) (addr : Z) : M (HSt W) (list Z) :=
  match n with
  | O => ret []
  | Datatypes.S n => w <- read32 addr ;; ws <- read_words n (addr + 4) ;; ret (w :: ws)
  end.

(** The command when one is valid. *)
Definition get_nvme_cmd : M (HSt W) (option NVME_COMMAND) :=
  nvmeReg <- read32 NVME_CMD_FIFO_REG_ADDR ;;
  if get_bits 31 1 nvmeReg =? 1 then
    let tag := get_bits 5 P_SLOT_TAG_WIDTH nvmeReg in
    ws <- read_words 16 (NVME_CMD_SRAM_ADDR + tag * 64) ;;
    ret (Some (MkNVME_COMMAND (get_bits 0 4 nvmeReg) tag (get_bits 16 8 nvmeReg) ws))
  else ret None.

(** ** Completions

    NVME_CPL_FIFO_REG: word 2 holds the slot tag (10 bits), four reserved bits,
    the type (2 bits) and the status field (16 bits). *)

Definition cpl_word2 (old cmdSlotTag cplType : Z) (statusFieldWord : option Z) : Z :=
  let w := set_bits 0 P_SLOT_TAG_WIDTH cmdSlotTag old in
  let w := match statusFieldWord with Some st => set_bits 16 16 st w | None => w end in
  set_bits 14 2 cplType w.

Definition set_auto_nvme_cpl (cmdSlotTag specific statusFieldWord : Z) : M (HSt W) unit :=
  old <- undef ;;
  write32 (NVME_CPL_FIFO_REG_ADDR + 4) specific ;;
  write32 (NVME_CPL_FIFO_REG_ADDR + 8)
    (cpl_word2 old cmdSlotTag AUTO_CPL_TYPE (Some statusFieldWord)).

Definition set_nvme_slot_release (cmdSlotTag : Z) : M (HSt W) unit :=
  old <- undef ;;
  write32 (NVME_CPL_FIFO_REG_ADDR + 8) (cpl_word2 old cmdSlotTag CMD_SLOT_RELEASE_TYPE None).

Definition set_nvme_cpl (sqId cid specific statusFieldWord : Z) : M (HSt W) unit :=
  old0 <- undef ;;
  old2 <- undef ;;
  write32 NVME_CPL_FIFO_REG_ADDR (set_bits 16 4 sqId (set_bits 0 16 cid old0)) ;;
  write32 (NVME_CPL_FIFO_REG_ADDR + 4) specific ;;
  write32 (NVME_CPL_FIFO_REG_ADDR + 8)
    (set_bits 14 2 ONLY_CPL_TYPE (set_bits 16 16 statusFieldWord old2)).

Definition set_io_sq (ioSqIdx valid cqVector qSzie pcieBaseAddrL pcieBaseAddrH : Z) : M (HSt W) unit :=
  old <- undef ;;
  let w := set_bits 16 1 valid old in
  let w := set_bits 17 4 cqVector w in
  let w := set_bits 24 8 qSzie w in
  let w := set_bits 0 16 pcieBaseAddrH w in
  let addr := NVME_IO_SQ_SET_REG_ADDR + ioSqIdx * 8 in
  write32 addr pcieBaseAddrL ;;
  write32 (addr + 4) w.

Definition set_io_cq (ioCqIdx valid irqEn irqVector qSzie pcieBaseAddrL pcieBaseAddrH : Z) : M (HSt W) unit :=
  old <- undef ;;
  let w := set_bits 16 1 valid old in
  let w := set_bits 20 1 irqEn w in
  let w := set_bits 17 3 irqVector w in
  let w := set_bits 24 8 qSzie w in
  let w := set_bits 0 16 pcieBaseAddrH w in
  let addr := NVME_IO_CQ_SET_REG_ADDR + ioCqIdx * 8 in
  write32 addr pcieBaseAddrL ;;
  write32 (addr + 4) w.

(** ** DMA

    The four byte counters of HOST_DMA_FIFO_CNT_REG. *)

Inductive dma_engine := directDmaRx | directDmaTx | autoDmaRx | autoDmaTx.
Definition cnt_lo (e : dma_engine) : Z :=
  match e with directDmaRx => 0 | directDmaTx => 8 | autoDmaRx => 16 | autoDmaTx => 24 end.
Definition cnt (e : dma_engine) (dword : Z) : Z := get_bits (cnt_lo e) 8 dword.

(** [g_hostDmaStatus.fifoHead.dword = IO_READ32(HOST_DMA_FIFO_CNT_REG_ADDR)] *)
Definition read_fifo_head : M (HSt W) unit :=
  v <- read32 HOST_DMA_FIFO_CNT_REG_ADDR ;; g_hostDmaStatus∙fifoHead ::= v.

(** [g_hostDmaStatus.fifoTail.<engine>++] *)
Definition incr_tail (e : dma_engine) : M (HSt W) unit :=
  modify (g_hostDmaStatus∙fifoTail) (λ t, set_bits (cnt_lo e) 8 (cnt e t + 1) t).

Definition dma_word3 (dmaType dmaDirection dmaLen cmd4KBOffset autoCompletion : Z) : Z :=
  let w := 0 in
  let w := set_bits 31 1 dmaType w in
  let w := set_bits 30 1 dmaDirection w in
  let w := set_bits 0 13 dmaLen w in
  let w := set_bits 14 9 cmd4KBOffset w in
  set_bits 13 1 autoCompletion w.

Definition set_direct_dma (e : dma_engine) (devAddr pcieAddrH pcieAddrL len : Z) : M (HSt W) unit :=
  ASSERT ((len <=? 0x1000) && (Z.land pcieAddrL 0x3 =? 0)) ;;
  dword4 <- undef ;;
  write32 HOST_DMA_CMD_FIFO_REG_ADDR devAddr ;;
  write32 (HOST_DMA_CMD_FIFO_REG_ADDR + 4) pcieAddrH ;;
  write32 (HOST_DMA_CMD_FIFO_REG_ADDR + 8) pcieAddrL ;;
  write32 (HOST_DMA_CMD_FIFO_REG_ADDR + 12)
    (dma_word3 HOST_DMA_DIRECT_TYPE
       (match e with directDmaTx => HOST_DMA_TX_DIRECTION | _ => HOST_DMA_RX_DIRECTION end) len 0 0) ;;
  write32 (HOST_DMA_CMD_FIFO_REG_ADDR + 16) dword4 ;;
  incr_tail e.

Definition set_direct_tx_dma (devAddr pcieAddrH pcieAddrL len : Z) : M (HSt W) unit :=
  set_direct_dma directDmaTx devAddr pcieAddrH pcieAddrL len ;;
  modify (g_hostDmaStatus∙directDmaTxCnt) (λ n, n + 1).

Definition set_direct_rx_dma (devAddr pcieAddrH pcieAddrL len : Z) : M (HSt W) unit :=
  set_direct_dma directDmaRx devAddr pcieAddrH pcieAddrL len ;;
  modify (g_hostDmaStatus∙directDmaRxCnt) (λ n, n + 1).

(** Wait until the engine's queue is not full. *)
Definition wait_not_full (e : dma_engine) : M (HSt W) unit :=
  read_fifo_head ;;
  loop wait_fuel (λ _ : unit,
    t <- !(g_hostDmaStatus∙fifoTail) ;; h <- !(g_hostDmaStatus∙fifoHead) ;;
    if (cnt e t + 1) mod 256 =? cnt e h then read_fifo_head ;; ret (inl tt)
    else ret (inr tt)) tt.

(** The common part of set_auto_tx_dma and set_auto_rx_dma, before the counters. *)
Definition set_auto_dma (e : dma_engine) (cmdSlotTag cmd4KBOffset devAddr autoCompletion : Z)
    : M (HSt W) unit :=
  ASSERT (cmd4KBOffset <? 256) ;;
  wait_not_full e ;;
  write32 HOST_DMA_CMD_FIFO_REG_ADDR devAddr ;;
  write32 (HOST_DMA_CMD_FIFO_REG_ADDR + 12)
    (dma_word3 HOST_DMA_AUTO_TYPE
       (match e with autoDmaTx => HOST_DMA_TX_DIRECTION | _ => HOST_DMA_RX_DIRECTION end)
       0 cmd4KBOffset autoCompletion) ;;
  write32 (HOST_DMA_CMD_FIFO_REG_ADDR + 16) cmdSlotTag.

Definition set_auto_tx_dma (cmdSlotTag cmd4KBOffset devAddr autoCompletion : Z) : M (HSt W) unit :=
  set_auto_dma autoDmaTx cmdSlotTag cmd4KBOffset devAddr autoCompletion ;;
  t <- !(g_hostDmaStatus∙fifoTail) ;;
  incr_tail autoDmaTx ;;
  t' <- !(g_hostDmaStatus∙fifoTail) ;;
  when (cnt autoDmaTx t >? cnt autoDmaTx t')
    (modify (g_hostDmaAssistStatus∙autoDmaTxOverFlowCnt) (λ n, n + 1)) ;;
  modify (g_hostDmaStatus∙autoDmaTxCnt) (λ n, n + 1).

Definition set_auto_rx_dma (cmdSlotTag cmd4KBOffset devAddr autoCompletion : Z) : M (HSt W) unit :=
  set_auto_dma autoDmaRx cmdSlotTag cmd4KBOffset devAddr autoCompletion ;;
  t <- !(g_hostDmaStatus∙fifoTail) ;;
  incr_tail autoDmaRx ;;
  t' <- !(g_hostDmaStatus∙fifoTail) ;;
  when (cnt autoDmaRx t >? cnt autoDmaRx t')
    (modify (g_hostDmaAssistStatus∙autoDmaRxOverFlowCnt) (λ n, n + 1)) ;;
  modify (g_hostDmaStatus∙autoDmaRxCnt) (λ n, n + 1).

(** Wait until the engine has done everything issued to it. *)
Definition check_dma_done (e : dma_engine) : M (HSt W) unit :=
  loop wait_fuel (λ _ : unit,
    h <- !(g_hostDmaStatus∙fifoHead) ;; t <- !(g_hostDmaStatus∙fifoTail) ;;
    if negb (cnt e h =? cnt e t) then read_fifo_head ;; ret (inl tt) else ret (inr tt)) tt.
Definition check_direct_tx_dma_done : M (HSt W) unit := check_dma_done directDmaTx.
Definition check_direct_rx_dma_done : M (HSt W) unit := check_dma_done directDmaRx.
Definition check_auto_tx_dma_done : M (HSt W) unit := check_dma_done autoDmaTx.
Definition check_auto_rx_dma_done : M (HSt W) unit := check_dma_done autoDmaRx.

(** The decision of check_auto_*_dma_partial_done: [head] and [tail] are the
    engine's byte counters, [over] its overflow counter. *)
Definition partial_done (head tail over tailIndex tailAssistIndex : Z) : Z :=
  if head =? tail then 1
  else if head <? tailIndex then
    if tail <? tailIndex then
      if tail >? head then 1
      else if negb (over =? u32 (tailAssistIndex + 1)) then 1 else 0
    else if negb (over =? tailAssistIndex) then 1 else 0
  else if head =? tailIndex then 1
  else if tail <? tailIndex then 1
  else if tail >? head then 1
  else if negb (over =? tailAssistIndex) then 1 else 0.

Definition check_auto_tx_dma_partial_done (tailIndex tailAssistIndex : Z) : M (HSt W) Z :=
  read_fifo_head ;;
  h <- !(g_hostDmaStatus∙fifoHead) ;; t <- !(g_hostDmaStatus∙fifoTail) ;;
  over <- !(g_hostDmaAssistStatus∙autoDmaTxOverFlowCnt) ;;
  ret (partial_done (cnt autoDmaTx h) (cnt autoDmaTx t) over tailIndex tailAssistIndex).

Definition check_auto_rx_dma_partial_done (tailIndex tailAssistIndex : Z) : M (HSt W) Z :=
  read_fifo_head ;;
  h <- !(g_hostDmaStatus∙fifoHead) ;; t <- !(g_hostDmaStatus∙fifoTail) ;;
  over <- !(g_hostDmaAssistStatus∙autoDmaRxOverFlowCnt) ;;
  ret (partial_done (cnt autoDmaRx h) (cnt autoDmaRx t) over tailIndex tailAssistIndex).
End host_lld.

(** ** Properties *)

(** The decision procedure is right for counters that represent [H] transfers
    done out of [T] issued, when it is asked for transfer number [T0]. *)
Lemma partial_done_spec H T T0 :
  0 ≤ H ≤ T → T - H ≤ 255 → 0 ≤ T0 ≤ T → T / 256 < 2 ^ 32 →
  partial_done (H mod 256) (T mod 256) (T / 256) (T0 mod 256) (T0 / 256) = (if T0 <=? H then 1 else 0).
Proof.
  intros HH HT HT0 Hw. unfold partial_done.
  assert (0 ≤ T0 / 256 ≤ T / 256) by (split; [apply Z.div_pos; lia|apply Z.div_le_mono; lia]).
  destruct (Z.eq_dec (T0 / 256) (T / 256)) as [E|E].
  - rewrite (Z.eqb_sym _ (u32 _)), (Z.eqb_sym _ (T0 / 256)).
    assert (u32 (T0 / 256 + 1) ≠ T / 256).
    { rewrite E. unfold wrap. intros Hm.
      destruct (Z.eq_dec (T / 256 + 1) (2 ^ 32)) as [E1|]; [rewrite E1, Z_mod_same_full in Hm; lia|].
      rewrite Z.mod_small in Hm; lia. }
    rewrite (proj2 (Z.eqb_neq (u32 _) _)) by done. rewrite !Z.gtb_ltb.
    case_Z; cbn; try reflexivity; try lia; Z.div_mod_to_equations; lia.
  - rewrite wrap_small by lia. rewrite !Z.gtb_ltb.
    case_Z; cbn; try reflexivity; try lia; Z.div_mod_to_equations; lia.
Qed.

Section dma_counters.
Context {W : Type} `{Device W} `{Fuel}.

Definition over_of (e : dma_engine) (a : HOST_DMA_ASSIST_STATUS) : Z :=
  match e with autoDmaTx => autoDmaTxOverFlowCnt a | _ => autoDmaRxOverFlowCnt a end.

(** The counters of engine [e] represent [T] transfers issued since the start. *)
Definition represents (e : dma_engine) (s : HSt W) (T : Z) : Prop :=
  0 ≤ T < 2 ^ 40 ∧ 0 ≤ fifoTail (h_dma s) < 2 ^ 32 ∧
  cnt e (fifoTail (h_dma s)) = T mod 256 ∧ over_of e (h_assist s) = T / 256.

(** The byte of engine [e] that the device's counter register shows next. *)
Definition shown (e : dma_engine) (s : HSt W) : Z :=
  cnt e (u32 (dev_read32 HOST_DMA_FIFO_CNT_REG_ADDR (h_world s)).1).

Lemma wp_read_fifo_head (Φ : unit → HSt W → Prop) s :
  (∀ h w, (∀ e, cnt e (u32 h) = shown e s) →
     Φ tt (MkHSt (h_nvmeTask s) (fset fifoHead h (h_dma s)) (h_assist s) w)) →
  wp read_fifo_head Φ s.
Proof.
  intros HΦ. unfold read_fifo_head. apply wp_bind, wp_zoom. unfold IO_READ32, wp, shown in *.
  destruct (dev_read32 _ _) as [v w] eqn:E. cbn. apply HΦ. intros e. by rewrite wrap_wrap.
Qed.

Lemma wp_write32 a v (Φ : unit → HSt W → Prop) s :
  Φ tt (fset h_world (dev_write32 a (u32 v) (h_world s)) s) → wp (zoom h_world (IO_WRITE32 a v)) Φ s.
Proof. done. Qed.

Lemma cnt_same e e' x v :
  cnt e (set_bits (cnt_lo e') 8 x v) = if decide (cnt_lo e = cnt_lo e') then u8 x else cnt e v.
Proof.
  unfold cnt. case_decide as E; [rewrite E; apply get_set_bits; destruct e'; cbn; lia|].
  destruct e, e'; cbn in *; try done; bits; reflexivity.
Qed.

Lemma cnt_u32 e v : 0 ≤ v → cnt e (u32 v) = cnt e v.
Proof.
  intros Hv. unfold cnt, get_bits, wrap. rewrite !Z.shiftr_div_pow2 by (destruct e; cbn; lia).
  apply Z.bits_inj'. intros k Hk. destruct (Z.lt_ge_cases k 8).
  - rewrite !Z.mod_pow2_bits_low, !Z.div_pow2_bits by (destruct e; cbn; lia).
    apply Z.mod_pow2_bits_low. destruct e; cbn; lia.
  - by rewrite !Z.mod_pow2_bits_high by lia.
Qed.

(** The tail register after one more transfer of engine [e]. *)
Definition next_tail (e : dma_engine) (v : Z) : Z := u32 (set_bits (cnt_lo e) 8 (cnt e v + 1) v).

Lemma next_tail_cnt e e' v :
  0 ≤ v < 2 ^ 32 →
  0 ≤ next_tail e v < 2 ^ 32 ∧
  cnt e' (next_tail e v) = (if decide (cnt_lo e' = cnt_lo e) then (cnt e v + 1) mod 256 else cnt e' v).
Proof.
  intros Hv. unfold next_tail. split; [by apply wrap_bound|].
  assert (0 ≤ set_bits (cnt_lo e) 8 (cnt e v + 1) v < 2 ^ 32)
    by (apply set_bits_range; destruct e; cbn; lia).
  rewrite cnt_u32 by lia. rewrite cnt_same. by case_decide.
Qed.

(** The engine makes room within the budget. *)
Definition room (e : dma_engine) (s : HSt W) : Prop := wp (wait_not_full e) (λ _ _, True) s.

Lemma room_intro e T s :
  represents e s T → (0 < wait_fuel)%nat → shown e s ≠ (T + 1) mod 256 → room e s.
Proof.
  intros (_ & _ & Hcnt & _) Hfuel Hsh. unfold room, wait_not_full. apply wp_bind, wp_read_fifo_head.
  intros h w Hh. unfold wait_fuel in *. destruct H0 as [|fuel]; [lia|]. cbn [loop]. apply wp_bind.
  apply wp_bind, (wp_load _ (fifoTail (h_dma s))); [done|].
  apply wp_bind, (wp_load _ (u32 h)); [done|].
  rewrite Hh.
  rewrite (proj2 (Z.eqb_neq _ _)); [by apply wp_ret, wp_ret|].
  rewrite Hcnt, Zplus_mod_idemp_l. done.
Qed.

(** Waiting changes the copy of the head counters and the device only. *)
Lemma wlp_wait_not_full e s :
  wlp (wait_not_full e)
    (λ _ s', ∃ h w, s' = MkHSt (h_nvmeTask s) (fset fifoHead h (h_dma s)) (h_assist s) w) s.
Proof.
  unfold wait_not_full. apply wlp_bind, wp_wlp, wp_read_fifo_head. intros h w _.
  apply (wlp_loop (λ _ s', ∃ h w, s' = MkHSt (h_nvmeTask s) (fset fifoHead h (h_dma s)) (h_assist s) w)); [eauto|].
  clear h w. intros _ _ (h & w & ->). apply wlp_bind, wlp_load. intros t _. apply wlp_bind, wlp_load. intros h' _.
  destruct (_ =? _); [|apply wlp_ret; eauto]. apply wlp_bind, wp_wlp, wp_read_fifo_head. intros h2 w2 _.
  apply wlp_ret. by exists h2, w2.
Qed.

Lemma wp_wait_not_full e (Φ : unit → HSt W → Prop) s :
  room e s → (∀ h w, Φ tt (MkHSt (h_nvmeTask s) (fset fifoHead h (h_dma s)) (h_assist s) w)) →
  wp (wait_not_full e) Φ s.
Proof.
  intros Hr HΦ. pose proof (wlp_wait_not_full e s) as Hw. unfold room, wp, wlp in *.
  destruct (wait_not_full e s) as [[] s'|]; [|done]. destruct Hw as (h & w & ->). apply HΦ.
Qed.

Lemma wp_set_auto_dma e tag off addr ac (Φ : unit → HSt W → Prop) s :
  room e s → off < 256 →
  (∀ h w, Φ tt (MkHSt (h_nvmeTask s) (fset fifoHead h (h_dma s)) (h_assist s) w)) →
  wp (set_auto_dma e tag off addr ac) Φ s.
Proof.
  intros Hr Hoff HΦ. unfold set_auto_dma, ASSERT.
  rewrite (proj2 (Z.ltb_lt _ _) Hoff). apply wp_bind, wp_ret, wp_bind.
  apply wp_wait_not_full; [done|]. intros h w.
  apply wp_bind, wp_write32, wp_bind, wp_write32, wp_write32. apply HΦ.
Qed.

Lemma overflow_step T :
  0 ≤ T → (T + 1) / 256 = if T mod 256 >? (T + 1) mod 256 then T / 256 + 1 else T / 256.
Proof. intros. rewrite Z.gtb_ltb. case_Z; Z.div_mod_to_equations; lia. Qed.

Lemma represents_intro e s T :
  0 ≤ T < 2 ^ 40 → 0 ≤ fifoTail (h_dma s) < 2 ^ 32 →
  cnt e (fifoTail (h_dma s)) = T mod 256 → over_of e (h_assist s) = T / 256 → represents e s T.
Proof. done. Qed.

Lemma set_auto_tx_dma_spec T tag off addr ac s :
  represents autoDmaTx s T → T + 1 < 2 ^ 40 → room autoDmaTx s → off < 256 →
  wp (set_auto_tx_dma tag off addr ac) (λ _ s', represents autoDmaTx s' (T + 1) ∧
    ∀ T', represents autoDmaRx s T' → represents autoDmaRx s' T') s.
Proof.
  intros Hr HT Hs Hoff. unfold set_auto_tx_dma. apply wp_bind.
  apply wp_set_auto_dma; [done|done|]. intros h w.
  destruct Hr as (HT0 & Hv & Hcnt & Hover). set (v := fifoTail (h_dma s)) in *.
  destruct (next_tail_cnt autoDmaTx autoDmaTx v Hv) as [Hv' Hc']. rewrite decide_True in Hc' by done.
  destruct (next_tail_cnt autoDmaTx autoDmaRx v Hv) as [_ Hc2]. rewrite decide_False in Hc2 by done.
  apply wp_bind, (wp_load _ v); [done|]. apply wp_bind, (wp_modify _ _ v); [done|].
  apply wp_bind, (wp_load _ (next_tail autoDmaTx v)); [done|].
  apply wp_bind. unfold next_tail in *. rewrite Hcnt in Hv', Hc', Hc2 |- *.
  rewrite Hc', Zplus_mod_idemp_l.
  pose proof (overflow_step T ltac:(lia)) as Ho. cbn in Hover.
  apply wp_when; intros Hgt; rewrite Hgt in Ho.
  - apply (wp_modify _ _ (T / 256)); [by cbn; rewrite Hover|]. apply (wp_modify _ _ (autoDmaTxCnt (h_dma s))); [done|].
    split.
    + apply represents_intro; [lia|exact Hv'|etrans; [exact Hc'|apply Zplus_mod_idemp_l]|cbn].
      rewrite Ho. apply wrap_small. split; [pose proof (Z.div_pos T 256); lia|].
      assert ((T + 1) / 256 < 2 ^ 32) by (apply Z.div_lt_upper_bound; lia). lia.
    + intros T' (? & ? & ? & ?). apply represents_intro; [done|exact Hv'|etrans; [exact Hc2|done]|done].
  - apply (wp_modify _ _ (autoDmaTxCnt (h_dma s))); [done|]. split.
    + apply represents_intro; [lia|exact Hv'|etrans; [exact Hc'|apply Zplus_mod_idemp_l]|cbn]. by rewrite Hover, Ho.
    + intros T' (? & ? & ? & ?). apply represents_intro; [done|exact Hv'|etrans; [exact Hc2|done]|done].
Qed.

Lemma set_auto_rx_dma_spec T tag off addr ac s :
  represents autoDmaRx s T → T + 1 < 2 ^ 40 → room autoDmaRx s → off < 256 →
  wp (set_auto_rx_dma tag off addr ac) (λ _ s', represents autoDmaRx s' (T + 1) ∧
    ∀ T', represents autoDmaTx s T' → represents autoDmaTx s' T') s.
Proof.
  intros Hr HT Hs Hoff. unfold set_auto_rx_dma. apply wp_bind.
  apply wp_set_auto_dma; [done|done|]. intros h w.
  destruct Hr as (HT0 & Hv & Hcnt & Hover). set (v := fifoTail (h_dma s)) in *.
  destruct (next_tail_cnt autoDmaRx autoDmaRx v Hv) as [Hv' Hc']. rewrite decide_True in Hc' by done.
  destruct (next_tail_cnt autoDmaRx autoDmaTx v Hv) as [_ Hc2]. rewrite decide_False in Hc2 by done.
  apply wp_bind, (wp_load _ v); [done|]. apply wp_bind, (wp_modify _ _ v); [done|].
  apply wp_bind, (wp_load _ (next_tail autoDmaRx v)); [done|].
  apply wp_bind. unfold next_tail in *. rewrite Hcnt in Hv', Hc', Hc2 |- *.
  rewrite Hc', Zplus_mod_idemp_l.
  pose proof (overflow_step T ltac:(lia)) as Ho. cbn in Hover.
  apply wp_when; intros Hgt; rewrite Hgt in Ho.
  - apply (wp_modify _ _ (T / 256)); [by cbn; rewrite Hover|]. apply (wp_modify _ _ (autoDmaRxCnt (h_dma s))); [done|].
    split.
    + apply represents_intro; [lia|exact Hv'|etrans; [exact Hc'|apply Zplus_mod_idemp_l]|cbn].
      rewrite Ho. apply wrap_small. split; [pose proof (Z.div_pos T 256); lia|].
      assert ((T + 1) / 256 < 2 ^ 32) by (apply Z.div_lt_upper_bound; lia). lia.
    + intros T' (? & ? & ? & ?). apply represents_intro; [done|exact Hv'|etrans; [exact Hc2|done]|done].
  - apply (wp_modify _ _ (autoDmaRxCnt (h_dma s))); [done|]. split.
    + apply represents_intro; [lia|exact Hv'|etrans; [exact Hc'|apply Zplus_mod_idemp_l]|cbn]. by rewrite Hover, Ho.
    + intros T' (? & ? & ? & ?). apply represents_intro; [done|exact Hv'|etrans; [exact Hc2|done]|done].
Qed.

Lemma partial_done_tx_spec T T0 D s :
  represents autoDmaTx s T → 0 ≤ D ≤ T → T - D ≤ 255 → 0 ≤ T0 ≤ T →
  shown autoDmaTx s = D mod 256 →
  wp (check_auto_tx_dma_partial_done (T0 mod 256) (T0 / 256))
    (λ r s', r = (if T0 <=? D then 1 else 0)) s.
Proof.
  intros (HT & _ & Hcnt & Hover) HD HTD HT0 Hsh. unfold check_auto_tx_dma_partial_done.
  apply wp_bind, wp_read_fifo_head. intros h w Hh.
  apply wp_bind, (wp_load _ (u32 h)); [done|]. apply wp_bind, (wp_load _ (fifoTail (h_dma s))); [done|].
  apply wp_bind, (wp_load _ (T / 256)); [by cbn; rewrite <- Hover|]. apply wp_ret.
  rewrite Hh, Hsh, Hcnt. apply partial_done_spec; try done. apply Z.div_lt_upper_bound; lia.
Qed.

Lemma partial_done_rx_spec T T0 D s :
  represents autoDmaRx s T → 0 ≤ D ≤ T → T - D ≤ 255 → 0 ≤ T0 ≤ T →
  shown autoDmaRx s = D mod 256 →
  wp (check_auto_rx_dma_partial_done (T0 mod 256) (T0 / 256))
    (λ r s', r = (if T0 <=? D then 1 else 0)) s.
Proof.
  intros (HT & _ & Hcnt & Hover) HD HTD HT0 Hsh. unfold check_auto_rx_dma_partial_done.
  apply wp_bind, wp_read_fifo_head. intros h w Hh.
  apply wp_bind, (wp_load _ (u32 h)); [done|]. apply wp_bind, (wp_load _ (fifoTail (h_dma s))); [done|].
  apply wp_bind, (wp_load _ (T / 256)); [by cbn; rewrite <- Hover|]. apply wp_ret.
  rewrite Hh, Hsh, Hcnt. apply partial_done_spec; try done. apply Z.div_lt_upper_bound; lia.
Qed.
End dma_counters.

(** C37: the driver's test for the completion of an auto-DMA transfer is exact.
    When [T] transfers have been issued to an engine and [D] of them are done
    (at most 255 are outstanding, since the engine's queue has 256 places), the
    test for transfer number [T0], made from the 8-bit hardware counter and the
    recorded 8-bit index and overflow count, answers 1 exactly when that
    transfer is done, for both directions. *)
Theorem auto_dma_done_iff {W} `{Device W} (s : HSt W) T D T0 :
  0 ≤ D ≤ T → T - D ≤ 255 → 0 ≤ T0 ≤ T →
  (represents autoDmaTx s T → shown autoDmaTx s = D mod 256 →
   wp (check_auto_tx_dma_partial_done (T0 mod 256) (T0 / 256))
     (λ r _, r = if T0 <=? D then 1 else 0) s) ∧
  (represents autoDmaRx s T → shown autoDmaRx s = D mod 256 →
   wp (check_auto_rx_dma_partial_done (T0 mod 256) (T0 / 256))
     (λ r _, r = if T0 <=? D then 1 else 0) s).
Proof.
  intros HD HTD HT0. split; intros Hr Hs.
  - by apply (partial_done_tx_spec T T0 D).
  - by apply (partial_done_rx_spec T T0 D).
Qed.

(** A host state in which [T] transfers were issued to both engines and [D] done. *)
Definition sample_HSt (T D : Z) : HSt (gmap Z Z) :=
  MkHSt (MkNVME_CONTEXT 0 0 0 0 ∅ ∅)
    (MkHOST_DMA_STATUS 0 ((T mod 256) * 2 ^ 24 + (T mod 256) * 2 ^ 16) 0 0 0 0)
    (MkHOST_DMA_ASSIST_STATUS (T / 256) (T / 256))
    {[ 0x83C00204 := (D mod 256) * 2 ^ 24 + (D mod 256) * 2 ^ 16 ]}.

Lemma auto_dma_done_iff_witness :
  let _ := mem_device in
  wp (check_auto_tx_dma_partial_done (250 mod 256) (250 / 256)) (λ r _, r = 1) (sample_HSt 300 260) ∧
  wp (check_auto_rx_dma_partial_done (270 mod 256) (270 / 256)) (λ r _, r = 0) (sample_HSt 300 260).
Proof.
  intros d. split.
  - apply (proj1 (@auto_dma_done_iff _ mem_device (sample_HSt 300 260) 300 260 250
      ltac:(lia) ltac:(lia) ltac:(lia))); vm_compute; intuition congruence.
  - apply (proj2 (@auto_dma_done_iff _ mem_device (sample_HSt 300 260) 300 260 270
      ltac:(lia) ltac:(lia) ltac:(lia))); vm_compute; intuition congruence.
Defined.

(** issuing an auto-DMA transfer keeps the transfer count representation.
    While the engine's queue has room, set_auto_tx_dma and set_auto_rx_dma
    return, and the 8-bit tail and the overflow counter then represent one more
    transfer of that engine; the other engine's counters are untouched, although
    the four counters share a register word. *)
Theorem auto_dma_issue_counts {W} `{Device W} `{Fuel} (s : HSt W) T tag off addr ac :
  T + 1 < 2 ^ 40 → (0 < wait_fuel)%nat → off < 256 →
  (represents autoDmaTx s T → shown autoDmaTx s ≠ (T + 1) mod 256 →
   wp (set_auto_tx_dma tag off addr ac) (λ _ s', represents autoDmaTx s' (T + 1) ∧
     ∀ T', represents autoDmaRx s T' → represents autoDmaRx s' T') s) ∧
  (represents autoDmaRx s T → shown autoDmaRx s ≠ (T + 1) mod 256 →
   wp (set_auto_rx_dma tag off addr ac) (λ _ s', represents autoDmaRx s' (T + 1) ∧
     ∀ T', represents autoDmaTx s T' → represents autoDmaTx s' T') s).
Proof.
  intros HT Hf Ho. split; intros Hr Hs; [apply set_auto_tx_dma_spec|apply set_auto_rx_dma_spec];
    try done; by eapply room_intro.
Qed.

(** the register images carry their fields.  Whatever the uninitialised
    parts of the image held, a posted completion has the slot tag, the status
    and the type that were passed, and a DMA descriptor has the type, direction,
    block offset and auto-completion flag that were passed. *)
Theorem register_images {W} `{Device W} old tag st off ac :
  0 ≤ tag < 1024 → 0 ≤ st < 2 ^ 16 → 0 ≤ off < 256 → 0 ≤ ac < 2 →
  let w := cpl_word2 old tag AUTO_CPL_TYPE (Some st) in
  let d := dma_word3 HOST_DMA_AUTO_TYPE HOST_DMA_TX_DIRECTION 0 off ac in
  get_bits 0 10 w = tag ∧ get_bits 14 2 w = AUTO_CPL_TYPE ∧ get_bits 16 16 w = st ∧
  get_bits 31 1 d = HOST_DMA_AUTO_TYPE ∧ get_bits 30 1 d = HOST_DMA_TX_DIRECTION ∧
  get_bits 14 9 d = off ∧ get_bits 13 1 d = ac.
Proof.
  intros Htag Hst Hoff Hac. unfold cpl_word2, dma_word3, P_SLOT_TAG_WIDTH. cbv zeta.
  split_and!; bits; try reflexivity; apply wrap_small; lia.
Qed.
