(* ===== verification/Nsc.v ===== *)
(** The driver of the flash controllers (nsc_driver.c): commands are written to
    the registers of a channel, the command select register last; status words
    are decoded by the macros of nsc_driver.h. *)
From S2P Require Import Prelude Config MemMap ReqFormat State HostLld.

Definition V2FCommand_NOP := 0.
Definition V2FCommand_Reset := 1.
Definition V2FCommand_SetFeatures := 6.
Definition V2FCommand_ReadPageTrigger := 13.
Definition V2FCommand_ReadPageTransfer := 18.
Definition V2FCommand_ProgramPage := 28.
Definition V2FCommand_BlockErase := 37.
Definition V2FCommand_StatusCheck := 41.
Definition V2FCommand_ReadPageTransferRaw := 55.

Definition V2FCrcValid (errorInformation : Z) : bool := negb (Z.land errorInformation 0x10000000 =? 0).
Definition V2FSpareChunkValid (errorInformation : Z) : bool :=
  negb (Z.land errorInformation 0x01000000 =? 0).
Definition V2FPageChunkValid (errorInformation : Z) : bool := errorInformation =? 0xffffffff.
Definition V2FWorstChunkErrorCount (errorInformation : Z) : Z :=
  Z.shiftr (Z.land errorInformation 0x00ff0000) 16.
Definition V2FWayReady (readyBusy wayNo : Z) : bool :=
  negb (Z.land (Z.shiftr readyBusy wayNo) 1 =? 0).
Definition V2FTransferComplete (completeFlag : Z) : bool := negb (Z.land completeFlag 1 =? 0).
Definition V2FRequestReportDone (statusReport : Z) : bool := negb (Z.land statusReport 1 =? 0).
Definition V2FEliminateReportDoneFlag (statusReport : Z) : Z := Z.shiftr statusReport 1.
Definition V2FRequestComplete (statusReport : Z) : bool := Z.land statusReport 0x60 =? 0x60.
Definition V2FRequestFail (statusReport : Z) : bool := negb (Z.land statusReport 3 =? 0).

(** Offsets of the members of V2FMCRegisters. *)
Definition cmdSelect := 0.
Definition rowAddress := 4.
Definition userData := 8.
Definition dataAddress := 12.
Definition spareAddress := 16.
Definition errorCountAddress := 20.
Definition completionAddress := 24.
Definition waySelection := 28.
Definition channelBusy := 32.
Definition readyBusy := 36.

Section nsc.
Context {W : Type} `{Device W} `{Fuel}.

Definition V2FIsControllerBusy (dev : Z) : M W Z := IO_READ32 (dev + channelBusy).

(** [while (V2FIsControllerBusy(dev));] *)
Definition wait_controller (dev : Z) : M W unit :=
  loop wait_fuel (λ _ : unit,
    b <- V2FIsControllerBusy dev ;;
    if negb (b =? 0) then ret (inl tt) else ret (inr tt)) tt.

Definition V2FResetSync (dev way : Z) : M W unit :=
  IO_WRITE32 (dev + waySelection) way ;;
  IO_WRITE32 (dev + cmdSelect) V2FCommand_Reset ;;
  wait_controller dev.

Definition V2FSetFeaturesSync (dev way feature0x02 feature0x10 feature0x01 payLoadAddr : Z) : M W unit :=
  IO_WRITE32 payLoadAddr feature0x02 ;;
  IO_WRITE32 (payLoadAddr + 4) feature0x10 ;;
  IO_WRITE32 (payLoadAddr + 8) feature0x01 ;;
  IO_WRITE32 (dev + waySelection) way ;;
  IO_WRITE32 (dev + userData) payLoadAddr ;;
  IO_WRITE32 (dev + cmdSelect) V2FCommand_SetFeatures ;;
  wait_controller dev.

Definition V2FEnterToggleMode (dev way payLoadAddr : Z) : M W unit :=
  V2FSetFeaturesSync dev way 0x00000006 0x00000008 0x00000020 payLoadAddr.

Definition V2FReadPageTriggerAsync (dev way rowAddr : Z) : M W unit :=
  IO_WRITE32 (dev + waySelection) way ;;
  IO_WRITE32 (dev + rowAddress) rowAddr ;;
  IO_WRITE32 (dev + cmdSelect) V2FCommand_ReadPageTrigger.

Definition V2FReadPageTransferAsync
    (dev way pageDataBuffer spareDataBuffer errorInformation completion rowAddr : Z) : M W unit :=
  IO_WRITE32 (dev + waySelection) way ;;
  IO_WRITE32 (dev + dataAddress) pageDataBuffer ;;
  IO_WRITE32 (dev + spareAddress) spareDataBuffer ;;
  IO_WRITE32 (dev + errorCountAddress) errorInformation ;;
  IO_WRITE32 (dev + completionAddress) completion ;;
  IO_WRITE32 (dev + rowAddress) rowAddr ;;
  IO_WRITE32 completion 0 ;;
  IO_WRITE32 (dev + cmdSelect) V2FCommand_ReadPageTransfer.

Definition V2FReadPageTransferRawAsync (dev way pageDataBuffer completion : Z) : M W unit :=
  IO_WRITE32 (dev + waySelection) way ;;
  IO_WRITE32 (dev + dataAddress) pageDataBuffer ;;
  IO_WRITE32 (dev + completionAddress) completion ;;
  IO_WRITE32 completion 0 ;;
  IO_WRITE32 (dev + cmdSelect) V2FCommand_ReadPageTransferRaw.

Definition V2FProgramPageAsync (dev way rowAddr pageDataBuffer spareDataBuffer : Z) : M W unit :=
  IO_WRITE32 (dev + waySelection) way ;;
  IO_WRITE32 (dev + rowAddress) rowAddr ;;
  IO_WRITE32 (dev + dataAddress) pageDataBuffer ;;
  IO_WRITE32 (dev + spareAddress) spareDataBuffer ;;
  IO_WRITE32 (dev + cmdSelect) V2FCommand_ProgramPage.

Definition V2FEraseBlockAsync (dev way rowAddr : Z) : M W unit :=
  IO_WRITE32 (dev + waySelection) way ;;
  IO_WRITE32 (dev + rowAddress) rowAddr ;;
  IO_WRITE32 (dev + cmdSelect) V2FCommand_BlockErase.

Definition V2FStatusCheckAsync (dev way statusReport : Z) : M W unit :=
  IO_WRITE32 (dev + waySelection) way ;;
  IO_WRITE32 (dev + completionAddress) statusReport ;;
  IO_WRITE32 statusReport 0 ;;
  IO_WRITE32 (dev + cmdSelect) V2FCommand_StatusCheck.

Definition V2FReadyBusyAsync (dev : Z) : M W Z := IO_READ32 (dev + readyBusy).
End nsc.
