(* ===== verification/HostTime.v ===== *)
(** The statistics of the host requests (get_time_host_request.c).  They read
    the timer and count the transfers and evictions of each command slot; the
    printed line itself is not modelled. *)
From S2P Require Import Prelude Config MemMap ReqFormat ReqQueues State.

Definition ENTRY_NONE := 0xffffffff.

Section host_time.
Context {W : Type} `{Device W}.

Definition timeEntry : lval (RSt W) (gmap Z HOST_REQUEST_TIME_ENTRY) := sub r_time (glob t_entry).
Definition printBuffer : lval (RSt W) (gmap Z (list Z)) := sub r_time (glob t_printBuffer).
Definition bufferWritePoint : lval (RSt W) Z := sub r_time (glob t_bufferWritePoint).
Definition time_cnt : lval (RSt W) Z := sub r_time (glob t_time_cnt).
Definition total_r : lval (RSt W) Z := sub r_time (glob t_total_r).
Definition total_w : lval (RSt W) Z := sub r_time (glob t_total_w).

Definition clear_times (cmdSlotTag : Z) : M (RSt W) unit :=
  timeEntry.[cmdSlotTag]∙timeReqCode ::= ENTRY_NONE ;;
  timeEntry.[cmdSlotTag]∙fetch ::= 0 ;;
  timeEntry.[cmdSlotTag]∙blockedBufferDef ::= 0 ;;
  timeEntry.[cmdSlotTag]∙nandReqStart ::= 0 ;;
  timeEntry.[cmdSlotTag]∙nandReqEnd ::= 0 ;;
  timeEntry.[cmdSlotTag]∙nvmeDmaStart ::= 0 ;;
  timeEntry.[cmdSlotTag]∙nvmeDmaEnd ::= 0.

Definition InitHostReqTimeTable : M (RSt W) unit :=
  for_range 0 MAX_CMD_SLOT_TAG (λ cmdSlotTag,
    clear_times cmdSlotTag ;;
    timeEntry.[cmdSlotTag]∙nvmeDmaCnt ::= 0 ;;
    timeEntry.[cmdSlotTag]∙nandReqCnt ::= 0) ;;
  for_range 0 PRINT_BUFFER_ENTRY_CNT (λ buffEntry,
    printBuffer.[buffEntry] ::= replicate (Z.to_nat PRINT_BUFFER_DATA_SIZE) 0) ;;
  bufferWritePoint ::= 0.

(** [if (e == 0) XTime_GetTime(&e)] *)
Definition stamp (l : lval (RSt W) Z) : M (RSt W) unit :=
  t <- !l ;; when (t =? 0) (v <- devM XTime_GetTime ;; l ::= v).

Definition GetTimeFetch (cmdSlotTag : Z) : M (RSt W) unit := stamp (timeEntry.[cmdSlotTag]∙fetch).

Definition AllocateHostReqTime (cmdSlotTag reqCode : Z) : M (RSt W) unit :=
  reqCode <- (if reqCode =? REQ_CODE_WRITE then ret REQ_CODE_RxDMA
              else if reqCode =? REQ_CODE_READ then ret REQ_CODE_TxDMA
              else fail Assert) ;;
  c <- !(timeEntry.[cmdSlotTag]∙timeReqCode) ;;
  when (c =? ENTRY_NONE)
    (timeEntry.[cmdSlotTag]∙timeReqCode ::= reqCode ;; GetTimeFetch cmdSlotTag).

Definition AllocateNvmeDmaCnt (cmdSlotTag : Z) : M (RSt W) unit :=
  incr (timeEntry.[cmdSlotTag]∙nvmeDmaCnt).
Definition AllocateNandReqCntForBufferEviction (cmdSlotTag : Z) : M (RSt W) unit :=
  incr (timeEntry.[cmdSlotTag]∙nandReqCnt).

Definition GetTimeBlockedBufferDef (cmdSlotTag : Z) : M (RSt W) unit :=
  stamp (timeEntry.[cmdSlotTag]∙blockedBufferDef).

Definition GetTimeBufferEvictNandReqStart (cmdSlotTag reqSlotTag : Z) : M (RSt W) unit :=
  c <- !(rPool.[reqSlotTag]∙reqCode) ;;
  when (c =? REQ_CODE_WRITE) (stamp (timeEntry.[cmdSlotTag]∙nandReqStart)).

Definition GetTimeBufferEvictNandReqEnd (cmdSlotTag reqSlotTag : Z) : M (RSt W) unit :=
  c <- !(rPool.[reqSlotTag]∙reqCode) ;;
  when (c =? REQ_CODE_WRITE)
    (decr (timeEntry.[cmdSlotTag]∙nandReqCnt) ;;
     n <- !(timeEntry.[cmdSlotTag]∙nandReqCnt) ;;
     when (n =? 0) (stamp (timeEntry.[cmdSlotTag]∙nandReqEnd))).

Definition GetTimeHostReqNvmeDmaStart (cmdSlotTag : Z) : M (RSt W) unit :=
  stamp (timeEntry.[cmdSlotTag]∙nvmeDmaStart).

Definition ResetHostRequestTimeEntry (cmdSlotTag : Z) : M (RSt W) unit := clear_times cmdSlotTag.

Definition BufferItemValue (cmdSlotTag : Z) : M (RSt W) unit :=
  p <- !bufferWritePoint ;;
  when (p =? PRINT_BUFFER_ENTRY_CNT) (InitHostReqTimeTable ;; bufferWritePoint ::= 0) ;;
  c <- !(timeEntry.[cmdSlotTag]∙timeReqCode) ;;
  (if c =? REQ_CODE_TxDMA then incr total_r else incr total_w) ;;
  incr time_cnt ;;
  incr bufferWritePoint ;;
  ResetHostRequestTimeEntry cmdSlotTag.

Definition GetTimeHostReqNvmeDmaEnd (cmdSlotTag : Z) : M (RSt W) unit :=
  decr (timeEntry.[cmdSlotTag]∙nvmeDmaCnt) ;;
  n <- !(timeEntry.[cmdSlotTag]∙nvmeDmaCnt) ;;
  when (n =? 0)
    (e <- !(timeEntry.[cmdSlotTag]∙nvmeDmaEnd) ;;
     when (e =? 0)
       (v <- devM XTime_GetTime ;;
        timeEntry.[cmdSlotTag]∙nvmeDmaEnd ::= v ;;
        BufferItemValue cmdSlotTag)).
End host_time.
