(* ===== verification/CustomIo.v ===== *)
(** Completion bookkeeping of the custom write+read command
    (custom_io_cmd_completion.c): how many of its transfers are not issued or
    not completed yet, and the posting of its completion entry. *)
From S2P Require Import Prelude Config MemMap ReqFormat ReqQueues State HostLld.

Definition SCT_GENERIC_COMMAND_STATUS := 0.
Definition SC_SUCCESSFUL_COMPLETION := 0x00.

(** The status field of NVME_COMPLETION: SC in bits 1-8, SCT in bits 9-11, DNR
    in bit 15. *)
Definition statusFieldWord (SCT SC DNR : Z) : Z :=
  set_bits 15 1 DNR (set_bits 1 8 SC (set_bits 9 3 SCT 0)).

Section custom_io.
Context {W : Type} `{Device W}.

Definition InitCustomIoCmdCompleteTable : M (RSt W) unit :=
  for_range 0 MAX_CMD_SLOT_TAG (λ cmdSlotTag,
    customIo.[cmdSlotTag]∙notIssuedRxCount ::= 0 ;;
    customIo.[cmdSlotTag]∙notCompletedRxCount ::= 0 ;;
    customIo.[cmdSlotTag]∙notIssuedTxCount ::= 0 ;;
    customIo.[cmdSlotTag]∙notCompletedTxCount ::= 0 ;;
    customIo.[cmdSlotTag]∙notCompletedNANDCount ::= 0).

Definition AllocateNotIssuedRxforCustomIoCmd (cmdSlotTag : Z) : M (RSt W) unit :=
  incr (customIo.[cmdSlotTag]∙notIssuedRxCount).
Definition AllocateNotIssuedTxforCustomIoCmd (cmdSlotTag : Z) : M (RSt W) unit :=
  incr (customIo.[cmdSlotTag]∙notIssuedTxCount).
Definition AllocateNotCompletedRxforCustomIoCmd (cmdSlotTag : Z) : M (RSt W) unit :=
  incr (customIo.[cmdSlotTag]∙notCompletedRxCount).
Definition AllocateNotCompletedTxforCustomIoCmd (cmdSlotTag : Z) : M (RSt W) unit :=
  incr (customIo.[cmdSlotTag]∙notCompletedTxCount).
Definition AllocateNotCompletedNandReqforCustomIoCmd (cmdSlotTag : Z) : M (RSt W) unit :=
  incr (customIo.[cmdSlotTag]∙notCompletedNANDCount).

Definition IssuedRxforCustomIoCmd (cmdSlotTag reqSlotTag : Z) : M (RSt W) unit :=
  decr (customIo.[cmdSlotTag]∙notIssuedRxCount) ;;
  rPool.[reqSlotTag]∙nvmeDmaInfo∙issuedFlag ::= REQ_INFO_ISSUED_FLAG_ON.
Definition IssuedTxforCustomIoCmd (cmdSlotTag reqSlotTag : Z) : M (RSt W) unit :=
  decr (customIo.[cmdSlotTag]∙notIssuedTxCount) ;;
  rPool.[reqSlotTag]∙nvmeDmaInfo∙issuedFlag ::= REQ_INFO_ISSUED_FLAG_ON.

Definition CompleteRxforCustomIoCmd (cmdSlotTag : Z) : M (RSt W) unit :=
  decr (customIo.[cmdSlotTag]∙notCompletedRxCount).

Definition CompleteTxforCustomIoCmd (cmdSlotTag : Z) : M (RSt W) unit :=
  decr (customIo.[cmdSlotTag]∙notCompletedTxCount) ;;
  tx <- !(customIo.[cmdSlotTag]∙notCompletedTxCount) ;;
  rx <- !(customIo.[cmdSlotTag]∙notCompletedRxCount) ;;
  when ((tx =? 0) && (rx =? 0))
    (hostM (set_auto_nvme_cpl cmdSlotTag 0
       (statusFieldWord SCT_GENERIC_COMMAND_STATUS SC_SUCCESSFUL_COMPLETION 1))).

Definition CompleteNandReqforCustomIoCmd (cmdSlotTag : Z) : M (RSt W) unit :=
  decr (customIo.[cmdSlotTag]∙notCompletedNANDCount).
End custom_io.
