(* ===== verification/LowLevel.v ===== *)
(** The low-level request operations: buffer and row addresses
    (request_schedule.c), the buffer and row-address dependencies, the issue and
    completion of host DMA requests (request_transform.c), and the queue
    operations that release dependent requests (request_allocation.c). *)
From S2P Require Import Prelude Config MemMap ReqFormat ReqQueues DataBuffer State HostLld Nsc.
From S2P Require Import HostTime CustomIo.

Definition NVME_COMMAND_AUTO_COMPLETION_OFF := 0.
Definition NVME_COMMAND_AUTO_COMPLETION_ON := 1.
Definition ROW_ADDR_DEPENDENCY_CHECK_OPT_SELECT := 0.
Definition ROW_ADDR_DEPENDENCY_CHECK_OPT_RELEASE := 1.
Definition BUF_DEPENDENCY_REPORT_BLOCKED := 0.
Definition BUF_DEPENDENCY_REPORT_PASS := 1.
Definition ROW_ADDR_DEPENDENCY_REPORT_BLOCKED := 0.
Definition ROW_ADDR_DEPENDENCY_REPORT_PASS := 1.
Definition ROW_ADDR_DEPENDENCY_TABLE_UPDATE_REPORT_DONE := 0.
Definition ROW_ADDR_DEPENDENCY_TABLE_UPDATE_REPORT_SYNC := 1.
Definition LUN_0_BASE_ADDR := 0x00000000.
Definition LUN_1_BASE_ADDR := 0x00200000.

(** ** Addresses of a request, as functions of the request *)

Section addresses.
Context `{Config}.

(** The row address of a block of a LUN and a page (the end of GenerateNandRowAddr). *)
Definition row_addr (lun tempBlockNo tempPageNo : Z) : Z :=
  u32 ((if lun =? 0 then LUN_0_BASE_ADDR else LUN_1_BASE_ADDR)
       + tempBlockNo * PAGES_PER_MLC_BLOCK + tempPageNo).

Definition data_buf_addr (r : SSD_REQ_FORMAT) : option Z :=
  let base := if ccmdDataBuf (reqOpt r) =? REQ_OPT_CUSTOM_CMD_BUF_ON
              then CCMD_DATA_BUFFER_BASE_ADDR else DATA_BUFFER_BASE_ADDR in
  let e := entry (dataBufInfo r) in
  let fmt := dataBufFormat (reqOpt r) in
  if reqType r =? REQ_TYPE_NAND then
    if fmt =? REQ_OPT_DATA_BUF_ENTRY then Some (u32 (base + e * BYTES_PER_DATA_REGION_OF_SLICE))
    else if fmt =? REQ_OPT_DATA_BUF_TEMP_ENTRY then
      Some (u32 (TEMPORARY_DATA_BUFFER_BASE_ADDR + e * BYTES_PER_DATA_REGION_OF_SLICE))
    else if fmt =? REQ_OPT_DATA_BUF_ADDR then Some (addr (dataBufInfo r))
    else Some RESERVED_DATA_BUFFER_BASE_ADDR
  else if reqType r =? REQ_TYPE_NVME_DMA then
    if fmt =? REQ_OPT_DATA_BUF_ENTRY then
      Some (u32 (base + e * BYTES_PER_DATA_REGION_OF_SLICE
                 + nvmeBlockOffset (nvmeDmaInfo r) * BYTES_PER_NVME_BLOCK))
    else None
  else None.

Definition spare_data_buf_addr (r : SSD_REQ_FORMAT) : option Z :=
  let base := if ccmdDataBuf (reqOpt r) =? REQ_OPT_CUSTOM_CMD_BUF_ON
              then CCMD_SPARE_DATA_BUFFER_BASE_ADDR else SPARE_DATA_BUFFER_BASE_ADDR in
  let e := entry (dataBufInfo r) in
  let fmt := dataBufFormat (reqOpt r) in
  if reqType r =? REQ_TYPE_NAND then
    if fmt =? REQ_OPT_DATA_BUF_ENTRY then Some (u32 (base + e * BYTES_PER_SPARE_REGION_OF_SLICE))
    else if fmt =? REQ_OPT_DATA_BUF_TEMP_ENTRY then
      Some (u32 (TEMPORARY_SPARE_DATA_BUFFER_BASE_ADDR + e * BYTES_PER_SPARE_REGION_OF_SLICE))
    else if fmt =? REQ_OPT_DATA_BUF_ADDR then
      Some (u32 (addr (dataBufInfo r) + BYTES_PER_DATA_REGION_OF_SLICE))
    else Some (u32 (RESERVED_DATA_BUFFER_BASE_ADDR + BYTES_PER_DATA_REGION_OF_SLICE))
  else if reqType r =? REQ_TYPE_NVME_DMA then
    if fmt =? REQ_OPT_DATA_BUF_ENTRY then Some (u32 (base + e * BYTES_PER_SPARE_REGION_OF_SLICE))
    else None
  else None.
End addresses.

Section low_level.
Context `{Config} {W : Type} `{Device W} `{Fuel}.

(** Queue operations run on the queue state. *)
Definition qM {A} (m : M QSt A) : M (RSt W) A := zoom r_q m.

(** [None] is a failed assertion. *)
Definition asserted {A} (o : option A) : M (RSt W) A :=
  match o with Some a => ret a | None => fail Assert end.

Definition GenerateDataBufAddr (reqSlotTag : Z) : M (RSt W) Z :=
  r <- !(rPool.[reqSlotTag]) ;; asserted (data_buf_addr r).
Definition GenerateSpareDataBufAddr (reqSlotTag : Z) : M (RSt W) Z :=
  r <- !(rPool.[reqSlotTag]) ;; asserted (spare_data_buf_addr r).

Definition GenerateNandRowAddr (reqSlotTag : Z) : M (RSt W) Z :=
  r <- !(rPool.[reqSlotTag]) ;;
  if nandAddr (reqOpt r) =? REQ_OPT_NAND_ADDR_VSA then
    let vsa := virtualSliceAddr (nandInfo r) in
    let dieNo := Vsa2VdieTranslation vsa in
    let phyBlockNo := Vblock2PblockOfTbsTranslation (Vsa2VblockTranslation vsa) in
    let lun := phyBlockNo / TOTAL_BLOCKS_PER_LUN in
    remapped <- !(phyBlock.[(dieNo, phyBlockNo)]∙remappedPhyBlock) ;;
    let tempBlockNo := remapped mod TOTAL_BLOCKS_PER_LUN in
    let tempPageNo := Vsa2VpageTranslation vsa in
    let tempPageNo := if BITS_PER_FLASH_CELL =? SLC_MODE
                      then Vpage2PlsbPageTranslation tempPageNo else tempPageNo in
    ret (row_addr lun tempBlockNo tempPageNo)
  else if nandAddr (reqOpt r) =? REQ_OPT_NAND_ADDR_PHY_ORG then
    let n := nandInfo r in
    let dieNo := Pcw2VdieTranslation (physicalCh n) (physicalWay n) in
    if blockSpace (reqOpt r) =? REQ_OPT_BLOCK_SPACE_TOTAL then
      ret (row_addr (physicalBlock n / TOTAL_BLOCKS_PER_LUN)
                    (physicalBlock n mod TOTAL_BLOCKS_PER_LUN) (physicalPage n))
    else if blockSpace (reqOpt r) =? REQ_OPT_BLOCK_SPACE_MAIN then
      let lun := physicalBlock n / MAIN_BLOCKS_PER_LUN in
      let tempBlockNo := physicalBlock n mod MAIN_BLOCKS_PER_LUN + lun * TOTAL_BLOCKS_PER_LUN in
      remapped <- !(phyBlock.[(dieNo, tempBlockNo)]∙remappedPhyBlock) ;;
      ret (row_addr lun (remapped mod TOTAL_BLOCKS_PER_LUN) (physicalPage n))
    else fail Undef
  else fail Assert.

(** ** Dependencies *)

Definition InitDependencyTable : M (RSt W) unit :=
  for_range 0 MAIN_BLOCKS_PER_DIE (λ blockNo,
    for_range 0 USER_WAYS (λ wayNo,
      for_range 0 USER_CHANNELS (λ chNo,
        rowAddrDep.[(chNo, wayNo, blockNo)]∙permittedProgPage ::= 0 ;;
        rowAddrDep.[(chNo, wayNo, blockNo)]∙blockedReadReqCnt ::= 0 ;;
        rowAddrDep.[(chNo, wayNo, blockNo)]∙blockedEraseReqFlag ::= 0))).

Definition CheckBufDep (reqSlotTag : Z) : M (RSt W) Z :=
  p <- !(rPool.[reqSlotTag]∙prevBlockingReq) ;;
  ret (if p =? REQ_SLOT_TAG_NONE then BUF_DEPENDENCY_REPORT_PASS else BUF_DEPENDENCY_REPORT_BLOCKED).

(** Channel, way, block and page of a request that must have a virtual address. *)
Definition vsa_location (reqSlotTag : Z) : M (RSt W) (Z * Z * Z * Z) :=
  r <- !(rPool.[reqSlotTag]) ;;
  if nandAddr (reqOpt r) =? REQ_OPT_NAND_ADDR_VSA then
    let vsa := virtualSliceAddr (nandInfo r) in
    let dieNo := Vsa2VdieTranslation vsa in
    ret (Vdie2PchTranslation dieNo, Vdie2PwayTranslation dieNo,
         Vsa2VblockTranslation vsa, Vsa2VpageTranslation vsa)
  else fail Assert.

(** CheckRowAddrDep, with the wait for a pending erase ([sync], which is
    SyncReleaseEraseReq) as an argument: the functions that wait call the ones
    below, which only ever check with option RELEASE and so never wait. *)
Definition CheckRowAddrDep_gen (sync : Z → Z → Z → M (RSt W) unit)
    (reqSlotTag checkRowAddrDepOpt : Z) : M (RSt W) Z :=
  '(chNo, wayNo, blockNo, pageNo) <- vsa_location reqSlotTag ;;
  let b := rowAddrDep.[(chNo, wayNo, blockNo)] in
  code <- !(rPool.[reqSlotTag]∙reqCode) ;;
  if code =? REQ_CODE_READ then
    if checkRowAddrDepOpt =? ROW_ADDR_DEPENDENCY_CHECK_OPT_SELECT then
      f <- !(b∙blockedEraseReqFlag) ;;
      when (negb (f =? 0)) (sync chNo wayNo blockNo) ;;
      p <- !(b∙permittedProgPage) ;;
      if pageNo <? p then ret ROW_ADDR_DEPENDENCY_REPORT_PASS else
      incr (b∙blockedReadReqCnt) ;;
      ret ROW_ADDR_DEPENDENCY_REPORT_BLOCKED
    else if checkRowAddrDepOpt =? ROW_ADDR_DEPENDENCY_CHECK_OPT_RELEASE then
      p <- !(b∙permittedProgPage) ;;
      if pageNo <? p then
        decr (b∙blockedReadReqCnt) ;; ret ROW_ADDR_DEPENDENCY_REPORT_PASS
      else ret ROW_ADDR_DEPENDENCY_REPORT_BLOCKED
    else fail Assert
  else if code =? REQ_CODE_WRITE then
    p <- !(b∙permittedProgPage) ;;
    if pageNo =? p then
      incr (b∙permittedProgPage) ;; ret ROW_ADDR_DEPENDENCY_REPORT_PASS
    else ret ROW_ADDR_DEPENDENCY_REPORT_BLOCKED
  else if code =? REQ_CODE_ERASE then
    p <- !(b∙permittedProgPage) ;;
    n <- !(rPool.[reqSlotTag]∙nandInfo∙programmedPageCnt) ;;
    c <- !(b∙blockedReadReqCnt) ;;
    if (p =? n) && (c =? 0) then
      b∙permittedProgPage ::= 0 ;;
      b∙blockedEraseReqFlag ::= 0 ;;
      ret ROW_ADDR_DEPENDENCY_REPORT_PASS
    else if checkRowAddrDepOpt =? ROW_ADDR_DEPENDENCY_CHECK_OPT_SELECT then
      b∙blockedEraseReqFlag ::= 1 ;; ret ROW_ADDR_DEPENDENCY_REPORT_BLOCKED
    else if checkRowAddrDepOpt =? ROW_ADDR_DEPENDENCY_CHECK_OPT_RELEASE then
      ret ROW_ADDR_DEPENDENCY_REPORT_BLOCKED
    else fail Assert
  else fail Assert.

(** The check with option RELEASE. *)
Definition CheckRowAddrDepRelease (reqSlotTag : Z) : M (RSt W) Z :=
  CheckRowAddrDep_gen (λ _ _ _, fail NoFuel) reqSlotTag ROW_ADDR_DEPENDENCY_CHECK_OPT_RELEASE.
(** ** Host DMA *)

(** One 4KB transfer of a request, and the flag after the last one. *)
Definition issue_rx_block (reqSlotTag numOfBlock dmaIndex devAddr : Z) : M (RSt W) unit :=
  r <- !(rPool.[reqSlotTag]) ;;
  let last := numOfBlock =? numOfNvmeBlock (nvmeDmaInfo r) - 1 in
  if customCmd (reqOpt r) =? REQ_OPT_CUSTOM_CMD_ON then
    hostM (set_auto_rx_dma (nvmeCmdSlotTag r) dmaIndex devAddr NVME_COMMAND_AUTO_COMPLETION_OFF) ;;
    when last (IssuedRxforCustomIoCmd (nvmeCmdSlotTag r) reqSlotTag)
  else
    hostM (set_auto_rx_dma (nvmeCmdSlotTag r) dmaIndex devAddr NVME_COMMAND_AUTO_COMPLETION_ON) ;;
    when last (rPool.[reqSlotTag]∙nvmeDmaInfo∙issuedFlag ::= REQ_INFO_ISSUED_FLAG_ON).

(** [false] when a custom read cannot be issued yet. *)
Definition issue_tx_block (reqSlotTag numOfBlock dmaIndex devAddr : Z) : M (RSt W) bool :=
  r <- !(rPool.[reqSlotTag]) ;;
  let last := numOfBlock =? numOfNvmeBlock (nvmeDmaInfo r) - 1 in
  if customCmd (reqOpt r) =? REQ_OPT_CUSTOM_CMD_ON then
    n <- !(customIo.[nvmeCmdSlotTag r]∙notCompletedRxCount) ;;
    if n =? 0 then
      hostM (set_auto_tx_dma (nvmeCmdSlotTag r) dmaIndex devAddr NVME_COMMAND_AUTO_COMPLETION_OFF) ;;
      when last (IssuedTxforCustomIoCmd (nvmeCmdSlotTag r) reqSlotTag) ;;
      ret true
    else ret false
  else
    hostM (set_auto_tx_dma (nvmeCmdSlotTag r) dmaIndex devAddr NVME_COMMAND_AUTO_COMPLETION_ON) ;;
    when last (rPool.[reqSlotTag]∙nvmeDmaInfo∙issuedFlag ::= REQ_INFO_ISSUED_FLAG_ON) ;;
    ret true.

Definition IssueNvmeDmaReq (reqSlotTag : Z) : M (RSt W) unit :=
  r <- !(rPool.[reqSlotTag]) ;;
  devAddr <- GenerateDataBufAddr reqSlotTag ;;
  let dmaIndex := startIndex (nvmeDmaInfo r) in
  let fuel := Datatypes.S (Z.to_nat (numOfNvmeBlock (nvmeDmaInfo r))) in
  if reqCode r =? REQ_CODE_RxDMA then
    loop fuel (λ '(numOfBlock, dmaIndex, devAddr),
      n <- !(rPool.[reqSlotTag]∙nvmeDmaInfo∙numOfNvmeBlock) ;;
      if numOfBlock <? n then
        issue_rx_block reqSlotTag numOfBlock dmaIndex devAddr ;;
        ret (inl (numOfBlock + 1, dmaIndex + 1, u32 (devAddr + BYTES_PER_NVME_BLOCK)))
      else ret (inr tt)) (0, dmaIndex, devAddr) ;;
    t <- hostM (!(g_hostDmaStatus∙fifoTail)) ;;
    rPool.[reqSlotTag]∙nvmeDmaInfo∙reqTail ::= cnt autoDmaRx t ;;
    o <- hostM (!(g_hostDmaAssistStatus∙autoDmaRxOverFlowCnt)) ;;
    rPool.[reqSlotTag]∙nvmeDmaInfo∙overFlowCnt ::= o
  else if reqCode r =? REQ_CODE_TxDMA then
    issued <- loop fuel (λ '(numOfBlock, dmaIndex, devAddr),
      n <- !(rPool.[reqSlotTag]∙nvmeDmaInfo∙numOfNvmeBlock) ;;
      if numOfBlock <? n then
        ok <- issue_tx_block reqSlotTag numOfBlock dmaIndex devAddr ;;
        if (ok : bool)
        then ret (inl (numOfBlock + 1, dmaIndex + 1, u32 (devAddr + BYTES_PER_NVME_BLOCK)))
        else ret (inr false)
      else ret (inr true)) (0, dmaIndex, devAddr) ;;
    when issued (
      t <- hostM (!(g_hostDmaStatus∙fifoTail)) ;;
      rPool.[reqSlotTag]∙nvmeDmaInfo∙reqTail ::= cnt autoDmaTx t ;;
      o <- hostM (!(g_hostDmaAssistStatus∙autoDmaTxOverFlowCnt)) ;;
      rPool.[reqSlotTag]∙nvmeDmaInfo∙overFlowCnt ::= o)
  else fail Assert.

Definition PutToSliceReqQ (reqSlotTag : Z) : M (RSt W) unit :=
  qM (LinkToSliceReqQ reqSlotTag) ;;
  tag <- !(rPool.[reqSlotTag]∙nvmeCmdSlotTag) ;; AllocateNvmeDmaCnt tag.

Definition PutToNvmeDmaReqQ (reqSlotTag : Z) : M (RSt W) unit :=
  qM (LinkToNvmeDmaReqQ reqSlotTag) ;;
  tag <- !(rPool.[reqSlotTag]∙nvmeCmdSlotTag) ;; GetTimeHostReqNvmeDmaStart tag.

Definition PutToCustomCmdReqQ (reqSlotTag : Z) : M (RSt W) unit :=
  qM (LinkToCustomCmdReqQ reqSlotTag) ;;
  tag <- !(rPool.[reqSlotTag]∙nvmeCmdSlotTag) ;; GetTimeHostReqNvmeDmaStart tag.

(** Issue a host DMA request and queue it: the same lines in SelectLowLevelReqQ
    and ReleaseBlockedByBufDepReq. *)
Definition issue_and_queue (reqSlotTag : Z) : M (RSt W) unit :=
  IssueNvmeDmaReq reqSlotTag ;;
  c <- !(rPool.[reqSlotTag]∙reqOpt∙customCmd) ;;
  if c =? REQ_OPT_CUSTOM_CMD_ON then PutToCustomCmdReqQ reqSlotTag else PutToNvmeDmaReqQ reqSlotTag.

(** ** Release of dependent requests *)

(** The request is no longer the last user of its buffer entry. *)
Definition clear_blocking_tail (reqSlotTag : Z) : M (RSt W) unit :=
  r <- !(rPool.[reqSlotTag]) ;;
  let e := entry (dataBufInfo r) in
  if dataBufFormat (reqOpt r) =? REQ_OPT_DATA_BUF_ENTRY then
    if ccmdDataBuf (reqOpt r) =? REQ_OPT_CUSTOM_CMD_BUF_ON then
      t <- !(rCcmdBuf.[e]∙blockingReqTail) ;;
      when (t =? reqSlotTag) (rCcmdBuf.[e]∙blockingReqTail ::= REQ_SLOT_TAG_NONE)
    else
      t <- !(rBuf.[e]∙blockingReqTail) ;;
      when (t =? reqSlotTag) (rBuf.[e]∙blockingReqTail ::= REQ_SLOT_TAG_NONE)
  else when (dataBufFormat (reqOpt r) =? REQ_OPT_DATA_BUF_TEMP_ENTRY)
    (t <- !(tempDataBuf.[e]) ;;
     when (t =? reqSlotTag) (tempDataBuf.[e] ::= REQ_SLOT_TAG_NONE)).

(** A request whose buffer dependency is gone. *)
Definition release_target (target : Z) : M (RSt W) unit :=
  qM (SelectiveGetFromBlockedByBufDepReqQ target) ;;
  t <- !(rPool.[target]) ;;
  if reqType t =? REQ_TYPE_NVME_DMA then issue_and_queue target
  else when (reqType t =? REQ_TYPE_NAND)
    ('(chNo, wayNo, _, _) <- vsa_location target ;;
     if rowAddrDependencyCheck (reqOpt t) =? REQ_OPT_ROW_ADDR_DEPENDENCY_CHECK then
       report <- CheckRowAddrDepRelease target ;;
       if report =? ROW_ADDR_DEPENDENCY_REPORT_PASS then qM (PutToNandReqQ target chNo wayNo)
       else if report =? ROW_ADDR_DEPENDENCY_REPORT_BLOCKED then
         qM (PutToBlockedByRowAddrDepReqQ target chNo wayNo)
       else fail Assert
     else if rowAddrDependencyCheck (reqOpt t) =? REQ_OPT_ROW_ADDR_DEPENDENCY_NONE then
       qM (PutToNandReqQ target chNo wayNo)
     else fail Assert).

Definition ReleaseBlockedByBufDepReq (reqSlotTag : Z) : M (RSt W) unit :=
  target <- !(rPool.[reqSlotTag]∙nextBlockingReq) ;;
  when (negb (target =? REQ_SLOT_TAG_NONE))
    (rPool.[target]∙prevBlockingReq ::= REQ_SLOT_TAG_NONE ;;
     rPool.[reqSlotTag]∙nextBlockingReq ::= REQ_SLOT_TAG_NONE) ;;
  clear_blocking_tail reqSlotTag ;;
  when (negb (target =? REQ_SLOT_TAG_NONE))
    (ty <- !(rPool.[target]∙reqQueueType) ;;
     when (ty =? REQ_QUEUE_TYPE_BLOCKED_BY_BUF_DEP) (release_target target)).

Definition ReleaseBlockedByRowAddrDepReq (chNo wayNo : Z) : M (RSt W) unit :=
  head <- !(rQueues.[blockedByRowAddrDepReqQ chNo wayNo]∙headReq) ;;
  loop (Datatypes.S (Z.to_nat AVAILABLE_OUNTSTANDING_REQ_COUNT)) (λ reqSlotTag,
    if reqSlotTag =? REQ_SLOT_TAG_NONE then ret (inr tt) else
    next <- !(rPool.[reqSlotTag]∙nextReq) ;;
    c <- !(rPool.[reqSlotTag]∙reqOpt∙rowAddrDependencyCheck) ;;
    (if c =? REQ_OPT_ROW_ADDR_DEPENDENCY_CHECK then
       report <- CheckRowAddrDepRelease reqSlotTag ;;
       if report =? ROW_ADDR_DEPENDENCY_REPORT_PASS then
         qM (SelectiveGetFromBlockedByRowAddrDepReqQ reqSlotTag chNo wayNo) ;;
         qM (PutToNandReqQ reqSlotTag chNo wayNo)
       else if report =? ROW_ADDR_DEPENDENCY_REPORT_BLOCKED then skip
       else fail Assert
     else fail Assert) ;;
    ret (inl next)) head.

(** ** Completions *)

Definition SelectiveGetFromNvmeDmaReqQ (reqSlotTag : Z) : M (RSt W) unit :=
  qM (UnlinkFromNvmeDmaReqQ reqSlotTag) ;;
  tag <- !(rPool.[reqSlotTag]∙nvmeCmdSlotTag) ;;
  GetTimeHostReqNvmeDmaEnd tag ;;
  qM (PutToFreeReqQ reqSlotTag) ;;
  ReleaseBlockedByBufDepReq reqSlotTag.

Definition SelectiveGetFromCustomCmdReqQ (reqSlotTag : Z) : M (RSt W) unit :=
  qM (q_selective_get customCmdQ reqSlotTag) ;;
  code <- !(rPool.[reqSlotTag]∙reqCode) ;;
  tag <- !(rPool.[reqSlotTag]∙nvmeCmdSlotTag) ;;
  when (code =? REQ_CODE_RxDMA) (CompleteRxforCustomIoCmd tag) ;;
  when (code =? REQ_CODE_TxDMA) (CompleteTxforCustomIoCmd tag) ;;
  qM (ForgetCustomCmdReq reqSlotTag) ;;
  GetTimeHostReqNvmeDmaEnd tag ;;
  qM (PutToFreeReqQ reqSlotTag) ;;
  ReleaseBlockedByBufDepReq reqSlotTag.

Definition GetFromNandReqQ (chNo wayNo : Z) : M (RSt W) unit :=
  reqSlotTag <- qM (TakeFromNandReqQ chNo wayNo) ;;
  r <- !(rPool.[reqSlotTag]) ;;
  when (customCmd (reqOpt r) =? REQ_OPT_CUSTOM_CMD_ON)
    (CompleteNandReqforCustomIoCmd (nvmeCmdSlotTag r)) ;;
  GetTimeBufferEvictNandReqEnd (nvmeCmdSlotTag r) reqSlotTag ;;
  qM (PutToFreeReqQ reqSlotTag) ;;
  ReleaseBlockedByBufDepReq reqSlotTag.

(** The done flags are remembered: requests are visited from the newest, and
    an engine completes in order. *)
Definition CheckDoneNvmeDmaReq : M (RSt W) unit :=
  tail <- !(rQueues.[nvmeDmaReqQ]∙tailReq) ;;
  loop (Datatypes.S (Z.to_nat AVAILABLE_OUNTSTANDING_REQ_COUNT)) (λ '(reqSlotTag, rxDone, txDone),
    if reqSlotTag =? REQ_SLOT_TAG_NONE then ret (inr tt) else
    r <- !(rPool.[reqSlotTag]) ;;
    let d := nvmeDmaInfo r in
    if reqCode r =? REQ_CODE_RxDMA then
      rxDone <- (if rxDone =? 0 then hostM (check_auto_rx_dma_partial_done (reqTail d) (overFlowCnt d))
                 else ret rxDone) ;;
      when (negb (rxDone =? 0)) (SelectiveGetFromNvmeDmaReqQ reqSlotTag) ;;
      ret (inl (prevReq r, rxDone, txDone))
    else
      txDone <- (if txDone =? 0 then hostM (check_auto_tx_dma_partial_done (reqTail d) (overFlowCnt d))
                 else ret txDone) ;;
      when (negb (txDone =? 0)) (SelectiveGetFromNvmeDmaReqQ reqSlotTag) ;;
      ret (inl (prevReq r, rxDone, txDone))) (tail, 0, 0).

(** A custom request that is not issued yet. *)
Definition retry_custom (reqSlotTag : Z) : M (RSt W) unit :=
  report <- CheckBufDep reqSlotTag ;;
  if report =? BUF_DEPENDENCY_REPORT_BLOCKED then ReleaseBlockedByBufDepReq reqSlotTag
  else IssueNvmeDmaReq reqSlotTag.

Definition CheckDoneCustomCmdDmaReq : M (RSt W) unit :=
  tail <- !(rQueues.[customCmdQ]∙tailReq) ;;
  loop (Datatypes.S (Z.to_nat AVAILABLE_OUNTSTANDING_REQ_COUNT)) (λ '(reqSlotTag, rxDone, txDone),
    if reqSlotTag =? REQ_SLOT_TAG_NONE then ret (inr tt) else
    r <- !(rPool.[reqSlotTag]) ;;
    let d := nvmeDmaInfo r in
    if reqCode r =? REQ_CODE_RxDMA then
      if issuedFlag d =? REQ_INFO_ISSUED_FLAG_ON then
        rxDone <- (if rxDone =? 0 then hostM (check_auto_rx_dma_partial_done (reqTail d) (overFlowCnt d))
                   else ret rxDone) ;;
        when (negb (rxDone =? 0)) (SelectiveGetFromCustomCmdReqQ reqSlotTag) ;;
        ret (inl (prevReq r, rxDone, txDone))
      else retry_custom reqSlotTag ;; ret (inl (prevReq r, rxDone, txDone))
    else
      n <- !(customIo.[nvmeCmdSlotTag r]∙notCompletedRxCount) ;;
      if n =? 0 then
        if issuedFlag d =? REQ_INFO_ISSUED_FLAG_ON then
          txDone <- (if txDone =? 0 then hostM (check_auto_tx_dma_partial_done (reqTail d) (overFlowCnt d))
                     else ret txDone) ;;
          when (negb (txDone =? 0)) (SelectiveGetFromCustomCmdReqQ reqSlotTag) ;;
          ret (inl (prevReq r, rxDone, txDone))
        else retry_custom reqSlotTag ;; ret (inl (prevReq r, rxDone, txDone))
      else ret (inl (prevReq r, rxDone, txDone))) (tail, 0, 0).
(** ** Buffer entries and their blocking requests *)

Definition InitDataBuf : M (RSt W) unit :=
  zoom r_buf (InitBuf AVAILABLE_DATA_BUFFER_ENTRY_COUNT) ;;
  for_range 0 AVAILABLE_TEMPORARY_DATA_BUFFER_ENTRY_COUNT (λ bufEntry,
    tempDataBuf.[bufEntry] ::= REQ_SLOT_TAG_NONE).

(** The request waits for the last user of the entry and becomes its last user. *)
Definition chain_blocking_req (tail : lval (RSt W) Z) (reqSlotTag : Z) : M (RSt W) unit :=
  t <- !tail ;;
  when (negb (t =? REQ_SLOT_TAG_NONE))
    (rPool.[reqSlotTag]∙prevBlockingReq ::= t ;;
     p <- !(rPool.[reqSlotTag]∙prevBlockingReq) ;;
     rPool.[p]∙nextBlockingReq ::= reqSlotTag) ;;
  tail ::= u16 reqSlotTag.

Definition UpdateDataBufEntryInfoBlockingReq (bufEntry reqSlotTag : Z) : M (RSt W) unit :=
  chain_blocking_req (rBuf.[bufEntry]∙blockingReqTail) reqSlotTag ;;
  tag <- !(rPool.[reqSlotTag]∙nvmeCmdSlotTag) ;; GetTimeBlockedBufferDef tag.

Definition UpdateCcmdDataBufEntryInfoBlockingReq (bufEntry reqSlotTag : Z) : M (RSt W) unit :=
  chain_blocking_req (rCcmdBuf.[bufEntry]∙blockingReqTail) reqSlotTag ;;
  tag <- !(rPool.[reqSlotTag]∙nvmeCmdSlotTag) ;; GetTimeBlockedBufferDef tag.

Definition AllocateTempDataBuf (dieNo : Z) : Z := dieNo.

Definition UpdateTempDataBufEntryInfoBlockingReq (bufEntry reqSlotTag : Z) : M (RSt W) unit :=
  chain_blocking_req (tempDataBuf.[bufEntry]) reqSlotTag.

(** Assign the type, code and options of a NAND request; an erase leaves the ECC
    options alone. *)
Definition fill_nand_req (reqSlotTag code bufFormat addrOpt : Z) (ecc : option (Z * Z))
    (depCheck space fua custom ccmd : Z) : M (RSt W) unit :=
  let r := rPool.[reqSlotTag] in
  r∙reqType ::= REQ_TYPE_NAND ;;
  r∙reqCode ::= code ;;
  r∙reqOpt∙dataBufFormat ::= bufFormat ;;
  r∙reqOpt∙nandAddr ::= addrOpt ;;
  match ecc with
  | Some (e, w) => r∙reqOpt∙nandEcc ::= e ;; r∙reqOpt∙nandEccWarning ::= w
  | None => skip
  end ;;
  r∙reqOpt∙rowAddrDependencyCheck ::= depCheck ;;
  r∙reqOpt∙blockSpace ::= space ;;
  r∙reqOpt∙forceUnitAccess ::= fua ;;
  r∙reqOpt∙customCmd ::= custom ;;
  r∙reqOpt∙ccmdDataBuf ::= ccmd.

(** Assign a physical address. *)
Definition fill_physical (reqSlotTag ch way block page : Z) : M (RSt W) unit :=
  let n := rPool.[reqSlotTag]∙nandInfo in
  n∙physicalCh ::= ch ;; n∙physicalWay ::= way ;; n∙physicalBlock ::= block ;;
  n∙physicalPage ::= page.
End low_level.
