(* ===== verification/HostDma.v ===== *)
(** The transfers of a host DMA request (IssueNvmeDmaReq in request_schedule.c
    with nvme/host_lld.c): which blocks are handed to the engine, and when the
    request counts as done. *)
From S2P Require Import Prelude Frame Config MemMap ReqFormat ReqQueues DataBuffer State HostLld Nsc.
From S2P Require Import HostTime CustomIo LowLevel.

(** Hardware: the engines drain their queues, so that waiting for room ends. *)
Class FifoAnswers (W : Type) `{Device W} `{Fuel} : Prop :=
  fifo_answers (e : dma_engine) (s : HSt W) : room e s.

Section host_dma.
Context `{Config} {W : Type} `{Device W} `{Fuel} `{!FifoAnswers W}.
Implicit Types (s : RSt W) (tag : Z) (r : SSD_REQ_FORMAT).

(** What the transfers depend on. *)
Definition dma_core r :=
  (reqType r, reqCode r, nvmeCmdSlotTag r, reqOpt r, dataBufInfo r,
   (startIndex (nvmeDmaInfo r), nvmeBlockOffset (nvmeDmaInfo r), numOfNvmeBlock (nvmeDmaInfo r))).

(** A read of a custom command is sent when the command's writes are in. *)
Definition may_send (e : dma_engine) r (c : CUSTOM_IO_CMD_COMPLETE_ENTRY) : Prop :=
  e = autoDmaTx → customCmd (reqOpt r) = REQ_OPT_CUSTOM_CMD_ON → notCompletedRxCount c = 0.

(** [T] transfers of the engine were made; the request is as at the start, and
    marked as issued if [all] its blocks are. *)
Definition Issuing e tag r T (all : bool) s : Prop :=
  represents e (r_host s) T ∧ (∃ c, r_customIo s !! nvmeCmdSlotTag r = Some c ∧ may_send e r c) ∧
  ∃ r', q_reqPool (r_q s) !! tag = Some r' ∧ dma_core r' = dma_core r ∧
    (all = true → issuedFlag (nvmeDmaInfo r') = REQ_INFO_ISSUED_FLAG_ON).

Lemma wp_host {A} (m : M (HSt W) A) (Φ : A → RSt W → Prop) s :
  wp m (λ a h, Φ a (fset r_host h s)) (r_host s) → wp (hostM m) Φ s.
Proof. apply wp_zoom. Qed.

(** The flag that marks the last block. *)
Lemma wp_set_issued e tag r T s :
  Issuing e tag r T false s →
  wp (rPool.[tag]∙nvmeDmaInfo∙issuedFlag ::= REQ_INFO_ISSUED_FLAG_ON) (λ _ s', Issuing e tag r T true s') s.
Proof.
  intros (HT & Hc & r' & Hr & Hcore & _). eapply wp_store; [cbn; by rewrite Hr|]. cbn. rewrite Hr. cbn.
  split_and!; [done|done|]. eexists. cbn. rewrite lookup_insert_eq. split_and!; [done|done|done].
Qed.

Lemma wp_issued_count e (f : CUSTOM_IO_CMD_COMPLETE_ENTRY → Z) `{!Field f} tag r T s :
  (∀ v c, notCompletedRxCount (fset f v c) = notCompletedRxCount c) →
  Issuing e tag r T false s →
  wp (decr (customIo.[nvmeCmdSlotTag r]∙f) ;;
      rPool.[tag]∙nvmeDmaInfo∙issuedFlag ::= REQ_INFO_ISSUED_FLAG_ON) (λ _ s', Issuing e tag r T true s') s.
Proof.
  intros Hf (HT & (c & Hc & Hs) & Hr). apply wp_bind. eapply wp_modify; [cbn; by rewrite Hc|]. cbn. rewrite Hc. cbn.
  apply wp_set_issued. split_and!; [done| |done]. cbn. rewrite lookup_insert_eq. eexists. split; [done|].
  intros He Hcc. rewrite Hf. auto.
Qed.

Lemma wp_last e tag r T b (m : M (RSt W) unit) s :
  Issuing e tag r T false s →
  (b = true → wp m (λ _ s', Issuing e tag r T true s') s) →
  wp (when b m) (λ _ s', Issuing e tag r T b s') s.
Proof. intros HI Hm. destruct b; [by apply Hm|by apply wp_ret]. Qed.

Lemma wp_rx_block tag r T i idx addr s :
  Issuing autoDmaRx tag r T false s → T + 1 < 2 ^ 40 → idx < 256 →
  wp (issue_rx_block tag i idx addr)
    (λ _ s', Issuing autoDmaRx tag r (T + 1) (i =? numOfNvmeBlock (nvmeDmaInfo r) - 1) s') s.
Proof.
  intros (HT & Hc & r' & Hr & Hcore & _) Hlt Hidx. unfold issue_rx_block.
  apply wp_bind, (wp_load _ r'); [cbn; by rewrite Hr|]. injection Hcore as E1 E2 E3 E4 E5 E6 E7 E8. rewrite E3, E4, E8.
  assert (∀ ac, wp (hostM (set_auto_rx_dma (nvmeCmdSlotTag r) idx addr ac))
    (λ _ s', Issuing autoDmaRx tag r (T + 1) false s') s) as Hset.
  { intros ac. apply wp_host. eapply wp_mono; [by apply set_auto_rx_dma_spec|]. cbn beta. intros _ h [Hh _].
    split_and!; [done|done|]. exists r'. split_and!; [done|unfold dma_core; congruence|done]. }
  destruct (_ =? REQ_OPT_CUSTOM_CMD_ON); (apply wp_bind; eapply wp_mono; [apply Hset|]; cbn beta; intros _ s1 HI;
    apply wp_last; [done|]; intros _).
  - by apply wp_issued_count.
  - by apply wp_set_issued.
Qed.

Lemma wp_tx_block tag r T i idx addr s :
  Issuing autoDmaTx tag r T false s → T + 1 < 2 ^ 40 → idx < 256 →
  wp (issue_tx_block tag i idx addr)
    (λ ok s', ok = true ∧ Issuing autoDmaTx tag r (T + 1) (i =? numOfNvmeBlock (nvmeDmaInfo r) - 1) s') s.
Proof.
  intros (HT & Hc & r' & Hr & Hcore & _) Hlt Hidx. unfold issue_tx_block.
  apply wp_bind, (wp_load _ r'); [cbn; by rewrite Hr|]. injection Hcore as E1 E2 E3 E4 E5 E6 E7 E8. rewrite E3, E4, E8.
  assert (∀ ac, wp (hostM (set_auto_tx_dma (nvmeCmdSlotTag r) idx addr ac))
    (λ _ s', Issuing autoDmaTx tag r (T + 1) false s') s) as Hset.
  { intros ac. apply wp_host. eapply wp_mono; [by apply set_auto_tx_dma_spec|]. cbn beta. intros _ h [Hh _].
    split_and!; [done|done|]. exists r'. split_and!; [done|unfold dma_core; congruence|done]. }
  destruct (Z.eqb_spec (customCmd (reqOpt r)) REQ_OPT_CUSTOM_CMD_ON) as [Ec|_].
  - destruct Hc as (c & Hc & Hsend). apply wp_bind, (wp_load _ (notCompletedRxCount c)); [cbn; by rewrite Hc|].
    rewrite (Hsend eq_refl Ec). cbn [Z.eqb]. apply wp_bind. eapply wp_mono; [apply Hset|]. cbn beta. intros _ s1 HI.
    apply wp_bind. eapply wp_mono; [apply wp_last; [done|]; intros _; by apply wp_issued_count|].
    cbn beta. intros _ s2 HI2. by apply wp_ret.
  - apply wp_bind. eapply wp_mono; [apply Hset|]. cbn beta. intros _ s1 HI.
    apply wp_bind. eapply wp_mono; [apply wp_last; [done|]; intros _; by apply wp_set_issued|].
    cbn beta. intros _ s2 HI2. by apply wp_ret.
Qed.

(** ** All blocks *)

(** The number of transfers of a request, counted as it is recorded. *)
Definition Recorded e tag r T s : Prop :=
  represents e (r_host s) T ∧
  ∃ r', q_reqPool (r_q s) !! tag = Some r' ∧ dma_core r' = dma_core r ∧
    issuedFlag (nvmeDmaInfo r') = REQ_INFO_ISSUED_FLAG_ON ∧
    reqTail (nvmeDmaInfo r') = T mod 256 ∧ overFlowCnt (nvmeDmaInfo r') = T / 256.

(** A request with a buffer entry and at least one block. *)
Definition transfer_ok r : Prop :=
  reqType r = REQ_TYPE_NVME_DMA ∧ dataBufFormat (reqOpt r) = REQ_OPT_DATA_BUF_ENTRY ∧
  0 < numOfNvmeBlock (nvmeDmaInfo r) ∧ startIndex (nvmeDmaInfo r) + numOfNvmeBlock (nvmeDmaInfo r) ≤ 256.

Lemma transfer_addr r : transfer_ok r → is_Some (data_buf_addr r).
Proof. intros (Ht & Hf & _). unfold data_buf_addr. rewrite Ht, Hf. cbn. eauto. Qed.

(** The two members that remember how many transfers were made. *)
Lemma wp_record e tag r T (over : lval (HSt W) Z) s :
  Issuing e tag r T true s → peek over (r_host s) = Some (over_of e (h_assist (r_host s))) →
  wp (t <- hostM (!(g_hostDmaStatus∙fifoTail)) ;;
      rPool.[tag]∙nvmeDmaInfo∙reqTail ::= cnt e t ;;
      o <- hostM (!over) ;;
      rPool.[tag]∙nvmeDmaInfo∙overFlowCnt ::= o)
    (λ _ s', Recorded e tag r T s') s.
Proof.
  intros (HT & _ & r' & Hr & Hcore & Hi) Hover. pose proof HT as (HT0 & _ & Hc & Ho).
  apply wp_bind, wp_host, (wp_load _ (fifoTail (h_dma (r_host s)))); [done|]. rewrite Hc.
  apply wp_bind. eapply wp_store; [cbn; by rewrite Hr|]. cbn -[wrap hostM]. rewrite Hr. cbn -[wrap hostM].
  apply wp_bind, wp_host, (wp_load _ (T / 256)); [by rewrite <- Ho|].
  eapply wp_store; [cbn; by rewrite lookup_insert_eq|]. cbn. rewrite lookup_insert_eq. cbn.
  split; [exact HT|]. cbn. rewrite lookup_insert_eq. eexists. split_and!; [done|done|by apply Hi|cbn|cbn].
  - apply wrap_small. apply Z.mod_pos_bound. lia.
  - apply wrap_small. split; [apply Z.div_pos; lia|]. apply Z.div_lt_upper_bound; lia.
Qed.

Lemma wp_num_blocks e tag r T b (Φ : Z → RSt W → Prop) s :
  Issuing e tag r T b s → Φ (numOfNvmeBlock (nvmeDmaInfo r)) s →
  wp (!(rPool.[tag]∙nvmeDmaInfo∙numOfNvmeBlock)) Φ s.
Proof.
  intros (_ & _ & r' & Hr & Hcore & _) HΦ. injection Hcore as _ _ _ _ _ _ _ E. rewrite <- E in HΦ.
  eapply wp_load; [cbn; by rewrite Hr|done].
Qed.

(** The loop has issued [i] blocks. *)
Definition Blocks e tag r T (x : Z * Z * Z) s : Prop :=
  let '(i, idx, _) := x in
  0 ≤ i ≤ numOfNvmeBlock (nvmeDmaInfo r) ∧ idx = startIndex (nvmeDmaInfo r) + i ∧
  Issuing e tag r (T + i) (i =? numOfNvmeBlock (nvmeDmaInfo r)) s.

Lemma Blocks_next e tag r T i idx a s :
  0 ≤ i < numOfNvmeBlock (nvmeDmaInfo r) → idx = startIndex (nvmeDmaInfo r) + i →
  Issuing e tag r (T + i + 1) (i =? numOfNvmeBlock (nvmeDmaInfo r) - 1) s →
  Blocks e tag r T (i + 1, idx + 1, a) s ∧
  (Z.to_nat (numOfNvmeBlock (nvmeDmaInfo r) - (i + 1)) < Z.to_nat (numOfNvmeBlock (nvmeDmaInfo r) - i))%nat.
Proof.
  intros Hi -> HI. split; [|lia]. split_and!; [lia|lia|lia|].
  replace (T + (i + 1)) with (T + i + 1) by lia.
  replace (i + 1 =? _) with (i =? numOfNvmeBlock (nvmeDmaInfo r) - 1); [done|].
  destruct (Z.eqb_spec i (numOfNvmeBlock (nvmeDmaInfo r) - 1)), (Z.eqb_spec (i + 1) (numOfNvmeBlock (nvmeDmaInfo r))); lia.
Qed.

Lemma Blocks_false e tag r T i idx a s :
  Blocks e tag r T (i, idx, a) s → Issuing e tag r (T + i) false s.
Proof. intros (_ & _ & ? & ? & r' & ? & ? & _). split_and!; [done|done|]. exists r'. by split_and!. Qed.

Lemma issue_rx_ok tag r T s :
  q_reqPool (r_q s) !! tag = Some r → transfer_ok r → reqCode r = REQ_CODE_RxDMA →
  Issuing autoDmaRx tag r T false s → T + numOfNvmeBlock (nvmeDmaInfo r) < 2 ^ 40 →
  wp (IssueNvmeDmaReq tag) (λ _ s', Recorded autoDmaRx tag r (T + numOfNvmeBlock (nvmeDmaInfo r)) s') s.
Proof.
  intros Hr Hok Hcode HI Hlt. pose proof Hok as (_ & _ & Hn & Hidx). destruct (transfer_addr r Hok) as [a Ha].
  unfold IssueNvmeDmaReq. apply wp_bind, (wp_load _ r); [cbn; by rewrite Hr|].
  apply wp_bind. unfold GenerateDataBufAddr. apply wp_bind, (wp_load _ r); [cbn; by rewrite Hr|].
  rewrite Ha. apply wp_ret. rewrite Hcode. cbn [Z.eqb Pos.eqb]. apply wp_bind.
  apply (wp_loop (Blocks autoDmaRx tag r T) (λ '(i, _, _) _, Z.to_nat (numOfNvmeBlock (nvmeDmaInfo r) - i))); [lia| |].
  { split_and!; [lia|lia|lia|]. rewrite Z.add_0_r. by rewrite (proj2 (Z.eqb_neq _ _)) by lia. }
  intros [[i idx] ad] s1 HB. apply wp_bind. eapply wp_num_blocks; [apply HB|].
  destruct (Z.ltb_spec i (numOfNvmeBlock (nvmeDmaInfo r))) as [Hi|Hi].
  - apply wp_bind. pose proof HB as (Hr1 & Hix & _).
    eapply wp_mono; [apply wp_rx_block; [by eapply Blocks_false|lia|lia]|]. cbn beta. intros _ s2 HI2. apply wp_ret.
    apply Blocks_next; [lia|done|done].
  - apply wp_ret. destruct HB as (Hr1 & _ & HI1). assert (i = numOfNvmeBlock (nvmeDmaInfo r)) as -> by lia.
    rewrite Z.eqb_refl in HI1. by apply wp_record.
Qed.

Lemma issue_tx_ok tag r T s :
  q_reqPool (r_q s) !! tag = Some r → transfer_ok r → reqCode r = REQ_CODE_TxDMA →
  Issuing autoDmaTx tag r T false s → T + numOfNvmeBlock (nvmeDmaInfo r) < 2 ^ 40 →
  wp (IssueNvmeDmaReq tag) (λ _ s', Recorded autoDmaTx tag r (T + numOfNvmeBlock (nvmeDmaInfo r)) s') s.
Proof.
  intros Hr Hok Hcode HI Hlt. pose proof Hok as (_ & _ & Hn & Hidx). destruct (transfer_addr r Hok) as [a Ha].
  unfold IssueNvmeDmaReq. apply wp_bind, (wp_load _ r); [cbn; by rewrite Hr|].
  apply wp_bind. unfold GenerateDataBufAddr. apply wp_bind, (wp_load _ r); [cbn; by rewrite Hr|].
  rewrite Ha. apply wp_ret. rewrite Hcode. cbn [Z.eqb Pos.eqb]. apply wp_bind.
  apply (wp_loop (Blocks autoDmaTx tag r T) (λ '(i, _, _) _, Z.to_nat (numOfNvmeBlock (nvmeDmaInfo r) - i))); [lia| |].
  { split_and!; [lia|lia|lia|]. rewrite Z.add_0_r. by rewrite (proj2 (Z.eqb_neq _ _)) by lia. }
  intros [[i idx] ad] s1 HB. apply wp_bind. eapply wp_num_blocks; [apply HB|].
  destruct (Z.ltb_spec i (numOfNvmeBlock (nvmeDmaInfo r))) as [Hi|Hi].
  - apply wp_bind. pose proof HB as (Hr1 & Hix & _).
    eapply wp_mono; [apply wp_tx_block; [by eapply Blocks_false|lia|lia]|]. cbn beta. intros ? s2 [-> HI2]. apply wp_ret.
    apply Blocks_next; [lia|done|done].
  - apply wp_ret. destruct HB as (Hr1 & _ & HI1). assert (i = numOfNvmeBlock (nvmeDmaInfo r)) as -> by lia.
    rewrite Z.eqb_refl in HI1. by apply wp_record.
Qed.

(** ** Issuing ends *)

Definition blocks_of tag s := (λ r, numOfNvmeBlock (nvmeDmaInfo r)) <$> q_reqPool (r_q s) !! tag.

Lemma blocks_issued tag : LKeeps (blocks_of tag) (rPool.[tag]∙nvmeDmaInfo∙issuedFlag).
Proof.
  intros v s. unfold blocks_of. cbn. destruct (q_reqPool (r_q s) !! tag) as [r|] eqn:Hr; cbn; [|by rewrite Hr].
  by rewrite lookup_insert_eq.
Qed.
#[local] Hint Resolve blocks_issued : keeps.

Lemma blocks_rx tag i idx a : Keeps (blocks_of tag) (issue_rx_block tag i idx a).
Proof. keeps_deep. Qed.
Lemma blocks_tx tag i idx a : Keeps (blocks_of tag) (issue_tx_block tag i idx a).
Proof. keeps_deep. Qed.

Lemma ends_read32 (a : Z) : Ends (IO_READ32 (W:=W) a).
Proof. intros w. unfold wpe, IO_READ32. by destruct (dev_read32 a w). Qed.
Lemma ends_write32 (a v : Z) : Ends (IO_WRITE32 (W:=W) a v).
Proof. by intros w. Qed.
Lemma ends_wait e : Ends (wait_not_full (W:=W) e).
Proof. intros s. apply wp_wpe, fifo_answers. Qed.
#[local] Hint Resolve ends_read32 ends_write32 ends_wait : ends.

Lemma ends_rx tag i idx a : Ends (issue_rx_block tag i idx a).
Proof. ends. Qed.
Lemma ends_tx tag i idx a : Ends (issue_tx_block tag i idx a).
Proof. ends. Qed.
#[local] Hint Resolve ends_rx ends_tx : ends.

Lemma blocks_load tag N (Φ : Z → RSt W → Prop) s :
  blocks_of tag s = Some N → Φ N s → wp (!(rPool.[tag]∙nvmeDmaInfo∙numOfNvmeBlock)) Φ s.
Proof.
  unfold blocks_of. intros HN HΦ. destruct (q_reqPool (r_q s) !! tag) as [r|] eqn:Hr; [|done].
  injection HN as <-. eapply wp_load; [cbn; by rewrite Hr|]. done.
Qed.

(** A block, when [N - i] are left. *)
Lemma wpe_block {A B} tag N (m : M (RSt W) A) (k : A → M (RSt W) B) i (Φ : B → RSt W → Prop) s :
  Keeps (blocks_of tag) m → Ends m → blocks_of tag s = Some N →
  (∀ a s', blocks_of tag s' = Some N → wpe (k a) Φ budget_left s') →
  i < N → wpe (bind m k) Φ budget_left s.
Proof.
  intros Hm He HN Hk _. apply wpe_bind. eapply wpe_mono; [apply wlp_wpe; [apply Hm|apply He]|].
  cbn beta. intros a s' [E _]. apply Hk. congruence.
Qed.

Lemma ends_IssueNvmeDmaReq tag : Ends (IssueNvmeDmaReq (W:=W) tag).
Proof.
  intros s. unfold IssueNvmeDmaReq. apply wpe_bind, wpe_load; [done|]. intros r Hr. apply wpe_bind.
  assert (blocks_of tag s = Some (numOfNvmeBlock (nvmeDmaInfo r))) as HN by (unfold blocks_of; cbn in Hr; by rewrite Hr).
  assert (Keeps (blocks_of tag) (GenerateDataBufAddr (W:=W) tag)) as Hk by (unfold GenerateDataBufAddr, asserted; keeps).
  assert (Ends (GenerateDataBufAddr (W:=W) tag)) as He by ends.
  eapply wpe_mono; [apply wlp_wpe; [apply Hk|apply He]|].
  cbn beta. intros a s1 [E _]. rewrite <- E in HN. clear E.
  set (I (n : nat) (x : Z * Z * Z) (s' : RSt W) :=
    blocks_of tag s' = Some (numOfNvmeBlock (nvmeDmaInfo r)) ∧
    n = Z.to_nat (numOfNvmeBlock (nvmeDmaInfo r) - x.1.1)).
  assert (∀ B (body : Z * Z * Z → M (RSt W) (Z * Z * Z + B)) (Φ : B → RSt W → Prop),
    (∀ n x s, I n x s → wpe (body x) (λ y s', match y with
       | inl x' => ∃ m, (m < n)%nat ∧ I m x' s' | inr b => Φ b s' end) budget_left s) →
    wpe (loop (Datatypes.S (Z.to_nat (numOfNvmeBlock (nvmeDmaInfo r)))) body (0, startIndex (nvmeDmaInfo r), a)) Φ budget_left s1) as Hloop.
  { intros B body Φ Hb. apply (wpe_rounds _ I) with (Z.to_nat (numOfNvmeBlock (nvmeDmaInfo r))); [lia| |done].
    split; [done|]. cbn. by rewrite Z.sub_0_r. }
  destruct (_ =? _); [|destruct (_ =? _); [|done]]; apply wpe_bind, Hloop; intros n [[i idx] ad] s2 [HN2 Hn];
    (apply wpe_bind, wp_wpe; eapply blocks_load; [exact HN2|]); cbn in Hn;
    (destruct (Z.ltb_spec i (numOfNvmeBlock (nvmeDmaInfo r))); [|apply wpe_ret]).
  - eapply wpe_block; [apply blocks_rx|apply ends_rx|done| |done]. intros _ s3 HN3. apply wpe_ret.
    eexists. split; [|by split]. cbn. lia.
  - match goal with |- wpe ?m _ _ _ => assert (Ends m) as Hm by ends; apply Hm end.
  - eapply wpe_block; [apply blocks_tx|apply ends_tx|done| |done]. intros [] s3 HN3; apply wpe_ret; [|done].
    eexists. split; [|by split]. cbn. lia.
  - match goal with |- wpe ?m _ _ _ => assert (Ends m) as Hm by ends; apply Hm end.
Qed.
End host_dma.

(** ** The property *)

Definition engine_of (r : SSD_REQ_FORMAT) : dma_engine :=
  if reqCode r =? REQ_CODE_RxDMA then autoDmaRx else autoDmaTx.
Definition check_partial_done {W} `{Device W} (e : dma_engine) : Z → Z → M (HSt W) Z :=
  match e with autoDmaTx => check_auto_tx_dma_partial_done | _ => check_auto_rx_dma_partial_done end.

(** C17: a host DMA request is done exactly when its last block is transferred.
    When the engine has made [T] transfers and waiting for room ends,
    IssueNvmeDmaReq returns after handing over all blocks of the request, which
    makes [T + n] transfers, and marks the request as issued; and from then on
    the completion test with the members the request recorded answers 1 exactly
    when the engine has done those [T + n] transfers, however many more were
    issued since. *)
Theorem dma_request_done_iff_transferred `{Config} {W} `{Device W} `{Fuel} `{!FifoAnswers W} tag r c T (s : RSt W) :
  let e := engine_of r in
  let n := numOfNvmeBlock (nvmeDmaInfo r) in
  q_reqPool (r_q s) !! tag = Some r → transfer_ok r →
  reqCode r = REQ_CODE_RxDMA ∨ reqCode r = REQ_CODE_TxDMA →
  r_customIo s !! nvmeCmdSlotTag r = Some c → may_send e r c →
  represents e (r_host s) T → T + n < 2 ^ 40 →
  wp (IssueNvmeDmaReq tag) (λ _ s', represents e (r_host s') (T + n) ∧
    ∃ r', q_reqPool (r_q s') !! tag = Some r' ∧ dma_core r' = dma_core r ∧
      issuedFlag (nvmeDmaInfo r') = REQ_INFO_ISSUED_FLAG_ON ∧
      ∀ hs T2 D, represents e hs T2 → T + n ≤ T2 → 0 ≤ D ≤ T2 → T2 - D ≤ 255 → shown e hs = D mod 256 →
        wp (check_partial_done e (reqTail (nvmeDmaInfo r')) (overFlowCnt (nvmeDmaInfo r')))
          (λ done _, done = if T + n <=? D then 1 else 0) hs) s.
Proof.
  intros e n Hr Hok Hcode Hc Hsend HT Hlt. subst n. pose proof Hok as (_ & _ & Hn & _).
  assert (Issuing e tag r T false s) as HI by (split_and!; [done|by exists c|by exists r]).
  assert (wp (IssueNvmeDmaReq tag) (λ _ s', Recorded e tag r (T + numOfNvmeBlock (nvmeDmaInfo r)) s') s) as Hw.
  { unfold e, engine_of in *. destruct Hcode as [E|E]; rewrite E in *; cbn in HI |- *; [by apply issue_rx_ok|by apply issue_tx_ok]. }
  eapply wp_mono; [exact Hw|]. cbn beta. intros _ s' (HT' & r' & Hr' & Hcore & Hi & Htail & Hover).
  split; [done|]. exists r'. split_and!; [done|done|done|]. intros hs T2 D H2 Hle HD Hout Hsh.
  rewrite Htail, Hover. unfold e, engine_of, check_partial_done in *. destruct (reqCode r =? REQ_CODE_RxDMA).
  - apply (partial_done_rx_spec T2); try done. destruct HT. lia.
  - apply (partial_done_tx_spec T2); try done. destruct HT. lia.
Qed.

(** C25: The read part of a write+read command waits for the write part.  While
    data of the command is still on its way from the host, IssueNvmeDmaReq of a
    read of that command hands nothing to the engine and changes nothing. *)
Theorem rw_read_waits_for_the_write `{Config} {W} `{Device W} tag r c (s : RSt W) :
  q_reqPool (r_q s) !! tag = Some r → transfer_ok r → reqCode r = REQ_CODE_TxDMA →
  customCmd (reqOpt r) = REQ_OPT_CUSTOM_CMD_ON → r_customIo s !! nvmeCmdSlotTag r = Some c →
  notCompletedRxCount c ≠ 0 → ∀ f : Fuel, IssueNvmeDmaReq tag s = Ok tt s.
Proof.
  intros Hr Hok Hcode Hcc Hc Hn f. pose proof Hok as (_ & _ & Hpos & _). destruct (transfer_addr r Hok) as [a Ha].
  unfold IssueNvmeDmaReq, GenerateDataBufAddr, bind at 1 2, load. cbn -[loop wrap issue_tx_block].
  rewrite Hr. unfold bind at 1. rewrite Hr, Ha. cbn -[loop wrap issue_tx_block]. rewrite Hcode.
  cbn -[wrap issue_tx_block]. unfold bind at 1. cbn [loop]. unfold bind. cbn -[wrap issue_tx_block]. rewrite Hr.
  cbn -[wrap issue_tx_block]. rewrite (proj2 (Z.ltb_lt _ _)) by lia.
  unfold issue_tx_block, bind, load. cbn -[wrap]. rewrite Hr, Hcc. cbn -[wrap]. rewrite Hc. cbn -[wrap].
  by rewrite (proj2 (Z.eqb_neq _ _)).
Qed.

(** A device whose counters move with every access. *)
Definition ticking_device : Device Z :=
  {| dev_read32 _ w := ((w mod 256) * 0x01010101, w + 1);
     dev_write32 _ _ w := w;
     dev_read8 _ w := (0, w);
     dev_write8 _ _ w := w;
     dev_time w := (0, w);
     dev_inbyte w := (0, w);
     dev_undef w := (0, w);
     NSC_BASEADDR i := 0x43C00000 + 0x10000 * i;
     HOST_IP_ADDR := 0x83C00000 |}.

Lemma ticking_cnt e w : cnt e (u32 (u32 ((w mod 256) * 0x01010101))) = w mod 256.
Proof.
  pose proof (Z.mod_pos_bound w 256 ltac:(lia)). rewrite wrap_wrap, wrap_small by lia.
  unfold cnt, get_bits. rewrite Z.shiftr_div_pow2 by (destruct e; cbn; lia).
  destruct e; cbn [cnt_lo]; unfold wrap; cbn; Z.div_mod_to_equations; lia.
Qed.

Lemma ticking_read (Φ : unit → HSt Z → Prop) s :
  Φ tt (MkHSt (h_nvmeTask s) (fset fifoHead (u32 ((h_world s mod 256) * 0x01010101)) (h_dma s))
         (h_assist s) (h_world s + 1)) →
  wp (@read_fifo_head Z ticking_device) Φ s.
Proof. done. Qed.

Lemma ticking_answers (fuel : nat) : @FifoAnswers Z ticking_device (Datatypes.S (Datatypes.S fuel)).
Proof.
  intros e s. unfold room, wait_not_full. apply wp_bind, ticking_read. cbn [loop wait_fuel].
  apply wp_bind, wp_bind, (wp_load _ (fifoTail (h_dma s))); [done|].
  apply wp_bind, (wp_load _ (u32 (u32 ((h_world s mod 256) * 0x01010101)))); [done|]. rewrite ticking_cnt.
  destruct (Z.eqb_spec ((cnt e (fifoTail (h_dma s)) + 1) mod 256) (h_world s mod 256)) as [Heq|_];
    [|by apply wp_ret, wp_ret].
  apply wp_bind, ticking_read, wp_ret. cbn [loop]. apply wp_bind, wp_bind, (wp_load _ (fifoTail (h_dma s))); [done|].
  apply wp_bind, (wp_load _ (u32 (u32 (((h_world s + 1) mod 256) * 0x01010101)))); [done|]. rewrite ticking_cnt.
  rewrite (proj2 (Z.eqb_neq _ _)); [by apply wp_ret, wp_ret|]. rewrite Heq. Z.div_mod_to_equations; lia.
Qed.

(** A read request of two blocks in slot 3, after 254 transfers. *)
Definition two_blocks : SSD_REQ_FORMAT :=
  MkSSD_REQ_FORMAT REQ_TYPE_NVME_DMA REQ_QUEUE_TYPE_NONE REQ_CODE_TxDMA 7 0
    (MkREQ_OPTION REQ_OPT_DATA_BUF_ENTRY 0 0 0 0 0 0 0 0) (MkDATA_BUF_INFO 5) (MkNVME_DMA_INFO 0 1 2 0 0 0)
    (MkNAND_INFO 0 0) REQ_SLOT_TAG_NONE REQ_SLOT_TAG_NONE REQ_SLOT_TAG_NONE REQ_SLOT_TAG_NONE.
Definition before_transfer : RSt Z :=
  MkRSt (MkQSt {[ 3 := two_blocks ]} ∅ 0 0 0) (MkBSt ∅ (MkDATA_BUF_LIST 0 0) ∅) (MkBSt ∅ (MkDATA_BUF_LIST 0 0) ∅)
    ∅ ∅ (MkSSt ∅ ∅ ∅) {[ 7 := MkCUSTOM_IO_CMD_COMPLETE_ENTRY 0 0 0 0 0 ]} (MkTSt ∅ ∅ 0 0 0 0) ∅ ∅ ∅
    (MkHSt (MkNVME_CONTEXT 0 0 0 0 ∅ ∅) (MkHOST_DMA_STATUS 0 (254 * 2 ^ 24) 0 0 0 0)
       (MkHOST_DMA_ASSIST_STATUS 0 0) 0).

Lemma dma_request_done_iff_transferred_witness :
  let _ := tiny_config in let _ := ticking_device in let _ : Fuel := 2%nat in
  wp (IssueNvmeDmaReq 3) (λ _ s', represents autoDmaTx (r_host s') 256) before_transfer.
Proof.
  intros c d f. eapply wp_mono.
  - apply (@dma_request_done_iff_transferred tiny_config Z ticking_device 2%nat (ticking_answers 0) 3 two_blocks
      (MkCUSTOM_IO_CMD_COMPLETE_ENTRY 0 0 0 0 0) 254 before_transfer).
    + reflexivity.
    + vm_compute. intuition congruence.
    + right. reflexivity.
    + reflexivity.
    + intros _ E. discriminate E.
    + vm_compute. intuition congruence.
    + vm_compute. reflexivity.
  - intros _ s' [HT _]. exact HT.
Defined.

Lemma rw_read_waits_for_the_write_witness :
  let _ := tiny_config in let _ := ticking_device in let _ : Fuel := 2%nat in
  let r := fset reqOpt (fset customCmd REQ_OPT_CUSTOM_CMD_ON (reqOpt two_blocks)) two_blocks in
  let s := fset r_customIo {[ 7 := MkCUSTOM_IO_CMD_COMPLETE_ENTRY 0 1 0 0 0 ]}
             (fset r_q (MkQSt {[ 3 := r ]} ∅ 0 0 0) before_transfer) in
  IssueNvmeDmaReq 3 s = Ok tt s.
Proof.
  intros c d f r s.
  apply (@rw_read_waits_for_the_write tiny_config Z ticking_device 3 r (MkCUSTOM_IO_CMD_COMPLETE_ENTRY 0 1 0 0 0) s).
  - reflexivity.
  - vm_compute. intuition congruence.
  - reflexivity.
  - reflexivity.
  - reflexivity.
  - discriminate.
Defined.
