(* ===== verification/Schedule.v ===== *)
(** The NAND request scheduler (request_schedule.c).

    Each channel keeps its ways on seven lists (idle, waiting for a status
    report, waiting for a read trigger, write, read transfer, erase, or a status
    check); a way executes the request at the head of its queue. *)
From S2P Require Import Prelude Dll Config MemMap ReqFormat ReqQueues State HostLld Nsc HostTime.
From S2P Require Import CustomIo LowLevel.

Definition PSEUDO_BAD_BLOCK_MARK := 0.
Definition RETRY_LIMIT := 5.
Definition DIE_STATE_IDLE := 0.
Definition DIE_STATE_EXE := 1.
Definition REQ_STATUS_CHECK_OPT_NONE := 0.
Definition REQ_STATUS_CHECK_OPT_CHECK := 1.
Definition REQ_STATUS_CHECK_OPT_REPORT := 2.
Definition REQ_STATUS_CHECK_OPT_COMPLETION_FLAG := 3.
Definition REQ_STATUS_RUNNING := 0.
Definition REQ_STATUS_DONE := 1.
Definition REQ_STATUS_FAIL := 2.
Definition REQ_STATUS_WARNING := 3.
Definition ERROR_INFO_FAIL := 0.
Definition ERROR_INFO_PASS := 1.
Definition ERROR_INFO_WARNING := 2.

(** ** The way lists *)

Inductive way_list_id :=
| idleL | statusReportL | readTriggerL | writeL | readTransferL | eraseL | statusCheckL.
#[global] Instance way_list_id_eq_dec : EqDecision way_list_id.
Proof. solve_decision. Defined.

Definition way_list_of (id : way_list_id) : WAY_PRIORITY_ENTRY → WAY_LIST :=
  match id with
  | idleL => idleList | statusReportL => statusReportList | readTriggerL => readTriggerList
  | writeL => writeList | readTransferL => readTransferList | eraseL => eraseList
  | statusCheckL => statusCheckList
  end.
#[global] Instance set_way_list_of id : Field (way_list_of id) :=
  match id with
  | idleL => set_idleList | statusReportL => set_statusReportList
  | readTriggerL => set_readTriggerList | writeL => set_writeList
  | readTransferL => set_readTransferList | eraseL => set_eraseList
  | statusCheckL => set_statusCheckList
  end.

Definition way_links : links DIE_STATE_ENTRY :=
  Links _ WAY_NONE prevWay nextWay (fset prevWay) (fset nextWay).

Section way_lists.
Context `{Config}.

(** Apply one of the list idioms to list [id] of channel [chNo]. *)
Definition way_relink
    (op : gmap Z DIE_STATE_ENTRY → Z → Z → option (gmap Z DIE_STATE_ENTRY * (Z * Z)))
    (id : way_list_id) (chNo : Z) : M SSt unit :=
  ways <- !(dieStates.[chNo]) ;;
  l <- !(wayPriority.[chNo]∙(way_list_of id)) ;;
  '(ways', (h', t')) <- from_option (op ways (headWay l) (tailWay l)) ;;
  dieStates.[chNo] ::= ways' ;;
  wayPriority.[chNo]∙(way_list_of id)∙headWay ::= h' ;;
  wayPriority.[chNo]∙(way_list_of id)∙tailWay ::= t'.

Definition way_put (id : way_list_id) (chNo wayNo : Z) : M SSt unit :=
  way_relink (λ ways h t, put_tail way_links ways h t wayNo) id chNo.
Definition way_get (id : way_list_id) (chNo wayNo : Z) : M SSt unit :=
  way_relink (λ ways h t, selective_get way_links ways h t wayNo) id chNo.

Definition PutToNandIdleList : Z → Z → M SSt unit := way_put idleL.
Definition SelectivGetFromNandIdleList : Z → Z → M SSt unit := way_get idleL.
Definition PutToNandStatusReportList : Z → Z → M SSt unit := way_put statusReportL.
Definition SelectivGetFromNandStatusReportList : Z → Z → M SSt unit := way_get statusReportL.
Definition PutToNandReadTriggerList : Z → Z → M SSt unit := way_put readTriggerL.
Definition SelectiveGetFromNandReadTriggerList : Z → Z → M SSt unit := way_get readTriggerL.
Definition PutToNandWriteList : Z → Z → M SSt unit := way_put writeL.
Definition SelectiveGetFromNandWriteList : Z → Z → M SSt unit := way_get writeL.
Definition PutToNandReadTransferList : Z → Z → M SSt unit := way_put readTransferL.
Definition SelectiveGetFromNandReadTransferList : Z → Z → M SSt unit := way_get readTransferL.
Definition PutToNandEraseList : Z → Z → M SSt unit := way_put eraseL.
Definition SelectiveGetFromNandEraseList : Z → Z → M SSt unit := way_get eraseL.
Definition PutToNandStatusCheckList : Z → Z → M SSt unit := way_put statusCheckL.
Definition SelectiveGetFromNandStatusCheckList : Z → Z → M SSt unit := way_get statusCheckL.

(** The list a request waits on when its way is free. *)
Definition list_of_code (reqCode : Z) : option way_list_id :=
  if reqCode =? REQ_CODE_READ then Some readTriggerL
  else if reqCode =? REQ_CODE_READ_TRANSFER then Some readTransferL
  else if reqCode =? REQ_CODE_WRITE then Some writeL
  else if reqCode =? REQ_CODE_ERASE then Some eraseL
  else if (reqCode =? REQ_CODE_RESET) || (reqCode =? REQ_CODE_SET_FEATURE) then Some writeL
  else None.
End way_lists.

(** ** Execution of requests *)

Section schedule.
Context `{Config} {W : Type} `{Device W} `{Fuel}.

Definition sM {A} (m : M SSt A) : M (RSt W) A := zoom r_sched m.

Definition PutToNandWayPriorityTable (reqSlotTag chNo wayNo : Z) : M (RSt W) unit :=
  code <- !(rPool.[reqSlotTag]∙reqCode) ;;
  id <- asserted (list_of_code code) ;;
  sM (way_put id chNo wayNo).

(** The tables the flash controllers write. *)
Definition completeFlag_addr (chNo wayNo : Z) : Z := COMPLETE_FLAG_TABLE_ADDR + 4 * (chNo * USER_WAYS + wayNo).
Definition statusReport_addr (chNo wayNo : Z) : Z := STATUS_REPORT_TABLE_ADDR + 4 * (chNo * USER_WAYS + wayNo).
Definition errorInfo_addr (chNo wayNo : Z) : Z :=
  ERROR_INFO_TABLE_ADDR + 4 * ((chNo * USER_WAYS + wayNo) * ERROR_INFO_WORD_COUNT).

Definition InitReqScheduler : M (RSt W) unit :=
  for_range 0 USER_CHANNELS (λ chNo,
    rWayPriority.[chNo]∙idleList∙headWay ::= 0 ;;
    rWayPriority.[chNo]∙idleList∙tailWay ::= USER_WAYS - 1 ;;
    rWayPriority.[chNo]∙statusReportList∙headWay ::= WAY_NONE ;;
    rWayPriority.[chNo]∙statusReportList∙tailWay ::= WAY_NONE ;;
    rWayPriority.[chNo]∙eraseList∙headWay ::= WAY_NONE ;;
    rWayPriority.[chNo]∙eraseList∙tailWay ::= WAY_NONE ;;
    rWayPriority.[chNo]∙readTriggerList∙headWay ::= WAY_NONE ;;
    rWayPriority.[chNo]∙readTriggerList∙tailWay ::= WAY_NONE ;;
    rWayPriority.[chNo]∙writeList∙headWay ::= WAY_NONE ;;
    rWayPriority.[chNo]∙writeList∙tailWay ::= WAY_NONE ;;
    rWayPriority.[chNo]∙readTransferList∙headWay ::= WAY_NONE ;;
    rWayPriority.[chNo]∙readTransferList∙tailWay ::= WAY_NONE ;;
    rWayPriority.[chNo]∙statusCheckList∙headWay ::= WAY_NONE ;;
    rWayPriority.[chNo]∙statusCheckList∙tailWay ::= WAY_NONE ;;
    for_range 0 USER_WAYS (λ wayNo,
      rDieState.[chNo].[wayNo]∙dieState ::= DIE_STATE_IDLE ;;
      rDieState.[chNo].[wayNo]∙reqStatusCheckOpt ::= REQ_STATUS_CHECK_OPT_NONE ;;
      rDieState.[chNo].[wayNo]∙prevWay ::= wayNo - 1 ;;
      rDieState.[chNo].[wayNo]∙nextWay ::= wayNo + 1 ;;
      devM (IO_WRITE32 (completeFlag_addr chNo wayNo) 0) ;;
      devM (IO_WRITE32 (statusReport_addr chNo wayNo) 0) ;;
      rRetryLimit.[(chNo, wayNo)] ::= RETRY_LIMIT) ;;
    rDieState.[chNo].[0]∙prevWay ::= WAY_NONE ;;
    rDieState.[chNo].[USER_WAYS - 1]∙nextWay ::= WAY_NONE).

Definition IssueNandReq (chNo wayNo : Z) : M (RSt W) unit :=
  reqSlotTag <- !(rQueues.[nandReqQ chNo wayNo]∙headReq) ;;
  rowAddr <- GenerateNandRowAddr reqSlotTag ;;
  dataBufAddr <- GenerateDataBufAddr reqSlotTag ;;
  spareDataBufAddr <- GenerateSpareDataBufAddr reqSlotTag ;;
  r <- !(rPool.[reqSlotTag]) ;;
  GetTimeBufferEvictNandReqStart (nvmeCmdSlotTag r) reqSlotTag ;;
  dev <- !(chCtlReg.[chNo]) ;;
  let opt := rDieState.[chNo].[wayNo]∙reqStatusCheckOpt in
  if reqCode r =? REQ_CODE_READ then
    opt ::= REQ_STATUS_CHECK_OPT_CHECK ;;
    devM (V2FReadPageTriggerAsync dev wayNo rowAddr)
  else if reqCode r =? REQ_CODE_READ_TRANSFER then
    opt ::= REQ_STATUS_CHECK_OPT_COMPLETION_FLAG ;;
    if nandEcc (reqOpt r) =? REQ_OPT_NAND_ECC_ON then
      devM (V2FReadPageTransferAsync dev wayNo dataBufAddr spareDataBufAddr
              (errorInfo_addr chNo wayNo) (completeFlag_addr chNo wayNo) rowAddr)
    else devM (V2FReadPageTransferRawAsync dev wayNo dataBufAddr (completeFlag_addr chNo wayNo))
  else if reqCode r =? REQ_CODE_WRITE then
    opt ::= REQ_STATUS_CHECK_OPT_CHECK ;;
    devM (V2FProgramPageAsync dev wayNo rowAddr dataBufAddr spareDataBufAddr)
  else if reqCode r =? REQ_CODE_ERASE then
    opt ::= REQ_STATUS_CHECK_OPT_CHECK ;;
    devM (V2FEraseBlockAsync dev wayNo rowAddr)
  else if reqCode r =? REQ_CODE_RESET then
    opt ::= REQ_STATUS_CHECK_OPT_NONE ;;
    devM (V2FResetSync dev wayNo)
  else if reqCode r =? REQ_CODE_SET_FEATURE then
    opt ::= REQ_STATUS_CHECK_OPT_NONE ;;
    devM (V2FEnterToggleMode dev wayNo TEMPORARY_PAY_LOAD_ADDR)
  else fail Assert.

Definition CheckEccErrorInfo (chNo wayNo : Z) : M (RSt W) Z :=
  reqSlotTag <- !(rQueues.[nandReqQ chNo wayNo]∙headReq) ;;
  errorInfo0 <- devM (IO_READ32 (errorInfo_addr chNo wayNo)) ;;
  errorInfo1 <- devM (IO_READ32 (errorInfo_addr chNo wayNo + 4)) ;;
  if V2FCrcValid errorInfo0 && V2FSpareChunkValid errorInfo0 && V2FPageChunkValid errorInfo1 then
    w <- !(rPool.[reqSlotTag]∙reqOpt∙nandEccWarning) ;;
    ret (if (w =? REQ_OPT_NAND_ECC_WARNING_ON)
            && (V2FWorstChunkErrorCount errorInfo0 >? BIT_ERROR_THRESHOLD_PER_CHUNK)
         then ERROR_INFO_WARNING else ERROR_INFO_PASS)
  else ret ERROR_INFO_FAIL.

Definition CheckReqStatus (chNo wayNo : Z) : M (RSt W) Z :=
  reqSlotTag <- !(rQueues.[nandReqQ chNo wayNo]∙headReq) ;;
  let optL := rDieState.[chNo].[wayNo]∙reqStatusCheckOpt in
  opt <- !optL ;;
  if opt =? REQ_STATUS_CHECK_OPT_COMPLETION_FLAG then
    completeFlag <- devM (IO_READ32 (completeFlag_addr chNo wayNo)) ;;
    if V2FTransferComplete completeFlag then
      ecc <- !(rPool.[reqSlotTag]∙reqOpt∙nandEcc) ;;
      if ecc =? REQ_OPT_NAND_ECC_ON then
        errorInfo <- CheckEccErrorInfo chNo wayNo ;;
        ret (if errorInfo =? ERROR_INFO_WARNING then REQ_STATUS_WARNING
             else if errorInfo =? ERROR_INFO_FAIL then REQ_STATUS_FAIL else REQ_STATUS_DONE)
      else ret REQ_STATUS_DONE
    else ret REQ_STATUS_RUNNING
  else if opt =? REQ_STATUS_CHECK_OPT_CHECK then
    dev <- !(chCtlReg.[chNo]) ;;
    devM (V2FStatusCheckAsync dev wayNo (statusReport_addr chNo wayNo)) ;;
    optL ::= REQ_STATUS_CHECK_OPT_REPORT ;;
    ret REQ_STATUS_RUNNING
  else if opt =? REQ_STATUS_CHECK_OPT_REPORT then
    statusReport <- devM (IO_READ32 (statusReport_addr chNo wayNo)) ;;
    if V2FRequestReportDone statusReport then
      let status := V2FEliminateReportDoneFlag statusReport in
      if V2FRequestComplete status then
        if V2FRequestFail status then ret REQ_STATUS_FAIL else
        optL ::= REQ_STATUS_CHECK_OPT_NONE ;; ret REQ_STATUS_DONE
      else optL ::= REQ_STATUS_CHECK_OPT_CHECK ;; ret REQ_STATUS_RUNNING
    else ret REQ_STATUS_RUNNING
  else if opt =? REQ_STATUS_CHECK_OPT_NONE then
    dev <- !(chCtlReg.[chNo]) ;;
    readyBusy <- devM (V2FReadyBusyAsync dev) ;;
    ret (if V2FWayReady readyBusy wayNo then REQ_STATUS_DONE else REQ_STATUS_RUNNING)
  else fail Assert.
Definition UpdatePhyBlockMapForGrownBadBlock (dieNo phyBlockNo : Z) : M (RSt W) unit :=
  phyBlock.[(dieNo, phyBlockNo)]∙phyBad ::= BLOCK_STATE_BAD ;;
  bbtInfo.[dieNo]∙grownBadUpdate ::= BBT_INFO_GROWN_BAD_UPDATE_BOOKED.

(** The physical block a row address belongs to. *)
Definition block_of_row (rowAddr : Z) : Z :=
  (rowAddr mod LUN_1_BASE_ADDR) / PAGES_PER_MLC_BLOCK
  + (rowAddr / LUN_1_BASE_ADDR) * TOTAL_BLOCKS_PER_LUN.

(** The request leaves its queue and the die is idle again. *)
Definition finish_req (chNo wayNo : Z) : M (RSt W) unit :=
  rRetryLimit.[(chNo, wayNo)] ::= RETRY_LIMIT ;;
  GetFromNandReqQ chNo wayNo ;;
  rDieState.[chNo].[wayNo]∙dieState ::= DIE_STATE_IDLE.

Definition ExecuteNandReq (chNo wayNo reqStatus : Z) : M (RSt W) unit :=
  reqSlotTag <- !(rQueues.[nandReqQ chNo wayNo]∙headReq) ;;
  st <- !(rDieState.[chNo].[wayNo]∙dieState) ;;
  if st =? DIE_STATE_IDLE then
    IssueNandReq chNo wayNo ;;
    rDieState.[chNo].[wayNo]∙dieState ::= DIE_STATE_EXE
  else when (st =? DIE_STATE_EXE)
    (r <- !(rPool.[reqSlotTag]) ;;
     if reqStatus =? REQ_STATUS_DONE then
       if reqCode r =? REQ_CODE_READ then
         rPool.[reqSlotTag]∙reqCode ::= REQ_CODE_READ_TRANSFER ;;
         rDieState.[chNo].[wayNo]∙dieState ::= DIE_STATE_IDLE
       else finish_req chNo wayNo
     else if reqStatus =? REQ_STATUS_FAIL then
       limit <- !(rRetryLimit.[(chNo, wayNo)]) ;;
       if ((reqCode r =? REQ_CODE_READ) || (reqCode r =? REQ_CODE_READ_TRANSFER)) && (limit >? 0) then
         rRetryLimit.[(chNo, wayNo)] ::= limit - 1 ;;
         when (reqCode r =? REQ_CODE_READ_TRANSFER) (rPool.[reqSlotTag]∙reqCode ::= REQ_CODE_READ) ;;
         rDieState.[chNo].[wayNo]∙dieState ::= DIE_STATE_IDLE
       else
         rowAddr <- GenerateNandRowAddr reqSlotTag ;;
         when ((nandEcc (reqOpt r) =? REQ_OPT_NAND_ECC_OFF)
               && (dataBufFormat (reqOpt r) =? REQ_OPT_DATA_BUF_ADDR))
           (devM (WRITE8 (addr (dataBufInfo r)) PSEUDO_BAD_BLOCK_MARK)) ;;
         UpdatePhyBlockMapForGrownBadBlock (Pcw2VdieTranslation chNo wayNo) (block_of_row rowAddr) ;;
         finish_req chNo wayNo
     else if reqStatus =? REQ_STATUS_WARNING then
       rowAddr <- GenerateNandRowAddr reqSlotTag ;;
       UpdatePhyBlockMapForGrownBadBlock (Pcw2VdieTranslation chNo wayNo) (block_of_row rowAddr) ;;
       finish_req chNo wayNo
     else if reqStatus =? REQ_STATUS_RUNNING then skip
     else fail Assert).

(** ** One scheduling round *)

Definition way_fuel : nat := Datatypes.S (Z.to_nat USER_WAYS).

(** The head request of a way, after looking for released requests. *)
Definition next_request (chNo wayNo : Z) : M (RSt W) Z :=
  h <- !(rQueues.[nandReqQ chNo wayNo]∙headReq) ;;
  when (h =? REQ_SLOT_TAG_NONE) (ReleaseBlockedByRowAddrDepReq chNo wayNo) ;;
  !(rQueues.[nandReqQ chNo wayNo]∙headReq).

(** Idle ways with a request move to the list of its kind; the others are
    counted as waiting. *)
Definition schedule_idle (chNo : Z) : M (RSt W) Z :=
  head <- !(rWayPriority.[chNo]∙idleList∙headWay) ;;
  loop way_fuel (λ '(wayNo, waitWayCnt),
    if wayNo =? WAY_NONE then ret (inr waitWayCnt) else
    req <- next_request chNo wayNo ;;
    next <- !(rDieState.[chNo].[wayNo]∙nextWay) ;;
    if negb (req =? REQ_SLOT_TAG_NONE) then
      sM (SelectivGetFromNandIdleList chNo wayNo) ;;
      PutToNandWayPriorityTable req chNo wayNo ;;
      ret (inl (next, waitWayCnt))
    else ret (inl (next, waitWayCnt + 1))) (head, 0).

(** Ways whose request has a result go on to the next request. *)
Definition schedule_status_report (chNo waitWayCnt : Z) : M (RSt W) Z :=
  head <- !(rWayPriority.[chNo]∙statusReportList∙headWay) ;;
  if head =? WAY_NONE then ret waitWayCnt else
  dev <- !(chCtlReg.[chNo]) ;;
  readyBusy <- devM (V2FReadyBusyAsync dev) ;;
  loop way_fuel (λ '(wayNo, waitWayCnt),
    if wayNo =? WAY_NONE then ret (inr waitWayCnt) else
    if V2FWayReady readyBusy wayNo then
      reqStatus <- CheckReqStatus chNo wayNo ;;
      if negb (reqStatus =? REQ_STATUS_RUNNING) then
        ExecuteNandReq chNo wayNo reqStatus ;;
        next <- !(rDieState.[chNo].[wayNo]∙nextWay) ;;
        sM (SelectivGetFromNandStatusReportList chNo wayNo) ;;
        req <- next_request chNo wayNo ;;
        if negb (req =? REQ_SLOT_TAG_NONE) then
          PutToNandWayPriorityTable req chNo wayNo ;; ret (inl (next, waitWayCnt))
        else sM (PutToNandIdleList chNo wayNo) ;; ret (inl (next, waitWayCnt + 1))
      else
        opt <- !(rDieState.[chNo].[wayNo]∙reqStatusCheckOpt) ;;
        next <- !(rDieState.[chNo].[wayNo]∙nextWay) ;;
        if opt =? REQ_STATUS_CHECK_OPT_CHECK then
          sM (SelectivGetFromNandStatusReportList chNo wayNo) ;;
          sM (PutToNandStatusCheckList chNo wayNo) ;;
          ret (inl (next, waitWayCnt))
        else ret (inl (next, waitWayCnt + 1))
    else
      next <- !(rDieState.[chNo].[wayNo]∙nextWay) ;;
      ret (inl (next, waitWayCnt + 1))) (head, waitWayCnt).

(** [V2FIsControllerBusy(chCtlReg[chNo])] *)
Definition busy (chNo : Z) : M (RSt W) bool :=
  dev <- !(chCtlReg.[chNo]) ;; b <- devM (V2FIsControllerBusy dev) ;; ret (negb (b =? 0)).

(** Ask for a status report; [true] when the controller got busy. *)
Definition schedule_status_check (chNo : Z) : M (RSt W) bool :=
  head <- !(rWayPriority.[chNo]∙statusCheckList∙headWay) ;;
  if head =? WAY_NONE then ret false else
  dev <- !(chCtlReg.[chNo]) ;;
  readyBusy <- devM (V2FReadyBusyAsync dev) ;;
  loop way_fuel (λ wayNo,
    if wayNo =? WAY_NONE then ret (inr false) else
    b <- (if V2FWayReady readyBusy wayNo then
            CheckReqStatus chNo wayNo ;;
            sM (SelectiveGetFromNandStatusCheckList chNo wayNo) ;;
            sM (PutToNandStatusReportList chNo wayNo) ;;
            busy chNo
          else ret false) ;;
    if (b : bool) then ret (inr true) else
    next <- !(rDieState.[chNo].[wayNo]∙nextWay) ;; ret (inl next)) head.

(** Issue the requests of the ways on list [from], which then wait on list
    [to]; [true] when the controller got busy. *)
Definition schedule_issue (from to : way_list_id) (chNo : Z) : M (RSt W) bool :=
  head <- !(rWayPriority.[chNo]∙(way_list_of from)∙headWay) ;;
  loop way_fuel (λ wayNo,
    if wayNo =? WAY_NONE then ret (inr false) else
    ExecuteNandReq chNo wayNo REQ_STATUS_RUNNING ;;
    sM (way_get from chNo wayNo) ;;
    sM (way_put to chNo wayNo) ;;
    b <- busy chNo ;;
    if (b : bool) then ret (inr true) else
    next <- !(rDieState.[chNo].[wayNo]∙nextWay) ;; ret (inl next)) head.

Definition SchedulingNandReqPerCh (chNo : Z) : M (RSt W) unit :=
  waitWayCnt <- schedule_idle chNo ;;
  waitWayCnt <- schedule_status_report chNo waitWayCnt ;;
  if waitWayCnt =? USER_WAYS then skip else
  b <- busy chNo ;; if (b : bool) then skip else
  b <- schedule_status_check chNo ;; if (b : bool) then skip else
  b <- schedule_issue readTriggerL statusCheckL chNo ;; if (b : bool) then skip else
  b <- schedule_issue eraseL statusCheckL chNo ;; if (b : bool) then skip else
  b <- schedule_issue writeL statusCheckL chNo ;; if (b : bool) then skip else
  schedule_issue readTransferL statusReportL chNo ;; skip.

Definition SchedulingNandReq : M (RSt W) unit :=
  for_range 0 USER_CHANNELS SchedulingNandReqPerCh.

(** ** Waiting *)

Definition SyncAllLowLevelReqDone : M (RSt W) unit :=
  loop wait_fuel (λ _ : unit,
    h <- !(rQueues.[nvmeDmaReqQ]∙headReq) ;;
    n <- qM (!notCompletedNandReqCnt) ;;
    c <- qM (!blockedReqCnt) ;;
    if negb (h =? REQ_SLOT_TAG_NONE) || negb (n =? 0) || negb (c =? 0) then
      CheckDoneNvmeDmaReq ;; SchedulingNandReq ;; ret (inl tt)
    else ret (inr tt)) tt.

Definition SyncAvailFreeReq : M (RSt W) unit :=
  loop wait_fuel (λ _ : unit,
    h <- !(rQueues.[freeReqQ]∙headReq) ;;
    if h =? REQ_SLOT_TAG_NONE then
      CheckDoneNvmeDmaReq ;; CheckDoneCustomCmdDmaReq ;; SchedulingNandReq ;; ret (inl tt)
    else ret (inr tt)) tt.

Definition SyncReleaseEraseReq (chNo wayNo blockNo : Z) : M (RSt W) unit :=
  loop wait_fuel (λ _ : unit,
    f <- !(rowAddrDep.[(chNo, wayNo, blockNo)]∙blockedEraseReqFlag) ;;
    if negb (f =? 0) then
      CheckDoneNvmeDmaReq ;; CheckDoneCustomCmdDmaReq ;; SchedulingNandReq ;; ret (inl tt)
    else ret (inr tt)) tt.

Definition GetFromFreeReqQ : M (RSt W) Z :=
  h <- !(rQueues.[freeReqQ]∙headReq) ;;
  when (h =? REQ_SLOT_TAG_NONE) SyncAvailFreeReq ;;
  qM TakeFromFreeReqQ.

(** ** Choice of the queue of a request *)

Definition CheckRowAddrDep : Z → Z → M (RSt W) Z := CheckRowAddrDep_gen SyncReleaseEraseReq.

Definition UpdateRowAddrDepTableForBufBlockedReq (reqSlotTag : Z) : M (RSt W) Z :=
  '(chNo, wayNo, blockNo, pageNo) <- vsa_location reqSlotTag ;;
  let b := rowAddrDep.[(chNo, wayNo, blockNo)] in
  code <- !(rPool.[reqSlotTag]∙reqCode) ;;
  if code =? REQ_CODE_READ then
    f <- !(b∙blockedEraseReqFlag) ;;
    synced <- (if negb (f =? 0) then
        SyncReleaseEraseReq chNo wayNo blockNo ;;
        report <- CheckBufDep reqSlotTag ;;
        if report =? BUF_DEPENDENCY_REPORT_PASS then
          p <- !(b∙permittedProgPage) ;;
          (if pageNo <? p then qM (PutToNandReqQ reqSlotTag chNo wayNo)
           else incr (b∙blockedReadReqCnt) ;; qM (PutToBlockedByRowAddrDepReqQ reqSlotTag chNo wayNo)) ;;
          ret true
        else ret false
      else ret false) ;;
    if (synced : bool) then ret ROW_ADDR_DEPENDENCY_TABLE_UPDATE_REPORT_SYNC else
    incr (b∙blockedReadReqCnt) ;;
    ret ROW_ADDR_DEPENDENCY_TABLE_UPDATE_REPORT_DONE
  else
    when (code =? REQ_CODE_ERASE) (b∙blockedEraseReqFlag ::= 1) ;;
    ret ROW_ADDR_DEPENDENCY_TABLE_UPDATE_REPORT_DONE.

(** Channel and way of a NAND request. *)
Definition nand_location (r : SSD_REQ_FORMAT) : option (Z * Z) :=
  if nandAddr (reqOpt r) =? REQ_OPT_NAND_ADDR_VSA then
    let dieNo := Vsa2VdieTranslation (virtualSliceAddr (nandInfo r)) in
    Some (Vdie2PchTranslation dieNo, Vdie2PwayTranslation dieNo)
  else if nandAddr (reqOpt r) =? REQ_OPT_NAND_ADDR_PHY_ORG then
    Some (physicalCh (nandInfo r), physicalWay (nandInfo r))
  else None.

Definition SelectLowLevelReqQ (reqSlotTag : Z) : M (RSt W) unit :=
  report <- CheckBufDep reqSlotTag ;;
  r <- !(rPool.[reqSlotTag]) ;;
  if report =? BUF_DEPENDENCY_REPORT_PASS then
    if reqType r =? REQ_TYPE_NVME_DMA then issue_and_queue reqSlotTag
    else if reqType r =? REQ_TYPE_NAND then
      '(chNo, wayNo) <- asserted (nand_location r) ;;
      if rowAddrDependencyCheck (reqOpt r) =? REQ_OPT_ROW_ADDR_DEPENDENCY_CHECK then
        report <- CheckRowAddrDep reqSlotTag ROW_ADDR_DEPENDENCY_CHECK_OPT_SELECT ;;
        if report =? ROW_ADDR_DEPENDENCY_REPORT_PASS then qM (PutToNandReqQ reqSlotTag chNo wayNo)
        else if report =? ROW_ADDR_DEPENDENCY_REPORT_BLOCKED then
          qM (PutToBlockedByRowAddrDepReqQ reqSlotTag chNo wayNo)
        else fail Assert
      else if rowAddrDependencyCheck (reqOpt r) =? REQ_OPT_ROW_ADDR_DEPENDENCY_NONE then
        qM (PutToNandReqQ reqSlotTag chNo wayNo)
      else fail Assert
    else fail Assert
  else if report =? BUF_DEPENDENCY_REPORT_BLOCKED then
    report <- (if (reqType r =? REQ_TYPE_NAND)
                  && (rowAddrDependencyCheck (reqOpt r) =? REQ_OPT_ROW_ADDR_DEPENDENCY_CHECK)
               then UpdateRowAddrDepTableForBufBlockedReq reqSlotTag
               else ret ROW_ADDR_DEPENDENCY_TABLE_UPDATE_REPORT_DONE) ;;
    if report =? ROW_ADDR_DEPENDENCY_TABLE_UPDATE_REPORT_DONE then
      qM (PutToBlockedByBufDepReqQ reqSlotTag)
    else if report =? ROW_ADDR_DEPENDENCY_TABLE_UPDATE_REPORT_SYNC then skip
    else fail Assert
  else fail Assert.
End schedule.
