(* ===== verification/FlashOrder.v ===== *)
(** The order of flash operations.  A flash block must be programmed page by page
    in ascending order, read only where it is programmed, and it is empty again
    after an erase.  The row-address dependency table keeps the requests of each
    block in such an order on the queue of their way; this file states that as
    an invariant of the request layer and proves it for the dependency checks
    and the queue operations. *)
From stdpp Require Import functions.
From S2P Require Import Prelude Frame Dll Config MemMap ReqFormat ReqQueues DataBuffer State HostLld Nsc.
From S2P Require Import HostTime CustomIo LowLevel Schedule.

(** ** A flash block *)

Inductive flash_op :=
| Program (page : Z)
| ReadPage (page : Z)
| Erase.

(** [n]: the number of pages programmed since the last erase. *)
Definition flash_step (n : Z) (o : flash_op) : option Z :=
  match o with
  | Program page => if page =? n then Some (n + 1) else None
  | ReadPage page => if (0 <=? page) && (page <? n) then Some n else None
  | Erase => Some 0
  end.

(** [None]: the operations are not a legal sequence for the block. *)
Fixpoint flash_run (n : Z) (l : list flash_op) : option Z :=
  match l with
  | [] => Some n
  | o :: l => match flash_step n o with Some n' => flash_run n' l | None => None end
  end.

Lemma flash_run_snoc n l o m m' :
  flash_run n l = Some m → flash_step m o = Some m' → flash_run n (l ++ [o]) = Some m'.
Proof.
  revert n. induction l as [|o' l IH]; intros n; cbn.
  - intros [= ->] ->. done.
  - destruct (flash_step n o'); [apply IH|done].
Qed.

(** Channel, way and block. *)
Abbreviation location := (Z * Z * Z)%type.
Abbreviation dep_table := (gmap location ROW_ADDR_DEPENDENCY_ENTRY).

(** Sets of slots. *)
Abbreviation nobody := (λ _ : Z, False).
Abbreviation just tag := (λ t : Z, t = tag).

Section order.
Context `{ConfigOk} {W : Type} `{Device W} `{Fuel}.
Implicit Types (s : RSt W) (tag : Z) (r : SSD_REQ_FORMAT) (q : queue_id).

(** Channel, way and block of a virtual slice address. *)
Definition vsa_block (vsa : Z) : location :=
  (Vdie2PchTranslation (Vsa2VdieTranslation vsa), Vdie2PwayTranslation (Vsa2VdieTranslation vsa),
   Vsa2VblockTranslation vsa).

(** What a request does to its block. *)
Definition request_op r : option flash_op :=
  let page := Vsa2VpageTranslation (virtualSliceAddr (nandInfo r)) in
  if (reqCode r =? REQ_CODE_READ) || (reqCode r =? REQ_CODE_READ_TRANSFER) then Some (ReadPage page)
  else if reqCode r =? REQ_CODE_WRITE then Some (Program page)
  else if reqCode r =? REQ_CODE_ERASE then Some Erase
  else None.

(** The operation of a request under dependency control on block [loc]. *)
Definition op_at (loc : location) r : option flash_op :=
  if (nandAddr (reqOpt r) =? REQ_OPT_NAND_ADDR_VSA)
     && (rowAddrDependencyCheck (reqOpt r) =? REQ_OPT_ROW_ADDR_DEPENDENCY_CHECK)
     && bool_decide (vsa_block (virtualSliceAddr (nandInfo r)) = loc)
  then request_op r else None.

Definition ops (pool : gmap Z SSD_REQ_FORMAT) (l : list Z) (loc : location) : list flash_op :=
  omap (λ tag, pool !! tag ≫= op_at loc) l.

Definition nand_queue (loc : location) : queue_id := let '(c, w, _) := loc in nandReqQ c w.

(** The virtual address of the request is on way [w] of channel [c]. *)
Definition on_way (pool : gmap Z SSD_REQ_FORMAT) tag c w : Prop :=
  ∃ r, pool !! tag = Some r ∧ (vsa_block (virtualSliceAddr (nandInfo r))).1 = (c, w).

(** [Inv Q L s]: the queues hold the lists [Q]; [L] is, for every block, the
    operations dispatched so far, those still on the queue of the way last; and
    [L] is a legal sequence that leaves permittedProgPage pages programmed; a
    request that waits for its block waits on its own way. *)
Record Inv (Q : queue_id → list Z) (L : location → list flash_op) s : Prop := {
  inv_queues : QFull (r_q s) Q;
  inv_log loc : ∃ h, L loc = h ++ ops (q_reqPool (r_q s)) (Q (nand_queue loc)) loc;
  inv_legal loc e : r_rowAddrDep s !! loc = Some e → flash_run 0 (L loc) = Some (permittedProgPage e);
  inv_waiting c w tag : tag ∈ Q (blockedByRowAddrDepReqQ c w) → on_way (q_reqPool (r_q s)) tag c w;
}.

(** The members of a slot that decide its operation; its place in the queues. *)
Definition nand_core r := (reqType r, reqCode r, reqOpt r, nandInfo r).
Definition place r := (reqQueueType r, prevReq r, nextReq r).
Definition view r := (place r, nand_core r).

(** All the invariant depends on. *)
Definition flash_view s :=
  (r_rowAddrDep s, q_queues (r_q s),
   (q_notCompletedNandReqCnt (r_q s), q_notCompletedCustomCmdCnt (r_q s), q_blockedReqCnt (r_q s)),
   view <$> q_reqPool (r_q s)).

Lemma op_at_core loc r r' : nand_core r' = nand_core r → op_at loc r' = op_at loc r.
Proof. intros [= E1 E2 E3 E4]. unfold op_at, request_op. by rewrite E2, E3, E4. Qed.

Lemma ops_ext pool pool' l loc :
  (∀ t, t ∈ l → nand_core <$> pool' !! t = nand_core <$> pool !! t) → ops pool' l loc = ops pool l loc.
Proof.
  unfold ops. induction l as [|t l IH]; intros Hc; [done|]. cbn [omap list_omap].
  assert (pool' !! t ≫= op_at loc = pool !! t ≫= op_at loc) as ->.
  { specialize (Hc t ltac:(by left)). destruct (pool' !! t), (pool !! t); try done.
    apply op_at_core. by apply (inj Some) in Hc. }
  by rewrite IH by (intros; apply Hc; by right).
Qed.

Lemma ops_app pool l l' loc : ops pool (l ++ l') loc = ops pool l loc ++ ops pool l' loc.
Proof. apply omap_app. Qed.

Lemma on_way_core pool pool' tag c w :
  nand_core <$> pool' !! tag = nand_core <$> pool !! tag → on_way pool tag c w → on_way pool' tag c w.
Proof.
  intros E (r & Hr & Hw). rewrite Hr in E. destruct (pool' !! tag) as [r'|] eqn:Hr'; [|done].
  apply (inj Some) in E. injection E as _ _ _ E. exists r'. by rewrite E.
Qed.

(** The queue invariants look at the places only. *)
Lemma QInv_places (x x' : QSt) Q :
  q_queues x' = q_queues x → place <$> q_reqPool x' = place <$> q_reqPool x → QInv x Q → QInv x' Q.
Proof.
  intros Eq Ep [Hp Hv Hl Hd Ht].
  assert (Hpt : ∀ t r', q_reqPool x' !! t = Some r' →
    ∃ r, q_reqPool x !! t = Some r ∧ place r' = place r).
  { intros t r' Hr. apply (f_equal (.!! t)) in Ep. rewrite !lookup_fmap, Hr in Ep.
    destruct (q_reqPool x !! t) as [r|]; [|done]. cbn in Ep. exists r. split; [done|congruence]. }
  assert (Hpt' : ∀ t r, q_reqPool x !! t = Some r →
    ∃ r', q_reqPool x' !! t = Some r' ∧ place r' = place r).
  { intros t r Hr. apply (f_equal (.!! t)) in Ep. rewrite !lookup_fmap, Hr in Ep.
    destruct (q_reqPool x' !! t) as [r'|]; [|done]. cbn in Ep. exists r'. split; [done|congruence]. }
  split.
  - by eapply array_fmap_eq.
  - intros q. by rewrite Eq.
  - intros q c. rewrite Eq. intros Hc. destruct (Hl q c Hc) as [(? & ? & Hs & ? & ?) ?].
    split; [|done]. unfold dll. split_and!; try done. eapply lseg_map; [|done].
    intros t r _ Hr. destruct (Hpt' t r Hr) as (r' & ? & [= ? ? ?]). by exists r'.
  - intros q. rewrite Eq. apply Hd.
  - intros t r' Hr. destruct (Hpt t r' Hr) as (r & Hr0 & [= -> _ _]). by apply Ht.
Qed.

Lemma Inv_view Q L s s' : flash_view s' = flash_view s → Inv Q L s → Inv Q L s'.
Proof.
  intros [= Ed Eq En Ec Eb Ep] [[HI Hn Hb Hc] Hlog Hleg Hway].
  assert (Epl : place <$> q_reqPool (r_q s') = place <$> q_reqPool (r_q s)).
  { apply (f_equal (fmap fst)) in Ep. by rewrite <- !map_fmap_compose in Ep. }
  assert (Eco : nand_core <$> q_reqPool (r_q s') = nand_core <$> q_reqPool (r_q s)).
  { apply (f_equal (fmap snd)) in Ep. by rewrite <- !map_fmap_compose in Ep. }
  split.
  - split; [by eapply QInv_places|congruence..].
  - intros loc. destruct (Hlog loc) as [h ->]. exists h. f_equal. symmetry. apply ops_ext.
    intros t _. rewrite <- !lookup_fmap. by rewrite Eco.
  - intros loc e. rewrite Ed. apply Hleg.
  - intros c w t Ht. eapply on_way_core, Hway, Ht. rewrite <- !lookup_fmap. by rewrite Eco.
Qed.

(** ** Queue operations *)

Lemma req_core_nand r r' : req_core r' = req_core r → nand_core r' = nand_core r.
Proof. exact (f_equal nand_core (x:=req_core r') (y:=req_core r)). Qed.

Lemma same_core_lookup (x x' : QSt) t :
  same_core x x' → nand_core <$> q_reqPool x' !! t = nand_core <$> q_reqPool x !! t.
Proof.
  intros E. apply (f_equal (.!! t)) in E. rewrite !lookup_fmap in E.
  destruct (q_reqPool x' !! t), (q_reqPool x !! t); try done. cbn.
  f_equal. apply req_core_nand. by apply (inj Some) in E.
Qed.

Lemma ops_same_core x x' l loc :
  same_core x x' → ops (q_reqPool x') l loc = ops (q_reqPool x) l loc.
Proof. intros E. apply ops_ext. intros t _. by apply same_core_lookup. Qed.

(** The NAND queues stay. *)
Lemma Inv_move Q Q' L s x' :
  Inv Q L s → QFull x' Q' → same_core (r_q s) x' →
  (∀ loc, Q' (nand_queue loc) = Q (nand_queue loc)) →
  (∀ c w tag, tag ∈ Q' (blockedByRowAddrDepReqQ c w) →
     tag ∈ Q (blockedByRowAddrDepReqQ c w) ∨ on_way (q_reqPool (r_q s)) tag c w) →
  Inv Q' L (fset r_q x' s).
Proof.
  intros [HF Hlog Hleg Hway] HF' Hc HQ Hrow. split; [done| |done|].
  - intros loc. destruct (Hlog loc) as [h ->]. exists h. cbn. by rewrite HQ, (ops_same_core (r_q s) x').
  - intros c w t Ht. apply (on_way_core (q_reqPool (r_q s))); [by apply same_core_lookup|].
    destruct (Hrow c w t Ht); auto.
Qed.

(** The head of a NAND queue leaves: its operation is done. *)
Lemma Inv_take_nand Q L s x' c w tag l :
  Inv Q L s → QFull x' (<[nandReqQ c w := l]> Q) → same_core (r_q s) x' →
  Q (nandReqQ c w) = tag :: l → Inv (<[nandReqQ c w := l]> Q) L (fset r_q x' s).
Proof.
  intros [HF Hlog Hleg Hway] HF' Hc HQ. split; [done| |done|]; cycle 1.
  { intros c' w' t. rewrite fn_lookup_insert_ne by done. intros Ht.
    eapply on_way_core, Hway, Ht. by apply same_core_lookup. }
  intros loc. destruct (Hlog loc) as [h ->].
  destruct (decide (nandReqQ c w = nand_queue loc)) as [E|E].
  - exists (h ++ ops (q_reqPool (r_q s)) [tag] loc). cbn [r_q fset set_r_q].
    rewrite <- E, fn_lookup_insert, HQ, (ops_same_core (r_q s) x'), <- app_assoc, <- ops_app by done. done.
  - exists h. cbn [r_q fset set_r_q]. by rewrite fn_lookup_insert_ne, (ops_same_core (r_q s) x').
Qed.

(** A request enters a NAND queue: its operation is dispatched. *)
Definition dispatch (L : location → list flash_op) r c w (loc : location) : list flash_op :=
  L loc ++ (if decide (nand_queue loc = nandReqQ c w) then option_list (op_at loc r) else []).

Lemma Inv_put_nand Q L s x' c w tag r dep' :
  Inv Q L s → QFull x' (<[nandReqQ c w := Q (nandReqQ c w) ++ [tag]]> Q) → same_core (r_q s) x' →
  q_reqPool (r_q s) !! tag = Some r →
  (∀ loc e, dep' !! loc = Some e → flash_run 0 (dispatch L r c w loc) = Some (permittedProgPage e)) →
  Inv (<[nandReqQ c w := Q (nandReqQ c w) ++ [tag]]> Q) (dispatch L r c w)
    (fset r_q x' (fset r_rowAddrDep dep' s)).
Proof.
  intros [HF Hlog Hleg Hway] HF' Hc Hr Hdep. split; [done| |done|]; cycle 1.
  { intros c' w' t. rewrite fn_lookup_insert_ne by done. intros Ht.
    eapply on_way_core, Hway, Ht. by apply same_core_lookup. }
  intros loc. unfold dispatch. destruct (Hlog loc) as [h ->]. exists h. cbn [r_q fset set_r_q].
  rewrite (ops_same_core (r_q s) x') by done.
  destruct (decide (nand_queue loc = nandReqQ c w)) as [E|E].
  - rewrite E, fn_lookup_insert, ops_app, app_assoc. f_equal. cbn. rewrite Hr. cbn.
    by destruct (op_at loc r).
  - by rewrite fn_lookup_insert_ne, app_nil_r.
Qed.

(** Queue operations fail on a queue that does not exist. *)
Lemma q_link_invalid x Q q ty tag : QInv x Q → ¬ q_valid q → q_link q ty tag x = Err Bounds.
Proof.
  intros HI Hq. assert (q_queues x !! q = None) as E
    by (apply eq_None_not_Some; by rewrite (qi_valid _ _ HI)).
  unfold q_link, q_put_tail, q_relink, bind, load. cbn. by rewrite E.
Qed.

Lemma wlp_exec_enters o tag q x Q :
  enters o tag q → QFull x Q → held Q tag →
  wlp (exec o) (λ _ x', QFull x' (<[q := Q q ++ [tag]]> Q) ∧ same_core x x') x.
Proof.
  intros Ho HF Hh. destruct (decide (q_valid q)) as [Hv|Hv].
  - eapply wp_wlp, wp_mono; [by apply exec_enters|]. naive_solver.
  - assert (∀ ty, q_link q ty tag x = Err Bounds) as E by (intros; by eapply q_link_invalid, Hv; apply HF).
    unfold wlp. destruct Ho; cbn in Hv; try done; unfold exec, bind;
      unfold PutToBlockedByRowAddrDepReqQ, PutToNandReqQ, bind; by rewrite E.
Qed.

Lemma held_iff s Q L tag :
  Inv Q L s → (∃ r, q_reqPool (r_q s) !! tag = Some r ∧ reqQueueType r = REQ_QUEUE_TYPE_NONE) ↔ held Q tag.
Proof.
  intros [[HI _ _ _] _ _ _]. split; [|by apply held_lookup].
  intros (r & Hr & Ht). split; [by eapply array_range, Hr; apply HI|].
  destruct (qi_type _ _ HI tag r Hr) as [[_ Hn]|(q & _ & Hty & _)]; [done|].
  rewrite Ht in Hty. by destruct q.
Qed.

(** ** The dependency check *)

Implicit Types (dep : dep_table).

(** What a check reports and does to the entry of the request's block: a request
    that passes does a legal operation on the block, and the entry counts the
    pages after it; a blocked request changes no page count. *)
Definition verdict r dep dep' (report : Z) : Prop :=
  let loc := vsa_block (virtualSliceAddr (nandInfo r)) in
  ∃ e e', dep !! loc = Some e ∧ dep' = <[loc := e']> dep ∧
    (report = ROW_ADDR_DEPENDENCY_REPORT_PASS ∧
       (∃ o, request_op r = Some o ∧ flash_step (permittedProgPage e) o = Some (permittedProgPage e')) ∨
     report = ROW_ADDR_DEPENDENCY_REPORT_BLOCKED ∧ permittedProgPage e' = permittedProgPage e).

Lemma page_range vsa : 0 ≤ Vsa2VpageTranslation vsa < 256.
Proof.
  unfold Vsa2VpageTranslation. geometry. pose proof (Z.mod_pos_bound (vsa / USER_DIES) SLICES_PER_BLOCK). lia.
Qed.

Lemma read_verdict r dep e e' :
  dep !! vsa_block (virtualSliceAddr (nandInfo r)) = Some e → reqCode r = REQ_CODE_READ →
  Vsa2VpageTranslation (virtualSliceAddr (nandInfo r)) < permittedProgPage e →
  permittedProgPage e' = permittedProgPage e →
  verdict r dep (<[vsa_block (virtualSliceAddr (nandInfo r)) := e']> dep) ROW_ADDR_DEPENDENCY_REPORT_PASS.
Proof.
  intros He Hc Hp Ee. exists e, e'. split_and!; [done..|]. left. split; [done|].
  exists (ReadPage (Vsa2VpageTranslation (virtualSliceAddr (nandInfo r)))).
  split; [unfold request_op; by rewrite Hc|]. cbn.
  pose proof (page_range (virtualSliceAddr (nandInfo r))). rewrite Ee. case_Z; cbn; lia || done.
Qed.

Lemma blocked_verdict r dep e e' :
  dep !! vsa_block (virtualSliceAddr (nandInfo r)) = Some e → permittedProgPage e' = permittedProgPage e →
  verdict r dep (<[vsa_block (virtualSliceAddr (nandInfo r)) := e']> dep) ROW_ADDR_DEPENDENCY_REPORT_BLOCKED.
Proof. intros He Ee. exists e, e'. split_and!; [done..|]. by right. Qed.

Lemma blocked_verdict_same r dep e :
  dep !! vsa_block (virtualSliceAddr (nandInfo r)) = Some e →
  verdict r dep dep ROW_ADDR_DEPENDENCY_REPORT_BLOCKED.
Proof. intros He. exists e, e. split_and!; [done|by rewrite insert_id|]. by right. Qed.

Lemma program_verdict r dep e :
  dep !! vsa_block (virtualSliceAddr (nandInfo r)) = Some e → reqCode r = REQ_CODE_WRITE →
  Vsa2VpageTranslation (virtualSliceAddr (nandInfo r)) = permittedProgPage e →
  verdict r dep (<[vsa_block (virtualSliceAddr (nandInfo r))
    := fset permittedProgPage (permittedProgPage e + 1) e]> dep) ROW_ADDR_DEPENDENCY_REPORT_PASS.
Proof.
  intros He Hc Hp. eexists e, _. split_and!; [done..|]. left. split; [done|].
  exists (Program (Vsa2VpageTranslation (virtualSliceAddr (nandInfo r)))).
  split; [unfold request_op; by rewrite Hc|]. cbn.
  pose proof (page_range (virtualSliceAddr (nandInfo r))).
  rewrite Hp, Z.eqb_refl, wrap_small by lia. done.
Qed.

Lemma erase_verdict r dep e :
  dep !! vsa_block (virtualSliceAddr (nandInfo r)) = Some e → reqCode r = REQ_CODE_ERASE →
  verdict r dep (<[vsa_block (virtualSliceAddr (nandInfo r))
    := fset blockedEraseReqFlag 0 (fset permittedProgPage 0 e)]> dep) ROW_ADDR_DEPENDENCY_REPORT_PASS.
Proof.
  intros He Hc. eexists e, _. split_and!; [done..|]. left. split; [done|].
  exists Erase. split; [unfold request_op; by rewrite Hc|done].
Qed.

(** Loads and stores of the entry of block [loc]. *)
Lemma wlp_dep_load {T A} (f : ROW_ADDR_DEPENDENCY_ENTRY → T) `{!Field f} loc (k : T → M (RSt W) A) Φ s :
  (∀ e, r_rowAddrDep s !! loc = Some e → wlp (k (f e)) Φ s) →
  wlp (v <- !(rowAddrDep.[loc]∙f) ;; k v) Φ s.
Proof.
  intros HΦ. apply wlp_bind, wlp_load. cbn. intros v.
  destruct (r_rowAddrDep s !! loc) as [e|]; [|done]. intros [= <-]. by apply HΦ.
Qed.

Lemma wlp_dep_modify (f : ROW_ADDR_DEPENDENCY_ENTRY → Z) `{!Field f} loc g Φ s :
  (∀ e, r_rowAddrDep s !! loc = Some e →
     Φ tt (fset r_rowAddrDep (<[loc := fset f (g (f e)) e]> (r_rowAddrDep s)) s)) →
  wlp (modify (rowAddrDep.[loc]∙f) g) Φ s.
Proof.
  intros HΦ. apply wlp_modify. cbn. intros v.
  destruct (r_rowAddrDep s !! loc) as [e|]; [|done]. intros [= <-]. by apply HΦ.
Qed.

Lemma wlp_dep_store (f : ROW_ADDR_DEPENDENCY_ENTRY → Z) `{!Field f} loc v Φ s :
  (∀ e, r_rowAddrDep s !! loc = Some e →
     Φ tt (fset r_rowAddrDep (<[loc := fset f v e]> (r_rowAddrDep s)) s)) →
  wlp (rowAddrDep.[loc]∙f ::= v) Φ s.
Proof.
  intros HΦ. apply wlp_store. cbn. intros old.
  destruct (r_rowAddrDep s !! loc) as [e|]; [|done]. intros [= <-]. by apply HΦ.
Qed.

Lemma fset_dep_same s : fset r_rowAddrDep (r_rowAddrDep s) s = s.
Proof. by destruct s. Qed.

(** The requests the check treats: program, erase, and reads once no erase is
    awaited. *)
Lemma wlp_vsa_location {A} tag r (k : Z * Z * Z * Z → M (RSt W) A) Φ s :
  q_reqPool (r_q s) !! tag = Some r →
  (nandAddr (reqOpt r) = REQ_OPT_NAND_ADDR_VSA →
   let '(c, w, b) := vsa_block (virtualSliceAddr (nandInfo r)) in
   wlp (k (c, w, b, Vsa2VpageTranslation (virtualSliceAddr (nandInfo r)))) Φ s) →
  wlp (x <- vsa_location tag ;; k x) Φ s.
Proof.
  intros Hr HΦ. unfold vsa_location. apply wlp_bind, wlp_bind. eapply wp_wlp, wp_load; [done|].
  destruct (Z.eqb_spec (nandAddr (reqOpt r)) REQ_OPT_NAND_ADDR_VSA); [|done].
  apply wlp_ret. by apply HΦ.
Qed.

(** A read that is selected, after the wait. *)
Lemma wlp_select_read r Φ s :
  let loc := vsa_block (virtualSliceAddr (nandInfo r)) in
  reqCode r = REQ_CODE_READ →
  (∀ dep' report, verdict r (r_rowAddrDep s) dep' report → Φ report (fset r_rowAddrDep dep' s)) →
  wlp (p <- !(rowAddrDep.[loc]∙permittedProgPage) ;;
       if Vsa2VpageTranslation (virtualSliceAddr (nandInfo r)) <? p
       then ret ROW_ADDR_DEPENDENCY_REPORT_PASS else
       incr (rowAddrDep.[loc]∙blockedReadReqCnt) ;;
       ret ROW_ADDR_DEPENDENCY_REPORT_BLOCKED) Φ s.
Proof.
  intros loc Hc HΦ. apply wlp_dep_load. intros e He. destruct (Z.ltb_spec
    (Vsa2VpageTranslation (virtualSliceAddr (nandInfo r))) (permittedProgPage e)).
  - apply wlp_ret. rewrite <- (fset_dep_same s). apply HΦ.
    rewrite <- (insert_id (r_rowAddrDep s) loc e) at 2 by done. by eapply read_verdict.
  - apply wlp_bind, wlp_dep_modify. intros e1 He1. apply wlp_ret, HΦ. by eapply blocked_verdict.
Qed.

Lemma wlp_check sync tag opt r Φ s :
  q_reqPool (r_q s) !! tag = Some r →
  (nandAddr (reqOpt r) = REQ_OPT_NAND_ADDR_VSA → opt = ROW_ADDR_DEPENDENCY_CHECK_OPT_SELECT →
   reqCode r = REQ_CODE_READ →
   let '(c, w, b) := vsa_block (virtualSliceAddr (nandInfo r)) in
   wlp (sync c w b) (λ _ s1, ∀ dep' report, verdict r (r_rowAddrDep s1) dep' report →
     Φ report (fset r_rowAddrDep dep' s1)) s) →
  (nandAddr (reqOpt r) = REQ_OPT_NAND_ADDR_VSA → ∀ dep' report,
   verdict r (r_rowAddrDep s) dep' report → Φ report (fset r_rowAddrDep dep' s)) →
  wlp (CheckRowAddrDep_gen sync tag opt) Φ s.
Proof.
  intros Hr Hsync HΦ. unfold CheckRowAddrDep_gen. eapply wlp_vsa_location; [done|]. intros Ha.
  specialize (Hsync Ha). specialize (HΦ Ha).
  pose proof (read_verdict r) as Hread. pose proof (program_verdict r) as Hprog.
  pose proof (erase_verdict r) as Herase. pose proof (blocked_verdict r) as Hblock.
  pose proof (blocked_verdict_same r) as Hsame. pose proof (wlp_select_read r Φ) as Hsel.
  destruct (vsa_block (virtualSliceAddr (nandInfo r))) as [[c w] b].
  set (page := Vsa2VpageTranslation (virtualSliceAddr (nandInfo r))) in *.
  apply wlp_bind. eapply wp_wlp, wp_load; [cbn; by rewrite Hr|]. cbn [fmap option_fmap option_map].
  destruct (Z.eqb_spec (reqCode r) REQ_CODE_READ) as [Ec|_].
  { destruct (Z.eqb_spec opt ROW_ADDR_DEPENDENCY_CHECK_OPT_SELECT) as [Eo|_].
    - specialize (Hsync Eo Ec). apply wlp_dep_load. intros e0 _. apply wlp_bind.
      apply wlp_when; intros _; [|by eapply Hsel].
      eapply wlp_mono; [exact Hsync|]. intros [] s1 HΦ1. by eapply Hsel.
    - destruct (opt =? ROW_ADDR_DEPENDENCY_CHECK_OPT_RELEASE); [|done].
      apply wlp_dep_load. intros e He. destruct (Z.ltb_spec page (permittedProgPage e)).
      + apply wlp_bind, wlp_dep_modify. intros e1 He1. simplify_eq. apply wlp_ret, HΦ. by eapply Hread.
      + apply wlp_ret. rewrite <- (fset_dep_same s). apply HΦ. by eapply Hsame. }
  destruct (Z.eqb_spec (reqCode r) REQ_CODE_WRITE) as [Ec|_].
  { apply wlp_dep_load. intros e He. destruct (Z.eqb_spec page (permittedProgPage e)).
    - apply wlp_bind, wlp_dep_modify. intros e1 He1. simplify_eq. apply wlp_ret, HΦ. by apply Hprog.
    - apply wlp_ret. rewrite <- (fset_dep_same s). apply HΦ. by eapply Hsame. }
  destruct (Z.eqb_spec (reqCode r) REQ_CODE_ERASE) as [Ec|_]; [|done].
  apply wlp_dep_load. intros e He. apply wlp_bind. eapply wp_wlp, wp_load; [cbn; by rewrite Hr|].
  apply wlp_dep_load. intros e' He'. simplify_eq. destruct (_ && _).
  - apply wlp_bind, wlp_dep_store. intros e1 He1. apply wlp_bind, wlp_dep_store. intros e2 He2.
    cbn in He2. rewrite lookup_insert_eq in He2. simplify_eq. apply wlp_ret. cbn. rewrite insert_insert_eq.
    by apply HΦ, Herase.
  - destruct (_ =? _).
    + apply wlp_bind, wlp_dep_store. intros e1 He1. simplify_eq. apply wlp_ret, HΦ. by eapply Hblock.
    + destruct (_ =? _); [|done]. apply wlp_ret. rewrite <- (fset_dep_same s). apply HΦ. by eapply Hsame.
Qed.

(** ** Dispatch after a check *)

Lemma dispatch_passed Q L s r dep' :
  Inv Q L s → verdict r (r_rowAddrDep s) dep' ROW_ADDR_DEPENDENCY_REPORT_PASS →
  nandAddr (reqOpt r) = REQ_OPT_NAND_ADDR_VSA →
  rowAddrDependencyCheck (reqOpt r) = REQ_OPT_ROW_ADDR_DEPENDENCY_CHECK →
  let '(c, w, _) := vsa_block (virtualSliceAddr (nandInfo r)) in
  ∀ loc e, dep' !! loc = Some e → flash_run 0 (dispatch L r c w loc) = Some (permittedProgPage e).
Proof.
  intros HI (e & e' & He & -> & [(_ & o & Ho & Hstep)|[? _]]) Ha Hd; [|done].
  set (loc0 := vsa_block (virtualSliceAddr (nandInfo r))) in *.
  assert (Hop : ∀ loc, op_at loc r = if decide (loc0 = loc) then Some o else None).
  { intros loc. unfold op_at. rewrite Ha, Hd. fold loc0. cbn [Z.eqb Pos.eqb andb].
    case_bool_decide; by case_decide. }
  destruct loc0 as [[c w] b] eqn:Eloc. intros loc e1. unfold dispatch. rewrite Hop.
  destruct (decide ((c, w, b) = loc)) as [<-|Hne].
  - rewrite lookup_insert_eq. intros [= <-]. rewrite decide_True by done. cbn.
    eapply flash_run_snoc; [|done]. by eapply inv_legal.
  - rewrite lookup_insert_ne by done. intros He1.
    assert (∀ P (D : Decision P), (if D then option_list (None : option flash_op) else []) = []) as ->
      by (intros ? []; done). rewrite app_nil_r. by eapply inv_legal.
Qed.

(** A request without dependency control leaves no trace. *)
Lemma dispatch_uncontrolled L r c w loc :
  rowAddrDependencyCheck (reqOpt r) ≠ REQ_OPT_ROW_ADDR_DEPENDENCY_CHECK → dispatch L r c w loc = L loc.
Proof.
  intros Hd. unfold dispatch, op_at. destruct (Z.eqb_spec (rowAddrDependencyCheck (reqOpt r))
    REQ_OPT_ROW_ADDR_DEPENDENCY_CHECK); [done|]. rewrite andb_false_r. cbn.
  case_decide; by rewrite app_nil_r.
Qed.

Lemma Inv_blocked Q L s r dep' :
  Inv Q L s → verdict r (r_rowAddrDep s) dep' ROW_ADDR_DEPENDENCY_REPORT_BLOCKED →
  Inv Q L (fset r_rowAddrDep dep' s).
Proof.
  intros [HF Hlog Hleg Hway] (e & e' & He & -> & [[? _]|[_ Ee]]); [done|]. split; [done|done| |done].
  intros loc e1. cbn. rewrite lookup_insert. case_decide as Eloc.
  - intros [= <-]. rewrite Ee. apply Hleg. by rewrite <- Eloc.
  - apply Hleg.
Qed.

(** ** Evolution *)

Implicit Types (Q : queue_id → list Z) (L : location → list flash_op).

Definition grows (L L' : location → list flash_op) : Prop := ∀ loc, L loc `prefix_of` L' loc.

#[global] Instance grows_preorder : PreOrder grows.
Proof. split; [by intros L loc|]. intros L1 L2 L3 H12 H23 loc. by etrans; [apply H12|apply H23]. Qed.

Lemma dispatch_grows L r c w : grows L (dispatch L r c w).
Proof. intros loc. by eexists. Qed.

(** The slots that wait for no buffer, except those in [D], stay where they are. *)
Definition Calm (D : Z → Prop) Q s Q' (s' : RSt W) : Prop :=
  ∀ t, ¬ D t → t ∉ Q blockedByBufDepReqQ →
    (∀ q, t ∈ Q' q ↔ t ∈ Q q) ∧
    nand_core <$> q_reqPool (r_q s') !! t = nand_core <$> q_reqPool (r_q s) !! t.

(** The slots in no queue stay so. *)
Definition Quiet Q s Q' (s' : RSt W) : Prop :=
  ∀ t, held Q t → held Q' t ∧
    nand_core <$> q_reqPool (r_q s') !! t = nand_core <$> q_reqPool (r_q s) !! t.

Lemma Calm_trans D Q1 s1 Q2 s2 Q3 s3 :
  Calm D Q1 s1 Q2 s2 → Calm D Q2 s2 Q3 s3 → Calm D Q1 s1 Q3 s3.
Proof.
  intros H12 H23 t HD Ht. destruct (H12 t HD Ht) as [Hq Hc].
  destruct (H23 t HD) as [Hq' Hc']; [by rewrite Hq|]. split; [|congruence].
  intros q. by rewrite Hq', Hq.
Qed.

Lemma Calm_mono (D D' : Z → Prop) Q s Q' s' : (∀ t, D t → D' t) → Calm D Q s Q' s' → Calm D' Q s Q' s'.
Proof. intros HD Hc t Ht. apply Hc. naive_solver. Qed.

Lemma Calm_view D Q s s' : flash_view s' = flash_view s → Calm D Q s Q s'.
Proof.
  intros [= _ _ _ _ _ Ep] t _ _. split; [done|].
  apply (f_equal (fmap snd)) in Ep. rewrite <- !map_fmap_compose in Ep.
  rewrite <- !lookup_fmap. by apply (f_equal (.!! t)) in Ep.
Qed.

Lemma Calm_Quiet D Q s Q' s' : Calm D Q s Q' s' → (∀ t, D t → ¬ held Q t) → Quiet Q s Q' s'.
Proof.
  intros Hc HD t Ht. pose proof Ht as [Hr Hh].
  destruct (Hc t) as [Hq Hcore]; [intros Hd; by apply (HD t)|done|].
  split; [|done]. split; [done|]. intros q. by rewrite Hq.
Qed.

Lemma Quiet_refl Q s : Quiet Q s Q s.
Proof. by intros t Ht. Qed.

Lemma Quiet_trans Q1 s1 Q2 s2 Q3 s3 :
  Quiet Q1 s1 Q2 s2 → Quiet Q2 s2 Q3 s3 → Quiet Q1 s1 Q3 s3.
Proof. intros H12 H23 t Ht. destruct (H12 t Ht) as [Ht2 E]. destruct (H23 t Ht2) as [? E']. split; [done|congruence]. Qed.
End order.
