(* ===== verification/ReqInv.v ===== *)
(** Every operation of the request layer keeps the flash order (FlashOrder.v): the
    completions, the release of dependent requests, the scheduler, the waits and
    the choice of a queue. *)
From stdpp Require Import functions.
From S2P Require Import Prelude Frame Dll Config MemMap ReqFormat ReqQueues DataBuffer State HostLld Nsc.
From S2P Require Import HostTime CustomIo LowLevel Schedule FlashOrder.

Section req_inv.
Context `{ConfigOk} {W : Type} `{Device W} `{Fuel}.
Implicit Types (s : RSt W) (tag t : Z) (r : SSD_REQ_FORMAT) (q : queue_id).
Implicit Types (Q : queue_id → list Z) (L : location → list flash_op).

(** ** Operations that keep all the invariant depends on *)

Lemma lkeeps_slot {T} (f : SSD_REQ_FORMAT → T) `{!Field f} t :
  (∀ v r, view (fset f v r) = view r) → LKeeps (flash_view (W:=W)) (rPool.[t]∙f).
Proof.
  intros Hf v s. cbn. destruct (q_reqPool (r_q s) !! t) as [r|] eqn:Hr; [|done].
  unfold flash_view. cbn. f_equal. rewrite fmap_insert, Hf. apply insert_id. by rewrite lookup_fmap, Hr.
Qed.
#[local] Hint Extern 1 (LKeeps flash_view (dot (idx rPool _) _)) => apply lkeeps_slot; reflexivity : keeps.

Lemma keeps_q_load {T} (l : lval QSt T) : Keeps (flash_view (W:=W)) (qM (load l)).
Proof.
  intros s. apply wlp_zoom, wlp_load. intros v _. destruct s as [q ? ? ? ? ? ? ? ? ? ? ?]. by destruct q.
Qed.
#[local] Hint Resolve keeps_q_load : keeps.

Lemma keeps_IssueNvmeDmaReq tag : Keeps (flash_view (W:=W)) (IssueNvmeDmaReq tag).
Proof. keeps_deep. Qed.
Lemma keeps_clear_blocking_tail tag : Keeps (flash_view (W:=W)) (clear_blocking_tail tag).
Proof. keeps_deep. Qed.
Lemma keeps_NvmeDmaStart tag : Keeps (flash_view (W:=W)) (GetTimeHostReqNvmeDmaStart tag).
Proof. keeps_deep. Qed.
Lemma keeps_NvmeDmaEnd tag : Keeps (flash_view (W:=W)) (GetTimeHostReqNvmeDmaEnd tag).
Proof. keeps_deep. Qed.
Lemma keeps_NandReqStart tag tag' : Keeps (flash_view (W:=W)) (GetTimeBufferEvictNandReqStart tag tag').
Proof. keeps_deep. Qed.
Lemma keeps_NandReqEnd tag tag' : Keeps (flash_view (W:=W)) (GetTimeBufferEvictNandReqEnd tag tag').
Proof. keeps_deep. Qed.
Lemma keeps_CompleteRx tag : Keeps (flash_view (W:=W)) (CompleteRxforCustomIoCmd tag).
Proof. keeps_deep. Qed.
Lemma keeps_CompleteTx tag : Keeps (flash_view (W:=W)) (CompleteTxforCustomIoCmd tag).
Proof. keeps_deep. Qed.
Lemma keeps_CompleteNand tag : Keeps (flash_view (W:=W)) (CompleteNandReqforCustomIoCmd tag).
Proof. keeps_deep. Qed.
#[local] Hint Resolve keeps_IssueNvmeDmaReq keeps_clear_blocking_tail keeps_NvmeDmaStart
  keeps_NvmeDmaEnd keeps_NandReqStart keeps_NandReqEnd keeps_CompleteRx keeps_CompleteTx
  keeps_CompleteNand : keeps.

(** ** Queue operations *)

Lemma held_after x Q q l1 tag l2 :
  QInv x Q → Q q = l1 ++ tag :: l2 → held (<[q := l1 ++ l2]> Q) tag.
Proof.
  intros HI HQ. assert (Hin : tag ∈ Q q) by (rewrite HQ; set_solver).
  destruct (q_queues x !! q) as [c|] eqn:Hc; [|rewrite (qi_dead _ _ HI q Hc) in Hin; set_solver].
  destruct (qi_list _ _ HI q c Hc) as [Hd _].
  destruct (dll_lookup _ _ _ _ _ _ Hd Hin) as [r Hr].
  split; [by eapply array_range, Hr; apply HI|].
  destruct (qi_type _ _ HI tag r Hr) as [[_ Hn]|(q0 & _ & _ & Hu)]; [by destruct (Hn q)|].
  destruct Hd as (_ & _ & _ & Hnd & _). rewrite HQ in Hnd. apply NoDup_app in Hnd as (_ & Hn1 & Hn2).
  apply NoDup_cons in Hn2 as [Hn2 _]. intros q'.
  destruct (decide (q = q')) as [<-|Hne]; cycle 1.
  { rewrite fn_lookup_insert_ne by done. intros Hin'. apply Hne. by rewrite (Hu q Hin), (Hu q' Hin'). }
  rewrite fn_lookup_insert.
   rewrite elem_of_app. intros [Hx|Hx]; [|done]. by apply (Hn1 tag Hx); left.
Qed.

(** A request that is in no queue enters queue [q], not a NAND queue. *)
Lemma wlp_put m o tag q Q L s (Φ : unit → RSt W → Prop) :
  exec o = (m ;; ret 0) → enters o tag q → (∀ c w, nandReqQ c w ≠ q) →
  (∀ c w, blockedByRowAddrDepReqQ c w = q → on_way (q_reqPool (r_q s)) tag c w) →
  Inv Q L s → held Q tag →
  (∀ x, Inv (<[q := Q q ++ [tag]]> Q) L (fset r_q x s) → same_core (r_q s) x → Φ tt (fset r_q x s)) →
  wlp (qM m) Φ s.
Proof.
  intros Em Ho Hq Hrow HI Hh HΦ. apply wlp_zoom.
  pose proof (wlp_exec_enters o tag q (r_q s) Q Ho (inv_queues _ _ _ HI) Hh) as Hw.
  rewrite Em in Hw. unfold wlp, bind in *. destruct (m (r_q s)) as [[] x|]; [|done].
  destruct Hw as [HF Hc]. apply HΦ; [|done]. eapply Inv_move; [done..| |].
  - intros [[c w] b]. cbn. by rewrite fn_lookup_insert_ne.
  - intros c w t. destruct (decide (q = blockedByRowAddrDepReqQ c w)) as [->|];
      [|rewrite fn_lookup_insert_ne by done; by left].
    rewrite fn_lookup_insert, elem_of_app, list_elem_of_singleton. intros [?| ->]; auto.
Qed.

(** The same for a NAND queue, with the table the check left. *)
Lemma wlp_put_nand tag c w r dep' Q L s (Φ : unit → RSt W → Prop) :
  Inv Q L s → held Q tag → q_reqPool (r_q s) !! tag = Some r →
  (∀ loc e, dep' !! loc = Some e → flash_run 0 (dispatch L r c w loc) = Some (permittedProgPage e)) →
  (∀ x, Inv (<[nandReqQ c w := Q (nandReqQ c w) ++ [tag]]> Q) (dispatch L r c w)
          (fset r_q x (fset r_rowAddrDep dep' s)) →
     same_core (r_q s) x → Φ tt (fset r_q x (fset r_rowAddrDep dep' s))) →
  wlp (qM (PutToNandReqQ tag c w)) Φ (fset r_rowAddrDep dep' s).
Proof.
  intros HI Hh Hr Hdep HΦ. apply wlp_zoom.
  pose proof (wlp_exec_enters (OpPutToNand tag c w) tag _ (r_q s) Q ltac:(constructor)
    (inv_queues _ _ _ HI) Hh) as Hw. cbn [exec] in Hw.
  change (r_q (fset r_rowAddrDep dep' s)) with (r_q s). unfold wlp, bind in *.
  destruct (PutToNandReqQ tag c w (r_q s)) as [[] x|]; [|done].
  destruct Hw as [HF Hc]. apply HΦ; [|done]. by eapply Inv_put_nand.
Qed.

(** A request leaves queue [q], not a NAND queue; the table may be ahead. *)
Lemma wlp_get_dep m o tag q dep' Q L s (Φ : unit → RSt W → Prop) :
  exec o = (m ;; ret 0) → leaves o tag q → (∀ c w, nandReqQ c w ≠ q) →
  Inv Q L s → tag ∈ Q q →
  (∀ x l1 l2, Q q = l1 ++ tag :: l2 → held (<[q := l1 ++ l2]> Q) tag →
     Inv (<[q := l1 ++ l2]> Q) L (fset r_q x s) → same_core (r_q s) x →
     Φ tt (fset r_rowAddrDep dep' (fset r_q x s))) →
  wlp (qM m) Φ (fset r_rowAddrDep dep' s).
Proof.
  intros Em Ho Hq HI Hin HΦ. apply wlp_zoom. change (r_q (fset r_rowAddrDep dep' s)) with (r_q s).
  apply list_elem_of_split in Hin as (l1 & l2 & HQ).
  pose proof (wp_wlp _ _ _ (exec_leaves o tag q (r_q s) Q l1 l2 Ho (inv_queues _ _ _ HI) HQ)) as Hw.
  rewrite Em in Hw. unfold wlp, bind in *. destruct (m (r_q s)) as [[] x|]; [|done].
  destruct Hw as (_ & HF & Hc). apply (HΦ _ l1 l2); try done.
  - eapply held_after, HQ. apply HI.
  - eapply Inv_move; [done..| |]; [intros [[c w] b]; cbn; by rewrite fn_lookup_insert_ne|].
    intros c w t. destruct (decide (q = blockedByRowAddrDepReqQ c w)) as [->|];
      [|rewrite fn_lookup_insert_ne by done; by left].
    rewrite fn_lookup_insert, HQ. set_solver.
Qed.

Lemma wlp_get m o tag q Q L s (Φ : unit → RSt W → Prop) :
  exec o = (m ;; ret 0) → leaves o tag q → (∀ c w, nandReqQ c w ≠ q) →
  Inv Q L s → tag ∈ Q q →
  (∀ x l1 l2, Q q = l1 ++ tag :: l2 → held (<[q := l1 ++ l2]> Q) tag →
     Inv (<[q := l1 ++ l2]> Q) L (fset r_q x s) → same_core (r_q s) x → Φ tt (fset r_q x s)) →
  wlp (qM m) Φ s.
Proof.
  intros Em Ho Hq HI Hin HΦ. pose proof (wlp_get_dep m o tag q (r_rowAddrDep s) Q L s) as Hget.
  rewrite fset_dep_same in Hget. eapply Hget; eauto.
Qed.

(** The request at the head of a NAND queue leaves it. *)
Lemma wlp_take_nand c w Q L s (Φ : Z → RSt W → Prop) :
  Inv Q L s →
  (∀ x tag l, Q (nandReqQ c w) = tag :: l → held (<[nandReqQ c w := l]> Q) tag →
     Inv (<[nandReqQ c w := l]> Q) L (fset r_q x s) → same_core (r_q s) x → Φ tag (fset r_q x s)) →
  wlp (qM (TakeFromNandReqQ c w)) Φ s.
Proof.
  intros HI HΦ. apply wlp_zoom. destruct (Q (nandReqQ c w)) as [|tag l] eqn:HQ.
  - unfold TakeFromNandReqQ. apply wlp_bind, wlp_load. cbn. intros v Hv.
    destruct (q_queues (r_q s) !! nandReqQ c w) as [k|] eqn:Hk; [|done]. cbn in Hv.
    assert (v = REQ_SLOT_TAG_NONE) as ->.
    { destruct (qi_list _ _ (qf_inv _ _ (inv_queues _ _ _ HI)) _ _ Hk) as [(Hh & _) _].
      rewrite HQ in Hh. cbn in Hh. congruence. }
    apply wlp_bind. by apply wlp_when.
  - pose proof (wp_wlp _ _ _ (exec_takes (OpGetFromNand c w) (nandReqQ c w) (r_q s) Q tag l
      ltac:(constructor) (inv_queues _ _ _ HI) HQ)) as Hw. cbn [exec] in Hw.
    eapply wlp_mono; [exact Hw|]. intros ? x (-> & HF & Hc). eapply HΦ; try done.
    + eapply (held_after _ Q _ [] tag l), HQ. apply HI.
    + by eapply Inv_take_nand.
Qed.

(** The request at the head of another queue leaves it. *)
Lemma wlp_take m o q Q L s (Φ : Z → RSt W → Prop) :
  exec o = m → takes o q → (∀ c w, nandReqQ c w ≠ q) → Inv Q L s → Q q ≠ [] →
  (∀ x tag l, Q q = tag :: l → held (<[q := l]> Q) tag →
     Inv (<[q := l]> Q) L (fset r_q x s) → same_core (r_q s) x → Φ tag (fset r_q x s)) →
  wlp (qM m) Φ s.
Proof.
  intros <- Ho Hq HI Hne HΦ. apply wlp_zoom. destruct (Q q) as [|tag l] eqn:HQ; [done|].
  pose proof (wp_wlp _ _ _ (exec_takes o q (r_q s) Q tag l Ho (inv_queues _ _ _ HI) HQ)) as Hw.
  eapply wlp_mono; [exact Hw|]. intros ? x (-> & HF & Hc). eapply HΦ; try done.
  - eapply (held_after _ Q _ [] tag l), HQ. apply HI.
  - eapply Inv_move; [done..| |]; [intros [[c w] b]; cbn; by rewrite fn_lookup_insert_ne|].
    intros c w t. destruct (decide (q = blockedByRowAddrDepReqQ c w)) as [->|];
      [|rewrite fn_lookup_insert_ne by done; by left].
    rewrite fn_lookup_insert, HQ. intros Ht. left. by right.
Qed.

(** ** What these operations leave in place *)

Lemma Calm_enter q tag Q s x :
  same_core (r_q s) x → Calm (just tag) Q s (<[q := Q q ++ [tag]]> Q) (fset r_q x s).
Proof.
  intros Hc t Ht _. split; [|by apply same_core_lookup].
  intros q'. destruct (decide (q = q')) as [<-|]; [|by rewrite fn_lookup_insert_ne].
  rewrite fn_lookup_insert, elem_of_app, list_elem_of_singleton. naive_solver.
Qed.

Lemma Calm_leave q l1 tag l2 Q s x :
  Q q = l1 ++ tag :: l2 → same_core (r_q s) x →
  Calm (just tag) Q s (<[q := l1 ++ l2]> Q) (fset r_q x s).
Proof.
  intros HQ Hc t Ht _. split; [|by apply same_core_lookup].
  intros q'. destruct (decide (q = q')) as [<-|]; [|by rewrite fn_lookup_insert_ne].
  rewrite fn_lookup_insert, HQ, !elem_of_app, elem_of_cons. naive_solver.
Qed.

(** ** Release of a buffer *)

Definition Evolves (D : Z → Prop) Q L s s' : Prop :=
  ∃ Q' L', Inv Q' L' s' ∧ grows L L' ∧ Calm D Q s Q' s'.

Lemma Evolves_view D Q L s s' : Inv Q L s → flash_view s' = flash_view s → Evolves D Q L s s'.
Proof.
  intros HI E. exists Q, L. split_and!; [by eapply Inv_view|done|by apply Calm_view].
Qed.

Lemma Evolves_trans D Q L s s1 s2 :
  Evolves D Q L s s1 → (∀ Q1 L1, Inv Q1 L1 s1 → Calm D Q s Q1 s1 → Evolves D Q1 L1 s1 s2) →
  Evolves D Q L s s2.
Proof.
  intros (Q1 & L1 & HI1 & HL1 & HC1) Hs2. destruct (Hs2 Q1 L1 HI1 HC1) as (Q2 & L2 & HI2 & HL2 & HC2).
  exists Q2, L2. split_and!; [done|by etrans|by eapply Calm_trans].
Qed.

(** The evolution from an earlier state with the same view. *)
Lemma Evolves_from D Q L s s1 s2 :
  flash_view s1 = flash_view s → Evolves D Q L s1 s2 → Evolves D Q L s s2.
Proof.
  intros E (Q2 & L2 & HI2 & HL2 & HC2). exists Q2, L2. split_and!; [done|done|].
  eapply Calm_trans, HC2. by apply Calm_view.
Qed.

Lemma Evolves_enter q tag Q L s x :
  Inv (<[q := Q q ++ [tag]]> Q) L (fset r_q x s) → same_core (r_q s) x →
  Evolves (just tag) Q L s (fset r_q x s).
Proof. intros HI Hc. eexists _, _. split_and!; [done|done|by apply Calm_enter]. Qed.

Lemma queue_dma_evolves tag Q L s :
  Inv Q L s → held Q tag →
  wlp (PutToNvmeDmaReqQ tag) (λ _ s', Evolves (just tag) Q L s s') s.
Proof.
  intros HI Hh. apply wlp_bind.
  eapply (wlp_put _ (OpPutToNvmeDma tag)); [done|constructor|done|done|done|done|].
  intros x HI' Hc. eapply wlp_mono; [apply (keeps_bind flash_view); keeps|]. intros [] s' E.
  eapply Evolves_trans; [by eapply Evolves_enter|]. intros. by apply Evolves_view.
Qed.

Lemma queue_custom_evolves tag Q L s :
  Inv Q L s → held Q tag →
  wlp (PutToCustomCmdReqQ tag) (λ _ s', Evolves (just tag) Q L s s') s.
Proof.
  intros HI Hh. apply wlp_bind.
  eapply (wlp_put _ (OpPutToCustomCmd tag)); [done|constructor|done|done|done|done|].
  intros x HI' Hc. eapply wlp_mono; [apply (keeps_bind flash_view); keeps|]. intros [] s' E.
  eapply Evolves_trans; [by eapply Evolves_enter|]. intros. by apply Evolves_view.
Qed.

Lemma issue_and_queue_evolves tag Q L s :
  Inv Q L s → held Q tag → wlp (issue_and_queue tag) (λ _ s', Evolves (just tag) Q L s s') s.
Proof.
  intros HI Hh. apply (wlp_keeping flash_view); [keeps|]. intros [] s1 E1. apply (wlp_keeping flash_view); [keeps|]. intros c s2 E2.
  assert (HI2 : Inv Q L s2) by (eapply Inv_view, HI; congruence).
  assert (E : flash_view s2 = flash_view s) by congruence.
  destruct (_ =? _); (eapply wlp_mono; [by (apply queue_custom_evolves || apply queue_dma_evolves)|]);
    intros [] s3; by apply Evolves_from.
Qed.

(** A request that passed its check goes to the queue of its way. *)
Lemma put_passed_evolves tag r dep' Q L s :
  Inv Q L s → held Q tag → q_reqPool (r_q s) !! tag = Some r →
  verdict r (r_rowAddrDep s) dep' ROW_ADDR_DEPENDENCY_REPORT_PASS →
  nandAddr (reqOpt r) = REQ_OPT_NAND_ADDR_VSA →
  rowAddrDependencyCheck (reqOpt r) = REQ_OPT_ROW_ADDR_DEPENDENCY_CHECK →
  let '(c, w, _) := vsa_block (virtualSliceAddr (nandInfo r)) in
  wlp (qM (PutToNandReqQ tag c w)) (λ _ s', Evolves (just tag) Q L s s') (fset r_rowAddrDep dep' s).
Proof.
  intros HI Hh Hr Hv Ha Hd. pose proof (dispatch_passed Q L s r dep' HI Hv Ha Hd) as Hleg.
  destruct (vsa_block _) as [[c w] b]. eapply wlp_put_nand; [done..|].
  intros x HI' Hc. eexists _, _. split_and!; [done|apply dispatch_grows|]. exact (Calm_enter (nandReqQ c w) tag Q s x Hc).
Qed.

(** A blocked request waits on the queue of its way. *)
Lemma put_blocked_evolves tag r c w dep' Q L s :
  Inv Q L s → held Q tag → q_reqPool (r_q s) !! tag = Some r →
  (vsa_block (virtualSliceAddr (nandInfo r))).1 = (c, w) →
  verdict r (r_rowAddrDep s) dep' ROW_ADDR_DEPENDENCY_REPORT_BLOCKED →
  wlp (qM (PutToBlockedByRowAddrDepReqQ tag c w)) (λ _ s', Evolves (just tag) Q L s s')
    (fset r_rowAddrDep dep' s).
Proof.
  intros HI Hh Hr Hw Hv.
  eapply (wlp_put _ (OpPutToBlockedByRowAddrDep tag c w)); [done|constructor|done| | |done|].
  - intros ? ? [= -> ->]. by exists r.
  - by eapply Inv_blocked.
  - intros x HI' Hc. eexists _, _. split_and!; [done|done|]. exact (Calm_enter (blockedByRowAddrDepReqQ c w) tag Q s x Hc).
Qed.

(** A request without dependency control goes to its way at once. *)
Lemma put_uncontrolled_evolves tag r c w Q L s :
  Inv Q L s → held Q tag → q_reqPool (r_q s) !! tag = Some r →
  rowAddrDependencyCheck (reqOpt r) ≠ REQ_OPT_ROW_ADDR_DEPENDENCY_CHECK →
  wlp (qM (PutToNandReqQ tag c w)) (λ _ s', Evolves (just tag) Q L s s') s.
Proof.
  intros HI Hh Hr Hd.
  pose proof (wlp_put_nand tag c w r (r_rowAddrDep s) Q L s) as Hput. rewrite fset_dep_same in Hput.
  eapply Hput; [done..| |].
  - intros loc e. rewrite dispatch_uncontrolled by done. by eapply inv_legal.
  - intros x HI' Hc. eexists _, _. split_and!; [done|apply dispatch_grows|]. exact (Calm_enter (nandReqQ c w) tag Q s x Hc).
Qed.

(** The choice between the two queues of a way, for a request in no queue. *)
Lemma queue_by_report_evolves tag r dep' report Q L s :
  Inv Q L s → held Q tag → q_reqPool (r_q s) !! tag = Some r →
  verdict r (r_rowAddrDep s) dep' report → nandAddr (reqOpt r) = REQ_OPT_NAND_ADDR_VSA →
  rowAddrDependencyCheck (reqOpt r) = REQ_OPT_ROW_ADDR_DEPENDENCY_CHECK →
  let '(c, w, _) := vsa_block (virtualSliceAddr (nandInfo r)) in
  wlp (if report =? ROW_ADDR_DEPENDENCY_REPORT_PASS then qM (PutToNandReqQ tag c w)
       else if report =? ROW_ADDR_DEPENDENCY_REPORT_BLOCKED then
         qM (PutToBlockedByRowAddrDepReqQ tag c w)
       else fail Assert) (λ _ s', Evolves (just tag) Q L s s') (fset r_rowAddrDep dep' s).
Proof.
  intros HI Hh Hr Hv Ha Hd. pose proof (put_passed_evolves tag r dep' Q L s HI Hh Hr) as Hp.
  destruct (vsa_block (virtualSliceAddr (nandInfo r))) as [[c w] b] eqn:E.
  destruct (Z.eqb_spec report ROW_ADDR_DEPENDENCY_REPORT_PASS) as [-> |]; [by apply Hp|].
  destruct (Z.eqb_spec report ROW_ADDR_DEPENDENCY_REPORT_BLOCKED) as [-> |]; [|done].
  eapply put_blocked_evolves; [done|done|done|by rewrite E|done].
Qed.

Lemma Evolves_released tag Q L s s' :
  tag ∈ Q blockedByBufDepReqQ → Evolves (just tag) Q L s s' → Evolves nobody Q L s s'.
Proof.
  intros Hin (Q' & L' & HI & HL & HC). exists Q', L'. split_and!; [done|done|].
  intros t _ Ht. apply HC; [|done]. intros ->. done.
Qed.

Lemma release_target_evolves tag Q L s :
  Inv Q L s → tag ∈ Q blockedByBufDepReqQ →
  wlp (release_target tag) (λ _ s', Evolves nobody Q L s s') s.
Proof.
  intros HI Hin. apply wlp_bind.
  eapply (wlp_get _ (OpGetFromBlockedByBufDep tag)); [done|constructor|done|done|done|].
  intros x l1 l2 HQ Hh HI1 Hc. set (Q1 := <[blockedByBufDepReqQ := l1 ++ l2]> Q) in *.
  set (s1 := fset r_q x s) in *.
  assert (HE1 : Evolves (just tag) Q L s s1)
    by (eexists _, _; split_and!; [done|done|by apply Calm_leave]).
  assert (Hfin : ∀ s', Evolves (just tag) Q1 L s1 s' → Evolves nobody Q L s s').
  { intros s' (Q' & L' & ? & ? & ?). eapply Evolves_released; [done|]. exists Q', L'. split_and!; [done..|].
    eapply Calm_trans; [|done]. by apply Calm_leave. }
  apply wlp_bind, wlp_load. intros r Hr. cbn in Hr.
  destruct (reqType r =? REQ_TYPE_NVME_DMA).
  { eapply wlp_mono; [by apply issue_and_queue_evolves|]. auto. }
  apply wlp_when; intros _; [|by eapply Evolves_released].
  eapply wlp_vsa_location; [done|]. intros Ha.
  pose proof (λ dep' report, queue_by_report_evolves tag r dep' report Q1 L s1 HI1 Hh Hr) as Hq.
  destruct (vsa_block (virtualSliceAddr (nandInfo r))) as [[c w] b].
  destruct (Z.eqb_spec (rowAddrDependencyCheck (reqOpt r)) REQ_OPT_ROW_ADDR_DEPENDENCY_CHECK) as [Ed|Ed].
  - apply wlp_bind. eapply (wlp_check _ _ _ r); [done|done|]. intros _ dep' report Hv.
    eapply wlp_mono; [by apply Hq|]. auto.
  - destruct (_ =? _); [|done]. eapply wlp_mono; [by eapply put_uncontrolled_evolves|]. auto.
Qed.

Lemma queued_type Q L s tag q r :
  Inv Q L s → q_reqPool (r_q s) !! tag = Some r → reqQueueType r = q_type q →
  (∀ q', q_type q' = q_type q → q' = q) → tag ∈ Q q.
Proof.
  intros [[HI _ _ _] _ _ _] Hr Ht Hu. destruct (qi_type _ _ HI tag r Hr) as [[Hn _]|(q' & Hin & Ht' & _)].
  - rewrite Hn in Ht. by destruct q.
  - rewrite <- (Hu q'); [done|congruence].
Qed.

Lemma release_buf_evolves tag Q L s :
  Inv Q L s → wlp (ReleaseBlockedByBufDepReq tag) (λ _ s', Evolves nobody Q L s s') s.
Proof.
  intros HI. unfold ReleaseBlockedByBufDepReq.
  apply (wlp_keeping flash_view); [keeps|]. intros target s1 E1. apply (wlp_keeping flash_view); [keeps|]. intros [] s2 E2.
  apply (wlp_keeping flash_view); [keeps|]. intros [] s3 E3.
  assert (E : flash_view s3 = flash_view s) by congruence.
  assert (HI3 : Inv Q L s3) by (by eapply Inv_view).
  apply wlp_when; intros _; [|by apply Evolves_view].
  apply wlp_bind, wlp_load. cbn. intros ty Hty.
  destruct (q_reqPool (r_q s3) !! target) as [r|] eqn:Hr; [|done]. injection Hty as <-.
  apply wlp_when; [|intros _; by apply Evolves_view]. intros Ht%Z.eqb_eq.
  eapply wlp_mono; [eapply release_target_evolves; [done|]|].
  - eapply queued_type; [done|done|done|]. by intros [].
  - intros [] s'. by apply Evolves_from.
Qed.

(** ** Completions *)

Lemma Evolves_mono (D D' : Z → Prop) Q L s s' :
  (∀ t, D t → D' t) → Evolves D Q L s s' → Evolves D' Q L s s'.
Proof. intros HD (Q' & L' & ? & ? & ?). exists Q', L'. split_and!; [done..|]. by eapply Calm_mono. Qed.

(** The evolution from a state that was reached calmly. *)
Lemma Evolves_seq (D : Z → Prop) Q L s Q1 L1 s1 s2 :
  grows L L1 → Calm D Q s Q1 s1 → Evolves D Q1 L1 s1 s2 → Evolves D Q L s s2.
Proof.
  intros HL1 HC1 (Q2 & L2 & HI2 & HL2 & HC2). exists Q2, L2.
  split_and!; [done|by etrans|by eapply Calm_trans].
Qed.

(** A request that left its queue is freed and releases its buffer. *)
Lemma free_and_release_evolves tag Q L s :
  Inv Q L s → held Q tag →
  wlp (qM (PutToFreeReqQ tag) ;; ReleaseBlockedByBufDepReq tag) (λ _ s', Evolves (just tag) Q L s s') s.
Proof.
  intros HI Hh. apply wlp_bind. eapply (wlp_put _ (OpPutToFree tag)); [done|constructor|done|done|done|done|].
  intros x HI1 Hc. eapply wlp_mono; [by apply release_buf_evolves|]. intros [] s' HE.
  eapply Evolves_seq; [done|by apply (Calm_enter freeReqQ)|]. by eapply Evolves_mono, HE.
Qed.

Lemma complete_dma_evolves tag Q L s :
  Inv Q L s → tag ∈ Q nvmeDmaReqQ →
  wlp (SelectiveGetFromNvmeDmaReqQ tag) (λ _ s', Evolves (just tag) Q L s s') s.
Proof.
  intros HI Hin. apply wlp_bind.
  eapply (wlp_get _ (OpGetFromNvmeDma tag)); [done|constructor|done|done|done|].
  intros x l1 l2 HQ Hh HI1 Hc.
  apply (wlp_keeping flash_view); [keeps|]. intros cmd s2 E2. apply (wlp_keeping flash_view); [keeps|]. intros [] s3 E3.
  eapply wlp_mono; [apply free_and_release_evolves; [eapply Inv_view, HI1; congruence|done]|].
  intros [] s' HE. eapply Evolves_seq; [done|by eapply Calm_leave|].
  eapply Evolves_from, HE. congruence.
Qed.

(** The custom queue is unlinked first; its type and counters follow after the
    completion, which looks at neither. *)
Lemma complete_custom_evolves tag Q L s :
  Inv Q L s → tag ∈ Q customCmdQ →
  wlp (SelectiveGetFromCustomCmdReqQ tag) (λ _ s', Evolves (just tag) Q L s s') s.
Proof.
  intros HI Hin. pose proof Hin as (l1 & l2 & HQ)%list_elem_of_split.
  pose proof (exec_leaves (OpGetFromCustomCmd tag) tag customCmdQ (r_q s) Q l1 l2
    ltac:(constructor) (inv_queues _ _ _ HI) HQ) as Hw.
  apply wp_bind_inv in Hw. unfold SelectiveGetFromCustomCmdReqQ.
  apply wlp_bind, wlp_zoom, wp_wlp. eapply wp_mono; [exact Hw|]. clear Hw. intros [] x1 Hw%wp_bind_inv.
  set (kept := λ s : RSt W, (r_q s, r_rowAddrDep s)).
  apply (wlp_keeping kept); [keeps_deep|]. intros code s1 E1.
  apply (wlp_keeping kept); [keeps_deep|]. intros cmd s2 E2.
  apply (wlp_keeping kept); [keeps_deep|]. intros [] s3 E3.
  apply (wlp_keeping kept); [keeps_deep|]. intros [] s4 E4.
  assert (r_q s4 = x1 ∧ r_rowAddrDep s4 = r_rowAddrDep s) as [Eq Ed]
    by (unfold kept in *; cbn in *; split; congruence). clear E1 E2 E3 E4.
  apply wlp_bind, wlp_zoom, wp_wlp. rewrite Eq. eapply wp_mono; [exact Hw|]. intros [] x2 (_ & HF & Hc).
  assert (HI5 : Inv (<[customCmdQ := l1 ++ l2]> Q) L (fset r_q x2 s))
    by (eapply Inv_move; [done..| |]; [by intros [[]]|intros ? ? ?; by left]).
  assert (E5 : flash_view (fset r_q x2 s4) = flash_view (fset r_q x2 s))
    by (unfold flash_view; cbn; by rewrite Ed).
  apply (wlp_keeping flash_view); [keeps|]. intros [] s6 E6.
  eapply wlp_mono; [apply free_and_release_evolves; [eapply Inv_view, HI5; congruence|]|].
  { eapply held_after, HQ. apply HI. }
  intros [] s' HE. eapply Evolves_seq; [done|by eapply Calm_leave|].
  eapply Evolves_from, HE. congruence.
Qed.

Lemma complete_nand_evolves c w Q L s :
  Inv Q L s →
  wlp (GetFromNandReqQ c w) (λ _ s', ∃ tag l, Q (nandReqQ c w) = tag :: l ∧
    Evolves (just tag) Q L s s') s.
Proof.
  intros HI. apply wlp_bind. eapply wlp_take_nand; [done|].
  intros x tag l HQ Hh HI1 Hc.
  apply (wlp_keeping flash_view); [keeps|]. intros r s2 E2. apply (wlp_keeping flash_view); [keeps|]. intros [] s3 E3.
  apply (wlp_keeping flash_view); [keeps|]. intros [] s4 E4.
  eapply wlp_mono; [apply free_and_release_evolves; [eapply Inv_view, HI1; congruence|done]|].
  intros [] s' HE. exists tag, l. split; [done|].
  eapply Evolves_seq; [done|by apply (Calm_leave (nandReqQ c w) [] tag l)|].
  eapply Evolves_from, HE. congruence.
Qed.

(** ** Walks over a queue *)

(** Slots outside the queues stay outside: what callers that hold a slot see. *)
Definition Settles Q L s s' : Prop := ∃ Q' L', Inv Q' L' s' ∧ grows L L' ∧ Quiet Q s Q' s'.

Lemma Settles_trans Q L s Q1 L1 s1 s2 :
  grows L L1 → Quiet Q s Q1 s1 → Settles Q1 L1 s1 s2 → Settles Q L s s2.
Proof.
  intros HL1 HQ1 (Q2 & L2 & HI2 & HL2 & HQ2). exists Q2, L2.
  split_and!; [done|by etrans|by eapply Quiet_trans].
Qed.

Lemma Quiet_view Q s s' : flash_view s' = flash_view s → Quiet Q s Q s'.
Proof. intros E. eapply Calm_Quiet; [by apply (Calm_view nobody)|done]. Qed.

Lemma Evolves_Settles D Q L s s' : Evolves D Q L s s' → (∀ t, D t → ¬ held Q t) → Settles Q L s s'.
Proof.
  intros (Q' & L' & HI & HL & HC) HD. exists Q', L'. split_and!; [done|done|by eapply Calm_Quiet].
Qed.

Lemma queued_lookup Q L s q t :
  Inv Q L s → t ∈ Q q → ∃ r, q_reqPool (r_q s) !! t = Some r ∧ ∀ q', t ∈ Q q' → q' = q.
Proof.
  intros [[HI _ _ _] _ _ _] Ht.
  destruct (q_queues (r_q s) !! q) as [c|] eqn:Hc; [|rewrite (qi_dead _ _ HI q Hc) in Ht; set_solver].
  destruct (qi_list _ _ HI q c Hc) as [Hd _].
  destruct (dll_lookup _ _ _ _ _ _ Hd Ht) as [r Hr]. exists r. split; [done|].
  destruct (qi_type _ _ HI t r Hr) as [[_ Hn]|(q0 & _ & _ & Hu)]; [by destruct (Hn q)|].
  intros q' Ht'. by rewrite (Hu q Ht), (Hu q' Ht').
Qed.

Lemma queued_not_held Q q t : t ∈ Q q → ¬ held Q t.
Proof. intros Ht [_ Hn]. by apply (Hn q). Qed.

(** The links of a queued slot lead to slots of the same queue. *)
Lemma queued_links Q L s q t r :
  Inv Q L s → t ∈ Q q → q_reqPool (r_q s) !! t = Some r →
  (prevReq r = REQ_SLOT_TAG_NONE ∨ prevReq r ∈ Q q ∧ prevReq r ≠ t) ∧
  (nextReq r = REQ_SLOT_TAG_NONE ∨ nextReq r ∈ Q q ∧ nextReq r ≠ t).
Proof.
  intros [[HI _ _ _] _ _ _] Ht Hr.
  destruct (q_queues (r_q s) !! q) as [c|] eqn:Hc; [|rewrite (qi_dead _ _ HI q Hc) in Ht; set_solver].
  destruct (qi_list _ _ HI q c Hc) as [Hd _]. apply list_elem_of_split in Ht as (l1 & l2 & HQ).
  rewrite HQ in Hd. destruct (dll_split _ _ _ _ _ _ _ Hd) as (n & Hn & Hp & Hx & _ & _ & _ & Hn1 & Hn2 & _).
  simplify_eq. cbn in Hp, Hx. rewrite HQ. split.
  - rewrite Hp. destruct l1 as [|y l1']; [by left|]. right.
    pose proof (lstz_in REQ_SLOT_TAG_NONE (y :: l1') ltac:(done)) as Hin. split; [set_solver|].
    intros E. by rewrite E in Hin.
  - rewrite Hx. destruct l2 as [|y l2']; [by left|]. right. cbn. split; [set_solver|].
    intros ->. apply Hn2. by left.
Qed.

(** Another slot of the queue is still there. *)
Lemma queued_stays Q L s q tag p Q' s' :
  Inv Q L s → q ≠ blockedByBufDepReqQ → p ∈ Q q → p ≠ tag → Calm (just tag) Q s Q' s' → p ∈ Q' q.
Proof.
  intros HI Hq Hp Hne HC. destruct (HC p) as [Hin _]; [done| |by apply Hin].
  intros Hb. destruct (queued_lookup _ _ _ _ _ HI Hp) as (_ & _ & Hu). by rewrite (Hu _ Hb) in Hq.
Qed.

(** The state of a walk over queue [q] that stands at slot [t]. *)
Definition Walk q Q L s t s' : Prop :=
  ∃ Q' L', Inv Q' L' s' ∧ grows L L' ∧ Quiet Q s Q' s' ∧ (t = REQ_SLOT_TAG_NONE ∨ t ∈ Q' q).

Lemma Walk_start q Q L s s' t :
  Inv Q L s → flash_view s' = flash_view s → t = REQ_SLOT_TAG_NONE ∨ t ∈ Q q → Walk q Q L s t s'.
Proof.
  intros HI E Ht. exists Q, L. split_and!; [by eapply Inv_view|done|by apply Quiet_view|done].
Qed.

Lemma Walk_settles q Q L s t s' : Walk q Q L s t s' → Settles Q L s s'.
Proof. intros (Q' & L' & ? & ? & ? & _). by exists Q', L'. Qed.

(** A step of the walk: the slot it leaves may leave the queue. *)
Lemma Walk_step q Q L s t p Q1 L1 s1 s2 :
  q ≠ blockedByBufDepReqQ → grows L L1 → Quiet Q s Q1 s1 → Inv Q1 L1 s1 → t ∈ Q1 q →
  p = REQ_SLOT_TAG_NONE ∨ p ∈ Q1 q ∧ p ≠ t → Evolves (just t) Q1 L1 s1 s2 → Walk q Q L s p s2.
Proof.
  intros Hq HL HQ HI Ht Hp HE. pose proof HE as (Q2 & L2 & HI2 & HL2 & HC2).
  exists Q2, L2. split_and!; [done|by etrans| |].
  - eapply Quiet_trans; [done|]. eapply Calm_Quiet; [done|]. intros ? ->. by eapply queued_not_held.
  - destruct Hp as [?|[Hp Hne]]; [by left|right]. eapply (queued_stays Q1 L1 s1 q t p); done.
Qed.

Lemma queue_ends Q L s q c :
  Inv Q L s → q_queues (r_q s) !! q = Some c →
  (headReq c = REQ_SLOT_TAG_NONE ∨ headReq c ∈ Q q) ∧ (tailReq c = REQ_SLOT_TAG_NONE ∨ tailReq c ∈ Q q).
Proof.
  intros [[HI _ _ _] _ _ _] Hc. destruct (qi_list _ _ HI q c Hc) as [(Hh & Ht & _) _]. rewrite Hh, Ht.
  destruct (Q q) as [|y l]; [by split; left|]. split; right; [by left|by apply lstz_in].
Qed.

Lemma when_evolves D b (m : M (RSt W) unit) Q L s :
  Inv Q L s → wlp m (λ _ s', Evolves D Q L s s') s → wlp (when b m) (λ _ s', Evolves D Q L s s') s.
Proof. intros HI Hm. apply wlp_when; intros _; [done|]. by apply Evolves_view. Qed.

(** The step of the DMA walks: the request is completed, tried again or left. *)
Lemma walk_prev q Q L s t r (m : M (RSt W) unit) {X} (x : X) s1 :
  q = nvmeDmaReqQ ∨ q = customCmdQ → t ≠ REQ_SLOT_TAG_NONE →
  (∀ Q L s, Inv Q L s → t ∈ Q q → wlp m (λ _ s', Evolves (just t) Q L s s') s) →
  (∃ s0, flash_view s1 = flash_view s0 ∧ Walk q Q L s t s0 ∧ q_reqPool (r_q s0) !! t = Some r) →
  wlp (m ;; ret (inl x : X + unit)) (λ y s', y = inl x ∧ Walk q Q L s (prevReq r) s') s1.
Proof.
  intros Hq Hne Hm (s0 & E & (Q1 & L1 & HI1 & HL1 & HQ1 & Ht) & Hr). destruct Ht as [?|Ht]; [done|].
  assert (q ≠ blockedByBufDepReqQ) by (destruct Hq as [-> | ->]; done).
  destruct (queued_links _ _ _ _ _ _ HI1 Ht Hr) as [Hp _].
  assert (HI1' : Inv Q1 L1 s1) by (by eapply Inv_view).
  apply wlp_bind. eapply wlp_mono; [by apply Hm|]. intros [] s2 HE. apply wlp_ret. split; [done|].
  eapply Walk_step; [done|exact HL1|exact HQ1|done|done|done|]. by eapply Evolves_from.
Qed.

Lemma done_dma_settles Q L s : Inv Q L s → wlp CheckDoneNvmeDmaReq (λ _ s', Settles Q L s s') s.
Proof.
  intros HI. unfold CheckDoneNvmeDmaReq. apply wlp_bind, wlp_load. intros t Ht. cbn in Ht.
  destruct (q_queues (r_q s) !! nvmeDmaReqQ) as [c|] eqn:Hc; [|done]. injection Ht as <-.
  destruct (queue_ends _ _ _ _ _ HI Hc) as [_ Htail].
  apply (wlp_loop (λ '(t, _, _) s', Walk nvmeDmaReqQ Q L s t s')); [by apply Walk_start|].
  intros [[t rx] tx] s1 HW. destruct (Z.eqb_spec t REQ_SLOT_TAG_NONE) as [|Hne].
  { apply wlp_ret. by eapply Walk_settles. }
  apply wlp_bind, wlp_load. intros r Hr. cbn in Hr.
  destruct (reqCode r =? REQ_CODE_RxDMA); (apply (wlp_keeping flash_view); [keeps_deep|]);
    intros d s2 E2; (eapply wlp_mono; [apply (walk_prev nvmeDmaReqQ Q L s t r); auto;
      [intros; by apply when_evolves, complete_dma_evolves|eauto]|]); by intros ? s3 [-> HW'].
Qed.

Lemma retry_custom_evolves tag Q L s :
  Inv Q L s → wlp (retry_custom tag) (λ _ s', Evolves (just tag) Q L s s') s.
Proof.
  intros HI. apply (wlp_keeping flash_view); [keeps_deep|]. intros report s1 E1.
  destruct (_ =? _).
  - eapply wlp_mono; [eapply release_buf_evolves, Inv_view; done|]. intros [] s2 HE.
    eapply Evolves_from; [done|]. by eapply Evolves_mono, HE.
  - eapply wlp_mono; [apply (keeps_IssueNvmeDmaReq tag)|]. intros [] s2 E2.
    apply Evolves_view; [done|congruence].
Qed.

Lemma done_custom_settles Q L s : Inv Q L s → wlp CheckDoneCustomCmdDmaReq (λ _ s', Settles Q L s s') s.
Proof.
  intros HI. unfold CheckDoneCustomCmdDmaReq. apply wlp_bind, wlp_load. intros t Ht. cbn in Ht.
  destruct (q_queues (r_q s) !! customCmdQ) as [c|] eqn:Hc; [|done]. injection Ht as <-.
  destruct (queue_ends _ _ _ _ _ HI Hc) as [_ Htail].
  apply (wlp_loop (λ '(t, _, _) s', Walk customCmdQ Q L s t s')); [by apply Walk_start|].
  intros [[t rx] tx] s1 HW. destruct (Z.eqb_spec t REQ_SLOT_TAG_NONE) as [|Hne].
  { apply wlp_ret. by eapply Walk_settles. }
  apply wlp_bind, wlp_load. intros r Hr. cbn in Hr.
  assert (Hstep : ∀ (m : M (RSt W) unit) x s2, flash_view s2 = flash_view s1 →
    (∀ Q L s, Inv Q L s → t ∈ Q customCmdQ → wlp m (λ _ s', Evolves (just t) Q L s s') s) →
    wlp (m ;; ret (inl (prevReq r, x.1, x.2) : Z * Z * Z + unit)) (λ y s', match y with
      | inl x' => (λ '(t', _, _) s', Walk customCmdQ Q L s t' s') x' s' | inr _ => Settles Q L s s' end) s2).
  { intros m x s2 E Hm. eapply wlp_mono; [apply (walk_prev customCmdQ Q L s t r); eauto|].
    by intros ? s3 [-> HW']. }
  assert (Hskip : ∀ Q L s, Inv Q L s → t ∈ Q customCmdQ →
    wlp skip (λ _ s', Evolves (just t) Q L s s') s) by (intros; apply wlp_ret; by apply Evolves_view).
  destruct (reqCode r =? REQ_CODE_RxDMA).
  - destruct (_ =? _).
    + apply (wlp_keeping flash_view); [keeps_deep|]. intros d s2 E2.
      apply (Hstep _ (d, tx)); [done|]. intros; by apply when_evolves, complete_custom_evolves.
    + apply (Hstep _ (rx, tx)); [done|]. intros. by apply retry_custom_evolves.
  - apply (wlp_keeping flash_view); [keeps_deep|]. intros n s2 E2. destruct (n =? 0); [destruct (_ =? _)|].
    + apply (wlp_keeping flash_view); [keeps_deep|]. intros d s3 E3.
      apply (Hstep _ (rx, d)); [congruence|]. intros; by apply when_evolves, complete_custom_evolves.
    + apply (Hstep _ (rx, tx)); [done|]. intros. by apply retry_custom_evolves.
    + apply (Hstep skip (rx, tx)); [done|]. apply Hskip.
Qed.

Lemma same_core_request (x x' : QSt) t r :
  same_core x x' → q_reqPool x !! t = Some r →
  ∃ r', q_reqPool x' !! t = Some r' ∧ nand_core r' = nand_core r.
Proof.
  intros Hc Hr. pose proof (same_core_lookup x x' t Hc) as E. rewrite Hr in E.
  destruct (q_reqPool x' !! t) as [r'|]; [|done]. exists r'. split; [done|]. by apply (inj Some) in E.
Qed.

Lemma verdict_core r r' dep dep' report :
  nand_core r' = nand_core r → verdict r dep dep' report → verdict r' dep dep' report.
Proof. intros [= E1 E2 E3 E4]. unfold verdict, request_op. by rewrite E2, E4. Qed.

(** A request whose check passes moves from the waiting queue of its way to the
    NAND queue. *)
Lemma release_row_evolves c w t Q L s :
  Inv Q L s → t ∈ Q (blockedByRowAddrDepReqQ c w) →
  wlp (f <- !(rPool.[t]∙reqOpt∙rowAddrDependencyCheck) ;;
       if f =? REQ_OPT_ROW_ADDR_DEPENDENCY_CHECK then
         report <- CheckRowAddrDepRelease t ;;
         if report =? ROW_ADDR_DEPENDENCY_REPORT_PASS then
           qM (SelectiveGetFromBlockedByRowAddrDepReqQ t c w) ;; qM (PutToNandReqQ t c w)
         else if report =? ROW_ADDR_DEPENDENCY_REPORT_BLOCKED then skip else fail Assert
       else fail Assert) (λ _ s', Evolves (just t) Q L s s') s.
Proof.
  intros HI Hin. destruct (queued_lookup _ _ _ _ _ HI Hin) as (r & Hr & _).
  apply wlp_bind. eapply wp_wlp, wp_load; [cbn; by rewrite Hr|]. cbn [fmap option_fmap option_map].
  destruct (Z.eqb_spec (rowAddrDependencyCheck (reqOpt r)) REQ_OPT_ROW_ADDR_DEPENDENCY_CHECK) as [Ed|]; [|done].
  apply wlp_bind. eapply (wlp_check _ _ _ r); [done|done|]. intros Ha dep' report Hv.
  destruct (Z.eqb_spec report ROW_ADDR_DEPENDENCY_REPORT_PASS) as [-> |].
  - apply wlp_bind.
    eapply (wlp_get_dep _ (OpGetFromBlockedByRowAddrDep t c w)); [done|constructor|done|done|done|].
    intros x l1 l2 HQ Hh HI1 Hc. destruct (same_core_request _ _ _ _ Hc Hr) as (r' & Hr' & E).
    apply (verdict_core r r') in Hv; [|done]. injection E as _ _ E3 E4.
    destruct (inv_waiting _ _ _ HI c w t Hin) as (r0 & Hr0 & Hway).
    assert (r0 = r) as -> by congruence. rewrite <- E3 in Ha, Ed. rewrite <- E4 in Hway.
    pose proof (put_passed_evolves t r' dep' _ L (fset r_q x s) HI1 Hh Hr' Hv Ha Ed) as Hput.
    destruct (vsa_block _) as [[c' w'] b]. injection Hway as -> ->.
    eapply wlp_mono; [exact Hput|]. intros [] s' HE. eapply Evolves_seq; [done|by eapply Calm_leave|done].
  - destruct (Z.eqb_spec report ROW_ADDR_DEPENDENCY_REPORT_BLOCKED) as [-> |]; [|done].
    apply wlp_ret. exists Q, L. split_and!; [by eapply Inv_blocked|done|done].
Qed.

Lemma release_row_settles c w Q L s :
  Inv Q L s → wlp (ReleaseBlockedByRowAddrDepReq c w) (λ _ s', Settles Q L s s') s.
Proof.
  intros HI. unfold ReleaseBlockedByRowAddrDepReq. apply wlp_bind, wlp_load. intros t Ht. cbn in Ht.
  destruct (q_queues (r_q s) !! blockedByRowAddrDepReqQ c w) as [k|] eqn:Hk; [|done]. injection Ht as <-.
  destruct (queue_ends _ _ _ _ _ HI Hk) as [Hhead _].
  apply (wlp_loop (λ t s', Walk (blockedByRowAddrDepReqQ c w) Q L s t s')); [by apply Walk_start|].
  intros t s1 HW. destruct (Z.eqb_spec t REQ_SLOT_TAG_NONE) as [|Hne].
  { apply wlp_ret. by eapply Walk_settles. }
  destruct HW as (Q1 & L1 & HI1 & HL1 & HQ1 & [?|Ht]); [done|].
  destruct (queued_lookup _ _ _ _ _ HI1 Ht) as (r & Hr & _).
  destruct (queued_links _ _ _ _ _ _ HI1 Ht Hr) as [_ Hn].
  apply wlp_bind. eapply wp_wlp, wp_load; [cbn; by rewrite Hr|]. cbn [fmap option_fmap option_map].
  apply wlp_assoc, wlp_bind. eapply wlp_mono; [by apply release_row_evolves|]. intros [] s2 HE.
  apply wlp_ret. eapply Walk_step; [done|exact HL1|exact HQ1|done|done|done|done].
Qed.

(** ** Writing a slot *)

Definition set_slot tag r s : RSt W :=
  fset r_q (fset q_reqPool (<[tag := r]> (q_reqPool (r_q s))) (r_q s)) s.

Lemma wlp_slot_store {T} (f : SSD_REQ_FORMAT → T) `{!Field f} tag v (Φ : unit → RSt W → Prop) s :
  (∀ r, q_reqPool (r_q s) !! tag = Some r → Φ tt (set_slot tag (fset f v r) s)) →
  wlp (rPool.[tag]∙f ::= v) Φ s.
Proof.
  intros HΦ. apply wlp_store. cbn. intros old.
  destruct (q_reqPool (r_q s) !! tag) as [r|]; [|done]. intros _. by apply HΦ.
Qed.

(** A slot in no queue may get any contents; a queued one keeps its operation. *)
Lemma Inv_slot Q L s tag r r' :
  Inv Q L s → q_reqPool (r_q s) !! tag = Some r → place r' = place r →
  held Q tag ∨ (∀ loc, op_at loc r' = op_at loc r) ∧ nandInfo r' = nandInfo r →
  Inv Q L (set_slot tag r' s).
Proof.
  intros [[HI Hn Hb Hc] Hlog Hleg Hway] Hr Hp Hor. split.
  - split; [|done..]. eapply (QInv_places (r_q s)), HI; [done|]. cbn.
    rewrite fmap_insert, Hp. apply insert_id. by rewrite lookup_fmap, Hr.
  - intros loc. destruct (Hlog loc) as [h ->]. exists h. f_equal. unfold ops. cbn.
    apply list_omap_ext, Forall2_same_length_lookup_2; [done|]. intros i t t' Ht Ht'. simplify_eq.
    rewrite lookup_insert. case_decide as E; [|done]. subst t. rewrite Hr. cbn.
    destruct Hor as [[_ Hnot]|[Hop _]]; [|by rewrite Hop].
    by apply list_elem_of_lookup_2, Hnot in Ht.
  - done.
  - intros c w t Ht. destruct (Hway c w t Ht) as (r0 & Hr0 & Hw). unfold on_way. cbn.
    rewrite lookup_insert. case_decide as E; [|by exists r0]. subst t. simplify_eq. exists r'.
    split; [done|]. destruct Hor as [[_ Hnot]|[_ E]]; [by apply Hnot in Ht|by rewrite E].
Qed.

Lemma Quiet_slot Q s tag r' : ¬ held Q tag → Quiet Q s Q (set_slot tag r' s).
Proof.
  intros Hnot t Ht. split; [done|]. cbn. rewrite lookup_insert_ne; [done|]. intros ->. done.
Qed.

(** ** The scheduler *)

Class Steady {A} (m : M (RSt W) A) : Prop :=
  steady Q L s : Inv Q L s → wlp m (λ _ s', Settles Q L s s') s.

Lemma Settles_refl Q L s : Inv Q L s → Settles Q L s s.
Proof. intros HI. exists Q, L. split_and!; [done|done|apply Quiet_refl]. Qed.

Lemma steady_keeps {A} (m : M (RSt W) A) : Keeps flash_view m → Steady m.
Proof.
  intros Hm Q L s HI. eapply wlp_mono; [apply Hm|]. cbn beta. intros a s' E. exists Q, L.
  split_and!; [by eapply Inv_view|done|by apply Quiet_view].
Qed.

Lemma steady_bind {A B} (m : M (RSt W) A) (k : A → M (RSt W) B) :
  Steady m → (∀ a, Steady (k a)) → Steady (bind m k).
Proof.
  intros Hm Hk Q L s HI. apply wlp_bind. eapply wlp_mono; [by apply Hm|].
  intros a s1 (Q1 & L1 & HI1 & HL1 & HQ1). eapply wlp_mono; [by apply Hk|].
  intros b s2 HS. by eapply Settles_trans.
Qed.

Lemma steady_when b (m : M (RSt W) unit) : Steady m → Steady (when b m).
Proof. destruct b; [done|]. intros _ Q L s HI. apply wlp_ret. by apply Settles_refl. Qed.

Lemma steady_loop {X B} fuel (body : X → M (RSt W) (X + B)) x :
  (∀ x, Steady (body x)) → Steady (loop fuel body x).
Proof.
  intros Hb Q L s HI. apply (wlp_loop (λ _ s', Settles Q L s s')); [by apply Settles_refl|].
  intros y s1 (Q1 & L1 & HI1 & HL1 & HQ1). eapply wlp_mono; [by apply Hb|].
  intros [z|b] s2 HS; by eapply Settles_trans.
Qed.

Lemma steady_for_n n lo (body : Z → M (RSt W) unit) :
  (∀ i, Steady (body i)) → Steady (for_n n lo body).
Proof.
  intros Hb. revert lo. induction n as [|n IH]; intros lo; cbn [for_n];
    [apply steady_keeps, keeps_ret|by apply steady_bind].
Qed.
Lemma steady_for_range lo hi (body : Z → M (RSt W) unit) :
  (∀ i, Steady (body i)) → Steady (for_range lo hi body).
Proof. apply steady_for_n. Qed.

Create HintDb steady.
#[local] Hint Unfold Steady : steady.

(** Decompose a computation; known operations are in the database [steady], the
    rest keeps the view. *)
Ltac steady_step :=
  first
    [ assumption
    | solve [auto with steady nocore]
    | lazymatch goal with
      | |- forall _, _ => intro
      | |- Steady (bind _ _) => apply steady_bind
      | |- Steady (when _ _) => apply steady_when
      | |- Steady (loop _ _ _) => apply steady_loop
      | |- Steady (for_range _ _ _) => apply steady_for_range
      | |- Steady (match ?x with _ => _ end) => destruct x
      | |- Steady _ => apply steady_keeps; solve [keeps_deep]
      end
    | progress cbn beta zeta ].
Ltac steady := repeat steady_step.

Lemma steady_done_dma : Steady (CheckDoneNvmeDmaReq (W:=W)).
Proof. exact done_dma_settles. Qed.
Lemma steady_done_custom : Steady (CheckDoneCustomCmdDmaReq (W:=W)).
Proof. exact done_custom_settles. Qed.
Lemma steady_release_row c w : Steady (ReleaseBlockedByRowAddrDepReq (W:=W) c w).
Proof. exact (release_row_settles c w). Qed.

Lemma steady_complete_nand c w : Steady (GetFromNandReqQ (W:=W) c w).
Proof.
  intros Q L s HI. eapply wlp_mono; [by apply complete_nand_evolves|]. intros [] s' (tag & l & HQ & HE).
  eapply Evolves_Settles; [done|]. intros t ->. apply (queued_not_held _ (nandReqQ c w)). rewrite HQ. by left.
Qed.
#[local] Hint Resolve steady_done_dma steady_done_custom steady_release_row steady_complete_nand : steady.

Lemma steady_finish_req c w : Steady (finish_req (W:=W) c w).
Proof. unfold finish_req. steady. Qed.
#[local] Hint Resolve steady_finish_req : steady.

Lemma steady_IssueNandReq c w : Steady (IssueNandReq (W:=W) c w).
Proof. apply steady_keeps. keeps_deep. Qed.
#[local] Hint Resolve steady_IssueNandReq : steady.

(** A read and the transfer of its data are the same operation. *)
Lemma steady_recode c w t r code s Q L :
  Inv Q L s → t ∈ Q (nandReqQ c w) → q_reqPool (r_q s) !! t = Some r →
  reqCode r = REQ_CODE_READ ∧ code = REQ_CODE_READ_TRANSFER ∨
    reqCode r = REQ_CODE_READ_TRANSFER ∧ code = REQ_CODE_READ →
  wlp (rPool.[t]∙reqCode ::= code) (λ _ s', Settles Q L s s') s.
Proof.
  intros HI Ht Hr Hcode. apply wlp_slot_store. intros r0 Hr0. simplify_eq. exists Q, L. split_and!; [|done|].
  - eapply Inv_slot; [done|done|done|]. right. split; [|done]. intros loc. unfold op_at, request_op.
    cbn. by destruct Hcode as [[-> ->]|[-> ->]].
  - eapply Quiet_slot, queued_not_held, Ht.
Qed.

Lemma recode_settles c w t r code b s Q L :
  Inv Q L s → t ∈ Q (nandReqQ c w) → q_reqPool (r_q s) !! t = Some r →
  (b = true → reqCode r = REQ_CODE_READ ∧ code = REQ_CODE_READ_TRANSFER ∨
    reqCode r = REQ_CODE_READ_TRANSFER ∧ code = REQ_CODE_READ) →
  wlp (when b (rPool.[t]∙reqCode ::= code) ;; rDieState.[c].[w]∙dieState ::= DIE_STATE_IDLE)
    (λ _ s', Settles Q L s s') s.
Proof.
  intros HI Ht Hr Hcode.
  assert (Hw : wlp (when b (rPool.[t]∙reqCode ::= code)) (λ _ s', Settles Q L s s') s).
  { apply wlp_when; intros Hb; [by eapply steady_recode; auto|by apply Settles_refl]. }
  apply wlp_bind. eapply wlp_mono; [exact Hw|]. intros [] s1 (Q1 & L1 & HI1 & HL1 & HQ1).
  eapply wlp_mono; [eapply (steady_keeps (rDieState.[c].[w]∙dieState ::= DIE_STATE_IDLE)); [keeps|done]|].
  intros [] s2 HS. by eapply Settles_trans.
Qed.

Lemma head_of_way Q L s c w k r :
  Inv Q L s → q_queues (r_q s) !! nandReqQ c w = Some k →
  q_reqPool (r_q s) !! headReq k = Some r → headReq k ∈ Q (nandReqQ c w).
Proof.
  intros HI Hk Hr. destruct (queue_ends _ _ _ _ _ HI Hk) as [[Hh|Hh] _]; [|done]. rewrite Hh in Hr.
  pose proof (array_range _ _ _ _ (qi_pool _ _ (qf_inv _ _ (inv_queues _ _ _ HI))) Hr).
  pose proof req_count_bound. unfold REQ_SLOT_TAG_NONE in *. lia.
Qed.

Lemma steady_ExecuteNandReq c w reqStatus : Steady (ExecuteNandReq (W:=W) c w reqStatus).
Proof.
  intros Q L s HI. unfold ExecuteNandReq. apply wlp_bind, wlp_load. intros t Ht. cbn in Ht.
  destruct (q_queues (r_q s) !! nandReqQ c w) as [k|] eqn:Hk; [|done]. injection Ht as <-.
  apply wlp_bind, wlp_load. intros st Hst.
  destruct (st =? DIE_STATE_IDLE); [revert HI; apply steady_bind; steady|].
  apply wlp_when; intros _; [|by apply Settles_refl].
  apply wlp_bind, wlp_load. intros r Hr. cbn in Hr.
  pose proof (head_of_way _ _ _ _ _ _ _ HI Hk Hr) as Hin.
  destruct (reqStatus =? REQ_STATUS_DONE).
  { destruct (Z.eqb_spec (reqCode r) REQ_CODE_READ); [|by apply steady_finish_req].
    apply (recode_settles c w (headReq k) r REQ_CODE_READ_TRANSFER true); auto. }
  destruct (reqStatus =? REQ_STATUS_FAIL).
  { apply wlp_bind, wlp_load. intros limit _. destruct (_ && _); [|revert HI; apply steady_bind; steady].
    apply (wlp_keeping (λ s : RSt W, (r_q s, r_rowAddrDep s))); [keeps|]. intros [] s1 [= Eq Ed].
    assert (E : flash_view s1 = flash_view s) by (unfold flash_view; by rewrite Eq, Ed).
    eapply wlp_mono; [apply (recode_settles c w (headReq k) r REQ_CODE_READ)|].
    - by eapply Inv_view.
    - done.
    - by rewrite Eq.
    - intros Hb%Z.eqb_eq. auto.
    - intros [] s2 HS. eapply Settles_trans, HS; [done|by apply Quiet_view]. }
  destruct (reqStatus =? REQ_STATUS_WARNING); [revert HI; apply steady_bind; steady|].
  destruct (_ =? _); [by apply Settles_refl|done].
Qed.
#[local] Hint Resolve steady_ExecuteNandReq : steady.

Lemma steady_next_request c w : Steady (next_request (W:=W) c w).
Proof. unfold next_request. steady. Qed.
#[local] Hint Resolve steady_next_request : steady.

Lemma steady_schedule_idle c : Steady (schedule_idle (W:=W) c).
Proof. unfold schedule_idle. steady. Qed.
Lemma steady_schedule_status_report c n : Steady (schedule_status_report (W:=W) c n).
Proof. unfold schedule_status_report. steady. Qed.
Lemma steady_schedule_status_check c : Steady (schedule_status_check (W:=W) c).
Proof. unfold schedule_status_check. steady. Qed.
Lemma steady_schedule_issue l l' c : Steady (schedule_issue (W:=W) l l' c).
Proof. unfold schedule_issue. steady. Qed.
#[local] Hint Resolve steady_schedule_idle steady_schedule_status_report
  steady_schedule_status_check steady_schedule_issue : steady.

Lemma steady_SchedulingNandReqPerCh c : Steady (SchedulingNandReqPerCh (W:=W) c).
Proof. unfold SchedulingNandReqPerCh. steady. Qed.
#[local] Hint Resolve steady_SchedulingNandReqPerCh : steady.
Lemma steady_SchedulingNandReq : Steady (SchedulingNandReq (W:=W)).
Proof. unfold SchedulingNandReq. steady. Qed.
#[local] Hint Resolve steady_SchedulingNandReq : steady.

Lemma steady_SyncAllLowLevelReqDone : Steady (SyncAllLowLevelReqDone (W:=W)).
Proof. unfold SyncAllLowLevelReqDone. steady. Qed.
Lemma steady_SyncAvailFreeReq : Steady (SyncAvailFreeReq (W:=W)).
Proof. unfold SyncAvailFreeReq. steady. Qed.
Lemma steady_SyncReleaseEraseReq c w b : Steady (SyncReleaseEraseReq (W:=W) c w b).
Proof. unfold SyncReleaseEraseReq. steady. Qed.
#[local] Hint Resolve steady_SyncAllLowLevelReqDone steady_SyncAvailFreeReq
  steady_SyncReleaseEraseReq : steady.

(** ** Slots taken and given *)

Lemma q_take_empty (x : QSt) Q q (Φ : Z → QSt → Prop) : QInv x Q → Q q = [] → wlp (q_take q) Φ x.
Proof.
  intros HI HQ. unfold q_take. apply wlp_bind, wlp_load. cbn. intros h Hh.
  destruct (q_queues x !! q) as [c|] eqn:Hc; [|done].
  destruct (qi_list _ _ HI q c Hc) as [(Eh & _) _]. rewrite HQ in Eh. cbn in Eh.
  apply wlp_bind. unfold q_pop_head, q_relink. apply wlp_bind, wlp_load. cbn. intros pool [= <-].
  apply wlp_bind, wlp_load. cbn. rewrite Hc. intros h' [= <-].
  apply wlp_bind, wlp_load. cbn. rewrite Hc. intros t' [= <-].
  assert (q_reqPool x !! headReq c = None) as E.
  { apply eq_None_not_Some. intros Hs%(qi_pool _ _ HI). rewrite Eh in Hs. pose proof req_count_bound.
    unfold REQ_SLOT_TAG_NONE in Hs. lia. }
  unfold pop_head. cbn. rewrite E. done.
Qed.

(** A new slot: it was not held before. *)
Definition Takes Q L s tag s' : Prop :=
  ∃ Q' L', Inv Q' L' s' ∧ grows L L' ∧ Quiet Q s Q' s' ∧ held Q' tag ∧ ¬ held Q tag.

Lemma take_free_takes Q L s : Inv Q L s → wlp GetFromFreeReqQ (Takes Q L s) s.
Proof.
  intros HI. unfold GetFromFreeReqQ. apply wlp_bind, wlp_load. intros h _. apply wlp_bind.
  eapply wlp_mono; [by apply steady_when; [apply steady_SyncAvailFreeReq|]|].
  intros [] s1 (Q1 & L1 & HI1 & HL1 & HQ1). destruct (decide (Q1 freeReqQ = [])) as [E|Hne].
  { apply wlp_zoom. eapply q_take_empty; [|done]. apply HI1. }
  eapply (wlp_take _ OpGetFromFree); [done|constructor|done|done|done|]. intros x tag l HQ Hh HI2 Hc.
  assert (Hin : tag ∈ Q1 freeReqQ) by (rewrite HQ; by left).
  eexists _, L1. split_and!; [done|done| |done|].
  - eapply Quiet_trans; [done|]. eapply Calm_Quiet; [by apply (Calm_leave freeReqQ [] tag l)|].
    intros ? ->. by eapply queued_not_held.
  - intros Ht. destruct (HQ1 tag Ht) as [Ht1 _]. by apply (queued_not_held Q1 freeReqQ tag).
Qed.

(** The slot leaves the hands of the caller; the others stay there. *)
Definition Places tag Q L s s' : Prop :=
  ∃ Q' L', Inv Q' L' s' ∧ grows L L' ∧ ∀ t, t ≠ tag → held Q t → held Q' t.

Lemma Evolves_Places tag Q L s s' : Evolves (just tag) Q L s s' → Places tag Q L s s'.
Proof.
  intros (Q' & L' & HI & HL & HC). exists Q', L'. split_and!; [done|done|].
  intros t Hne [Hr Hn]. destruct (HC t Hne (Hn _)) as [Hq _]. split; [done|]. intros q. by rewrite Hq.
Qed.

Lemma Places_after tag Q L s Q1 L1 s1 s2 :
  grows L L1 → Quiet Q s Q1 s1 → Places tag Q1 L1 s1 s2 → Places tag Q L s s2.
Proof.
  intros HL1 HQ1 (Q2 & L2 & HI2 & HL2 & Hh). exists Q2, L2. split_and!; [done|by etrans|].
  intros t Hne Ht. apply Hh; [done|]. by apply HQ1.
Qed.

(** The slot the caller holds, in a later state. *)
Lemma held_request Q s Q1 s1 tag r :
  Quiet Q s Q1 s1 → held Q tag → q_reqPool (r_q s) !! tag = Some r →
  held Q1 tag ∧ ∃ r1, q_reqPool (r_q s1) !! tag = Some r1 ∧ nand_core r1 = nand_core r.
Proof.
  intros HQ Hh Hr. destruct (HQ tag Hh) as [Hh1 E]. split; [done|]. rewrite Hr in E.
  destruct (q_reqPool (r_q s1) !! tag) as [r1|]; [|done]. exists r1. split; [done|]. by apply (inj Some) in E.
Qed.

(** The dispatch of a held request by its report, in a later state. *)
Lemma report_places tag r Q L s Q1 L1 s1 dep' report :
  held Q tag → q_reqPool (r_q s) !! tag = Some r →
  nandAddr (reqOpt r) = REQ_OPT_NAND_ADDR_VSA →
  rowAddrDependencyCheck (reqOpt r) = REQ_OPT_ROW_ADDR_DEPENDENCY_CHECK →
  Inv Q1 L1 s1 → grows L L1 → Quiet Q s Q1 s1 → verdict r (r_rowAddrDep s1) dep' report →
  let '(c, w, _) := vsa_block (virtualSliceAddr (nandInfo r)) in
  wlp (if report =? ROW_ADDR_DEPENDENCY_REPORT_PASS then qM (PutToNandReqQ tag c w)
       else if report =? ROW_ADDR_DEPENDENCY_REPORT_BLOCKED then
         qM (PutToBlockedByRowAddrDepReqQ tag c w)
       else fail Assert) (λ _ s', Places tag Q L s s') (fset r_rowAddrDep dep' s1).
Proof.
  intros Hh Hr Ha Hd HI1 HL1 HQ1 Hv. destruct (held_request _ _ _ _ _ _ HQ1 Hh Hr) as (Hh1 & r1 & Hr1 & E).
  apply (verdict_core r r1) in Hv; [|done]. injection E as _ _ E3 E4. rewrite <- E3 in Ha, Hd.
  pose proof (queue_by_report_evolves tag r1 dep' report Q1 L1 s1 HI1 Hh1 Hr1 Hv Ha Hd) as Hq.
  rewrite <- E4. destruct (vsa_block _) as [[c w] b]. eapply wlp_mono; [exact Hq|].
  intros [] s' HE. eapply Places_after; [done|done|]. by apply Evolves_Places.
Qed.

(** A held request that waits for its buffer; after a wait for an erase it may
    already have been given to its way ([SYNC]). *)
Definition TableUpdate tag Q L s (report : Z) s' : Prop :=
  report = ROW_ADDR_DEPENDENCY_TABLE_UPDATE_REPORT_DONE ∧ Settles Q L s s' ∨
  report = ROW_ADDR_DEPENDENCY_TABLE_UPDATE_REPORT_SYNC ∧ Places tag Q L s s'.

(** The read is counted as waiting, or the erase is announced. *)
Lemma wlp_announce tag r (f : ROW_ADDR_DEPENDENCY_ENTRY → Z) `{!Field f} g Q L s Q1 L1 s1 (m : M (RSt W) unit) :
  (∀ v e, permittedProgPage (fset f v e) = permittedProgPage e) →
  m = modify (rowAddrDep.[vsa_block (virtualSliceAddr (nandInfo r))]∙f) g →
  Inv Q1 L1 s1 → grows L L1 → Quiet Q s Q1 s1 →
  wlp (m ;; ret ROW_ADDR_DEPENDENCY_TABLE_UPDATE_REPORT_DONE) (TableUpdate tag Q L s) s1.
Proof.
  intros Hf -> HI1 HL1 HQ1. apply wlp_bind, wlp_dep_modify. intros e He. apply wlp_ret. left.
  split; [done|]. exists Q1, L1. split_and!; [|done|done].
  by eapply Inv_blocked, blocked_verdict.
Qed.

Lemma update_table_spec tag r Q L s :
  Inv Q L s → held Q tag → q_reqPool (r_q s) !! tag = Some r →
  rowAddrDependencyCheck (reqOpt r) = REQ_OPT_ROW_ADDR_DEPENDENCY_CHECK →
  wlp (UpdateRowAddrDepTableForBufBlockedReq tag) (TableUpdate tag Q L s) s.
Proof.
  intros HI Hh Hr Hd. unfold UpdateRowAddrDepTableForBufBlockedReq.
  eapply wlp_vsa_location; [done|]. intros Ha.
  pose proof (report_places tag r Q L s) as Hplace. pose proof (wlp_announce tag r) as Hann.
  pose proof (read_verdict r) as Hread. pose proof (blocked_verdict r) as Hblock.
  destruct (vsa_block (virtualSliceAddr (nandInfo r))) as [[c w] b].
  apply wlp_bind. eapply wp_wlp, wp_load; [cbn; by rewrite Hr|]. cbn [fmap option_fmap option_map].
  destruct (Z.eqb_spec (reqCode r) REQ_CODE_READ) as [Ec|_].
  - apply wlp_dep_load. intros e He. apply wlp_bind. destruct (negb _).
    + apply wlp_bind. eapply wlp_mono; [by apply steady_SyncReleaseEraseReq|].
      intros [] s1 (Q1 & L1 & HI1 & HL1 & HQ1).
      apply (wlp_keeping flash_view); [keeps_deep|]. intros report s2 E2.
      assert (HI2 : Inv Q1 L1 s2) by (by eapply Inv_view).
      assert (HQ2 : Quiet Q s Q1 s2) by (eapply Quiet_trans; [done|by apply Quiet_view]).
      destruct (_ =? _); [|apply wlp_ret; cbn beta iota; by eapply (Hann blockedReadReqCnt _ (λ n, n + 1))].
      apply wlp_dep_load. intros e2 He2. apply wlp_bind.
      assert (Hdone : ∀ s3, Places tag Q L s s3 → wlp (ret true) (λ synced s', wlp (if (synced : bool)
          then ret ROW_ADDR_DEPENDENCY_TABLE_UPDATE_REPORT_SYNC
          else incr (rowAddrDep.[(c, w, b)]∙blockedReadReqCnt) ;;
               ret ROW_ADDR_DEPENDENCY_TABLE_UPDATE_REPORT_DONE) (TableUpdate tag Q L s) s') s3)
        by (intros s3 HP; do 2 apply wlp_ret; by right).
      destruct (Z.ltb_spec (Vsa2VpageTranslation (virtualSliceAddr (nandInfo r))) (permittedProgPage e2)) as [Hlt|_].
      * specialize (Hread _ _ e2 He2 Ec Hlt eq_refl). rewrite insert_id in Hread by done.
        pose proof (Hplace _ _ _ _ _ Hh Hr Ha Hd HI2 HL1 HQ2 Hread) as Hw. rewrite fset_dep_same in Hw.
        eapply wlp_mono; [exact Hw|]. intros [] s3. apply Hdone.
      * apply wlp_bind, wlp_dep_modify. intros e3 He3.
        set (e4 := fset blockedReadReqCnt (blockedReadReqCnt e3 + 1) e3).
        pose proof (Hplace _ _ _ _ _ Hh Hr Ha Hd HI2 HL1 HQ2 (Hblock _ e3 e4 He3 eq_refl)) as Hw.
        eapply wlp_mono; [exact Hw|].
        intros [] s3. apply Hdone.
    + apply wlp_ret. cbn beta iota.
      eapply (Hann blockedReadReqCnt _ (λ n, n + 1)); done.
  - apply wlp_bind, wlp_when; intros _.
    + apply wlp_dep_store. intros e He. apply wlp_ret. left. split; [done|]. exists Q, L.
      split_and!; [by eapply Inv_blocked, Hblock|done|exact (Quiet_refl Q s)].
    + apply wlp_ret. left. split; [done|by apply Settles_refl].
Qed.

Lemma nand_location_vsa r c w :
  nandAddr (reqOpt r) = REQ_OPT_NAND_ADDR_VSA → nand_location r = Some (c, w) →
  (vsa_block (virtualSliceAddr (nandInfo r))).1 = (c, w).
Proof. unfold nand_location. intros ->. by intros [= <- <-]. Qed.

(** SelectLowLevelReqQ keeps the flash order: whatever request a caller that
    holds its slot hands over, the request layer stays in its invariant, in
    which the operations dispatched to each block form a legal flash sequence,
    and that sequence has only grown at its end. *)
Lemma select_places tag Q L s :
  Inv Q L s → held Q tag → wlp (SelectLowLevelReqQ tag) (λ _ s', Places tag Q L s s') s.
Proof.
  intros HI Hh. unfold SelectLowLevelReqQ.
  assert (HE : ∀ m : M (RSt W) unit, wlp m (λ _ s', Evolves (just tag) Q L s s') s →
    wlp m (λ _ s', Places tag Q L s s') s).
  { intros m Hm. eapply wlp_mono; [exact Hm|]. intros [] s'. apply Evolves_Places. }
  apply wlp_bind. unfold CheckBufDep. apply wlp_bind, wlp_load. intros p _. apply wlp_ret.
  apply wlp_bind, wlp_load. intros r Hr. cbn in Hr.
  destruct (_ =? BUF_DEPENDENCY_REPORT_PASS).
  - destruct (reqType r =? REQ_TYPE_NVME_DMA); [by apply HE, issue_and_queue_evolves|].
    destruct (reqType r =? REQ_TYPE_NAND); [|done].
    destruct (nand_location r) as [[c w]|] eqn:Hloc; [|done]. apply wlp_bind, wlp_ret.
    destruct (Z.eqb_spec (rowAddrDependencyCheck (reqOpt r)) REQ_OPT_ROW_ADDR_DEPENDENCY_CHECK) as [Ed|Ed].
    + apply wlp_bind. unfold CheckRowAddrDep.
      assert (Hrep : nandAddr (reqOpt r) = REQ_OPT_NAND_ADDR_VSA → ∀ Q1 L1 s1 dep' report,
        Inv Q1 L1 s1 → grows L L1 → Quiet Q s Q1 s1 → verdict r (r_rowAddrDep s1) dep' report →
        wlp (if report =? ROW_ADDR_DEPENDENCY_REPORT_PASS then qM (PutToNandReqQ tag c w)
             else if report =? ROW_ADDR_DEPENDENCY_REPORT_BLOCKED then
               qM (PutToBlockedByRowAddrDepReqQ tag c w)
             else fail Assert) (λ _ s', Places tag Q L s s') (fset r_rowAddrDep dep' s1)).
      { intros Ha Q1 L1 s1 dep' report HI1 HL1 HQ1 Hv. pose proof (nand_location_vsa r c w Ha Hloc) as Ew.
        pose proof (report_places tag r Q L s Q1 L1 s1 dep' report Hh Hr Ha Ed HI1 HL1 HQ1 Hv) as Hp.
        destruct (vsa_block _) as [[c' w'] b]. by injection Ew as -> ->. }
      eapply (wlp_check _ _ _ r); [done| |].
      * intros Ha _ _. specialize (Hrep Ha). destruct (vsa_block _) as [[c' w'] b].
        eapply wlp_mono; [by apply steady_SyncReleaseEraseReq|].
        intros [] s1 (Q1 & L1 & HI1 & HL1 & HQ1) dep' report. by apply (Hrep Q1 L1).
      * intros Ha dep' report. apply (Hrep Ha Q L); [done|done|apply Quiet_refl].
    + destruct (_ =? _); [|done]. by eapply HE, put_uncontrolled_evolves.
  - destruct (_ =? _); [|done]. apply wlp_bind.
    eapply (wlp_mono _ (TableUpdate tag Q L s)).
    + destruct (reqType r =? REQ_TYPE_NAND); cbn [andb]; [|apply wlp_ret; left; split; [done|by apply Settles_refl]].
      destruct (Z.eqb_spec (rowAddrDependencyCheck (reqOpt r)) REQ_OPT_ROW_ADDR_DEPENDENCY_CHECK).
      * by eapply update_table_spec.
      * apply wlp_ret. left. split; [done|by apply Settles_refl].
    + intros report s1 [[-> (Q1 & L1 & HI1 & HL1 & HQ1)]|[-> HP]]; [|done]. cbn [Z.eqb].
      eapply (wlp_put _ (OpPutToBlockedByBufDep tag)); [done|constructor|done|done|done|by apply HQ1|].
      intros x HI2 Hc. eapply Places_after; [done|done|]. by eapply Evolves_Places, Evolves_enter.
Qed.
End req_inv.
