(* ===== verification/WayLists.v ===== *)
(** The way lists of the scheduler (request_schedule.c).  Every way of a channel
    is on exactly one of seven lists, the list agrees with the state of the die,
    and the loops over the lists stop: whatever the flash controllers answer,
    a scheduling round keeps the lists and never walks in a circle. *)
From stdpp Require Import functions.
From S2P Require Import Prelude Frame Dll Config MemMap ReqFormat ReqQueues DataBuffer State HostLld Nsc.
From S2P Require Import HostTime CustomIo LowLevel Schedule FlashOrder ReqInv.

#[global] Instance way_links_ok : LinksOk way_links.
Proof. split; intros; cbn in *; try done; try reflexivity; apply wrap_small; unfold WAY_NONE in *; lia. Qed.

(** The state of the dies on a list. *)
Definition die_of (id : way_list_id) : Z :=
  match id with statusReportL | statusCheckL => DIE_STATE_EXE | _ => DIE_STATE_IDLE end.

Section ways.
Context `{ConfigOk} {W : Type} `{Device W} `{Fuel}.
Implicit Types (s : SSt) (V : way_list_id → list Z) (c w : Z) (x : option Z).

(** What the lists depend on: the links, and the states of the dies. *)
Definition links_view s :=
  (s_wayPriority s, (λ ways : gmap Z _, (λ n, (prevWay n, nextWay n)) <$> ways) <$> s_dieState s).
Definition die_view s := (λ ways : gmap Z _, dieState <$> ways) <$> s_dieState s.

(** The ways [V] are on the lists of channel [c]; a die's state fits its list,
    but that of [x] may be ahead of it. *)
Definition ChanOk c V x s : Prop :=
  ∃ ways e, s_dieState s !! c = Some ways ∧ s_wayPriority s !! c = Some e ∧ array USER_WAYS ways ∧
    family way_links ways (λ i, headWay (way_list_of i e)) (λ i, tailWay (way_list_of i e)) V ∧
    ∀ i w n, w ∈ V i → x ≠ Some w → ways !! w = Some n → dieState n = die_of i.

Definition Die c w d s : Prop :=
  ∃ ways n, s_dieState s !! c = Some ways ∧ ways !! w = Some n ∧ dieState n = d.

(** Nothing of the other channels changes. *)
Definition Others c s s' : Prop :=
  ∀ c', c' ≠ c → s_dieState s' !! c' = s_dieState s !! c' ∧ s_wayPriority s' !! c' = s_wayPriority s !! c'.

(** Every way is on a list. *)
Definition WaysOk s : Prop :=
  ∀ c, 0 ≤ c < USER_CHANNELS →
    ∃ V, ChanOk c V None s ∧ ∀ w, 0 ≤ w < USER_WAYS → ∃ i, w ∈ V i.

Lemma view_lookup {X Y} (f : X → Y) (m m' : gmap Z (gmap Z X)) c ways :
  (λ n : gmap Z X, f <$> n) <$> m' = (λ n : gmap Z X, f <$> n) <$> m → m !! c = Some ways →
  ∃ ways', m' !! c = Some ways' ∧ f <$> ways' = f <$> ways.
Proof.
  intros E Hc. pose proof (f_equal (.!! c) E) as Ec. cbn in Ec. rewrite !lookup_fmap, Hc in Ec.
  destruct (m' !! c) as [ways'|]; [|done]. exists ways'. split; [done|]. cbn in Ec. congruence.
Qed.

Lemma fmap_lookup_inv {X Y} (f : X → Y) (m m' : gmap Z X) w n :
  f <$> m' = f <$> m → m !! w = Some n → ∃ n', m' !! w = Some n' ∧ f n' = f n.
Proof.
  intros E Hw. pose proof (f_equal (.!! w) E) as Ew. cbn in Ew. rewrite !lookup_fmap, Hw in Ew.
  destruct (m' !! w) as [n'|]; [|done]. exists n'. split; [done|]. cbn in Ew. congruence.
Qed.

(** The lists depend on the links only. *)
Lemma family_links (ways ways' : gmap Z DIE_STATE_ENTRY) hd tl V :
  (λ n, (prevWay n, nextWay n)) <$> ways' = (λ n, (prevWay n, nextWay n)) <$> ways →
  family way_links ways hd tl V → family way_links ways' hd tl V.
Proof.
  intros E. apply family_map. intros i w n _ Hn. destruct (fmap_lookup_inv _ _ _ _ _ E Hn) as (n' & ? & [= E1 E2]).
  by exists n'.
Qed.

Lemma Die_view c w d s s' : die_view s' = die_view s → Die c w d s → Die c w d s'.
Proof.
  intros E (ways & n & Hc & Hw & Hd). destruct (view_lookup _ _ _ _ _ E Hc) as (ways' & Hc' & E').
  destruct (fmap_lookup_inv _ _ _ _ _ E' Hw) as (n' & Hw' & En). exists ways', n'. split_and!; congruence.
Qed.

Lemma ChanOk_view c V x s s' :
  links_view s' = links_view s → (∀ w d, x ≠ Some w → Die c w d s → Die c w d s') →
  ChanOk c V x s → ChanOk c V x s'.
Proof.
  intros [= Ep El] Hd (ways & e & Hc & He & Ha & Hf & Hs).
  destruct (view_lookup _ _ _ _ _ El Hc) as (ways' & Hc' & E').
  exists ways', e. split_and!; [done|congruence|by eapply array_fmap_eq|by eapply family_links|].
  intros i w n' Hw Hx Hn'. destruct (fmap_lookup_inv _ _ _ _ _ (eq_sym E') Hn') as (n & Hn & _).
  destruct (Hd w (dieState n) Hx) as (ways2 & n2 & Hc2 & Hn2 & Hd2); [by exists ways, n|].
  simplify_eq. rewrite Hd2. by eapply Hs.
Qed.

Lemma ChanOk_weaken c V x s : ChanOk c V None s → ChanOk c V x s.
Proof. intros (ways & e & ? & ? & ? & ? & Hs). exists ways, e. split_and!; try done. intros i w n Hw _. by apply Hs. Qed.

(** An unlisted way, or one whose die fits its list, is no exception. *)
Lemma ChanOk_settle c V w s :
  ChanOk c V (Some w) s → (∀ i, w ∈ V i → Die c w (die_of i) s) → ChanOk c V None s.
Proof.
  intros (ways & e & Hc & ? & ? & ? & Hs) Hw. exists ways, e. split_and!; try done.
  intros i w' n Hi _ Hn. destruct (decide (w' = w)) as [->|Hne]; [|eapply Hs; [done|congruence|done]].
  destruct (Hw i Hi) as (? & ? & ? & ? & ?). congruence.
Qed.

(** ** The list operations *)

Lemma family_ext (ways : gmap Z DIE_STATE_ENTRY) hd hd' tl tl' V :
  (∀ i, hd i = hd' i) → (∀ i, tl i = tl' i) →
  family way_links ways hd tl V → family way_links ways hd' tl' V.
Proof. intros Eh Et [Hd Hq]. split; [|done]. intros i. rewrite <- Eh, <- Et. apply Hd. Qed.

(** The two ends of a list are written as they are computed. *)
Lemma way_list_set id i (e : WAY_PRIORITY_ENTRY) (h t : Z) :
  let e' := fset (way_list_of id) (fset headWay h (way_list_of id e)) e in
  let e'' := fset (way_list_of id) (fset tailWay t (way_list_of id e')) e' in
  0 ≤ h ≤ WAY_NONE → 0 ≤ t ≤ WAY_NONE →
  way_list_of i e'' = if decide (id = i) then MkWAY_LIST h t else way_list_of i e.
Proof.
  intros e' e'' Hh Ht. subst e' e''. unfold WAY_NONE in *.
  assert (∀ l, fset tailWay t (fset headWay h l) = MkWAY_LIST h t) as E
    by (intros []; unfold fset, set_tailWay, set_headWay; by rewrite !wrap_small by lia).
  destruct id, i; first [reflexivity|apply E].
Qed.

Lemma way_relink_ok op id c V V' x s ways e ways' h t D :
  ChanOk c V x s → s_dieState s !! c = Some ways → s_wayPriority s !! c = Some e →
  op ways (headWay (way_list_of id e)) (tailWay (way_list_of id e)) = Some (ways', (h, t)) →
  family way_links ways' (<[id:=h]> (λ i, headWay (way_list_of i e)))
    (<[id:=t]> (λ i, tailWay (way_list_of i e))) V' →
  relinked way_links D ways ways' →
  (∀ i w, w ∈ V' i → w ∈ V i ∨ Die c w (die_of i) s) →
  wp (way_relink op id c) (λ _ s', ChanOk c V' x s' ∧ Others c s s' ∧ die_view s' = die_view s) s.
Proof.
  intros (ways0 & e0 & Hc & He & Ha & Hf & Hs) Hc' He' Hop Hf' Hr HV. unfold way_relink.
  rewrite Hc in Hc'. rewrite He in He'. injection Hc' as ->. injection He' as ->.
  apply wp_bind, (wp_load _ ways); [cbn; by rewrite Hc|].
  apply wp_bind, (wp_load _ (way_list_of id e)); [cbn; by rewrite He|].
  apply wp_bind, (wp_from_option _ (ways', (h, t))); [done|]. cbn [fst snd].
  pose proof (dll_ends _ _ _ _ _ (family_dll _ _ _ _ _ id Hf')) as [Hh Ht].
  rewrite fn_lookup_insert in Hh, Ht.
  apply wp_bind. eapply wp_store; [cbn; by rewrite Hc|]. cbn [dieStates glob poke].
  apply wp_bind. eapply wp_store; [cbn; by rewrite He|].
  eapply wp_store; [cbn; rewrite He; cbn; by rewrite lookup_insert_eq|].
  match goal with |- ChanOk _ _ _ ?s' ∧ _ =>
    assert (s_dieState s' = <[c:=ways']> (s_dieState s) ∧ ∃ e', s_wayPriority s' = <[c:=e']> (s_wayPriority s) ∧
      ∀ i, way_list_of i e' = if decide (id = i) then MkWAY_LIST h t else way_list_of i e) as (Ed & e' & Ep & El);
      [|set (sf := s') in *; clearbody sf]
  end.
  { cbn. rewrite He. cbn. rewrite lookup_insert_eq. cbn. rewrite insert_insert_eq.
    split; [done|]. eexists. split; [done|]. intros i. by apply way_list_set. }
  split_and!.
  - exists ways', e'. rewrite Ed, Ep, !lookup_insert_eq. split_and!; [done|done|by eapply relinked_array|..].
    + eapply family_ext; [..|exact Hf']; intros i; rewrite El;
        (case_decide as E; [subst; by rewrite fn_lookup_insert|by rewrite fn_lookup_insert_ne]).
    + intros i w n Hw Hx Hn. destruct (relinked_lookup_inv _ _ _ _ _ _ Hr Hn) as (n0 & Hn0 & Hp).
      assert (dieState n = dieState n0) as ->.
      { apply (f_equal dieState) in Hp. exact Hp. }
      destruct (HV i w Hw) as [Hw'|(ways0 & n1 & ? & ? & ?)]; [by eapply Hs|congruence].
  - intros c' Hne. rewrite Ed, Ep. by rewrite !lookup_insert_ne by done.
  - unfold die_view. rewrite Ed, fmap_insert. apply insert_id. rewrite lookup_fmap, Hc. cbn. f_equal.
    apply map_eq. intros w. rewrite !lookup_fmap. destruct Hr as [Hp _].
    pose proof (f_equal (.!! w) Hp) as Hw. cbn in Hw. rewrite !lookup_fmap in Hw.
    destruct (ways' !! w) as [n'|], (ways !! w) as [n|]; try done. cbn in *. f_equal.
    injection Hw. congruence.
Qed.

Lemma way_put_ok id c w V x s :
  ChanOk c V x s → (∀ i, w ∉ V i) → Die c w (die_of id) s →
  wp (way_put id c w)
    (λ _ s', ChanOk c (<[id := V id ++ [w]]> V) x s' ∧ Others c s s' ∧ die_view s' = die_view s) s.
Proof.
  intros HC Hw HD. pose proof HC as (ways & e & Hc & He & Ha & Hf & Hs).
  destruct HD as (ways0 & n & Hc' & Hn & Hd). rewrite Hc in Hc'. injection Hc' as <-.
  pose proof (array_range _ _ _ _ Ha Hn). pose proof cfg_ways. 
  destruct (family_put _ _ _ _ _ id w Hf Hw) as (ways' & h & t & Hop & Hf' & Hr);
    [cbn; unfold WAY_NONE, NSC_MAX_WAYS in *; lia|eauto|].
  eapply way_relink_ok; try done. intros i w' Hw'. destruct (decide (id = i)) as [<-|Hne].
  - rewrite fn_lookup_insert in Hw'. apply elem_of_app in Hw' as [?| ->%list_elem_of_singleton]; [by left|].
    right. by exists ways, n.
  - rewrite fn_lookup_insert_ne in Hw' by done. by left.
Qed.

Lemma way_get_ok id c w V x s l1 l2 :
  ChanOk c V x s → V id = l1 ++ w :: l2 →
  wp (way_get id c w)
    (λ _ s', ChanOk c (<[id := l1 ++ l2]> V) x s' ∧ Others c s s' ∧ die_view s' = die_view s) s.
Proof.
  intros HC HV. pose proof HC as (ways & e & Hc & He & Ha & Hf & Hs).
  destruct (family_get _ _ _ _ _ id _ _ _ Hf HV) as (ways' & h & t & Hop & Hf' & Hr).
  eapply way_relink_ok; try done. intros i w' Hw'. left. destruct (decide (id = i)) as [<-|Hne].
  - rewrite fn_lookup_insert in Hw'. rewrite HV. set_solver.
  - by rewrite fn_lookup_insert_ne in Hw'.
Qed.
End ways.

(** ** The operations of the scheduler on the dies *)

Section dies.
Context `{ConfigOk} {W : Type} `{Device W} `{Fuel}.
Implicit Types (s : RSt W) (V : way_list_id → list Z) (c w : Z).

(** All but the state of die [w] of channel [c]. *)
Definition beside c w s :=
  (links_view (r_sched s), delete c (s_dieState (r_sched s)),
   (λ ways : gmap Z _, dieState <$> delete w ways) <$> s_dieState (r_sched s) !! c).

Lemma beside_Others c w s s' : beside c w s' = beside c w s → Others c (r_sched s) (r_sched s').
Proof.
  intros [= Ep _ Ed _] c' Hc. split; [|by rewrite Ep].
  pose proof (f_equal (.!! c') Ed) as E. cbn in E. by rewrite !lookup_delete_ne in E.
Qed.

Lemma beside_Die c w w' d s s' :
  beside c w s' = beside c w s → w' ≠ w → Die c w' d (r_sched s) → Die c w' d (r_sched s').
Proof.
  intros [= _ _ _ E] Hne (ways & n & Hc & Hn & Hd). rewrite Hc in E.
  destruct (s_dieState (r_sched s') !! c) as [ways'|] eqn:Hc'; [|done]. cbn in E.
  injection E as E. pose proof (f_equal (.!! w') E) as E'. cbn in E'.
  rewrite !lookup_fmap, !lookup_delete_ne, Hn in E' by done.
  destruct (ways' !! w') as [n'|] eqn:Hn'; [|done]. injection E' as E'. exists ways', n'. split_and!; congruence.
Qed.

Lemma beside_ChanOk c w V s s' :
  beside c w s' = beside c w s → ChanOk c V None (r_sched s) → ChanOk c V (Some w) (r_sched s').
Proof.
  intros E HC. eapply ChanOk_view; [exact (f_equal (λ v, v.1.1) E)|..|by apply ChanOk_weaken].
  intros w' d Hne. eapply beside_Die; [done|congruence].
Qed.

Lemma beside_store c w (f : DIE_STATE_ENTRY → Z) `{!Field f} :
  (∀ v n, prevWay (fset f v n) = prevWay n) → (∀ v n, nextWay (fset f v n) = nextWay n) →
  LKeeps (beside c w) (rDieState.[c].[w]∙f).
Proof.
  intros Hp Hn v s. cbn. destruct (s_dieState (r_sched s) !! c) as [ways|] eqn:Hc; [|done]. cbn.
  destruct (ways !! w) as [n|] eqn:Hw; [|done]. unfold beside, links_view. cbn.
  rewrite lookup_insert_eq, Hc, delete_insert_eq. cbn. rewrite delete_insert_eq, fmap_insert. do 3 f_equal.
  apply insert_id. rewrite lookup_fmap, Hc. cbn. f_equal. rewrite fmap_insert, Hp, Hn. symmetry.
  apply insert_id. by rewrite lookup_fmap, Hw.
Qed.
Lemma beside_opt c w : LKeeps (beside c w) (rDieState.[c].[w]∙reqStatusCheckOpt).
Proof. by apply beside_store. Qed.
Lemma beside_die c w : LKeeps (beside c w) (rDieState.[c].[w]∙dieState).
Proof. by apply beside_store. Qed.

Lemma die_view_opt c w : LKeeps (λ s, die_view (r_sched s)) (rDieState.[c].[w]∙reqStatusCheckOpt).
Proof.
  intros v s. cbn. destruct (s_dieState (r_sched s) !! c) as [ways|] eqn:Hc; [|done]. cbn.
  destruct (ways !! w) as [n|] eqn:Hw; [|done]. unfold die_view. cbn. rewrite fmap_insert.
  apply insert_id. rewrite lookup_fmap, Hc. cbn. f_equal. rewrite fmap_insert. symmetry.
  apply insert_id. by rewrite lookup_fmap, Hw.
Qed.
#[local] Hint Resolve beside_opt beside_die die_view_opt : keeps.

Lemma beside_ExecuteNandReq c w st : Keeps (beside c w) (ExecuteNandReq (W:=W) c w st).
Proof. keeps_deep. Qed.
Lemma beside_CheckReqStatus c w : Keeps (beside c w) (CheckReqStatus (W:=W) c w).
Proof. keeps_deep. Qed.
Lemma die_view_CheckReqStatus c w : Keeps (λ s, die_view (r_sched s)) (CheckReqStatus (W:=W) c w).
Proof. keeps_deep. Qed.
Lemma sched_next_request c w : Keeps r_sched (next_request (W:=W) c w).
Proof. keeps_deep. Qed.

(** What the die is doing after an execution. *)
Definition Executes c w st s s' : Prop :=
  (Die c w DIE_STATE_IDLE (r_sched s) → Die c w DIE_STATE_EXE (r_sched s')) ∧
  (st ≠ REQ_STATUS_RUNNING → Die c w DIE_STATE_EXE (r_sched s) → Die c w DIE_STATE_IDLE (r_sched s')).

Lemma wlp_set_die c w d s :
  0 ≤ d < 256 → wlp (rDieState.[c].[w]∙dieState ::= d) (λ _ s', Die c w d (r_sched s')) s.
Proof.
  intros Hd. apply wlp_store. intros old. cbn.
  destruct (s_dieState (r_sched s) !! c) as [ways|] eqn:Hc; [|done]. cbn.
  destruct (ways !! w) as [n|] eqn:Hw; [|done]. intros _. cbn.
  exists (<[w:=fset dieState d n]> ways), (fset dieState d n). cbn.
  rewrite !lookup_insert_eq. split_and!; [done|done|]. by apply wrap_small.
Qed.

(** Whatever is done first. *)
Lemma wlp_then {A B} (m : M (RSt W) A) (k : A → M (RSt W) B) (Φ : B → RSt W → Prop) s :
  (∀ a s', wlp (k a) Φ s') → wlp (bind m k) Φ s.
Proof. intros Hk. apply wlp_bind. unfold wlp at 1. by destruct (m s). Qed.

Lemma finish_req_die c w s : wlp (finish_req c w) (λ _ s', Die c w DIE_STATE_IDLE (r_sched s')) s.
Proof. do 2 (apply wlp_then; intros ? ?). by apply wlp_set_die. Qed.

Lemma ExecuteNandReq_die c w st s : wlp (ExecuteNandReq c w st) (λ _ s', Executes c w st s s') s.
Proof.
  assert (∀ d d', Die c w d (r_sched s) → Die c w d' (r_sched s) → d = d') as Hdie
    by (intros d d' (? & ? & ? & ? & ?) (? & ? & ? & ? & ?); congruence).
  unfold ExecuteNandReq. apply wlp_bind, wlp_load. intros t _. apply wlp_bind, wlp_load. intros d Hd.
  assert (Die c w d (r_sched s)) as HD.
  { cbn in Hd. destruct (s_dieState (r_sched s) !! c) as [ways|] eqn:Hc; [|done]. cbn in Hd.
    destruct (ways !! w) as [n|] eqn:Hw; [|done]. injection Hd as <-. by exists ways, n. }
  destruct (Z.eqb_spec d DIE_STATE_IDLE) as [->|Hd0].
  { apply (wlp_mono _ (λ _ s', Die c w DIE_STATE_EXE (r_sched s'))); [apply wlp_then; intros; by apply wlp_set_die|]. intros _ s' HD'. split; [done|]. intros _ HE.
    by pose proof (Hdie _ _ HE HD). }
  assert (∀ s', (st ≠ REQ_STATUS_RUNNING → Die c w DIE_STATE_IDLE (r_sched s')) → Executes c w st s s') as Hdone
    by (intros s' Hs'; split; [intros HI; by pose proof (Hdie _ _ HD HI)|auto]).
  apply wlp_when; intros Hd1; cycle 1.
  { split; intros; exfalso; [by pose proof (Hdie _ _ HD ltac:(done))|].
    apply Z.eqb_neq in Hd1. by pose proof (Hdie _ _ HD ltac:(done)). }
  apply wlp_bind, wlp_load. intros r _. destruct (st =? REQ_STATUS_DONE).
  { destruct (reqCode r =? REQ_CODE_READ); (apply (wlp_mono _ (λ _ s', Die c w DIE_STATE_IDLE (r_sched s'))); [first [apply finish_req_die|apply wlp_then; intros; by apply wlp_set_die]|auto]). }
  destruct (st =? REQ_STATUS_FAIL).
  { apply wlp_bind, wlp_load. intros limit _. destruct (_ && _).
    - apply (wlp_mono _ (λ _ s', Die c w DIE_STATE_IDLE (r_sched s'))); [|auto]. repeat (apply wlp_then; intros ? ?). by apply wlp_set_die.
    - apply (wlp_mono _ (λ _ s', Die c w DIE_STATE_IDLE (r_sched s'))); [|auto]. do 3 (apply wlp_then; intros ? ?). by apply finish_req_die. }
  destruct (st =? REQ_STATUS_WARNING).
  { apply (wlp_mono _ (λ _ s', Die c w DIE_STATE_IDLE (r_sched s'))); [|auto]. do 2 (apply wlp_then; intros ? ?). by apply finish_req_die. }
  destruct (Z.eqb_spec st REQ_STATUS_RUNNING); [|done]. apply wlp_ret. by apply Hdone.
Qed.
End dies.

(** ** The loops of a scheduling round *)

Section round.
Context `{ConfigOk} {W : Type} `{Device W} `{Fuel}.
Implicit Types (s : RSt W) (V : way_list_id → list Z) (c w : Z) (i j : way_list_id).

(** Every way of the channel is on a list; all but [w] are. *)
Definition Listed c V s : Prop :=
  ChanOk c V None (r_sched s) ∧ ∀ w, 0 ≤ w < USER_WAYS → ∃ i, w ∈ V i.
Definition Loose c w V s : Prop :=
  ChanOk c V None (r_sched s) ∧ (∀ i, w ∉ V i) ∧ ∀ w', 0 ≤ w' < USER_WAYS → w' = w ∨ ∃ i, w' ∈ V i.

(** The rounds are correct for any invariant [J] of the requests, and fail only
    with the errors [E], if the operations on requests do. *)
Context (E : error → Prop) (J : RSt W → Prop).
Context (E_bounds : E Bounds) (E_assert : E Assert).
Context (J_sched : ∀ v s, J s → J (fset r_sched v s)).
Context (J_next : ∀ c w s, J s → wpe (next_request c w) (λ _ s', J s') E s).
Context (J_execute : ∀ c w st s, J s → wpe (ExecuteNandReq c w st) (λ _ s', J s') E s).
Context (J_status : ∀ c w s, J s → wpe (CheckReqStatus c w) (λ _ s', J s') E s).
Context (J_busy : ∀ c s, J s → wpe (busy c) (λ _ s', J s') E s).
Context (J_ready : ∀ dev s, J s → wpe (devM (V2FReadyBusyAsync dev)) (λ _ s', J s') E s).

Lemma Others_refl c (s : SSt) : Others c s s.
Proof. done. Qed.
Lemma Others_trans c (s1 s2 s3 : SSt) : Others c s1 s2 → Others c s2 s3 → Others c s1 s3.
Proof. intros H12 H23 c' Hc. destruct (H12 c' Hc), (H23 c' Hc). split; congruence. Qed.

(** An operation on requests that keeps the tables of the scheduler. *)
Lemma wpe_keeping {A T} (g : RSt W → T) (m : M (RSt W) A) s :
  Keeps g m → wpe m (λ _ s', J s') E s → wpe m (λ _ s', g s' = g s ∧ J s') E s.
Proof. intros Hk Hm. apply wlp_wpe; [apply Hk|done]. Qed.

Lemma execute_ok c w st V s :
  J s → Listed c V s →
  wpe (ExecuteNandReq c w st)
    (λ _ s', J s' ∧ Others c (r_sched s) (r_sched s') ∧ ChanOk c V (Some w) (r_sched s') ∧
             Executes c w st s s') E s.
Proof.
  intros HJ [HC _]. eapply wpe_mono.
  { apply wlp_wpe; [apply ExecuteNandReq_die|].
    apply (wpe_keeping (beside c w)); [apply beside_ExecuteNandReq|by apply J_execute]. }
  cbn beta. intros _ s' (HX & Eb & HJ'). split_and!; [done|by eapply beside_Others|by eapply beside_ChanOk|done].
Qed.

Lemma remove_ok i c w V l1 l2 s :
  J s → ChanOk c V (Some w) (r_sched s) → (∀ w, 0 ≤ w < USER_WAYS → ∃ i, w ∈ V i) → V i = l1 ++ w :: l2 →
  wpe (sM (way_get i c w))
    (λ _ s', J s' ∧ Others c (r_sched s) (r_sched s') ∧ Loose c w (<[i := l1 ++ l2]> V) s' ∧
             die_view (r_sched s') = die_view (r_sched s)) E s.
Proof.
  intros HJ HC Hall HV. apply wp_wpe, wp_zoom. eapply wp_mono; [by eapply way_get_ok|]. cbn beta.
  intros _ s' (HC' & HO & Hd). change (r_sched (fset r_sched s' s)) with s'.
  assert (∀ j, w ∉ (<[i:=l1 ++ l2]> V) j) as Hno.
  { destruct HC as (? & ? & _ & _ & _ & [Hdll Hdis] & _). intros j. destruct (decide (i = j)) as [<-|Hne].
    - rewrite fn_lookup_insert. pose proof (Hdll i) as (_ & _ & _ & Hnd & _). rewrite HV in Hnd.
      apply NoDup_app in Hnd as (_ & Hl1 & [Hl2 _]%NoDup_cons). set_solver.
    - rewrite fn_lookup_insert_ne by done. intros Hw. apply Hne. eapply (Hdis i j w); [rewrite HV; set_solver|done]. }
  split_and!; [by apply J_sched|done|split_and!|done].
  - eapply ChanOk_settle; [done|]. intros j Hj. by destruct (Hno j).
  - done.
  - intros w' Hw'. destruct (Hall w' Hw') as [j Hj]. destruct (decide (w' = w)) as [->|Hne]; [by left|right].
    exists j. destruct (decide (i = j)) as [<-|Hij]; [rewrite fn_lookup_insert|by rewrite fn_lookup_insert_ne].
    rewrite HV in Hj. set_solver.
Qed.

Lemma insert_ok j c w V s :
  J s → Loose c w V s → Die c w (die_of j) (r_sched s) →
  wpe (sM (way_put j c w))
    (λ _ s', J s' ∧ Others c (r_sched s) (r_sched s') ∧ Listed c (<[j := V j ++ [w]]> V) s') E s.
Proof.
  intros HJ (HC & Hno & Hall) HD. apply wp_wpe, wp_zoom. eapply wp_mono; [by eapply way_put_ok|]. cbn beta.
  intros _ s' (HC' & HO & _). change (r_sched (fset r_sched s' s)) with s'.
  split_and!; [by apply J_sched|done|split; [done|]]. intros w' Hw'.
  destruct (Hall w' Hw') as [->|[i Hi]]; [exists j; rewrite fn_lookup_insert; set_solver|].
  exists i. destruct (decide (j = i)) as [<-|Hij]; [rewrite fn_lookup_insert; set_solver|by rewrite fn_lookup_insert_ne].
Qed.

(** ** Walking over a list *)

Lemma next_way c i w V x pre rest s :
  ChanOk c V x (r_sched s) → V i = pre ++ w :: rest →
  peek (rDieState.[c].[w]∙nextWay) s = Some (hdz WAY_NONE rest).
Proof.
  intros (ways & e & Hc & _ & _ & Hf & _) HV. pose proof (family_dll _ _ _ _ _ i Hf) as Hd. rewrite HV in Hd.
  destruct (dll_split _ _ _ _ _ _ _ Hd) as (n & Hn & _ & Hx & _). cbn. rewrite Hc. cbn. rewrite Hn. cbn. by f_equal.
Qed.

Lemma first_way c i V x s :
  ChanOk c V x (r_sched s) →
  peek (rWayPriority.[c]∙(way_list_of i)∙headWay) s = Some (hdz WAY_NONE (V i)).
Proof.
  intros (ways & e & _ & He & _ & Hf & _). destruct (family_dll _ _ _ _ _ i Hf) as (Hh & _).
  cbn. rewrite He. cbn. by f_equal.
Qed.

Lemma list_length c i V x s : ChanOk c V x (r_sched s) → (length (V i) < way_fuel)%nat.
Proof.
  intros (ways & e & _ & _ & Ha & Hf & _). destruct (family_dll _ _ _ _ _ i Hf) as (_ & _ & _ & Hnd & _).
  unfold way_fuel. enough (V i ⊆+ seqZ 0 USER_WAYS) as Hl%submseteq_length by (rewrite length_seqZ in Hl; lia).
  apply NoDup_submseteq; [done|]. intros w Hw. apply elem_of_seqZ.
  destruct (family_lookup _ _ _ _ _ _ _ Hf Hw) as [n Hn]. pose proof (array_range _ _ _ _ Ha Hn). lia.
Qed.

(** The walk is at the way [w] of list [i] with [n] ways to go. *)
Definition At i V (n : nat) w : Prop :=
  ∃ pre rest, V i = pre ++ rest ∧ w = hdz WAY_NONE rest ∧ n = length rest.

Lemma At_way c i V n w x s :
  ChanOk c V x (r_sched s) → At i V n w → w ≠ WAY_NONE →
  ∃ pre rest, V i = pre ++ w :: rest ∧ n = Datatypes.S (length rest) ∧ 0 ≤ w < USER_WAYS.
Proof.
  intros (ways & e & _ & _ & Ha & Hf & _) (pre & [|w' rest] & HV & Hw & Hn) Hne; [done|]. cbn in Hw, Hn. subst w'.
  destruct (family_lookup _ _ _ _ _ i w Hf) as [n' Hn']; [rewrite HV; set_solver|].
  pose proof (array_range _ _ _ _ Ha Hn'). by exists pre, rest.
Qed.

(** What a part of the round has done to the tables. *)
Definition Done c s0 s : Prop := J s ∧ Others c (r_sched s0) (r_sched s) ∧ ∃ V, Listed c V s.
Definition Walking c i s0 n w s : Prop :=
  J s ∧ Others c (r_sched s0) (r_sched s) ∧ ∃ V, Listed c V s ∧ At i V n w.

Lemma Walking_start c i V s : J s → Listed c V s → Walking c i s (length (V i)) (hdz WAY_NONE (V i)) s.
Proof. intros HJ HL. split_and!; [done|done|]. exists V. split; [done|]. by exists [], (V i). Qed.
Lemma Walking_done c i s0 n w s : Walking c i s0 n w s → Done c s0 s.
Proof. intros (? & ? & V & ? & _). split_and!; eauto. Qed.

Lemma Listed_sched c V s s' : r_sched s' = r_sched s → Listed c V s → Listed c V s'.
Proof. unfold Listed. by intros ->. Qed.
Lemma Loose_sched c w V s s' : r_sched s' = r_sched s → Loose c w V s → Loose c w V s'.
Proof. unfold Loose. by intros ->. Qed.
Lemma Others_sched c s0 s s' :
  r_sched s' = r_sched s → Others c (r_sched s0) (r_sched s) → Others c (r_sched s0) (r_sched s').
Proof. by intros ->. Qed.

(** The way went from list [i] to list [j]; the walk goes on behind it. *)
Lemma Walking_moved c i j w V pre rest s0 s s' :
  i ≠ j → Others c (r_sched s0) (r_sched s) → J s' → Others c (r_sched s) (r_sched s') →
  Listed c (<[j := (<[i := pre ++ rest]> V) j ++ [w]]> (<[i := pre ++ rest]> V)) s' →
  Walking c i s0 (length rest) (hdz WAY_NONE rest) s'.
Proof.
  intros Hij HO HJ HO' HL. split_and!; [done|by eapply Others_trans|]. eexists. split; [done|]. exists pre, rest.
  by rewrite fn_lookup_insert_ne, fn_lookup_insert.
Qed.

Lemma Walking_stay c i w V pre rest s0 s :
  J s → Others c (r_sched s0) (r_sched s) → Listed c V s → V i = pre ++ w :: rest →
  Walking c i s0 (length rest) (hdz WAY_NONE rest) s.
Proof.
  intros HJ HO HL HV. split_and!; [done..|]. exists V. split; [done|]. exists (pre ++ [w]), rest.
  by rewrite <- app_assoc.
Qed.

Lemma list_of_code_waits code id : list_of_code code = Some id → die_of id = DIE_STATE_IDLE ∧ id ≠ idleL.
Proof. unfold list_of_code. repeat case_match; naive_solver. Qed.

Lemma priority_ok req c w V s :
  J s → Loose c w V s → Die c w DIE_STATE_IDLE (r_sched s) →
  wpe (PutToNandWayPriorityTable req c w)
    (λ _ s', ∃ id, die_of id = DIE_STATE_IDLE ∧ id ≠ idleL ∧ J s' ∧ Others c (r_sched s) (r_sched s') ∧
             Listed c (<[id := V id ++ [w]]> V) s') E s.
Proof.
  intros HJ HL HD. unfold PutToNandWayPriorityTable. apply wpe_bind, wpe_load; [done|]. intros code _.
  destruct (list_of_code code) as [id|] eqn:Hid; [|done]. destruct (list_of_code_waits _ _ Hid) as [Hdie Hne].
  apply wpe_bind, wpe_ret. eapply wpe_mono; [apply insert_ok; [done|done|by rewrite Hdie]|].
  cbn beta. intros _ s' (? & ? & ?). by exists id.
Qed.

Lemma Listed_Die c i w V s : Listed c V s → w ∈ V i → Die c w (die_of i) (r_sched s).
Proof.
  intros [(ways & e & Hc & _ & _ & Hf & Hs) _] Hw. destruct (family_lookup _ _ _ _ _ _ _ Hf Hw) as [n Hn].
  exists ways, n. split_and!; [done|done|by eapply Hs].
Qed.

Lemma idle_ok c V s :
  J s → Listed c V s → wpe (schedule_idle c) (λ _ s', Done c s s') E s.
Proof.
  intros HJ HL. unfold schedule_idle. apply wpe_bind, wp_wpe. eapply wp_load; [eapply (first_way c idleL), HL|].
  apply (wpe_rounds _ (λ n x s', Walking c idleL s n x.1 s')) with (length (V idleL));
    [by eapply list_length, HL|by apply Walking_start|].
  clear V HL HJ. intros n [w cnt] s1 HW. cbn [fst] in HW. destruct (Z.eqb_spec w WAY_NONE) as [|Hne].
  { apply wpe_ret. by eapply Walking_done. }
  destruct HW as (HJ & HO & V & HL & HA). destruct (At_way _ _ _ _ _ _ _ (proj1 HL) HA Hne) as (pre & rest & HV & -> & Hw).
  assert (Die c w DIE_STATE_IDLE (r_sched s1)) as HD by (apply (Listed_Die c idleL w V s1 HL); rewrite HV; set_solver).
  apply wpe_bind. eapply wpe_mono; [by apply (wpe_keeping r_sched); [apply sched_next_request|apply J_next]|].
  cbn beta. intros req s2 [Es HJ2]. rewrite <- Es in HD. apply (Others_sched _ _ _ _ Es) in HO.
  apply (Listed_sched _ _ _ _ Es) in HL.
  apply wpe_bind, wp_wpe. eapply wp_load; [by eapply next_way; [apply HL|]|]. case_match.
  - apply wpe_bind. eapply wpe_mono; [eapply (remove_ok idleL); [done|by apply ChanOk_weaken, HL|apply HL|done]|].
    cbn beta. intros _ s3 (HJ3 & HO3 & HL3 & Hd3). apply wpe_bind.
    eapply wpe_mono; [apply priority_ok; [done|done|by eapply Die_view]|]. cbn beta.
    intros _ s4 (id & _ & Hid & HJ4 & HO4 & HL4). apply wpe_ret. exists (length rest). split; [lia|].
    eapply Walking_moved; [by apply not_eq_sym| |done|exact HO4|done]. by eapply Others_trans.
  - apply wpe_ret. exists (length rest). split; [lia|]. by eapply Walking_stay.
Qed.

Lemma status_ok c w V s :
  J s → Listed c V s →
  wpe (CheckReqStatus c w) (λ _ s', J s' ∧ Others c (r_sched s) (r_sched s') ∧ Listed c V s') E s.
Proof.
  intros HJ [HC Hall]. eapply wpe_mono.
  { apply wlp_wpe; [apply (beside_CheckReqStatus c w)|].
    apply (wpe_keeping (λ s, die_view (r_sched s))); [apply die_view_CheckReqStatus|by apply J_status]. }
  cbn beta. intros _ s' (Eb & Ed & HJ'). split_and!; [done|by eapply beside_Others|]. split; [|done].
  eapply ChanOk_view; [exact (f_equal (λ v, v.1.1) Eb)| |done]. intros w' d _. by apply Die_view.
Qed.

Lemma keeps_ready dev : Keeps r_sched (devM (W:=W) (V2FReadyBusyAsync dev)).
Proof. apply keeps_zoom_other. by intros. Qed.
Lemma keeps_busy c : Keeps r_sched (busy (W:=W) c).
Proof. unfold busy. keeps_deep. Qed.

(** A way with a result: its request is done or goes on, and so does the way. *)
Lemma result_ok c w st V pre rest s0 s cnt :
  J s → Others c (r_sched s0) (r_sched s) → Listed c V s → V statusReportL = pre ++ w :: rest →
  st ≠ REQ_STATUS_RUNNING →
  wpe (ExecuteNandReq c w st ;;
       next <- !(rDieState.[c].[w]∙nextWay) ;;
       sM (SelectivGetFromNandStatusReportList c w) ;;
       req <- next_request c w ;;
       if negb (req =? REQ_SLOT_TAG_NONE) then
         PutToNandWayPriorityTable req c w ;; ret (inl (next, cnt))
       else sM (PutToNandIdleList c w) ;; ret (inl (next, cnt + 1)))
    (λ (r : Z * Z + Z) s', match r with
       | inl x => ∃ m, (m < Datatypes.S (length rest))%nat ∧ Walking c statusReportL s0 m x.1 s'
       | inr _ => False end) E s.
Proof.
  intros HJ HO HL HV Hst.
  assert (Die c w DIE_STATE_EXE (r_sched s)) as HD by (apply (Listed_Die c statusReportL w V s HL); rewrite HV; set_solver).
  apply wpe_bind. eapply wpe_mono; [by apply execute_ok|]. cbn beta. intros _ s1 (HJ1 & HO1 & HC1 & _ & HX).
  specialize (HX Hst HD). apply wpe_bind, wp_wpe. eapply wp_load; [by eapply next_way|].
  apply wpe_bind. eapply wpe_mono; [eapply (remove_ok statusReportL); [done|done|apply HL|done]|].
  cbn beta. intros _ s2 (HJ2 & HO2 & HL2 & Hd2). apply (Die_view _ _ _ _ _ Hd2) in HX.
  apply wpe_bind. eapply wpe_mono; [by apply (wpe_keeping r_sched); [apply sched_next_request|apply J_next]|].
  cbn beta. intros req s3 [Es HJ3]. rewrite <- Es in HX. apply (Others_sched _ _ _ _ Es) in HO2.
  apply (Loose_sched _ _ _ _ _ Es) in HL2.
  assert (Others c (r_sched s0) (r_sched s3)) as HO3 by (eapply Others_trans; [done|by eapply Others_trans]).
  case_match; (apply wpe_bind; eapply wpe_mono; [first [by apply priority_ok|by apply (insert_ok idleL)]|]); cbn beta.
  - intros _ s4 (id & Hid & _ & HJ4 & HO4 & HL4). apply wpe_ret. exists (length rest). split; [lia|].
    eapply Walking_moved; [intros Eid; by rewrite <- Eid in Hid|exact HO3|done|done|done].
  - intros _ s4 (HJ4 & HO4 & HL4). apply wpe_ret. exists (length rest). split; [lia|].
    eapply (Walking_moved c statusReportL idleL); [done|exact HO3|done|done|done].
Qed.

Lemma status_report_ok c V cnt s :
  J s → Listed c V s → wpe (schedule_status_report c cnt) (λ _ s', Done c s s') E s.
Proof.
  intros HJ HL. unfold schedule_status_report. apply wpe_bind, wp_wpe.
  eapply wp_load; [eapply (first_way c statusReportL), HL|]. case_match eqn:Hhd; [apply wpe_ret; split_and!; by eauto|].
  apply wpe_bind, wpe_load; [done|]. intros dev _. apply wpe_bind.
  eapply wpe_mono; [by apply (wpe_keeping r_sched); [apply keeps_ready|apply J_ready]|].
  cbn beta. intros readyBusy s' [Es HJ']. apply (Listed_sched _ _ _ _ Es) in HL.
  apply (wpe_rounds _ (λ n x s', Walking c statusReportL s n x.1 s')) with (length (V statusReportL));
    [by eapply list_length, HL|unfold Walking; rewrite <- Es; by apply Walking_start|].
  clear Hhd V HL HJ HJ' Es s'. intros n [w cnt'] s1 HW. cbn [fst] in HW. destruct (Z.eqb_spec w WAY_NONE) as [|Hne].
  { apply wpe_ret. by eapply Walking_done. }
  destruct HW as (HJ & HO & V & HL & HA). destruct (At_way _ _ _ _ _ _ _ (proj1 HL) HA Hne) as (pre & rest & HV & -> & Hw).
  case_match; cycle 1.
  { apply wpe_bind, wp_wpe. eapply wp_load; [by eapply next_way; [apply HL|]|]. apply wpe_ret.
    exists (length rest). split; [lia|]. by eapply Walking_stay. }
  apply wpe_bind. eapply wpe_mono; [by apply status_ok|]. cbn beta. intros st s2 (HJ2 & HO2 & HL2).
  assert (Others c (r_sched s) (r_sched s2)) as HO' by by eapply Others_trans.
  destruct (Z.eqb_spec st REQ_STATUS_RUNNING) as [|Hst]; cbn [negb]; cycle 1.
  { eapply wpe_mono; [by eapply result_ok|]. by intros [[]|]. }
  apply wpe_bind, wpe_load; [done|]. intros opt _.
  apply wpe_bind, wp_wpe. eapply wp_load; [by eapply next_way; [apply HL2|]|]. case_match; cycle 1.
  { apply wpe_ret. exists (length rest). split; [lia|]. by eapply Walking_stay. }
  assert (Die c w DIE_STATE_EXE (r_sched s2)) as HD by (apply (Listed_Die c statusReportL w V s2 HL2); rewrite HV; set_solver).
  apply wpe_bind. eapply wpe_mono; [eapply (remove_ok statusReportL); [done|by apply ChanOk_weaken, HL2|apply HL2|done]|].
  cbn beta. intros _ s3 (HJ3 & HO3 & HL3 & Hd3). apply wpe_bind.
  eapply wpe_mono; [apply (insert_ok statusCheckL); [done|done|by eapply Die_view]|].
  cbn beta. intros _ s4 (HJ4 & HO4 & HL4). apply wpe_ret. exists (length rest). split; [lia|].
  eapply (Walking_moved c statusReportL statusCheckL); [done| |done|exact HO4|done]. by eapply Others_trans.
Qed.

(** After the last way moved, the code reads the end of the list it moved to. *)
Lemma moved_is_last c j w V s :
  Listed c (<[j := V j ++ [w]]> V) s → peek (rDieState.[c].[w]∙nextWay) s = Some WAY_NONE.
Proof. intros [HC _]. apply (next_way c j w _ None (V j) []) in HC; [done|]. by rewrite fn_lookup_insert. Qed.

(** Move a way from list [i] to list [j], and go on unless the controller is busy. *)
Lemma advance_ok i j c w V pre rest s0 s :
  J s → Others c (r_sched s0) (r_sched s) → ChanOk c V (Some w) (r_sched s) →
  (∀ w, 0 ≤ w < USER_WAYS → ∃ i, w ∈ V i) → V i = pre ++ w :: rest → Die c w (die_of j) (r_sched s) →
  wpe (sM (way_get i c w) ;; sM (way_put j c w) ;; busy c)
    (λ b s', ∃ V', J s' ∧ Others c (r_sched s0) (r_sched s') ∧ Listed c V' s' ∧
             At j V' 0 WAY_NONE ∧ peek (rDieState.[c].[w]∙nextWay) s' = Some WAY_NONE) E s.
Proof.
  intros HJ HO HC Hall HV HD. apply wpe_bind. eapply wpe_mono; [by eapply (remove_ok i)|].
  cbn beta. intros _ s1 (HJ1 & HO1 & HL1 & Hd1). apply wpe_bind.
  eapply wpe_mono; [apply (insert_ok j); [done|done|by eapply Die_view]|].
  cbn beta. intros _ s2 (HJ2 & HO2 & HL2).
  eapply wpe_mono; [by apply (wpe_keeping r_sched); [apply keeps_busy|apply J_busy]|].
  cbn beta. intros b s3 [Es HJ3]. apply (Listed_sched _ _ _ _ Es) in HL2. eexists. split_and!; [done| |exact HL2| |].
  - rewrite Es. eapply Others_trans; [done|by eapply Others_trans].
  - eexists _, []. split_and!; [|done|done]. rewrite fn_lookup_insert. by rewrite app_nil_r.
  - by eapply moved_is_last.
Qed.

(** The walk of [i], until a way was moved to [j]. *)
Definition Advancing c i j s0 n w s : Prop :=
  Walking c i s0 n w s ∨ Walking c j s0 n w s ∧ w = WAY_NONE.

Lemma issue_ok i j c V s :
  J s → Listed c V s → die_of i = DIE_STATE_IDLE → die_of j = DIE_STATE_EXE →
  wpe (schedule_issue i j c) (λ _ s', Done c s s') E s.
Proof.
  intros HJ HL Hi Hj. unfold schedule_issue. apply wpe_bind, wp_wpe. eapply wp_load; [eapply (first_way c i), HL|].
  apply (wpe_rounds _ (Advancing c i j s)) with (length (V i));
    [by eapply list_length, HL|left; by apply Walking_start|].
  clear V HL HJ. intros n w s1 HW. destruct (Z.eqb_spec w WAY_NONE) as [|Hne].
  { apply wpe_ret. destruct HW as [?|[? _]]; by eapply Walking_done. }
  destruct HW as [(HJ & HO & V & HL & HA)|[_ ?]]; [|done].
  destruct (At_way _ _ _ _ _ _ _ (proj1 HL) HA Hne) as (pre & rest & HV & -> & Hw).
  assert (Die c w DIE_STATE_IDLE (r_sched s1)) as HD by (rewrite <- Hi; apply (Listed_Die c i w V s1 HL); rewrite HV; set_solver).
  apply wpe_bind. eapply wpe_mono; [by apply execute_ok|]. cbn beta. intros _ s2 (HJ2 & HO2 & HC2 & HX & _).
  specialize (HX HD). rewrite <- Hj in HX.
  pose proof (advance_ok i j c w V pre rest s s2 HJ2 (Others_trans _ _ _ _ HO HO2) HC2 (proj2 HL) HV HX) as Hadv.
  unfold wpe, bind in Hadv |- *. destruct (sM (way_get i c w) s2) as [? s3|]; [|done].
  destruct (sM (way_put j c w) s3) as [? s4|]; [|done]. destruct (busy c s4) as [b s5|]; [|done].
  destruct Hadv as (V' & HJ5 & HO5 & HL5 & HA5 & Hx5). destruct b; cbn; [by split_and!; [..|exists V']|].
  unfold load. rewrite Hx5. cbn. exists 0%nat. split; [lia|]. right. by split; [split_and!; [..|exists V']|].
Qed.

Lemma status_check_ok c V s :
  J s → Listed c V s → wpe (schedule_status_check c) (λ _ s', Done c s s') E s.
Proof.
  intros HJ HL. unfold schedule_status_check. apply wpe_bind, wp_wpe.
  eapply wp_load; [eapply (first_way c statusCheckL), HL|]. case_match eqn:Hhd; [apply wpe_ret; split_and!; by eauto|].
  apply wpe_bind, wpe_load; [done|]. intros dev _. apply wpe_bind.
  eapply wpe_mono; [by apply (wpe_keeping r_sched); [apply keeps_ready|apply J_ready]|].
  cbn beta. intros readyBusy s' [Es HJ']. apply (Listed_sched _ _ _ _ Es) in HL.
  apply (wpe_rounds _ (Advancing c statusCheckL statusReportL s)) with (length (V statusCheckL));
    [by eapply list_length, HL|left; unfold Walking; rewrite <- Es; by apply Walking_start|].
  clear Hhd V HL HJ HJ' Es s'. intros n w s1 HW. destruct (Z.eqb_spec w WAY_NONE) as [|Hne].
  { apply wpe_ret. destruct HW as [?|[? _]]; by eapply Walking_done. }
  destruct HW as [(HJ & HO & V & HL & HA)|[_ ?]]; [|done].
  destruct (At_way _ _ _ _ _ _ _ (proj1 HL) HA Hne) as (pre & rest & HV & -> & Hw). apply wpe_bind.
  case_match; cycle 1.
  { apply wpe_ret, wpe_bind, wp_wpe. eapply wp_load; [by eapply next_way; [apply HL|]|]. apply wpe_ret.
    exists (length rest). split; [lia|]. left. by eapply Walking_stay. }
  apply wpe_bind. eapply wpe_mono; [by apply status_ok|]. cbn beta. intros st s2 (HJ2 & HO2 & HL2).
  eapply wpe_mono; [eapply (advance_ok statusCheckL statusReportL); [done| |by apply ChanOk_weaken, HL2|apply HL2|done|]|].
  - exact (Others_trans _ _ _ _ HO HO2).
  - apply (Listed_Die c statusCheckL w V s2 HL2). rewrite HV. set_solver.
  - cbn beta. intros [] s3 (V' & HJ3 & HO3 & HL3 & HA3 & Hx3); [by split_and!; [..|exists V']|].
    apply wpe_bind, wp_wpe. eapply wp_load; [done|]. apply wpe_ret. exists 0%nat. split; [lia|]. right.
    by split; [split_and!; [..|exists V']|].
Qed.

Lemma Done_trans c s1 s2 s3 : Done c s1 s2 → Done c s2 s3 → Done c s1 s3.
Proof. intros (_ & HO & _) (? & ? & ?). split_and!; [done|by eapply Others_trans|done]. Qed.

(** One part of a round after another. *)
Lemma wpe_part {A B} c (m : M (RSt W) A) (k : A → M (RSt W) B) s0 s :
  Done c s0 s → (∀ V, J s → Listed c V s → wpe m (λ _ s', Done c s s') E s) →
  (∀ a s', Done c s0 s' → wpe (k a) (λ _ s'', Done c s0 s'') E s') →
  wpe (bind m k) (λ _ s', Done c s0 s') E s.
Proof.
  intros HD Hm Hk. destruct (HD) as (HJ & _ & V & HL). apply wpe_bind. eapply wpe_mono; [by eapply Hm|].
  intros a s' HD'. apply Hk. by eapply Done_trans.
Qed.

Lemma busy_ok c V s : J s → Listed c V s → wpe (busy c) (λ _ s', Done c s s') E s.
Proof.
  intros HJ HL. eapply wpe_mono; [by apply (wpe_keeping r_sched); [apply keeps_busy|apply J_busy]|].
  cbn beta. intros b s' [Es HJ']. split_and!; [done|by rewrite Es|]. exists V. by eapply Listed_sched.
Qed.

Lemma round_ok c V s : J s → Listed c V s → wpe (SchedulingNandReqPerCh c) (λ _ s', Done c s s') E s.
Proof.
  intros HJ HL. unfold SchedulingNandReqPerCh.
  assert (Done c s s) as HD by (split_and!; [done|done|by exists V]). clear HJ HL V.
  apply (wpe_part c); [done|intros V; apply idle_ok|]. clear HD. intros cnt s1 HD.
  apply (wpe_part c); [done|intros V; apply status_report_ok|]. clear HD. intros cnt' s2 HD.
  destruct (cnt' =? USER_WAYS); [done|].
  apply (wpe_part c); [done|intros V; apply busy_ok|]. clear HD. intros [] s3 HD; [done|].
  apply (wpe_part c); [done|intros V; apply status_check_ok|]. clear HD. intros [] s4 HD; [done|].
  do 3 (apply (wpe_part c); [done|intros V ? ?; by eapply issue_ok|]; clear HD; intros [] ? HD; [done|]).
  by apply (wpe_part c); [done|intros V ? ?; by eapply issue_ok|].
Qed.

(** ** All channels *)

Lemma WaysOk_channel c s s' : WaysOk (r_sched s) → Done c s s' → WaysOk (r_sched s').
Proof.
  intros HW (_ & HO & V & HL) c' Hc'. destruct (decide (c' = c)) as [->|Hne]; [by exists V|].
  destruct (HW c' Hc') as (V' & (ways & e & Hc & He & ?) & Hall). destruct (HO c' Hne) as [Ed Ep].
  exists V'. split; [|done]. exists ways, e. by rewrite Ed, Ep.
Qed.

Lemma SchedulingNandReq_ok s :
  J s → WaysOk (r_sched s) →
  wpe SchedulingNandReq (λ _ s', J s' ∧ WaysOk (r_sched s')) E s.
Proof.
  intros HJ HW. unfold SchedulingNandReq, for_range. pose proof cfg_channels as Hn.
  assert (∀ n lo s, 0 ≤ lo → lo + Z.of_nat n ≤ USER_CHANNELS → J s → WaysOk (r_sched s) →
    wpe (for_n n lo SchedulingNandReqPerCh) (λ _ s', J s' ∧ WaysOk (r_sched s')) E s) as Hloop.
  { clear s HJ HW. induction n as [|n IH]; intros lo s Hlo Hhi HJ HW; cbn [for_n]; [done|].
    destruct (HW lo ltac:(lia)) as (V & HL). apply wpe_bind. eapply wpe_mono; [by eapply round_ok|].
    cbn beta. intros [] s' HD. apply IH; [lia|lia|by destruct HD|by eapply WaysOk_channel]. }
  apply Hloop; [lia|unfold USER_CHANNELS; lia|done|done].
Qed.
End round.
