(* ===== verification/Ftl.v ===== *)
(** Address translation for writes and garbage collection: the operations of
    address_translation.c and garbage_collection.c that issue flash requests. *)
From stdpp Require Import functions.
From S2P Require Import Prelude Frame Config MemMap ReqFormat ReqQueues AddrMap AddrInv SliceMap.
From S2P Require Import State HostLld LowLevel.
From S2P Require Import Schedule.

(** All variables of the firmware. *)
Record FSt (W : Type) := MkFSt {
  f_r : RSt W;
  f_a : ASt;
  f_mbPerbadBlockSpace : Z;
  f_storageCapacity_L : Z;
}.
Arguments MkFSt {W} _ _ _ _.
Arguments f_r {W} _.
Arguments f_a {W} _.
Arguments f_mbPerbadBlockSpace {W} _.
Arguments f_storageCapacity_L {W} _.
#[global] Instance set_f_r {W : Type} : Field (R:=FSt W) (T:=RSt W) f_r := λ v r,
  MkFSt v (f_a r) (f_mbPerbadBlockSpace r) (f_storageCapacity_L r).
#[global] Instance set_f_a {W : Type} : Field (R:=FSt W) (T:=ASt) f_a := λ v r,
  MkFSt (f_r r) v (f_mbPerbadBlockSpace r) (f_storageCapacity_L r).
#[global] Instance set_f_mbPerbadBlockSpace {W : Type} : Field (R:=FSt W) (T:=Z) f_mbPerbadBlockSpace := λ v r,
  MkFSt (f_r r) (f_a r) (wrap 32 v) (f_storageCapacity_L r).
#[global] Instance set_f_storageCapacity_L {W : Type} : Field (R:=FSt W) (T:=Z) f_storageCapacity_L := λ v r,
  MkFSt (f_r r) (f_a r) (f_mbPerbadBlockSpace r) (wrap 32 v).

Section ftl.
Context `{Config} {W : Type} `{Device W} `{Fuel}.

(** Run code of the request layer, or of the maps. *)
Definition rM {A} (m : M (RSt W) A) : M (FSt W) A := zoom f_r m.
Definition aM {A} (m : M ASt A) : M (FSt W) A := zoom f_a m.

Definition EraseBlock (dieNo blockNo : Z) : M (FSt W) unit :=
  reqSlotTag <- rM GetFromFreeReqQ ;;
  rM (fill_nand_req reqSlotTag REQ_CODE_ERASE REQ_OPT_DATA_BUF_NONE REQ_OPT_NAND_ADDR_VSA None
        REQ_OPT_ROW_ADDR_DEPENDENCY_CHECK REQ_OPT_BLOCK_SPACE_MAIN REQ_OPT_FORCE_UNIT_ACCESS_OFF
        REQ_OPT_CUSTOM_CMD_OFF REQ_OPT_CUSTOM_CMD_BUF_OFF) ;;
  rM (rPool.[reqSlotTag]∙nandInfo∙virtualSliceAddr ::= Vorg2VsaTranslation dieNo blockNo 0) ;;
  p <- aM (!(vBlock.[dieNo].[blockNo]∙currentPage)) ;;
  rM (rPool.[reqSlotTag]∙nandInfo∙programmedPageCnt ::= p) ;;
  rM (SelectLowLevelReqQ reqSlotTag) ;;
  aM (forget_block dieNo blockNo).

(** A NAND request of the garbage collector, up to its address. *)
Definition gc_request (code logicalSliceAddr dieNo : Z) : M (FSt W) Z :=
  reqSlotTag <- rM GetFromFreeReqQ ;;
  rM (fill_nand_req reqSlotTag code REQ_OPT_DATA_BUF_TEMP_ENTRY REQ_OPT_NAND_ADDR_VSA
        (Some (REQ_OPT_NAND_ECC_ON, REQ_OPT_NAND_ECC_WARNING_OFF))
        REQ_OPT_ROW_ADDR_DEPENDENCY_CHECK REQ_OPT_BLOCK_SPACE_MAIN REQ_OPT_FORCE_UNIT_ACCESS_OFF
        REQ_OPT_CUSTOM_CMD_OFF REQ_OPT_CUSTOM_CMD_BUF_OFF) ;;
  rM (rPool.[reqSlotTag]∙ReqFormat.logicalSliceAddr ::= logicalSliceAddr) ;;
  rM (rPool.[reqSlotTag]∙dataBufInfo∙entry ::= AllocateTempDataBuf dieNo) ;;
  rM (e <- !(rPool.[reqSlotTag]∙dataBufInfo∙entry) ;;
      UpdateTempDataBufEntryInfoBlockingReq e reqSlotTag) ;;
  ret reqSlotTag.

(** Copy one valid slice out of the victim block. *)
Definition gc_copy (dieNo victimBlockNo logicalSliceAddr virtualSliceAddr : Z) : M (FSt W) unit :=
  reqSlotTag <- gc_request REQ_CODE_READ logicalSliceAddr dieNo ;;
  rM (rPool.[reqSlotTag]∙nandInfo∙ReqFormat.virtualSliceAddr ::= virtualSliceAddr) ;;
  rM (SelectLowLevelReqQ reqSlotTag) ;;
  reqSlotTag <- gc_request REQ_CODE_WRITE logicalSliceAddr dieNo ;;
  v <- aM (FindFreeVirtualSliceForGc dieNo victimBlockNo) ;;
  rM (rPool.[reqSlotTag]∙nandInfo∙ReqFormat.virtualSliceAddr ::= v) ;;
  v <- rM (!(rPool.[reqSlotTag]∙nandInfo∙ReqFormat.virtualSliceAddr)) ;;
  aM (logicalSlice.[logicalSliceAddr] ::= v) ;;
  aM (virtualSlice.[v] ::= logicalSliceAddr) ;;
  rM (SelectLowLevelReqQ reqSlotTag).

Definition GarbageCollection (dieNo : Z) : M (FSt W) unit :=
  victimBlockNo <- aM (GetFromGcVictimList dieNo) ;;
  n <- aM (!(vBlock.[dieNo].[victimBlockNo]∙invalidSliceCnt)) ;;
  when (negb (n =? SLICES_PER_BLOCK))
    (for_range 0 USER_PAGES_PER_BLOCK (λ pageNo,
       let vsa := Vorg2VsaTranslation dieNo victimBlockNo pageNo in
       lsa <- aM (!(virtualSlice.[vsa])) ;;
       when (negb (lsa =? LSA_NONE))
         (v <- aM (!(logicalSlice.[lsa])) ;;
          when (v =? vsa) (gc_copy dieNo victimBlockNo lsa vsa)))) ;;
  EraseBlock dieNo victimBlockNo.

Definition FindFreeVirtualSlice : M (FSt W) Z :=
  dieNo <- aM (!sliceAllocationTargetDie) ;;
  c <- aM (!(vDie.[dieNo]∙currentBlock)) ;;
  p <- aM (!(vBlock.[dieNo].[c]∙currentPage)) ;;
  c <- (if p =? USER_PAGES_PER_BLOCK then
          b <- aM (GetFromFbList dieNo GET_FREE_BLOCK_NORMAL) ;;
          if negb (b =? BLOCK_FAIL) then aM (vDie.[dieNo]∙currentBlock ::= b) ;; ret b
          else
            GarbageCollection dieNo ;;
            c <- aM (!(vDie.[dieNo]∙currentBlock)) ;;
            p <- aM (!(vBlock.[dieNo].[c]∙currentPage)) ;;
            if p =? USER_PAGES_PER_BLOCK then
              b <- aM (GetFromFbList dieNo GET_FREE_BLOCK_NORMAL) ;;
              if negb (b =? BLOCK_FAIL) then aM (vDie.[dieNo]∙currentBlock ::= b) ;; ret b
              else fail Assert
            else if p >? USER_PAGES_PER_BLOCK then fail Assert else ret c
        else if p >? USER_PAGES_PER_BLOCK then fail Assert
        else ret c) ;;
  v <- aM (next_slice dieNo c) ;;
  d <- aM FindDieForFreeSliceAllocation ;;
  aM (sliceAllocationTargetDie ::= d) ;;
  ret v.

Definition AddrTransWrite (logicalSliceAddr : Z) : M (FSt W) Z :=
  if logicalSliceAddr <? SLICES_PER_SSD then
    aM (InvalidateOldVsa logicalSliceAddr) ;;
    v <- FindFreeVirtualSlice ;;
    aM (logicalSlice.[logicalSliceAddr] ::= v) ;;
    aM (virtualSlice.[v] ::= logicalSliceAddr) ;;
    ret v
  else fail Assert.

(** ** Writes that find room *)

Context `{!ConfigOk}.
Implicit Types (s : FSt W) (QQ : Z → block_list → list Z) (d b lsa v : Z).

(** The target die has a free page for normal writes: its current block is not
    full, or there is more than the reserved free block. *)
Definition has_room QQ (t : ASt) d : Prop :=
  ∀ c cp iv, current t d = Some c → core t d c = Some (cp, iv) →
    cp < SLICES_PER_BLOCK ∨ (2 ≤ length (QQ d FreeL))%nat.

(** What every allocation leaves: the page [v] of die [d] is taken. *)
Definition allocated d v (t t' : ASt) : Prop :=
  Vsa2VdieTranslation v = d ∧ a_logicalSlice t' = a_logicalSlice t ∧
  a_virtualSlice t' = a_virtualSlice t.

Lemma next_slice_alloc D QQ t d c cp iv (Φ : Z → ASt → Prop) :
  AInv D QQ t → 0 ≤ d < USER_DIES → core t d c = Some (cp, iv) → cp < SLICES_PER_BLOCK →
  (c ∉ QQ d FreeL) →
  (∀ v t', Pending D QQ v t' → allocated d v t t' → targets t' = targets t → Φ v t') →
  wp (next_slice d c) Φ t.
Proof.
  intros HI Hd Hc Hcp Hf HΦ. pose proof (core_range _ _ _ _ _ _ (proj1 HI) Hd Hc) as Hcr.
  destruct (sl_block _ _ _ _ (proj2 HI) d c cp iv Hd Hcr Hc) as (Hcpr & _).
  eapply wp_mono; [by eapply next_slice_spec|].
  intros v t' (-> & Hp & HL & HV & Ht & _). apply HΦ; try done. split_and!; try done.
  apply Vsa2V_Vorg2Vsa; (done || lia).
Qed.

Lemma same_targets t t' : targets t' = targets t → TInv t → TInv t' ∧ cursor t' = cursor t.
Proof. intros [= Ht1 Ht2 Ht3]. unfold TInv, cursor_ok, cursor. by rewrite Ht1, Ht2, Ht3. Qed.

(** The end of FindFreeVirtualSlice: take the page, advance the target die. *)
Lemma finish_alloc QQ s d c cp iv :
  AInv [] QQ (f_a s) → TInv (f_a s) → 0 ≤ d < USER_DIES → core (f_a s) d c = Some (cp, iv) →
  cp < SLICES_PER_BLOCK → (c ∉ QQ d FreeL) →
  wp (v <- aM (next_slice d c) ;;
      d <- aM FindDieForFreeSliceAllocation ;;
      aM (sliceAllocationTargetDie ::= d) ;;
      ret v)
    (λ v s', ∃ t, s' = fset f_a t s ∧ Pending [] QQ v t ∧ allocated d v (f_a s) t ∧ TInv t ∧
      a_targetDie t = cursor (f_a s) ∧ cursor t = (cursor (f_a s) + 1) mod USER_DIES) s.
Proof.
  intros HI HT Hd Hc Hcp Hf.
  apply wp_bind, wp_zoom. eapply next_slice_alloc; try done. intros v t Hp Ha Ht.
  destruct (same_targets _ _ Ht HT) as [HTt Hcu].
  apply wp_bind, wp_zoom. cbn [f_a fset set_f_a].
  eapply wp_mono; [apply FindDieForFreeSliceAllocation_spec, HTt|].
  intros d' t2 (-> & Hcu2 & HT2 & Hm).
  apply wp_bind, wp_zoom. eapply wp_store; [done|]. apply wp_ret.
  exists (fset a_targetDie (cursor t) t2). pose proof (cursor_bound t (proj2 HTt)). geometry.
  assert (a_targetDie (fset a_targetDie (cursor t) t2) = cursor t) as Htd
    by (apply wrap_small; lia).
  split; [done|]. split_and!; try by (rewrite ?Htd, <- ?Hcu).
  - by eapply Pending_maps, Pending_maps, Hp.
  - destruct Ha as (? & HL & HV). injection Hm as HL2 HV2 _ _ _.
    split_and!; [done|by rewrite <- HL, <- HL2|by rewrite <- HV, <- HV2].
  - split; [rewrite Htd; lia|exact HT2].
Qed.

(** A current block with room exists or can be taken: the total part of
    FindFreeVirtualSlice. *)
Lemma FindFreeVirtualSlice_room QQ s :
  AInv [] QQ (f_a s) → TInv (f_a s) → has_room QQ (f_a s) (a_targetDie (f_a s)) →
  wp FindFreeVirtualSlice (λ v s', ∃ t QQ', s' = fset f_a t s ∧ Pending [] QQ' v t ∧
      allocated (a_targetDie (f_a s)) v (f_a s) t ∧ TInv t ∧
      a_targetDie t = cursor (f_a s) ∧ cursor t = (cursor (f_a s) + 1) mod USER_DIES) s.
Proof.
  intros HI HT Hroom. set (d := a_targetDie (f_a s)) in *. assert (0 ≤ d < USER_DIES) as Hd by apply HT.
  destruct (load_current _ _ _ _ (proj1 HI) Hd) as (c & Hcur & Hpk & Hcr & Hcf).
  destruct (core_total _ _ _ d c (proj1 HI) Hd Hcr) as (cp & iv & Hc).
  unfold FindFreeVirtualSlice.
  apply wp_bind, wp_zoom. eapply wp_load; [done|]. fold d.
  apply wp_bind, wp_zoom. eapply wp_load; [exact Hpk|].
  apply wp_bind, wp_zoom. eapply wp_load; [apply (load_block _ _ _ _ _ _ _ (proj1 HI) Hd Hc)|].
  rewrite pages_slices. apply wp_bind.
  destruct (sl_block _ _ _ _ (proj2 HI) d c cp iv Hd Hcr Hc) as (Hcpr & _).
  destruct (Z.eqb_spec cp SLICES_PER_BLOCK) as [Hfull|Hnf].
  - destruct (Hroom c cp iv Hcur Hc) as [?|Hlen]; [lia|].
    destruct (QQ d FreeL) as [|b l] eqn:Hq; [cbn in Hlen; lia|].
    destruct (free_block _ _ _ _ _ _ HI Hd Hq) as (Hcb & Hb & Hnf & Hbl & _).
    apply wp_bind, wp_zoom. eapply wp_mono;
      [eapply (take_block_spec _ _ _ _ b l); [exact HI|done|done|]; left; split; [done|];
       intros ->; cbn in Hlen; lia|].
    intros ? t1 (-> & HI1 & Hs1 & Hco1 & Hcu1). destruct (Z.eqb_spec b BLOCK_FAIL); [done|].
    apply wp_bind, wp_zoom. eapply wp_mono; [by eapply make_current_spec|].
    intros ? t2 (HI2 & Hs2 & Hco2 & Hcu2). apply wp_ret.
    destruct (same_slices_trans _ _ _ Hs1 Hs2) as (HL2 & HV2 & Ht2).
    destruct (same_targets _ _ Ht2 HT) as [HT2 Hcur2]. geometry.
    eapply wp_mono; [eapply (finish_alloc _ _ d b 0 0); try done|].
    + cbn. by rewrite Hco2, Hco1.
    + lia.
    + unfold drop_free. by rewrite !fn_lookup_insert.
    + intros v s' (t & -> & Hp & (? & HL & HV) & HTt & Htd & Hcu). cbn in *.
      rewrite <- Hcur2. exists t, (drop_free QQ d l). split_and!; try done. split_and!; try done; congruence.
  - destruct (Z.gtb_spec cp SLICES_PER_BLOCK); [lia|]. apply wp_ret.
    eapply wp_mono; [eapply (finish_alloc QQ s d c); (done || lia)|].
    intros v s' (t & ?). eauto.
Qed.

Lemma has_room_invalidate QQ QQ' t t' d :
  (∀ d, QQ' d FreeL = QQ d FreeL) → (∀ d, current t' d = current t d) →
  (∀ d b, fst <$> core t' d b = fst <$> core t d b) → has_room QQ t d → has_room QQ' t' d.
Proof.
  intros HQ Hcu Hco Hr c cp iv Hc Hcc. rewrite HQ. rewrite Hcu in Hc.
  specialize (Hco d c). rewrite Hcc in Hco. destruct (core t d c) as [[cp' iv']|] eqn:E; [|done].
  injection Hco as ->. by eapply Hr.
Qed.

(** Recording the mapping at the end of AddrTransWrite. *)
Lemma wp_commit {A} D QQ s lsa v (k : M (FSt W) A) Φ :
  Pending D QQ v (f_a s) → 0 ≤ lsa < SLICES_PER_SSD →
  wp k Φ (fset f_a (mapped lsa v (f_a s)) s) →
  wp (aM (logicalSlice.[lsa] ::= v) ;; aM (virtualSlice.[v] ::= lsa) ;; k) Φ s.
Proof.
  intros Hp Hl HΦ. destruct (Pending_bound _ _ _ _ Hp) as (Hv & HV & HL).
  destruct (array_lookup _ _ _ HL Hl) as [old Hold].
  apply wp_bind, wp_zoom. eapply wp_store; [exact Hold|]. apply wp_bind, wp_zoom.
  eapply wp_store; [exact HV|]. done.
Qed.

Lemma AddrTransRead_mapped (t : ASt) lsa v :
  0 ≤ lsa < SLICES_PER_SSD → 0 ≤ v < SLICES_PER_SSD → a_logicalSlice t !! lsa = Some v →
  AddrTransRead lsa t = Ok v t.
Proof.
  intros Hl Hv Hm. unfold AddrTransRead. destruct (Z.ltb_spec lsa SLICES_PER_SSD); [|lia].
  unfold bind, load. cbn. rewrite Hm. apply slice_not_none in Hv as [Hn _].
  by destruct (Z.eqb_spec v VSA_NONE).
Qed.

(** C1: a write that finds room on its target die (no garbage collection)
    returns, without touching the request layer, a virtual slice of that die
    that held no data; it becomes the slice of [lsa] and nothing else changes
    in either map, the next read of [lsa] translates to it, the target die
    advances, and the invariant of the maps holds again. *)
Theorem write_maps_to_fresh_slice QQ s lsa :
  AInv [] QQ (f_a s) → TInv (f_a s) → 0 ≤ lsa < SLICES_PER_SSD →
  has_room QQ (f_a s) (a_targetDie (f_a s)) →
  wp (AddrTransWrite lsa) (λ v s',
    (∃ QQ', AInv [] QQ' (f_a s')) ∧ TInv (f_a s') ∧ f_r s' = f_r s ∧
    Vsa2VdieTranslation v = a_targetDie (f_a s) ∧
    a_virtualSlice (f_a s) !! v = Some LSA_NONE ∧
    a_logicalSlice (f_a s') = <[lsa:=v]> (a_logicalSlice (f_a s)) ∧
    a_virtualSlice (f_a s') = <[v:=lsa]> (a_virtualSlice (f_a s)) ∧
    AddrTransRead lsa (f_a s') = Ok v (f_a s') ∧
    a_targetDie (f_a s') = cursor (f_a s) ∧
    cursor (f_a s') = (cursor (f_a s) + 1) mod USER_DIES) s.
Proof.
  intros HI HT Hl Hroom. unfold AddrTransWrite. destruct (Z.ltb_spec lsa SLICES_PER_SSD); [|lia].
  apply wp_bind, wp_zoom. eapply wp_mono; [by apply (InvalidateOldVsa_spec QQ)|].
  intros ? t1 (QQ1 & HI1 & HQ1 & HL1 & HV1 & Ht1 & Hcu1 & Hco1).
  destruct (same_targets _ _ Ht1 HT) as [HT1 Hcur1].
  assert (a_targetDie t1 = a_targetDie (f_a s)) as Htd1 by by injection Ht1.
  apply wp_bind. eapply wp_mono; [apply (FindFreeVirtualSlice_room QQ1); try done|].
  { cbn. rewrite Htd1. by eapply has_room_invalidate. }
  intros v ? (t2 & QQ2 & -> & Hp & (Hd & HL2 & HV2) & HT2 & Htd2 & Hcur2). cbn in *.
  destruct (Pending_bound _ _ _ _ Hp) as (Hv & Hfresh & _).
  eapply wp_commit; [exact Hp|done|]. apply wp_ret. cbn. split_and!.
  - exists QQ2. eapply Pending_commit; [done|done|]. intros old. rewrite HL2, HL1, lookup_insert_eq.
    by intros [= <-].
  - by eapply same_targets, HT2.
  - done.
  - congruence.
  - congruence.
  - rewrite HL2, HL1. apply insert_insert_eq.
  - congruence.
  - apply AddrTransRead_mapped; [done|done|]. cbn. apply lookup_insert_eq.
  - congruence.
  - change (cursor t2 = (cursor (f_a s) + 1) mod USER_DIES). congruence.
Qed.

(** ** Garbage collection

    Safety statements: the request layer waits for the device. *)

#[local] Instance keeps_rM {A} (m : M (RSt W) A) : Keeps f_a (rM m).
Proof. by apply keeps_zoom_other. Qed.

Lemma wlp_rM {A B} (m : M (RSt W) A) (k : A → M (FSt W) B) Φ s :
  (∀ a s', f_a s' = f_a s → wlp (k a) Φ s') → wlp (bind (rM m) k) Φ s.
Proof. intros HΦ. apply wlp_bind. eapply wlp_mono; [apply keeps_rM|]. intros a s'. apply HΦ. Qed.

#[local] Instance keeps_gc_request code l d : Keeps f_a (gc_request code l d).
Proof. unfold gc_request. keeps; apply keeps_rM. Qed.

(** The address stored in a request is read back. *)
Lemma wlp_request_vsa {B} tag v (k : Z → M (FSt W) B) Φ s :
  0 ≤ v < SLICES_PER_SSD → (∀ s', f_a s' = f_a s → wlp (k v) Φ s') →
  wlp (rM (rPool.[tag]∙nandInfo∙ReqFormat.virtualSliceAddr ::= v) ;;
       v <- rM (!(rPool.[tag]∙nandInfo∙ReqFormat.virtualSliceAddr)) ;; k v) Φ s.
Proof.
  intros Hv HΦ. apply wlp_bind, wlp_zoom, wlp_store. intros old Hold. cbn in Hold.
  destruct (q_reqPool (r_q (f_r s)) !! tag) as [r|] eqn:Hr; [|done].
  apply wlp_bind, wlp_zoom, wlp_load. intros v' Hv'. cbn in Hv'. rewrite Hr in Hv'.
  cbn in Hv'. rewrite lookup_insert_eq in Hv'. injection Hv' as <-.
  geometry. assert (u32 v = v) as E by (apply wrap_small; lia).
  rewrite E. by apply HΦ.
Qed.

(** Copying slice [vsa] of the victim block to a fresh slice elsewhere. *)
Definition copied d b lsa (t t' : ASt) : Prop :=
  ∃ v, 0 ≤ v < SLICES_PER_SSD ∧ (∀ p, 0 ≤ p < SLICES_PER_BLOCK → v ≠ Vorg2VsaTranslation d b p) ∧
    a_logicalSlice t' = <[lsa:=v]> (a_logicalSlice t) ∧
    a_virtualSlice t' = <[v:=lsa]> (a_virtualSlice t) ∧
    targets t' = targets t ∧ current t' d ≠ Some b ∧ core t' d b = core t d b.

Lemma gc_copy_spec QQ s d b p lsa :
  let vsa := Vorg2VsaTranslation d b p in
  AInv [(d, b)] QQ (f_a s) → 0 ≤ d < USER_DIES → 0 ≤ b < USER_BLOCKS_PER_DIE →
  0 ≤ p < SLICES_PER_BLOCK → a_logicalSlice (f_a s) !! lsa = Some vsa →
  wlp (gc_copy d b lsa vsa) (λ _ s',
    (∃ QQ', AInv [(d, b)] QQ' (f_a s')) ∧ copied d b lsa (f_a s) (f_a s')) s.
Proof.
  intros vsa HI Hd Hb Hp Hl. unfold gc_copy.
  apply wlp_bind. eapply wlp_mono; [apply keeps_gc_request|]. intros tag s1 E1. cbn in E1.
  apply wlp_rM. intros _ s2 E2. apply wlp_rM. intros _ s3 E3.
  apply wlp_bind. eapply wlp_mono; [apply keeps_gc_request|]. intros tag2 s4 E4. cbn in E4.
  rewrite E3, E2, E1 in E4. clear s1 s2 s3 E1 E2 E3. rewrite <- E4 in HI, Hl |- *. clear E4 s.
  apply wlp_bind, wlp_zoom. eapply wlp_mono; [by apply (FindFreeVirtualSliceForGc_spec QQ)|].
  intros v t (QQ' & Hpend & (HL & HV & Ht) & Hcu & Hco & Hv).
  destruct (Pending_bound _ _ _ _ Hpend) as (Hvr & _ & _).
  apply wlp_request_vsa; [done|]. intros s5 E5. cbn in E5.
  apply wlp_bind, wlp_zoom, wlp_store. intros _ _.
  apply wlp_bind, wlp_zoom, wlp_store. intros _ _.
  eapply wlp_mono; [apply keeps_rM|]. intros ? s6 E6. cbn in E6. rewrite E6, E5. cbn.
  change (poke _ lsa _) with (mapped lsa v t).
  assert (0 ≤ lsa < SLICES_PER_SSD) as Hlr
    by exact (array_range _ _ _ _ (sl_logical _ _ _ _ (proj2 HI)) Hl).
  split.
  - exists QQ'. eapply Pending_commit; [done|done|]. intros old Hold. rewrite HL, Hl in Hold.
    injection Hold as <-. intros _. unfold vsa. destruct (Vsa2V_Vorg2Vsa d b p Hd Hb Hp) as (-> & -> & _). left.
  - exists v. split_and!; try done; try lia; cbn; congruence.
Qed.

(** Which logical slices have data. *)
Definition same_domain (t t' : ASt) : Prop :=
  ∀ l, a_logicalSlice t' !! l = Some VSA_NONE ↔ a_logicalSlice t !! l = Some VSA_NONE.

(** While the pages of victim [b] below [i] have been copied, from state [t0]. *)
Definition slice_live (t : ASt) v : bool := live (a_logicalSlice t) (a_virtualSlice t) v.
Definition copying d b (t0 : ASt) (i : Z) (t : ASt) : Prop :=
  (∃ QQ, AInv [(d, b)] QQ t) ∧ same_domain t0 t ∧ targets t = targets t0 ∧
  core t d b = core t0 d b ∧
  (∀ p, 0 ≤ p < SLICES_PER_BLOCK → slice_live t (Vorg2VsaTranslation d b p) =
     if p <? i then false else slice_live t0 (Vorg2VsaTranslation d b p)) ∧
  (current t d ≠ Some b ∨
   current t d = current t0 d ∧
   ∀ p, 0 ≤ p < i → slice_live t0 (Vorg2VsaTranslation d b p) = false).

Lemma copying_dead d b t0 i t :
  copying d b t0 i t → 0 ≤ i < SLICES_PER_BLOCK →
  slice_live t (Vorg2VsaTranslation d b i) = false → copying d b t0 (i + 1) t.
Proof.
  intros (HI & Hd & Ht & Hco & Hl & Hcu) Hi Hdead. split_and!; try done.
  - intros p Hp. destruct (decide (p = i)) as [->|]; [by rewrite (proj2 (Z.ltb_lt i (i + 1))) by lia|].
    rewrite Hl by done. destruct (Z.ltb_spec p i), (Z.ltb_spec p (i + 1)); (done || lia).
  - destruct Hcu as [Hcu|[Hcu Hz]]; [by left|right]. split; [done|]. intros p Hp.
    destruct (decide (p = i)) as [->|]; [|apply Hz; lia].
    rewrite Hl, Z.ltb_irrefl in Hdead by done. done.
Qed.

Lemma copying_copied d b t0 i t t' lsa :
  let vsa := Vorg2VsaTranslation d b i in
  copying d b t0 i t → 0 ≤ d < USER_DIES → 0 ≤ b < USER_BLOCKS_PER_DIE →
  0 ≤ i < SLICES_PER_BLOCK →
  a_virtualSlice t !! vsa = Some lsa → a_logicalSlice t !! lsa = Some vsa →
  (∃ QQ, AInv [(d, b)] QQ t') → copied d b lsa t t' → copying d b t0 (i + 1) t'.
Proof.
  intros vsa (HI & Hd & Ht & Hco & Hl & Hcu) Hdr Hbr Hi HVl HLl HI'
    (v & Hv & Hvb & HL' & HV' & Ht' & Hcu' & Hco').
  assert (vsa ≠ VSA_NONE ∧ v ≠ VSA_NONE) as [Hvsa Hvn].
  { split; apply slice_not_none; [by apply Vorg2Vsa_bound|done]. }
  split_and!; try done; try congruence.
  - intros l. rewrite HL', lookup_insert. case_decide; [subst l|apply Hd].
    rewrite <- (Hd lsa), HLl. split; intros [= ?]; congruence.
  - intros p Hp. unfold slice_live at 1. rewrite HL', HV', live_program by by apply Hvb.
    destruct (decide (p = i)) as [->|Hne].
    + rewrite (proj2 (Z.ltb_lt i (i + 1))) by lia. unfold live. fold vsa. rewrite HVl.
      rewrite lookup_insert_eq. apply bool_decide_eq_false. intros [= E]. by eapply Hvb.
    + rewrite live_remap.
      * rewrite (Hl p Hp : live _ _ _ = _).
        destruct (Z.ltb_spec p i), (Z.ltb_spec p (i + 1)); (done || lia).
      * intros _. split; [|by apply Hvb]. rewrite HLl. intros [= E].
        apply Vorg2Vsa_inj in E as (_ & _ & ->); done.
  - by left.
Qed.

Lemma copy_pages_spec s d b QQ :
  AInv [(d, b)] QQ (f_a s) → 0 ≤ d < USER_DIES → 0 ≤ b < USER_BLOCKS_PER_DIE →
  wlp (for_range 0 USER_PAGES_PER_BLOCK (λ pageNo,
         let vsa := Vorg2VsaTranslation d b pageNo in
         lsa <- aM (!(virtualSlice.[vsa])) ;;
         when (negb (lsa =? LSA_NONE))
           (v <- aM (!(logicalSlice.[lsa])) ;;
            when (v =? vsa) (gc_copy d b lsa vsa))))
    (λ _ s', copying d b (f_a s) SLICES_PER_BLOCK (f_a s')) s.
Proof.
  intros HI Hd Hb. rewrite pages_slices. geometry.
  apply (wlp_for_range (λ i s', copying d b (f_a s) i (f_a s'))); [lia| |].
  - split_and!; try done; [by exists QQ| |right; split; [done|lia]].
    intros p Hp. destruct (Z.ltb_spec p 0); [lia|done].
  - intros i s1 Hi Hc. cbn zeta. destruct Hc as ([QQ1 HI1] & Hrest) eqn:Ec. pose proof Hc as Hc'.
    clear Ec. assert (∀ lsa, a_virtualSlice (f_a s1) !! Vorg2VsaTranslation d b i = Some lsa →
      a_logicalSlice (f_a s1) !! lsa ≠ Some (Vorg2VsaTranslation d b i) →
      copying d b (f_a s) (i + 1) (f_a s1)) as Hdead.
    { intros lsa HV HL. apply copying_dead; [done|done|]. unfold slice_live, live. rewrite HV.
      by apply bool_decide_eq_false. }
    apply wlp_bind, wlp_zoom, wlp_load. intros lsa HV. cbn in HV. apply wlp_when; intros Hn.
    + apply wlp_bind, wlp_zoom, wlp_load. intros v HL. cbn in HL. apply wlp_when; intros Hv.
      * apply Z.eqb_eq in Hv as ->. eapply wlp_mono; [by apply (gc_copy_spec QQ1)|].
        intros ? s2 [HI2 Hcp]. by eapply copying_copied.
      * apply (Hdead lsa); [done|]. cbn in *. rewrite HL. intros [= ->]. lia.
    + apply (Hdead lsa); [done|]. apply negb_false_iff, Z.eqb_eq in Hn as ->. intros HL.
      apply (array_range _ _ _ _ (sl_logical _ _ _ _ (proj2 HI1))), slice_not_none in HL. by destruct HL.
Qed.

(** The victim holds no data and is not the current block. *)
Definition evacuated d b (t0 t : ASt) : Prop :=
  (∃ QQ, AInv [(d, b)] QQ t) ∧ same_domain t0 t ∧ targets t = targets t0 ∧
  current t d ≠ Some b ∧
  ∀ p, 0 ≤ p < SLICES_PER_BLOCK → slice_live t (Vorg2VsaTranslation d b p) = false.

Lemma EraseBlock_spec s d b t0 :
  evacuated d b t0 (f_a s) → 0 ≤ d < USER_DIES → 0 ≤ b < USER_BLOCKS_PER_DIE →
  wlp (EraseBlock d b) (λ _ s', (∃ QQ, AInv [] QQ (f_a s')) ∧ same_domain t0 (f_a s') ∧
    targets (f_a s') = targets t0) s.
Proof.
  intros ([QQ HI] & Hdom & Ht & Hcu & Hdead) Hd Hb. unfold EraseBlock.
  apply wlp_rM. intros tag s1 E1. apply wlp_rM. intros _ s2 E2. apply wlp_rM. intros _ s3 E3.
  apply wlp_bind, wlp_zoom, wlp_load. intros p _. apply wlp_rM. intros _ s4 E4.
  apply wlp_rM. intros _ s5 E5. change (f_a (fset f_a (f_a s3) s3)) with (f_a s3) in E4.
  rewrite E4, E3, E2, E1 in E5. apply wlp_zoom. rewrite E5.
  eapply wp_wlp, wp_mono; [by apply (forget_block_spec [] QQ); [..|set_solver| |]|].
  intros ? t (HI' & HL & Ht' & _). cbn. split; [by eexists|]. split; [|congruence].
  intros l. by rewrite HL.
Qed.

(** The current block of die [d] is full, and not all of it is invalid. *)
Definition current_in_use (t : ASt) d : Prop :=
  ∀ c cp iv, current t d = Some c → core t d c = Some (cp, iv) →
    cp = SLICES_PER_BLOCK ∧ iv < SLICES_PER_BLOCK.

(** Counters of the victim, before it leaves its list. *)
Lemma victim_counters QQ t d b c l :
  AInv [] QQ t → 0 ≤ d < USER_DIES → is_victim (QQ d) b c l →
  0 ≤ b < USER_BLOCKS_PER_DIE ∧ ∃ cp, core t d b = Some (cp, c) ∧ 0 ≤ cp ≤ SLICES_PER_BLOCK ∧
    c = invalid (a_logicalSlice t) (a_virtualSlice t) d b cp.
Proof.
  intros [HL Hs] Hd (Hq & Hc & _). destruct (Lists_die _ _ _ _ HL Hd) as (m & e & Hm & He & Hi).
  assert (b ∈ QQ d (VictimL c)) as Hb by (rewrite Hq; left).
  destruct (Dll.family_lookup _ _ _ _ _ (VictimL c) b (di_lists _ _ _ _ _ Hi) Hb) as [n Hn].
  destruct (di_listed _ _ _ _ _ Hi b n _ Hb Hn) as [Hinv _].
  pose proof (array_range _ _ _ _ (di_blocks _ _ _ _ _ Hi) Hn) as Hbr. split; [done|].
  assert (core t d b = Some (currentPage n, c)) as Hco.
  { unfold core. rewrite Hm. cbn. rewrite Hn. cbn. unfold block_core. by rewrite Hinv. }
  destruct (sl_block _ _ _ _ Hs d b _ _ Hd Hbr Hco) as (Hcp & _ & _ & Hcnt).
  exists (currentPage n). split_and!; try done; try lia. apply Hcnt. set_solver.
Qed.

(** After the copy loop, or instead of it when every slice is invalid. *)
Lemma evacuate_spec QQ QQ1 s t0 d b c l :
  AInv [] QQ t0 → is_victim (QQ d) b c l → only_lists t0 (f_a s) →
  AInv [(d, b)] QQ1 (f_a s) → 0 ≤ d < USER_DIES → current_in_use t0 d →
  wlp (when (negb (c =? SLICES_PER_BLOCK))
    (for_range 0 USER_PAGES_PER_BLOCK (λ pageNo,
       let vsa := Vorg2VsaTranslation d b pageNo in
       lsa <- aM (!(virtualSlice.[vsa])) ;;
       when (negb (lsa =? LSA_NONE))
         (v <- aM (!(logicalSlice.[lsa])) ;;
          when (v =? vsa) (gc_copy d b lsa vsa)))))
    (λ _ s', evacuated d b t0 (f_a s')) s.
Proof.
  intros HI Hv (HL & HV & Ht & Hco & Hcu) HI1 Hd Huse.
  destruct (victim_counters _ _ _ _ _ _ HI Hd Hv) as (Hb & cp & Hc & Hcp & Hcnt).
  rewrite <- HL, <- HV in Hcnt.
  assert (same_domain t0 (f_a s)) as Hdom by (intros x; by rewrite HL).
  (* a block all of whose pages are dead has SLICES_PER_BLOCK invalid slices *)
  assert (cp = SLICES_PER_BLOCK →
    (∀ p, 0 ≤ p < SLICES_PER_BLOCK → slice_live (f_a s) (Vorg2VsaTranslation d b p) = false) →
    c = SLICES_PER_BLOCK) as Hall.
  { intros -> Hdead. rewrite Hcnt. apply count_every; [lia|].
    intros p Hp. by rewrite (Hdead p Hp : live _ _ _ = _). }
  apply wlp_when; intros Hne.
  - eapply wlp_mono; [by apply (copy_pages_spec s d b QQ1)|].
    intros ? s' (HI' & Hdom' & Ht' & Hco' & Hlive & Hcur). split_and!; [done| | | |].
    + intros x. rewrite (Hdom' x). apply Hdom.
    + congruence.
    + destruct Hcur as [|[Hcur Hdead]]; [done|]. rewrite Hcur, Hcu. intros Hb'.
      destruct (Huse b cp c Hb' Hc) as [Hfull Hlt]. specialize (Hall Hfull Hdead). lia.
    + intros p Hp. rewrite Hlive by done. destruct (Z.ltb_spec p SLICES_PER_BLOCK); [done|lia].
  - apply negb_false_iff, Z.eqb_eq in Hne as ->. split_and!; try done; [by exists QQ1| |].
    + rewrite Hcu. intros Hb'. destruct (Huse b cp _ Hb' Hc) as [_ Hlt]. lia.
    + intros p Hp. pose proof (count_bound _ cp (proj1 Hcp)
        : 0 ≤ invalid (a_logicalSlice (f_a s)) (a_virtualSlice (f_a s)) d b cp ≤ cp).
      assert (cp = SLICES_PER_BLOCK) as -> by lia. symmetry in Hcnt.
      pose proof (count_all _ _ p Hcnt Hp) as Hneg. by apply negb_true_iff in Hneg.
Qed.

Lemma GarbageCollection_spec QQ s d :
  AInv [] QQ (f_a s) → 0 ≤ d < USER_DIES → current_in_use (f_a s) d →
  wlp (GarbageCollection d) (λ _ s', (∃ QQ, AInv [] QQ (f_a s')) ∧
    same_domain (f_a s) (f_a s') ∧ targets (f_a s') = targets (f_a s)) s.
Proof.
  intros HI Hd Huse. unfold GarbageCollection.
  apply wlp_bind, wlp_zoom. eapply wlp_mono;
    [eapply wpe_wlp, (GetFromGcVictimList_spec [] QQ); [apply HI|done]|].
  intros b t (c & l & Hv & Hol & Hls).
  destruct (victim_counters _ _ _ _ _ _ HI Hd Hv) as (Hb & cp & Hc & _).
  assert (AInv [(d, b)] _ t) as HI1 by (eapply AInv_only_lists; [exact HI|done|exact Hls|set_solver]).
  apply wlp_bind, wlp_zoom, wlp_load. intros n Hn. cbn [f_a fset set_f_a] in Hn.
  assert (core t d b = Some (cp, c)) as Hct by (destruct Hol as (_ & _ & _ & -> & _); done).
  rewrite (proj1 (load_block _ _ _ _ _ _ _ Hls Hd Hct)) in Hn. injection Hn as <-.
  apply wlp_bind. eapply wlp_mono; [eapply (evacuate_spec QQ _ _ (f_a s) d b c l); try done|].
  intros ? s1 Hev. by apply EraseBlock_spec.
Qed.

(** ** Writes, with garbage collection *)

(** A block with room for the next page. *)
Definition block_with_room d c (t t' : ASt) : Prop :=
  ∃ QQ cp iv, AInv [] QQ t' ∧ same_slices t t' ∧ core t' d c = Some (cp, iv) ∧
    cp < SLICES_PER_BLOCK ∧ (c ∉ QQ d FreeL).

Lemma block_after_gc QQ s d c cp iv :
  AInv [] QQ (f_a s) → 0 ≤ d < USER_DIES → current (f_a s) d = Some c →
  core (f_a s) d c = Some (cp, iv) →
  wlp (if cp =? SLICES_PER_BLOCK then
         b <- aM (GetFromFbList d GET_FREE_BLOCK_NORMAL) ;;
         if negb (b =? BLOCK_FAIL) then aM (vDie.[d]∙currentBlock ::= b) ;; ret b
         else fail Assert
       else if cp >? SLICES_PER_BLOCK then fail Assert else ret c)
    (λ c' s', block_with_room d c' (f_a s) (f_a s')) s.
Proof.
  intros HI Hd Hcur Hc. destruct (Z.eqb_spec cp SLICES_PER_BLOCK) as [Hfull|Hnf].
  - apply wlp_bind, wlp_zoom. destruct (QQ d FreeL) as [|b [|b' l]] eqn:Hq.
    1-2: eapply wp_wlp, wp_mono; [apply (GetFromFbList_none [] QQ); [apply HI|done|];
        left; split; [done|]; rewrite Hq; cbn; lia|]; by intros ? ? [-> ->].
    destruct (free_block _ _ _ _ _ _ HI Hd Hq) as (Hcb & Hb & Hnf & Hbl & _).
    eapply wp_wlp, wp_mono; [eapply (take_block_spec _ _ _ _ b (b' :: l)); [exact HI|done|done|by left]|].
    intros ? t1 (-> & HI1 & Hs1 & Hco1 & Hcu1). destruct (Z.eqb_spec b BLOCK_FAIL); [done|].
    apply wlp_bind, wlp_zoom. eapply wp_wlp, wp_mono; [by eapply make_current_spec|].
    intros ? t2 (HI2 & Hs2 & Hco2 & Hcu2). apply wlp_ret. cbn. geometry.
    exists (drop_free QQ d (b' :: l)), 0, 0. split_and!; try done; [by eapply same_slices_trans| |lia|].
    + by rewrite Hco2, Hco1.
    + unfold drop_free. by rewrite !fn_lookup_insert.
  - destruct (Z.gtb_spec cp SLICES_PER_BLOCK); [done|]. apply wlp_ret.
    destruct (load_current _ _ _ _ (proj1 HI) Hd) as (c' & Hcur' & _ & _ & Hcf).
    rewrite Hcur in Hcur'. injection Hcur' as <-.
    exists QQ, cp, iv. split_and!; try done. lia.
Qed.

Lemma FindFreeVirtualSlice_spec QQ s :
  AInv [] QQ (f_a s) → TInv (f_a s) →
  (has_room QQ (f_a s) (a_targetDie (f_a s)) ∨ current_in_use (f_a s) (a_targetDie (f_a s))) →
  wlp FindFreeVirtualSlice (λ v s', (∃ QQ', Pending [] QQ' v (f_a s')) ∧ TInv (f_a s') ∧
    same_domain (f_a s) (f_a s') ∧ Vsa2VdieTranslation v = a_targetDie (f_a s)) s.
Proof.
  intros HI HT Hor. set (d := a_targetDie (f_a s)) in *.
  assert (0 ≤ d < USER_DIES) as Hd by apply HT.
  assert (has_room QQ (f_a s) d ∨ current_in_use (f_a s) d ∧ (length (QQ d FreeL) ≤ 1)%nat)
    as [Hroom|[Huse Hlen]].
  { destruct Hor as [|Huse]; [by left|].
    destruct (decide (2 ≤ length (QQ d FreeL))%nat); [left|right; split; [done|lia]].
    intros ? ? ? _ _. by right. }
  { eapply wp_wlp, wp_mono; [by eapply FindFreeVirtualSlice_room|].
    intros v ? (t & QQ' & -> & Hp & (Hdv & HL & _) & HTt & _). split_and!; try done; [by exists QQ'|].
    intros l. cbn. by rewrite HL. }
  destruct (load_current _ _ _ _ (proj1 HI) Hd) as (c & Hcur & Hpk & Hcr & Hcf).
  destruct (core_total _ _ _ d c (proj1 HI) Hd Hcr) as (cp & iv & Hc).
  destruct (Huse c cp iv Hcur Hc) as [-> _]. unfold FindFreeVirtualSlice.
  apply wlp_bind, wlp_zoom, wlp_load. intros ? [= <-]. fold d.
  apply wlp_bind, wlp_zoom, wlp_load. intros c'. cbn [f_a fset set_f_a]. rewrite Hpk. intros [= <-].
  apply wlp_bind, wlp_zoom, wlp_load. intros p. cbn [f_a fset set_f_a].
  rewrite (proj2 (load_block _ _ _ _ _ _ _ (proj1 HI) Hd Hc)). intros [= <-].
  rewrite pages_slices, Z.eqb_refl. apply wlp_bind, wlp_bind, wlp_zoom.
  eapply wp_wlp, wp_mono; [apply (GetFromFbList_none [] QQ); [apply HI|done|by left]|].
  intros ? ? [-> ->]. cbn [negb Z.eqb BLOCK_FAIL Pos.eqb].
  apply wlp_bind. eapply wlp_mono; [by apply (GarbageCollection_spec QQ)|].
  intros ? s1 ([QQ1 HI1] & Hdom1 & Ht1). clear c Hcur Hpk Hcr Hcf iv Hc.
  destruct (load_current _ _ _ _ (proj1 HI1) Hd) as (c & Hcur & Hpk & Hcr & Hcf).
  destruct (core_total _ _ _ d c (proj1 HI1) Hd Hcr) as (cp & iv & Hc).
  apply wlp_bind, wlp_zoom, wlp_load. intros c'. rewrite Hpk. intros [= <-].
  apply wlp_bind, wlp_zoom, wlp_load. intros p. cbn [f_a fset set_f_a].
  rewrite (proj2 (load_block _ _ _ _ _ _ _ (proj1 HI1) Hd Hc)). intros [= <-].
  eapply wlp_mono; [by apply (block_after_gc QQ1 _ d c cp iv)|].
  intros c2 s2 (QQ2 & cp2 & iv2 & HI2 & (HL2 & HV2 & Ht2) & Hc2 & Hcp2 & Hcf2).
  destruct (same_targets _ _ (eq_trans Ht2 Ht1) HT) as [HT2 _].
  eapply wp_wlp, wp_mono; [by eapply finish_alloc|].
  intros v ? (t & -> & Hp & (Hdv & HL & _) & HTt & _). split_and!; try done; [by exists QQ2|].
  intros l. cbn. rewrite HL, HL2. apply Hdom1.
Qed.

Lemma room_or_in_use QQ t d c p l :
  AInv [] QQ t → 0 ≤ d < USER_DIES → current t d = Some c → 0 ≤ p < SLICES_PER_BLOCK →
  a_logicalSlice t !! l = Some (Vorg2VsaTranslation d c p) →
  has_room QQ t d ∨ current_in_use t d.
Proof.
  intros HI Hd Hcur Hp Hl.
  destruct (load_current _ _ _ _ (proj1 HI) Hd) as (c' & Hcur' & _ & Hcr & _).
  rewrite Hcur in Hcur'. injection Hcur' as <-.
  destruct (core_total _ _ _ d c (proj1 HI) Hd Hcr) as (cp & iv & Hc).
  destruct (sl_block _ _ _ _ (proj2 HI) d c cp iv Hd Hcr Hc) as (Hcp & _ & _ & Hcnt).
  destruct (decide (cp < SLICES_PER_BLOCK)) as [Hroom|Hfull].
  { left. intros c' cp' iv' Hc' Hco. left. congruence. }
  right. assert (cp = SLICES_PER_BLOCK) as -> by lia. intros c' cp' iv' Hc' Hco.
  rewrite Hcur in Hc'. injection Hc' as <-. rewrite Hc in Hco. injection Hco as <- <-. split; [done|].
  specialize (Hcnt ltac:(set_solver)). unfold invalid in Hcnt. geometry.
  assert (0 ≤ SLICES_PER_BLOCK) as Hnn by lia.
  pose proof (count_bound (λ p, negb (live (a_logicalSlice t) (a_virtualSlice t)
    (Vorg2VsaTranslation d c p))) SLICES_PER_BLOCK Hnn).
  destruct (decide (iv = SLICES_PER_BLOCK)) as [->|]; [|lia]. symmetry in Hcnt.
  pose proof (count_all _ _ p Hcnt Hp) as Hdead. cbn beta in Hdead. apply negb_true_iff in Hdead.
  destruct (mapped_live _ _ _ _ _ _ (proj2 HI) Hl) as (_ & _ & _ & Hlive); [|congruence].
  by apply slice_not_none, Vorg2Vsa_bound.
Qed.

(** C7: a write that returns, garbage collection included, keeps the
    invariant of the maps: the slice it returns belongs to the target die and is
    the one the next read of [lsa] translates to, and every other logical slice
    has data exactly if it had data before.  When the target die has no room,
    its current block must hold current data of some other logical slice. *)
Theorem write_preserves_maps QQ s lsa :
  AInv [] QQ (f_a s) → TInv (f_a s) → 0 ≤ lsa < SLICES_PER_SSD →
  let d := a_targetDie (f_a s) in
  has_room QQ (f_a s) d ∨
  (∃ c p l, current (f_a s) d = Some c ∧ 0 ≤ p < SLICES_PER_BLOCK ∧ l ≠ lsa ∧
     a_logicalSlice (f_a s) !! l = Some (Vorg2VsaTranslation d c p)) →
  wlp (AddrTransWrite lsa) (λ v s',
    (∃ QQ', AInv [] QQ' (f_a s')) ∧ TInv (f_a s') ∧ Vsa2VdieTranslation v = d ∧
    AddrTransRead lsa (f_a s') = Ok v (f_a s') ∧
    (∀ l, l ≠ lsa → a_logicalSlice (f_a s') !! l = Some VSA_NONE ↔
                    a_logicalSlice (f_a s) !! l = Some VSA_NONE)) s.
Proof.
  intros HI HT Hl d Hor. unfold AddrTransWrite. destruct (Z.ltb_spec lsa SLICES_PER_SSD); [|lia].
  apply wlp_bind, wlp_zoom. eapply wp_wlp, wp_mono; [by apply (InvalidateOldVsa_spec QQ)|].
  intros ? t1 (QQ1 & HI1 & HQ1 & HL1 & HV1 & Ht1 & Hcu1 & Hco1).
  destruct (same_targets _ _ Ht1 HT) as [HT1 _].
  assert (a_targetDie t1 = d) as Htd1 by by injection Ht1.
  apply wlp_bind. eapply wlp_mono; [apply (FindFreeVirtualSlice_spec QQ1); [done|done|]|].
  { cbn. rewrite Htd1. destruct Hor as [|(c & p & l & Hc & Hp & Hne & Hll)].
    - left. by eapply has_room_invalidate.
    - eapply (room_or_in_use QQ1 t1 d c p l); [done|apply HT|by rewrite Hcu1|done|].
      by rewrite HL1, lookup_insert_ne. }
  intros v s2 ([QQ2 Hp] & HT2 & Hdom & Hdv). cbn in Hdom, Hdv. rewrite Htd1 in Hdv.
  assert (a_logicalSlice (f_a s2) !! lsa = Some VSA_NONE) as Hnone.
  { apply Hdom. rewrite HL1. apply lookup_insert_eq. }
  eapply wp_wlp, wp_commit; [exact Hp|done|]. apply wp_ret. cbn. split_and!; try done.
  - exists QQ2. eapply Pending_commit; [done|done|]. intros old. rewrite Hnone. by intros [= <-].
  - apply AddrTransRead_mapped; [done|exact (proj1 (Pending_bound _ _ _ _ Hp))|]. cbn. apply lookup_insert_eq.
  - intros l Hne. rewrite lookup_insert_ne by done. rewrite (Hdom l), HL1.
    by rewrite lookup_insert_ne.
Qed.
End ftl.
