(* ===== verification/BadBlock.v ===== *)
(** Bad blocks and the start-up of the address map (address_translation.c), and
    the start-up of the whole firmware (ftl_config.c). *)
From S2P Require Import Prelude Config MemMap ReqFormat ReqQueues DataBuffer AddrMap State HostLld.
From S2P Require Import HostTime CustomIo LowLevel Schedule Ftl.

Definition BYTES_PER_NAND_ROW := BYTES_PER_DATA_REGION_OF_NAND_ROW + BYTES_PER_SPARE_REGION_OF_NAND_ROW.

Section bad_block.
Context `{Config} {W : Type} `{Device W} `{Fuel}.

(** ** Remapping *)

(** One bad-block check of RemapBadBlock: [reserved] is the next reserved block
    of the LUN, [limit] the end of the LUN.  Returns the next reserved block and
    1 when the block stays bad. *)
Definition remap_block (dieNo blockNo reserved limit : Z) : M (RSt W) (Z * Z) :=
  bad <- !(phyBlock.[(dieNo, blockNo)]∙phyBad) ;;
  if bad =? 0 then ret (reserved, 0) else
  if reserved <? limit then
    '(r, remapFlag) <- loop (Datatypes.S (Z.to_nat (limit - reserved))) (λ r,
      b <- !(phyBlock.[(dieNo, r)]∙phyBad) ;;
      if b =? 0 then ret (inr (r, true)) else
      if r + 1 >=? limit then ret (inr (r + 1, false)) else ret (inl (r + 1))) reserved ;;
    if (remapFlag : bool) then
      phyBlock.[(dieNo, blockNo)]∙remappedPhyBlock ::= r ;; ret (r + 1, 0)
    else ret (r, 1)
  else ret (reserved, 1).

(** The local arrays reservedBlockOfLun0, reservedBlockOfLun1 and badBlockCount. *)
Definition remap_locals : Type := gmap Z (Z * Z * Z).

(** The body of the two loops of RemapBadBlock. *)
Definition remap_die (blockNo dieNo : Z) (x : remap_locals) : M (RSt W) remap_locals :=
  '(lun0, lun1, bad) <- from_option (x !! dieNo) ;;
  '(lun0, b0) <- remap_block dieNo blockNo lun0 TOTAL_BLOCKS_PER_LUN ;;
  '(lun1, b1) <- remap_block dieNo (blockNo + TOTAL_BLOCKS_PER_LUN) lun1 TOTAL_BLOCKS_PER_DIE ;;
  ret (<[dieNo := (lun0, lun1, bad + b0 + b1)]> x).

Definition RemapBadBlock : M (FSt W) unit :=
  x <- for_acc 0 USER_DIES (λ dieNo x,
    ret (<[dieNo := (USER_BLOCKS_PER_LUN, TOTAL_BLOCKS_PER_LUN + USER_BLOCKS_PER_LUN, 0)]> x)) ∅ ;;
  x <- rM (for_acc 0 USER_BLOCKS_PER_LUN (λ blockNo x,
         for_acc 0 USER_DIES (remap_die blockNo) x) x) ;;
  maxBadBlockCount <- for_acc 0 USER_DIES (λ dieNo m,
    '(_, _, bad) <- from_option (x !! dieNo) ;; ret (if m <? bad then bad else m)) 0 ;;
  glob f_mbPerbadBlockSpace ::= maxBadBlockCount * USER_DIES * MB_PER_BLOCK.

Definition InitBlockMap : M (FSt W) unit :=
  for_range 0 USER_DIES (λ dieNo,
    for_range 0 USER_BLOCKS_PER_DIE (λ virtualBlockNo,
      let phyBlockNo := Vblock2PblockOfTbsTranslation virtualBlockNo in
      let b := vBlock.[dieNo].[virtualBlockNo] in
      remapped <- rM (!(phyBlock.[(dieNo, phyBlockNo)]∙remappedPhyBlock)) ;;
      bad <- rM (!(phyBlock.[(dieNo, remapped)]∙phyBad)) ;;
      aM (b∙vBad ::= bad) ;;
      aM (b∙vFree ::= 1) ;;
      aM (b∙invalidSliceCnt ::= 0) ;;
      aM (b∙currentPage ::= 0) ;;
      aM (b∙eraseCnt ::= 0) ;;
      bad <- aM (!(b∙vBad)) ;;
      if negb (bad =? 0) then aM (b∙prevBlock ::= BLOCK_NONE) ;; aM (b∙nextBlock ::= BLOCK_NONE)
      else aM (PutToFbList dieNo virtualBlockNo))).

(** ** The bad block table in flash *)

(** A request at a physical address of the die. *)
Definition physical_request (code bufFormat : Z) (ecc : option (Z * Z)) (dieNo block page : Z)
    (buf : option Z) : M (RSt W) unit :=
  reqSlotTag <- GetFromFreeReqQ ;;
  fill_nand_req reqSlotTag code bufFormat REQ_OPT_NAND_ADDR_PHY_ORG ecc
    REQ_OPT_ROW_ADDR_DEPENDENCY_NONE REQ_OPT_BLOCK_SPACE_TOTAL REQ_OPT_FORCE_UNIT_ACCESS_OFF
    REQ_OPT_CUSTOM_CMD_OFF REQ_OPT_CUSTOM_CMD_BUF_OFF ;;
  match buf with Some a => rPool.[reqSlotTag]∙dataBufInfo∙addr ::= a | None => skip end ;;
  fill_physical reqSlotTag (Vdie2PchTranslation dieNo) (Vdie2PwayTranslation dieNo) block page ;;
  SelectLowLevelReqQ reqSlotTag.

Definition ecc_on : option (Z * Z) := Some (REQ_OPT_NAND_ECC_ON, REQ_OPT_NAND_ECC_WARNING_OFF).
Definition ecc_off : option (Z * Z) := Some (REQ_OPT_NAND_ECC_OFF, REQ_OPT_NAND_ECC_WARNING_OFF).

Definition bbt_fuel : nat := Datatypes.S (Z.to_nat DATA_SIZE_OF_BAD_BLOCK_TABLE_PER_DIE).

Definition ReadBadBlockTable (tempBbtBufAddr : Z → Z) (tempBbtBufEntrySize : Z) : M (RSt W) unit :=
  loop bbt_fuel (λ '(i, dataSize, tempPage),
    if dataSize >? 0 then
      for_range 0 USER_DIES (λ dieNo,
        block <- !(bbtInfo.[dieNo]∙bbtPhyBlock) ;;
        physical_request REQ_CODE_READ REQ_OPT_DATA_BUF_ADDR ecc_on dieNo block
          (Vpage2PlsbPageTranslation tempPage)
          (Some (tempBbtBufAddr dieNo + i * tempBbtBufEntrySize))) ;;
      ret (inl (i + 1, dataSize - BYTES_PER_DATA_REGION_OF_PAGE, tempPage + 1))
    else ret (inr tt))
    (0, DATA_SIZE_OF_BAD_BLOCK_TABLE_PER_DIE,
     PlsbPage2VpageTranslation START_PAGE_NO_OF_BAD_BLOCK_TABLE_BLOCK) ;;
  SyncAllLowLevelReqDone.

(** Whether both mark bytes of the page just read are clean. *)
Definition marks_clean (tempReadBufAddr : Z) : M (RSt W) bool :=
  m0 <- devM (READ8 (tempReadBufAddr + BAD_BLOCK_MARK_BYTE0)) ;;
  if negb (m0 =? CLEAN_DATA_IN_BYTE) then ret false else
  m1 <- devM (READ8 (tempReadBufAddr + BAD_BLOCK_MARK_BYTE1)) ;;
  ret (m1 =? CLEAN_DATA_IN_BYTE).

(** The dies without a table ([!dieState[dieNo]]). *)
Definition unchecked (dieState : gmap Z Z) (dieNo : Z) : M (RSt W) bool :=
  st <- from_option (dieState !! dieNo) ;; ret (st =? 0).

(** One block of FindBadBlock. *)
Definition find_bad_step (dieState : gmap Z Z) (tempBbtBufAddr tempReadBufAddr : Z → Z)
    (phyBlockNo : Z) (blockChecker : gmap Z Z) : M (RSt W) (gmap Z Z) :=
  blockChecker <- for_acc 0 USER_DIES (λ dieNo chk,
    u <- unchecked dieState dieNo ;;
    if (u : bool) then
      physical_request REQ_CODE_READ REQ_OPT_DATA_BUF_ADDR ecc_off dieNo phyBlockNo
        BAD_BLOCK_MARK_PAGE0 (Some (tempReadBufAddr dieNo)) ;;
      ret (<[dieNo := BLOCK_STATE_NORMAL]> chk)
    else ret chk) blockChecker ;;
  SyncAllLowLevelReqDone ;;
  blockChecker <- for_acc 0 USER_DIES (λ dieNo chk,
    u <- unchecked dieState dieNo ;;
    if (u : bool) then
      clean <- marks_clean (tempReadBufAddr dieNo) ;;
      if (clean : bool) then
        physical_request REQ_CODE_READ REQ_OPT_DATA_BUF_ADDR ecc_off dieNo phyBlockNo
          BAD_BLOCK_MARK_PAGE1 (Some (tempReadBufAddr dieNo)) ;;
        ret chk
      else ret (<[dieNo := BLOCK_STATE_BAD]> chk)
    else ret chk) blockChecker ;;
  SyncAllLowLevelReqDone ;;
  for_acc 0 USER_DIES (λ dieNo chk,
    u <- unchecked dieState dieNo ;;
    if (u : bool) then
      clean <- marks_clean (tempReadBufAddr dieNo) ;;
      c <- from_option (chk !! dieNo) ;;
      let c := if negb clean && (c =? BLOCK_STATE_NORMAL) then BLOCK_STATE_BAD else c in
      devM (WRITE8 (tempBbtBufAddr dieNo + phyBlockNo) c) ;;
      phyBlock.[(dieNo, phyBlockNo)]∙phyBad ::= c ;;
      ret (<[dieNo := c]> chk)
    else ret chk) blockChecker.

Definition FindBadBlock (dieState : gmap Z Z) (tempBbtBufAddr tempReadBufAddr : Z → Z)
    : M (RSt W) unit :=
  for_acc 0 TOTAL_BLOCKS_PER_DIE (find_bad_step dieState tempBbtBufAddr tempReadBufAddr) ∅ ;;
  skip.

Definition SaveBadBlockTable (dieState : gmap Z Z) (tempBbtBufAddr : Z → Z) (tempBbtBufEntrySize : Z)
    : M (RSt W) unit :=
  let tempPage := PlsbPage2VpageTranslation START_PAGE_NO_OF_BAD_BLOCK_TABLE_BLOCK in
  loop bbt_fuel (λ '(i, dataSize),
    if dataSize >? 0 then
      for_range 0 USER_DIES (λ dieNo,
        st <- from_option (dieState !! dieNo) ;;
        when ((st =? DIE_STATE_BAD_BLOCK_TABLE_NOT_EXIST) || (st =? DIE_STATE_BAD_BLOCK_TABLE_UPDATE))
          (block <- !(bbtInfo.[dieNo]∙bbtPhyBlock) ;;
           when (i =? 0)
             (physical_request REQ_CODE_ERASE REQ_OPT_DATA_BUF_NONE None dieNo block 0 None) ;;
           physical_request REQ_CODE_WRITE REQ_OPT_DATA_BUF_ADDR ecc_on dieNo block
             (Vpage2PlsbPageTranslation tempPage)
             (Some (tempBbtBufAddr dieNo + i * tempBbtBufEntrySize)))) ;;
      ret (inl (i + 1, dataSize + 1 - BYTES_PER_DATA_REGION_OF_PAGE))
    else ret (inr tt)) (0, DATA_SIZE_OF_BAD_BLOCK_TABLE_PER_DIE) ;;
  SyncAllLowLevelReqDone.

Definition tempBbtBufEntrySize : Z := BYTES_PER_DATA_REGION_OF_PAGE + BYTES_PER_SPARE_REGION_OF_PAGE.
Definition tempBbtBufAddr (base dieNo : Z) : Z :=
  u32 (base + dieNo * USED_PAGES_FOR_BAD_BLOCK_TABLE_PER_DIE * tempBbtBufEntrySize).
Definition tempReadBufAddr (base dieNo : Z) : Z :=
  u32 (base + USER_DIES * USED_PAGES_FOR_BAD_BLOCK_TABLE_PER_DIE * tempBbtBufEntrySize
       + dieNo * BYTES_PER_NAND_ROW).

(** Whether the die has a table, whose entries are then taken over. *)
Definition take_over_table (tempBufAddr dieNo : Z) : M (RSt W) bool :=
  c <- devM (READ8 (tempBbtBufAddr tempBufAddr dieNo)) ;;
  if (c =? BLOCK_STATE_NORMAL) || (c =? BLOCK_STATE_BAD) then
    for_range 0 TOTAL_BLOCKS_PER_DIE (λ phyBlockNo,
      b <- devM (READ8 (tempBbtBufAddr tempBufAddr dieNo + phyBlockNo)) ;;
      phyBlock.[(dieNo, phyBlockNo)]∙phyBad ::= b) ;;
    ret true
  else ret false.

Definition RecoverBadBlockTable (tempBufAddr : Z) : M (RSt W) unit :=
  ReadBadBlockTable (tempBbtBufAddr tempBufAddr) tempBbtBufEntrySize ;;
  '(dieState, bbtMaker) <- for_acc 0 USER_DIES (λ dieNo '(dieState, bbtMaker),
    ok <- take_over_table tempBufAddr dieNo ;;
    ret (if (ok : bool) then (<[dieNo := DIE_STATE_BAD_BLOCK_TABLE_EXIST]> dieState, bbtMaker)
         else (<[dieNo := DIE_STATE_BAD_BLOCK_TABLE_NOT_EXIST]> dieState,
               BAD_BLOCK_TABLE_MAKER_TRIGGER))) (∅, BAD_BLOCK_TABLE_MAKER_IDLE) ;;
  when (bbtMaker =? BAD_BLOCK_TABLE_MAKER_TRIGGER)
    (FindBadBlock dieState (tempBbtBufAddr tempBufAddr) (tempReadBufAddr tempBufAddr) ;;
     SaveBadBlockTable dieState (tempBbtBufAddr tempBufAddr) tempBbtBufEntrySize) ;;
  for_range 0 USER_DIES (λ dieNo,
    bbtInfo.[dieNo]∙grownBadUpdate ::= BBT_INFO_GROWN_BAD_UPDATE_NONE).

Definition UpdateBadBlockTableForGrownBadBlock (tempBufAddr : Z) : M (RSt W) unit :=
  dieState <- for_acc 0 USER_DIES (λ dieNo dieState,
    g <- !(bbtInfo.[dieNo]∙grownBadUpdate) ;;
    if g =? BBT_INFO_GROWN_BAD_UPDATE_BOOKED then
      for_range 0 TOTAL_BLOCKS_PER_DIE (λ phyBlockNo,
        bbt <- !(bbtInfo.[dieNo]∙bbtPhyBlock) ;;
        v <- (if negb (phyBlockNo =? bbt) then !(phyBlock.[(dieNo, phyBlockNo)]∙phyBad)
              else ret BLOCK_STATE_NORMAL) ;;
        devM (WRITE8 (tempBbtBufAddr tempBufAddr dieNo + phyBlockNo) v)) ;;
      ret (<[dieNo := DIE_STATE_BAD_BLOCK_TABLE_UPDATE]> dieState)
    else ret (<[dieNo := DIE_STATE_BAD_BLOCK_TABLE_HOLD]> dieState)) ∅ ;;
  SaveBadBlockTable dieState (tempBbtBufAddr tempBufAddr) tempBbtBufEntrySize.

(** ** Start-up *)

Definition EraseTotalBlockSpace : M (RSt W) unit :=
  for_range 0 TOTAL_BLOCKS_PER_DIE (λ blockNo,
    for_range 0 USER_DIES (λ dieNo,
      physical_request REQ_CODE_ERASE REQ_OPT_DATA_BUF_NONE None dieNo blockNo 0 None)) ;;
  SyncAllLowLevelReqDone.

Definition EraseUserBlockSpace : M (FSt W) unit :=
  for_range 0 USER_BLOCKS_PER_DIE (λ blockNo,
    for_range 0 USER_DIES (λ dieNo,
      bad <- aM (!(vBlock.[dieNo].[blockNo]∙vBad)) ;;
      when (bad =? 0)
        (rM (reqSlotTag <- GetFromFreeReqQ ;;
             fill_nand_req reqSlotTag REQ_CODE_ERASE REQ_OPT_DATA_BUF_NONE REQ_OPT_NAND_ADDR_VSA None
               REQ_OPT_ROW_ADDR_DEPENDENCY_NONE REQ_OPT_BLOCK_SPACE_MAIN
               REQ_OPT_FORCE_UNIT_ACCESS_OFF REQ_OPT_CUSTOM_CMD_OFF REQ_OPT_CUSTOM_CMD_BUF_OFF ;;
             rPool.[reqSlotTag]∙nandInfo∙virtualSliceAddr ::= Vorg2VsaTranslation dieNo blockNo 0 ;;
             SelectLowLevelReqQ reqSlotTag)))) ;;
  rM SyncAllLowLevelReqDone.

Definition InitBlockDieMap : M (FSt W) unit :=
  c <- rM (devM inbyte) ;;
  let remake := c =? 88 in   (* 'X' *)
  when remake (rM EraseTotalBlockSpace) ;;
  aM InitDieMap ;;
  rM (RecoverBadBlockTable RESERVED_DATA_BUFFER_BASE_ADDR) ;;
  rM (for_range 0 USER_DIES (λ dieNo,
        b <- !(bbtInfo.[dieNo]∙bbtPhyBlock) ;; phyBlock.[(dieNo, b)]∙phyBad ::= 1)) ;;
  RemapBadBlock ;;
  InitBlockMap ;;
  when (negb remake) EraseUserBlockSpace ;;
  aM InitCurrentBlockOfDieMap.

Definition InitAddressMap : M (FSt W) unit :=
  rM (for_range 0 USER_DIES (λ dieNo,
        for_range 0 TOTAL_BLOCKS_PER_DIE (λ blockNo,
          phyBlock.[(dieNo, blockNo)]∙remappedPhyBlock ::= blockNo) ;;
        bbtInfo.[dieNo]∙bbtPhyBlock ::= 0 ;;
        bbtInfo.[dieNo]∙grownBadUpdate ::= BBT_INFO_GROWN_BAD_UPDATE_NONE)) ;;
  d <- aM FindDieForFreeSliceAllocation ;;
  aM (sliceAllocationTargetDie ::= d) ;;
  aM InitSliceMap ;;
  InitBlockDieMap.

Definition InitChCtlReg : M (RSt W) unit :=
  when (USER_CHANNELS <? 1) (fail Assert) ;;
  for_range 0 8 (λ chNo, when (USER_CHANNELS >? chNo) (chCtlReg.[chNo] ::= NSC_BASEADDR chNo)).

(** A reset or set-feature request of one way. *)
Definition init_request (code chNo wayNo : Z) : M (RSt W) unit :=
  reqSlotTag <- GetFromFreeReqQ ;;
  fill_nand_req reqSlotTag code REQ_OPT_DATA_BUF_NONE REQ_OPT_NAND_ADDR_PHY_ORG None
    REQ_OPT_ROW_ADDR_DEPENDENCY_NONE REQ_OPT_BLOCK_SPACE_TOTAL REQ_OPT_FORCE_UNIT_ACCESS_OFF
    REQ_OPT_CUSTOM_CMD_OFF REQ_OPT_CUSTOM_CMD_BUF_OFF ;;
  fill_physical reqSlotTag chNo wayNo 0 0 ;;
  rPool.[reqSlotTag]∙prevBlockingReq ::= REQ_SLOT_TAG_NONE ;;
  SelectLowLevelReqQ reqSlotTag.

Definition InitNandArray : M (RSt W) unit :=
  for_range 0 USER_CHANNELS (λ chNo,
    for_range 0 USER_WAYS (λ wayNo,
      init_request REQ_CODE_RESET chNo wayNo ;;
      init_request REQ_CODE_SET_FEATURE chNo wayNo)) ;;
  SyncAllLowLevelReqDone.

Definition InitFTL : M (FSt W) unit :=
  CheckConfigRestriction ;;
  rM InitChCtlReg ;;
  rM (qM InitReqPool) ;;
  rM InitDependencyTable ;;
  rM InitReqScheduler ;;
  rM InitNandArray ;;
  InitAddressMap ;;
  rM InitDataBuf ;;
  aM InitGcVictimMap ;;
  rM InitCustomIoCmdCompleteTable ;;
  rM (zoom r_ccmd InitCcmdDataBuf) ;;
  rM InitHostReqTimeTable ;;
  mb <- !(glob f_mbPerbadBlockSpace) ;;
  glob f_storageCapacity_L ::=
    (MB_PER_SSD - (MB_PER_MIN_FREE_BLOCK_SPACE + mb + MB_PER_OVER_PROVISION_BLOCK_SPACE))
    * ((1024 * 1024) / BYTES_PER_NVME_BLOCK).
End bad_block.
