(* ===== verification/Remap.v ===== *)
(** Physical addresses: bad blocks are replaced by reserved ones of the same LUN,
    the row address of a virtual slice, and the block a failed request is
    charged to (RemapBadBlock in address_translation.c, GenerateNandRowAddr and
    ExecuteNandReq in request_schedule.c). *)
From S2P Require Import Prelude Frame Config MemMap ReqFormat ReqQueues DataBuffer AddrMap State HostLld.
From S2P Require Import Nsc HostTime CustomIo LowLevel Schedule Ftl BadBlock.

(** ** Row addresses *)

Section rows.
Context `{ConfigOk}.
Implicit Types (lun block page : Z).

Lemma row_addr_eq lun block page :
  0 ≤ lun < LUNS_PER_DIE → 0 ≤ block < TOTAL_BLOCKS_PER_LUN → 0 ≤ page < PAGES_PER_MLC_BLOCK →
  row_addr lun block page = lun * LUN_1_BASE_ADDR + (block * PAGES_PER_MLC_BLOCK + page) ∧
  0 ≤ block * PAGES_PER_MLC_BLOCK + page < LUN_1_BASE_ADDR.
Proof.
  intros Hl Hb Hp.
  assert (lun = 0 ∨ lun = 1) as [-> | ->] by (unfold LUNS_PER_DIE in *; lia);
    unfold row_addr; cbn [Z.eqb]; unfold LUN_0_BASE_ADDR, LUN_1_BASE_ADDR, TOTAL_BLOCKS_PER_LUN,
      MAIN_BLOCKS_PER_LUN, EXTENDED_BLOCKS_PER_LUN, PAGES_PER_MLC_BLOCK, ROWS_PER_MLC_BLOCK in *;
    rewrite wrap_small by lia; lia.
Qed.

(** The parts of a row address. *)
Lemma row_addr_parts lun block page :
  0 ≤ lun < LUNS_PER_DIE → 0 ≤ block < TOTAL_BLOCKS_PER_LUN → 0 ≤ page < PAGES_PER_MLC_BLOCK →
  let row := row_addr lun block page in
  row / LUN_1_BASE_ADDR = lun ∧ row mod LUN_1_BASE_ADDR / PAGES_PER_MLC_BLOCK = block ∧
  row mod LUN_1_BASE_ADDR mod PAGES_PER_MLC_BLOCK = page.
Proof.
  intros Hl Hb Hp. destruct (row_addr_eq lun block page Hl Hb Hp) as [-> Hr]. cbn zeta.
  rewrite Z.add_comm.
  rewrite Z.div_add, Z.mod_add, Z.div_small, Z.mod_small by (done || lia).
  split_and!; [lia| |];
    [rewrite Z.div_add_l, Z.div_small by (done || lia); lia
    |rewrite Z.add_comm, Z.mod_add, Z.mod_small by (done || lia); lia].
Qed.

Lemma block_of_row_addr lun block page :
  0 ≤ lun < LUNS_PER_DIE → 0 ≤ block < TOTAL_BLOCKS_PER_LUN → 0 ≤ page < PAGES_PER_MLC_BLOCK →
  block_of_row (row_addr lun block page) = lun * TOTAL_BLOCKS_PER_LUN + block.
Proof.
  intros Hl Hb Hp. destruct (row_addr_parts lun block page Hl Hb Hp) as (E1 & E2 & _).
  unfold block_of_row. rewrite E1, E2. lia.
Qed.

(** The flash page of a virtual page. *)
Definition flash_page (page : Z) : Z :=
  if BITS_PER_FLASH_CELL =? SLC_MODE then Vpage2PlsbPageTranslation page else page.

Lemma flash_page_bound page :
  0 ≤ page < SLICES_PER_BLOCK → 0 ≤ flash_page page < PAGES_PER_MLC_BLOCK.
Proof.
  unfold flash_page, Vpage2PlsbPageTranslation, PAGES_PER_MLC_BLOCK, ROWS_PER_MLC_BLOCK.
  unfold SLICES_PER_BLOCK, USER_PAGES_PER_BLOCK. change SLICES_PER_PAGE with 1.
  destruct cfg_bits as [E|E]; rewrite E; unfold PAGES_PER_SLC_BLOCK, ROWS_PER_SLC_BLOCK, SLC_MODE, MLC_MODE;
    cbn [Z.eqb Pos.eqb]; rewrite ?Z.gtb_ltb; case_Z; lia.
Qed.

Lemma flash_page_inj page page' :
  0 ≤ page → 0 ≤ page' → flash_page page = flash_page page' → page = page'.
Proof.
  unfold flash_page, Vpage2PlsbPageTranslation. destruct (_ =? _); [|done].
  rewrite !Z.gtb_ltb. case_Z; lia.
Qed.
End rows.

(** ** Remapping *)

Section remap.
Context `{ConfigOk} {W : Type} `{Device W} `{Fuel}.
Implicit Types (P : gmap (Z * Z) PHY_BLOCK_ENTRY) (d b i r : Z) (s : RSt W).

(** The physical block map has all blocks of all dies. *)
Definition phys P : Prop :=
  ∀ d b, is_Some (P !! (d, b)) ↔ 0 ≤ d < USER_DIES ∧ 0 ≤ b < TOTAL_BLOCKS_PER_DIE.

Definition is_bad P d b : bool :=
  match P !! (d, b) with Some e => negb (phyBad e =? 0) | None => false end.
Definition remap P d b : Z :=
  match P !! (d, b) with Some e => remappedPhyBlock e | None => b end.

(** The user blocks of the LUN at [base] below [base + i] are treated, and the
    reserved blocks below [r] are used up. *)
Record LunInv P d base i r : Prop := {
  li_cursor : base + USER_BLOCKS_PER_LUN ≤ r ≤ base + TOTAL_BLOCKS_PER_LUN;
  li_done b : base ≤ b < base + i →
    remap P d b = b ∧ (is_bad P d b = true → r = base + TOTAL_BLOCKS_PER_LUN) ∨
    is_bad P d b = true ∧ base + USER_BLOCKS_PER_LUN ≤ remap P d b < r ∧
    is_bad P d (remap P d b) = false;
  li_inj b b' : base ≤ b < base + i → base ≤ b' < base + i → remap P d b = remap P d b' → b = b';
  li_used x : base + USER_BLOCKS_PER_LUN ≤ x < r → is_bad P d x = false →
    ∃ b, base ≤ b < base + i ∧ remap P d b = x;
  li_rest b : base + i ≤ b < base + USER_BLOCKS_PER_LUN → remap P d b = b;
}.

(** The replacement of one block, and nothing else. *)
Definition remapped_to P P' d b r : Prop :=
  (∀ d' x, is_bad P' d' x = is_bad P d' x) ∧
  (∀ d' x, (d', x) ≠ (d, b) → remap P' d' x = remap P d' x) ∧ remap P' d b = r.

Lemma LunInv_step P P' d base i r r' y :
  LunInv P d base i r → 0 ≤ i < USER_BLOCKS_PER_LUN → remapped_to P P' d (base + i) y →
  r ≤ r' ≤ base + TOTAL_BLOCKS_PER_LUN →
  y = base + i ∧ (is_bad P d y = true → r' = base + TOTAL_BLOCKS_PER_LUN) ∨
    is_bad P d (base + i) = true ∧ r ≤ y < r' ∧ is_bad P d y = false →
  (∀ x, r ≤ x < r' → is_bad P d x = false → x = y) →
  LunInv P' d base (i + 1) r'.
Proof.
  intros [Hc Hd Hi Hu Hr] Hir (Hb & Ho & Hy) Hr' Hcase Hx.
  assert (Hold : ∀ b, b ≠ base + i → remap P' d b = remap P d b)
    by (intros b Hne; apply Ho; congruence).
  assert (Hcmp : ∀ b, base ≤ b < base + i → remap P' d b ≠ y).
  { intros b Hbr. rewrite Hold by lia. specialize (Hd b Hbr). lia. }
  split; [lia| | | |].
  - intros b Hbr. rewrite !Hb. destruct (decide (b = base + i)) as [-> |Hne].
    + rewrite Hy. destruct Hcase as [[-> ?]|(? & ? & ?)]; [left; auto|right; split_and!; try done; lia].
    + rewrite Hold by done. destruct (Hd b) as [[? Hfull]|(? & ? & ?)]; [lia| |].
      * left. split; [done|]. intros Hbad. specialize (Hfull Hbad). lia.
      * right. split_and!; try done; lia.
  - intros b b' Hbr Hbr'.
    destruct (decide (b = base + i)) as [-> |Hne], (decide (b' = base + i)) as [-> |Hne'];
      rewrite ?Hy; [done|intros E; by destruct (Hcmp b'); [lia|]|intros E; by destruct (Hcmp b); [lia|]|].
    rewrite !Hold by done. apply Hi; lia.
  - intros x Hxr. rewrite Hb. intros Hg. destruct (decide (x < r)) as [Hlt|Hge].
    + destruct (Hu x) as (b & Hbr & <-); [lia|done|]. exists b. split; [lia|]. apply Hold. lia.
    + exists (base + i). split; [lia|]. rewrite Hy. symmetry. apply Hx; [lia|done].
  - intros b Hbr. rewrite Hold by lia. apply Hr. lia.
Qed.

Lemma remapped_to_same P d b : remap P d b = b → remapped_to P P d b b.
Proof. done. Qed.

Lemma remapped_to_insert P d b r e :
  P !! (d, b) = Some e → 0 ≤ r < 2 ^ 16 →
  remapped_to P (<[(d, b) := fset remappedPhyBlock r e]> P) d b r.
Proof.
  intros He Hr. unfold remapped_to, is_bad, remap. split_and!.
  - intros d' x. destruct (decide ((d', x) = (d, b))) as [[= -> ->]|Hne].
    + by rewrite lookup_insert_eq, He.
    + by rewrite lookup_insert_ne by congruence.
  - intros d' x Hne. by rewrite lookup_insert_ne by congruence.
  - rewrite lookup_insert_eq. cbn. by apply wrap_small.
Qed.

Lemma phys_insert P d b e e' : phys P → P !! (d, b) = Some e' → phys (<[(d, b) := e]> P).
Proof.
  intros HP He d' x. rewrite lookup_insert_is_Some', (HP d' x).
  assert (is_Some (P !! (d, b))) as Hs by eauto. apply HP in Hs. naive_solver.
Qed.

(** The scan for a good reserved block. *)
Lemma wp_scan d base r0 P s (Φ : Z * bool → RSt W → Prop) :
  phys P → r_phyBlock s = P → 0 ≤ d < USER_DIES → base = 0 ∨ base = TOTAL_BLOCKS_PER_LUN →
  let limit := base + TOTAL_BLOCKS_PER_LUN in
  base ≤ r0 < limit →
  (∀ r (flag : bool), r0 ≤ r ≤ limit → (∀ x, r0 ≤ x < r → is_bad P d x = true) →
     (if flag then r < limit ∧ is_bad P d r = false else r = limit) → Φ (r, flag) s) →
  wp (loop (Datatypes.S (Z.to_nat (limit - r0))) (λ r,
      b <- !(phyBlock.[(d, r)]∙phyBad) ;;
      if b =? 0 then ret (inr (r, true)) else
      if r + 1 >=? limit then ret (inr (r + 1, false)) else ret (inl (r + 1))) r0) Φ s.
Proof.
  intros HP Hs Hd Hbase limit Hr0 HΦ.
  apply (wp_loop (λ r s', s' = s ∧ r0 ≤ r < limit ∧ ∀ x, r0 ≤ x < r → is_bad P d x = true)
           (λ r _, Z.to_nat (limit - r))); [lia|split_and!; [done|lia|lia|intros; lia]|].
  intros r s' (-> & Hr & Hx).
  destruct (proj2 (HP d r)) as [e He].
  { subst limit. unfold TOTAL_BLOCKS_PER_DIE, LUNS_PER_DIE. lia. }
  assert (Hbad : is_bad P d r = negb (phyBad e =? 0)) by (unfold is_bad; by rewrite He).
  apply wp_bind. eapply wp_load; [cbn; by rewrite Hs, He|].
  destruct (phyBad e =? 0); cbn in Hbad.
  { apply wp_ret, HΦ; [lia|done|]. split; [lia|done]. }
  assert (Hx' : ∀ x, r0 ≤ x < r + 1 → is_bad P d x = true)
    by (intros x ?; destruct (decide (x = r)) as [-> |]; [done|apply Hx; lia]).
  rewrite Z.geb_leb. destruct (Z.leb_spec limit (r + 1)).
  - apply wp_ret, HΦ; [lia|done|lia].
  - apply wp_ret. split_and!; try done; lia.
Qed.

(** One block: it keeps its place when it is good, gets the next good reserved
    block of its LUN when it is bad, and is counted when there is none. *)
Lemma remap_block_spec d base i r P s :
  phys P → r_phyBlock s = P → 0 ≤ d < USER_DIES → base = 0 ∨ base = TOTAL_BLOCKS_PER_LUN →
  0 ≤ i < USER_BLOCKS_PER_LUN → LunInv P d base i r →
  wp (remap_block d (base + i) r (base + TOTAL_BLOCKS_PER_LUN)) (λ '(r', n) s', ∃ P' y,
    s' = fset r_phyBlock P' s ∧ phys P' ∧ remapped_to P P' d (base + i) y ∧
    LunInv P' d base (i + 1) r' ∧ n = Z.b2z (is_bad P d y)) s.
Proof.
  intros HP Hs Hd Hbase Hi HL. geometry. pose proof (li_cursor _ _ _ _ _ HL) as Hc.
  assert (Hself : remap P d (base + i) = base + i) by (apply (li_rest _ _ _ _ _ HL); lia).
  destruct (proj2 (HP d (base + i))) as [e He].
  { unfold TOTAL_BLOCKS_PER_DIE, LUNS_PER_DIE, TOTAL_BLOCKS_PER_LUN, MAIN_BLOCKS_PER_LUN,
      EXTENDED_BLOCKS_PER_LUN in *. lia. }
  assert (Hbad : is_bad P d (base + i) = negb (phyBad e =? 0)) by (unfold is_bad; by rewrite He).
  assert (Hset : fset r_phyBlock P s = s) by (rewrite <- Hs; by destruct s).
  unfold remap_block. apply wp_bind. eapply wp_load; [cbn; by rewrite Hs, He|].
  destruct (phyBad e =? 0); cbn in Hbad.
  { apply wp_ret. exists P, (base + i). rewrite Hset, Hbad. split_and!; try done.
    apply (LunInv_step P P d base i r r (base + i)); try done; try lia.
    left. rewrite Hbad. done. }
  destruct (Z.ltb_spec r (base + TOTAL_BLOCKS_PER_LUN)); cycle 1.
  { apply wp_ret. exists P, (base + i). rewrite Hset, Hbad. split_and!; try done.
    apply (LunInv_step P P d base i r r (base + i)); try done; try lia. }
  apply wp_bind, (wp_scan _ _ _ P); try done; [lia|]. intros r' flag Hr' Hx Hflag. destruct flag.
  - destruct Hflag as [Hlt Hg].
    assert (0 ≤ r' < 2 ^ 16) by (unfold TOTAL_BLOCKS_PER_LUN, MAIN_BLOCKS_PER_LUN,
      EXTENDED_BLOCKS_PER_LUN in *; lia).
    apply wp_bind. eapply wp_store; [cbn; by rewrite Hs, He|]. cbn. rewrite Hs, He.
    exists (<[(d, base + i) := fset remappedPhyBlock r' e]> P), r'. rewrite Hg.
    pose proof (remapped_to_insert P d (base + i) r' e He ltac:(done)) as Hto.
    split_and!; try done; [by eapply phys_insert|].
    apply (LunInv_step P _ d base i r (r' + 1) r'); try done; [lia|right; split_and!; try done; lia|].
    intros x Hxr Hgx. destruct (decide (x = r')); [done|]. rewrite Hx in Hgx; [done|lia].
  - apply wp_ret. exists P, (base + i). rewrite Hset, Hbad. split_and!; try done.
    apply (LunInv_step P P d base i r r' (base + i)); try done; [left; split; [done|lia]|].
    intros x Hxr Hgx. rewrite Hx in Hgx; [done|lia].
Qed.

(** ** The loops *)

Lemma LunInv_ext P P' d base i r :
  (∀ d' x, is_bad P' d' x = is_bad P d' x) →
  (∀ b, base ≤ b < base + USER_BLOCKS_PER_LUN → remap P' d b = remap P d b) →
  0 ≤ i ≤ USER_BLOCKS_PER_LUN → LunInv P d base i r → LunInv P' d base i r.
Proof.
  intros Hb Hm Hi [Hc Hd Hj Hu Hr]. split; [done| | | |].
  - intros b Hbr. rewrite Hm, !Hb by lia. auto.
  - intros b b' Hbr Hbr'. rewrite !Hm by lia. auto.
  - intros x Hx. rewrite Hb. intros Hg. destruct (Hu x Hx Hg) as (b & ? & ?).
    exists b. rewrite Hm by lia. auto.
  - intros b Hbr. rewrite Hm by lia. auto.
Qed.

(** A block with no good replacement. *)
Definition stuck P d b : bool := is_bad P d (remap P d b).

(** The locals of one die after its user blocks below [i]. *)
Definition DieLocals P d i (l : Z * Z * Z) : Prop :=
  let '(lun0, lun1, n) := l in
  LunInv P d 0 i lun0 ∧ LunInv P d TOTAL_BLOCKS_PER_LUN i lun1 ∧
  n = count (stuck P d) i + count (λ b, stuck P d (b + TOTAL_BLOCKS_PER_LUN)) i.

Lemma user_blocks_fit : USER_BLOCKS_PER_LUN < TOTAL_BLOCKS_PER_LUN.
Proof.
  geometry. unfold TOTAL_BLOCKS_PER_LUN, MAIN_BLOCKS_PER_LUN, EXTENDED_BLOCKS_PER_LUN. lia.
Qed.

Lemma DieLocals_ext P P' d i l :
  0 ≤ i ≤ USER_BLOCKS_PER_LUN → (∀ d' x, is_bad P' d' x = is_bad P d' x) →
  (∀ b, remap P' d b = remap P d b) → DieLocals P d i l → DieLocals P' d i l.
Proof.
  intros Hi Hb Hm. destruct l as [[lun0 lun1] n]. intros (H0' & H1' & ->).
  split_and!; [eapply LunInv_ext; eauto; lia|eapply LunInv_ext; eauto; lia|].
  unfold stuck. f_equal; apply count_ext; intros; by rewrite Hm, Hb.
Qed.

Lemma remap_die_spec d i l (x : remap_locals) P s :
  phys P → r_phyBlock s = P → 0 ≤ d < USER_DIES → 0 ≤ i < USER_BLOCKS_PER_LUN →
  x !! d = Some l → DieLocals P d i l →
  wp (remap_die i d x) (λ x' s', ∃ P' l',
    s' = fset r_phyBlock P' s ∧ phys P' ∧ (∀ d' b, is_bad P' d' b = is_bad P d' b) ∧
    (∀ d' b, d' ≠ d → remap P' d' b = remap P d' b) ∧
    x' = <[d := l']> x ∧ DieLocals P' d (i + 1) l') s.
Proof.
  intros HP Hs Hd Hi Hx. pose proof user_blocks_fit as Hfit.
  destruct l as [[lun0 lun1] n]. intros (HL0 & HL1 & ->).
  unfold remap_die. apply wp_bind. eapply wp_from_option; [done|].
  apply wp_bind. eapply wp_mono; [apply (remap_block_spec d 0 i lun0 P); auto|].
  intros [r0 n0] s1 (P1 & y0 & -> & HP1 & (Hb1 & Ho1 & Hy0) & HL0' & ->).
  rewrite Z.add_0_l in *.
  assert (HL1' : LunInv P1 d TOTAL_BLOCKS_PER_LUN i lun1).
  { eapply LunInv_ext; [done| |lia|exact HL1]. intros b Hbr. apply Ho1. intros [=]. lia. }
  apply wp_bind. rewrite Z.add_comm.
  change TOTAL_BLOCKS_PER_DIE with (TOTAL_BLOCKS_PER_LUN + TOTAL_BLOCKS_PER_LUN).
  eapply wp_mono; [apply (remap_block_spec d TOTAL_BLOCKS_PER_LUN i lun1 P1); auto|].
  intros [r1 n1] s2 (P2 & y1 & -> & HP2 & (Hb2 & Ho2 & Hy1) & HL1'' & ->).
  apply wp_ret. exists P2, (r0, r1, count (stuck P d) i
    + count (λ b, stuck P d (b + TOTAL_BLOCKS_PER_LUN)) i + Z.b2z (is_bad P d y0) + Z.b2z (is_bad P1 d y1)).
  assert (Hm0 : ∀ b, b < TOTAL_BLOCKS_PER_LUN → remap P2 d b = remap P1 d b)
    by (intros b ?; apply Ho2; intros [=]; lia).
  split_and!; [by destruct s|done|congruence| |done|].
  { intros d' b Hne. rewrite Ho2, Ho1 by congruence. done. }
  assert (Hc0 : count (stuck P2 d) i = count (stuck P d) i).
  { apply count_ext. intros b Hbr. unfold stuck. rewrite Hm0, Ho1, Hb2, Hb1 by (lia || intros [=]; lia). done. }
  assert (Hc1 : count (λ b, stuck P2 d (b + TOTAL_BLOCKS_PER_LUN)) i
                = count (λ b, stuck P d (b + TOTAL_BLOCKS_PER_LUN)) i).
  { apply count_ext. intros b Hbr. unfold stuck.
    rewrite Ho2, Ho1, Hb2, Hb1 by (intros [=]; lia). done. }
  split_and!; [eapply LunInv_ext; eauto; [|lia]; intros; apply Hm0; lia|done|].
  rewrite !count_succ, Hc0, Hc1 by lia. unfold stuck.
  rewrite Hm0, Hy0, (Z.add_comm i), Hy1, !Hb2, !Hb1 by lia. unfold Z.b2z.
  destruct (is_bad P d y0), (is_bad P d y1); lia.
Qed.

(** All dies: those below [k] have treated block [i], the others not yet. *)
Definition Remapping (s0 : RSt W) i k (x : remap_locals) s : Prop :=
  let P := r_phyBlock s in
  s = fset r_phyBlock P s0 ∧ phys P ∧ (∀ d b, is_bad P d b = is_bad (r_phyBlock s0) d b) ∧
  ∀ d, 0 ≤ d < USER_DIES → ∃ l, x !! d = Some l ∧ DieLocals P d (if d <? k then i + 1 else i) l.

Lemma Remapping_step s0 i k x s :
  0 ≤ i < USER_BLOCKS_PER_LUN → 0 ≤ k < USER_DIES → Remapping s0 i k x s →
  wp (remap_die i k x) (Remapping s0 i (k + 1)) s.
Proof.
  intros Hi Hk (Es & HP & Hb & HD).
  destruct (HD k Hk) as (l & Hl & HDk). rewrite Z.ltb_irrefl in HDk.
  eapply wp_mono; [by eapply remap_die_spec|].
  intros x' s' (P' & l' & -> & HP' & Hb' & Hm' & -> & HDk'). split_and!.
  - rewrite Es. by destruct s0.
  - done.
  - intros d b. cbn. rewrite Hb'. apply Hb.
  - intros d Hd. change (r_phyBlock (fset r_phyBlock P' s)) with P'.
    unfold remap_locals in *. destruct (decide (d = k)) as [-> |Hne].
    + exists l'. rewrite lookup_insert_eq. split; [done|]. by destruct (Z.ltb_spec k (k + 1)); [|lia].
    + destruct (HD d Hd) as (m & Hm & HDd). exists m. rewrite lookup_insert_ne by done. split; [done|].
      assert ((d <? k + 1) = (d <? k)) as -> by (case_Z; lia).
      eapply DieLocals_ext; [|done| |exact HDd]; [case_Z; lia|]. intros b. by apply Hm'.
Qed.

Lemma Remapping_next s0 i x s : Remapping s0 i USER_DIES x s ↔ Remapping s0 (i + 1) 0 x s.
Proof.
  unfold Remapping. do 3 (apply and_iff_compat_l).
  split; intros HD d Hd; destruct (HD d Hd) as (l & Hl & HDl); exists l;
    (split; [done|]); revert HDl; case_Z; (lia || done).
Qed.

Lemma remap_loops_spec s0 x s :
  Remapping s0 0 0 x s →
  wp (for_acc 0 USER_BLOCKS_PER_LUN (λ blockNo x, for_acc 0 USER_DIES (remap_die blockNo) x) x)
    (Remapping s0 USER_BLOCKS_PER_LUN 0) s.
Proof.
  intros HR. geometry.
  apply (wp_for_acc (λ i x s, Remapping s0 i 0 x s)); [lia|done|].
  intros i x' s' Hi HR'. eapply wp_mono.
  - apply (wp_for_acc (λ k x s, Remapping s0 i k x s)); [lia|done|].
    intros k x'' s'' Hk. apply Remapping_step; done.
  - intros x'' s''. apply Remapping_next.
Qed.

Lemma count_app (f : Z → bool) n m :
  0 ≤ n → 0 ≤ m → count f (n + m) = count f n + count (λ i, f (n + i)) m.
Proof.
  intros Hn Hm. pattern m. apply natlike_ind; [| |done].
  - rewrite Z.add_0_r. change (count (λ i, f (n + i)) 0) with 0. lia.
  - intros k Hk IH. rewrite <- !Z.add_1_r, Z.add_assoc, !count_succ, IH by lia. lia.
Qed.

(** ** What remapping promises *)

(** Of every die: a good user block keeps its place; a bad one is replaced by a
    good reserved block of its LUN, or keeps its place when all good reserved
    blocks of the LUN are in use; no two user blocks share a physical block. *)
Definition RemapOk P : Prop :=
  phys P ∧ ∀ d, 0 ≤ d < USER_DIES →
  (∀ v, 0 ≤ v < USER_BLOCKS_PER_DIE →
     let b := Vblock2PblockOfTbsTranslation v in
     let r := remap P d b in
     0 ≤ r < TOTAL_BLOCKS_PER_DIE ∧ r / TOTAL_BLOCKS_PER_LUN = v / USER_BLOCKS_PER_LUN ∧
     (is_bad P d b = false → r = b) ∧
     (is_bad P d b = true → is_bad P d r = true →
        r = b ∧ ∀ x, x / TOTAL_BLOCKS_PER_LUN = r / TOTAL_BLOCKS_PER_LUN →
          USER_BLOCKS_PER_LUN ≤ x mod TOTAL_BLOCKS_PER_LUN → is_bad P d x = false →
          ∃ v', 0 ≤ v' < USER_BLOCKS_PER_DIE ∧ remap P d (Vblock2PblockOfTbsTranslation v') = x)) ∧
  (∀ v v', 0 ≤ v < USER_BLOCKS_PER_DIE → 0 ≤ v' < USER_BLOCKS_PER_DIE →
     remap P d (Vblock2PblockOfTbsTranslation v) = remap P d (Vblock2PblockOfTbsTranslation v') →
     v = v').

(** The number of user blocks of a die without a good physical block. *)
Definition bad_count P d : Z :=
  count (λ v, stuck P d (Vblock2PblockOfTbsTranslation v)) USER_BLOCKS_PER_DIE.

(** A user block is block [i] of the LUN at [base]. *)
Lemma Vblock_lun v :
  0 ≤ v < USER_BLOCKS_PER_DIE → ∃ base i, 0 ≤ i < USER_BLOCKS_PER_LUN ∧
    (base = 0 ∧ v = i ∧ v / USER_BLOCKS_PER_LUN = 0 ∨
     base = TOTAL_BLOCKS_PER_LUN ∧ v = USER_BLOCKS_PER_LUN + i ∧ v / USER_BLOCKS_PER_LUN = 1) ∧
    Vblock2PblockOfTbsTranslation v = base + i.
Proof.
  intros Hv. geometry. rewrite USER_BLOCKS_PER_DIE_eq in Hv. unfold Vblock2PblockOfTbsTranslation.
  destruct (Z.ltb_spec v USER_BLOCKS_PER_LUN).
  - exists 0, v. rewrite Z.div_small, Z.mod_small by lia. split_and!; [lia|lia|by left|lia].
  - assert (v / USER_BLOCKS_PER_LUN = 1) as E
      by (symmetry; apply (Z.div_unique _ _ _ (v - USER_BLOCKS_PER_LUN)); lia).
    exists TOTAL_BLOCKS_PER_LUN, (v - USER_BLOCKS_PER_LUN). rewrite E, Z.mod_eq, E by lia.
    split_and!; [lia|lia|right; split_and!; lia|lia].
Qed.

Lemma bad_count_eq P d :
  bad_count P d = count (stuck P d) USER_BLOCKS_PER_LUN
    + count (λ b, stuck P d (b + TOTAL_BLOCKS_PER_LUN)) USER_BLOCKS_PER_LUN.
Proof.
  geometry. unfold bad_count.
  replace USER_BLOCKS_PER_DIE with (USER_BLOCKS_PER_LUN + USER_BLOCKS_PER_LUN)
    by (rewrite USER_BLOCKS_PER_DIE_eq; lia).
  rewrite count_app by lia. f_equal; apply count_ext; intros i Hi; f_equal.
  - destruct (Vblock_lun i) as (? & ? & ? & [(-> & ? & ?)|(? & ? & ?)] & ->);
      rewrite ?USER_BLOCKS_PER_DIE_eq; lia.
  - destruct (Vblock_lun (USER_BLOCKS_PER_LUN + i)) as (? & ? & ? & [(? & ? & ?)|(-> & ? & ?)] & ->);
      rewrite ?USER_BLOCKS_PER_DIE_eq; lia.
Qed.

(** One LUN, all of whose user blocks are treated. *)
Lemma LunInv_result P d base r i :
  LunInv P d base USER_BLOCKS_PER_LUN r → 0 ≤ i < USER_BLOCKS_PER_LUN →
  base ≤ remap P d (base + i) < base + TOTAL_BLOCKS_PER_LUN ∧
  (is_bad P d (base + i) = false → remap P d (base + i) = base + i) ∧
  (is_bad P d (base + i) = true → stuck P d (base + i) = true →
   remap P d (base + i) = base + i ∧ ∀ x,
     base + USER_BLOCKS_PER_LUN ≤ x < base + TOTAL_BLOCKS_PER_LUN → is_bad P d x = false →
     ∃ b, base ≤ b < base + USER_BLOCKS_PER_LUN ∧ remap P d b = x).
Proof.
  intros [Hc Hd _ Hu _] Hi. pose proof user_blocks_fit.
  destruct (Hd (base + i)) as [[-> Hfull]|(Hbad & Hr & Hg)]; [lia| |].
  - split_and!; [lia|lia|done|]. intros Hbad _. split; [done|].
    intros x Hx. apply Hu. rewrite Hfull by done. lia.
  - split_and!; [lia|lia|congruence|]. unfold stuck. congruence.
Qed.

Lemma DieLocals_RemapOk P :
  phys P → (∀ d, 0 ≤ d < USER_DIES → ∃ l, DieLocals P d USER_BLOCKS_PER_LUN l) → RemapOk P.
Proof.
  intros HP HD. split; [done|]. intros d Hd. destruct (HD d Hd) as ([[l0 l1] n] & HL0 & HL1 & _).
  pose proof user_blocks_fit as Hfit. geometry. pose proof USER_BLOCKS_PER_DIE_eq.
  assert (Hlun : ∀ base x, base = 0 ∨ base = TOTAL_BLOCKS_PER_LUN →
    base ≤ x < base + TOTAL_BLOCKS_PER_LUN →
    x / TOTAL_BLOCKS_PER_LUN = base / TOTAL_BLOCKS_PER_LUN).
  { intros base x [-> | ->] Hx; [by rewrite !Z.div_small by lia|].
    rewrite Z.div_same by lia. symmetry. apply (Z.div_unique _ _ _ (x - TOTAL_BLOCKS_PER_LUN)); lia. }
  assert (HL : ∀ base, base = 0 ∨ base = TOTAL_BLOCKS_PER_LUN →
    ∃ r, LunInv P d base USER_BLOCKS_PER_LUN r) by (intros ? [-> | ->]; eauto). split.
  - intros v Hv. destruct (Vblock_lun v Hv) as (base & i & Hi & Hbase & ->). cbn zeta.
    assert (Hb : base = 0 ∨ base = TOTAL_BLOCKS_PER_LUN) by lia. destruct (HL base Hb) as [r HLb].
    destruct (LunInv_result P d base r i HLb Hi) as (Hr & Hgood & Hstuck).
    rewrite (Hlun base) by done. split_and!; [lia|unfold TOTAL_BLOCKS_PER_DIE, LUNS_PER_DIE; lia| |done|].
    + destruct Hbase as [(-> & _ & ->)|(-> & _ & ->)]; [by rewrite Z.div_0_l by lia|by rewrite Z.div_same by lia].
    + intros Hbad Hbad'. destruct (Hstuck Hbad Hbad') as [-> Hall]. split; [done|].
      intros x Hx Hm Hg.
      assert (Hxr : base + USER_BLOCKS_PER_LUN ≤ x < base + TOTAL_BLOCKS_PER_LUN).
      { rewrite (Z.div_mod x TOTAL_BLOCKS_PER_LUN), Hx by lia.
        pose proof (Z.mod_pos_bound x TOTAL_BLOCKS_PER_LUN ltac:(lia)).
        destruct Hb as [-> | ->]; rewrite ?Z.div_0_l, ?Z.div_same by lia; lia. }
      destruct (Hall x Hxr Hg) as (b & Hbr & <-).
      exists ((base / TOTAL_BLOCKS_PER_LUN) * USER_BLOCKS_PER_LUN + (b - base)).
      assert (Hv' : 0 ≤ base / TOTAL_BLOCKS_PER_LUN * USER_BLOCKS_PER_LUN + (b - base) < USER_BLOCKS_PER_DIE)
        by (destruct Hb as [-> | ->]; rewrite ?Z.div_0_l, ?Z.div_same by lia; lia).
      split; [done|]. destruct (Vblock_lun _ Hv') as (base' & i' & Hi' & Hbase' & ->). f_equal.
      destruct Hb as [-> | ->]; rewrite ?Z.div_0_l, ?Z.div_same in * by lia; lia.
  - intros v v' Hv Hv'. destruct (Vblock_lun v Hv) as (base & i & Hi & Hbase & ->).
    destruct (Vblock_lun v' Hv') as (base' & i' & Hi' & Hbase' & ->). intros E.
    destruct (HL base) as [r HLb]; [lia|]. destruct (HL base') as [r' HLb']; [lia|].
    destruct (LunInv_result P d base r i HLb Hi) as (Hr & _).
    destruct (LunInv_result P d base' r' i' HLb' Hi') as (Hr' & _).
    assert (base = base') as <- by lia.
    assert (base + i = base + i') by (eapply (li_inj _ _ _ _ _ HLb); done || lia). lia.
Qed.

(** The maximum over the dies. *)
Lemma wp_max_bad (x : remap_locals) (n : Z → Z) (S : FSt W) (Φ : Z → FSt W → Prop) :
  (∀ d, 0 ≤ d < USER_DIES → 0 ≤ n d ∧ ∃ l0 l1, x !! d = Some (l0, l1, n d)) →
  (∀ m, (∀ d, 0 ≤ d < USER_DIES → n d ≤ m) → (∃ d, 0 ≤ d < USER_DIES ∧ n d = m) → Φ m S) →
  wp (for_acc 0 USER_DIES (λ dieNo m,
        '(_, _, bad) <- from_option (x !! dieNo) ;; ret (if m <? bad then bad else m)) 0) Φ S.
Proof.
  intros Hx HΦ. geometry. eapply wp_mono.
  - apply (wp_for_acc (λ k m S', S' = S ∧ 0 ≤ m ∧ (∀ d, 0 ≤ d < k → n d ≤ m) ∧
      (m = 0 ∨ ∃ d, 0 ≤ d < USER_DIES ∧ n d = m))); [lia|split_and!; auto; lia|].
    intros k m S' Hk (-> & Hm & Hle & Hex). destruct (Hx k Hk) as (Hn & l0 & l1 & Hl).
    apply wp_bind. eapply wp_from_option; [done|]. apply wp_ret.
    assert (Hcase : ∀ d, 0 ≤ d < k + 1 → d = k ∨ 0 ≤ d < k) by lia.
    destruct (Z.ltb_spec m (n k)); split_and!; try done.
    + intros d Hd. destruct (Hcase d Hd) as [-> |Hd']; [lia|]. specialize (Hle d Hd'). lia.
    + right. by exists k.
    + intros d Hd. destruct (Hcase d Hd) as [-> |Hd']; [lia|]. auto.
  - intros m S' (-> & Hm & Hle & Hex). apply HΦ; [done|].
    destruct Hex as [-> |?]; [|done]. exists 0. split; [lia|].
    specialize (Hle 0). destruct (Hx 0); lia.
Qed.

(** No block is replaced yet, and the cursors are at the first reserved blocks. *)
Lemma Remapping_start s0 x :
  phys (r_phyBlock s0) →
  (∀ d b, 0 ≤ b < TOTAL_BLOCKS_PER_DIE → remap (r_phyBlock s0) d b = b) →
  (∀ d, 0 ≤ d < USER_DIES →
     x !! d = Some (USER_BLOCKS_PER_LUN, TOTAL_BLOCKS_PER_LUN + USER_BLOCKS_PER_LUN, 0)) →
  Remapping s0 0 0 x s0.
Proof.
  intros HP Hid Hx. pose proof user_blocks_fit. split_and!; [by destruct s0|done|done|].
  intros d Hd. exists (USER_BLOCKS_PER_LUN, TOTAL_BLOCKS_PER_LUN + USER_BLOCKS_PER_LUN, 0).
  split; [by apply Hx|]. replace (if d <? 0 then 0 + 1 else 0) with 0 by (case_Z; lia).
  assert (HL : ∀ base, base = 0 ∨ base = TOTAL_BLOCKS_PER_LUN →
    LunInv (r_phyBlock s0) d base 0 (base + USER_BLOCKS_PER_LUN)).
  { intros base Hb. split; try lia. intros b Hbr. apply Hid.
    unfold TOTAL_BLOCKS_PER_DIE, LUNS_PER_DIE. geometry. lia. }
  split_and!; [apply (HL 0); auto|apply HL; auto|done].
Qed.

Lemma wp_init_locals (S : FSt W) (Φ : remap_locals → FSt W → Prop) :
  let l := (USER_BLOCKS_PER_LUN, TOTAL_BLOCKS_PER_LUN + USER_BLOCKS_PER_LUN, 0) in
  (∀ x, (∀ d, 0 ≤ d < USER_DIES → x !! d = Some l) → Φ x S) →
  wp (for_acc 0 USER_DIES (λ dieNo x, ret (<[dieNo := l]> x)) ∅) Φ S.
Proof.
  intros l HΦ. geometry. eapply wp_mono.
  - apply (wp_for_acc (λ k (x : remap_locals) S', S' = S ∧ ∀ d, 0 ≤ d < k → x !! d = Some l));
      [lia|split; [done|lia]|].
    intros k x S' Hk [-> Hx]. apply wp_ret. split; [done|]. intros d Hd. unfold remap_locals in *.
    destruct (decide (d = k)) as [-> |]; [by rewrite lookup_insert_eq|].
    rewrite lookup_insert_ne by done. apply Hx. lia.
  - intros x S' [-> Hx]. by apply HΦ.
Qed.

(** C19: RemapBadBlock replaces the bad user blocks.  From the identity map it
    returns with a map in which every good user block keeps its place, every
    bad one gets a good reserved block of its own LUN (or keeps its place when
    none of that LUN is left), and no two user blocks share a physical block.
    The bad marks stay, and the space reported as lost is that of the die with
    most blocks left bad. *)
Theorem remap_bad_block (S : FSt W) :
  phys (r_phyBlock (f_r S)) →
  (∀ d b, 0 ≤ b < TOTAL_BLOCKS_PER_DIE → remap (r_phyBlock (f_r S)) d b = b) →
  wp RemapBadBlock (λ _ S', ∃ P m,
    S' = fset f_mbPerbadBlockSpace (m * USER_DIES * MB_PER_BLOCK)
           (fset f_r (fset r_phyBlock P (f_r S)) S) ∧
    RemapOk P ∧ (∀ d b, is_bad P d b = is_bad (r_phyBlock (f_r S)) d b) ∧
    (∀ d, 0 ≤ d < USER_DIES → bad_count P d ≤ m) ∧
    (∃ d, 0 ≤ d < USER_DIES ∧ bad_count P d = m)) S.
Proof.
  intros HP Hid. unfold RemapBadBlock. apply wp_bind, wp_init_locals. intros x Hx.
  apply wp_bind, wp_zoom. eapply wp_mono; [by apply remap_loops_spec, Remapping_start|].
  intros x' s' (Es & HP' & Hb & HD).
  assert (HD' : ∀ d, 0 ≤ d < USER_DIES →
    ∃ l, x' !! d = Some l ∧ DieLocals (r_phyBlock s') d USER_BLOCKS_PER_LUN l).
  { intros d Hd. destruct (HD d Hd) as (l & Hl & HDl). exists l. split; [done|].
    revert HDl. case_Z; [lia|done]. }
  apply wp_bind, (wp_max_bad x' (bad_count (r_phyBlock s'))).
  { intros d Hd. destruct (HD' d Hd) as ([[l0 l1] n] & Hl & _ & _ & ->). rewrite <- bad_count_eq in Hl.
    geometry. split; [apply count_bound; lia|eauto]. }
  intros m Hle Hex. eapply wp_store; [done|]. exists (r_phyBlock s'), m.
  split_and!; try done; [cbn; by rewrite <- Es|].
  apply DieLocals_RemapOk; [done|]. intros d Hd. destruct (HD' d Hd) as (l & _ & HDl). eauto.
Qed.

(** ** The row address of a virtual slice *)

Definition vsa_row P (vsa : Z) : Z :=
  let b := Vblock2PblockOfTbsTranslation (Vsa2VblockTranslation vsa) in
  row_addr (b / TOTAL_BLOCKS_PER_LUN) (remap P (Vsa2VdieTranslation vsa) b mod TOTAL_BLOCKS_PER_LUN)
    (flash_page (Vsa2VpageTranslation vsa)).

Definition vsa_request s (tag vsa : Z) : Prop :=
  ∃ r : SSD_REQ_FORMAT, q_reqPool (r_q s) !! tag = Some r ∧ nandAddr (reqOpt r) = REQ_OPT_NAND_ADDR_VSA ∧
       virtualSliceAddr (nandInfo r) = vsa ∧ 0 ≤ vsa < SLICES_PER_SSD.

Lemma wp_GenerateNandRowAddr s (tag vsa : Z) (Φ : Z → RSt W → Prop) :
  phys (r_phyBlock s) → vsa_request s tag vsa → Φ (vsa_row (r_phyBlock s) vsa) s →
  wp (GenerateNandRowAddr tag) Φ s.
Proof.
  intros HP (r & Hr & Ha & <- & Hv) HΦ. destruct (Vsa2V_bound _ Hv) as (Hd & Hb & Hp).
  unfold GenerateNandRowAddr. apply wp_bind. eapply wp_load; [done|]. rewrite Ha. cbn [Z.eqb].
  destruct (Vblock2PblockOfTbs_bound _ Hb) as (Hpb & _).
  destruct (proj2 (HP (Vsa2VdieTranslation (virtualSliceAddr (nandInfo r))) (Vblock2PblockOfTbsTranslation
    (Vsa2VblockTranslation (virtualSliceAddr (nandInfo r)))))) as [e He]; [done|].
  apply wp_bind. eapply wp_load; [cbn; by rewrite He|]. apply wp_ret.
  revert HΦ. unfold vsa_row, remap, flash_page. by rewrite He.
Qed.

(** The parts of the row address, for a map that remapping left. *)
Lemma vsa_row_parts P vsa :
  RemapOk P → 0 ≤ vsa < SLICES_PER_SSD →
  let r := remap P (Vsa2VdieTranslation vsa)
             (Vblock2PblockOfTbsTranslation (Vsa2VblockTranslation vsa)) in
  block_of_row (vsa_row P vsa) = r ∧
  vsa_row P vsa mod LUN_1_BASE_ADDR mod PAGES_PER_MLC_BLOCK = flash_page (Vsa2VpageTranslation vsa).
Proof.
  intros [HP HR] Hv. destruct (Vsa2V_bound _ Hv) as (Hd & Hb & Hp). cbn zeta.
  destruct (HR _ Hd) as [Hok _]. destruct (Hok _ Hb) as (Hr & Hlun & _).
  destruct (Vblock2PblockOfTbs_bound _ Hb) as (_ & El & _).
  pose proof (flash_page_bound _ Hp) as Hfp. destruct (Vblock_split _ Hb) as [Hl _].
  unfold vsa_row. rewrite El. set (r := remap _ _ _) in *.
  assert (0 ≤ r mod TOTAL_BLOCKS_PER_LUN < TOTAL_BLOCKS_PER_LUN) by (by apply Z.mod_pos_bound).
  split; [|by apply row_addr_parts]. rewrite block_of_row_addr by done. rewrite <- Hlun.
  rewrite (Z.div_mod r TOTAL_BLOCKS_PER_LUN) at 3 by done. lia.
Qed.

(** Channel, way and row of a request. *)
Definition flash_address (tag : Z) : M (RSt W) (Z * Z * Z) :=
  '(chNo, wayNo, _, _) <- vsa_location tag ;;
  rowAddr <- GenerateNandRowAddr tag ;; ret (chNo, wayNo, rowAddr).

Lemma wp_flash_address s tag vsa (Φ : Z * Z * Z → RSt W → Prop) :
  phys (r_phyBlock s) → vsa_request s tag vsa →
  Φ (Vdie2PchTranslation (Vsa2VdieTranslation vsa), Vdie2PwayTranslation (Vsa2VdieTranslation vsa),
     vsa_row (r_phyBlock s) vsa) s →
  wp (flash_address tag) Φ s.
Proof.
  intros HP Hreq HΦ. pose proof Hreq as (r & Hr & Ha & E & _).
  unfold flash_address, vsa_location. apply wp_bind, wp_bind. eapply wp_load; [done|]. rewrite Ha.
  cbn [Z.eqb]. apply wp_ret, wp_bind. eapply wp_GenerateNandRowAddr; [done|done|].
  apply wp_ret. by rewrite E.
Qed.

(** C20: two requests with different virtual slice addresses never reach the same
    flash page: after remapping, the channel, way and row that are sent to the
    controllers determine the virtual slice. *)
Theorem flash_pages_distinct s tag tag' vsa vsa' :
  RemapOk (r_phyBlock s) → vsa_request s tag vsa → vsa_request s tag' vsa' → vsa ≠ vsa' →
  wp (a <- flash_address tag ;; a' <- flash_address tag' ;; ret (a, a'))
    (λ '(a, a') s', s' = s ∧ a ≠ a') s.
Proof.
  intros HR Hreq Hreq' Hne. pose proof (proj1 HR) as HP.
  pose proof Hreq as (_ & _ & _ & _ & Hv). pose proof Hreq' as (_ & _ & _ & _ & Hv').
  apply wp_bind. eapply wp_flash_address; [done|done|]. apply wp_bind.
  eapply wp_flash_address; [done|done|]. apply wp_ret. split; [done|]. intros [= Ec Ew Er].
  apply Hne. rewrite <- (Vorg2Vsa_Vsa2V vsa), <- (Vorg2Vsa_Vsa2V vsa').
  destruct (vsa_row_parts _ _ HR Hv) as [Eb Ep]. destruct (vsa_row_parts _ _ HR Hv') as [Eb' Ep'].
  rewrite Er in Eb, Ep. rewrite Eb' in Eb. rewrite Ep' in Ep.
  assert (Ed : Vsa2VdieTranslation vsa = Vsa2VdieTranslation vsa')
    by (rewrite <- (Pcw2Vdie_Vdie2P (Vsa2VdieTranslation vsa)), Ec, Ew; apply Pcw2Vdie_Vdie2P).
  rewrite Ed in *. destruct (Vsa2V_bound _ Hv) as (? & ? & ?), (Vsa2V_bound _ Hv') as (Hd & ? & ?).
  f_equal; [|symmetry; eapply flash_page_inj; done || lia].
  symmetry. by eapply (proj2 (proj2 HR _ Hd)).
Qed.

(** ** Failing requests *)

(** The tables of bad blocks. *)
Definition bad_tables s := (r_phyBlock s, r_bbtInfo s).

#[local] Instance keeps_finish_req c w : Keeps bad_tables (finish_req (W:=W) c w).
Proof. keeps_deep. Qed.

(** The request is not tried again. *)
Definition gives_up s c w (reqStatus : Z) (r : SSD_REQ_FORMAT) : Prop :=
  reqStatus = REQ_STATUS_WARNING ∨
  reqStatus = REQ_STATUS_FAIL ∧ ∃ n, s_retryLimit (r_sched s) !! (c, w) = Some n ∧
    ((reqCode r = REQ_CODE_READ ∨ reqCode r = REQ_CODE_READ_TRANSFER) → n ≤ 0).

(** The request at the head of a way whose die is executing it. *)
Definition executing s c w tag (r : SSD_REQ_FORMAT) : Prop :=
  (∃ q, q_queues (r_q s) !! nandReqQ c w = Some q ∧ headReq q = tag) ∧
  q_reqPool (r_q s) !! tag = Some r ∧
  (∃ m e, s_dieState (r_sched s) !! c = Some m ∧ m !! w = Some e ∧ dieState e = DIE_STATE_EXE).

(** Block [b] of die [d] is marked, and the table update is booked. *)
Definition failed s d b (_ : unit) (s' : RSt W) : Prop :=
  ∃ e info, r_phyBlock s !! (d, b) = Some e ∧
    r_phyBlock s' = <[(d, b) := fset phyBad BLOCK_STATE_BAD e]> (r_phyBlock s) ∧
    r_bbtInfo s !! d = Some info ∧
    r_bbtInfo s' = <[d := fset grownBadUpdate BBT_INFO_GROWN_BAD_UPDATE_BOOKED info]> (r_bbtInfo s).

Lemma wlp_mark_and_finish s c w d b :
  wlp (UpdatePhyBlockMapForGrownBadBlock d b ;; finish_req c w) (failed s d b) s.
Proof.
  unfold UpdatePhyBlockMapForGrownBadBlock. apply wlp_bind, wlp_bind, wlp_store. cbn. intros ? He.
  destruct (r_phyBlock s !! (d, b)) as [e|] eqn:Ee; [|done].
  apply wlp_store. cbn. intros ? Hi. destruct (r_bbtInfo s !! d) as [i|] eqn:Ei; [|done].
  eapply wlp_mono; [apply keeps_finish_req|]. intros [] s' [= E1 E2]. exists e, i. by rewrite E1, E2.
Qed.

End remap.
