(* ===== verification/Transform.v ===== *)
(** Transformation of NVMe commands into slice requests and of slice requests
    into flash and DMA requests (request_transform.c). *)
From S2P Require Import Prelude Config MemMap ReqFormat ReqQueues DataBuffer AddrMap State HostLld.
From S2P Require Import HostTime CustomIo LowLevel Schedule Ftl.

Definition IO_NVM_FLUSH := 0x00.
Definition IO_NVM_WRITE := 0x01.
Definition IO_NVM_READ := 0x02.
Definition IO_NVM_WRITE_READ := 0x66.

Section transform.
Context `{Config} {W : Type} `{Device W} `{Fuel}.

(** ** Commands to slices *)

(** The members of a slice request that depend on its place in the command. *)
Record slice_part := MkSlicePart {
  sp_lsa : Z;          (** logical slice *)
  sp_startIndex : Z;   (** first 4KB block of the command *)
  sp_offset : Z;       (** first 4KB block of the slice *)
  sp_num : Z;          (** number of 4KB blocks *)
}.

Definition slice_request (cmdSlotTag code fua custom : Z) (p : slice_part) : M (RSt W) unit :=
  reqSlotTag <- GetFromFreeReqQ ;;
  let r := rPool.[reqSlotTag] in
  r∙reqType ::= REQ_TYPE_SLICE ;;
  r∙reqCode ::= code ;;
  r∙nvmeCmdSlotTag ::= cmdSlotTag ;;
  r∙logicalSliceAddr ::= sp_lsa p ;;
  r∙nvmeDmaInfo∙startIndex ::= sp_startIndex p ;;
  r∙nvmeDmaInfo∙nvmeBlockOffset ::= sp_offset p ;;
  r∙nvmeDmaInfo∙numOfNvmeBlock ::= sp_num p ;;
  r∙nvmeDmaInfo∙issuedFlag ::= REQ_INFO_ISSUED_FLAG_OFF ;;
  r∙reqOpt∙forceUnitAccess ::= fua ;;
  r∙reqOpt∙customCmd ::= custom ;;
  r∙reqOpt∙ccmdDataBuf ::= REQ_OPT_CUSTOM_CMD_BUF_OFF ;;
  PutToSliceReqQ reqSlotTag.

(** The slice requests of a command, in the order they are made: the first one,
    the whole slices, and the rest. *)
Definition slice_parts (startLba nlb : Z) : list slice_part :=
  let requestedNvmeBlock := u32 (nlb + 1) in
  let offset := startLba mod NVME_BLOCKS_PER_SLICE in
  let loop := u32 (offset + requestedNvmeBlock) / NVME_BLOCKS_PER_SLICE in
  let lsa := startLba / NVME_BLOCKS_PER_SLICE in
  let num := if negb (loop =? 0) then NVME_BLOCKS_PER_SLICE - offset else requestedNvmeBlock in
  let last := u32 (startLba + requestedNvmeBlock) mod NVME_BLOCKS_PER_SLICE in
  MkSlicePart lsa 0 offset num ::
  ((λ i, MkSlicePart (lsa + i) (num + (i - 1) * NVME_BLOCKS_PER_SLICE) 0 NVME_BLOCKS_PER_SLICE)
     <$> seqZ 1 (loop - 1)) ++
  (if (last =? 0) || (loop =? 0) then []
   else [MkSlicePart (lsa + loop) (num + (loop - 1) * NVME_BLOCKS_PER_SLICE) 0 last]).

Definition ReqTransNvmeToSlice (cmdSlotTag startLba nlb cmdCode fua custom : Z) : M (RSt W) unit :=
  let requestedNvmeBlock := u32 (nlb + 1) in
  let tempLsa := startLba / NVME_BLOCKS_PER_SLICE in
  let loopCnt := u32 (startLba mod NVME_BLOCKS_PER_SLICE + requestedNvmeBlock) / NVME_BLOCKS_PER_SLICE in
  code <- (if cmdCode =? IO_NVM_WRITE then ret REQ_CODE_WRITE
           else if cmdCode =? IO_NVM_READ then ret REQ_CODE_READ else fail Assert) ;;
  AllocateHostReqTime cmdSlotTag code ;;
  let nvmeBlockOffset := startLba mod NVME_BLOCKS_PER_SLICE in
  let tempNumOfNvmeBlock := if negb (loopCnt =? 0) then NVME_BLOCKS_PER_SLICE - nvmeBlockOffset
                            else requestedNvmeBlock in
  slice_request cmdSlotTag code fua custom (MkSlicePart tempLsa 0 nvmeBlockOffset tempNumOfNvmeBlock) ;;
  '(tempLsa, nvmeDmaStartIndex) <- loop (Datatypes.S (Z.to_nat loopCnt))
    (λ '(tempLsa, transCounter, nvmeDmaStartIndex),
      if transCounter <? loopCnt then
        slice_request cmdSlotTag code fua custom
          (MkSlicePart tempLsa nvmeDmaStartIndex 0 NVME_BLOCKS_PER_SLICE) ;;
        ret (inl (tempLsa + 1, transCounter + 1, nvmeDmaStartIndex + NVME_BLOCKS_PER_SLICE))
      else ret (inr (tempLsa, nvmeDmaStartIndex)))
    (tempLsa + 1, 1, tempNumOfNvmeBlock) ;;
  let tempNumOfNvmeBlock := u32 (startLba + requestedNvmeBlock) mod NVME_BLOCKS_PER_SLICE in
  if (tempNumOfNvmeBlock =? 0) || (loopCnt =? 0) then skip else
  slice_request cmdSlotTag code fua custom (MkSlicePart tempLsa nvmeDmaStartIndex 0 tempNumOfNvmeBlock).

(** ** Slices to flash *)

(** The write-back of a dirty entry: the same lines in EvictDataBufEntry and
    EvictCcmdDataBufEntry, for the two buffers. *)
Definition evict_entry (buf : lval (RSt W) (gmap Z DATA_BUF_ENTRY))
    (block : Z → Z → M (RSt W) unit) (originReqSlotTag : Z) : M (FSt W) unit :=
  dataBufEntry <- rM (!(rPool.[originReqSlotTag]∙dataBufInfo∙entry)) ;;
  d <- rM (!(buf.[dataBufEntry]∙dirty)) ;;
  when (d =? DATA_BUF_DIRTY)
    (reqSlotTag <- rM GetFromFreeReqQ ;;
     lsa <- rM (!(buf.[dataBufEntry]∙bufLogicalSliceAddr)) ;;
     virtualSliceAddr <- AddrTransWrite lsa ;;
     o <- rM (!(rPool.[originReqSlotTag])) ;;
     rM (fill_nand_req reqSlotTag REQ_CODE_WRITE REQ_OPT_DATA_BUF_ENTRY REQ_OPT_NAND_ADDR_VSA
           (Some (REQ_OPT_NAND_ECC_ON, REQ_OPT_NAND_ECC_WARNING_ON))
           REQ_OPT_ROW_ADDR_DEPENDENCY_CHECK REQ_OPT_BLOCK_SPACE_MAIN
           (if reqCode o =? REQ_CODE_RxDMA then forceUnitAccess (reqOpt o)
            else REQ_OPT_FORCE_UNIT_ACCESS_OFF)
           (customCmd (reqOpt o)) (ccmdDataBuf (reqOpt o))) ;;
     rM (rPool.[reqSlotTag]∙nvmeCmdSlotTag ::= nvmeCmdSlotTag o) ;;
     lsa <- rM (!(buf.[dataBufEntry]∙bufLogicalSliceAddr)) ;;
     rM (rPool.[reqSlotTag]∙logicalSliceAddr ::= lsa) ;;
     rM (rPool.[reqSlotTag]∙dataBufInfo∙entry ::= dataBufEntry) ;;
     rM (block dataBufEntry reqSlotTag) ;;
     rM (rPool.[reqSlotTag]∙nandInfo∙ReqFormat.virtualSliceAddr ::= virtualSliceAddr) ;;
     c <- rM (!(rPool.[reqSlotTag]∙reqOpt∙customCmd)) ;;
     rM (when (c =? REQ_OPT_CUSTOM_CMD_ON)
           (GenerateDataBufAddr reqSlotTag ;;
            AllocateNotCompletedNandReqforCustomIoCmd (nvmeCmdSlotTag o))) ;;
     rM (SelectLowLevelReqQ reqSlotTag) ;;
     rM (buf.[dataBufEntry]∙dirty ::= DATA_BUF_CLEAN) ;;
     tag <- rM (!(rPool.[reqSlotTag]∙nvmeCmdSlotTag)) ;;
     rM (AllocateNandReqCntForBufferEviction tag)).

Definition EvictDataBufEntry : Z → M (FSt W) unit :=
  evict_entry rBuf UpdateDataBufEntryInfoBlockingReq.
Definition EvictCcmdDataBufEntry : Z → M (FSt W) unit :=
  evict_entry rCcmdBuf UpdateCcmdDataBufEntryInfoBlockingReq.

(** The fill of an entry from flash: DataReadFromNand and CcmdDataReadFromNand. *)
Definition read_entry (block : Z → Z → M (RSt W) unit) (originReqSlotTag : Z) : M (FSt W) unit :=
  lsa <- rM (!(rPool.[originReqSlotTag]∙logicalSliceAddr)) ;;
  virtualSliceAddr <- aM (AddrTransRead lsa) ;;
  when (negb (virtualSliceAddr =? VSA_FAIL))
    (reqSlotTag <- rM GetFromFreeReqQ ;;
     o <- rM (!(rPool.[originReqSlotTag])) ;;
     rM (fill_nand_req reqSlotTag REQ_CODE_READ REQ_OPT_DATA_BUF_ENTRY REQ_OPT_NAND_ADDR_VSA
           (Some (REQ_OPT_NAND_ECC_ON, REQ_OPT_NAND_ECC_WARNING_ON))
           REQ_OPT_ROW_ADDR_DEPENDENCY_CHECK REQ_OPT_BLOCK_SPACE_MAIN
           (forceUnitAccess (reqOpt o)) (customCmd (reqOpt o)) (ccmdDataBuf (reqOpt o))) ;;
     rM (rPool.[reqSlotTag]∙nvmeCmdSlotTag ::= nvmeCmdSlotTag o) ;;
     rM (rPool.[reqSlotTag]∙logicalSliceAddr ::= logicalSliceAddr o) ;;
     rM (rPool.[reqSlotTag]∙dataBufInfo∙entry ::= entry (dataBufInfo o)) ;;
     rM (block (entry (dataBufInfo o)) reqSlotTag) ;;
     rM (rPool.[reqSlotTag]∙nandInfo∙ReqFormat.virtualSliceAddr ::= virtualSliceAddr) ;;
     c <- rM (!(rPool.[reqSlotTag]∙reqOpt∙customCmd)) ;;
     rM (when (c =? REQ_OPT_CUSTOM_CMD_ON)
           (GenerateDataBufAddr reqSlotTag ;;
            AllocateNotCompletedNandReqforCustomIoCmd (nvmeCmdSlotTag o))) ;;
     rM (SelectLowLevelReqQ reqSlotTag)).

Definition DataReadFromNand : Z → M (FSt W) unit := read_entry UpdateDataBufEntryInfoBlockingReq.
Definition CcmdDataReadFromNand : Z → M (FSt W) unit :=
  read_entry UpdateCcmdDataBufEntryInfoBlockingReq.

(** Both buffers miss: a read goes to the read buffer, a write to the data
    buffer; the entry is written back, renamed and filled. *)
Definition allocate_on_miss (reqSlotTag : Z) : M (FSt W) Z :=
  code <- rM (!(rPool.[reqSlotTag]∙reqCode)) ;;
  rM (rPool.[reqSlotTag]∙reqOpt∙ccmdDataBuf ::=
        if code =? REQ_CODE_READ then REQ_OPT_CUSTOM_CMD_BUF_ON else REQ_OPT_CUSTOM_CMD_BUF_OFF) ;;
  c <- rM (!(rPool.[reqSlotTag]∙reqOpt∙ccmdDataBuf)) ;;
  let ccmd := c =? REQ_OPT_CUSTOM_CMD_BUF_ON in
  dataBufEntry <- rM (if ccmd then zoom r_ccmd AllocateCcmdDataBuf else zoom r_buf AllocateDataBuf) ;;
  rM (rPool.[reqSlotTag]∙dataBufInfo∙entry ::= dataBufEntry) ;;
  (if ccmd then EvictCcmdDataBufEntry reqSlotTag else EvictDataBufEntry reqSlotTag) ;;
  lsa <- rM (!(rPool.[reqSlotTag]∙logicalSliceAddr)) ;;
  rM (if ccmd then
        rCcmdBuf.[dataBufEntry]∙bufLogicalSliceAddr ::= lsa ;;
        zoom r_ccmd (PutToCcmdDataBufHashList dataBufEntry)
      else
        rBuf.[dataBufEntry]∙bufLogicalSliceAddr ::= lsa ;;
        zoom r_buf (PutToDataBufHashList dataBufEntry)) ;;
  code <- rM (!(rPool.[reqSlotTag]∙reqCode)) ;;
  n <- rM (!(rPool.[reqSlotTag]∙nvmeDmaInfo∙numOfNvmeBlock)) ;;
  when ((code =? REQ_CODE_READ) || ((code =? REQ_CODE_WRITE) && negb (n =? NVME_BLOCKS_PER_SLICE)))
    (if ccmd then CcmdDataReadFromNand reqSlotTag else DataReadFromNand reqSlotTag) ;;
  ret dataBufEntry.

(** The buffer entry of a slice request. *)
Definition find_entry (reqSlotTag : Z) : M (FSt W) Z :=
  lsa <- rM (!(rPool.[reqSlotTag]∙logicalSliceAddr)) ;;
  normalBufEntry <- rM (zoom r_buf (CheckDataBufHit lsa)) ;;
  if negb (normalBufEntry =? DATA_BUF_FAIL) then
    rM (rPool.[reqSlotTag]∙dataBufInfo∙entry ::= normalBufEntry) ;;
    rM (rPool.[reqSlotTag]∙reqOpt∙ccmdDataBuf ::= REQ_OPT_CUSTOM_CMD_BUF_OFF) ;;
    ret normalBufEntry
  else
    customBufEntry <- rM (zoom r_ccmd (CheckCcmdDataBufHit lsa)) ;;
    if negb (customBufEntry =? DATA_BUF_FAIL) then
      rM (rPool.[reqSlotTag]∙dataBufInfo∙entry ::= customBufEntry) ;;
      rM (rPool.[reqSlotTag]∙reqOpt∙ccmdDataBuf ::= REQ_OPT_CUSTOM_CMD_BUF_ON) ;;
      ret customBufEntry
    else allocate_on_miss reqSlotTag.

(** The slice request becomes the DMA request of its entry. *)
Definition to_dma (reqSlotTag dataBufEntry : Z) : M (RSt W) unit :=
  let r := rPool.[reqSlotTag] in
  code <- !(r∙reqCode) ;;
  ccmd <- !(r∙reqOpt∙ccmdDataBuf) ;;
  (if code =? REQ_CODE_WRITE then
     (if ccmd =? REQ_OPT_CUSTOM_CMD_BUF_ON then rCcmdBuf.[dataBufEntry]∙dirty ::= DATA_BUF_DIRTY
      else rBuf.[dataBufEntry]∙dirty ::= DATA_BUF_DIRTY) ;;
     r∙reqCode ::= REQ_CODE_RxDMA
   else if code =? REQ_CODE_READ then r∙reqCode ::= REQ_CODE_TxDMA
   else fail Assert) ;;
  r∙reqType ::= REQ_TYPE_NVME_DMA ;;
  r∙reqOpt∙dataBufFormat ::= REQ_OPT_DATA_BUF_ENTRY ;;
  custom <- !(r∙reqOpt∙customCmd) ;;
  tag <- !(r∙nvmeCmdSlotTag) ;;
  code <- !(r∙reqCode) ;;
  when (custom =? REQ_OPT_CUSTOM_CMD_ON)
    (GenerateDataBufAddr reqSlotTag ;;
     if code =? REQ_CODE_RxDMA then
       AllocateNotCompletedRxforCustomIoCmd tag ;; AllocateNotIssuedRxforCustomIoCmd tag
     else when (code =? REQ_CODE_TxDMA)
       (AllocateNotCompletedTxforCustomIoCmd tag ;; AllocateNotIssuedTxforCustomIoCmd tag)) ;;
  ccmd <- !(r∙reqOpt∙ccmdDataBuf) ;;
  if ccmd =? REQ_OPT_CUSTOM_CMD_BUF_ON then UpdateCcmdDataBufEntryInfoBlockingReq dataBufEntry reqSlotTag
  else UpdateDataBufEntryInfoBlockingReq dataBufEntry reqSlotTag.

Definition ReqTransSliceToLowLevel : M (FSt W) unit :=
  loop (Datatypes.S (Z.to_nat AVAILABLE_OUNTSTANDING_REQ_COUNT)) (λ _ : unit,
    h <- rM (!(rQueues.[sliceReqQ]∙headReq)) ;;
    if h =? REQ_SLOT_TAG_NONE then ret (inr tt) else
    reqSlotTag <- rM (qM GetFromSliceReqQ) ;;
    if reqSlotTag =? REQ_SLOT_TAG_FAIL then ret (inr tt) else
    dataBufEntry <- find_entry reqSlotTag ;;
    rM (to_dma reqSlotTag dataBufEntry) ;;
    rM (SelectLowLevelReqQ reqSlotTag) ;;
    ret (inl tt)) tt.
End transform.
