(* ===== verification/Slices.v ===== *)
(** Slice requests: the slices of a command cover exactly its blocks, and
    ReqTransNvmeToSlice queues one request for each of them, in order. *)
From stdpp Require Import functions.
From S2P Require Import Prelude Frame Dll Config MemMap ReqFormat ReqQueues DataBuffer AddrMap State HostLld.
From S2P Require Import HostTime CustomIo LowLevel Schedule FlashOrder ReqInv Ftl Transform.

(** ** The slices of a command *)

(** The 4KB blocks of the drive a part stands for, and their positions in the
    data of the command. *)
Definition part_blocks (p : slice_part) : list Z :=
  seqZ (sp_lsa p * NVME_BLOCKS_PER_SLICE + sp_offset p) (sp_num p).
Definition part_indices (p : slice_part) : list Z := seqZ (sp_startIndex p) (sp_num p).
Definition in_slice (p : slice_part) : Prop :=
  0 ≤ sp_offset p ∧ 0 < sp_num p ∧ sp_offset p + sp_num p ≤ NVME_BLOCKS_PER_SLICE.

Lemma elem_of_concat {A} (x : A) y l : x ∈ y → y ∈ l → x ∈ concat l.
Proof.
  intros Hx Hy. induction l as [|z l IH]; [by apply elem_of_nil in Hy|]. cbn. apply elem_of_app.
  apply elem_of_cons in Hy as [->|Hy]; [by left|right; by apply IH].
Qed.

(** A run of [k] whole slices. *)
Lemma concat_whole (f : Z → Z) i k :
  0 ≤ k → (∀ j, f (j + 1) = f j + 4) →
  concat ((λ j, seqZ (f j) 4) <$> seqZ i k) = seqZ (f i) (4 * k).
Proof.
  intros Hk Hf. rewrite <- (Z2Nat.id k Hk). generalize (Z.to_nat k) as n. clear k Hk. intros n.
  revert i. induction n as [|n IH]; intros i; [done|].
  rewrite seqZ_cons by lia. cbn [fmap list_fmap concat]. replace (Z.pred (Z.of_nat (S n))) with (Z.of_nat n) by lia.
  rewrite (IH (Z.succ i)). replace (Z.succ i) with (i + 1) by lia. rewrite Hf, <- seqZ_app by lia.
  f_equal. lia.
Qed.

(** A first piece, whole slices and a rest, one after the other. *)
Lemma concat_pieces (f : Z → Z) a n k rest :
  0 ≤ n → 1 ≤ k → 0 ≤ rest → f 1 = a + n → (∀ j, f (j + 1) = f j + 4) →
  seqZ a n ++ concat ((λ j, seqZ (f j) 4) <$> seqZ 1 (k - 1)) ++ seqZ (f k) rest =
  seqZ a (n + 4 * (k - 1) + rest).
Proof.
  intros Hn Hk Hr H1 Hf. rewrite concat_whole by (done || lia).
  assert (f k = f 1 + 4 * (k - 1)) as ->.
  { replace k with (1 + Z.of_nat (Z.to_nat (k - 1))) at 1 by lia.
    replace (k - 1) with (Z.of_nat (Z.to_nat (k - 1))) at 2 by lia. generalize (Z.to_nat (k - 1)) as m. clear -Hf.
    induction m as [|m IH]; [rewrite Z.add_0_r, Z.mul_0_r, Z.add_0_r; done|]. replace (1 + Z.of_nat (S m)) with (1 + Z.of_nat m + 1) by lia. rewrite Hf, IH. lia. }
  rewrite H1, <- (seqZ_app (a + n) (4 * (k - 1)) rest), <- seqZ_app by lia. f_equal. lia.
Qed.

Lemma concat_rest {A} (g : A → list Z) (b : bool) x l :
  (b = true → l = []) → (b = false → g x = l) → concat (g <$> (if b then [] else [x])) = l.
Proof. destruct b; cbn; [by intros ->|]. intros _ <-; [|done]. apply app_nil_r. Qed.

Lemma slice_parts_short lba nlb :
  0 ≤ lba → 0 ≤ nlb → lba + nlb + 1 < 2 ^ 32 → lba mod 4 + (nlb + 1) < 4 →
  slice_parts lba nlb = [MkSlicePart (lba / 4) 0 (lba mod 4) (nlb + 1)].
Proof.
  intros Hl Hn Hb Hs. unfold slice_parts. change NVME_BLOCKS_PER_SLICE with 4. pose proof (Z.mod_pos_bound lba 4 ltac:(lia)).
  rewrite (wrap_small 32 (nlb + 1)) by lia. rewrite (wrap_small 32 (_ + (nlb + 1))) by lia.
  rewrite (Z.div_small (lba mod 4 + _)) by lia. cbn [Z.eqb negb orb]. by rewrite orb_true_r.
Qed.

Lemma slice_parts_long lba nlb :
  0 ≤ lba → 0 ≤ nlb → lba + nlb + 1 < 2 ^ 32 → 4 ≤ lba mod 4 + (nlb + 1) →
  let off := lba mod 4 in let k := (off + (nlb + 1)) / 4 in let rest := (off + (nlb + 1)) mod 4 in
  slice_parts lba nlb =
    MkSlicePart (lba / 4) 0 off (4 - off) ::
    ((λ i, MkSlicePart (lba / 4 + i) (4 - off + (i - 1) * 4) 0 4) <$> seqZ 1 (k - 1)) ++
    (if rest =? 0 then [] else [MkSlicePart (lba / 4 + k) (4 - off + (k - 1) * 4) 0 rest]).
Proof.
  intros Hl Hn Hb Hs off k rest. unfold slice_parts. change NVME_BLOCKS_PER_SLICE with 4.
  pose proof (Z.mod_pos_bound lba 4 ltac:(lia)). pose proof (Z.div_mod lba 4 ltac:(lia)).
  rewrite (wrap_small 32 (nlb + 1)) by lia. rewrite !wrap_small by lia. fold off. fold k.
  assert (0 < k) by (apply Z.div_str_pos; lia). destruct (Z.eqb_spec k 0) as [|_]; [lia|]. cbn [negb].
  rewrite orb_false_r. assert ((lba + (nlb + 1)) mod 4 = rest) as ->; [|done].
  unfold rest, off. rewrite Z.add_mod_idemp_l by lia. done.
Qed.

Lemma slice_parts_cover lba nlb :
  0 ≤ lba → 0 ≤ nlb → lba + nlb + 1 < 2 ^ 32 →
  concat (part_blocks <$> slice_parts lba nlb) = seqZ lba (nlb + 1) ∧
  concat (part_indices <$> slice_parts lba nlb) = seqZ 0 (nlb + 1) ∧
  Forall in_slice (slice_parts lba nlb).
Proof.
  intros Hl Hn Hb. pose proof (Z.mod_pos_bound lba 4 ltac:(lia)) as Ho. pose proof (Z.div_mod lba 4 ltac:(lia)) as Hlba.
  unfold part_blocks, part_indices, in_slice. change NVME_BLOCKS_PER_SLICE with 4.
  destruct (Z.lt_ge_cases (lba mod 4 + (nlb + 1)) 4) as [Hs|Hs].
  - rewrite slice_parts_short by done. cbn. rewrite !app_nil_r. split_and!; [f_equal; lia|done|].
    repeat constructor; cbn; lia.
  - rewrite slice_parts_long by done. set (off := lba mod 4) in *. set (m := off + (nlb + 1)) in *.
    pose proof (Z.div_mod m 4 ltac:(lia)) as Hm. pose proof (Z.mod_pos_bound m 4 ltac:(lia)) as Hr.
    set (k := m / 4) in *. set (rest := m mod 4) in *. assert (1 ≤ k) by (apply Z.div_le_lower_bound; lia).
    cbn [fmap list_fmap concat sp_lsa sp_offset sp_num sp_startIndex].
    rewrite !fmap_app, !concat_app, <- !list_fmap_compose. unfold compose. cbn [sp_lsa sp_offset sp_num sp_startIndex].
    rewrite (concat_rest _ _ _ (seqZ ((lba / 4 + k) * 4 + 0) rest)), (concat_rest _ _ _ (seqZ (4 - off + (k - 1) * 4) rest));
      [|by intros ->%Z.eqb_eq|done|by intros ->%Z.eqb_eq|done].
    split_and!.
    + rewrite (concat_pieces (λ x, (lba / 4 + x) * 4 + 0)) by lia. f_equal; lia.
    + rewrite (concat_pieces (λ x, 4 - off + (x - 1) * 4)) by lia. f_equal; lia.
    + constructor; [cbn; lia|]. apply Forall_app. split; [apply Forall_fmap, Forall_true; cbn; lia|].
      destruct (Z.eqb_spec rest 0); repeat constructor; cbn; lia.
Qed.

(** C35: The slices of a command cover exactly its blocks: put together in
    order, the blocks of the parts are the blocks of the command and the
    positions are those of its data, each once; and every part lies inside one
    slice and is not empty. *)
Theorem slice_parts_cover_the_command lba nlb :
  0 ≤ lba → 0 ≤ nlb → lba + nlb + 1 < 2 ^ 32 →
  concat (part_blocks <$> slice_parts lba nlb) = seqZ lba (nlb + 1) ∧
  concat (part_indices <$> slice_parts lba nlb) = seqZ 0 (nlb + 1) ∧
  Forall in_slice (slice_parts lba nlb).
Proof. apply slice_parts_cover. Qed.

Lemma slice_parts_cover_the_command_witness :
  concat (part_blocks <$> slice_parts 6 10) = seqZ 6 11 ∧ length (slice_parts 6 10) = 4%nat.
Proof. split; [apply (slice_parts_cover_the_command 6 10); lia|reflexivity]. Defined.

(** ** ReqTransNvmeToSlice *)

Lemma for_each_app {S A} (f : A → M S unit) l l' s :
  for_each f (l ++ l') s = (for_each f l ;; for_each f l') s.
Proof.
  revert s. induction l as [|x l IH]; intros s; [done|]. cbn. unfold bind at 1 3. unfold bind at 1.
  destruct (f x s); [apply IH|done].
Qed.

Lemma bind_ext {S A B} (m m' : M S A) (k k' : A → M S B) s :
  m s = m' s → (∀ a s', k a s' = k' a s') → bind m k s = bind m' k' s.
Proof. unfold bind. intros ->. destruct (m' s); [auto|done]. Qed.

Section transform.
Context `{ConfigOk} {W : Type} `{Device W} `{Fuel}.
Implicit Types (s : RSt W) (p : slice_part) (tag cmd : Z) (Q : queue_id → list Z).

(** The loop over the whole slices, from the [c]-th on. *)
Lemma slice_loop (f : slice_part → M (RSt W) unit) lsa num k c fuel s :
  1 ≤ c → (Z.to_nat (k - c) < fuel)%nat →
  loop fuel (λ '(tempLsa, transCounter, nvmeDmaStartIndex),
      if transCounter <? k then
        f (MkSlicePart tempLsa nvmeDmaStartIndex 0 NVME_BLOCKS_PER_SLICE) ;;
        ret (inl (tempLsa + 1, transCounter + 1, nvmeDmaStartIndex + NVME_BLOCKS_PER_SLICE))
      else ret (inr (tempLsa, nvmeDmaStartIndex)))
    (lsa + c, c, num + (c - 1) * NVME_BLOCKS_PER_SLICE) s =
  (for_each f ((λ i, MkSlicePart (lsa + i) (num + (i - 1) * NVME_BLOCKS_PER_SLICE) 0 NVME_BLOCKS_PER_SLICE)
     <$> seqZ c (k - c)) ;;
   ret (lsa + Z.max c k, num + (Z.max c k - 1) * NVME_BLOCKS_PER_SLICE)) s.
Proof.
  intros Hc. revert c s Hc. induction fuel as [|fuel IH]; intros c s Hc Hf; [lia|]. cbn [loop].
  destruct (Z.ltb_spec c k).
  - rewrite (seqZ_cons c) by lia. cbn [fmap list_fmap for_each]. unfold bind at 1 2 4. unfold bind at 2.
    destruct (f _ s) as [[] s'|]; [|done]. unfold ret at 1. rewrite <- Z.add_assoc.
    replace (num + (c - 1) * NVME_BLOCKS_PER_SLICE + NVME_BLOCKS_PER_SLICE)
      with (num + (c + 1 - 1) * NVME_BLOCKS_PER_SLICE) by lia.
    rewrite IH by lia. replace (Z.pred (k - c)) with (k - (c + 1)) by lia. replace (Z.succ c) with (c + 1) by lia.
    replace (Z.max (c + 1) k) with (Z.max c k) by lia. done.
  - rewrite seqZ_nil by lia. replace (Z.max c k) with c by lia. done.
Qed.

Lemma ReqTransNvmeToSlice_loop cmdSlotTag startLba nlb cmdCode fua custom s :
  ReqTransNvmeToSlice cmdSlotTag startLba nlb cmdCode fua custom s =
  (code <- (if cmdCode =? IO_NVM_WRITE then ret REQ_CODE_WRITE
            else if cmdCode =? IO_NVM_READ then ret REQ_CODE_READ else fail Assert) ;;
   AllocateHostReqTime cmdSlotTag code ;;
   for_each (slice_request cmdSlotTag code fua custom) (slice_parts startLba nlb)) s.
Proof.
  unfold ReqTransNvmeToSlice, slice_parts.
  apply bind_ext; [done|]. intros code s1. apply bind_ext; [done|]. intros [] s2.
  set (f := slice_request cmdSlotTag code fua custom).
  set (k := u32 (startLba mod NVME_BLOCKS_PER_SLICE + u32 (nlb + 1)) / NVME_BLOCKS_PER_SLICE).
  set (num := if negb (k =? 0) then _ else _).
  cbn [for_each]. apply bind_ext; [done|]. intros [] s3. rewrite for_each_app.
  pose proof (slice_loop f (startLba / NVME_BLOCKS_PER_SLICE) num k 1 (Datatypes.S (Z.to_nat k)) s3
    ltac:(lia) ltac:(lia)) as Hloop.
  rewrite Z.sub_diag, Z.mul_0_l, Z.add_0_r in Hloop. unfold bind at 1. rewrite Hloop. unfold bind.
  destruct (for_each f _ s3) as [[] s4|]; [|done]. cbn [ret].
  assert (0 ≤ k) by (apply Z.div_pos; [apply wrap_bound; lia|done]).
  clearbody num. destruct (_ mod _ =? 0); cbn [orb]; [done|]. destruct (Z.eqb_spec k 0); [done|]. cbn [for_each].
  replace (Z.max 1 k) with k by lia. unfold bind. by destruct (f _ s4) as [[] ?|].
Qed.

(** C34: ReqTransNvmeToSlice is the loop over [slice_parts]: its first request,
    its loop and its last request make exactly the requests of the list, in
    order. *)
Theorem ReqTransNvmeToSlice_is_a_loop cmdSlotTag startLba nlb cmdCode fua custom s :
  ReqTransNvmeToSlice cmdSlotTag startLba nlb cmdCode fua custom s =
  (code <- (if cmdCode =? IO_NVM_WRITE then ret REQ_CODE_WRITE
            else if cmdCode =? IO_NVM_READ then ret REQ_CODE_READ else fail Assert) ;;
   AllocateHostReqTime cmdSlotTag code ;;
   for_each (slice_request cmdSlotTag code fua custom) (slice_parts startLba nlb)) s.
Proof. apply ReqTransNvmeToSlice_loop. Qed.

(** ** Writing a slot *)

(** An assignment to [l] updates the slot [tag] with [upd]. *)
Definition SlotUpdate {V} (l : lval (RSt W) V) tag (upd : V → SSD_REQ_FORMAT → SSD_REQ_FORMAT) : Prop :=
  ∀ r v s, is_Some (peek l (set_slot tag r s)) ∧ poke l v (set_slot tag r s) = set_slot tag (upd v r) s.

Lemma update_member {V} tag (f : SSD_REQ_FORMAT → V) `{!Field f} : SlotUpdate (rPool.[tag]∙f) tag (fset f).
Proof.
  intros r v s. cbn. rewrite lookup_insert_eq. split; [by eexists|].
  unfold set_slot. cbn. by rewrite insert_insert_eq.
Qed.

Lemma update_submember {U V} tag (g : SSD_REQ_FORMAT → U) `{!Field g} (f : U → V) `{!Field f} :
  SlotUpdate (rPool.[tag]∙g∙f) tag (λ v r, fset g (fset f v (g r)) r).
Proof.
  intros r v s. cbn. rewrite lookup_insert_eq. split; [by eexists|].
  unfold set_slot. cbn. by rewrite insert_insert_eq.
Qed.

Lemma wp_slot_update {V A} (l : lval (RSt W) V) tag upd v (k : unit → M (RSt W) A) Φ r s :
  SlotUpdate l tag upd → wp (k tt) Φ (set_slot tag (upd v r) s) → wp (bind (l ::= v) k) Φ (set_slot tag r s).
Proof.
  intros Hl Hk. apply wp_bind. destruct (Hl r v s) as [[old Hold] Hp].
  eapply wp_store; [exact Hold|]. by rewrite Hp.
Qed.

Lemma set_slot_id tag r s : q_reqPool (r_q s) !! tag = Some r → set_slot tag r s = s.
Proof. intros Hr. unfold set_slot. rewrite insert_id by done. by destruct s as [[]]. Qed.

Lemma QFull_slot (x : QSt) Q tag r r' :
  QFull x Q → q_reqPool x !! tag = Some r → place r' = place r →
  QFull (fset q_reqPool (<[tag := r']> (q_reqPool x)) x) Q.
Proof.
  intros [HI Hn Hb Hc] Hr Hp. split; [|done..]. eapply (QInv_places x), HI; [done|]. cbn.
  rewrite fmap_insert, Hp. apply insert_id. by rewrite lookup_fmap, Hr.
Qed.

(** ** One slice request *)

(** What a slot says as a slice request. *)
Definition slice_view (r : SSD_REQ_FORMAT) :=
  (reqType r, reqCode r, nvmeCmdSlotTag r,
   MkSlicePart (logicalSliceAddr r) (startIndex (nvmeDmaInfo r)) (nvmeBlockOffset (nvmeDmaInfo r))
     (numOfNvmeBlock (nvmeDmaInfo r)),
   (forceUnitAccess (reqOpt r), customCmd (reqOpt r), ccmdDataBuf (reqOpt r), issuedFlag (nvmeDmaInfo r))).

Definition slice_job (cmd code fua custom : Z) p :=
  (REQ_TYPE_SLICE, code, cmd, p, (fua, custom, REQ_OPT_CUSTOM_CMD_BUF_OFF, REQ_INFO_ISSUED_FLAG_OFF)).

(** The members fit their fields. *)
Definition job_fits (cmd code fua custom : Z) : Prop :=
  0 ≤ cmd < 2 ^ 16 ∧ 0 ≤ code < 2 ^ 8 ∧ 0 ≤ fua < 2 ∧ 0 ≤ custom < 2.
Definition part_fits p : Prop :=
  0 ≤ sp_lsa p < 2 ^ 32 ∧ 0 ≤ sp_startIndex p < 2 ^ 16 ∧ 0 ≤ sp_offset p < 2 ^ 16 ∧ 0 ≤ sp_num p < 2 ^ 16.

Lemma take_free_ok Q tag l s (Φ : Z → RSt W → Prop) :
  QFull (r_q s) Q → Q freeReqQ = tag :: l →
  (∀ x, QFull x (<[freeReqQ := l]> Q) → same_core (r_q s) x → Φ tag (fset r_q x s)) →
  wp GetFromFreeReqQ Φ s.
Proof.
  intros HF HQ HΦ. unfold GetFromFreeReqQ.
  destruct (QInv_lookup _ _ freeReqQ tag (qf_inv _ _ HF)) as (c & r & Hc & Hr & _); [rewrite HQ; by left|].
  destruct (qi_list _ _ (qf_inv _ _ HF) _ _ Hc) as [(Hh & _) _]. rewrite HQ in Hh. cbn in Hh.
  apply wp_bind. eapply wp_load; [cbn; by rewrite Hc|]. rewrite Hh.
  pose proof (array_range _ _ _ _ (qi_pool _ _ (qf_inv _ _ HF)) Hr) as Hb. pose proof req_count_bound.
  destruct (Z.eqb_spec tag REQ_SLOT_TAG_NONE) as [->|_]; [unfold REQ_SLOT_TAG_NONE in Hb; lia|].
  apply wp_bind, wp_ret, wp_zoom.
  eapply wp_mono; [apply (exec_takes OpGetFromFree freeReqQ (r_q s) Q tag l); [constructor|done|done]|].
  intros ? x (-> & HF' & Hc'). by apply HΦ.
Qed.

Ltac slot_update := eapply wp_slot_update; [first [apply update_member|apply update_submember]|].

(** A state in which the slot says [job], and which differs from [s] in the
    request queues and the statistics only. *)
Definition Queued tag l p cmd code fua custom Q s s' : Prop := ∃ x t,
  s' = fset r_time t (fset r_q x s) ∧ is_Some (t_entry t !! cmd) ∧
  QFull x (<[sliceReqQ := Q sliceReqQ ++ [tag]]> (<[freeReqQ := l]> Q)) ∧
  slice_view <$> q_reqPool x !! tag = Some (slice_job cmd code fua custom p) ∧
  ∀ t, t ≠ tag → req_core <$> q_reqPool x !! t = req_core <$> q_reqPool (r_q s) !! t.

Lemma same_core_slot (x x' : QSt) tag r :
  same_core x x' → q_reqPool x !! tag = Some r →
  ∃ r', q_reqPool x' !! tag = Some r' ∧ req_core r' = req_core r.
Proof.
  unfold same_core. intros Hc Hr. apply (f_equal (.!! tag)) in Hc. rewrite !lookup_fmap, Hr in Hc.
  destruct (q_reqPool x' !! tag) as [r'|]; [|done]. exists r'. split; [done|]. by apply (inj Some) in Hc.
Qed.

Lemma slice_view_core r r' : req_core r' = req_core r → slice_view r' = slice_view r.
Proof. intros E. change (slice_view (req_core r') = slice_view (req_core r)). by rewrite E. Qed.

Lemma put_slice_ok Q tag cmd r s :
  QFull (r_q s) Q → held Q tag → q_reqPool (r_q s) !! tag = Some r → nvmeCmdSlotTag r = cmd →
  is_Some (t_entry (r_time s) !! cmd) →
  wp (PutToSliceReqQ tag) (λ _ s', ∃ x t, s' = fset r_time t (fset r_q x s) ∧ is_Some (t_entry t !! cmd) ∧
    QFull x (<[sliceReqQ := Q sliceReqQ ++ [tag]]> Q) ∧ same_core (r_q s) x) s.
Proof.
  intros HF Hh Hr Hcmd [te Hte]. unfold PutToSliceReqQ. apply wp_bind, wp_zoom.
  pose proof (exec_enters (OpPutToSlice tag) tag sliceReqQ (r_q s) Q ltac:(constructor) HF I Hh) as Hw.
  unfold exec in Hw. apply wp_bind_inv in Hw. eapply wp_mono; [exact Hw|]. intros [] x (_ & HF' & Hc).
  destruct (same_core_slot _ _ _ _ Hc Hr) as (r' & Hr' & E).
  assert (Ecmd : nvmeCmdSlotTag r' = cmd) by (apply slice_view_core in E; by injection E; intros; subst).
  apply wp_bind. eapply wp_load; [cbn; by rewrite Hr'|]. cbn [fmap option_fmap option_map]. rewrite Ecmd.
  eapply wp_modify; [cbn; by rewrite Hte|]. cbn. rewrite Hte. eexists x, _. split; [reflexivity|].
  split; [cbn; rewrite lookup_insert_eq; by eexists|done].
Qed.

Lemma slice_request_ok cmd code fua custom p Q tag l s :
  QFull (r_q s) Q → Q freeReqQ = tag :: l → is_Some (t_entry (r_time s) !! cmd) →
  job_fits cmd code fua custom → part_fits p →
  wp (slice_request cmd code fua custom p) (λ _ s', Queued tag l p cmd code fua custom Q s s') s.
Proof.
  intros HF HQ [te Hte] (Hcmd & Hcode & Hfua & Hcus) (Hl & Hs & Ho & Hn). unfold slice_request. apply wp_bind.
  eapply take_free_ok; [done|done|]. intros x HF1 Hc1.
  assert (Hh : held (<[freeReqQ := l]> Q) tag) by (by eapply (held_after _ Q _ [] tag l), HQ; apply HF).
  destruct (held_lookup _ _ _ (qf_inv _ _ HF1) Hh) as (r & Hr & _).
  rewrite <- (set_slot_id tag r (fset r_q x s)) by done. cbn zeta.
  do 11 slot_update. cbn beta.
  match goal with |- wp _ _ (set_slot _ ?r' _) => set (r1 := r') end.
  assert (Hv : slice_view r1 = slice_job cmd code fua custom p).
  { unfold slice_view, slice_job, r1. cbn -[REQ_TYPE_SLICE REQ_OPT_CUSTOM_CMD_BUF_OFF REQ_INFO_ISSUED_FLAG_OFF].
    change (wrap 4 REQ_TYPE_SLICE) with REQ_TYPE_SLICE.
    change (wrap 1 REQ_OPT_CUSTOM_CMD_BUF_OFF) with REQ_OPT_CUSTOM_CMD_BUF_OFF.
    change (wrap 1 REQ_INFO_ISSUED_FLAG_OFF) with REQ_INFO_ISSUED_FLAG_OFF.
    rewrite !wrap_small by lia. by destruct p. }
  assert (Hp : place r1 = place r) by done. clearbody r1.
  assert (Hr1 : q_reqPool (r_q (set_slot tag r1 (fset r_q x s))) !! tag = Some r1) by (cbn; apply lookup_insert_eq).
  eapply wp_mono; [eapply (put_slice_ok _ tag cmd r1)|].
  - by eapply QFull_slot.
  - done.
  - done.
  - by injection Hv.
  - by exists te.
  - intros [] s' (y & t & -> & Ht & HF2 & Hc2). exists y, t. split_and!; [done|done|done| |].
    + destruct (same_core_slot _ _ _ _ Hc2 Hr1) as (r2 & Hr2 & E2). rewrite Hr2. cbn. f_equal. rewrite <- Hv.
      by apply slice_view_core.
    + intros t' Hne. unfold same_core in Hc1, Hc2. apply (f_equal (.!! t')) in Hc1, Hc2.
      rewrite !lookup_fmap in Hc1, Hc2. rewrite Hc2, <- Hc1. cbn. by rewrite lookup_insert_ne.
Qed.

(** ** The requests of a command *)

Lemma slice_parts_fit lba nlb :
  0 ≤ lba → 0 ≤ nlb < 2 ^ 16 → lba + nlb + 1 < 2 ^ 32 → Forall part_fits (slice_parts lba nlb).
Proof.
  intros Hl Hn Hb. destruct (slice_parts_cover lba nlb) as (Hblocks & Hidx & Hin); [lia..|].
  apply Forall_forall. intros p Hp. eapply Forall_forall in Hin as (Ho & Hnum & Hsl); [|done].
  assert (Hbl : sp_lsa p * NVME_BLOCKS_PER_SLICE + sp_offset p ∈ seqZ lba (nlb + 1)).
  { rewrite <- Hblocks. apply (elem_of_concat _ (part_blocks p)); [|by apply list_elem_of_fmap_2].
    apply elem_of_seqZ. lia. }
  assert (Hix : sp_startIndex p ∈ seqZ 0 (nlb + 1)).
  { rewrite <- Hidx. apply (elem_of_concat _ (part_indices p)); [|by apply list_elem_of_fmap_2].
    apply elem_of_seqZ. lia. }
  apply elem_of_seqZ in Hbl, Hix. change NVME_BLOCKS_PER_SLICE with 4 in *. unfold part_fits. lia.
Qed.

(** The slots [tags] say the jobs of the parts; [s'] has them on the slice
    queue, taken from the head of the free queue. *)
Definition QueuedAll tags l parts cmd code fua custom Q s s' : Prop := ∃ x t Q',
  s' = fset r_time t (fset r_q x s) ∧ is_Some (t_entry t !! cmd) ∧ QFull x Q' ∧
  Q' freeReqQ = l ∧ Q' sliceReqQ = Q sliceReqQ ++ tags ∧
  (∀ q, q ≠ freeReqQ → q ≠ sliceReqQ → Q' q = Q q) ∧
  Forall2 (λ tag p, slice_view <$> q_reqPool x !! tag = Some (slice_job cmd code fua custom p)) tags parts ∧
  ∀ t, t ∉ tags → req_core <$> q_reqPool x !! t = req_core <$> q_reqPool (r_q s) !! t.

Lemma slice_requests_ok cmd code fua custom parts : ∀ Q tags l s,
  QFull (r_q s) Q → Q freeReqQ = tags ++ l → length tags = length parts →
  is_Some (t_entry (r_time s) !! cmd) → job_fits cmd code fua custom → Forall part_fits parts →
  wp (for_each (slice_request cmd code fua custom) parts)
    (λ _ s', QueuedAll tags l parts cmd code fua custom Q s s') s.
Proof.
  induction parts as [|p parts IH]; intros Q tags l s HF HQ Hlen Ht Hjob Hfit.
  - destruct tags; [|done]. apply wp_ret. exists (r_q s), (r_time s), Q. rewrite app_nil_r.
    split_and!; try done. by destruct s.
  - destruct tags as [|tag tags]; [done|]. injection Hlen as Hlen. apply Forall_cons in Hfit as [Hp Hfit].
    apply wp_bind. eapply wp_mono; [by apply (slice_request_ok _ _ _ _ _ Q tag (tags ++ l))|].
    intros [] s1 (x & t & -> & Ht1 & HF1 & Hv & Hcore).
    assert (Hnot : tag ∉ tags).
    { assert (Hh : held (<[freeReqQ := tags ++ l]> Q) tag) by (by eapply (held_after _ Q _ [] tag (tags ++ l)), HQ; apply HF).
      intros Hin. apply (proj2 Hh freeReqQ). rewrite fn_lookup_insert. apply elem_of_app. by left. }
    eapply wp_mono; [eapply (IH _ tags l); try done|].
    intros [] s2 (x2 & t2 & Q2 & -> & Ht2 & HF2 & Hfree & Hslice & Hother & Hvs & Hcore2).
    exists x2, t2, Q2. rewrite fn_lookup_insert in Hslice. split_and!; try done.
    + by rewrite Hslice, <- app_assoc.
    + intros q Hq1 Hq2. rewrite Hother by done. by rewrite !fn_lookup_insert_ne by done.
    + constructor; [|done]. specialize (Hcore2 tag Hnot). revert Hv. cbn in Hcore2.
      destruct (q_reqPool x2 !! tag) as [r2|], (q_reqPool x !! tag) as [r1|]; cbn in *; try done.
      intros <-. f_equal. apply slice_view_core. congruence.
    + intros t' Hnt. rewrite Hcore2 by set_solver. cbn. apply Hcore. set_solver.
Qed.

(** Only the statistics and the device have changed. *)
Definition Timed cmd s s' : Prop :=
  ∃ t h, s' = fset r_time t (fset r_host h s) ∧ is_Some (t_entry t !! cmd).

Lemma Timed_trans cmd s s1 s2 : Timed cmd s s1 → Timed cmd s1 s2 → Timed cmd s s2.
Proof. intros (t1 & h1 & -> & _) (t2 & h2 & -> & Ht). by exists t2, h2. Qed.

Lemma Timed_entry cmd s s' : Timed cmd s s' → is_Some (t_entry (r_time s') !! cmd).
Proof. by intros (t & h & -> & Ht). Qed.

Lemma time_store_ok cmd (f : HOST_REQUEST_TIME_ENTRY → Z) `{!Field f} v s :
  is_Some (t_entry (r_time s) !! cmd) → wp (timeEntry.[cmd]∙f ::= v) (λ _ s', Timed cmd s s') s.
Proof.
  intros [e He]. eapply wp_store; [cbn; by rewrite He|]. cbn. rewrite He. eexists _, (r_host s).
  split; [by destruct s|]. cbn. rewrite lookup_insert_eq. by eexists.
Qed.

Lemma stamp_ok cmd (f : HOST_REQUEST_TIME_ENTRY → Z) `{!Field f} s :
  is_Some (t_entry (r_time s) !! cmd) → wp (stamp (timeEntry.[cmd]∙f)) (λ _ s', Timed cmd s s') s.
Proof.
  intros [e He]. unfold stamp. apply wp_bind. eapply wp_load; [cbn; by rewrite He|]. cbn [fmap option_fmap option_map].
  apply wp_when; intros _; [|exists (r_time s), (r_host s); split; [by destruct s|by exists e]].
  apply wp_bind, wp_zoom, wp_zoom. unfold wp, XTime_GetTime. destruct (dev_time _) as [v w].
  set (s1 := fset r_host _ s). assert (Timed cmd s s1) as HT.
  { exists (r_time s), (r_host s1). split; [by destruct s|by exists e]. }
  pose proof (time_store_ok cmd f (wrap 64 v) s1 (Timed_entry _ _ _ HT)) as Hw.
  eapply wp_mono; [exact Hw|]. intros [] s2. by apply Timed_trans.
Qed.

Lemma AllocateHostReqTime_ok cmd code s :
  code = REQ_CODE_WRITE ∨ code = REQ_CODE_READ → is_Some (t_entry (r_time s) !! cmd) →
  wp (AllocateHostReqTime cmd code) (λ _ s', Timed cmd s s') s.
Proof.
  intros Hcode Ht. unfold AllocateHostReqTime. apply wp_bind.
  eapply (wp_mono _ (λ _ s', s' = s)); [by destruct Hcode as [-> | ->]|]. intros c s' ->. destruct Ht as [e He].
  apply wp_bind. eapply wp_load; [cbn; by rewrite He|]. cbn [fmap option_fmap option_map].
  apply wp_when; intros _; [|exists (r_time s), (r_host s); split; [by destruct s|by exists e]].
  apply wp_bind. eapply wp_mono; [apply time_store_ok; by exists e|]. intros [] s1 H1'.
  eapply wp_mono; [apply stamp_ok, (Timed_entry _ _ _ H1')|]. intros [] s2. by apply Timed_trans.
Qed.

(** The slots [tags], taken from the head of the free queue, are at the end of
    the slice queue and say the requests of the slices; nothing else of the
    queues has changed. *)
Definition BecomesSlices cmd lba nlb cmdCode fua custom Q tags l s s' Q' : Prop :=
  QFull (r_q s') Q' ∧ Q' freeReqQ = l ∧ Q' sliceReqQ = Q sliceReqQ ++ tags ∧
  (∀ q, q ≠ freeReqQ → q ≠ sliceReqQ → Q' q = Q q) ∧
  Forall2 (λ tag p, slice_view <$> q_reqPool (r_q s') !! tag =
    Some (slice_job cmd (if cmdCode =? IO_NVM_WRITE then REQ_CODE_WRITE else REQ_CODE_READ) fua custom p))
    tags (slice_parts lba nlb) ∧
  ∀ t, t ∉ tags → req_core <$> q_reqPool (r_q s') !! t = req_core <$> q_reqPool (r_q s) !! t.

Lemma command_slices_ok cmd lba nlb cmdCode fua custom Q tags l s :
  cmdCode = IO_NVM_WRITE ∨ cmdCode = IO_NVM_READ →
  0 ≤ lba → 0 ≤ nlb < 2 ^ 16 → lba + nlb + 1 < 2 ^ 32 → 0 ≤ cmd < 2 ^ 16 → 0 ≤ fua < 2 → 0 ≤ custom < 2 →
  is_Some (t_entry (r_time s) !! cmd) →
  QFull (r_q s) Q → Q freeReqQ = tags ++ l → length tags = length (slice_parts lba nlb) →
  wp (ReqTransNvmeToSlice cmd lba nlb cmdCode fua custom)
    (λ _ s', is_Some (t_entry (r_time s') !! cmd) ∧ ∃ Q', BecomesSlices cmd lba nlb cmdCode fua custom Q tags l s s' Q') s.
Proof.
  intros Hcode Hl Hn Hb Hcmd Hfua Hcus Ht HF HQ Hlen. unfold wp. rewrite ReqTransNvmeToSlice_loop.
  unfold BecomesSlices. set (code := if cmdCode =? IO_NVM_WRITE then REQ_CODE_WRITE else REQ_CODE_READ).
  assert (Hc : code = REQ_CODE_WRITE ∨ code = REQ_CODE_READ) by (destruct Hcode as [-> | ->]; auto).
  apply wp_bind. eapply (wp_mono _ (λ c s', c = code ∧ s' = s)); [by destruct Hcode as [-> | ->]|].
  intros ? ? [-> ->]. apply wp_bind. eapply wp_mono; [by apply AllocateHostReqTime_ok|].
  intros [] s1 HT. pose proof (Timed_entry _ _ _ HT) as Ht1. destruct HT as (t1 & h1 & -> & _).
  eapply wp_mono; [eapply (slice_requests_ok cmd code fua custom _ Q tags l); try done|].
  - destruct Hc as [-> | ->]; repeat split; (lia || done).
  - by apply slice_parts_fit.
  - intros [] s2 (x & t & Q' & -> & Ht2 & HF' & Hfree & Hslice & Hother & Hv & Hcore). split; [exact Ht2|by exists Q'].
Qed.

End transform.
