(* ===== verification/Machine.v ===== *)
(** The smallest machine: one channel, one way, two blocks per LUN, and a flash
    controller that completes every request at once and without error.  Used to
    run the firmware on concrete inputs. *)
From S2P Require Import Prelude Config MemMap ReqFormat ReqQueues DataBuffer AddrMap State HostLld.
From S2P Require Import HostTime CustomIo LowLevel Schedule Ftl BadBlock Transform.

(** Status words: the controller is not busy, all ways are ready, transfers are
    complete, reports done, no error. *)
Definition quick_word (a : Z) : option Z :=
  let _ := tiny_config in
  if a =? 0x43C00000 + 32 then Some 0
  else if a =? 0x43C00000 + 36 then Some 0xffffffff
  else if a =? COMPLETE_FLAG_TABLE_ADDR then Some 1
  else if a =? STATUS_REPORT_TABLE_ADDR then Some 0xC1
  else if a =? ERROR_INFO_TABLE_ADDR then Some 0x11000000
  else if (ERROR_INFO_TABLE_ADDR <? a) && (a <? ERROR_INFO_TABLE_ADDR + 44) then Some 0xffffffff
  else None.

Definition quick_device : Device (gmap Z Z) :=
  {| dev_read32 a w := (match quick_word a with Some v => v | None => default 0 (w !! a) end, w);
     dev_write32 a v w := <[a := v]> w;
     dev_read8 a w := (default 0 (w !! a), w);
     dev_write8 a v w := <[a := v]> w;
     dev_time w := (1, w);
     dev_inbyte w := (0, w);
     dev_undef w := (0, w);
     NSC_BASEADDR i := 0x43C00000 + 0x10000 * i;
     HOST_IP_ADDR := 0x83C00000 |}.

(** Memory before start-up: the arrays, all zero. *)
Fixpoint mk_map {K T} `{Countable K} (key : Z → K) (x : T) (i : Z) (n : nat) : gmap K T :=
  match n with O => ∅ | S n => <[key i := x]> (mk_map key x (i + 1) n) end.
Definition mk_array2 {T} (n : nat) (x : T) : gmap (Z * Z) T := mk_map (λ i, (0, i)) x 0 n.

Definition blank_ASt : ASt :=
  MkASt (mk_array 512 (λ _, 0)) (mk_array 512 (λ _, 0))
    {[ 0 := mk_array 4 (λ _, MkVIRTUAL_BLOCK_ENTRY 0 0 0 0 0 0 0) ]}
    {[ 0 := MkVIRTUAL_DIE_ENTRY 0 0 0 0 ]}
    (mk_array2 129 (MkGC_VICTIM_LIST_ENTRY 0 0)) 0 0 0.

Definition blank_RSt : RSt (gmap Z Z) :=
  MkRSt tiny_QSt (tiny_BSt 47) (tiny_BSt 1) {[ 0 := 0 ]}
    (mk_map (λ i, (0, 0, i)) (MkROW_ADDR_DEPENDENCY_ENTRY 0 0 0) 0 (Z.to_nat 8192))
    (MkSSt {[ 0 := {[ 0 := MkDIE_STATE_ENTRY 0 0 0 0 ]} ]}
       {[ 0 := let l := MkWAY_LIST 0 0 in MkWAY_PRIORITY_ENTRY l l l l l l l ]} {[ (0, 0) := 0 ]})
    (mk_array 1024 (λ _, MkCUSTOM_IO_CMD_COMPLETE_ENTRY 0 0 0 0 0))
    (MkTSt (mk_array 1024 (λ _, MkHOST_REQUEST_TIME_ENTRY 0 0 0 0 0 0 0 0 0)) (mk_array 1024 (λ _, [])) 0 0 0 0)
    (mk_array2 (Z.to_nat 8368) (MkPHY_BLOCK_ENTRY 0 0))
    {[ 0 := MkBAD_BLOCK_TABLE_INFO_ENTRY 0 0 ]} {[ 0 := 0 ]}
    (MkHSt (MkNVME_CONTEXT 0 0 0 0 ∅ ∅) (MkHOST_DMA_STATUS 0 0 0 0 0 0)
       (MkHOST_DMA_ASSIST_STATUS 0 0) ∅).

Definition blank : FSt (gmap Z Z) := MkFSt blank_RSt blank_ASt 0 0.

(** The memory after start-up, without the elements of the large arrays that the
    writes below never touch. *)
Section ready.
#[local] Existing Instance tiny_config.

Definition ready_ASt : ASt :=
  MkASt (mk_array 512 (λ _, VSA_NONE)) (mk_array 512 (λ _, LSA_NONE))
    {[ 0 := <[0 := MkVIRTUAL_BLOCK_ENTRY 0 0 0 0 0 BLOCK_NONE BLOCK_NONE]>
           (<[1 := MkVIRTUAL_BLOCK_ENTRY 0 1 0 0 0 BLOCK_NONE 2]>
           (<[2 := MkVIRTUAL_BLOCK_ENTRY 0 1 0 0 0 1 3]>
           {[3 := MkVIRTUAL_BLOCK_ENTRY 0 1 0 0 0 2 BLOCK_NONE]})) ]}
    {[ 0 := MkVIRTUAL_DIE_ENTRY 0 1 3 3 ]}
    (mk_array2 129 (MkGC_VICTIM_LIST_ENTRY BLOCK_NONE BLOCK_NONE)) 0 0 0.

(** The state an operation leaves ([s] itself when it fails). *)
Definition after {S A} (m : M S A) (s : S) : S := match m s with Ok _ s' => s' | Err _ => s end.

(** [pages]: how many pages of each block are already programmed. *)
Definition ready_RSt (pages : Z → Z) : RSt (gmap Z Z) :=
  MkRSt (after InitReqPool tiny_QSt) (after (InitBuf 47) (tiny_BSt 47)) (after (InitBuf 1) (tiny_BSt 1))
    {[ 0 := REQ_SLOT_TAG_NONE ]}
    (list_to_map ((λ i, ((0, 0, i), MkROW_ADDR_DEPENDENCY_ENTRY (pages i) 0 0)) <$> seqZ 0 4))
    (MkSSt {[ 0 := {[ 0 := MkDIE_STATE_ENTRY 0 0 WAY_NONE WAY_NONE ]} ]}
       {[ 0 := let l := MkWAY_LIST WAY_NONE WAY_NONE in
               MkWAY_PRIORITY_ENTRY (MkWAY_LIST 0 0) l l l l l l ]}
       {[ (0, 0) := RETRY_LIMIT ]})
    (mk_array 1 (λ _, MkCUSTOM_IO_CMD_COMPLETE_ENTRY 0 0 0 0 0))
    (MkTSt (mk_array 1 (λ _, MkHOST_REQUEST_TIME_ENTRY ENTRY_NONE 0 0 0 0 0 0 0 0))
       (mk_array 1 (λ _, [])) 0 0 0 0)
    (<[(0, 0) := MkPHY_BLOCK_ENTRY 2 1]> (<[(0, 1) := MkPHY_BLOCK_ENTRY 1 0]>
       (<[(0, 4184) := MkPHY_BLOCK_ENTRY 4184 0]> {[(0, 4185) := MkPHY_BLOCK_ENTRY 4185 0]})))
    {[ 0 := MkBAD_BLOCK_TABLE_INFO_ENTRY 0 0 ]} {[ 0 := 0x43C00000 ]}
    (MkHSt (MkNVME_CONTEXT 0 0 0 0 ∅ ∅) (MkHOST_DMA_STATUS 0 0 0 0 0 0)
       (MkHOST_DMA_ASSIST_STATUS 0 0) ∅).

Definition ready : FSt (gmap Z Z) := MkFSt (ready_RSt (λ _, 0)) ready_ASt 0 1536.
End ready.

(** Start-up, and the write-back of one buffer entry that holds slice [lsa],
    until the flash is idle again. *)
Section machine.
#[local] Existing Instance tiny_config.
#[local] Existing Instance quick_device.
#[local] Instance machine_fuel : Fuel := 1000%nat.

Definition start : M (FSt (gmap Z Z)) unit := InitFTL.

Definition write_back (lsa : Z) : M (FSt (gmap Z Z)) unit :=
  origin <- rM GetFromFreeReqQ ;;
  rM (rPool.[origin]∙dataBufInfo∙entry ::= 0) ;;
  rM (rBuf.[0]∙bufLogicalSliceAddr ::= lsa) ;;
  rM (rBuf.[0]∙dirty ::= DATA_BUF_DIRTY) ;;
  EvictDataBufEntry origin ;;
  rM (qM (PutToFreeReqQ origin)) ;;
  rM SyncAllLowLevelReqDone.

(** Address translations only: no data is transferred. *)
Fixpoint writes (l : list Z) : M (FSt (gmap Z Z)) unit :=
  match l with [] => skip | lsa :: l => AddrTransWrite lsa ;; writes l end.

(** Three blocks are full and their pages are programmed. *)
Definition filled : FSt (gmap Z Z) :=
  MkFSt (ready_RSt (λ b, if b =? 3 then 0 else 128)) (f_a (after (writes (seqZ 0 384)) ready)) 0 1536.

Fixpoint write_backs (l : list Z) : M (FSt (gmap Z Z)) unit :=
  match l with [] => skip | lsa :: l => write_back lsa ;; write_backs l end.
End machine.
