(* ===== verification/StartUp.v ===== *)
(** The start-up of the address maps: InitFTL leaves them in the invariant that
    every write keeps. *)
From stdpp Require Import functions.
From S2P Require Import Prelude Frame Dll Config MemMap ReqFormat ReqQueues DataBuffer AddrMap.
From S2P Require Import AddrInv SliceMap State HostLld HostTime CustomIo LowLevel Schedule Ftl BadBlock.

Section start_up.
Context `{ConfigOk} {W : Type} `{Device W} `{Fuel}.
Implicit Types (s : ASt) (d b i : Z) (m : gmap Z VIRTUAL_BLOCK_ENTRY) (e : VIRTUAL_DIE_ENTRY).

(** The arrays exist, with any contents. *)
Record Shapes s : Prop := {
  sh_logical : array SLICES_PER_SSD (a_logicalSlice s);
  sh_virtual : array SLICES_PER_SSD (a_virtualSlice s);
  sh_dies : array USER_DIES (a_die s);
  sh_blocks d : 0 ≤ d < USER_DIES → ∃ m, a_block s !! d = Some m ∧ array USER_BLOCKS_PER_DIE m;
  sh_victims d c : is_Some (a_gcVictim s !! (d, c)) ↔ 0 ≤ d < USER_DIES ∧ 0 ≤ c ≤ SLICES_PER_BLOCK;
}.

Lemma Shapes_maps s s' : maps s' = maps s → Shapes s → Shapes s'.
Proof. intros [= HL HV Hb Hd Hg] []. split; by rewrite ?HL, ?HV, ?Hb, ?Hd, ?Hg. Qed.

(** ** The slice maps and the victim lists *)

Definition unmapped_slices s : Prop :=
  array SLICES_PER_SSD (a_logicalSlice s) ∧ array SLICES_PER_SSD (a_virtualSlice s) ∧
  ∀ x, 0 ≤ x < SLICES_PER_SSD →
    a_logicalSlice s !! x = Some VSA_NONE ∧ a_virtualSlice s !! x = Some LSA_NONE.

Lemma InitSliceMap_spec s :
  array SLICES_PER_SSD (a_logicalSlice s) → array SLICES_PER_SSD (a_virtualSlice s) →
  wp InitSliceMap (λ _ s', ∃ L V, s' = fset a_virtualSlice V (fset a_logicalSlice L s) ∧
    unmapped_slices s') s.
Proof.
  intros HL HV. geometry. eapply wp_mono; [apply (wp_for_range (λ i s',
    ∃ L V, s' = fset a_virtualSlice V (fset a_logicalSlice L s) ∧
      array SLICES_PER_SSD L ∧ array SLICES_PER_SSD V ∧
      ∀ x, 0 ≤ x < i → L !! x = Some VSA_NONE ∧ V !! x = Some LSA_NONE)); [lia| |]|].
  - exists (a_logicalSlice s), (a_virtualSlice s). split; [by destruct s|]. split_and!; [done..|lia].
  - intros i ? Hi (L & V & -> & HL' & HV' & Hx).
    destruct (array_lookup _ _ _ HL' Hi) as [l Hl]. destruct (array_lookup _ _ _ HV' Hi) as [v Hv].
    apply wp_bind. eapply wp_store; [exact Hl|]. eapply wp_store; [exact Hv|].
    exists (<[i:=VSA_NONE]> L), (<[i:=LSA_NONE]> V). split; [done|].
    split_and!; [by apply array_insert..|]. intros x Hxr. rewrite !lookup_insert.
    case_decide; [done|]. apply Hx. lia.
  - intros ? s' (L & V & -> & HL' & HV' & Hx). exists L, V. done.
Qed.

(** All victim lists are empty. *)
Definition no_victims (g : Z → option GC_VICTIM_LIST_ENTRY) : Prop :=
  ∀ c, g c = if decide (0 ≤ c ≤ SLICES_PER_BLOCK)
             then Some (MkGC_VICTIM_LIST_ENTRY BLOCK_NONE BLOCK_NONE) else None.

Definition victims_from (G : gmap (Z * Z) GC_VICTIM_LIST_ENTRY) : Prop :=
  ∀ d c, is_Some (G !! (d, c)) ↔ 0 ≤ d < USER_DIES ∧ 0 ≤ c ≤ SLICES_PER_BLOCK.

Lemma InitGcVictimMap_spec s :
  victims_from (a_gcVictim s) →
  wp InitGcVictimMap (λ _ s', ∃ G, s' = fset a_gcVictim G s ∧
    ∀ d, 0 ≤ d < USER_DIES → no_victims (λ c, G !! (d, c))) s.
Proof.
  intros HG. geometry.
  set (empty := MkGC_VICTIM_LIST_ENTRY BLOCK_NONE BLOCK_NONE).
  assert (∀ G, victims_from G → ∀ d c, 0 ≤ d < USER_DIES → 0 ≤ c ≤ SLICES_PER_BLOCK →
    victims_from (<[(d, c):=empty]> G)) as Hins.
  { intros G HG' d c Hd Hc d' c'. rewrite lookup_insert. case_decide as E; [|apply HG'].
    injection E as <- <-. split; [done|eauto]. }
  eapply wp_mono; [apply (wp_for_range (λ i s', ∃ G, s' = fset a_gcVictim G s ∧ victims_from G ∧
    ∀ d c, 0 ≤ d < i → 0 ≤ c ≤ SLICES_PER_BLOCK → G !! (d, c) = Some empty)); [lia| |]|].
  - exists (a_gcVictim s). split; [by destruct s|]. split; [done|lia].
  - intros d ? Hd (G & -> & HG' & Hdone).
    eapply wp_mono; [apply (wp_for_range (λ j s', ∃ G, s' = fset a_gcVictim G s ∧ victims_from G ∧
      (∀ d' c, 0 ≤ d' < d → 0 ≤ c ≤ SLICES_PER_BLOCK → G !! (d', c) = Some empty) ∧
      ∀ c, 0 ≤ c < j → G !! (d, c) = Some empty)); [lia| |]|].
    + exists G. split_and!; try done. lia.
    + intros c ? Hc (G' & -> & HG2 & Hold & Hnew).
      destruct (proj2 (HG2 d c) ltac:(lia)) as [v Hv].
      apply wp_bind. eapply wp_store; [cbn; by rewrite Hv|].
      eapply wp_store; [cbn; rewrite Hv; cbn; by rewrite lookup_insert_eq|].
      exists (<[(d, c):=empty]> G'). split.
      { cbn. rewrite Hv. cbn. rewrite lookup_insert_eq, insert_insert_eq. done. }
      split_and!; [apply Hins; [done|done|lia]|..].
      * intros d' c' Hd' Hc'. rewrite lookup_insert_ne by (intros [=]; lia). auto.
      * intros c' Hc'. rewrite lookup_insert. case_decide; [done|]. apply Hnew.
        assert (c' ≠ c) by congruence. lia.
    + intros ? s' (G' & -> & HG2 & Hold & Hnew). exists G'. split_and!; try done.
      intros d' c Hd' Hc. destruct (decide (d' = d)) as [->|]; [apply Hnew; lia|apply Hold; lia].
  - intros ? s' (G & -> & HG' & Hdone). exists G. split; [done|]. intros d Hd c. case_decide as Hc.
    + by apply Hdone.
    + destruct (G !! (d, c)) eqn:E; [|done]. destruct Hc. apply (HG' d c). eauto.
Qed.

(** ** The free lists *)

(** The blocks of a die below [i] are initialised, those in [l] are free. *)
Definition FreshDie i m e (l : list Z) : Prop :=
  array USER_BLOCKS_PER_DIE m ∧ dll block_links m (headFreeBlock e) (tailFreeBlock e) l ∧
  freeBlockCnt e = Z.of_nat (length l) ∧ (∀ x, x ∈ l → 0 ≤ x < i) ∧
  (∀ b, 0 ≤ b < i → ∃ n, m !! b = Some n ∧ block_core n = (0, 0) ∧
     (b ∉ l → prevBlock n = BLOCK_NONE ∧ nextBlock n = BLOCK_NONE)).

Lemma FreshDie_none m e :
  array USER_BLOCKS_PER_DIE m → headFreeBlock e = BLOCK_NONE → tailFreeBlock e = BLOCK_NONE →
  freeBlockCnt e = 0 → FreshDie 0 m e [].
Proof.
  intros Ha Hh Ht Hc. split_and!; try done; [rewrite Hh, Ht; apply dll_nil|set_solver|lia].
Qed.

Lemma FreshDie_set i m e l n :
  FreshDie i m e l → 0 ≤ i < USER_BLOCKS_PER_DIE → FreshDie i (<[i:=n]> m) e l.
Proof.
  intros (Ha & (Hh & Ht & Hl & Hnd & Hf) & Hc & Hr & Hb) Hi.
  assert (i ∉ l) as Hil by (intros ?%Hr; lia). split_and!; try done.
  - by apply array_insert.
  - split_and!; try done. by apply lseg_insert_ne.
  - intros b Hbr. rewrite lookup_insert_ne by lia. by apply Hb.
Qed.

(** A bad block stays off the list. *)
Lemma FreshDie_bad i m e l n :
  FreshDie i m e l → m !! i = Some n → block_core n = (0, 0) →
  prevBlock n = BLOCK_NONE → nextBlock n = BLOCK_NONE → FreshDie (i + 1) m e l.
Proof.
  intros (Ha & Hd & Hc & Hr & Hb) Hn Hco Hp Hq. split_and!; try done.
  - intros x Hx%Hr. lia.
  - intros b Hbr. destruct (decide (b = i)) as [->|]; [by exists n|]. apply Hb. lia.
Qed.

(** Replacing the list, when only its members are relinked. *)
Lemma FreshDie_relink i i' m m' e e' l l' R :
  FreshDie i m e l → relinked block_links R m m' → (∀ x, x ∈ R → x ∈ l') →
  dll block_links m' (headFreeBlock e') (tailFreeBlock e') l' →
  freeBlockCnt e' = Z.of_nat (length l') → (∀ x, x ∈ l' → 0 ≤ x < i') →
  (∀ b, 0 ≤ b < i' → (0 ≤ b < i ∧ (b ∈ l → b ∈ l')) ∨
     b ∈ l' ∧ block_core <$> m !! b = Some (0, 0)) →
  FreshDie i' m' e' l'.
Proof.
  intros (Ha & Hd & Hc & Hr & Hb) Hrl HR Hd' Hc' Hr' Hcase. split_and!; try done.
  - by eapply relinked_array.
  - intros b Hbr. destruct (Hcase b Hbr) as [[Hbi Hbl]|[Hbl Hbc]].
    + destruct (Hb b Hbi) as (n & Hn & Hco & Hlink).
      destruct (relinked_lookup _ _ _ _ _ _ Hrl Hn) as (n' & Hn' & Hp%block_core_pay).
      exists n'. split_and!; [done|congruence|]. intros Hnl.
      assert (m' !! b = m !! b) as E by (apply Hrl; by intros ?%HR).
      assert (n' = n) as -> by congruence. apply Hlink. auto.
    + apply fmap_Some in Hbc as (n & Hn & Hco).
      destruct (relinked_lookup _ _ _ _ _ _ Hrl Hn) as (n' & Hn' & Hp%block_core_pay).
      exists n'. split_and!; [done|congruence|done].
Qed.

Lemma FreshDie_count i m e l : FreshDie i m e l → 0 ≤ i ≤ USER_BLOCKS_PER_DIE →
  0 ≤ freeBlockCnt e ≤ USER_BLOCKS_PER_DIE.
Proof.
  intros (_ & (_ & _ & _ & Hnd & _) & -> & Hr & _) Hi.
  pose proof (NoDup_length_bound i l Hnd Hr). lia.
Qed.

Lemma FreshDie_put i m e l n (Φ : unit → ASt → Prop) d s :
  FreshDie i m e l → 0 ≤ i < USER_BLOCKS_PER_DIE → m !! i = Some n → block_core n = (0, 0) →
  a_block s !! d = Some m → a_die s !! d = Some e →
  (∀ m' e', FreshDie (i + 1) m' e' (l ++ [i]) → Φ tt (set_lists d m' e' (a_gcVictim s) s)) →
  wp (PutToFbList d i) Φ s.
Proof.
  intros HF Hi Hn Hco Hm He HΦ. pose proof (FreshDie_count _ _ _ _ HF ltac:(lia)) as Hcb.
  pose proof HF as (Ha & Hd & Hc & Hr & Hb). geometry.
  assert (i ∉ l) as Hil by (intros ?%Hr; lia).
  destruct (put_tail_spec block_links m (headFreeBlock e) (tailFreeBlock e) l i Hd Hil)
    as (m' & h & t & Hop & Hd' & Hrl); [cbn; unfold BLOCK_NONE; lia|eauto|].
  destruct (dll_ends block_links _ _ _ _ Hd') as [Hh Ht].
  eapply wp_PutToFbList; [done|done|exact Hop|done|done|unfold BLOCK_NONE; lia|].
  apply HΦ. eapply (FreshDie_relink i (i + 1) m m' e _ l (l ++ [i])); [done|done|set_solver|done|..].
  - cbn. rewrite length_app. cbn. lia.
  - intros x [?%Hr| ->%list_elem_of_singleton]%elem_of_app; lia.
  - intros b Hbr. destruct (decide (b = i)) as [->|].
    + right. split; [set_solver|]. rewrite Hn. cbn. by rewrite Hco.
    + left. split; [lia|set_solver].
Qed.

(** All dies: the blocks of die [d] below [f d] are initialised. *)
Definition Fresh (f : Z → Z) s : Prop :=
  array USER_DIES (a_die s) ∧ ∀ d, 0 ≤ d < USER_DIES → ∃ m e l,
    a_block s !! d = Some m ∧ a_die s !! d = Some e ∧ FreshDie (f d) m e l.
Definition rest s := (a_logicalSlice s, a_virtualSlice s, a_gcVictim s, targets s).

Lemma Fresh_update f s d j m e l :
  Fresh f s → 0 ≤ d < USER_DIES → FreshDie j m e l →
  Fresh (<[d:=j]> f) (set_lists d m e (a_gcVictim s) s).
Proof.
  intros [Ha HF] Hd HFd. split; [by apply array_insert|]. intros d' Hd'. cbn.
  destruct (decide (d = d')) as [<-|Hne].
  - rewrite !lookup_insert_eq, fn_lookup_insert. eauto 10.
  - rewrite !lookup_insert_ne, fn_lookup_insert_ne by done. by apply HF.
Qed.

Lemma Fresh_ext f f' s : (∀ d, 0 ≤ d < USER_DIES → f' d = f d) → Fresh f s → Fresh f' s.
Proof. intros Hf [Ha HF]. split; [done|]. intros d Hd. rewrite Hf by done. by apply HF. Qed.

Lemma InitDieMap_spec s :
  Shapes s →
  wp InitDieMap (λ _ s', Fresh (λ _, 0) s' ∧ rest s' = rest s) s.
Proof.
  intros [_ _ Hd Hb _]. geometry.
  eapply wp_mono; [apply (wp_for_range (λ i s', ∃ E, s' = fset a_die E s ∧ array USER_DIES E ∧
    ∀ d, 0 ≤ d < i → ∃ e, E !! d = Some e ∧ headFreeBlock e = BLOCK_NONE ∧
      tailFreeBlock e = BLOCK_NONE ∧ freeBlockCnt e = 0)); [lia| |]|].
  - exists (a_die s). split; [by destruct s|]. split; [done|lia].
  - intros i ? Hi (E & -> & HE & Hdone). destruct (array_lookup _ _ _ HE Hi) as [e He].
    apply wp_bind. eapply wp_store; [cbn; by rewrite He|].
    apply wp_bind. eapply wp_store; [cbn; rewrite He; cbn; by rewrite lookup_insert_eq|].
    eapply wp_store; [cbn; rewrite He; cbn; rewrite lookup_insert_eq; cbn; by rewrite lookup_insert_eq|].
    cbn. rewrite He. cbn. rewrite !lookup_insert_eq. cbn. rewrite !lookup_insert_eq, !insert_insert_eq.
    eexists. split; [reflexivity|]. split; [by apply array_insert|]. intros d Hdr.
    rewrite lookup_insert. case_decide; [by eexists|]. apply Hdone. lia.
  - intros ? s' (E & -> & HE & Hdone). split; [|done]. split; [done|]. intros d Hdr.
    destruct (Hb d Hdr) as (m & Hm & Ha). destruct (Hdone d Hdr) as (e & He & Hh & Ht & Hc).
    exists m, e, []. split_and!; try done. by apply FreshDie_none.
Qed.

Implicit Types (S : FSt W).

Lemma wlp_block_store {A} d b (f : VIRTUAL_BLOCK_ENTRY → Z) `{!Field f} (v : Z) m e n (k : M (FSt W) A) Φ S :
  a_block (f_a S) !! d = Some m → a_die (f_a S) !! d = Some e → m !! b = Some n →
  wlp k Φ (fset f_a (set_lists d (<[b:=fset f v n]> m) e (a_gcVictim (f_a S)) (f_a S)) S) →
  wlp (aM (vBlock.[d].[b]∙f ::= v) ;; k) Φ S.
Proof. intros Hm He Hn HΦ. apply wlp_bind, wlp_zoom. by eapply wp_wlp, wp_block_store. Qed.

(** One block of InitBlockMap. *)
Lemma init_block_spec d i f S :
  Fresh f (f_a S) → 0 ≤ d < USER_DIES → 0 ≤ i < USER_BLOCKS_PER_DIE → f d = i →
  wlp (let phyBlockNo := Vblock2PblockOfTbsTranslation i in
       let b := vBlock.[d].[i] in
       remapped <- rM (!(phyBlock.[(d, phyBlockNo)]∙remappedPhyBlock)) ;;
       bad <- rM (!(phyBlock.[(d, remapped)]∙phyBad)) ;;
       aM (b∙vBad ::= bad) ;;
       aM (b∙vFree ::= 1) ;;
       aM (b∙invalidSliceCnt ::= 0) ;;
       aM (b∙currentPage ::= 0) ;;
       aM (b∙eraseCnt ::= 0) ;;
       bad <- aM (!(b∙vBad)) ;;
       if negb (bad =? 0) then aM (b∙prevBlock ::= BLOCK_NONE) ;; aM (b∙nextBlock ::= BLOCK_NONE)
       else aM (PutToFbList d i))
    (λ _ S', Fresh (<[d:=i + 1]> f) (f_a S') ∧ rest (f_a S') = rest (f_a S)) S.
Proof.
  intros HF Hd Hi Hfi. destruct (proj2 HF d Hd) as (m & e & l & Hm & He & HFd). rewrite Hfi in HFd.
  destruct (array_lookup _ _ _ (proj1 HFd) Hi) as [n Hn]. cbn zeta.
  apply wlp_rM. intros r S1 E1. apply wlp_rM. intros bad S2 E2. rewrite E1 in E2.
  rewrite <- E2 in Hm, He, HF |- *. clear S S1 E1 E2. rename S2 into S.
  eapply wlp_block_store; [exact Hm|exact He|exact Hn|].
  do 4 (eapply wlp_block_store;
    [apply set_lists_block|apply set_lists_die|apply lookup_insert_eq|]).
  cbn [f_a fset set_f_a]. rewrite !set_lists_twice, !insert_insert_eq, !set_lists_gc.
  set (n' := fset eraseCnt 0 _). assert (block_core n' = (0, 0)) as Hco by done.
  assert (FreshDie i (<[i:=n']> m) e l) as HF' by by apply FreshDie_set.
  apply wlp_bind, wlp_zoom, wlp_load. intros bad' _.
  destruct (bad' =? 0); cbn [negb].
  - apply wlp_zoom, wp_wlp. eapply (FreshDie_put i _ _ l n'); [exact HF'|done|apply lookup_insert_eq|done|
      apply set_lists_block|apply set_lists_die|].
    intros m' e' HFm. cbn [f_a fset set_f_a]. rewrite !set_lists_twice, !set_lists_gc.
    split; [by eapply Fresh_update|done].
  - eapply wlp_block_store; [apply set_lists_block|apply set_lists_die|apply lookup_insert_eq|].
    apply wlp_zoom. eapply wp_wlp, wp_block_store;
      [apply set_lists_block|apply set_lists_die|apply lookup_insert_eq|].
    cbn [f_a fset set_f_a]. rewrite !set_lists_twice, !insert_insert_eq, !set_lists_gc.
    split; [|done]. eapply Fresh_update; [done|done|].
    eapply FreshDie_bad; [by eapply FreshDie_set|apply lookup_insert_eq|done..].
Qed.

Lemma InitBlockMap_spec S :
  Fresh (λ _, 0) (f_a S) →
  wlp InitBlockMap (λ _ S', Fresh (λ _, USER_BLOCKS_PER_DIE) (f_a S') ∧
    rest (f_a S') = rest (f_a S)) S.
Proof.
  intros HF. geometry. eapply wlp_mono; [apply (wlp_for_range (λ k S',
    Fresh (λ d, if d <? k then USER_BLOCKS_PER_DIE else 0) (f_a S') ∧
    rest (f_a S') = rest (f_a S))); [lia| |]|].
  - split; [|done]. eapply Fresh_ext, HF. intros d Hd. destruct (Z.ltb_spec d 0); [lia|done].
  - intros d S1 Hd [HF1 Hr1]. set (f := λ d', _) in HF1.
    eapply wlp_mono; [apply (wlp_for_range (λ i S',
      Fresh (<[d:=i]> f) (f_a S') ∧ rest (f_a S') = rest (f_a S))); [lia| |]|].
    + split; [|done]. eapply Fresh_ext, HF1. intros d' Hd'.
      destruct (decide (d = d')) as [<-|]; [|by rewrite fn_lookup_insert_ne].
      rewrite fn_lookup_insert. unfold f. by rewrite Z.ltb_irrefl.
    + intros i S2 Hi [HF2 Hr2]. eapply wlp_mono; [apply (init_block_spec d i _ S2 HF2); [done..|]|].
      { by rewrite fn_lookup_insert. }
      intros ? S3 [HF3 Hr3]. split; [|congruence]. eapply Fresh_ext, HF3. intros d' Hd'.
      destruct (decide (d = d')) as [<-|]; [by rewrite !fn_lookup_insert|by rewrite !fn_lookup_insert_ne].
    + intros ? S2 [HF2 Hr2]. split; [|done]. eapply Fresh_ext, HF2. intros d' Hd'.
      destruct (decide (d = d')) as [<-|].
      * rewrite fn_lookup_insert. by rewrite (proj2 (Z.ltb_lt d (d + 1))) by lia.
      * rewrite fn_lookup_insert_ne by done. unfold f.
        destruct (Z.ltb_spec d' d), (Z.ltb_spec d' (d + 1)); (done || lia).
  - intros ? S1 [HF1 Hr1]. split; [|done]. eapply Fresh_ext, HF1. intros d Hd.
    cbn beta. destruct (Z.ltb_spec d USER_DIES); [done|lia].
Qed.

(** A die ready for writes: its current block is the only good block that is
    neither free nor in use. *)
Definition ReadyDie m e (l : list Z) : Prop :=
  FreshDie USER_BLOCKS_PER_DIE m e l ∧
  0 ≤ currentBlock e < USER_BLOCKS_PER_DIE ∧ currentBlock e ∉ l.

Definition Ready (k : Z) s : Prop :=
  array USER_DIES (a_die s) ∧ ∀ d, 0 ≤ d < USER_DIES → ∃ m e l,
    a_block s !! d = Some m ∧ a_die s !! d = Some e ∧ FreshDie USER_BLOCKS_PER_DIE m e l ∧
    (d < k → ReadyDie m e l).

Lemma FreshDie_pop m e b l :
  FreshDie USER_BLOCKS_PER_DIE m e (b :: l) →
  headFreeBlock e = b ∧ (b ∉ l) ∧ 0 ≤ b < USER_BLOCKS_PER_DIE ∧ ∃ m' h t n,
    pop_head block_links m (headFreeBlock e) (tailFreeBlock e) = Some (m', (h, t)) ∧
    0 ≤ h ≤ BLOCK_NONE ∧ 0 ≤ t ≤ BLOCK_NONE ∧ m' !! b = Some n ∧
    FreshDie USER_BLOCKS_PER_DIE (<[b:=unlink_block n]> m')
      (MkVIRTUAL_DIE_ENTRY (currentBlock e) h t (freeBlockCnt e - 1)) l.
Proof.
  intros (Ha & Hd & Hc & Hr & Hb).
  destruct (pop_head_spec block_links _ _ _ _ _ Hd) as (Hh & m' & h & t & Hop & Hd' & Hrl).
  assert (b ∉ l) as Hbl by (destruct Hd as (_ & _ & _ & Hnd & _); by inversion Hnd).
  assert (0 ≤ b < USER_BLOCKS_PER_DIE) as Hbr by (apply Hr; left).
  destruct (dll_ends block_links _ _ _ _ Hd') as [[??] [??]].
  destruct (Hb b Hbr) as (n0 & Hn0 & Hco & _).
  destruct (relinked_lookup _ _ _ _ _ _ Hrl Hn0) as (n & Hn & Hp%block_core_pay).
  split_and!; try done; try lia. exists m', h, t, n. split_and!; try done; try lia.
  unfold FreshDie. split_and!.
  - apply array_insert; [by eapply relinked_array|done].
  - destruct Hd' as (? & ? & ? & ? & ?). split_and!; try done. by apply lseg_insert_ne.
  - cbn in Hc |- *. lia.
  - intros x Hx. apply Hr. by right.
  - intros x Hx. rewrite lookup_insert. case_decide as E.
    + subst x. eexists. split_and!; [done| |done]. unfold unlink_block.
      change (block_core n = (0, 0)). congruence.
    + destruct (Hb x Hx) as (nx & Hnx & Hcx & Hlx).
      destruct (relinked_lookup _ _ _ _ _ _ Hrl Hnx) as (n' & Hn' & Hp'%block_core_pay).
      exists n'. split_and!; [done|congruence|]. intros Hxl.
      assert (m' !! x = m !! x) as Ex by (apply Hrl; done).
      assert (n' = nx) as -> by congruence. apply Hlx. set_solver.
Qed.

Lemma Ready_update k s d m e l :
  Ready k s → 0 ≤ d < USER_DIES → ReadyDie m e l →
  Ready k (set_lists d m e (a_gcVictim s) s) ∧
  (d = k → Ready (k + 1) (set_lists d m e (a_gcVictim s) s)).
Proof.
  intros [Ha HR] Hd HRd.
  assert (∀ j, j ≤ k ∨ j = k + 1 ∧ d = k → Ready j (set_lists d m e (a_gcVictim s) s)) as H'.
  { intros j Hj. split; [by apply array_insert|]. intros d' Hd'. cbn.
    destruct (decide (d = d')) as [<-|Hne].
    - rewrite !lookup_insert_eq. exists m, e, l. split_and!; try done. apply HRd.
    - rewrite !lookup_insert_ne by done. destruct (HR d' Hd') as (m' & e' & l' & ? & ? & ? & Hk).
      exists m', e', l'. split_and!; try done. intros ?. apply Hk. lia. }
  split; [apply H'; lia|]. intros ->. apply H'. by right.
Qed.

Lemma InitCurrentBlockOfDieMap_spec s :
  Fresh (λ _, USER_BLOCKS_PER_DIE) s →
  wlp InitCurrentBlockOfDieMap (λ _ s', Ready USER_DIES s' ∧ rest s' = rest s) s.
Proof.
  intros [Ha HF]. geometry.
  apply (wlp_for_range (λ k s', Ready k s' ∧ rest s' = rest s)); [lia| |].
  { split; [|done]. split; [done|]. intros d Hd. destruct (HF d Hd) as (m & e & l & Hm & He & HFd).
    exists m, e, l. split_and!; try done. lia. }
  intros d s1 Hd [HR Hr]. destruct (proj2 HR d Hd) as (m & e & l & Hm & He & HFd & _).
  pose proof (FreshDie_count _ _ _ _ HFd ltac:(lia)) as Hcb. pose proof HFd as (_ & _ & Hc & _).
  apply wlp_bind. destruct l as [|b [|b' l]].
  1-2: eapply wp_wlp, wp_GetFromFbList_none; [done|done|left; split; [done|rewrite Hc; cbn; lia]|];
    apply wlp_bind; eapply wp_wlp, wp_die_store; [exact Hm|exact He|];
    apply wlp_bind; eapply wp_wlp, wp_die_load; [apply set_lists_die|]; done.
  destruct (FreshDie_pop _ _ _ _ HFd) as (Hb & Hbl & Hbr & m' & h & t & n & Hop & Hh & Ht & Hn & HF').
  eapply wp_wlp, wp_GetFromFbList; [done|done|exact Hop|done|done| |by rewrite Hb| |].
  { unfold BLOCK_NONE. rewrite Hc in *. cbn in *. lia. }
  { left. split; [done|]. rewrite Hc. cbn. lia. }
  apply wlp_bind. eapply wp_wlp, wp_die_store; [apply set_lists_block|apply set_lists_die|].
  apply wlp_bind. eapply wp_wlp, wp_die_load; [apply set_lists_die|].
  rewrite set_lists_twice, Hb. set (e' := fset currentBlock b _).
  assert (currentBlock e' = b) as Hcur by (apply wrap_small; lia). rewrite Hcur.
  destruct (Z.eqb_spec b BLOCK_FAIL) as [->|]; [unfold BLOCK_FAIL in *; lia|].
  apply wlp_ret. split; [|done]. cbn [a_gcVictim set_lists]. eapply Ready_update; [done|done| |done].
  split; [exact HF'|]. by rewrite Hcur.
Qed.

(** ** The invariant *)

Lemma ReadyDie_DieInv m e l g :
  ReadyDie m e l → no_victims g →
  DieInv (λ _, False) m e g (λ q : block_list, match q with FreeL => l | VictimL _ => [] end).
Proof.
  intros [(Ha & Hd & Hc & Hr & Hb) Hcur] Hg. split; try done.
  - intros c Hcr. rewrite Hg, decide_True by lia. eauto.
  - split.
    + intros [|c]; [done|]. cbn. rewrite Hg. case_decide; apply dll_nil.
    + intros [|c] [|c'] x; cbn; try done; by intros ? ?%elem_of_nil || by intros ?%elem_of_nil.
  - intros b n [|c]; cbn; [|by intros ?%elem_of_nil]. intros Hx Hn.
    destruct (Hb b (Hr b Hx)) as (n' & ? & ? & _). congruence.
  - intros b n Hn Hno _. destruct (Hb b) as (n' & Hn' & Hco & Hlink).
    { by eapply array_range. }
    assert (n' = n) as -> by congruence. destruct (Hlink (Hno FreeL)).
    split_and!; try done. by injection Hco.
Qed.

Lemma Ready_AInv s :
  Ready USER_DIES s → unmapped_slices s →
  (∀ d, 0 ≤ d < USER_DIES → no_victims (λ c, a_gcVictim s !! (d, c))) →
  ∃ QQ, AInv [] QQ s.
Proof.
  intros [Ha HR] (HL & HV & Hnone) Hg.
  assert (∃ F : Z → list Z, ∀ d, 0 ≤ d < USER_DIES → ∃ m e,
    a_block s !! d = Some m ∧ a_die s !! d = Some e ∧ ReadyDie m e (F d)) as [F HF].
  { apply (finite_choice [] USER_DIES (λ d l, ∃ m e,
      a_block s !! d = Some m ∧ a_die s !! d = Some e ∧ ReadyDie m e l)). intros d Hd. destruct (HR d Hd) as (m & e & l & ? & ? & _ & Hl).
    exists l, m, e. split_and!; try done. apply Hl. lia. }
  exists (λ d (q : block_list), match q with FreeL => F d | VictimL _ => [] end). split.
  - split; [done|]. intros d Hd. destruct (HF d Hd) as (m & e & Hm & He & HRd).
    exists m, e. split_and!; try done. eapply DieInv_mov, ReadyDie_DieInv; [|done|by apply Hg].
    set_solver.
  - geometry. split; try done.
    + intros lsa v Hl Hv. destruct Hv.
      destruct (Hnone lsa (array_range _ _ _ _ HL Hl)) as [E _]. congruence.
    + intros d b cp iv Hd Hb Hc. destruct (HF d Hd) as (m & e & Hm & He & [(_ & _ & _ & _ & Hbl) _]).
      destruct (Hbl b Hb) as (n & Hn & Hco & _). unfold core in Hc. rewrite Hm in Hc. cbn in Hc.
      rewrite Hn in Hc. cbn in Hc. rewrite Hco in Hc. injection Hc as <- <-.
      split_and!; try lia; try done. intros p Hp. apply Hnone. by apply Vorg2Vsa_bound.
Qed.

(** ** InitFTL *)

#[local] Instance keeps_request_layer {A} (m : M (RSt W) A) : Keeps f_a (rM m).
Proof. by apply keeps_zoom_other. Qed.
#[local] Hint Resolve keeps_request_layer : keeps.

#[local] Instance keeps_CheckConfigRestriction : Keeps f_a (CheckConfigRestriction (S:=FSt W)).
Proof. unfold CheckConfigRestriction. keeps. Qed.

#[local] Instance keeps_RemapBadBlock : Keeps f_a (RemapBadBlock (W:=W)).
Proof. unfold RemapBadBlock. keeps. Qed.

#[local] Instance keeps_EraseUserBlockSpace : Keeps f_a (EraseUserBlockSpace (W:=W)).
Proof.
  unfold EraseUserBlockSpace. keeps. intros s. apply wlp_zoom, wlp_load. by intros.
Qed.

(** Pass an operation that does not touch the maps. *)
Ltac skip_request_layer :=
  apply (wlp_keeping f_a); [apply _|];
  let S' := fresh "S" in let E := fresh "E" in intros _ S' E; rewrite <- E in *; clear E.

Lemma InitBlockDieMap_spec S :
  Shapes (f_a S) →
  wlp InitBlockDieMap (λ _ S', Ready USER_DIES (f_a S') ∧ rest (f_a S') = rest (f_a S)) S.
Proof.
  intros HS. unfold InitBlockDieMap.
  apply (wlp_keeping f_a); [apply _|]. intros c S1 E1. cbn zeta.
  apply (wlp_keeping f_a); [apply _|]. intros _ S2 E2. rewrite E1 in E2. rewrite <- E2 in *. clear S S1 E1 E2.
  apply wlp_bind, wlp_zoom. eapply wp_wlp, wp_mono; [by apply InitDieMap_spec|].
  intros _ t [HF Hr].
  apply (wlp_keeping f_a); [apply _|]. intros _ S3 E3. apply (wlp_keeping f_a); [apply _|]. intros _ S4 E4.
  apply (wlp_keeping f_a); [apply _|]. intros _ S5 E5. rewrite E4, E3 in E5. cbn in E5.
  rewrite <- E5 in HF, Hr. clear S3 S4 E3 E4 E5.
  apply wlp_bind. eapply wlp_mono; [by apply InitBlockMap_spec|].
  intros _ S6 [HF6 Hr6]. apply (wlp_keeping f_a); [apply _|]. intros _ S7 E7. rewrite <- E7 in HF6, Hr6.
  apply wlp_zoom. eapply wlp_mono; [by apply InitCurrentBlockOfDieMap_spec|].
  intros _ t' [HR' Hr']. cbn. split; [done|congruence].
Qed.

Lemma InitAddressMap_spec S :
  Shapes (f_a S) → cursor_ok (f_a S) →
  wlp InitAddressMap (λ _ S', Ready USER_DIES (f_a S') ∧ unmapped_slices (f_a S') ∧
    a_gcVictim (f_a S') = a_gcVictim (f_a S) ∧ TInv (f_a S')) S.
Proof.
  intros HS HT. unfold InitAddressMap.
  apply (wlp_keeping f_a); [apply _|]. intros _ S1 E1. rewrite <- E1 in *. clear S E1.
  apply wlp_bind, wlp_zoom. eapply wp_wlp, wp_mono; [by apply FindDieForFreeSliceAllocation_spec|].
  intros d t (-> & _ & HT1 & Hm1). apply wlp_bind, wlp_zoom, wlp_store. intros _ _.
  set (t2 := poke _ _ _). pose proof (cursor_bound _ HT). geometry.
  assert (TInv t2) as HT2 by (split; [|done]; cbn; by rewrite wrap_small by lia).
  assert (Shapes t2) as HS2 by by eapply Shapes_maps, HS.
  apply wlp_bind, wlp_zoom. eapply wp_wlp, wp_mono; [apply InitSliceMap_spec; apply HS2|].
  intros _ ? (L & V & -> & Hun). set (t3 := fset a_virtualSlice _ _) in *.
  eapply wlp_mono; [apply InitBlockDieMap_spec|].
  { destruct HS2. split; try done; apply Hun. }
  intros _ S' [HR [= HL HV Hg Htd Htc Htw]]. split_and!; try done.
  - destruct Hun as (HLa & HVa & Hx). unfold unmapped_slices. by rewrite HL, HV.
  - rewrite Hg. cbn. by injection Hm1.
  - unfold TInv, cursor_ok. rewrite Htd, Htc, Htw. exact HT2.
Qed.

(** C8: when InitFTL returns, whatever the memory contained, the address
    maps satisfy their invariant: the free list of every die holds its good
    blocks but the current one, no victim list holds a block, and no logical
    slice is mapped. *)
Theorem start_up_establishes_maps S :
  Shapes (f_a S) → cursor_ok (f_a S) →
  wlp InitFTL (λ _ S', (∃ QQ, AInv [] QQ (f_a S')) ∧ TInv (f_a S') ∧
    ∀ lsa, 0 ≤ lsa < SLICES_PER_SSD → a_logicalSlice (f_a S') !! lsa = Some VSA_NONE) S.
Proof.
  intros HS HT. unfold InitFTL. do 6 skip_request_layer. pose proof (sh_victims _ HS) as Hv.
  apply wlp_bind. eapply wlp_mono; [by apply InitAddressMap_spec|].
  intros _ S' (HR & Hun & Hg & HT'). rewrite <- Hg in Hv. clear HS HT Hg. skip_request_layer.
  apply wlp_bind, wlp_zoom. eapply wp_wlp, wp_mono; [by apply InitGcVictimMap_spec|].
  intros _ ? (G & -> & Hnone). set (t := fset a_gcVictim _ _).
  assert (∃ QQ, AInv [] QQ t) as HI by by apply Ready_AInv. assert (TInv t) as HTt by done.
  assert (∀ lsa, 0 ≤ lsa < SLICES_PER_SSD → a_logicalSlice t !! lsa = Some VSA_NONE) as HL
    by by apply Hun.
  set (Sg := fset f_a t _). change t with (f_a Sg) in HI, HTt, HL. clearbody Sg.
  do 3 skip_request_layer.
  apply wlp_bind, wlp_load. intros mb _. apply wlp_store. intros _ _. done.
Qed.
End start_up.
