(* ===== verification/Runs.v ===== *)
(** Runs of the smallest machine (Machine.v): start-up returns, writes with and
    without garbage collection return, and the run in which garbage collection
    frees the block that is being written. *)
From stdpp Require Import functions.
From S2P Require Import Prelude Frame Dll Config MemMap ReqFormat ReqQueues DataBuffer AddrMap.
From S2P Require Import AddrInv SliceMap AddrCheck State HostLld HostTime CustomIo LowLevel Schedule Ftl.
From S2P Require Import BadBlock Transform Machine StartUp.

Definition returns {S A} (m : M S A) (s : S) : bool :=
  match m s with Ok _ _ => true | Err _ => false end.
Definition fails {S A} (m : M S A) (s : S) (e : error) : Prop :=
  match m s with Ok _ _ => False | Err e' => e' = e end.

Lemma returns_after {S} (m : M S unit) s : returns m s = true → m s = Ok tt (after m s).
Proof. unfold returns, after. by destruct (m s) as [[] s'|]. Qed.

Lemma wlp_returns {S A} (m : M S A) Φ s :
  wlp m Φ s → returns m s = true → ∃ a s', m s = Ok a s' ∧ Φ a s'.
Proof. unfold returns, wlp. destruct (m s) as [a s'|]; [eauto|done]. Qed.

#[local] Existing Instances tiny_config tiny_config_ok quick_device machine_fuel.

Lemma start_returns : returns InitFTL blank = true.
Proof. vm_compute. reflexivity. Qed.

Lemma mk_map_domain {T} (x : T) i n d c :
  is_Some (mk_map (λ i, (0, i)) x i n !! (d, c)) ↔ d = 0 ∧ i ≤ c < i + Z.of_nat n.
Proof.
  revert i. induction n as [|n IH]; intros i; cbn [mk_map].
  - rewrite lookup_empty. split; [by intros []|lia].
  - destruct (decide ((0, i) = (d, c))) as [E|E].
    + rewrite E, lookup_insert_eq. injection E as <- <-. split; [lia|eauto].
    + rewrite lookup_insert_ne, IH by done. split; [lia|]. intros [-> ?].
      destruct (decide (c = i)) as [->|]; [done|lia].
Qed.

Lemma blank_Shapes : Shapes blank_ASt.
Proof.
  split.
  - exact (array_mk_array 512 _).
  - exact (array_mk_array 512 _).
  - intros i. change (a_die blank_ASt) with ({[ 0 := MkVIRTUAL_DIE_ENTRY 0 0 0 0 ]} : gmap Z _).
    change USER_DIES with 1. destruct (decide (i = 0)) as [->|].
    + rewrite lookup_singleton_eq. split; [lia|eauto].
    + rewrite lookup_singleton_ne by done. split; [by intros []|lia].
  - intros d Hd. change USER_DIES with 1 in Hd. assert (d = 0) as -> by lia.
    eexists. split; [apply lookup_singleton_eq|]. exact (array_mk_array 4 _).
  - intros d c. change USER_DIES with 1. change SLICES_PER_BLOCK with 128.
    change (a_gcVictim blank_ASt) with (mk_map (λ i, (0, i)) (MkGC_VICTIM_LIST_ENTRY 0 0) 0 129).
    rewrite mk_map_domain. lia.
Qed.

Lemma start_up_establishes_maps_witness :
  ∃ S', InitFTL blank = Ok tt S' ∧ (∃ QQ, AInv [] QQ (f_a S')) ∧ TInv (f_a S') ∧
    a_logicalSlice (f_a S') !! 383 = Some VSA_NONE.
Proof.
  destruct (wlp_returns InitFTL _ blank (start_up_establishes_maps blank blank_Shapes
    ltac:(vm_compute; intuition congruence)) start_returns) as ([] & S' & E & HA & HT & HL).
  exists S'. split_and!; [exact E|exact HA|exact HT|]. apply HL. vm_compute. intuition congruence.
Defined.

Lemma ready_AInv : AInv [] (lists_of ready_ASt) ready_ASt.
Proof. apply check_AInv_sound. vm_compute. reflexivity. Qed.

Lemma write_maps_to_fresh_slice_witness :
  ∃ v s', AddrTransWrite 7 ready = Ok v s' ∧ Vsa2VdieTranslation v = 0 ∧
    AddrTransRead 7 (f_a s') = Ok v (f_a s').
Proof.
  pose proof (write_maps_to_fresh_slice (lists_of ready_ASt) ready 7) as Hw.
  specialize (Hw ready_AInv). unfold wp in Hw. destruct (AddrTransWrite 7 ready) as [v s'|e].
  - exists v, s'. destruct Hw as (_ & _ & _ & ? & _ & _ & _ & ? & _).
    + vm_compute. intuition congruence.
    + vm_compute. intuition congruence.
    + intros c cp iv. vm_compute. intros [= <-] [= <- <-]. by left.
    + done.
  - exfalso. apply Hw.
    + vm_compute. intuition congruence.
    + vm_compute. intuition congruence.
    + intros c cp iv. vm_compute. intros [= <-] [= <- <-]. by left.
Defined.

Lemma filled_AInv : AInv [] (lists_of (f_a filled)) (f_a filled).
Proof. apply check_AInv_sound. vm_compute. reflexivity. Qed.

Lemma filled_write_returns : returns (AddrTransWrite 5) filled = true.
Proof. vm_compute. reflexivity. Qed.

(** The write collects block 0: 127 slices are copied to the reserved block. *)
Lemma write_preserves_maps_witness :
  ∃ v s', AddrTransWrite 5 filled = Ok v s' ∧ (∃ QQ, AInv [] QQ (f_a s')) ∧
    AddrTransRead 5 (f_a s') = Ok v (f_a s') ∧ a_logicalSlice (f_a s') !! 6 ≠ Some VSA_NONE.
Proof.
  destruct (wlp_returns (AddrTransWrite 5) _ filled (write_preserves_maps (lists_of (f_a filled)) filled 5
    filled_AInv ltac:(vm_compute; intuition congruence) ltac:(vm_compute; intuition congruence)
    ltac:(right; exists 2, 0, 256; vm_compute; intuition congruence)) filled_write_returns)
    as (v & s' & E & HA & _ & _ & HR & HL).
  exists v, s'. split_and!; [exact E|exact HA|exact HR|].
  rewrite (HL 6); [vm_compute; discriminate|discriminate].
Defined.

(** ** The current block as garbage *)

(** The last block of the free list is not the current block. *)
Lemma AInv_tail_not_current QQ s d e :
  AInv [] QQ s → 0 ≤ d < USER_DIES → a_die s !! d = Some e → 0 < freeBlockCnt e →
  tailFreeBlock e ≠ currentBlock e.
Proof.
  intros [[_ HL] _] Hd He Hc. destruct (HL d Hd) as (m & e' & _ & He' & HD).
  assert (e' = e) as -> by congruence. pose proof (di_cnt _ _ _ _ _ HD) as Hn.
  destruct (family_dll _ _ _ _ _ FreeL (di_lists _ _ _ _ _ HD)) as (_ & Ht & _). cbn in Ht.
  destruct (di_current _ _ _ _ _ HD) as [_ Hcur]. intros E. apply Hcur. rewrite <- E, Ht.
  apply lstz_in. intros E'. rewrite E' in Hn. cbn in Hn. lia.
Qed.

(** Fill two blocks, then rewrite slice 0 until the third is full of its old
    copies, and once more; then go on with other slices. *)
Definition rewrites : list Z := seqZ 0 256 ++ replicate 128 0.
Definition more_writes : list Z := rewrites ++ [0] ++ seqZ 256 128 ++ replicate 128 0.

(** The tail of the free list of die 0 is its current block. *)
Definition tail_is_current (s : ASt) : bool :=
  match a_die s !! 0 with
  | Some e => (0 <? freeBlockCnt e) && (tailFreeBlock e =? currentBlock e)
  | None => false
  end.

Lemma tail_is_current_breaks s QQ : tail_is_current s = true → ¬ AInv [] QQ s.
Proof.
  unfold tail_is_current. destruct (a_die s !! 0) as [e|] eqn:E; [|done]. intros Ht HA. booleans.
  apply (AInv_tail_not_current QQ s 0 e HA); try done.
Qed.

Definition garbage : FSt (gmap Z Z) := after (writes rewrites) ready.

Lemma garbage_state :
  returns (writes rewrites) ready && check_AInv (f_a garbage) && returns (AddrTransWrite 0) garbage
  && tail_is_current (f_a (after (AddrTransWrite 0) garbage)) = true.
Proof. vm_compute. reflexivity. Qed.

Lemma garbage_TInv : TInv (f_a garbage).
Proof. vm_compute. intuition congruence. Qed.

Lemma more_writes_fail : fails (writes more_writes) ready Assert.
Proof. vm_compute. reflexivity. Qed.

