(* ===== verification/Scenarios.v ===== *)
(** Concrete states and runs of the request layer on the smallest machine, on
    which the theorems about it are applied. *)
From S2P Require Import Prelude Frame Config MemMap ReqFormat ReqQueues DataBuffer AddrMap State HostLld.
From S2P Require Import HostTime CustomIo LowLevel Schedule Ftl BadBlock Remap Transform Machine Runs.

#[local] Existing Instances tiny_config tiny_config_ok quick_device machine_fuel.

(** ** Physical blocks *)

(** Blocks [i .. i+n-1] of die 0, none replaced. *)
Fixpoint phys_map (bad : Z → Z) (i : Z) (n : nat) : gmap (Z * Z) PHY_BLOCK_ENTRY :=
  match n with
  | O => ∅
  | S n => <[(0, i) := MkPHY_BLOCK_ENTRY i (bad i)]> (phys_map bad (i + 1) n)
  end.

Lemma lookup_phys_map bad i n d b :
  phys_map bad i n !! (d, b) =
  if (d =? 0) && (i <=? b) && (b <? i + Z.of_nat n) then Some (MkPHY_BLOCK_ENTRY b (bad b)) else None.
Proof.
  revert i. induction n as [|n IH]; intros i; cbn [phys_map].
  - rewrite lookup_empty. case_Z; cbn; try done; lia.
  - destruct (decide ((0, i) = (d, b))) as [E|E].
    + rewrite E, lookup_insert_eq. injection E as <- <-. case_Z; cbn; try done; lia.
    + rewrite lookup_insert_ne, IH by done.
      assert (d ≠ 0 ∨ b ≠ i) by (destruct (decide (d = 0)), (decide (b = i)); naive_solver).
      case_Z; cbn; try done; lia.
Qed.

Definition all_blocks (bad : Z → Z) : gmap (Z * Z) PHY_BLOCK_ENTRY := phys_map bad 0 (Z.to_nat 8368).

Lemma all_blocks_phys bad : phys (all_blocks bad).
Proof.
  intros d b. unfold all_blocks. rewrite lookup_phys_map.
  change USER_DIES with 1. change TOTAL_BLOCKS_PER_DIE with 8368.
  rewrite Z2Nat.id by lia. case_Z; cbn; (split; [intros []; (done || lia)|lia || eauto]).
Qed.

Lemma all_blocks_remap bad d b : remap (all_blocks bad) d b = b.
Proof. unfold remap, all_blocks. rewrite lookup_phys_map. by destruct (_ && _). Qed.

(** Block 0, which holds the bad block table, and block 4184 are bad. *)
Definition two_bad (b : Z) : Z := if (b =? 0) || (b =? 4184) then 1 else 0.

Lemma remap_bad_block_witness :
  let S := fset f_r (fset r_phyBlock (all_blocks two_bad) (f_r ready)) ready in
  wp RemapBadBlock (λ _ S', RemapOk (r_phyBlock (f_r S')) ∧ is_bad (r_phyBlock (f_r S')) 0 4184 = true) S.
Proof.
  intros S. eapply wp_mono.
  - apply (remap_bad_block S); [apply all_blocks_phys|intros; apply all_blocks_remap].
  - intros _ S' (P & m & -> & HP & Hb & _). split; [exact HP|]. 
    change (is_bad P 0 4184 = true). rewrite Hb. unfold is_bad. cbn [S f_r r_phyBlock].
    change (match all_blocks two_bad !! (0, 4184) with
      Some e => negb (phyBad e =? 0) | None => false end = true).
    unfold all_blocks. rewrite lookup_phys_map. reflexivity.
Defined.

Definition no_bad (_ : Z) : Z := 0.

Lemma all_good d b : is_bad (all_blocks no_bad) d b = false.
Proof. unfold is_bad, all_blocks. rewrite lookup_phys_map. by destruct (_ && _). Qed.

(** With no bad block, the identity is a correct remapping. *)
Lemma no_bad_RemapOk : RemapOk (all_blocks no_bad).
Proof.
  split; [apply all_blocks_phys|]. intros d Hd. split.
  - intros v Hv. destruct (Vblock2PblockOfTbs_bound v Hv) as (Hb & Hl & _).
    cbn zeta. rewrite all_blocks_remap, all_good. split_and!; try done; lia.
  - intros v v' Hv Hv'. rewrite !all_blocks_remap. intros E.
    destruct (Vblock2PblockOfTbs_bound v Hv) as (_ & Hl & Hm).
    destruct (Vblock2PblockOfTbs_bound v' Hv') as (_ & Hl' & Hm').
    rewrite E in Hl, Hm. eapply (block_of_lun_split v v' USER_BLOCKS_PER_LUN); congruence || done.
Qed.

(** A page program of virtual slice [vsa]. *)
Definition write_req (vsa : Z) : SSD_REQ_FORMAT :=
  fset nandInfo (MkNAND_INFO vsa 0) (fset reqType REQ_TYPE_NAND zero_req).

(** Slots 0 and 1 program slices 5 and 300; slot 0 is the head of the way, which
    is executing it. *)
Definition programming : RSt (gmap Z Z) :=
  let s := ready_RSt (λ _, 0) in
  let q := r_q s in
  fset r_phyBlock (all_blocks no_bad)
    (fset r_sched (MkSSt {[ 0 := {[ 0 := MkDIE_STATE_ENTRY DIE_STATE_EXE 0 WAY_NONE WAY_NONE ]} ]}
       (s_wayPriority (r_sched s)) (s_retryLimit (r_sched s)))
    (fset r_q (fset q_queues (<[nandReqQ 0 0 := MkREQUEST_QUEUE 0 0 1]> (q_queues q))
       (fset q_reqPool (<[0 := fset nextReq REQ_SLOT_TAG_NONE (fset prevReq REQ_SLOT_TAG_NONE
          (fset nextBlockingReq REQ_SLOT_TAG_NONE (write_req 5)))]>
          (<[1 := write_req 300]> (q_reqPool q))) q)) s)).

Lemma programming_requests : vsa_request programming 0 5 ∧ vsa_request programming 1 300.
Proof. split; eexists; (split; [vm_compute; reflexivity|vm_compute; intuition congruence]). Qed.

Lemma flash_pages_distinct_witness :
  wp (a <- flash_address 0 ;; a' <- flash_address 1 ;; ret (a, a'))
    (λ '(a, a') s', s' = programming ∧ a ≠ a') programming.
Proof.
  apply (flash_pages_distinct programming 0 1 5 300); [exact no_bad_RemapOk|apply programming_requests..|discriminate].
Defined.

Lemma failed_program_returns : returns (ExecuteNandReq 0 0 REQ_STATUS_FAIL) programming = true.
Proof. vm_compute. reflexivity. Qed.

Lemma programming_executing : ∃ r, executing programming 0 0 0 r ∧ gives_up programming 0 0 REQ_STATUS_FAIL r.
Proof.
  eexists. split; [split_and!|].
  - eexists. split; vm_compute; reflexivity.
  - vm_compute. reflexivity.
  - eexists _, _. split_and!; vm_compute; reflexivity.
  - right. split; [done|]. exists 5. split; [vm_compute; reflexivity|vm_compute; intuition congruence].
Qed.

Lemma programming_RemapOk : RemapOk (r_phyBlock programming).
Proof. exact no_bad_RemapOk. Qed.

Lemma programming_block :
  remap (r_phyBlock programming) (Vsa2VdieTranslation 5)
    (Vblock2PblockOfTbsTranslation (Vsa2VblockTranslation 5)) = 0.
Proof. exact (all_blocks_remap no_bad 0 0). Qed.

