(* ===== verification/Nvme.v ===== *)
(** NVMe command processing: identify data (nvme_identify.c), admin commands
    (nvme_admin_cmd.c), I/O commands (nvme_io_cmd.c) and the main loop
    (nvme_main.c). *)
From S2P Require Import Prelude Config MemMap ReqFormat ReqQueues State HostLld CustomIo LowLevel.
From S2P Require Import Schedule Ftl BadBlock Transform.

Definition MAX_NUM_OF_IO_SQ := 8.
Definition MAX_NUM_OF_IO_CQ := 8.
Definition ADMIN_CMD_DRAM_DATA_BUFFER := 0x00200000.
Definition STORAGE_CAPACITY_H := 0x00000000.
Definition ADMIN_DELETE_IO_SQ := 0x00.
Definition ADMIN_CREATE_IO_SQ := 0x01.
Definition ADMIN_GET_LOG_PAGE := 0x02.
Definition ADMIN_DELETE_IO_CQ := 0x04.
Definition ADMIN_CREATE_IO_CQ := 0x05.
Definition ADMIN_IDENTIFY := 0x06.
Definition ADMIN_SET_FEATURES := 0x09.
Definition ADMIN_GET_FEATURES := 0x0A.
Definition ADMIN_ASYNCHRONOUS_EVENT_REQUEST := 0x0C.
Definition ADMIN_DOORBELL_BUFFER_CONFIG := 0x7C.
Definition ADMIN_SECURITY_RECEIVE := 0x82.
Definition SC_INVALID_FIELD_IN_COMMAND := 0x02.
Definition ARBITRATION := 0x01.
Definition POWER_MANAGEMENT := 0x02.
Definition LBA_RANGE_TYPE := 0x03.
Definition TEMPERATURE_THRESHOLD := 0x04.
Definition VOLATILE_WRITE_CACHE := 0x06.
Definition NUMBER_OF_QUEUES := 0x07.
Definition INTERRUPT_COALESCING := 0x08.
Definition ASYNCHRONOUS_EVENT_CONFIGURATION := 0x0B.
Definition Power_State_Transition := 0x0C.
Definition Timestamp := 0x0E.
Definition PCI_VENDOR_ID := 0x1EDC.
Definition PCI_SUBSYSTEM_VENDOR_ID := 0x1EDC.

(** The string constants with their terminating zero. *)
Definition SERIAL_NUMBER : list Z := [0x53;0x53;0x44;0x44;0x35;0x31;0x35;0x54;0].
Definition MODEL_NUMBER : list Z :=
  [0x43;0x6F;0x73;0x6D;0x6F;0x73;0x2B;0x20;0x4F;0x70;0x65;0x6E;0x53;0x53;0x44;0].
Definition FIRMWARE_REVISION : list Z := [0x54;0x59;0x50;0x45;0x30;0x30;0x30;0x35;0].

Section nvme.
Context `{Config} {W : Type} `{Device W} `{Fuel}.

(** ** Words of a command *)

Definition dw (cmd : NVME_COMMAND) (i : nat) : Z := nth i (cmdDword cmd) 0.
Definition OPC (cmd : NVME_COMMAND) : Z := get_bits 0 8 (dw cmd 0).
Definition CID (cmd : NVME_COMMAND) : Z := get_bits 16 16 (dw cmd 0).
Definition NSID (cmd : NVME_COMMAND) : Z := dw cmd 1.
Definition PRP1_0 (cmd : NVME_COMMAND) : Z := dw cmd 6.
Definition PRP1_1 (cmd : NVME_COMMAND) : Z := dw cmd 7.
Definition PRP2_0 (cmd : NVME_COMMAND) : Z := dw cmd 8.
Definition PRP2_1 (cmd : NVME_COMMAND) : Z := dw cmd 9.

(** ** Identify data *)

(** memset and memcpy on the device memory; little-endian halfwords and words. *)
Definition mem_set (a v n : Z) : M W unit := for_range 0 n (λ i, WRITE8 (a + i) v).
Fixpoint mem_copy (a : Z) (bs : list Z) : M W unit :=
  match bs with [] => skip | b :: bs => WRITE8 a b ;; mem_copy (a + 1) bs end.
Definition mem_16 (a v : Z) : M W unit := mem_copy a [get_bits 0 8 v; get_bits 8 8 v].
Definition mem_32 (a v : Z) : M W unit :=
  mem_copy a [get_bits 0 8 v; get_bits 8 8 v; get_bits 16 8 v; get_bits 24 8 v].

(** Members that are assigned zero after the memset are not written again. *)
Definition identify_controller (p : Z) : M W unit :=
  mem_set p 0 4096 ;;
  mem_16 p PCI_VENDOR_ID ;;
  mem_16 (p + 2) PCI_SUBSYSTEM_VENDOR_ID ;;
  mem_set (p + 4) 0x20 20 ;; mem_copy (p + 4) SERIAL_NUMBER ;;
  mem_set (p + 24) 0x20 40 ;; mem_copy (p + 24) MODEL_NUMBER ;;
  mem_set (p + 64) 0x20 8 ;; mem_copy (p + 64) FIRMWARE_REVISION ;;
  WRITE8 (p + 72) 0x0 ;;                     (* RAB *)
  mem_copy (p + 73) [0xE4; 0xD2; 0x5C] ;;    (* IEEE *)
  WRITE8 (p + 77) 0x8 ;;                     (* MDTS *)
  mem_16 (p + 78) 0x9 ;;                     (* CNTLID *)
  WRITE8 (p + 258) 0x3 ;;                    (* ACL *)
  WRITE8 (p + 259) 0x3 ;;                    (* AERL *)
  WRITE8 (p + 260) (set_bits 1 3 0x1 (set_bits 0 1 0x1 0)) ;;   (* FRMW *)
  WRITE8 (p + 262) 0x8 ;;                    (* ELPE *)
  WRITE8 (p + 512) (set_bits 4 4 0x6 (set_bits 0 4 0x6 0)) ;;   (* SQES *)
  WRITE8 (p + 513) (set_bits 4 4 0x4 (set_bits 0 4 0x4 0)) ;;   (* CQES *)
  mem_32 (p + 516) 0x1 ;;                    (* NN *)
  WRITE8 (p + 525) 0x1 ;;                    (* VWC *)
  mem_16 (p + 2048) 0x09C4.                  (* PSD0.MP *)

Definition identify_namespace (storageCapacity_L p : Z) : M W unit :=
  mem_set p 0 4096 ;;
  mem_32 p storageCapacity_L ;; mem_32 (p + 4) STORAGE_CAPACITY_H ;;
  mem_32 (p + 8) storageCapacity_L ;; mem_32 (p + 12) STORAGE_CAPACITY_H ;;
  mem_32 (p + 16) storageCapacity_L ;; mem_32 (p + 20) STORAGE_CAPACITY_H ;;
  WRITE8 (p + 130) 0xC ;;                    (* LBAF0.LBADS *)
  WRITE8 (p + 131) 0x2.                      (* LBAF0.RP *)

(** ** Admin commands: they answer with the status field and the specific word *)

Definition hM {A} (m : M (HSt W) A) : M (FSt W) A := rM (hostM m).

Definition get_num_of_queue (dword11 : Z) : M (FSt W) Z :=
  let NCQR := get_bits 0 16 dword11 in
  let NSQR := get_bits 16 16 dword11 in
  let sq := g_nvmeTask∙numOfIOSubmissionQueuesAllocated in
  let cq := g_nvmeTask∙numOfIOCompletionQueuesAllocated in
  hM (sq ::= if NSQR >=? MAX_NUM_OF_IO_SQ then MAX_NUM_OF_IO_SQ else NSQR + 1) ;;
  s <- hM (!sq) ;;
  hM (cq ::= if NCQR >=? MAX_NUM_OF_IO_CQ then MAX_NUM_OF_IO_CQ else NCQR + 1) ;;
  c <- hM (!cq) ;;
  ret (set_bits 0 16 (c - 1) (set_bits 16 16 (s - 1) 0)).

Definition handle_set_features (cmd : NVME_COMMAND) : M (FSt W) (Z * Z) :=
  let FID := get_bits 0 8 (dw cmd 10) in
  if FID =? NUMBER_OF_QUEUES then n <- get_num_of_queue (dw cmd 11) ;; ret (0, n)
  else if FID =? INTERRUPT_COALESCING then ret (0, 0)
  else if FID =? ARBITRATION then ret (0, 0)
  else if FID =? ASYNCHRONOUS_EVENT_CONFIGURATION then ret (0, 0)
  else if FID =? VOLATILE_WRITE_CACHE then
    hM (g_nvmeTask∙cacheEn ::= Z.land (dw cmd 11) 0x1) ;; ret (0, 0)
  else if FID =? POWER_MANAGEMENT then ret (0, 0)
  else if FID =? Timestamp then ret (0, 0)
  else fail Assert.

Definition handle_get_features (cmd : NVME_COMMAND) : M (FSt W) (Z * Z) :=
  let FID := get_bits 0 8 (dw cmd 10) in
  if FID =? LBA_RANGE_TYPE then
    ASSERT (NSID cmd =? 1) ;; ret (set_bits 1 8 SC_INVALID_FIELD_IN_COMMAND 0, 0)
  else if FID =? TEMPERATURE_THRESHOLD then ret (0, dw cmd 11)
  else if FID =? VOLATILE_WRITE_CACHE then c <- hM (!(g_nvmeTask∙cacheEn)) ;; ret (0, c)
  else if FID =? POWER_MANAGEMENT then ret (0, 0)
  else if FID =? Power_State_Transition then ret (0, 0)
  else if FID =? 0xD0 then ret (0, 0)
  else fail Assert.

Definition handle_create_io_sq (cmd : NVME_COMMAND) : M (FSt W) (Z * Z) :=
  let QID := get_bits 0 16 (dw cmd 10) in
  let QSIZE := get_bits 16 16 (dw cmd 10) in
  let CQID := get_bits 16 16 (dw cmd 11) in
  ASSERT ((Z.land (PRP1_0 cmd) 0x3 =? 0) && (PRP1_1 cmd <? 0x10000)) ;;
  ASSERT ((0 <? QID) && (QID <=? 8) && (QSIZE <? 0x100) && (0 <? CQID) && (CQID <=? 8)) ;;
  let ioSqIdx := QID - 1 in
  let q := g_nvmeTask∙ioSqInfo.[ioSqIdx] in
  hM (q∙sqValid ::= 1 ;; q∙sqQSzie ::= QSIZE ;; q∙sqCqVector ::= CQID ;;
      q∙sqPcieBaseAddrL ::= PRP1_0 cmd ;; q∙sqPcieBaseAddrH ::= PRP1_1 cmd ;;
      s <- !q ;;
      set_io_sq ioSqIdx (sqValid s) (sqCqVector s) (sqQSzie s) (sqPcieBaseAddrL s) (sqPcieBaseAddrH s)) ;;
  ret (0, 0).

Definition handle_delete_io_sq (cmd : NVME_COMMAND) : M (FSt W) (Z * Z) :=
  let ioSqIdx := u32 (get_bits 0 16 (dw cmd 10) - 1) in
  let q := g_nvmeTask∙ioSqInfo.[ioSqIdx] in
  hM (q∙sqValid ::= 0 ;; q∙sqCqVector ::= 0 ;; q∙sqQSzie ::= 0 ;;
      q∙sqPcieBaseAddrL ::= 0 ;; q∙sqPcieBaseAddrH ::= 0 ;;
      set_io_sq ioSqIdx 0 0 0 0 0) ;;
  ret (0, 0).

Definition handle_create_io_cq (cmd : NVME_COMMAND) : M (FSt W) (Z * Z) :=
  let QID := get_bits 0 16 (dw cmd 10) in
  let QSIZE := get_bits 16 16 (dw cmd 10) in
  let IEN := get_bits 1 1 (dw cmd 11) in
  let IV := get_bits 16 16 (dw cmd 11) in
  ASSERT ((Z.land (PRP1_0 cmd) 0x3 =? 0) && (PRP1_1 cmd <? 0x10000)) ;;
  ASSERT ((IV <? 8) && (QSIZE <? 0x100) && (0 <? QID) && (QID <=? 8)) ;;
  let ioCqIdx := QID - 1 in
  let q := g_nvmeTask∙ioCqInfo.[ioCqIdx] in
  hM (q∙cqValid ::= 1 ;; q∙cqQSzie ::= QSIZE ;; q∙cqIrqEn ::= IEN ;; q∙cqIrqVector ::= IV ;;
      q∙cqPcieBaseAddrL ::= PRP1_0 cmd ;; q∙cqPcieBaseAddrH ::= PRP1_1 cmd ;;
      s <- !q ;;
      set_io_cq ioCqIdx (cqValid s) (cqIrqEn s) (cqIrqVector s) (cqQSzie s)
        (cqPcieBaseAddrL s) (cqPcieBaseAddrH s)) ;;
  ret (0, 0).

Definition handle_delete_io_cq (cmd : NVME_COMMAND) : M (FSt W) (Z * Z) :=
  let ioCqIdx := u32 (get_bits 0 16 (dw cmd 10) - 1) in
  let q := g_nvmeTask∙ioCqInfo.[ioCqIdx] in
  hM (q∙cqValid ::= 0 ;; q∙cqIrqVector ::= 0 ;; q∙cqQSzie ::= 0 ;;
      q∙cqPcieBaseAddrL ::= 0 ;; q∙cqPcieBaseAddrH ::= 0 ;;
      set_io_cq ioCqIdx 0 0 0 0 0 0) ;;
  ret (0, 0).

Definition handle_identify (cmd : NVME_COMMAND) : M (FSt W) (Z * Z) :=
  let pIdentifyData := ADMIN_CMD_DRAM_DATA_BUFFER in
  let CNS := get_bits 0 1 (dw cmd 10) in
  (if CNS =? 1 then
     ASSERT ((Z.land (PRP1_0 cmd) 0x3 =? 0) && (Z.land (PRP2_0 cmd) 0x3 =? 0)) ;;
     rM (devM (identify_controller pIdentifyData))
   else if CNS =? 0 then
     ASSERT ((Z.land (PRP1_0 cmd) 0x3 =? 0) && (Z.land (PRP2_0 cmd) 0x3 =? 0)) ;;
     c <- !(glob f_storageCapacity_L) ;;
     rM (devM (identify_namespace c pIdentifyData))
   else ASSERT false) ;;
  let prpLen := 0x1000 - Z.land (PRP1_0 cmd) 0xFFF in
  hM (set_direct_tx_dma pIdentifyData (PRP1_1 cmd) (PRP1_0 cmd) prpLen) ;;
  when (negb (prpLen =? 0x1000))
    (hM (set_direct_tx_dma (pIdentifyData + prpLen) (PRP2_1 cmd) (PRP2_0 cmd) (0x1000 - prpLen))) ;;
  hM check_direct_tx_dma_done ;;
  ret (0, 0).

Definition handle_get_log_page (cmd : NVME_COMMAND) : M (FSt W) (Z * Z) := ret (0, 0x9).

Definition handle_nvme_admin_cmd (cmd : NVME_COMMAND) : M (FSt W) unit :=
  let opc := OPC cmd in
  '((statusFieldWord, specific), needCpl, needSlotRelease) <-
    (if opc =? ADMIN_SET_FEATURES then c <- handle_set_features cmd ;; ret (c, 1, 0)
     else if opc =? ADMIN_CREATE_IO_CQ then c <- handle_create_io_cq cmd ;; ret (c, 1, 0)
     else if opc =? ADMIN_CREATE_IO_SQ then c <- handle_create_io_sq cmd ;; ret (c, 1, 0)
     else if opc =? ADMIN_IDENTIFY then c <- handle_identify cmd ;; ret (c, 1, 0)
     else if opc =? ADMIN_GET_FEATURES then c <- handle_get_features cmd ;; ret (c, 1, 0)
     else if opc =? ADMIN_DELETE_IO_CQ then c <- handle_delete_io_cq cmd ;; ret (c, 1, 0)
     else if opc =? ADMIN_DELETE_IO_SQ then c <- handle_delete_io_sq cmd ;; ret (c, 1, 0)
     else if opc =? ADMIN_ASYNCHRONOUS_EVENT_REQUEST then ret ((0, 0), 0, 1)
     else if opc =? ADMIN_GET_LOG_PAGE then c <- handle_get_log_page cmd ;; ret (c, 1, 0)
     else if opc =? ADMIN_SECURITY_RECEIVE then ret ((0, 0), 0, 0)
     else if opc =? ADMIN_DOORBELL_BUFFER_CONFIG then ret ((0, 0), 0, 0)
     else fail Assert) ;;
  if needCpl =? 1 then hM (set_auto_nvme_cpl (cmdSlotTag cmd) specific statusFieldWord)
  else if needSlotRelease =? 1 then hM (set_nvme_slot_release (cmdSlotTag cmd))
  else hM (set_nvme_cpl (qID cmd) (CID cmd) specific statusFieldWord).

(** ** I/O commands *)

(** Word 12 (and 13 of the custom command): NLB and FUA. *)
Definition NLB (w : Z) : Z := get_bits 0 16 w.
Definition FUA (w : Z) : Z := get_bits 30 1 w.

Definition check_lba (lba0 lba1 : Z) : M (FSt W) unit :=
  c <- !(glob f_storageCapacity_L) ;;
  ASSERT ((lba0 <? c) && ((lba1 <? STORAGE_CAPACITY_H) || (lba1 =? 0))).
Definition check_prp (mask : Z) (cmd : NVME_COMMAND) : M (FSt W) unit :=
  ASSERT ((Z.land (PRP1_0 cmd) mask =? 0) && (Z.land (PRP2_0 cmd) mask =? 0)) ;;
  ASSERT ((PRP1_1 cmd <? 0x10000) && (PRP2_1 cmd <? 0x10000)).

Definition handle_nvme_io_read (cmdSlotTag : Z) (cmd : NVME_COMMAND) : M (FSt W) unit :=
  check_lba (dw cmd 10) (dw cmd 11) ;;
  check_prp 0x3 cmd ;;
  rM (ReqTransNvmeToSlice cmdSlotTag (dw cmd 10) (NLB (dw cmd 12)) IO_NVM_READ (FUA (dw cmd 12)) 0).

Definition handle_nvme_io_write (cmdSlotTag : Z) (cmd : NVME_COMMAND) : M (FSt W) unit :=
  check_lba (dw cmd 10) (dw cmd 11) ;;
  check_prp 0xF cmd ;;
  rM (ReqTransNvmeToSlice cmdSlotTag (dw cmd 10) (NLB (dw cmd 12)) IO_NVM_WRITE (FUA (dw cmd 12)) 0).

Definition handle_nvme_io_write_read (cmdSlotTag : Z) (cmd : NVME_COMMAND) : M (FSt W) unit :=
  let fua := FUA (dw cmd 12) in
  check_lba (dw cmd 10) (dw cmd 11) ;;
  check_prp 0xF cmd ;;
  c <- !(glob f_storageCapacity_L) ;;
  ASSERT (dw cmd 14 <? c) ;;
  rM (ReqTransNvmeToSlice cmdSlotTag (dw cmd 10) (NLB (dw cmd 12)) IO_NVM_WRITE fua 1) ;;
  rM (ReqTransNvmeToSlice cmdSlotTag (dw cmd 14) (NLB (dw cmd 13)) IO_NVM_READ fua 1).

Definition handle_nvme_io_cmd (cmd : NVME_COMMAND) : M (FSt W) unit :=
  let opc := OPC cmd in
  if opc =? IO_NVM_FLUSH then hM (set_auto_nvme_cpl (cmdSlotTag cmd) 0 0)
  else if opc =? IO_NVM_WRITE then handle_nvme_io_write (cmdSlotTag cmd) cmd
  else if opc =? IO_NVM_READ then handle_nvme_io_read (cmdSlotTag cmd) cmd
  else if opc =? IO_NVM_WRITE_READ then handle_nvme_io_write_read (cmdSlotTag cmd) cmd
  else fail Assert.

(** ** The main loop *)

Definition clear_io_queues : M (HSt W) unit :=
  for_range 0 8 (λ qID, set_io_cq qID 0 0 0 0 0 0 ;; set_io_sq qID 0 0 0 0 0).

(** The task of one iteration: the new reset count, and whether the low-level
    requests are to be advanced. *)
Definition nvme_task (rstCnt : Z) : M (FSt W) (Z * bool) :=
  status <- hM (!(g_nvmeTask∙status)) ;;
  if status =? NVME_TASK_WAIT_CC_EN then
    ccEn <- hM check_nvme_cc_en ;;
    when (ccEn =? 1)
      (hM (set_nvme_admin_queue 1 1 1) ;; hM (set_nvme_csts_rdy 1) ;;
       hM (g_nvmeTask∙State.status ::= NVME_TASK_RUNNING)) ;;
    ret (rstCnt, true)
  else if status =? NVME_TASK_RUNNING then
    cmd <- hM get_nvme_cmd ;;
    match cmd with
    | None => ret (rstCnt, true)
    | Some cmd =>
        if qID cmd =? 0 then handle_nvme_admin_cmd cmd ;; ret (0, true)
        else handle_nvme_io_cmd cmd ;; ReqTransSliceToLowLevel ;; ret (0, false)
    end
  else if status =? NVME_TASK_SHUTDOWN then
    nvmeReg <- rM (devM (IO_READ32 NVME_STATUS_REG_ADDR)) ;;
    when (negb (get_bits 1 2 nvmeReg =? 0))
      (hM (set_nvme_csts_shst 1) ;; hM clear_io_queues ;; hM (set_nvme_admin_queue 0 0 0) ;;
       hM (g_nvmeTask∙cacheEn ::= 0) ;; hM (set_nvme_csts_shst 2) ;;
       hM (g_nvmeTask∙State.status ::= NVME_TASK_WAIT_RESET) ;;
       rM (UpdateBadBlockTableForGrownBadBlock RESERVED_DATA_BUFFER_BASE_ADDR)) ;;
    ret (rstCnt, true)
  else if status =? NVME_TASK_WAIT_RESET then
    ccEn <- hM check_nvme_cc_en ;;
    when (ccEn =? 0)
      (hM (g_nvmeTask∙cacheEn ::= 0) ;; hM (set_nvme_csts_shst 0) ;; hM (set_nvme_csts_rdy 0) ;;
       hM (g_nvmeTask∙State.status ::= NVME_TASK_IDLE)) ;;
    ret (rstCnt, true)
  else if status =? NVME_TASK_RESET then
    hM clear_io_queues ;;
    rstCnt <- (if rstCnt >=? 5 then hM (pcie_async_reset rstCnt) ;; ret 0 else ret (rstCnt + 1)) ;;
    hM (g_nvmeTask∙cacheEn ::= 0) ;; hM (set_nvme_admin_queue 0 0 0) ;;
    hM (set_nvme_csts_shst 0) ;; hM (set_nvme_csts_rdy 0) ;;
    hM (g_nvmeTask∙State.status ::= NVME_TASK_IDLE) ;;
    ret (rstCnt, true)
  else ret (rstCnt, true).

(** One iteration of the [while(1)] of nvme_main. *)
Definition nvme_main_step (rstCnt : Z) : M (FSt W) Z :=
  '(rstCnt, exeLlr) <- nvme_task rstCnt ;;
  dma <- rM (!(rQueues.[nvmeDmaReqQ]∙headReq)) ;;
  ccmd <- rM (!(rQueues.[customCmdQ]∙headReq)) ;;
  n <- rM (qM (!notCompletedNandReqCnt)) ;;
  b <- rM (qM (!blockedReqCnt)) ;;
  when (exeLlr && (negb (dma =? REQ_SLOT_TAG_NONE) || negb (ccmd =? REQ_SLOT_TAG_NONE)
                   || negb (n =? 0) || negb (b =? 0)))
    (rM CheckDoneNvmeDmaReq ;; rM CheckDoneCustomCmdDmaReq ;; rM SchedulingNandReq) ;;
  ret rstCnt.

(** The first [n] iterations. *)
Definition nvme_main (n : nat) : M (FSt W) Z :=
  InitFTL ;; for_acc_n n 0 (λ _ rstCnt, nvme_main_step rstCnt) 0.
End nvme.
