(* ===== verification/Crc32.v ===== *)
(** The CRC-32C of the page checksums (ut0crc32.cc): the table-driven routine that
    takes eight bytes at a time, and its equality with the definition of the
    code bit by bit.  Bytes are integers from 0 to 255. *)
From S2P Require Import Prelude.

(** bit-reversed poly 0x1EDC6F41 *)
Definition poly := 0x82f63b78.

(** ** The source *)

(** One round of the inner loop of ut_crc32_slice8_table_init. *)
Definition table_step (c : Z) : Z :=
  if Z.land c 1 =? 0 then Z.shiftr c 1 else Z.lxor poly (Z.shiftr c 1).

(** ut_crc32_slice8_table[k][n], as ut_crc32_slice8_table_init fills it: row 0
    bit by bit, each other row from the row before it and row 0. *)
Fixpoint ut_crc32_slice8_table (k : nat) (n : Z) : Z :=
  match k with
  | O => Nat.iter 8 table_step n
  | Datatypes.S k =>
      let c := ut_crc32_slice8_table k n in
      Z.lxor (Nat.iter 8 table_step (Z.land c 0xFF)) (Z.shiftr c 8)
  end.

(** The value of an ib_uint64_t in memory, lowest byte first. *)
Fixpoint le_word (l : list Z) : Z :=
  match l with [] => 0 | b :: l => Z.lor b (Z.shiftl (le_word l) 8) end.

(** The macros, on the running code and the bytes that are left. *)
Definition ut_crc32_slice8_byte '(crc, buf) : Z * list Z :=
  (Z.lxor (Z.shiftr crc 8) (ut_crc32_slice8_table 0 (Z.land (Z.lxor crc (hd 0 buf)) 0xFF)), tl buf).

Definition ut_crc32_slice8_quadword '(crc, buf) : Z * list Z :=
  let crc := Z.lxor crc (le_word (take 8 buf)) in
  let t k lo := ut_crc32_slice8_table k (Z.land (Z.shiftr crc lo) 0xFF) in
  (Z.lxor (Z.lxor (Z.lxor (Z.lxor (Z.lxor (Z.lxor (Z.lxor
     (ut_crc32_slice8_table 7 (Z.land crc 0xFF)) (t 6%nat 8)) (t 5%nat 16)) (t 4%nat 24))
     (t 3%nat 32)) (t 2%nat 40)) (t 1%nat 48)) (ut_crc32_slice8_table 0 (Z.shiftr crc 56)), drop 8 buf).

(** [while (c) body], at most [fuel] rounds. *)
Fixpoint while {X} (fuel : nat) (c : X → bool) (body : X → X) (x : X) : X :=
  match fuel with
  | O => x
  | Datatypes.S fuel => if c x then while fuel c body (body x) else x
  end.

(** [addr]: the address of the first byte, which decides how many bytes are taken
    one by one before the first quadword. *)
Definition ut_crc32_slice8 (addr : Z) (buf : list Z) : Z :=
  let fuel := length buf in
  let left (x : Z * list Z) := length x.2 in
  let x := while fuel (λ x, negb (Nat.eqb (left x) 0)
                    && negb (Z.land (addr + Z.of_nat (fuel - left x)) 7 =? 0)) ut_crc32_slice8_byte
             (0xFFFFFFFF, buf) in
  let x := while fuel (λ x, Nat.leb 32 (left x))
             (λ x, ut_crc32_slice8_quadword (ut_crc32_slice8_quadword
                     (ut_crc32_slice8_quadword (ut_crc32_slice8_quadword x)))) x in
  let x := while fuel (λ x, Nat.leb 8 (left x)) ut_crc32_slice8_quadword x in
  let x := while fuel (λ x, negb (Nat.eqb (left x) 0)) ut_crc32_slice8_byte x in
  Z.land (Z.lnot x.1) 0xFFFFFFFF.

(** ** The reference: each bit of each byte, lowest first *)

Definition crc_byte (c b : Z) : Z := Nat.iter 8 table_step (Z.lxor c b).
Definition crc32c (buf : list Z) : Z :=
  Z.land (Z.lnot (fold_left crc_byte buf 0xFFFFFFFF)) 0xFFFFFFFF.

Definition byte (b : Z) : Prop := 0 ≤ b < 256.

(** ** Linearity *)

Lemma table_step_odd c : table_step c = Z.lxor (Z.shiftr c 1) (if Z.testbit c 0 then poly else 0).
Proof.
  unfold table_step. assert (Z.land c 1 = Z.b2z (Z.testbit c 0)) as ->.
  { change 1 with (Z.ones 1). rewrite Z.land_ones, Z.bit0_mod by lia. done. }
  destruct (Z.testbit c 0); cbn -[Z.shiftr Z.lxor]; [apply Z.lxor_comm|by rewrite Z.lxor_0_r].
Qed.

Lemma table_step_lxor a b : table_step (Z.lxor a b) = Z.lxor (table_step a) (table_step b).
Proof.
  rewrite !table_step_odd. apply Z.bits_inj'. intros n Hn.
  rewrite !Z.lxor_spec, !Z.shiftr_spec, !Z.lxor_spec by done.
  destruct (Z.testbit a 0), (Z.testbit b 0); cbn [xorb]; rewrite ?Z.bits_0;
    destruct (Z.testbit a (n + 1)), (Z.testbit b (n + 1)), (Z.testbit poly n); reflexivity.
Qed.

Lemma iter_lxor n a b : Nat.iter n table_step (Z.lxor a b) = Z.lxor (Nat.iter n table_step a) (Nat.iter n table_step b).
Proof. induction n as [|n IH]; [done|]. by rewrite !Nat.iter_succ, IH, table_step_lxor. Qed.

Lemma iter_add n m c : Nat.iter (n + m) table_step c = Nat.iter n table_step (Nat.iter m table_step c).
Proof. induction n as [|n IH]; [done|]. cbn [Nat.add]. by rewrite !Nat.iter_succ, IH. Qed.

Lemma iter_shiftl n c : Nat.iter n table_step (Z.shiftl c (Z.of_nat n)) = c.
Proof.
  induction n as [|n IH]; [apply Z.shiftl_0_r|]. rewrite <- Nat.add_1_r, iter_add. change (Nat.iter 1 table_step ?c) with (table_step c).
  rewrite <- IH at 2. f_equal. rewrite table_step_odd, Z.shiftl_spec, Z.testbit_neg_r by lia.
  rewrite Z.lxor_0_r, Z.shiftr_shiftl_l by lia. f_equal. lia.
Qed.

(** Eight rounds take the lowest byte out. *)
Lemma low_byte v : v = Z.lxor (Z.land v 0xFF) (Z.shiftl (Z.shiftr v 8) 8).
Proof.
  apply Z.bits_inj'. intros n Hn. rewrite Z.lxor_spec, Z.land_spec, Z.shiftl_spec by done.
  change 0xFF with (Z.ones 8). rewrite Z.testbit_ones_nonneg by lia. destruct (Z.ltb_spec n 8).
  - rewrite (Z.testbit_neg_r _ (n - 8)) by lia. by rewrite andb_true_r, xorb_false_r.
  - rewrite Z.shiftr_spec by lia. rewrite andb_false_r, xorb_false_l. f_equal. lia.
Qed.

Lemma iter_split n v :
  Nat.iter (n + 8) table_step v = Z.lxor (Nat.iter (n + 8) table_step (Z.land v 0xFF)) (Nat.iter n table_step (Z.shiftr v 8)).
Proof.
  rewrite (low_byte v) at 1. rewrite iter_lxor. f_equal. rewrite iter_add. f_equal. apply (iter_shiftl 8).
Qed.

(** ** The tables and the steps *)

Lemma slice8_table_iter k n : ut_crc32_slice8_table k n = Nat.iter (8 * k + 8) table_step n.
Proof.
  induction k as [|k IH]; [done|]. cbn [ut_crc32_slice8_table]. rewrite IH.
  replace (8 * Datatypes.S k + 8)%nat with (8 + (8 * k + 8))%nat by lia. rewrite (iter_add 8).
  symmetry. exact (iter_split 0 _).
Qed.

Lemma byte_shiftr b : byte b → Z.shiftr b 8 = 0.
Proof. intros Hb. rewrite Z.shiftr_div_pow2 by lia. apply Z.div_small. exact Hb. Qed.

Lemma slice8_byte_ok crc b buf : byte b → ut_crc32_slice8_byte (crc, b :: buf) = (crc_byte crc b, buf).
Proof.
  intros Hb. unfold ut_crc32_slice8_byte, crc_byte. cbn [hd tl]. f_equal.
  rewrite (iter_split 0), Z.shiftr_lxor, (byte_shiftr b Hb), Z.lxor_0_r. apply Z.lxor_comm.
Qed.

Lemma lor_low b c : byte b → Z.lor b (Z.shiftl c 8) = Z.lxor b (Z.shiftl c 8).
Proof.
  intros Hb. symmetry. apply Z.lxor_lor. apply Z.bits_inj'. intros n Hn. rewrite Z.land_spec, Z.bits_0.
  destruct (decide (n < 8)).
  - by rewrite Z.shiftl_spec, (Z.testbit_neg_r _ (n - 8)), andb_false_r by lia.
  - rewrite <- (Z.mod_small b (2 ^ 8)) by exact Hb. by rewrite Z.mod_pow2_bits_high by lia.
Qed.

Lemma bytes_step c l :
  Forall byte l → fold_left crc_byte l c = Nat.iter (8 * length l) table_step (Z.lxor c (le_word l)).
Proof.
  revert c. induction l as [|b l IH]; intros c Hl; [cbn; by rewrite Z.lxor_0_r|].
  apply Forall_cons in Hl as [Hb Hl]. cbn [fold_left length le_word]. rewrite IH by done. unfold crc_byte.
  rewrite lor_low, <- Z.lxor_assoc by done. replace (8 * Datatypes.S (length l))%nat with (8 * length l + 8)%nat by lia.
  rewrite iter_add. f_equal. rewrite (iter_lxor 8 _ (Z.shiftl _ _)). f_equal. symmetry. apply (iter_shiftl 8).
Qed.

(** Sixty-four rounds, a byte at a time. *)
Lemma iter_64 x :
  Nat.iter 64 table_step x =
  Z.lxor (Z.lxor (Z.lxor (Z.lxor (Z.lxor (Z.lxor (Z.lxor
    (Nat.iter 64 table_step (Z.land x 0xFF)) (Nat.iter 56 table_step (Z.land (Z.shiftr x 8) 0xFF)))
    (Nat.iter 48 table_step (Z.land (Z.shiftr x 16) 0xFF))) (Nat.iter 40 table_step (Z.land (Z.shiftr x 24) 0xFF)))
    (Nat.iter 32 table_step (Z.land (Z.shiftr x 32) 0xFF))) (Nat.iter 24 table_step (Z.land (Z.shiftr x 40) 0xFF)))
    (Nat.iter 16 table_step (Z.land (Z.shiftr x 48) 0xFF))) (Nat.iter 8 table_step (Z.shiftr x 56)).
Proof.
  assert (∀ lo, 0 ≤ lo → Z.shiftr (Z.shiftr x lo) 8 = Z.shiftr x (lo + 8)) as Hs.
  { intros. rewrite Z.shiftr_shiftr by lia. done. }
  rewrite (iter_split 56), (iter_split 48), (iter_split 40), (iter_split 32), (iter_split 24), (iter_split 16), (iter_split 8).
  rewrite !Hs by lia. cbn [Z.add Pos.add Pos.succ Pos.add_carry Nat.add]. by rewrite !Z.lxor_assoc.
Qed.

Lemma slice8_quadword_ok crc l buf :
  length l = 8%nat → Forall byte l → ut_crc32_slice8_quadword (crc, l ++ buf) = (fold_left crc_byte l crc, buf).
Proof.
  intros Hn Hl. unfold ut_crc32_slice8_quadword. rewrite take_app_length', drop_app_length' by done.
  f_equal. rewrite bytes_step, Hn by done. cbn [Nat.mul Nat.add]. rewrite iter_64, !slice8_table_iter. done.
Qed.

(** ** The loops *)

(** [x]: the code of the bytes already taken, and the rest of [buf]. *)
Definition taken (buf : list Z) (x : Z * list Z) : Prop :=
  ∃ l, buf = l ++ x.2 ∧ x.1 = fold_left crc_byte l 0xFFFFFFFF.

Lemma while_ind {X} (P : X → Prop) fuel c body (x : X) :
  P x → (∀ x, P x → c x = true → P (body x)) → P (while fuel c body x).
Proof.
  intros Hx Hb. revert x Hx. induction fuel as [|fuel IH]; intros x Hx; [done|]. cbn.
  destruct (c x) eqn:E; [|done]. apply IH. by apply Hb.
Qed.

Section buffer.
Context (buf : list Z) (Hbuf : Forall byte buf).

Lemma taken_byte x : taken buf x → length x.2 ≠ 0%nat → taken buf (ut_crc32_slice8_byte x).
Proof.
  destruct x as [crc [|b rest]]; [done|]. intros (l & Hl & Hc) _. cbn in Hl, Hc.
  assert (byte b) by (rewrite Hl in Hbuf; apply Forall_app in Hbuf as [_ Hr]; by inversion Hr).
  rewrite slice8_byte_ok by done. exists (l ++ [b]). cbn. rewrite fold_left_app, <- app_assoc, <- Hc. done.
Qed.

Lemma taken_quadword x :
  taken buf x → (8 ≤ length x.2)%nat →
  taken buf (ut_crc32_slice8_quadword x) ∧ length (ut_crc32_slice8_quadword x).2 = (length x.2 - 8)%nat.
Proof.
  destruct x as [crc rest]. intros (l & Hl & Hc) Hn. cbn in Hl, Hc, Hn. split; [|apply length_drop].
  rewrite <- (take_drop 8 rest). rewrite slice8_quadword_ok.
  - exists (l ++ take 8 rest). cbn. rewrite fold_left_app, <- app_assoc, take_drop, <- Hc. done.
  - rewrite length_take. lia.
  - apply Forall_take. rewrite Hl in Hbuf. by apply Forall_app in Hbuf as [_ ?].
Qed.

(** Enough rounds: the bytes are all taken. *)
Lemma while_bytes fuel x :
  (length x.2 ≤ fuel)%nat → (while fuel (λ x : Z * list Z, negb (Nat.eqb (length x.2) 0)) ut_crc32_slice8_byte x).2 = [].
Proof.
  revert x. induction fuel as [|fuel IH]; intros [crc [|b rest]] Hn; cbn in Hn; try done; try lia. cbn. apply IH. cbn. lia.
Qed.
End buffer.

(** C27: The table-driven CRC is the CRC.  For every string of bytes, and wherever
    in memory it starts, the routine that takes bytes up to the first aligned
    address, then four quadwords at a time, then single quadwords and then the
    remaining bytes computes the CRC-32C defined bit by bit. *)
Theorem slice8_is_crc32c addr buf : Forall byte buf → ut_crc32_slice8 addr buf = crc32c buf.
Proof.
  intros Hbuf. unfold ut_crc32_slice8, crc32c.
  set (x1 := while _ _ _ (0xFFFFFFFF, buf)). set (x2 := while _ _ _ x1). set (x3 := while _ _ _ x2).
  assert (H1 : taken buf x1).
  { apply while_ind; [by exists []|]. intros x Hx [Hc _]%andb_prop. apply taken_byte; [done|done|].
    by apply negb_true_iff, Nat.eqb_neq in Hc. }
  assert (H2 : taken buf x2).
  { apply while_ind; [done|]. intros x Hx Hc%Nat.leb_le.
    destruct (taken_quadword _ Hbuf x Hx) as [Ha La]; [lia|].
    destruct (taken_quadword _ Hbuf _ Ha) as [Hb Lb]; [lia|].
    destruct (taken_quadword _ Hbuf _ Hb) as [Hc' Lc]; [lia|]. apply (taken_quadword _ Hbuf _ Hc'). lia. }
  assert (H3 : taken buf x3).
  { apply while_ind; [done|]. intros x Hx Hc%Nat.leb_le. by apply taken_quadword. }
  pose proof (while_bytes (length buf) x3) as Hend.
  match type of Hend with context [while ?f ?c ?b x3] => set (x4 := while f c b x3) in * end.
  assert (H4 : taken buf x4).
  { apply while_ind; [done|]. intros x Hx Hc. apply taken_byte; [done|done|]. by apply negb_true_iff, Nat.eqb_neq in Hc. }
  destruct H4 as (l & Hl & Hc). rewrite Hend, app_nil_r in Hl; [by rewrite Hc, <- Hl|].
  destruct H3 as (l3 & Hl3 & _). rewrite Hl3, length_app. lia.
Qed.

(** The check value of CRC-32C: the code of the digits 1 to 9. *)
Lemma slice8_is_crc32c_witness :
  ut_crc32_slice8 5 [49; 50; 51; 52; 53; 54; 55; 56; 57] = 0xE3069283 ∧
  ut_crc32_slice8 5 [49; 50; 51; 52; 53; 54; 55; 56; 57] = crc32c [49; 50; 51; 52; 53; 54; 55; 56; 57].
Proof. split; [vm_compute; reflexivity|]. apply slice8_is_crc32c. repeat constructor; discriminate. Defined.
