(* ===== verification/Fil.v ===== *)
(** The host side of the RW command: the tablespace files of InnoDB
    (fil0fil.cc), the system call (os0file.cc) and the block addresses
    (rw0rw.cc), as one thread runs them.  Mutexes are not modelled; sleeping and
    waking other threads has no effect.

    Pointers to file nodes are keys of [fil_nodes], pointers to spaces are their
    identifiers.  An [ulint] has 64 bits.  The operating system is a parameter
    ([HostOs]): opening, sizing, flushing and closing of files, the FIBMAP and
    NVME_IOCTL_IO_CMD requests, and the identifier and flags in the first page
    of a file. *)
From Stdlib Require Import Strings.String.
From S2P Require Import Prelude HostLld.

(** ** Constants *)

Definition START_SECTOR := 2048.
Definition OS_FILE_READ := 10.
Definition OS_FILE_WRITE := 11.
Definition OS_AIO_SYNC := 24.
Definition OS_AIO_SIMULATED_WAKE_LATER := 512.
Definition BUF_READ_IGNORE_NONEXISTENT_PAGES := 1024.
Definition OS_FILE_LOG_BLOCK_SIZE := 512.
Definition FIL_TABLESPACE := 501.
Definition FIL_LOG := 502.
Definition FIL_IBD_FILE_INITIAL_SIZE := 4.
Definition SRV_LOG_SPACE_FIRST_ID := 0xFFFFFFF0.
Definition ULINT_UNDEFINED := 0xFFFFFFFFFFFFFFFF.
Definition UNIV_ZIP_SIZE_MIN := 1024.
Definition UNIV_PAGE_SIZE_ORIG := 16384.
Abbreviation u64 := (wrap 64).

(** The results of an I/O that the callers distinguish. *)
Inductive dberr_t := DB_SUCCESS | DB_ERROR | DB_TABLESPACE_DELETED.

(** The server variables. *)
Class HostConfig := {
  srv_page_size_shift : Z;
  srv_undo_tablespaces_open : Z;
  srv_no_fsync : bool;             (** srv_unix_file_flush_method == SRV_UNIX_O_DIRECT_NO_FSYNC *)
  srv_fast_shutdown : Z;
}.
Class HostConfigOk `{HostConfig} : Prop := page_size_shift_bound : 12 ≤ srv_page_size_shift ≤ 14.
Definition UNIV_PAGE_SIZE `{HostConfig} : Z := Z.shiftl 1 srv_page_size_shift.

(** ** Data *)

Record nvme_passthru_cmd := Mknvme_passthru_cmd {
  opcode : Z;  (** 8 bits *)
  flags : Z;  (** 8 bits *)
  rsvd1 : Z;  (** 16 bits *)
  nsid : Z;
  cdw2 : Z;
  cdw3 : Z;
  metadata : Z;  (** 64 bits *)
  cmd_addr : Z;  (** 64 bits *)
  metadata_len : Z;
  data_len : Z;
  cdw10 : Z;
  cdw11 : Z;
  cdw12 : Z;
  cdw13 : Z;
  cdw14 : Z;
  cdw15 : Z;
  timeout_ms : Z;
  result_ : Z;
}.

Record fil_node_t := Mkfil_node_t {
  node_space : Z;
  node_name : string;
  node_open : bool;
  node_handle : Z;
  node_is_raw_disk : bool;
  node_size : Z;  (** 64 bits *)
  node_n_pending : Z;  (** 64 bits *)
  node_n_pending_flushes : Z;  (** 64 bits *)
  node_being_extended : bool;
  node_modification_counter : Z;  (** 64 bits *)
  node_flush_counter : Z;  (** 64 bits *)
}.
#[global] Instance set_node_space : Field node_space := λ v r,
  Mkfil_node_t v (node_name r) (node_open r) (node_handle r) (node_is_raw_disk r) (node_size r) (node_n_pending r) (node_n_pending_flushes r) (node_being_extended r) (node_modification_counter r) (node_flush_counter r).
#[global] Instance set_node_name : Field node_name := λ v r,
  Mkfil_node_t (node_space r) v (node_open r) (node_handle r) (node_is_raw_disk r) (node_size r) (node_n_pending r) (node_n_pending_flushes r) (node_being_extended r) (node_modification_counter r) (node_flush_counter r).
#[global] Instance set_node_open : Field node_open := λ v r,
  Mkfil_node_t (node_space r) (node_name r) v (node_handle r) (node_is_raw_disk r) (node_size r) (node_n_pending r) (node_n_pending_flushes r) (node_being_extended r) (node_modification_counter r) (node_flush_counter r).
#[global] Instance set_node_handle : Field node_handle := λ v r,
  Mkfil_node_t (node_space r) (node_name r) (node_open r) v (node_is_raw_disk r) (node_size r) (node_n_pending r) (node_n_pending_flushes r) (node_being_extended r) (node_modification_counter r) (node_flush_counter r).
#[global] Instance set_node_is_raw_disk : Field node_is_raw_disk := λ v r,
  Mkfil_node_t (node_space r) (node_name r) (node_open r) (node_handle r) v (node_size r) (node_n_pending r) (node_n_pending_flushes r) (node_being_extended r) (node_modification_counter r) (node_flush_counter r).
#[global] Instance set_node_size : Field node_size := λ v r,
  Mkfil_node_t (node_space r) (node_name r) (node_open r) (node_handle r) (node_is_raw_disk r) (wrap 64 v) (node_n_pending r) (node_n_pending_flushes r) (node_being_extended r) (node_modification_counter r) (node_flush_counter r).
#[global] Instance set_node_n_pending : Field node_n_pending := λ v r,
  Mkfil_node_t (node_space r) (node_name r) (node_open r) (node_handle r) (node_is_raw_disk r) (node_size r) (wrap 64 v) (node_n_pending_flushes r) (node_being_extended r) (node_modification_counter r) (node_flush_counter r).
#[global] Instance set_node_n_pending_flushes : Field node_n_pending_flushes := λ v r,
  Mkfil_node_t (node_space r) (node_name r) (node_open r) (node_handle r) (node_is_raw_disk r) (node_size r) (node_n_pending r) (wrap 64 v) (node_being_extended r) (node_modification_counter r) (node_flush_counter r).
#[global] Instance set_node_being_extended : Field node_being_extended := λ v r,
  Mkfil_node_t (node_space r) (node_name r) (node_open r) (node_handle r) (node_is_raw_disk r) (node_size r) (node_n_pending r) (node_n_pending_flushes r) v (node_modification_counter r) (node_flush_counter r).
#[global] Instance set_node_modification_counter : Field node_modification_counter := λ v r,
  Mkfil_node_t (node_space r) (node_name r) (node_open r) (node_handle r) (node_is_raw_disk r) (node_size r) (node_n_pending r) (node_n_pending_flushes r) (node_being_extended r) (wrap 64 v) (node_flush_counter r).
#[global] Instance set_node_flush_counter : Field node_flush_counter := λ v r,
  Mkfil_node_t (node_space r) (node_name r) (node_open r) (node_handle r) (node_is_raw_disk r) (node_size r) (node_n_pending r) (node_n_pending_flushes r) (node_being_extended r) (node_modification_counter r) (wrap 64 v).

Record fil_space_t := Mkfil_space_t {
  space_id : Z;
  stop_ios : bool;
  stop_new_ops : bool;
  purpose : Z;
  chain : list Z;
  space_size : Z;  (** 64 bits *)
  space_flags : Z;
  space_n_pending_flushes : Z;  (** 64 bits *)
  is_in_unflushed_spaces : bool;
}.
#[global] Instance set_space_id : Field space_id := λ v r,
  Mkfil_space_t v (stop_ios r) (stop_new_ops r) (purpose r) (chain r) (space_size r) (space_flags r) (space_n_pending_flushes r) (is_in_unflushed_spaces r).
#[global] Instance set_stop_ios : Field stop_ios := λ v r,
  Mkfil_space_t (space_id r) v (stop_new_ops r) (purpose r) (chain r) (space_size r) (space_flags r) (space_n_pending_flushes r) (is_in_unflushed_spaces r).
#[global] Instance set_stop_new_ops : Field stop_new_ops := λ v r,
  Mkfil_space_t (space_id r) (stop_ios r) v (purpose r) (chain r) (space_size r) (space_flags r) (space_n_pending_flushes r) (is_in_unflushed_spaces r).
#[global] Instance set_purpose : Field purpose := λ v r,
  Mkfil_space_t (space_id r) (stop_ios r) (stop_new_ops r) v (chain r) (space_size r) (space_flags r) (space_n_pending_flushes r) (is_in_unflushed_spaces r).
#[global] Instance set_chain : Field chain := λ v r,
  Mkfil_space_t (space_id r) (stop_ios r) (stop_new_ops r) (purpose r) v (space_size r) (space_flags r) (space_n_pending_flushes r) (is_in_unflushed_spaces r).
#[global] Instance set_space_size : Field space_size := λ v r,
  Mkfil_space_t (space_id r) (stop_ios r) (stop_new_ops r) (purpose r) (chain r) (wrap 64 v) (space_flags r) (space_n_pending_flushes r) (is_in_unflushed_spaces r).
#[global] Instance set_space_flags : Field space_flags := λ v r,
  Mkfil_space_t (space_id r) (stop_ios r) (stop_new_ops r) (purpose r) (chain r) (space_size r) v (space_n_pending_flushes r) (is_in_unflushed_spaces r).
#[global] Instance set_space_n_pending_flushes : Field space_n_pending_flushes := λ v r,
  Mkfil_space_t (space_id r) (stop_ios r) (stop_new_ops r) (purpose r) (chain r) (space_size r) (space_flags r) (wrap 64 v) (is_in_unflushed_spaces r).
#[global] Instance set_is_in_unflushed_spaces : Field is_in_unflushed_spaces := λ v r,
  Mkfil_space_t (space_id r) (stop_ios r) (stop_new_ops r) (purpose r) (chain r) (space_size r) (space_flags r) (space_n_pending_flushes r) v.

Record fil_system_t := Mkfil_system_t {
  fil_spaces : gmap Z fil_space_t;
  fil_nodes : gmap Z fil_node_t;
  fil_LRU : list Z;
  fil_unflushed_spaces : list Z;
  fil_n_open : Z;  (** 64 bits *)
  fil_max_n_open : Z;  (** 64 bits *)
  fil_modification_counter : Z;  (** 64 bits *)
}.
#[global] Instance set_fil_spaces : Field fil_spaces := λ v r,
  Mkfil_system_t v (fil_nodes r) (fil_LRU r) (fil_unflushed_spaces r) (fil_n_open r) (fil_max_n_open r) (fil_modification_counter r).
#[global] Instance set_fil_nodes : Field fil_nodes := λ v r,
  Mkfil_system_t (fil_spaces r) v (fil_LRU r) (fil_unflushed_spaces r) (fil_n_open r) (fil_max_n_open r) (fil_modification_counter r).
#[global] Instance set_fil_LRU : Field fil_LRU := λ v r,
  Mkfil_system_t (fil_spaces r) (fil_nodes r) v (fil_unflushed_spaces r) (fil_n_open r) (fil_max_n_open r) (fil_modification_counter r).
#[global] Instance set_fil_unflushed_spaces : Field fil_unflushed_spaces := λ v r,
  Mkfil_system_t (fil_spaces r) (fil_nodes r) (fil_LRU r) v (fil_n_open r) (fil_max_n_open r) (fil_modification_counter r).
#[global] Instance set_fil_n_open : Field fil_n_open := λ v r,
  Mkfil_system_t (fil_spaces r) (fil_nodes r) (fil_LRU r) (fil_unflushed_spaces r) (wrap 64 v) (fil_max_n_open r) (fil_modification_counter r).
#[global] Instance set_fil_max_n_open : Field fil_max_n_open := λ v r,
  Mkfil_system_t (fil_spaces r) (fil_nodes r) (fil_LRU r) (fil_unflushed_spaces r) (fil_n_open r) (wrap 64 v) (fil_modification_counter r).
#[global] Instance set_fil_modification_counter : Field fil_modification_counter := λ v r,
  Mkfil_system_t (fil_spaces r) (fil_nodes r) (fil_LRU r) (fil_unflushed_spaces r) (fil_n_open r) (fil_max_n_open r) (wrap 64 v).

Record OsCounters := MkOsCounters {
  os_n_file_reads : Z;  (** 64 bits *)
  os_n_file_writes : Z;  (** 64 bits *)
  os_n_pending_reads : Z;  (** 64 bits *)
  os_file_n_pending_preads : Z;  (** 64 bits *)
  os_n_pending_writes : Z;  (** 64 bits *)
  os_file_n_pending_pwrites : Z;  (** 64 bits *)
  fil_n_file_opened : Z;  (** 64 bits *)
  fil_n_pending_tablespace_flushes : Z;  (** 64 bits *)
  fil_n_pending_log_flushes : Z;  (** 64 bits *)
  fil_n_log_flushes : Z;  (** 64 bits *)
  data_read : Z;  (** 64 bits *)
  data_written : Z;  (** 64 bits *)
}.
#[global] Instance set_os_n_file_reads : Field os_n_file_reads := λ v r,
  MkOsCounters (wrap 64 v) (os_n_file_writes r) (os_n_pending_reads r) (os_file_n_pending_preads r) (os_n_pending_writes r) (os_file_n_pending_pwrites r) (fil_n_file_opened r) (fil_n_pending_tablespace_flushes r) (fil_n_pending_log_flushes r) (fil_n_log_flushes r) (data_read r) (data_written r).
#[global] Instance set_os_n_file_writes : Field os_n_file_writes := λ v r,
  MkOsCounters (os_n_file_reads r) (wrap 64 v) (os_n_pending_reads r) (os_file_n_pending_preads r) (os_n_pending_writes r) (os_file_n_pending_pwrites r) (fil_n_file_opened r) (fil_n_pending_tablespace_flushes r) (fil_n_pending_log_flushes r) (fil_n_log_flushes r) (data_read r) (data_written r).
#[global] Instance set_os_n_pending_reads : Field os_n_pending_reads := λ v r,
  MkOsCounters (os_n_file_reads r) (os_n_file_writes r) (wrap 64 v) (os_file_n_pending_preads r) (os_n_pending_writes r) (os_file_n_pending_pwrites r) (fil_n_file_opened r) (fil_n_pending_tablespace_flushes r) (fil_n_pending_log_flushes r) (fil_n_log_flushes r) (data_read r) (data_written r).
#[global] Instance set_os_file_n_pending_preads : Field os_file_n_pending_preads := λ v r,
  MkOsCounters (os_n_file_reads r) (os_n_file_writes r) (os_n_pending_reads r) (wrap 64 v) (os_n_pending_writes r) (os_file_n_pending_pwrites r) (fil_n_file_opened r) (fil_n_pending_tablespace_flushes r) (fil_n_pending_log_flushes r) (fil_n_log_flushes r) (data_read r) (data_written r).
#[global] Instance set_os_n_pending_writes : Field os_n_pending_writes := λ v r,
  MkOsCounters (os_n_file_reads r) (os_n_file_writes r) (os_n_pending_reads r) (os_file_n_pending_preads r) (wrap 64 v) (os_file_n_pending_pwrites r) (fil_n_file_opened r) (fil_n_pending_tablespace_flushes r) (fil_n_pending_log_flushes r) (fil_n_log_flushes r) (data_read r) (data_written r).
#[global] Instance set_os_file_n_pending_pwrites : Field os_file_n_pending_pwrites := λ v r,
  MkOsCounters (os_n_file_reads r) (os_n_file_writes r) (os_n_pending_reads r) (os_file_n_pending_preads r) (os_n_pending_writes r) (wrap 64 v) (fil_n_file_opened r) (fil_n_pending_tablespace_flushes r) (fil_n_pending_log_flushes r) (fil_n_log_flushes r) (data_read r) (data_written r).
#[global] Instance set_fil_n_file_opened : Field fil_n_file_opened := λ v r,
  MkOsCounters (os_n_file_reads r) (os_n_file_writes r) (os_n_pending_reads r) (os_file_n_pending_preads r) (os_n_pending_writes r) (os_file_n_pending_pwrites r) (wrap 64 v) (fil_n_pending_tablespace_flushes r) (fil_n_pending_log_flushes r) (fil_n_log_flushes r) (data_read r) (data_written r).
#[global] Instance set_fil_n_pending_tablespace_flushes : Field fil_n_pending_tablespace_flushes := λ v r,
  MkOsCounters (os_n_file_reads r) (os_n_file_writes r) (os_n_pending_reads r) (os_file_n_pending_preads r) (os_n_pending_writes r) (os_file_n_pending_pwrites r) (fil_n_file_opened r) (wrap 64 v) (fil_n_pending_log_flushes r) (fil_n_log_flushes r) (data_read r) (data_written r).
#[global] Instance set_fil_n_pending_log_flushes : Field fil_n_pending_log_flushes := λ v r,
  MkOsCounters (os_n_file_reads r) (os_n_file_writes r) (os_n_pending_reads r) (os_file_n_pending_preads r) (os_n_pending_writes r) (os_file_n_pending_pwrites r) (fil_n_file_opened r) (fil_n_pending_tablespace_flushes r) (wrap 64 v) (fil_n_log_flushes r) (data_read r) (data_written r).
#[global] Instance set_fil_n_log_flushes : Field fil_n_log_flushes := λ v r,
  MkOsCounters (os_n_file_reads r) (os_n_file_writes r) (os_n_pending_reads r) (os_file_n_pending_preads r) (os_n_pending_writes r) (os_file_n_pending_pwrites r) (fil_n_file_opened r) (fil_n_pending_tablespace_flushes r) (fil_n_pending_log_flushes r) (wrap 64 v) (data_read r) (data_written r).
#[global] Instance set_data_read : Field data_read := λ v r,
  MkOsCounters (os_n_file_reads r) (os_n_file_writes r) (os_n_pending_reads r) (os_file_n_pending_preads r) (os_n_pending_writes r) (os_file_n_pending_pwrites r) (fil_n_file_opened r) (fil_n_pending_tablespace_flushes r) (fil_n_pending_log_flushes r) (fil_n_log_flushes r) (wrap 64 v) (data_written r).
#[global] Instance set_data_written : Field data_written := λ v r,
  MkOsCounters (os_n_file_reads r) (os_n_file_writes r) (os_n_pending_reads r) (os_file_n_pending_preads r) (os_n_pending_writes r) (os_file_n_pending_pwrites r) (fil_n_file_opened r) (fil_n_pending_tablespace_flushes r) (fil_n_pending_log_flushes r) (fil_n_log_flushes r) (data_read r) (wrap 64 v).

Record FilSt (W : Type) := MkFilSt {
  fs_system : fil_system_t;
  fs_counters : OsCounters;
  fs_log_fd : Z;
  fs_os : W;
}.
Arguments MkFilSt {W} _ _ _ _.
Arguments fs_system {W} _.
Arguments fs_counters {W} _.
Arguments fs_log_fd {W} _.
Arguments fs_os {W} _.
#[global] Instance set_fs_system {W : Type} : Field (R:=FilSt W) (T:=fil_system_t) fs_system := λ v r,
  MkFilSt v (fs_counters r) (fs_log_fd r) (fs_os r).
#[global] Instance set_fs_counters {W : Type} : Field (R:=FilSt W) (T:=OsCounters) fs_counters := λ v r,
  MkFilSt (fs_system r) v (fs_log_fd r) (fs_os r).
#[global] Instance set_fs_log_fd {W : Type} : Field (R:=FilSt W) (T:=Z) fs_log_fd := λ v r,
  MkFilSt (fs_system r) (fs_counters r) v (fs_os r).
#[global] Instance set_fs_os {W : Type} : Field (R:=FilSt W) (T:=W) fs_os := λ v r,
  MkFilSt (fs_system r) (fs_counters r) (fs_log_fd r) v.


Class HostOs (W : Type) := {
  os_open_simple : string → W → option Z * W;          (** os_file_create_simple_no_error_handling *)
  os_open : string → bool → Z → W → option Z * W;      (** os_file_create: name, raw disk, purpose *)
  os_size : Z → W → Z;                                 (** os_file_get_size *)
  os_first_page : Z → W → Z * Z;                       (** space id and flags of page 0 *)
  os_close : Z → W → bool * W;                         (** os_file_close *)
  os_flush : Z → W → W;                                (** os_file_flush *)
  os_blksize : Z → W → Z;                              (** fstat: st_blksize *)
  os_fibmap : Z → Z → W → option Z;                    (** ioctl FIBMAP; None: negative result *)
  os_ioctl : nvme_passthru_cmd → W → Z * W;            (** ioctl NVME_IOCTL_IO_CMD on the device *)
}.

Section fil.
Context `{HostConfig} {W : Type} `{HostOs W}.

(** A call of the operating system that changes it, and one that only looks. *)
Definition osM {A} (f : W → A * W) : M (FilSt W) A :=
  zoom fs_os (λ w, let (a, w') := f w in Ok a w').
Definition os_look {A} (f : W → A) : M (FilSt W) A := w <- !(glob fs_os) ;; ret (f w).

Definition sub_fil {T} (l : lval fil_system_t T) : lval (FilSt W) T :=
  LV (λ s, peek l (fs_system s)) (λ v s, fset fs_system (poke l v (fs_system s)) s).
Definition sub_cnt (get : OsCounters → Z) `{!Field get} : lval (FilSt W) Z :=
  LV (λ s, Some (get (fs_counters s))) (λ v s, fset fs_counters (fset get v (fs_counters s)) s).
Definition spaces : lval (FilSt W) (gmap Z fil_space_t) := sub_fil (glob fil_spaces).
Definition nodes : lval (FilSt W) (gmap Z fil_node_t) := sub_fil (glob fil_nodes).
Definition LRU : lval (FilSt W) (list Z) := sub_fil (glob fil_LRU).
Definition unflushed_spaces : lval (FilSt W) (list Z) := sub_fil (glob fil_unflushed_spaces).
Definition n_open : lval (FilSt W) Z := sub_fil (glob fil_n_open).
Definition max_n_open : lval (FilSt W) Z := sub_fil (glob fil_max_n_open).
Definition modification_counter : lval (FilSt W) Z := sub_fil (glob fil_modification_counter).
Definition log_fd : lval (FilSt W) Z := glob fs_log_fd.

(** UT_LIST_REMOVE of an element that is in the list. *)
Definition list_remove_key (x : Z) (l : list Z) : list Z := filter (λ y, y ≠ x) l.

(** ** Block addresses (rw0rw.cc) *)

Definition buf_get_lba (file offset : Z) : M (FilSt W) Z :=
  block <- os_look (os_blksize file) ;;
  ret_ <- os_look (os_fibmap file (offset / block)) ;;
  match ret_ with
  | None => fail Assert
  | Some ret_ => ret (u64 (u64 (ret_ * 8) + START_SECTOR) / 8)
  end.

(** ** The system call (os0file.cc) *)

Definition rw_command (buf_w n_w nlb_w nlb_r write_lba read_lba : Z) : nvme_passthru_cmd :=
  {| opcode := 0x66; flags := 0; rsvd1 := 0; nsid := 0; cdw2 := 0; cdw3 := 0; metadata := 0;
     cmd_addr := u64 buf_w; metadata_len := 0; data_len := wrap 32 n_w;
     cdw10 := wrap 32 write_lba; cdw11 := 0; cdw12 := wrap 32 nlb_w; cdw13 := wrap 32 nlb_r;
     cdw14 := wrap 32 read_lba; cdw15 := 0; timeout_ms := 0; result_ := 0 |}.

Definition os_rw_io_func (type mode node_w buf_w offset_w n_w node_r buf_r offset_r n_r : Z)
    : M (FilSt W) bool :=
  ASSERT (type =? OS_FILE_WRITE) ;;
  incr (sub_cnt os_n_file_reads) ;;
  incr (sub_cnt os_n_file_writes) ;;
  incr (sub_cnt os_n_pending_reads) ;;
  incr (sub_cnt os_file_n_pending_preads) ;;
  incr (sub_cnt os_n_pending_writes) ;;
  incr (sub_cnt os_file_n_pending_pwrites) ;;
  (if n_w =? UNIV_PAGE_SIZE then
     let nlb_w := wrap 32 (wrap 32 n_w / 4096 - 1) in
     let nlb_r := wrap 32 (wrap 32 n_r / 4096 - 1) in
     write_lba <- buf_get_lba node_w offset_w ;;
     read_lba <- buf_get_lba node_r offset_r ;;
     ioctl_ret <- osM (os_ioctl (rw_command buf_w n_w nlb_w nlb_r write_lba read_lba)) ;;
     if ioctl_ret =? -1 then fail Assert else skip
   else fail Assert) ;;
  decr (sub_cnt os_n_pending_reads) ;;
  decr (sub_cnt os_file_n_pending_preads) ;;
  decr (sub_cnt os_n_pending_writes) ;;
  decr (sub_cnt os_file_n_pending_pwrites) ;;
  ret true.

(** ** Tablespace files (fil0fil.cc) *)

Definition fil_is_user_tablespace_id (i : Z) : bool := i >? srv_undo_tablespaces_open.
Definition fil_buffering_disabled (s : fil_space_t) : bool := (purpose s =? FIL_TABLESPACE) && srv_no_fsync.
Definition fil_space_belongs_in_lru (s : fil_space_t) : bool :=
  (purpose s =? FIL_TABLESPACE) && fil_is_user_tablespace_id (space_id s).

(** [None]: NULL. *)
Definition fil_space_get_by_id (id : Z) : M (FilSt W) (option fil_space_t) :=
  m <- !spaces ;; ret (m !! id).

(** Four bits from bit 1 and from bit 6 of the tablespace flags. *)
Definition FSP_FLAGS_GET_ZIP_SSIZE (flags : Z) : Z := get_bits 1 4 flags.
Definition FSP_FLAGS_GET_PAGE_SSIZE (flags : Z) : Z := get_bits 6 4 flags.
Definition fsp_flags_is_compressed (flags : Z) : bool := negb (FSP_FLAGS_GET_ZIP_SSIZE flags =? 0).
Definition fsp_flags_get_zip_size (flags : Z) : Z :=
  let ssize := FSP_FLAGS_GET_ZIP_SSIZE flags in
  if negb (ssize =? 0) then u64 (Z.shiftl (Z.shiftr UNIV_ZIP_SIZE_MIN 1) ssize) else 0.
Definition fsp_flags_get_page_size (flags : Z) : Z :=
  let ssize := FSP_FLAGS_GET_PAGE_SSIZE flags in
  if negb (ssize =? 0) then u64 (Z.shiftl (Z.shiftr UNIV_ZIP_SIZE_MIN 1) ssize) else UNIV_PAGE_SIZE_ORIG.

(** The part of fil_node_open_file for a file whose size is not known yet. *)
Definition learn_size (node space : Z) : M (FilSt W) bool :=
  nd <- !(nodes.[node]) ;;
  sp <- !(spaces.[space]) ;;
  h <- osM (os_open_simple (node_name nd)) ;;
  match h with
  | None => ret false
  | Some h =>
      nodes.[node]∙node_handle ::= h ;;
      size_bytes <- os_look (os_size h) ;;
      ASSERT (negb (size_bytes =? ULINT_UNDEFINED)) ;;
      ASSERT (negb (purpose sp =? FIL_LOG)) ;;
      ASSERT (fil_is_user_tablespace_id (space_id sp)) ;;
      ASSERT (negb (size_bytes <? FIL_IBD_FILE_INITIAL_SIZE * UNIV_PAGE_SIZE)) ;;
      '(page_space_id, flags) <- os_look (os_first_page h) ;;
      osM (os_close h) ;;
      ASSERT (page_space_id =? space_id sp) ;;
      ASSERT (negb ((page_space_id =? ULINT_UNDEFINED) || (page_space_id =? 0))) ;;
      ASSERT (fsp_flags_get_page_size (space_flags sp) =? fsp_flags_get_page_size flags) ;;
      ASSERT (space_flags sp =? flags) ;;
      let size_bytes := if size_bytes >=? 1024 * 1024 then Z.land size_bytes (Z.lnot (1024 * 1024 - 1))
                        else size_bytes in
      let size := if negb (fsp_flags_is_compressed flags) then size_bytes / UNIV_PAGE_SIZE
                  else size_bytes / fsp_flags_get_zip_size flags in
      nodes.[node]∙node_size ::= size ;;
      modify (spaces.[space]∙space_size) (λ n, n + size) ;;
      ret true
  end.

Definition fil_node_open_file (node space : Z) : M (FilSt W) bool :=
  nd <- !(nodes.[node]) ;;
  ASSERT (node_n_pending nd =? 0) ;;
  ASSERT (negb (node_open nd)) ;;
  ok <- (if node_size nd =? 0 then learn_size node space else ret true) ;;
  if negb ok then ret false else
  sp <- !(spaces.[space]) ;;
  h <- osM (os_open (node_name nd) (node_is_raw_disk nd) (purpose sp)) ;;
  match h with
  | None => fail Assert
  | Some h =>
      nodes.[node]∙node_handle ::= h ;;
      nodes.[node]∙node_open ::= true ;;
      incr n_open ;;
      incr (sub_cnt fil_n_file_opened) ;;
      when (fil_space_belongs_in_lru sp) (modify LRU (cons node)) ;;
      when (String.eqb (node_name nd) "./tpcc10_4k/warehouse.ibd") (log_fd ::= space_id sp) ;;
      ret true
  end.

Definition fil_node_close_file (node : Z) : M (FilSt W) unit :=
  nd <- !(nodes.[node]) ;;
  ASSERT (node_open nd) ;;
  ASSERT (node_n_pending nd =? 0) ;;
  ASSERT (node_n_pending_flushes nd =? 0) ;;
  ASSERT (negb (node_being_extended nd)) ;;
  ASSERT ((node_modification_counter nd =? node_flush_counter nd) || (srv_fast_shutdown =? 2)) ;;
  ok <- osM (os_close (node_handle nd)) ;;
  ASSERT ok ;;
  nodes.[node]∙node_open ::= false ;;
  n <- !n_open ;;
  ASSERT (n >? 0) ;;
  decr n_open ;;
  decr (sub_cnt fil_n_file_opened) ;;
  sp <- !(spaces.[node_space nd]) ;;
  when (fil_space_belongs_in_lru sp)
    (l <- !LRU ;; ASSERT (negb (Nat.eqb (length l) 0)) ;; LRU ::= list_remove_key node l).

(** The search from the end of the LRU list. *)
Fixpoint close_first (l : list Z) : M (FilSt W) bool :=
  match l with
  | [] => ret false
  | node :: l =>
      nd <- !(nodes.[node]) ;;
      if (node_modification_counter nd =? node_flush_counter nd) && (node_n_pending_flushes nd =? 0)
         && negb (node_being_extended nd)
      then fil_node_close_file node ;; ret true
      else close_first l
  end.
Definition fil_try_to_close_file_in_LRU : M (FilSt W) bool := l <- !LRU ;; close_first (rev l).

Definition fil_space_is_flushed (space : Z) : M (FilSt W) bool :=
  sp <- !(spaces.[space]) ;;
  m <- !nodes ;;
  ret (forallb (λ node, match m !! node with
                        | Some nd => negb (node_modification_counter nd >? node_flush_counter nd)
                        | None => false end) (chain sp)).

(** One file of fil_flush.  A thread that finds another flush of the file under
    way waits for it; alone it waits for ever. *)
Definition flush_node (space node : Z) : M (FilSt W) unit :=
  sp <- !(spaces.[space]) ;;
  nd <- !(nodes.[node]) ;;
  let old_mod_counter := node_modification_counter nd in
  if old_mod_counter <=? node_flush_counter nd then skip else
  ASSERT (node_open nd) ;;
  (if purpose sp =? FIL_TABLESPACE then incr (sub_cnt fil_n_pending_tablespace_flushes)
   else incr (sub_cnt fil_n_pending_log_flushes) ;; incr (sub_cnt fil_n_log_flushes)) ;;
  (if node_n_pending_flushes nd >? 0 then fail NoFuel else skip) ;;
  incr (nodes.[node]∙node_n_pending_flushes) ;;
  osM (λ w, (tt, os_flush (node_handle nd) w)) ;;
  decr (nodes.[node]∙node_n_pending_flushes) ;;
  flushed <- !(nodes.[node]∙node_flush_counter) ;;
  when (flushed <? old_mod_counter)
    (nodes.[node]∙node_flush_counter ::= old_mod_counter ;;
     listed <- !(spaces.[space]∙is_in_unflushed_spaces) ;;
     all <- fil_space_is_flushed space ;;
     when (listed && all)
       (spaces.[space]∙is_in_unflushed_spaces ::= false ;;
        modify unflushed_spaces (list_remove_key space))) ;;
  if purpose sp =? FIL_TABLESPACE then decr (sub_cnt fil_n_pending_tablespace_flushes)
  else decr (sub_cnt fil_n_pending_log_flushes).

Definition fil_flush (id : Z) : M (FilSt W) unit :=
  space <- fil_space_get_by_id id ;;
  match space with
  | None => skip
  | Some sp =>
      if stop_new_ops sp then skip
      else if fil_buffering_disabled sp then skip
      else
        incr (spaces.[id]∙space_n_pending_flushes) ;;
        for_each (flush_node id) (chain sp) ;;
        decr (spaces.[id]∙space_n_pending_flushes)
  end.

Definition fil_flush_file_spaces (p : Z) : M (FilSt W) unit :=
  l <- !unflushed_spaces ;;
  m <- !spaces ;;
  for_each fil_flush
    (List.filter (λ id, match m !! id with
                        | Some sp => (purpose sp =? p) && negb (stop_new_ops sp)
                        | None => false end) l).

(** The first file of a chain: [None] for the NULL pointer. *)
Definition first_open (sp : fil_space_t) : M (FilSt W) bool :=
  match chain sp with
  | [] => fail Bounds
  | node :: _ => !(nodes.[node]∙node_open)
  end.

(** close_more: at most as many rounds as there are files on the list. *)
Definition close_more : M (FilSt W) unit :=
  l <- !LRU ;;
  loop (S (length l)) (λ _ : unit,
    success <- fil_try_to_close_file_in_LRU ;;
    n <- !n_open ;;
    mx <- !max_n_open ;;
    ret (if success && (n >=? mx) then inl tt else inr tt)) tt.

(** [count] is the local variable; a thread that finds both spaces stopped tries
    again until another thread lets them go. *)
Definition fil_mutex_enter_and_prepare_for_rw_io (fuel : nat) (space_id_ space_id_to_read : Z)
    : M (FilSt W) unit :=
  loop fuel (λ count,
    if (space_id_ =? 0) || (space_id_ >=? SRV_LOG_SPACE_FIRST_ID)
       || (space_id_to_read =? 0) || (space_id_to_read >=? SRV_LOG_SPACE_FIRST_ID)
    then ret (inr tt) else
    space <- fil_space_get_by_id space_id_ ;;
    space_to_read <- fil_space_get_by_id space_id_to_read ;;
    let stopped o := match o with Some sp => stop_ios sp | None => false end in
    if stopped space && stopped space_to_read
    then fil_flush_file_spaces FIL_TABLESPACE ;; ret (inl count) else
    n <- !n_open ;;
    mx <- !max_n_open ;;
    if n <? mx then ret (inr tt) else
    match space, space_to_read with
    | Some space, Some space_to_read =>
        open <- first_open space ;;
        open_r <- (if open then ret true else first_open space_to_read) ;;
        if open_r then ret (inr tt) else
        close_more ;;
        n <- !n_open ;;
        if n <? mx then ret (inr tt)
        else if count >=? 2 then ret (inr tt)
        else fil_flush_file_spaces FIL_TABLESPACE ;; ret (inl (count + 1))
    | None, _ => ret (inr tt)
    | Some space, None => first_open space ;; ret (inr tt)
    end) 0.

(** ** Input and output of a page *)

Definition fil_node_prepare_for_io (node space : Z) : M (FilSt W) bool :=
  nd <- !(nodes.[node]) ;;
  ok <- (if negb (node_open nd)
         then ASSERT (node_n_pending nd =? 0) ;; fil_node_open_file node space
         else ret true) ;;
  if negb ok then ret false else
  n <- !(nodes.[node]∙node_n_pending) ;;
  sp <- !(spaces.[space]) ;;
  when ((n =? 0) && fil_space_belongs_in_lru sp)
    (l <- !LRU ;; ASSERT (negb (Nat.eqb (length l) 0)) ;; LRU ::= list_remove_key node l) ;;
  incr (nodes.[node]∙node_n_pending) ;;
  ret true.

Definition fil_node_complete_io (node type : Z) : M (FilSt W) unit :=
  n <- !(nodes.[node]∙node_n_pending) ;;
  ASSERT (n >? 0) ;;
  decr (nodes.[node]∙node_n_pending) ;;
  space <- !(nodes.[node]∙node_space) ;;
  sp <- !(spaces.[space]) ;;
  when (type =? OS_FILE_WRITE)
    (incr modification_counter ;;
     c <- !modification_counter ;;
     nodes.[node]∙node_modification_counter ::= c ;;
     if fil_buffering_disabled sp then nodes.[node]∙node_flush_counter ::= c
     else when (negb (is_in_unflushed_spaces sp))
       (spaces.[space]∙is_in_unflushed_spaces ::= true ;;
        modify unflushed_spaces (cons space))) ;;
  n <- !(nodes.[node]∙node_n_pending) ;;
  when ((n =? 0) && fil_space_belongs_in_lru sp) (modify LRU (cons node)).

(** The search of the file that holds page [offset] of the space: its node and
    the page in it, or [None] past the last file. *)
Fixpoint find_node (user : bool) (l : list Z) (offset : Z) : M (FilSt W) (option (Z * Z)) :=
  match l with
  | [] => ret None
  | node :: l =>
      nd <- !(nodes.[node]) ;;
      if user && (node_size nd =? 0) then ret (Some (node, offset))
      else if node_size nd >? offset then ret (Some (node, offset))
      else find_node user l (offset - node_size nd)
  end.

Definition zip_size_shift (zip_size : Z) : option Z :=
  if zip_size =? 1024 then Some 10
  else if zip_size =? 2048 then Some 11
  else if zip_size =? 4096 then Some 12
  else if zip_size =? 8192 then Some 13
  else if zip_size =? 16384 then Some 14
  else None.

(** What happens when the file of a space cannot be opened. *)
Definition open_failed (sp : fil_space_t) : M (FilSt W) dberr_t :=
  if (purpose sp =? FIL_TABLESPACE) && fil_is_user_tablespace_id (space_id sp)
  then ret DB_TABLESPACE_DELETED else fail Assert.

(** Past the end of a file: an error, except in the system tablespace and the log. *)
Definition in_bounds (sp : fil_space_t) (nd : fil_node_t) (offset : Z) : M (FilSt W) unit :=
  ASSERT (negb ((node_size nd <=? offset) && negb (space_id sp =? 0) && (purpose sp =? FIL_TABLESPACE))).

(** The byte offset of page [offset] in its file, and the check that [len] bytes
    from there are in the file. *)
Definition byte_offset_of (zip_size : Z) (nd : fil_node_t) (offset byte_offset len : Z) : M (FilSt W) Z :=
  if zip_size =? 0 then
    ASSERT (u64 (node_size nd - offset) >=?
            u64 (u64 (byte_offset + len) + (UNIV_PAGE_SIZE - 1)) / UNIV_PAGE_SIZE) ;;
    ret (u64 (u64 (Z.shiftl offset srv_page_size_shift) + byte_offset))
  else
    shift <- match zip_size_shift zip_size with Some s => ret s | None => fail Assert end ;;
    ASSERT (u64 (node_size nd - offset) >=? u64 (len + (zip_size - 1)) / zip_size) ;;
    ret (u64 (u64 (Z.shiftl offset shift) + byte_offset)).

(** The part of fil_io_with_rw_cmd after both files have been opened. *)
Definition rw_transfer (type mode zip_size : Z) (space_w space_r : fil_space_t)
    (node_w block_offset node_r offset_to_read byte_offset len buf : Z) : M (FilSt W) dberr_t :=
  nd_r <- !(nodes.[node_r]) ;;
  nd_w <- !(nodes.[node_w]) ;;
  in_bounds space_r nd_r offset_to_read ;;
  in_bounds space_w nd_w block_offset ;;
  offset_r <- byte_offset_of zip_size nd_r offset_to_read byte_offset len ;;
  offset_w <- byte_offset_of zip_size nd_w block_offset byte_offset len ;;
  ASSERT (byte_offset mod OS_FILE_LOG_BLOCK_SIZE =? 0) ;;
  ASSERT (len mod OS_FILE_LOG_BLOCK_SIZE =? 0) ;;
  ret_rw <- os_rw_io_func type mode (node_handle nd_w) buf offset_w len (node_handle nd_r) buf offset_r len ;;
  ASSERT ret_rw ;;
  fil_node_complete_io node_w type ;;
  fil_node_complete_io node_r type ;;
  ret DB_SUCCESS.

(** [fuel] bounds the attempts to make room for an open file; [buf] is the
    address of the page frame. *)
Definition fil_io_with_rw_cmd (fuel : nat) (type space_id_ zip_size block_offset byte_offset len buf
    space_id_to_read offset_to_read : Z) : M (FilSt W) dberr_t :=
  let wake_later := Z.land type OS_AIO_SIMULATED_WAKE_LATER in
  let type := Z.land type (Z.lnot OS_AIO_SIMULATED_WAKE_LATER) in
  let ignore_nonexistent_pages := negb (Z.land type BUF_READ_IGNORE_NONEXISTENT_PAGES =? 0) in
  let type := Z.land type (Z.lnot BUF_READ_IGNORE_NONEXISTENT_PAGES) in
  let mode := OS_AIO_SYNC in
  modify (sub_cnt data_read) (λ n, n + len) ;;
  modify (sub_cnt data_written) (λ n, n + len) ;;
  fil_mutex_enter_and_prepare_for_rw_io fuel space_id_ space_id_to_read ;;
  space_w <- !(spaces.[space_id_]) ;;
  space_r <- !(spaces.[space_id_to_read]) ;;
  found_r <- find_node (fil_is_user_tablespace_id (space_id space_r)) (chain space_r) offset_to_read ;;
  match found_r with
  | None => if ignore_nonexistent_pages then ret DB_ERROR else fail Assert
  | Some (node_r, offset_to_read) =>
  found_w <- find_node (fil_is_user_tablespace_id (space_id space_w)) (chain space_w) block_offset ;;
  match found_w with
  | None => if ignore_nonexistent_pages then ret DB_ERROR else fail Assert
  | Some (node_w, block_offset) =>
  ok_r <- fil_node_prepare_for_io node_r space_id_to_read ;;
  if negb ok_r then open_failed space_r else
  ok_w <- fil_node_prepare_for_io node_w space_id_ ;;
  if negb ok_w then open_failed space_w else
  rw_transfer type (Z.lor mode wake_later) zip_size space_w space_r node_w block_offset node_r offset_to_read
    byte_offset len buf
  end
  end.

(** ** The consistency check of the server (fil_validate): [true] when none of
    its assertions fails. *)
Definition node_valid (fs : fil_system_t) (node : Z) : bool :=
  match fil_nodes fs !! node with
  | Some nd => node_open nd || (node_n_pending nd =? 0)
  | None => false
  end.
Definition lru_valid (fs : fil_system_t) (node : Z) : bool :=
  match fil_nodes fs !! node with
  | Some nd =>
      (node_n_pending nd =? 0) && negb (node_being_extended nd) && node_open nd
      && match fil_spaces fs !! node_space nd with
         | Some sp => fil_space_belongs_in_lru sp | None => false end
  | None => false
  end.
Definition open_in (fs : fil_system_t) (node : Z) : bool :=
  match fil_nodes fs !! node with Some nd => node_open nd | None => false end.
Definition all_nodes (fs : fil_system_t) : list Z :=
  map_to_list (fil_spaces fs) ≫= (λ '(_, sp), chain sp).
Definition fil_validate (fs : fil_system_t) : bool :=
  forallb (node_valid fs) (all_nodes fs)
  && (fil_n_open fs =? u64 (Z.of_nat (length (List.filter (open_in fs) (all_nodes fs)))))
  && forallb (lru_valid fs) (fil_LRU fs).
End fil.
