(* ===== verification/PageFormat.v ===== *)
(** The format of a database page in its file: the integers in its header and
    trailer (mach0data.ic), the checksums (buf0checksum.cc, ut0rnd.ic), the
    stamping before a write (buf_flush_init_for_writing of buf0flu.cc) and the
    check after a read (buf_page_is_corrupted of buf0buf.cc).  A page is the list
    of its UNIV_PAGE_SIZE bytes; it is not compressed. *)
From S2P Require Import Prelude HostLld Crc32 Fil.

Abbreviation page_t := (list Z) (only parsing).

Definition FIL_PAGE_SPACE_OR_CHKSUM := 0.
Definition FIL_PAGE_OFFSET := 4.
Definition FIL_PAGE_LSN := 16.
Definition FIL_PAGE_FILE_FLUSH_LSN := 26.
Definition FIL_PAGE_ARCH_LOG_NO_OR_SPACE_ID := 34.
Definition FIL_PAGE_DATA := 38.
Definition FIL_PAGE_END_LSN_OLD_CHKSUM := 8.
Definition BUF_NO_CHECKSUM_MAGIC := 0xDEADBEEF.
Definition UT_HASH_RANDOM_MASK := 1463735687.
Definition UT_HASH_RANDOM_MASK2 := 1653893711.

Inductive srv_checksum_algorithm_t :=
| SRV_CHECKSUM_ALGORITHM_CRC32
| SRV_CHECKSUM_ALGORITHM_STRICT_CRC32
| SRV_CHECKSUM_ALGORITHM_INNODB
| SRV_CHECKSUM_ALGORITHM_STRICT_INNODB
| SRV_CHECKSUM_ALGORITHM_NONE
| SRV_CHECKSUM_ALGORITHM_STRICT_NONE.

(** ** Bytes of a page *)

(** The [len] bytes from [off], and the page with the bytes [l] written at [off]. *)
Definition bytes_at (page : page_t) (off len : Z) : list Z := take (Z.to_nat len) (drop (Z.to_nat off) page).
Definition put_bytes (page : page_t) (off : Z) (l : list Z) : page_t :=
  take (Z.to_nat off) page ++ l ++ drop (Z.to_nat off + length l) page.

Definition mach_read_from_4 (page : page_t) (off : Z) : Z :=
  match bytes_at page off 4 with
  | [b0; b1; b2; b3] => Z.lor (Z.lor (Z.lor (Z.shiftl b0 24) (Z.shiftl b1 16)) (Z.shiftl b2 8)) b3
  | _ => 0
  end.
Definition mach_write_to_4 (page : page_t) (off n : Z) : page_t :=
  put_bytes page off [u8 (Z.shiftr n 24); u8 (Z.shiftr n 16); u8 (Z.shiftr n 8); u8 n].
Definition mach_write_to_8 (page : page_t) (off n : Z) : page_t :=
  mach_write_to_4 (mach_write_to_4 page off (Z.shiftr n 32)) (off + 4) n.

Definition mach_read_from_8 (page : page_t) (off : Z) : Z :=
  Z.lor (Z.shiftl (mach_read_from_4 page off) 32) (mach_read_from_4 page (off + 4)).

(** ** Checksums *)

Definition ut_fold_ulint_pair (n1 n2 : Z) : Z :=
  u64 (Z.lxor (u64 (u64 (Z.shiftl (Z.lxor (Z.lxor n1 n2) UT_HASH_RANDOM_MASK2) 8) + n1)) UT_HASH_RANDOM_MASK + n2).
(** The unrolled loop and the switch after it take the bytes one by one. *)
Definition ut_fold_binary (str : list Z) : Z := fold_left ut_fold_ulint_pair str 0.

Section page.
Context `{HostConfig}.

Definition buf_calc_page_crc32 (page : page_t) : Z :=
  Z.lxor (ut_crc32_slice8 FIL_PAGE_OFFSET (bytes_at page FIL_PAGE_OFFSET (FIL_PAGE_FILE_FLUSH_LSN - FIL_PAGE_OFFSET)))
    (ut_crc32_slice8 FIL_PAGE_DATA
       (bytes_at page FIL_PAGE_DATA (UNIV_PAGE_SIZE - FIL_PAGE_DATA - FIL_PAGE_END_LSN_OLD_CHKSUM))).

Definition buf_calc_page_new_checksum (page : page_t) : Z :=
  Z.land (u64 (ut_fold_binary (bytes_at page FIL_PAGE_OFFSET (FIL_PAGE_FILE_FLUSH_LSN - FIL_PAGE_OFFSET))
    + ut_fold_binary
        (bytes_at page FIL_PAGE_DATA (UNIV_PAGE_SIZE - FIL_PAGE_DATA - FIL_PAGE_END_LSN_OLD_CHKSUM)))) 0xFFFFFFFF.

Definition buf_calc_page_old_checksum (page : page_t) : Z :=
  Z.land (ut_fold_binary (bytes_at page 0 FIL_PAGE_FILE_FLUSH_LSN)) 0xFFFFFFFF.

(** ** Before a write *)

Definition buf_flush_init_for_writing (algorithm : srv_checksum_algorithm_t) (page : page_t) (newest_lsn : Z) : page_t :=
  let trailer := UNIV_PAGE_SIZE - FIL_PAGE_END_LSN_OLD_CHKSUM in
  let page := mach_write_to_8 page FIL_PAGE_LSN newest_lsn in
  let page := mach_write_to_8 page trailer newest_lsn in
  let '(page, checksum) :=
    match algorithm with
    | SRV_CHECKSUM_ALGORITHM_CRC32 | SRV_CHECKSUM_ALGORITHM_STRICT_CRC32 =>
        let checksum := buf_calc_page_crc32 page in
        (mach_write_to_4 page FIL_PAGE_SPACE_OR_CHKSUM checksum, checksum)
    | SRV_CHECKSUM_ALGORITHM_INNODB | SRV_CHECKSUM_ALGORITHM_STRICT_INNODB =>
        let page := mach_write_to_4 page FIL_PAGE_SPACE_OR_CHKSUM (buf_calc_page_new_checksum page) in
        (page, buf_calc_page_old_checksum page)
    | SRV_CHECKSUM_ALGORITHM_NONE | SRV_CHECKSUM_ALGORITHM_STRICT_NONE =>
        (mach_write_to_4 page FIL_PAGE_SPACE_OR_CHKSUM BUF_NO_CHECKSUM_MAGIC, BUF_NO_CHECKSUM_MAGIC)
    end in
  mach_write_to_4 page trailer checksum.

(** ** After a read *)

Definition buf_page_is_checksum_valid_crc32 (read_buf : page_t) (checksum_field1 checksum_field2 : Z) : bool :=
  let crc32 := buf_calc_page_crc32 read_buf in
  (checksum_field1 =? crc32) && (checksum_field2 =? crc32).

Definition buf_page_is_checksum_valid_innodb (read_buf : page_t) (checksum_field1 checksum_field2 : Z) : bool :=
  if negb (checksum_field2 =? mach_read_from_4 read_buf FIL_PAGE_LSN)
     && negb (checksum_field2 =? buf_calc_page_old_checksum read_buf) then false
  else if negb (checksum_field1 =? 0) && negb (checksum_field1 =? buf_calc_page_new_checksum read_buf) then false
  else true.

Definition buf_page_is_checksum_valid_none (checksum_field1 checksum_field2 : Z) : bool :=
  (checksum_field1 =? checksum_field2) && (checksum_field1 =? BUF_NO_CHECKSUM_MAGIC).

(** Only messages depend on the current lsn. *)
Definition buf_page_is_corrupted (algorithm : srv_checksum_algorithm_t) (read_buf : page_t) : bool :=
  let trailer := UNIV_PAGE_SIZE - FIL_PAGE_END_LSN_OLD_CHKSUM in
  if negb (bool_decide (bytes_at read_buf (FIL_PAGE_LSN + 4) 4 = bytes_at read_buf (trailer + 4) 4)) then true else
  match algorithm with
  | SRV_CHECKSUM_ALGORITHM_NONE => false
  | _ =>
      let checksum_field1 := mach_read_from_4 read_buf FIL_PAGE_SPACE_OR_CHKSUM in
      let checksum_field2 := mach_read_from_4 read_buf trailer in
      if (checksum_field1 =? 0) && (checksum_field2 =? 0)
         && forallb (Z.eqb 0) (bytes_at read_buf FIL_PAGE_LSN 8)
      then negb (forallb (Z.eqb 0) read_buf) else
      let crc32 := buf_page_is_checksum_valid_crc32 read_buf checksum_field1 checksum_field2 in
      let innodb := buf_page_is_checksum_valid_innodb read_buf checksum_field1 checksum_field2 in
      let none := buf_page_is_checksum_valid_none checksum_field1 checksum_field2 in
      match algorithm with
      | SRV_CHECKSUM_ALGORITHM_CRC32 | SRV_CHECKSUM_ALGORITHM_STRICT_CRC32 =>
          if crc32 then false else if none then false else if innodb then false else true
      | SRV_CHECKSUM_ALGORITHM_INNODB | SRV_CHECKSUM_ALGORITHM_STRICT_INNODB =>
          if innodb then false else if none then false else if crc32 then false else true
      | SRV_CHECKSUM_ALGORITHM_NONE | SRV_CHECKSUM_ALGORITHM_STRICT_NONE =>
          if none then false else if crc32 then false else if innodb then false else true
      end
  end.
End page.
(** ** Reading what was written *)

Lemma bytes_at_put_same page off l n :
  0 ≤ off → n = Z.of_nat (length l) → off + n ≤ Z.of_nat (length page) → bytes_at (put_bytes page off l) off n = l.
Proof.
  intros Ho -> Hl. unfold bytes_at, put_bytes. rewrite Nat2Z.id.
  rewrite drop_app_length' by (rewrite length_take; lia). by rewrite take_app_length'.
Qed.

Lemma bytes_at_put_other page off l off' n :
  0 ≤ off → 0 ≤ off' → off + Z.of_nat (length l) ≤ Z.of_nat (length page) →
  off' + n ≤ off ∨ off + Z.of_nat (length l) ≤ off' → bytes_at (put_bytes page off l) off' n = bytes_at page off' n.
Proof.
  intros Ho Ho' Hl Hd. unfold bytes_at, put_bytes. apply list_eq. intros i.
  destruct (decide (i < Z.to_nat n)%nat) as [Hi|Hi]; [|rewrite !lookup_take_ge by lia; done].
  rewrite !lookup_take_lt, !lookup_drop by lia. destruct Hd as [Hd|Hd].
  - rewrite lookup_app_l by (rewrite length_take; lia). rewrite lookup_take_lt by lia. done.
  - rewrite lookup_app_r, lookup_app_r by (rewrite length_take; lia). rewrite lookup_drop. f_equal.
    rewrite length_take. lia.
Qed.

Lemma length_put_bytes page off l :
  0 ≤ off → off + Z.of_nat (length l) ≤ Z.of_nat (length page) → length (put_bytes page off l) = length page.
Proof. intros Ho Hl. unfold put_bytes. rewrite !length_app, length_take, length_drop. lia. Qed.

Lemma lor_add a b k : 0 ≤ k → 0 ≤ b < 2 ^ k → Z.lor (Z.shiftl a k) b = a * 2 ^ k + b.
Proof.
  intros Hk Hb. rewrite <- Z.shiftl_mul_pow2 by done.
  rewrite <- Z.lxor_lor, Z.add_nocarry_lxor; [done| |]; apply Z.bits_inj'; intros n Hn; rewrite Z.land_spec, Z.bits_0;
    (destruct (decide (n < k)); [by rewrite Z.shiftl_spec, (Z.testbit_neg_r _ (n - k)) by lia|]);
    rewrite <- (Z.mod_small b (2 ^ k)) by done; rewrite Z.mod_pow2_bits_high by lia; apply andb_false_r.
Qed.
Lemma read_write_4 page off n :
  0 ≤ off → off + 4 ≤ Z.of_nat (length page) → mach_read_from_4 (mach_write_to_4 page off n) off = u32 n.
Proof.
  intros Ho Hl. unfold mach_read_from_4, mach_write_to_4. rewrite bytes_at_put_same by (done || lia).
  pose proof (wrap_bound 8 n). pose proof (wrap_bound 8 (Z.shiftr n 8)). pose proof (wrap_bound 8 (Z.shiftr n 16)).
  rewrite <- Z.lor_assoc, (lor_add (u8 (Z.shiftr n 8))), <- Z.lor_assoc, (lor_add (u8 (Z.shiftr n 16))), lor_add by lia.
  unfold wrap. rewrite !Z.shiftr_div_pow2 by lia. Z.to_euclidean_division_equations. lia.
Qed.

Lemma read_4_ext page page' off : bytes_at page' off 4 = bytes_at page off 4 → mach_read_from_4 page' off = mach_read_from_4 page off.
Proof. unfold mach_read_from_4. by intros ->. Qed.

Lemma bytes_at_app page off n m : 0 ≤ off → 0 ≤ n → 0 ≤ m → bytes_at page off (n + m) = bytes_at page off n ++ bytes_at page (off + n) m.
Proof.
  intros. unfold bytes_at. rewrite !Z2Nat.inj_add by done. by rewrite <- drop_drop, take_take_drop.
Qed.

Lemma read_4_zeroes page off : forallb (Z.eqb 0) (bytes_at page off 4) = true → mach_read_from_4 page off = 0.
Proof.
  unfold mach_read_from_4. destruct (bytes_at page off 4) as [|b0 [|b1 [|b2 [|b3 [|]]]]]; try done. cbn [forallb].
  rewrite !andb_true_iff, !Z.eqb_eq. intros (<- & <- & <- & <- & _). done.
Qed.

Lemma land_u32 x : Z.land x 0xFFFFFFFF = u32 x.
Proof. change 0xFFFFFFFF with (Z.ones 32). by rewrite Z.land_ones. Qed.

Lemma lxor_bound x y n : 0 ≤ n → 0 ≤ x < 2 ^ n → 0 ≤ y < 2 ^ n → 0 ≤ Z.lxor x y < 2 ^ n.
Proof.
  intros Hn Hx Hy. split; [by apply Z.lxor_nonneg; lia|].
  destruct (decide (Z.lxor x y = 0)) as [->|Hz]; [apply Z.pow_pos_nonneg; lia|].
  assert (0 ≤ Z.lxor x y) by (apply Z.lxor_nonneg; lia). apply Z.log2_lt_pow2; [lia|].
  eapply Z.le_lt_trans; [apply Z.log2_lxor; lia|].
  destruct (decide (n = 0)) as [->|]; [change (2 ^ 0) with 1 in *; assert (x = 0 ∧ y = 0) as [-> ->] by lia; done|].
  assert (∀ z, 0 ≤ z < 2 ^ n → Z.log2 z < n) as Hlog; [|apply Z.max_lub_lt; auto].
  intros z ?. destruct (decide (z = 0)) as [->|]; [change (Z.log2 0) with 0; lia|apply Z.log2_lt_pow2; lia].
Qed.

Lemma length_write_4 page off n : 0 ≤ off → off + 4 ≤ Z.of_nat (length page) → length (mach_write_to_4 page off n) = length page.
Proof. intros. apply length_put_bytes; cbn; lia. Qed.
Lemma length_write_8 page off n : 0 ≤ off → off + 8 ≤ Z.of_nat (length page) → length (mach_write_to_8 page off n) = length page.
Proof. intros. unfold mach_write_to_8. rewrite !length_write_4; rewrite ?length_write_4; lia. Qed.

(** The bounds of accesses to a page that was written to. *)
Ltac len := repeat first [rewrite length_write_4 by len|rewrite length_write_8 by len]; unfold FIL_PAGE_LSN in *; cbn [length]; lia.

Section roundtrip.
Context `{HostConfig} {Hok : HostConfigOk}.

Lemma univ_page_size : 4096 ≤ UNIV_PAGE_SIZE ≤ 16384.
Proof.
  pose proof page_size_shift_bound. unfold UNIV_PAGE_SIZE. rewrite Z.shiftl_mul_pow2 by lia.
  pose proof (Z.pow_le_mono_r 2 12 srv_page_size_shift). pose proof (Z.pow_le_mono_r 2 srv_page_size_shift 14). lia.
Qed.

Lemma crc32_bound page : 0 ≤ buf_calc_page_crc32 page < 2 ^ 32.
Proof.
  unfold buf_calc_page_crc32, ut_crc32_slice8. cbn zeta. rewrite !land_u32. apply lxor_bound; [lia|apply wrap_bound; lia..].
Qed.

(** Bytes of the page outside the two fields that hold the checksums. *)
Definition same_body (page page' : page_t) : Prop :=
  length page' = length page ∧
  ∀ off n, 4 ≤ off → 0 ≤ n → off + n ≤ UNIV_PAGE_SIZE - 8 ∨ UNIV_PAGE_SIZE - 4 ≤ off → bytes_at page' off n = bytes_at page off n.

Lemma same_body_sums page page' :
  same_body page page' → buf_calc_page_crc32 page' = buf_calc_page_crc32 page ∧
  buf_calc_page_new_checksum page' = buf_calc_page_new_checksum page.
Proof.
  intros [_ Hb]. pose proof univ_page_size. unfold buf_calc_page_crc32, buf_calc_page_new_checksum, FIL_PAGE_OFFSET, FIL_PAGE_FILE_FLUSH_LSN, FIL_PAGE_DATA, FIL_PAGE_END_LSN_OLD_CHKSUM.
  by rewrite !Hb by lia.
Qed.

(** The page once the lsn is stamped and with checksum fields [c1] and [c2]. *)
Definition stamped (page : page_t) (lsn : Z) : page_t :=
  mach_write_to_8 (mach_write_to_8 page FIL_PAGE_LSN lsn) (UNIV_PAGE_SIZE - FIL_PAGE_END_LSN_OLD_CHKSUM) lsn.
Definition summed (page : page_t) (c1 c2 : Z) : page_t :=
  mach_write_to_4 (mach_write_to_4 page FIL_PAGE_SPACE_OR_CHKSUM c1) (UNIV_PAGE_SIZE - FIL_PAGE_END_LSN_OLD_CHKSUM) c2.

Context (page : page_t) (Hlen : Z.of_nat (length page) = UNIV_PAGE_SIZE).

Lemma summed_body c1 c2 : same_body page (summed page c1 c2).
Proof using Hlen Hok.
  pose proof univ_page_size. unfold summed, FIL_PAGE_SPACE_OR_CHKSUM, FIL_PAGE_END_LSN_OLD_CHKSUM.
  split; [by repeat rewrite length_write_4 by len|]. intros off n Ho Hn Hd.
  unfold mach_write_to_4 at 1. rewrite bytes_at_put_other by len. apply bytes_at_put_other; len.
Qed.

Lemma summed_fields c1 c2 :
  mach_read_from_4 (summed page c1 c2) FIL_PAGE_SPACE_OR_CHKSUM = u32 c1 ∧
  mach_read_from_4 (summed page c1 c2) (UNIV_PAGE_SIZE - FIL_PAGE_END_LSN_OLD_CHKSUM) = u32 c2 ∧
  buf_calc_page_old_checksum (summed page c1 c2) = buf_calc_page_old_checksum (mach_write_to_4 page FIL_PAGE_SPACE_OR_CHKSUM c1).
Proof using Hlen Hok.
  pose proof univ_page_size. unfold summed, FIL_PAGE_SPACE_OR_CHKSUM, FIL_PAGE_END_LSN_OLD_CHKSUM. split_and!.
  - rewrite (read_4_ext (mach_write_to_4 page 0 c1)); [apply read_write_4; lia|].
    apply bytes_at_put_other; len.
  - apply read_write_4; len.
  - unfold buf_calc_page_old_checksum, FIL_PAGE_FILE_FLUSH_LSN. do 2 f_equal.
    apply bytes_at_put_other; len.
Qed.

Lemma length_stamped lsn : length (stamped page lsn) = length page.
Proof using Hlen Hok.
  pose proof univ_page_size. unfold stamped, FIL_PAGE_LSN, FIL_PAGE_END_LSN_OLD_CHKSUM.
  repeat rewrite length_write_8 by len. done.
Qed.

(** What the stamps leave: the low halves of the two lsns agree. *)
Lemma stamped_lsn lsn :
  let low := [u8 (Z.shiftr lsn 24); u8 (Z.shiftr lsn 16); u8 (Z.shiftr lsn 8); u8 lsn] in
  mach_read_from_4 (stamped page lsn) FIL_PAGE_LSN = u32 (Z.shiftr lsn 32) ∧
  mach_read_from_4 (stamped page lsn) (FIL_PAGE_LSN + 4) = u32 lsn ∧
  bytes_at (stamped page lsn) (FIL_PAGE_LSN + 4) 4 = low ∧ bytes_at (stamped page lsn) (UNIV_PAGE_SIZE - 4) 4 = low.
Proof using Hlen Hok.
  pose proof univ_page_size. cbn zeta.
  assert (∀ off n, 0 ≤ off → off + n ≤ UNIV_PAGE_SIZE - 8 →
    bytes_at (stamped page lsn) off n = bytes_at (mach_write_to_8 page FIL_PAGE_LSN lsn) off n) as Hb.
  { intros off n Ho Hn. unfold stamped, FIL_PAGE_LSN, FIL_PAGE_END_LSN_OLD_CHKSUM. unfold mach_write_to_8 at 1.
    unfold mach_write_to_4 at 1. rewrite bytes_at_put_other by len. apply bytes_at_put_other; len. }
  split_and!.
  - rewrite (read_4_ext (mach_write_to_8 page FIL_PAGE_LSN lsn)) by (apply Hb; len). unfold mach_write_to_8.
    rewrite (read_4_ext (mach_write_to_4 page FIL_PAGE_LSN (Z.shiftr lsn 32))).
    + apply read_write_4; len.
    + apply bytes_at_put_other; len.
  - rewrite (read_4_ext (mach_write_to_8 page FIL_PAGE_LSN lsn)) by (apply Hb; len).
    apply read_write_4; len.
  - rewrite Hb by (unfold FIL_PAGE_LSN; lia). apply bytes_at_put_same; len.
  - unfold stamped, FIL_PAGE_LSN, FIL_PAGE_END_LSN_OLD_CHKSUM. unfold mach_write_to_8 at 1.
    replace (UNIV_PAGE_SIZE - 8 + 4) with (UNIV_PAGE_SIZE - 4) by lia.
    apply bytes_at_put_same; len.
Qed.
End roundtrip.

Lemma u32_land x : Z.land x 0xFFFFFFFF = u32 (Z.land x 0xFFFFFFFF).
Proof. rewrite land_u32. symmetry. apply wrap_wrap. Qed.

Section intact.
Context `{HostConfig} {Hok : HostConfigOk}.

(** The two checksum fields of a written page fit one of the formulas. *)
Lemma written_sums algorithm page lsn :
  Z.of_nat (length page) = UNIV_PAGE_SIZE →
  ∃ c1 c2, let q := summed (stamped page lsn) c1 c2 in
    buf_flush_init_for_writing algorithm page lsn = q ∧
    (buf_page_is_checksum_valid_crc32 q (u32 c1) (u32 c2) = true ∨
     buf_page_is_checksum_valid_innodb q (u32 c1) (u32 c2) = true ∨
     buf_page_is_checksum_valid_none (u32 c1) (u32 c2) = true).
Proof.
  intros Hl. assert (Hs : Z.of_nat (length (stamped page lsn)) = UNIV_PAGE_SIZE) by (by rewrite length_stamped).
  assert (∀ c1 c2, buf_calc_page_crc32 (summed (stamped page lsn) c1 c2) = buf_calc_page_crc32 (stamped page lsn) ∧
    buf_calc_page_new_checksum (summed (stamped page lsn) c1 c2) = buf_calc_page_new_checksum (stamped page lsn)) as Hc.
  { intros c1 c2. by apply same_body_sums, summed_body. }
  unfold buf_flush_init_for_writing. fold (stamped page lsn). cbn zeta.
  assert (Hcrc : ∀ c, c = buf_calc_page_crc32 (stamped page lsn) →
    buf_page_is_checksum_valid_crc32 (summed (stamped page lsn) c c) (u32 c) (u32 c) = true).
  { intros c ->. unfold buf_page_is_checksum_valid_crc32. rewrite (proj1 (Hc _ _)), wrap_small by apply crc32_bound.
    by rewrite Z.eqb_refl. }
  assert (Hin : ∀ c1, c1 = buf_calc_page_new_checksum (stamped page lsn) →
    let c2 := buf_calc_page_old_checksum (mach_write_to_4 (stamped page lsn) FIL_PAGE_SPACE_OR_CHKSUM c1) in
    buf_page_is_checksum_valid_innodb (summed (stamped page lsn) c1 c2) (u32 c1) (u32 c2) = true).
  { intros c1 -> c2. destruct (summed_fields _ Hs (buf_calc_page_new_checksum (stamped page lsn)) c2) as (_ & _ & Eo).
    unfold buf_page_is_checksum_valid_innodb. rewrite (proj2 (Hc _ _)), Eo. fold c2.
    assert (u32 c2 = c2) as -> by (unfold c2, buf_calc_page_old_checksum; by rewrite <- u32_land).
    assert (u32 (buf_calc_page_new_checksum (stamped page lsn)) = buf_calc_page_new_checksum (stamped page lsn)) as ->
      by (unfold buf_calc_page_new_checksum; by rewrite <- u32_land).
    by rewrite !Z.eqb_refl, !andb_false_r. }
  destruct algorithm; eexists _, _; (split; [reflexivity|]); auto.
Qed.

Lemma written_ok algorithm algorithm' page lsn :
  Z.of_nat (length page) = UNIV_PAGE_SIZE → 0 < lsn < 2 ^ 64 →
  let written := buf_flush_init_for_writing algorithm page lsn in
  buf_page_is_corrupted algorithm' written = false ∧
  mach_read_from_4 written FIL_PAGE_OFFSET = mach_read_from_4 page FIL_PAGE_OFFSET ∧
  mach_read_from_4 written FIL_PAGE_ARCH_LOG_NO_OR_SPACE_ID = mach_read_from_4 page FIL_PAGE_ARCH_LOG_NO_OR_SPACE_ID ∧
  bytes_at written FIL_PAGE_DATA (UNIV_PAGE_SIZE - FIL_PAGE_DATA - 8) = bytes_at page FIL_PAGE_DATA (UNIV_PAGE_SIZE - FIL_PAGE_DATA - 8).
Proof.
  intros Hl Hlsn. pose proof univ_page_size.
  destruct (written_sums algorithm page lsn Hl) as (c1 & c2 & E & Hv). cbn zeta in *. rewrite E.
  assert (Hs : Z.of_nat (length (stamped page lsn)) = UNIV_PAGE_SIZE) by (by rewrite length_stamped).
  destruct (summed_fields _ Hs c1 c2) as (E1 & E2 & _), (summed_body _ Hs c1 c2) as [_ Hb].
  destruct (stamped_lsn _ Hl lsn) as (Eh & Elo & B1 & B2).
  assert (Hsame : ∀ off n, 0 ≤ off → 0 ≤ n → off + n ≤ FIL_PAGE_LSN ∨ FIL_PAGE_LSN + 8 ≤ off →
    off + n ≤ UNIV_PAGE_SIZE - 8 → bytes_at (stamped page lsn) off n = bytes_at page off n).
  { intros off n Ho Hn Hd1 Hd2. unfold stamped, FIL_PAGE_END_LSN_OLD_CHKSUM. unfold mach_write_to_8.
    unfold mach_write_to_4 at 1. rewrite bytes_at_put_other by len. unfold mach_write_to_4 at 1. rewrite bytes_at_put_other by len.
    unfold mach_write_to_4 at 1. rewrite bytes_at_put_other by len. apply bytes_at_put_other; len. }
  unfold FIL_PAGE_LSN in *.
  split_and!; [|apply read_4_ext; rewrite Hb, Hsame by (unfold FIL_PAGE_OFFSET, FIL_PAGE_ARCH_LOG_NO_OR_SPACE_ID; lia); done..|
    rewrite Hb, Hsame by (unfold FIL_PAGE_DATA; lia); done].
  unfold buf_page_is_corrupted, FIL_PAGE_LSN. rewrite E1, E2. unfold FIL_PAGE_END_LSN_OLD_CHKSUM.
  replace (UNIV_PAGE_SIZE - 8 + 4) with (UNIV_PAGE_SIZE - 4) by lia. rewrite !Hb by lia. rewrite B1, B2, bool_decide_true by done. cbn [negb].
  assert (forallb (Z.eqb 0) (bytes_at (stamped page lsn) 16 8) = false) as ->.
  { apply not_true_is_false. change 8 with (4 + 4). rewrite bytes_at_app, forallb_app by lia. intros [Z1 Z2]%andb_prop.
    apply read_4_zeroes in Z1, Z2. rewrite Eh in Z1. rewrite Elo in Z2. unfold wrap in *. rewrite Z.shiftr_div_pow2 in Z1 by lia.
    Z.to_euclidean_division_equations. lia. }
  rewrite andb_false_r.
  destruct Hv as [Hv|[Hv|Hv]]; rewrite Hv; destruct algorithm'; try reflexivity; repeat case_match; done.
Qed.
Lemma written_length algorithm page lsn :
  Z.of_nat (length page) = UNIV_PAGE_SIZE →
  Z.of_nat (length (buf_flush_init_for_writing algorithm page lsn)) = UNIV_PAGE_SIZE.
Proof.
  intros Hl. destruct (written_sums algorithm page lsn Hl) as (c1 & c2 & E & _). cbn zeta in *. rewrite E.
  assert (Hs : Z.of_nat (length (stamped page lsn)) = UNIV_PAGE_SIZE) by (by rewrite length_stamped).
  destruct (summed_body _ Hs c1 c2) as [El _]. by rewrite El.
Qed.

Lemma written_lsn algorithm page lsn :
  Z.of_nat (length page) = UNIV_PAGE_SIZE → 0 ≤ lsn < 2 ^ 64 →
  mach_read_from_8 (buf_flush_init_for_writing algorithm page lsn) FIL_PAGE_LSN = lsn.
Proof.
  intros Hl Hlsn. pose proof univ_page_size. destruct (written_sums algorithm page lsn Hl) as (c1 & c2 & E & _). cbn zeta in *. rewrite E.
  assert (Hs : Z.of_nat (length (stamped page lsn)) = UNIV_PAGE_SIZE) by (by rewrite length_stamped).
  destruct (summed_body _ Hs c1 c2) as [_ Hb], (stamped_lsn _ Hl lsn) as (Eh & Elo & _).
  unfold mach_read_from_8. rewrite (read_4_ext (stamped page lsn) _ FIL_PAGE_LSN) by (apply Hb; unfold FIL_PAGE_LSN; lia).
  rewrite (read_4_ext (stamped page lsn) _ (FIL_PAGE_LSN + 4)) by (apply Hb; unfold FIL_PAGE_LSN; lia).
  rewrite Eh, Elo. pose proof (wrap_bound 32 lsn). rewrite lor_add by lia. unfold wrap. rewrite Z.shiftr_div_pow2 by lia.
  Z.to_euclidean_division_equations. lia.
Qed.

(** C26: A page that was stamped for writing passes the check after reading.
    Whatever checksum algorithm stamped it, and whatever algorithm the server is
    set to when it reads it back, the page is not taken for corrupt; its page
    number, its space identifier and its data are what they were. *)
Theorem written_page_is_intact algorithm algorithm' page lsn :
  Z.of_nat (length page) = UNIV_PAGE_SIZE → 0 < lsn < 2 ^ 64 →
  let written := buf_flush_init_for_writing algorithm page lsn in
  buf_page_is_corrupted algorithm' written = false ∧
  mach_read_from_4 written FIL_PAGE_OFFSET = mach_read_from_4 page FIL_PAGE_OFFSET ∧
  mach_read_from_4 written FIL_PAGE_ARCH_LOG_NO_OR_SPACE_ID = mach_read_from_4 page FIL_PAGE_ARCH_LOG_NO_OR_SPACE_ID ∧
  bytes_at written FIL_PAGE_DATA (UNIV_PAGE_SIZE - FIL_PAGE_DATA - 8) = bytes_at page FIL_PAGE_DATA (UNIV_PAGE_SIZE - FIL_PAGE_DATA - 8).
Proof. intros Hl Hlsn. by apply written_ok. Qed.
End intact.

(** A server with pages of 4 KiB. *)
Definition config_4k : HostConfig :=
  {| srv_page_size_shift := 12; srv_undo_tablespaces_open := 0; srv_no_fsync := false; srv_fast_shutdown := 1 |}.

Lemma written_page_is_intact_witness :
  let page := replicate 4096 7 in
  buf_page_is_corrupted (H := config_4k) SRV_CHECKSUM_ALGORITHM_INNODB
    (buf_flush_init_for_writing (H := config_4k) SRV_CHECKSUM_ALGORITHM_CRC32 page 123456789) = false.
Proof.
  assert (Hok : HostConfigOk (H := config_4k)) by (split; vm_compute; discriminate).
  apply (written_page_is_intact (H := config_4k) (Hok := Hok)); [by vm_compute|lia].
Defined.
