(* ===== verification/FilInv.v ===== *)
(** The tablespace files of the host: the page search is a lookup in the
    concatenated files, the invariant of the file cache (which includes
    everything the server's own check, fil_validate, asserts), and the total
    specification of the write-and-read call. *)
From Stdlib Require Import Strings.String.
From S2P Require Import Prelude HostLld Fil.

(** ** The invariant of the file cache *)

#[local] Arguments list_remove_key : simpl never.

Section cache.
Context `{HostConfig}.
Implicit Types (fs : fil_system_t) (nd : fil_node_t) (sp : fil_space_t) (n : Z).

(** A node that must be on the LRU list: open, without pending I/O, of a
    user tablespace. *)
Definition evictable (sps : gmap Z fil_space_t) nd : bool :=
  node_open nd && (node_n_pending nd =? 0)
  && match sps !! node_space nd with
     | Some sp => fil_space_belongs_in_lru sp | None => false end.

(** What a node must satisfy by itself, with the system's modification counter
    [c]: only open files have pending I/O or changes that are not flushed, an open
    file has a known size, and no file is being extended or flushed. *)
Record NodeOk (c : Z) sp nd : Prop := {
  no_pending : 0 ≤ node_n_pending nd < 2 ^ 64;
  no_open : node_open nd = false → node_n_pending nd = 0;
  no_sized : node_open nd = true → node_size nd ≠ 0;
  no_extended : node_being_extended nd = false;
  no_flushes : node_n_pending_flushes nd = 0;
  no_counters : 0 ≤ node_flush_counter nd ≤ node_modification_counter nd ∧ node_modification_counter nd ≤ c;
  no_dirty : node_flush_counter nd < node_modification_counter nd →
    node_open nd = true ∧ is_in_unflushed_spaces sp = true;
}.

Definition opened (m : gmap Z fil_node_t) : gmap Z fil_node_t :=
  filter (λ p, node_open p.2 = true) m.

Record FilOk fs : Prop := {
  fo_space k sp : fil_spaces fs !! k = Some sp → space_id sp = k ∧ NoDup (chain sp);
  fo_chain k sp n : fil_spaces fs !! k = Some sp →
    n ∈ chain sp ↔ ∃ nd, fil_nodes fs !! n = Some nd ∧ node_space nd = k;
  fo_node n nd : fil_nodes fs !! n = Some nd →
    ∃ sp, fil_spaces fs !! node_space nd = Some sp ∧ NodeOk (fil_modification_counter fs) sp nd;
  fo_counter : 0 ≤ fil_modification_counter fs < 2 ^ 64;
  fo_n_open : fil_n_open fs = Z.of_nat (size (opened (fil_nodes fs)));
  fo_few : Z.of_nat (size (fil_nodes fs)) < 2 ^ 64;
  fo_LRU : NoDup (fil_LRU fs);
  fo_LRU_in n : n ∈ fil_LRU fs ↔ ∃ nd, fil_nodes fs !! n = Some nd ∧ evictable (fil_spaces fs) nd = true;
  fo_unflushed : NoDup (fil_unflushed_spaces fs);
  fo_unflushed_in k : k ∈ fil_unflushed_spaces fs ↔
    ∃ sp, fil_spaces fs !! k = Some sp ∧ is_in_unflushed_spaces sp = true;
}.

(** ** Updates of one node *)

Definition bool_Z (b : bool) : Z := if b then 1 else 0.

Lemma size_opened m n nd nd' :
  m !! n = Some nd →
  Z.of_nat (size (opened (<[n := nd']> m))) =
  Z.of_nat (size (opened m)) + bool_Z (node_open nd') - bool_Z (node_open nd).
Proof.
  intros Hn. unfold opened.
  assert (Z.of_nat (size (filter (λ p : Z * fil_node_t, node_open p.2 = true) m)) =
    Z.of_nat (size (filter (λ p : Z * fil_node_t, node_open p.2 = true) (delete n m))) + bool_Z (node_open nd)) as ->.
  { rewrite <- (insert_delete_id m n nd) at 1 by done. destruct (node_open nd) eqn:Ho.
    - rewrite map_filter_insert_True by done. rewrite map_size_insert_None; [cbn; lia|].
      apply map_lookup_filter_None. left. apply lookup_delete_eq.
    - rewrite map_filter_insert_False by (cbn; congruence). rewrite delete_delete_eq. cbn. lia. }
  rewrite <- (insert_delete_eq m). destruct (node_open nd') eqn:Ho.
  - rewrite map_filter_insert_True by done. rewrite map_size_insert_None; [cbn; lia|].
    apply map_lookup_filter_None. left. apply lookup_delete_eq.
  - rewrite map_filter_insert_False by (cbn; congruence). rewrite delete_delete_eq. cbn. lia.
Qed.

Lemma NodeOk_later c c' sp nd : c ≤ c' → NodeOk c sp nd → NodeOk c' sp nd.
Proof. intros Hc []; split; try done. lia. Qed.

(** The LRU list after node [n] has changed from [nd] to [nd']. *)
Definition new_LRU fs n nd nd' : list Z :=
  if evictable (fil_spaces fs) nd' then (if evictable (fil_spaces fs) nd then fil_LRU fs else n :: fil_LRU fs)
  else list_remove_key n (fil_LRU fs).

Lemma elem_of_key_removed n x l : x ∈ list_remove_key n l ↔ x ≠ n ∧ x ∈ l.
Proof. unfold list_remove_key. by rewrite list_elem_of_filter. Qed.
Lemma remove_absent n l : n ∉ l → list_remove_key n l = l.
Proof.
  intros Hn. unfold list_remove_key. induction l as [|x l IH]; [done|].
  apply not_elem_of_cons in Hn as [Hx Hn]. rewrite filter_cons_True by done. by rewrite IH.
Qed.

Lemma new_LRU_in fs n nd nd' x :
  FilOk fs → fil_nodes fs !! n = Some nd →
  x ∈ new_LRU fs n nd nd' ↔ ∃ d, <[n := nd']> (fil_nodes fs) !! x = Some d ∧ evictable (fil_spaces fs) d = true.
Proof.
  intros HO Hn. pose proof (fo_LRU_in _ HO) as Hin. unfold new_LRU.
  destruct (decide (x = n)) as [->|Hx].
  - rewrite lookup_insert_eq. destruct (evictable (fil_spaces fs) nd') eqn:E'.
    + split; [by intros; exists nd'|]. intros _. destruct (evictable (fil_spaces fs) nd) eqn:E; [|by left].
      apply Hin. by exists nd.
    + rewrite elem_of_key_removed. split; [naive_solver|]. intros (d & [= <-] & ?). congruence.
  - rewrite lookup_insert_ne by done. rewrite <- Hin.
    destruct (evictable (fil_spaces fs) nd'), (evictable (fil_spaces fs) nd); rewrite ?elem_of_key_removed, ?elem_of_cons; naive_solver.
Qed.

Lemma new_LRU_NoDup fs n nd nd' :
  FilOk fs → fil_nodes fs !! n = Some nd → NoDup (new_LRU fs n nd nd').
Proof.
  intros HO Hn. pose proof (fo_LRU _ HO) as Hd. unfold new_LRU.
  assert (NoDup (list_remove_key n (fil_LRU fs))) by by apply NoDup_filter.
  destruct (evictable (fil_spaces fs) nd'), (evictable (fil_spaces fs) nd) eqn:E; try done.
  apply NoDup_cons. split; [|done]. rewrite (fo_LRU_in _ HO).
  intros (d & Hd' & E'). congruence.
Qed.

(** Node [n] changes from [nd] to [nd'] and the modification counter to [c]. *)
Definition node_update fs n nd nd' (c : Z) : fil_system_t :=
  Mkfil_system_t (fil_spaces fs) (<[n := nd']> (fil_nodes fs)) (new_LRU fs n nd nd') (fil_unflushed_spaces fs)
    (fil_n_open fs + bool_Z (node_open nd') - bool_Z (node_open nd)) (fil_max_n_open fs) c.

Lemma FilOk_update fs n nd nd' sp c :
  FilOk fs → fil_nodes fs !! n = Some nd → fil_spaces fs !! node_space nd = Some sp →
  node_space nd' = node_space nd → fil_modification_counter fs ≤ c < 2 ^ 64 → NodeOk c sp nd' →
  FilOk (node_update fs n nd nd' c).
Proof.
  intros HO Hn Hsp Hs Hc Hok. pose proof (fo_counter _ HO). split; cbn.
  - apply HO.
  - intros k sp' x Hk. rewrite (fo_chain _ HO k sp' x Hk). destruct (decide (x = n)) as [->|].
    + rewrite Hn, lookup_insert_eq. naive_solver.
    + by rewrite lookup_insert_ne.
  - intros x d. destruct (decide (x = n)) as [->|].
    + rewrite lookup_insert_eq. intros [= <-]. exists sp. by rewrite Hs.
    + rewrite lookup_insert_ne by done. intros Hx. destruct (fo_node _ HO x d Hx) as (sp' & ? & ?).
      exists sp'. split; [done|]. eapply NodeOk_later; [|done]. lia.
  - lia.
  - rewrite (size_opened _ _ nd) by done. rewrite (fo_n_open _ HO). done.
  - rewrite map_size_insert_Some by (by eexists). apply HO.
  - by apply new_LRU_NoDup.
  - intros x. by apply new_LRU_in.
  - apply HO.
  - apply HO.
Qed.

(** ** Updates of one space *)

(** The members of a space that the files depend on. *)
Definition space_core sp := (space_id sp, chain sp, purpose sp).

Lemma evictable_space sps k sp sp' nd :
  sps !! k = Some sp → space_core sp' = space_core sp → evictable (<[k := sp']> sps) nd = evictable sps nd.
Proof.
  intros Hk [= Hid _ Hp]. unfold evictable. destruct (decide (node_space nd = k)) as [->|].
  - rewrite lookup_insert_eq, Hk. unfold fil_space_belongs_in_lru. by rewrite Hid, Hp.
  - by rewrite lookup_insert_ne.
Qed.

Lemma FilOk_mark fs k sp sp' l :
  FilOk fs → fil_spaces fs !! k = Some sp → space_core sp' = space_core sp →
  (is_in_unflushed_spaces sp' = true ∨ ∀ n nd, fil_nodes fs !! n = Some nd → node_space nd = k →
     node_modification_counter nd ≤ node_flush_counter nd) →
  l = (if is_in_unflushed_spaces sp'
       then (if is_in_unflushed_spaces sp then fil_unflushed_spaces fs else k :: fil_unflushed_spaces fs)
       else list_remove_key k (fil_unflushed_spaces fs)) →
  FilOk (fset fil_unflushed_spaces l (fset fil_spaces (<[k := sp']> (fil_spaces fs)) fs)).
Proof.
  intros HO Hk Hcore Hb ->. pose proof (fo_unflushed_in _ HO) as Hin. pose proof Hcore as [= Hid Hch Hpu].
  split; cbn; try apply HO.
  - intros k' d [[<- <-]|[? Hd]]%lookup_insert_Some; [|by apply (fo_space _ HO)].
    rewrite Hid, Hch. apply (fo_space _ HO k sp Hk).
  - intros k' d x [[<- <-]|[? Hd]]%lookup_insert_Some; [|by apply (fo_chain _ HO)].
    rewrite Hch. apply (fo_chain _ HO k sp x Hk).
  - intros n nd Hn. destruct (fo_node _ HO n nd Hn) as (sp0 & Hs & Hok).
    destruct (decide (node_space nd = k)) as [Ek|]; [|exists sp0; by rewrite lookup_insert_ne].
    rewrite Ek in *. rewrite lookup_insert_eq. exists sp'. split; [done|].
    rewrite Hk in Hs. injection Hs as <-. destruct Hok; split; try done. intros Hd.
    destruct Hb as [->|Hb]; [split; [by apply no_dirty0|done]|]. specialize (Hb n nd Hn Ek). lia.
  - intros n. rewrite (fo_LRU_in _ HO). apply exist_proper. intros nd.
    by rewrite (evictable_space (fil_spaces fs) k sp sp' nd).
  - destruct (is_in_unflushed_spaces sp'); [|unfold list_remove_key; apply NoDup_filter, HO].
    destruct (is_in_unflushed_spaces sp) eqn:E; [apply HO|].
    apply NoDup_cons. split; [|apply HO]. rewrite Hin. intros (sp0 & ? & ?); congruence.
  - intros k'. destruct (decide (k' = k)) as [->|].
    + rewrite lookup_insert_eq. destruct (is_in_unflushed_spaces sp') eqn:E'.
      * split; [by eexists|]. intros _. destruct (is_in_unflushed_spaces sp) eqn:E; [|by left]. apply Hin. eauto.
      * rewrite elem_of_key_removed. split; [naive_solver|]. intros (? & [= <-] & ?). congruence.
    + rewrite lookup_insert_ne, <- Hin by done.
      destruct (is_in_unflushed_spaces sp'), (is_in_unflushed_spaces sp);
        rewrite ?elem_of_key_removed, ?elem_of_cons; naive_solver.
Qed.

Lemma FilOk_space fs k sp sp' :
  FilOk fs → fil_spaces fs !! k = Some sp → space_core sp' = space_core sp →
  is_in_unflushed_spaces sp' = is_in_unflushed_spaces sp →
  FilOk (fset fil_spaces (<[k := sp']> (fil_spaces fs)) fs).
Proof.
  intros HO Hk Hc Hi. pose proof (FilOk_mark fs k sp sp' (fil_unflushed_spaces fs) HO Hk Hc) as HM.
  apply HM; rewrite Hi; destruct (is_in_unflushed_spaces sp) eqn:E; try done; [by left|right|].
  - intros n nd Hn Hs. destruct (fo_node _ HO n nd Hn) as (sp0 & Hs0 & Hok). rewrite Hs, Hk in Hs0.
    injection Hs0 as <-. destruct (decide (node_flush_counter nd < node_modification_counter nd)); [|lia].
    destruct (no_dirty _ _ _ Hok) as [_ ?]; [done|congruence].
  - rewrite remove_absent; [done|]. rewrite (fo_unflushed_in _ HO). intros (sp0 & ? & ?). congruence.
Qed.

(** ** The server's own check *)

Lemma FilOk_nodes fs n : FilOk fs → n ∈ all_nodes fs ↔ is_Some (fil_nodes fs !! n).
Proof.
  intros HO. unfold all_nodes. rewrite list_elem_of_bind. split.
  - intros ([k sp] & Hn & Hk%elem_of_map_to_list). apply (fo_chain _ HO k sp n Hk) in Hn as (nd & ? & _). eauto.
  - intros [nd Hn]. destruct (fo_node _ HO n nd Hn) as (sp & Hk & _). exists (node_space nd, sp).
    split; [apply (fo_chain _ HO _ _ _ Hk); eauto|by apply elem_of_map_to_list].
Qed.

Lemma all_nodes_NoDup fs : FilOk fs → NoDup (all_nodes fs).
Proof.
  intros HO. unfold all_nodes. apply NoDup_bind.
  - intros [k sp] [k' sp'] n Hk%elem_of_map_to_list Hk'%elem_of_map_to_list Hn Hn'.
    apply (fo_chain _ HO k sp n Hk) in Hn as (nd & Hn & <-).
    apply (fo_chain _ HO k' sp' n Hk') in Hn' as (nd' & Hn' & <-). congruence.
  - intros [k sp] Hk%elem_of_map_to_list. apply (fo_space _ HO k sp Hk).
  - apply NoDup_map_to_list.
Qed.

Lemma count_opened fs :
  FilOk fs → length (List.filter (open_in fs) (all_nodes fs)) = size (opened (fil_nodes fs)).
Proof.
  intros HO. rewrite <- length_map_to_list, <- (length_fmap fst). apply Permutation_length, NoDup_Permutation.
  - apply NoDup_ListNoDup, List.NoDup_filter, NoDup_ListNoDup, all_nodes_NoDup, HO.
  - apply NoDup_fst_map_to_list.
  - intros n. rewrite list_elem_of_fmap, list_elem_of_In, List.filter_In, <- list_elem_of_In.
    rewrite (FilOk_nodes _ _ HO). unfold open_in. split.
    + intros [[nd Hn] Ho]. rewrite Hn in Ho. exists (n, nd). split; [done|].
      apply elem_of_map_to_list, map_lookup_filter_Some. done.
    + intros ([n' nd] & -> & [Hn Ho]%elem_of_map_to_list%map_lookup_filter_Some). cbn in *. rewrite Hn. eauto.
Qed.

Lemma FilOk_validate fs : FilOk fs → fil_validate fs = true.
Proof.
  intros HO. unfold fil_validate. apply andb_true_intro. split; [apply andb_true_intro; split|].
  - apply forallb_forall. intros n Hn%list_elem_of_In%(FilOk_nodes _ _ HO). destruct Hn as [nd Hn].
    unfold node_valid. rewrite Hn. destruct (fo_node _ HO n nd Hn) as (sp & _ & Hok).
    destruct (node_open nd) eqn:Ho; [done|]. apply Z.eqb_eq, Hok, Ho.
  - rewrite count_opened, <- (fo_n_open _ HO) by done. apply Z.eqb_eq. symmetry. apply wrap_small.
    pose proof (fo_few _ HO). rewrite (fo_n_open _ HO).
    pose proof (map_size_filter (λ p : Z * fil_node_t, node_open p.2 = true) (fil_nodes fs)). unfold opened. lia.
  - apply forallb_forall. intros n Hn%list_elem_of_In. apply (fo_LRU_in _ HO) in Hn as (nd & Hn & He).
    unfold lru_valid. rewrite Hn. destruct (fo_node _ HO n nd Hn) as (sp & Hs & Hok).
    unfold evictable in He. apply andb_prop in He as [[Ho Hp]%andb_prop Hb]. rewrite Hp, Ho, Hb. cbn.
    by rewrite (no_extended _ _ _ Hok).
Qed.
End cache.

(** ** The operating system

    What the code relies on: a descriptor returned by open is new and refers to
    the file; the other calls keep the descriptors; FIBMAP maps the blocks of a
    file; the NVMe request is passed to the device. *)
Class HostOsLaws (W : Type) `{HostOs W} := {
  os_files : W → gmap Z string;                  (** the open descriptors *)
  os_sent : W → list nvme_passthru_cmd;          (** the commands passed to the device *)
  os_present : string → Prop;                    (** the files that exist *)
  os_block : string → Z → Z;                     (** the disk block of a block of a file *)
  os_block_size : Z;
  law_open name raw p w : os_present name → ∃ h w', os_open name raw p w = (Some h, w') ∧
    os_files w !! h = None ∧ os_files w' = <[h := name]> (os_files w) ∧ os_sent w' = os_sent w;
  law_close h w : is_Some (os_files w !! h) → ∃ w', os_close h w = (true, w') ∧
    os_files w' = delete h (os_files w) ∧ os_sent w' = os_sent w;
  law_flush h w : os_files (os_flush h w) = os_files w ∧ os_sent (os_flush h w) = os_sent w;
  law_blksize h w : os_blksize h w = os_block_size;
  law_fibmap h b w name : os_files w !! h = Some name → os_fibmap h b w = Some (os_block name b);
  law_ioctl c w : os_files (os_ioctl c w).2 = os_files w ∧ os_sent (os_ioctl c w).2 = os_sent w ++ [c];
}.

Section calls.
Context `{HostConfig} {W : Type} `{HostOsLaws W}.
Implicit Types (fs : fil_system_t) (nd : fil_node_t) (sp : fil_space_t) (s : FilSt W) (w : W) (n : Z).

(** ** The page search *)

(** All pages of a space: the files of the chain, one after the other. *)
Definition file_pages (m : gmap Z fil_node_t) n : list (Z * Z) :=
  match m !! n with Some nd => (λ p, (n, p)) <$> seqZ 0 (node_size nd) | None => [] end.
Definition space_pages (m : gmap Z fil_node_t) (l : list Z) : list (Z * Z) := l ≫= file_pages m.

(** The files of a chain exist; in a user tablespace their sizes are known. *)
Definition sized (m : gmap Z fil_node_t) (user : bool) (l : list Z) : Prop :=
  Forall (λ n, ∃ nd, m !! n = Some nd ∧ 0 ≤ node_size nd ∧ (user = true → node_size nd ≠ 0)) l.

Lemma find_node_pages user l off s :
  0 ≤ off → sized (fil_nodes (fs_system s)) user l →
  find_node user l off s = Ok (space_pages (fil_nodes (fs_system s)) l !! Z.to_nat off) s.
Proof.
  revert off. induction l as [|n l IH]; intros off Hoff Hl; [done|].
  apply Forall_cons in Hl as [(nd & Hn & Hsz & Hu) Hl]. cbn [find_node].
  unfold bind at 1. unfold load. cbn [peek nodes sub_fil idx glob]. rewrite Hn.
  assert (space_pages (fil_nodes (fs_system s)) (n :: l) =
    ((λ p, (n, p)) <$> seqZ 0 (node_size nd)) ++ space_pages (fil_nodes (fs_system s)) l) as ->.
  { unfold space_pages. cbn. unfold file_pages at 1. by rewrite Hn. }
  destruct (user && (node_size nd =? 0)) eqn:E.
  { apply andb_prop in E as [-> E]. apply Z.eqb_eq in E. by destruct (Hu eq_refl). }
  destruct (Z.gtb_spec (node_size nd) off) as [Hlt|Hge].
  - rewrite lookup_app_l by (rewrite length_fmap, length_seqZ; lia).
    rewrite list_lookup_fmap, (proj2 (lookup_seqZ _ _ _ off)) by lia. done.
  - rewrite (IH (off - node_size nd)) by (lia || done).
    rewrite lookup_app_r by (rewrite length_fmap, length_seqZ; lia).
    rewrite length_fmap, length_seqZ. do 2 f_equal. lia.
Qed.

(** C36: The loop that looks for the file of a page (and skips the files before
    it) finds exactly the page of that number in the concatenation of the files
    of the space, and fails exactly past the last one. *)
Theorem find_node_is_lookup user l off s :
  0 ≤ off → sized (fil_nodes (fs_system s)) user l →
  find_node user l off s = Ok (space_pages (fil_nodes (fs_system s)) l !! Z.to_nat off) s.
Proof. apply find_node_pages. Qed.

(** ** The descriptors of the open files *)

Record HandlesOk fs w : Prop := {
  ho_name n nd : fil_nodes fs !! n = Some nd → node_open nd = true →
    os_files w !! node_handle nd = Some (node_name nd);
  ho_inj n n' nd nd' : fil_nodes fs !! n = Some nd → fil_nodes fs !! n' = Some nd' →
    node_open nd = true → node_open nd' = true → node_handle nd = node_handle nd' → n = n';
}.
Definition HostOk s : Prop := FilOk (fs_system s) ∧ HandlesOk (fs_system s) (fs_os s).

Lemma HandlesOk_files fs w w' : os_files w' = os_files w → HandlesOk fs w → HandlesOk fs w'.
Proof. intros E []. split; [by rewrite E|done]. Qed.

(** An update of a node that keeps its name, descriptor and openness. *)
Lemma HandlesOk_update fs fs' w n nd nd' :
  HandlesOk fs w → fil_nodes fs !! n = Some nd → fil_nodes fs' = <[n := nd']> (fil_nodes fs) →
  node_name nd' = node_name nd → node_handle nd' = node_handle nd → node_open nd' = node_open nd →
  HandlesOk fs' w.
Proof.
  intros [Hname Hinj] Hn E' En Eh Eo. split; rewrite E'.
  - intros x d [[<- <-]|[? Hx]]%lookup_insert_Some; [rewrite En, Eh, Eo; by apply (Hname n)|by apply (Hname x)].
  - intros x x' d d' [[<- <-]|[? Hx]]%lookup_insert_Some [[<- <-]|[? Hx']]%lookup_insert_Some; try done;
      rewrite ?En, ?Eh, ?Eo; eauto.
Qed.

Lemma HandlesOk_open fs fs' w w' n nd nd' h :
  HandlesOk fs w → fil_nodes fs !! n = Some nd → node_open nd = false →
  fil_nodes fs' = <[n := nd']> (fil_nodes fs) → node_handle nd' = h → node_name nd' = node_name nd →
  os_files w !! h = None → os_files w' = <[h := node_name nd]> (os_files w) → HandlesOk fs' w'.
Proof.
  intros [Hname Hinj] Hn Ho E' Eh En Hnew Ew.
  assert (Hfresh : ∀ x d, fil_nodes fs !! x = Some d → node_open d = true → node_handle d ≠ h).
  { intros x d Hx Hd E. pose proof (Hname x d Hx Hd). congruence. }
  split; rewrite E'.
  - intros x d [[<- <-]|[? Hx]]%lookup_insert_Some Hd; rewrite Ew.
    + by rewrite Eh, En, lookup_insert_eq.
    + rewrite lookup_insert_ne by (apply not_eq_sym; by apply (Hfresh x)). by apply (Hname x).
  - intros x x' d d' [[<- <-]|[? Hx]]%lookup_insert_Some [[<- <-]|[? Hx']]%lookup_insert_Some Hd Hd' E; try done.
    + destruct (Hfresh x' d' Hx' Hd'). congruence.
    + destruct (Hfresh x d Hx Hd). congruence.
    + eauto.
Qed.

Lemma HandlesOk_close fs fs' w w' n nd nd' :
  HandlesOk fs w → fil_nodes fs !! n = Some nd → node_open nd = true →
  fil_nodes fs' = <[n := nd']> (fil_nodes fs) → node_open nd' = false →
  os_files w' = delete (node_handle nd) (os_files w) → HandlesOk fs' w'.
Proof.
  intros [Hname Hinj] Hn Ho E' Eo Ew. split; rewrite E'.
  - intros x d [[<- <-]|[Hne Hx]]%lookup_insert_Some Hd; [congruence|]. rewrite Ew, lookup_delete_ne; [by apply (Hname x)|].
    intros E. apply Hne. by apply (Hinj n x nd d).
  - intros x x' d d' [[<- <-]|[? Hx]]%lookup_insert_Some [[<- <-]|[? Hx']]%lookup_insert_Some Hd Hd' E; try congruence.
    eauto.
Qed.

(** ** Opening and closing *)

Lemma new_LRU_enter fs n nd nd' :
  FilOk fs → fil_nodes fs !! n = Some nd → evictable (fil_spaces fs) nd = false →
  new_LRU fs n nd nd' = if evictable (fil_spaces fs) nd' then n :: fil_LRU fs else fil_LRU fs.
Proof.
  intros HO Hn E. unfold new_LRU. rewrite E. destruct (evictable _ nd'); [done|].
  apply remove_absent. rewrite (fo_LRU_in _ HO). intros (d & Hd & E'). congruence.
Qed.

(** What the operations on one file leave alone. *)
Definition Rest s s' : Prop :=
  fil_spaces (fs_system s') = fil_spaces (fs_system s) ∧
  fil_max_n_open (fs_system s') = fil_max_n_open (fs_system s) ∧
  fil_modification_counter (fs_system s') = fil_modification_counter (fs_system s) ∧
  os_sent (fs_os s') = os_sent (fs_os s).

Lemma wp_ASSERT b (Q : unit → FilSt W → Prop) s : b = true → Q tt s → wp (ASSERT b) Q s.
Proof. by intros ->. Qed.
Lemma wp_osM {A} (f : W → A * W) (Q : A → FilSt W → Prop) s :
  Q (f (fs_os s)).1 (fset fs_os (f (fs_os s)).2 s) → wp (osM f) Q s.
Proof. unfold osM. intros HQ. apply wp_zoom. unfold wp. by destruct (f (fs_os s)). Qed.

(** Assignments reduce to records. *)
Ltac fil_red :=
  cbn in *; cbv beta delta [fset set_fs_system set_fs_counters set_fs_log_fd set_fs_os set_fil_spaces set_fil_nodes
    set_fil_LRU set_fil_unflushed_spaces set_fil_n_open set_fil_max_n_open set_fil_modification_counter
    set_node_open set_node_handle set_node_n_pending set_node_n_pending_flushes set_node_modification_counter
    set_node_flush_counter set_is_in_unflushed_spaces set_space_n_pending_flushes] in *; cbn in *.

Lemma open_ok s n nd sp :
  HostOk s → fil_nodes (fs_system s) !! n = Some nd → node_open nd = false → node_size nd ≠ 0 →
  fil_spaces (fs_system s) !! node_space nd = Some sp → os_present (node_name nd) →
  wp (fil_node_open_file n (node_space nd)) (λ r s', r = true ∧ HostOk s' ∧ Rest s s' ∧ ∃ h,
    fil_nodes (fs_system s') = <[n := fset node_open true (fset node_handle h nd)]> (fil_nodes (fs_system s))) s.
Proof.
  intros [HO HH] Hn Ho Hsz Hs Hp. destruct (fo_node _ HO n nd Hn) as (sp' & Hs' & Hok).
  rewrite Hs in Hs'. injection Hs' as <-. pose proof (no_open _ _ _ Hok Ho) as Hpend.
  destruct (law_open (node_name nd) (node_is_raw_disk nd) (purpose sp) (fs_os s) Hp) as (h & w' & Eo & Hnew & Ef & Es).
  assert (Hcnt : fil_n_open (fs_system s) + 1 < 2 ^ 64 ∧ 0 ≤ fil_n_open (fs_system s)).
  { pose proof (fo_few _ HO). rewrite (fo_n_open _ HO).
    pose proof (size_opened _ _ _ (fset node_open true nd) Hn) as E. cbn in E. rewrite Ho in E. cbn in E.
    pose proof (map_size_filter (λ p : Z * fil_node_t, node_open p.2 = true)
      (<[n := fset node_open true nd]> (fil_nodes (fs_system s)))) as L.
    rewrite map_size_insert_Some in L by (by eexists). unfold opened in *. lia. }
  assert (Hl : evictable (fil_spaces (fs_system s)) nd = false) by (unfold evictable; by rewrite Ho).
  pose proof (FilOk_update (fs_system s) n nd (fset node_open true (fset node_handle h nd)) sp
    (fil_modification_counter (fs_system s)) HO Hn Hs) as HU. specialize (HU eq_refl).
  specialize (HU ltac:(pose proof (fo_counter _ HO); lia)).
  specialize (HU ltac:(destruct Hok; split; cbn; try done; naive_solver)).
  unfold node_update in HU. rewrite (new_LRU_enter _ _ _ _ HO Hn Hl) in HU.
  assert (El : evictable (fil_spaces (fs_system s)) (fset node_open true (fset node_handle h nd)) =
    fil_space_belongs_in_lru sp) by (unfold evictable; cbn; by rewrite Hpend, Hs).
  rewrite El in HU. cbn in HU. rewrite Ho in HU. clear El Hl.
  destruct s as [fs c lg w]. destruct fs as [sps nds lru unf no mx mc]. cbn in *.
  unfold fil_node_open_file. apply wp_bind. eapply wp_load; [exact Hn|].
  apply wp_bind, wp_ASSERT; [by apply Z.eqb_eq|]. apply wp_bind, wp_ASSERT; [by rewrite Ho|].
  rewrite (proj2 (Z.eqb_neq _ _) Hsz). apply wp_bind, wp_ret. cbn [negb].
  apply wp_bind. eapply wp_load; [exact Hs|]. apply wp_bind, wp_osM. cbn. rewrite Eo. cbn.
  apply wp_bind. eapply wp_store; [cbn; by rewrite Hn|]. cbn. rewrite Hn.
  apply wp_bind. eapply wp_store; [cbn; by rewrite lookup_insert_eq|]. cbn. rewrite lookup_insert_eq, insert_insert_eq.
  apply wp_bind. eapply wp_modify; [done|]. apply wp_bind. eapply wp_modify; [done|].
  apply wp_bind, wp_when; [intros Hb; eapply wp_modify; [done|]|intros Hb]; rewrite Hb in HU;
  (apply wp_bind, wp_when; [intros _; eapply wp_store; [done|]|intros _]; apply wp_ret;
   (split_and!; [done| |done|by exists h]; split;
    [fil_red; rewrite wrap_small by lia; by replace (no + 1 - 0) with (no + 1) in HU by lia|
     eapply HandlesOk_open; [exact HH|exact Hn|done|done|done|done|done|done]])).
Qed.

Lemma n_open_pos fs n nd : FilOk fs → fil_nodes fs !! n = Some nd → node_open nd = true → 0 < fil_n_open fs.
Proof.
  intros HO Hn Ho. rewrite (fo_n_open _ HO). pose proof (size_opened _ _ _ (fset node_open false nd) Hn) as E.
  rewrite Ho in E. cbn in E. lia.
Qed.
Lemma n_open_bound fs : FilOk fs → fil_n_open fs < 2 ^ 64.
Proof.
  intros HO. rewrite (fo_n_open _ HO). pose proof (fo_few _ HO).
  pose proof (map_size_filter (λ p : Z * fil_node_t, node_open p.2 = true) (fil_nodes fs)). unfold opened. lia.
Qed.

Lemma evictable_node fs n nd sp :
  FilOk fs → fil_nodes fs !! n = Some nd → fil_spaces fs !! node_space nd = Some sp →
  node_open nd = true → node_n_pending nd = 0 →
  (n ∈ fil_LRU fs ↔ fil_space_belongs_in_lru sp = true).
Proof.
  intros HO Hn Hs Ho Hp. rewrite (fo_LRU_in _ HO). unfold evictable. split.
  - intros (d & Hd & E). rewrite Hn in Hd. injection Hd as <-. by rewrite Ho, Hp, Hs in E.
  - intros Hb. exists nd. split; [done|]. by rewrite Ho, Hp, Hs.
Qed.

Lemma wp_remove_LRU b n (Q : unit → FilSt W → Prop) s :
  (b = true → n ∈ fil_LRU (fs_system s)) → (b = false → n ∉ fil_LRU (fs_system s)) →
  Q tt (MkFilSt (fset fil_LRU (list_remove_key n (fil_LRU (fs_system s))) (fs_system s)) (fs_counters s)
          (fs_log_fd s) (fs_os s)) →
  wp (when b (l <- !LRU ;; ASSERT (negb (Nat.eqb (length l) 0)) ;; LRU ::= list_remove_key n l)) Q s.
Proof.
  intros Hi Hni HQ. destruct s as [[sps nds lru unf no mx mc] c lg w]. cbn in *. apply wp_when; intros Hb.
  - apply wp_bind. eapply wp_load; [done|]. cbn. apply wp_bind, wp_ASSERT; [|by eapply wp_store].
    destruct lru; [|done]. by apply not_elem_of_nil in Hi.
  - fil_red. by rewrite remove_absent in HQ by auto.
Qed.

Lemma close_ok s n nd :
  HostOk s → fil_nodes (fs_system s) !! n = Some nd → node_open nd = true → node_n_pending nd = 0 →
  node_modification_counter nd = node_flush_counter nd →
  wp (fil_node_close_file n) (λ _ s', HostOk s' ∧ Rest s s' ∧
    fil_nodes (fs_system s') = <[n := fset node_open false nd]> (fil_nodes (fs_system s)) ∧
    fil_LRU (fs_system s') = list_remove_key n (fil_LRU (fs_system s))) s.
Proof.
  intros [HO HH] Hn Ho Hp Hm. destruct (fo_node _ HO n nd Hn) as (sp & Hs & Hok).
  destruct (law_close (node_handle nd) (fs_os s)) as (w' & Ew & Ef & Es); [by rewrite (ho_name _ _ HH n nd)|].
  pose proof (n_open_pos _ _ _ HO Hn Ho) as Hpos. pose proof (n_open_bound _ HO).
  pose proof (evictable_node _ _ _ _ HO Hn Hs Ho Hp) as Hin.
  pose proof (FilOk_update (fs_system s) n nd (fset node_open false nd) sp
    (fil_modification_counter (fs_system s)) HO Hn Hs) as HU. specialize (HU eq_refl).
  specialize (HU ltac:(pose proof (fo_counter _ HO); lia)).
  specialize (HU ltac:(destruct Hok; split; cbn; try done; intros; lia)).
  unfold node_update, new_LRU, evictable in HU. cbn in HU. rewrite Ho in HU.
  destruct s as [[sps nds lru unf no mx mc] c lg w]. cbn in *.
  unfold fil_node_close_file. apply wp_bind. eapply wp_load; [exact Hn|].
  apply wp_bind, wp_ASSERT; [done|]. apply wp_bind, wp_ASSERT; [by apply Z.eqb_eq|].
  apply wp_bind, wp_ASSERT; [apply Z.eqb_eq, Hok|]. apply wp_bind, wp_ASSERT.
  { by rewrite (no_extended _ _ _ Hok). }
  apply wp_bind, wp_ASSERT; [by rewrite Hm, Z.eqb_refl|]. apply wp_bind, wp_osM. cbn [fs_os]. rewrite Ew. cbn [fst snd].
  apply wp_bind, wp_ASSERT; [done|]. apply wp_bind. eapply wp_store; [cbn; by rewrite Hn|]. cbn. rewrite Hn.
  apply wp_bind. eapply wp_load; [done|]. cbn. apply wp_bind, wp_ASSERT; [by apply Z.gtb_lt|].
  apply wp_bind. eapply wp_modify; [done|]. apply wp_bind. eapply wp_modify; [done|].
  apply wp_bind. eapply wp_load; [exact Hs|]. apply wp_remove_LRU; cbn.
  { intros Hb. by apply Hin. } { intros Hb Hl. apply Hin in Hl. congruence. }
  split_and!; [|done|done|done]. split.
  - fil_red. rewrite wrap_small by lia. by replace (no + 0 - 1) with (no - 1) in HU by lia.
  - eapply HandlesOk_close; [exact HH|exact Hn|done|done|done|done].
Qed.

(** ** Making room: what stays of the cache *)

Definition node_ident nd :=
  (node_space nd, node_name nd, node_is_raw_disk nd, node_size nd, node_being_extended nd).
Definition node_sig nd := (node_ident nd, node_n_pending nd).
Definition space_sig sp :=
  (space_id sp, stop_ios sp, stop_new_ops sp, purpose sp, chain sp, space_size sp, space_flags sp).
Definition outline fs := (node_sig <$> fil_nodes fs, space_sig <$> fil_spaces fs, fil_max_n_open fs).

(** The invariant, the same files, spaces and pending I/O, and no command sent. *)
Definition Same s s' : Prop :=
  HostOk s' ∧ outline (fs_system s') = outline (fs_system s) ∧
  fil_modification_counter (fs_system s') = fil_modification_counter (fs_system s) ∧
  os_sent (fs_os s') = os_sent (fs_os s).

Lemma Same_refl s : HostOk s → Same s s.
Proof. done. Qed.
Lemma Same_trans s s' s'' : Same s s' → Same s' s'' → Same s s''.
Proof. intros (_ & ? & ? & ?) (? & ? & ? & ?). split_and!; [done|congruence..]. Qed.

Lemma fmap_insert_same {A B} (f : A → B) (m : gmap Z A) k x y :
  m !! k = Some x → f y = f x → f <$> <[k := y]> m = f <$> m.
Proof. intros Hk E. rewrite fmap_insert, E. apply insert_id. by rewrite lookup_fmap, Hk. Qed.

Lemma Same_update s s' n nd nd' :
  HostOk s' → Rest s s' → fil_nodes (fs_system s) !! n = Some nd → node_sig nd' = node_sig nd →
  fil_nodes (fs_system s') = <[n := nd']> (fil_nodes (fs_system s)) → Same s s'.
Proof.
  intros HO (Es & Em & Ec & Esent) Hn Hsig En. split_and!; [done| |done|done]. unfold outline.
  by rewrite En, Es, Em, (fmap_insert_same _ _ _ nd).
Qed.

Lemma close_first_ok l s :
  HostOk s → (∀ n, n ∈ l → n ∈ fil_LRU (fs_system s)) →
  wp (close_first l) (λ b s', Same s s' ∧
    (if b : bool then (length (fil_LRU (fs_system s')) < length (fil_LRU (fs_system s)))%nat else s' = s)) s.
Proof.
  intros HO Hl. induction l as [|n l IH]; [by apply wp_ret|]. cbn [close_first].
  pose proof (Hl n (list_elem_of_here _ _)) as Hin. apply (fo_LRU_in _ (proj1 HO)) in Hin as (nd & Hn & He).
  apply andb_prop in He as [[Ho Hp]%andb_prop _]. apply Z.eqb_eq in Hp.
  apply wp_bind. eapply wp_load; [exact Hn|].
  destruct (_ && _) eqn:E; [|apply IH; intros; apply Hl; by right].
  apply andb_prop in E as [[Em _]%andb_prop _]. apply Z.eqb_eq in Em.
  apply wp_bind. eapply wp_mono; [by eapply close_ok|]. intros [] s' (HO' & HR & En & El). apply wp_ret.
  split; [eapply (Same_update s s' n nd); [done|done|done| |exact En]; done|]. rewrite El. unfold list_remove_key.
  apply length_filter_lt with n; [apply Hl; by left|]. intros []. done.
Qed.

Lemma close_more_ok s : HostOk s → wp close_more (λ _ s', Same s s') s.
Proof.
  intros HO. unfold close_more. apply wp_bind. eapply wp_load; [done|].
  apply (wp_loop (λ _ s', Same s s') (λ _ s', length (fil_LRU (fs_system s')))); [cbn; lia|by apply Same_refl|].
  intros [] s1 HS1. apply wp_bind. unfold fil_try_to_close_file_in_LRU. apply wp_bind. eapply wp_load; [done|].
  eapply wp_mono; [apply close_first_ok; [apply HS1|intros n; by rewrite list_elem_of_In, <- in_rev, <- list_elem_of_In]|].
  intros b s2 [HS Hb]. apply wp_bind. eapply wp_load; [done|]. apply wp_bind. eapply wp_load; [done|]. apply wp_ret.
  pose proof (Same_trans _ _ _ HS1 HS). destruct b; cbn [andb]; [destruct (_ >=? _)|]; done.
Qed.

Lemma new_LRU_same fs n nd nd' :
  FilOk fs → fil_nodes fs !! n = Some nd → evictable (fil_spaces fs) nd' = evictable (fil_spaces fs) nd →
  new_LRU fs n nd nd' = fil_LRU fs.
Proof.
  intros HO Hn E. destruct (evictable _ nd) eqn:E'.
  - unfold new_LRU. by rewrite E, E'.
  - rewrite new_LRU_enter by done. by rewrite E.
Qed.

(** ** Flushing *)

Definition flushed nd : fil_node_t :=
  fset node_flush_counter (node_modification_counter nd) (fset node_n_pending_flushes 0 nd).

Lemma FilOk_flushed fs n nd sp :
  FilOk fs → fil_nodes fs !! n = Some nd → fil_spaces fs !! node_space nd = Some sp →
  FilOk (fset fil_nodes (<[n := flushed nd]> (fil_nodes fs)) fs).
Proof.
  intros HO Hn Hs. destruct (fo_node _ HO n nd Hn) as (sp' & Hs' & Hok). rewrite Hs in Hs'. injection Hs' as <-.
  pose proof (fo_counter _ HO) as Hc. pose proof (no_counters _ _ _ Hok) as Hct.
  pose proof (FilOk_update fs n nd (flushed nd) sp (fil_modification_counter fs) HO Hn Hs) as HU.
  specialize (HU eq_refl ltac:(lia)). unfold node_update in HU. rewrite (new_LRU_same _ _ _ (flushed nd) HO Hn eq_refl) in HU.
  change (node_open (flushed nd)) with (node_open nd) in HU. rewrite Z.add_simpl_r in HU. apply HU.
  destruct Hok; split; cbn; rewrite ?wrap_small by lia; try done; lia.
Qed.

Lemma is_flushed_ok k sp s :
  fil_spaces (fs_system s) !! k = Some sp → FilOk (fs_system s) →
  wp (fil_space_is_flushed k) (λ b s', s' = s ∧ (b = true →
    ∀ n nd, fil_nodes (fs_system s) !! n = Some nd → node_space nd = k →
      node_modification_counter nd ≤ node_flush_counter nd)) s.
Proof.
  intros Hk HO. unfold fil_space_is_flushed. apply wp_bind. eapply wp_load; [exact Hk|].
  apply wp_bind. eapply wp_load; [done|]. apply wp_ret. split; [done|]. intros Hf n nd Hn Hs.
  rewrite forallb_forall in Hf. specialize (Hf n). cbn in Hf. rewrite Hn in Hf.
  destruct (Z.gtb_spec (node_modification_counter nd) (node_flush_counter nd)); [|lia].
  discriminate Hf. apply list_elem_of_In, (fo_chain _ HO k sp n Hk). eauto.
Qed.

Lemma unlist_ok k sp s :
  HostOk s → fil_spaces (fs_system s) !! k = Some sp →
  wp (listed <- !(spaces.[k]∙is_in_unflushed_spaces) ;;
      all <- fil_space_is_flushed k ;;
      when (listed && all)
        (spaces.[k]∙is_in_unflushed_spaces ::= false ;;
         modify unflushed_spaces (list_remove_key k))) (λ _ s', Same s s') s.
Proof.
  intros HO Hk. apply wp_bind. eapply wp_load; [cbn; by rewrite Hk|].
  apply wp_bind. eapply wp_mono; [eapply is_flushed_ok; [exact Hk|apply HO]|]. intros all _ [-> Hall].
  apply wp_when; [intros [_ ->]%andb_prop|done]. specialize (Hall eq_refl). destruct HO as [HO HH].
  pose proof (FilOk_mark _ k sp (fset is_in_unflushed_spaces false sp)
    (list_remove_key k (fil_unflushed_spaces (fs_system s))) HO Hk) as HU.
  specialize (HU eq_refl (or_intror Hall) eq_refl).
  destruct s as [[sps nds lru unf no mx mc] c lg w]. cbn in *.
  apply wp_bind. eapply wp_store; [cbn; by rewrite Hk|]. eapply wp_modify; [done|]. cbn. rewrite Hk.
  split_and!; [|unfold outline; cbn; by rewrite (fmap_insert_same _ _ _ sp)|done|done].
  split; [exact HU|by destruct HH].
Qed.

Lemma flush_node_ok k sp n nd s :
  HostOk s → fil_spaces (fs_system s) !! k = Some sp → fil_nodes (fs_system s) !! n = Some nd → node_space nd = k →
  wp (flush_node k n) (λ _ s', Same s s') s.
Proof.
  intros [HO HH] Hk Hn <-. destruct (fo_node _ HO n nd Hn) as (sp' & Hs' & Hok). rewrite Hk in Hs'. injection Hs' as <-.
  unfold flush_node. apply wp_bind. eapply wp_load; [exact Hk|]. apply wp_bind. eapply wp_load; [exact Hn|].
  destruct (Z.leb_spec (node_modification_counter nd) (node_flush_counter nd)) as [|Hd]; [by apply Same_refl|].
  destruct (no_dirty _ _ _ Hok Hd) as [Ho Hin]. apply wp_bind, wp_ASSERT; [done|].
  pose proof (FilOk_flushed _ n nd sp HO Hn Hk) as HU. pose proof (no_flushes _ _ _ Hok) as Hq.
  destruct (law_flush (node_handle nd) (fs_os s)) as [Ef Es].
  destruct s as [[sps nds lru unf no mx mc] c lg w]. cbn in *.
  apply wp_bind. eapply (wp_mono _ (λ _ s', ∃ c', s' = MkFilSt (Mkfil_system_t sps nds lru unf no mx mc) c' lg w)).
  { destruct (purpose sp =? FIL_TABLESPACE); [eapply wp_modify; [done|by eexists]|].
    apply wp_bind. eapply wp_modify; [done|]. eapply wp_modify; [done|by eexists]. }
  intros [] _ [c' ->]. rewrite Hq. cbn [Z.gtb Z.compare]. apply wp_bind, wp_ret.
  apply wp_bind. eapply wp_modify; [cbn; by rewrite Hn|]. cbn. rewrite Hn. apply wp_bind, wp_osM.
  apply wp_bind. eapply wp_modify; [cbn; by rewrite lookup_insert_eq|]. cbn. rewrite lookup_insert_eq, insert_insert_eq.
  apply wp_bind. eapply wp_load; [cbn; by rewrite lookup_insert_eq|]. cbn [node_flush_counter fset].
  apply wp_bind, wp_when; [intros _|intros E%Z.ltb_ge; cbn in E; lia].
  apply wp_bind. eapply wp_store; [cbn; by rewrite lookup_insert_eq|]. cbn. rewrite lookup_insert_eq, insert_insert_eq, Hq.
  match goal with |- wp _ _ ?s' => change s' with (MkFilSt (Mkfil_system_t sps (<[n := flushed nd]> nds)
    lru unf no mx mc) c' lg (os_flush (node_handle nd) w)) end.
  match goal with |- wp _ _ ?s' => set (s1 := s') end.
  assert (HS1 : Same (MkFilSt (Mkfil_system_t sps nds lru unf no mx mc) c lg w) s1).
  { eapply (Same_update _ _ n nd (flushed nd)); [|done|done|done|done]. split; [exact HU|].
    eapply HandlesOk_files; [exact Ef|]. by eapply (HandlesOk_update _ _ _ n nd). }
  eapply wp_mono; [apply (unlist_ok _ sp); [apply HS1|done]|]. intros [] s2 HS2.
  pose proof (Same_trans _ _ _ HS1 HS2) as HS. destruct s2 as [fs2 c2 lg2 w2].
  destruct (purpose sp =? FIL_TABLESPACE); (eapply wp_modify; [done|]); exact HS.
Qed.

Lemma Same_node s s' n nd :
  Same s s' → fil_nodes (fs_system s) !! n = Some nd →
  ∃ nd', fil_nodes (fs_system s') !! n = Some nd' ∧ node_sig nd' = node_sig nd.
Proof.
  intros (_ & [= En _ _] & _) Hn. apply (f_equal (.!! n)) in En. rewrite !lookup_fmap, Hn in En.
  destruct (fil_nodes (fs_system s') !! n) as [nd'|]; [|done]. exists nd'. split; [done|]. by apply (inj Some) in En.
Qed.
Lemma Same_space s s' k sp :
  Same s s' → fil_spaces (fs_system s) !! k = Some sp →
  ∃ sp', fil_spaces (fs_system s') !! k = Some sp' ∧ space_sig sp' = space_sig sp.
Proof.
  intros (_ & [= _ En _] & _) Hk. apply (f_equal (.!! k)) in En. rewrite !lookup_fmap, Hk in En.
  destruct (fil_spaces (fs_system s') !! k) as [sp'|]; [|done]. exists sp'. split; [done|]. by apply (inj Some) in En.
Qed.

(** A change of the counter of flushes of a space. *)
Lemma space_flushes_ok k sp f s :
  HostOk s → fil_spaces (fs_system s) !! k = Some sp →
  wp (modify (spaces.[k]∙space_n_pending_flushes) f) (λ _ s', Same s s') s.
Proof.
  intros [HO HH] Hk. eapply wp_modify; [cbn; by rewrite Hk|].
  pose proof (FilOk_space _ k sp (fset space_n_pending_flushes (f (space_n_pending_flushes sp)) sp) HO Hk) as HU.
  specialize (HU eq_refl eq_refl). destruct s as [[sps nds lru unf no mx mc] c lg w]. cbn in *. rewrite Hk.
  split_and!; [split; [exact HU|by destruct HH]|unfold outline; cbn; by rewrite (fmap_insert_same _ _ _ sp)|done|done].
Qed.

Lemma fil_flush_ok k s : HostOk s → wp (fil_flush k) (λ _ s', Same s s') s.
Proof.
  intros HO. unfold fil_flush, fil_space_get_by_id. apply wp_bind, wp_bind. eapply wp_load; [done|]. apply wp_ret. cbn.
  destruct (fil_spaces (fs_system s) !! k) as [sp|] eqn:Hk; [|by apply Same_refl].
  destruct (stop_new_ops sp); [by apply Same_refl|]. destruct (fil_buffering_disabled sp); [by apply Same_refl|].
  apply wp_bind. eapply wp_mono; [by apply (space_flushes_ok k sp)|]. intros [] s1 HS1.
  apply wp_bind. eapply wp_mono; [apply (wp_for_each (Same s)); [done|]|].
  - intros n s2 Hn HS2. apply (fo_chain _ (proj1 HO) k sp n Hk) in Hn as (nd & Hn & Hs).
    destruct (Same_node _ _ _ _ HS2 Hn) as (nd' & Hn' & [= Es _ _ _ _ _]). destruct (Same_space _ _ _ _ HS2 Hk) as (sp' & Hk' & _).
    eapply wp_mono; [eapply (flush_node_ok k sp' n nd'); [apply HS2|done|done|congruence]|].
    intros [] s3 HS3. by eapply Same_trans.
  - intros [] s2 HS2. destruct (Same_space _ _ _ _ HS2 Hk) as (sp' & Hk' & _).
    eapply wp_mono; [apply (space_flushes_ok k sp'); [apply HS2|done]|]. intros [] s3 HS3. by eapply Same_trans.
Qed.

Lemma flush_spaces_ok p s : HostOk s → wp (fil_flush_file_spaces p) (λ _ s', Same s s') s.
Proof.
  intros HO. unfold fil_flush_file_spaces. apply wp_bind. eapply wp_load; [done|]. apply wp_bind. eapply wp_load; [done|].
  apply wp_for_each; [by apply Same_refl|]. intros k s1 _ HS.
  eapply wp_mono; [apply fil_flush_ok, HS|]. intros [] s2 HS2. by eapply Same_trans.
Qed.

(** A space that stops I/O. *)
Definition stopped fs k : bool := match fil_spaces fs !! k with Some sp => stop_ios sp | None => false end.

(** The first file of every chain exists. *)
Definition chained fs k : Prop := match fil_spaces fs !! k with Some sp => chain sp ≠ [] | None => True end.

Lemma first_open_ok sp k s :
  HostOk s → fil_spaces (fs_system s) !! k = Some sp → chain sp ≠ [] → wp (first_open sp) (λ _ s', s' = s) s.
Proof.
  intros HO Hk Hc. unfold first_open. destruct (chain sp) as [|n l] eqn:E; [done|].
  assert (Hn : n ∈ chain sp) by (rewrite E; by left). apply (fo_chain _ (proj1 HO) k sp n Hk) in Hn as (nd & Hn & _).
  eapply wp_load; [cbn; by rewrite Hn|done].
Qed.

Lemma Same_stopped s s' k : Same s s' → stopped (fs_system s') k = stopped (fs_system s) k.
Proof.
  intros (_ & [= _ E _] & _). apply (f_equal (.!! k)) in E. rewrite !lookup_fmap in E. unfold stopped.
  destruct (fil_spaces (fs_system s') !! k), (fil_spaces (fs_system s) !! k); try done. by injection E.
Qed.
Lemma Same_chained s s' k : Same s s' → chained (fs_system s) k → chained (fs_system s') k.
Proof.
  intros (_ & [= _ E _] & _). apply (f_equal (.!! k)) in E. rewrite !lookup_fmap in E. unfold chained.
  destruct (fil_spaces (fs_system s') !! k), (fil_spaces (fs_system s) !! k); try done. injection E. congruence.
Qed.

(** Three rounds are enough, unless both spaces are stopped. *)
Lemma enter_ok fuel k k' s :
  HostOk s → stopped (fs_system s) k && stopped (fs_system s) k' = false →
  chained (fs_system s) k → chained (fs_system s) k' → (3 ≤ fuel)%nat →
  wp (fil_mutex_enter_and_prepare_for_rw_io fuel k k') (λ _ s', Same s s') s.
Proof.
  intros HO Hst Hc Hc' Hf. unfold fil_mutex_enter_and_prepare_for_rw_io.
  apply (wp_loop (λ count s', Same s s' ∧ 0 ≤ count ≤ 2) (λ count _, Z.to_nat (2 - count))); [cbn; lia|by split; [apply Same_refl|]|].
  intros count s1 [HS Hcount]. destruct (_ || _ || _ || _); [by apply wp_ret|].
  unfold fil_space_get_by_id. apply wp_bind, wp_bind. eapply wp_load; [done|]. apply wp_ret.
  apply wp_bind, wp_bind. eapply wp_load; [done|]. apply wp_ret. cbn zeta.
  pose proof (Same_stopped _ _ k HS) as E. pose proof (Same_stopped _ _ k' HS) as E'. unfold stopped at 1 in E. unfold stopped at 1 in E'.
  pose proof (Same_chained _ _ k HS Hc) as G. pose proof (Same_chained _ _ k' HS Hc') as G'. unfold chained in G, G'.
  cbn [peek spaces sub_fil glob]. rewrite E, E', Hst. clear E E'.
  apply wp_bind. eapply wp_load; [done|]. apply wp_bind. eapply wp_load; [done|]. destruct (_ <? _); [by apply wp_ret|].
  destruct (fil_spaces (fs_system s1) !! k) as [sp|] eqn:Hk; [|by apply wp_ret].
  pose proof (first_open_ok sp k s1 (proj1 HS) Hk G) as Hfo.
  destruct (fil_spaces (fs_system s1) !! k') as [sp'|] eqn:Hk'.
  2: { apply wp_bind. eapply wp_mono; [exact Hfo|]. by intros b _ ->. }
  apply wp_bind. eapply wp_mono; [exact Hfo|]. intros b _ ->. apply wp_bind.
  eapply (wp_mono _ (λ _ s', s' = s1)); [destruct b; [by apply wp_ret|by eapply first_open_ok; [apply HS|..]]|].
  intros b' _ ->. destruct b'; [by apply wp_ret|]. apply wp_bind.
  eapply wp_mono; [apply close_more_ok, HS|]. intros [] s2 HS2. pose proof (Same_trans _ _ _ HS HS2) as HS3.
  apply wp_bind. eapply wp_load; [done|]. destruct (_ <? _); [by apply wp_ret|].
  destruct (Z.geb_spec count 2); [by apply wp_ret|]. apply wp_bind.
  eapply wp_mono; [apply flush_spaces_ok, HS2|]. intros [] s4 HS4. apply wp_ret.
  split; [split; [by eapply Same_trans|lia]|]. lia.
Qed.

(** ** Beginning and ending I/O on a file *)

Lemma pend_ok s n nd sp :
  HostOk s → fil_nodes (fs_system s) !! n = Some nd → node_open nd = true →
  fil_spaces (fs_system s) !! node_space nd = Some sp → node_n_pending nd + 1 < 2 ^ 64 →
  wp (when ((node_n_pending nd =? 0) && fil_space_belongs_in_lru sp)
        (l <- !LRU ;; ASSERT (negb (Nat.eqb (length l) 0)) ;; LRU ::= list_remove_key n l) ;;
      incr (nodes.[n]∙node_n_pending) ;; ret true)
    (λ r s', r = true ∧ HostOk s' ∧ Rest s s' ∧
      fil_nodes (fs_system s') = <[n := fset node_n_pending (node_n_pending nd + 1) nd]> (fil_nodes (fs_system s))) s.
Proof.
  intros [HO HH] Hn Ho Hs Hp. destruct (fo_node _ HO n nd Hn) as (sp' & Hs' & Hok). rewrite Hs in Hs'. injection Hs' as <-.
  pose proof (no_pending _ _ _ Hok) as Hp0.
  pose proof (FilOk_update (fs_system s) n nd (fset node_n_pending (node_n_pending nd + 1) nd) sp
    (fil_modification_counter (fs_system s)) HO Hn Hs) as HU. specialize (HU eq_refl).
  specialize (HU ltac:(pose proof (fo_counter _ HO); lia)).
  specialize (HU ltac:(destruct Hok; split; cbn; rewrite ?wrap_small by lia; try done; try lia; congruence)).
  unfold node_update, new_LRU, evictable in HU. cbn in HU. rewrite Ho in HU. cbn in HU.
  rewrite wrap_small in HU by lia. rewrite (proj2 (Z.eqb_neq (node_n_pending nd + 1) 0)) in HU by lia. cbn in HU.
  assert (Hmem : n ∈ fil_LRU (fs_system s) ↔ (node_n_pending nd =? 0) && fil_space_belongs_in_lru sp = true).
  { rewrite (fo_LRU_in _ HO). split.
    - intros (d & Hd & E). rewrite Hn in Hd. injection Hd as <-. unfold evictable in E. by rewrite Ho, Hs in E.
    - intros E. exists nd. split; [done|]. unfold evictable. by rewrite Ho, Hs. }
  destruct s as [[sps nds lru unf no mx mc] c lg w]. cbn in *.
  apply wp_bind, wp_remove_LRU; [by intros ?%Hmem|intros E Hin%Hmem; congruence|].
  apply wp_bind. eapply wp_modify; [cbn; by rewrite Hn|]. apply wp_ret. cbn. rewrite Hn.
  split_and!; [done| |done|done]. split.
  - fil_red. rewrite wrap_small in HU by lia. rewrite wrap_small by lia. by replace (no + 1 - 1) with no in HU by lia.
  - by eapply (HandlesOk_update _ _ _ n nd).
Qed.

(** The file is open afterwards, with one more pending I/O. *)
Definition Pended n nd s s' : Prop :=
  HostOk s' ∧ Rest s s' ∧ ∃ nd', fil_nodes (fs_system s') = <[n := nd']> (fil_nodes (fs_system s)) ∧
    node_open nd' = true ∧ node_ident nd' = node_ident nd ∧ node_n_pending nd' = node_n_pending nd + 1.

Lemma prepare_ok s n nd sp :
  HostOk s → fil_nodes (fs_system s) !! n = Some nd → fil_spaces (fs_system s) !! node_space nd = Some sp →
  (node_open nd = false → node_size nd ≠ 0 ∧ os_present (node_name nd)) → node_n_pending nd + 1 < 2 ^ 64 →
  wp (fil_node_prepare_for_io n (node_space nd)) (λ r s', r = true ∧ Pended n nd s s') s.
Proof.
  intros HO Hn Hs Hcl Hp. destruct (fo_node _ (proj1 HO) n nd Hn) as (sp0 & _ & Hok).
  unfold fil_node_prepare_for_io. apply wp_bind. eapply wp_load; [exact Hn|]. apply wp_bind.
  eapply (wp_mono _ (λ r s1, r = true ∧ HostOk s1 ∧ Rest s s1 ∧ ∃ nd1,
    fil_nodes (fs_system s1) = <[n := nd1]> (fil_nodes (fs_system s)) ∧ node_open nd1 = true ∧ node_sig nd1 = node_sig nd)).
  - destruct (node_open nd) eqn:Ho; cbn [negb].
    + apply wp_ret. split_and!; [done|done|done|]. exists nd. by rewrite insert_id.
    + destruct Hcl as [Hsz Hpr]; [done|]. apply wp_bind, wp_ASSERT; [apply Z.eqb_eq, Hok, Ho|].
      eapply wp_mono; [by eapply open_ok|]. intros r s1 (-> & ? & ? & h & E). split_and!; [done|done|done|].
      by eexists.
  - intros _ s1 (-> & HO1 & HR & nd1 & En & Ho1 & Hsig). cbn [negb]. pose proof HR as (Es & _).
    assert (Hn1 : fil_nodes (fs_system s1) !! n = Some nd1) by (by rewrite En, lookup_insert_eq).
    injection Hsig as Esp Ena Era Esz Ebe Epe.
    apply wp_bind. eapply wp_load; [cbn; by rewrite Hn1|]. cbn [option_map fmap option_fmap].
    apply wp_bind. eapply wp_load; [cbn; rewrite Es; exact Hs|].
    eapply wp_mono; [apply (pend_ok s1 n nd1 sp); [done|done|done|by rewrite Es, Esp|lia]|].
    intros r s2 (-> & HO2 & HR2 & En2). split; [done|]. split; [done|]. split.
    { destruct HR as (? & ? & ? & ?), HR2 as (? & ? & ? & ?). split_and!; congruence. }
    exists (fset node_n_pending (node_n_pending nd1 + 1) nd1). rewrite En2, En, insert_insert_eq.
    split_and!; [done|done|unfold node_ident; cbn; congruence|].
    cbn. rewrite Epe. apply wrap_small. pose proof (no_pending _ _ _ Hok). lia.
Qed.

(** The node after a write, with the modification counter [c]. *)
Definition completed sp c nd : fil_node_t :=
  let nd := fset node_modification_counter c (fset node_n_pending (node_n_pending nd - 1) nd) in
  if fil_buffering_disabled sp then fset node_flush_counter c nd else nd.

Lemma FilOk_completed fs n nd sp sp' l :
  FilOk fs → fil_nodes fs !! n = Some nd → fil_spaces fs !! node_space nd = Some sp →
  0 < node_n_pending nd → fil_modification_counter fs + 1 < 2 ^ 64 →
  space_core sp' = space_core sp →
  is_in_unflushed_spaces sp' = (is_in_unflushed_spaces sp || negb (fil_buffering_disabled sp)) →
  l = (if is_in_unflushed_spaces sp' && negb (is_in_unflushed_spaces sp)
       then node_space nd :: fil_unflushed_spaces fs else fil_unflushed_spaces fs) →
  FilOk (Mkfil_system_t (<[node_space nd := sp']> (fil_spaces fs))
    (<[n := completed sp (fil_modification_counter fs + 1) nd]> (fil_nodes fs))
    (if (node_n_pending nd - 1 =? 0) && fil_space_belongs_in_lru sp then n :: fil_LRU fs else fil_LRU fs)
    l (fil_n_open fs) (fil_max_n_open fs) (fil_modification_counter fs + 1)).
Proof.
  intros HO Hn Hs Hp Hc Hcore Hflag ->. destruct (fo_node _ HO n nd Hn) as (sp0 & Hs0 & Hok).
  rewrite Hs in Hs0. injection Hs0 as <-. pose proof (no_pending _ _ _ Hok) as Hp0.
  pose proof (no_counters _ _ _ Hok) as Hct. pose proof (fo_counter _ HO) as Hmc.
  assert (Ho : node_open nd = true).
  { destruct (node_open nd) eqn:E; [done|]. apply (no_open _ _ _ Hok) in E. lia. }
  set (fs1 := fset fil_unflushed_spaces (if is_in_unflushed_spaces sp' && negb (is_in_unflushed_spaces sp)
    then node_space nd :: fil_unflushed_spaces fs else fil_unflushed_spaces fs)
    (fset fil_spaces (<[node_space nd := sp']> (fil_spaces fs)) fs)).
  assert (HO1 : FilOk fs1).
  { unfold fs1. destruct (is_in_unflushed_spaces sp') eqn:E'; cbn [andb].
    - eapply FilOk_mark; [done|done|done|by left|]. rewrite E'. by destruct (is_in_unflushed_spaces sp).
    - symmetry in Hflag. apply orb_false_elim in Hflag as [E _].
      change (FilOk (fset fil_spaces (<[node_space nd := sp']> (fil_spaces fs)) fs)).
      eapply FilOk_space; [done|done|done|congruence]. }
  assert (Hn1 : fil_nodes fs1 !! n = Some nd) by done.
  assert (Hs1 : fil_spaces fs1 !! node_space nd = Some sp') by apply lookup_insert_eq.
  assert (Hl1 : evictable (fil_spaces fs1) nd = false).
  { unfold evictable. rewrite Ho. cbn. rewrite (proj2 (Z.eqb_neq (node_n_pending nd) 0)); [done|lia]. }
  set (nd' := completed sp (fil_modification_counter fs + 1) nd).
  assert (Hbel : fil_space_belongs_in_lru sp' = fil_space_belongs_in_lru sp).
  { injection Hcore as Hid _ Hpu. unfold fil_space_belongs_in_lru. by rewrite Hid, Hpu. }
  assert (Hnd' : node_space nd' = node_space nd ∧ node_open nd' = node_open nd ∧
    node_n_pending nd' = node_n_pending nd - 1 ∧ NodeOk (fil_modification_counter fs1 + 1) sp' nd').
  { unfold nd', completed. destruct (fil_buffering_disabled sp) eqn:Eb; cbn; rewrite ?wrap_small by lia;
      (split_and!; [done|done|done|]; destruct Hok; split; cbn; rewrite ?wrap_small by lia; try done; try lia; try congruence).
    intros _. split; [done|]. rewrite Hflag. apply orb_true_r. }
  destruct Hnd' as (Esp & Eo & Ep & Hok').
  pose proof (FilOk_update fs1 n nd nd' sp' (fil_modification_counter fs1 + 1) HO1 Hn1 Hs1 Esp) as HU.
  specialize (HU ltac:(cbn; lia) Hok'). unfold node_update in HU. rewrite (new_LRU_enter _ _ _ _ HO1 Hn1 Hl1) in HU.
  rewrite Eo in HU. replace (fil_n_open fs1 + bool_Z (node_open nd) - bool_Z (node_open nd)) with (fil_n_open fs) in HU
    by (cbn; lia).
  assert (El : evictable (fil_spaces fs1) nd' = (node_n_pending nd - 1 =? 0) && fil_space_belongs_in_lru sp).
  { unfold evictable. by rewrite Esp, Hs1, Hbel, Eo, Ho, Ep. }
  rewrite El in HU. exact HU.
Qed.

Lemma completed_same sp c nd :
  node_ident (completed sp c nd) = node_ident nd ∧ node_name (completed sp c nd) = node_name nd ∧
  node_handle (completed sp c nd) = node_handle nd ∧ node_open (completed sp c nd) = node_open nd ∧
  node_n_pending (completed sp c nd) = u64 (node_n_pending nd - 1).
Proof. unfold completed. by destruct (fil_buffering_disabled sp). Qed.

Definition Completed n nd s s' : Prop :=
  HostOk s' ∧ (∃ nd', fil_nodes (fs_system s') = <[n := nd']> (fil_nodes (fs_system s)) ∧
    node_ident nd' = node_ident nd ∧ node_n_pending nd' = node_n_pending nd - 1) ∧
  space_sig <$> fil_spaces (fs_system s') = space_sig <$> fil_spaces (fs_system s) ∧
  fil_max_n_open (fs_system s') = fil_max_n_open (fs_system s) ∧
  fil_modification_counter (fs_system s') = fil_modification_counter (fs_system s) + 1 ∧
  os_sent (fs_os s') = os_sent (fs_os s).

Lemma fset_flag_id sp : fset is_in_unflushed_spaces (is_in_unflushed_spaces sp) sp = sp.
Proof. by destruct sp. Qed.

Lemma complete_ok s n nd :
  HostOk s → fil_nodes (fs_system s) !! n = Some nd → 0 < node_n_pending nd →
  fil_modification_counter (fs_system s) + 1 < 2 ^ 64 →
  wp (fil_node_complete_io n OS_FILE_WRITE) (λ _ s', Completed n nd s s') s.
Proof.
  intros [HO HH] Hn Hp Hc. destruct (fo_node _ HO n nd Hn) as (sp & Hs & Hok). pose proof (no_pending _ _ _ Hok) as Hp0.
  pose proof (fo_counter _ HO) as Hmc.
  pose (sp' := fset is_in_unflushed_spaces (is_in_unflushed_spaces sp || negb (fil_buffering_disabled sp)) sp).
  pose proof (FilOk_completed _ n nd sp sp' _ HO Hn Hs Hp Hc eq_refl eq_refl eq_refl) as HU.
  assert (HH' : ∀ sps lru l no mx mc, HandlesOk (Mkfil_system_t sps
    (<[n := completed sp (fil_modification_counter (fs_system s) + 1) nd]> (fil_nodes (fs_system s))) lru l no mx mc) (fs_os s)).
  { intros. destruct (completed_same sp (fil_modification_counter (fs_system s) + 1) nd) as (? & ? & ? & ? & ?).
    by eapply (HandlesOk_update _ _ _ n nd). }
  destruct s as [[sps nds lru unf no mx mc] c lg w]. cbn in *.
  assert (Hend : ∀ sps' lru' l' c', FilOk (Mkfil_system_t sps' (<[n := completed sp (mc + 1) nd]> nds) lru' l' no mx (mc + 1)) →
    space_sig <$> sps' = space_sig <$> sps →
    Completed n nd (MkFilSt (Mkfil_system_t sps nds lru unf no mx mc) c lg w)
      (MkFilSt (Mkfil_system_t sps' (<[n := completed sp (mc + 1) nd]> nds) lru' l' no mx (mc + 1)) c' lg w)).
  { intros. destruct (completed_same sp (mc + 1) nd) as (? & _ & _ & _ & Ep). rewrite wrap_small in Ep by lia.
    split_and!; [split; [done|apply HH']| |done|done|done|done]. by eexists. }
  unfold fil_node_complete_io. apply wp_bind. eapply wp_load; [cbn; by rewrite Hn|]. cbn [option_map fmap option_fmap].
  apply wp_bind, wp_ASSERT; [by apply Z.gtb_lt|]. apply wp_bind. eapply wp_modify; [cbn; by rewrite Hn|]. cbn. rewrite Hn.
  apply wp_bind. eapply wp_load; [cbn; by rewrite lookup_insert_eq|]. cbn.
  apply wp_bind. eapply wp_load; [cbn; exact Hs|]. apply wp_bind. cbn.
  apply wp_bind. eapply wp_modify; [done|]. cbn. apply wp_bind. eapply wp_load; [done|]. cbn. rewrite (wrap_small 64 (mc + 1)) by lia.
  apply wp_bind. eapply wp_store; [cbn; by rewrite lookup_insert_eq|]. cbn. rewrite lookup_insert_eq, insert_insert_eq.
  match goal with |- wp _ _ ?s' => change s' with (MkFilSt (Mkfil_system_t sps (<[n := fset node_modification_counter
    (mc + 1) (fset node_n_pending (node_n_pending nd - 1) nd)]> nds) lru unf no mx (u64 (mc + 1))) c lg w) end.
  rewrite (wrap_small 64 (mc + 1)) by lia.
  eapply (wp_mono _ (λ _ s', ∃ sps' l', s' = MkFilSt (Mkfil_system_t sps' (<[n := completed sp (mc + 1) nd]> nds) lru l' no mx
    (mc + 1)) c lg w ∧ space_sig <$> sps' = space_sig <$> sps ∧ FilOk (Mkfil_system_t sps' (<[n := completed sp (mc + 1) nd]> nds)
    (if (node_n_pending nd - 1 =? 0) && fil_space_belongs_in_lru sp then n :: lru else lru) l' no mx (mc + 1)))).
  - unfold completed, sp' in *. destruct (fil_buffering_disabled sp).
    + eapply wp_store; [cbn; by rewrite lookup_insert_eq|]. cbn. rewrite lookup_insert_eq, insert_insert_eq.
      eexists sps, unf. split; [done|]. split; [done|].
      rewrite orb_false_r, fset_flag_id, insert_id, andb_negb_r in HU by done. exact HU.
    + apply wp_when; intros Ef.
      * apply negb_true_iff in Ef. apply wp_bind. eapply wp_store; [cbn; by rewrite Hs|]. eapply wp_modify; [done|].
        cbn. rewrite Hs. eexists _, _. split; [done|]. rewrite Ef in HU. split; [|exact HU].
        by apply (fmap_insert_same _ _ _ sp).
      * apply negb_false_iff in Ef. eexists sps, unf. split; [done|]. split; [done|].
        rewrite orb_true_r in HU. cbn in HU. rewrite <- Ef, fset_flag_id, insert_id in HU by done. by rewrite Ef in HU.
  - intros [] _ (sps' & l' & -> & Hsig & HF). apply wp_bind. eapply wp_load; [cbn; by rewrite lookup_insert_eq|].
    cbn [option_map fmap option_fmap]. rewrite (proj2 (proj2 (proj2 (proj2 (completed_same sp (mc + 1) nd))))).
    rewrite wrap_small by lia. apply wp_when; intros Hb; rewrite Hb in HF.
    + eapply wp_modify; [done|]. cbn. by apply Hend.
    + by apply Hend.
Qed.

(** ** The system call *)

(** The device's block of byte [offset] of a file. *)
Definition lba_of (name : string) (offset : Z) : Z :=
  u64 (u64 (os_block name (offset / os_block_size) * 8) + START_SECTOR) / 8.

Lemma lba_ok h name offset s :
  os_files (fs_os s) !! h = Some name → wp (buf_get_lba h offset) (λ r s', r = lba_of name offset ∧ s' = s) s.
Proof.
  intros Hh. unfold buf_get_lba, os_look. apply wp_bind, wp_bind. eapply wp_load; [done|]. apply wp_ret. cbn.
  rewrite law_blksize. apply wp_bind, wp_bind. eapply wp_load; [done|]. apply wp_ret. cbn.
  by rewrite (law_fibmap _ _ _ name).
Qed.

(** The command that writes the page of [name_w] at [offset_w] and reads the
    one of [name_r] at [offset_r]; both are as long as [UNIV_PAGE_SIZE]. *)
Definition page_command (buf : Z) (name_w : string) (offset_w : Z) (name_r : string) (offset_r : Z) :=
  let nlb := u32 (u32 UNIV_PAGE_SIZE / 4096 - 1) in
  rw_command buf UNIV_PAGE_SIZE nlb nlb (lba_of name_w offset_w) (lba_of name_r offset_r).

Lemma rw_io_ok mode hw hr buf buf_r name_w name_r offset_w offset_r s :
  (∀ c w, (os_ioctl c w).1 ≠ -1) →
  os_files (fs_os s) !! hw = Some name_w → os_files (fs_os s) !! hr = Some name_r →
  wp (os_rw_io_func OS_FILE_WRITE mode hw buf offset_w UNIV_PAGE_SIZE hr buf_r offset_r UNIV_PAGE_SIZE)
    (λ r s', r = true ∧ fs_system s' = fs_system s ∧ os_files (fs_os s') = os_files (fs_os s) ∧
      os_sent (fs_os s') = os_sent (fs_os s) ++ [page_command buf name_w offset_w name_r offset_r]) s.
Proof.
  intros Hup Hw Hr. unfold os_rw_io_func. apply wp_bind, wp_ASSERT; [done|].
  do 6 (apply wp_bind; eapply wp_modify; [done|]). rewrite Z.eqb_refl. apply wp_bind. cbn zeta.
  match goal with |- wp _ _ ?s' => set (s1 := s') end.
  assert (E1 : fs_os s1 = fs_os s ∧ fs_system s1 = fs_system s) by done. clearbody s1. destruct E1 as [Ew Es].
  apply wp_bind. eapply wp_mono; [apply lba_ok; rewrite Ew; exact Hw|]. intros _ _ [-> ->].
  apply wp_bind. eapply wp_mono; [apply lba_ok; rewrite Ew; exact Hr|]. intros _ _ [-> ->].
  apply wp_bind, wp_osM. rewrite (proj2 (Z.eqb_neq _ _) (Hup _ _)). apply wp_ret.
  do 4 (apply wp_bind; eapply wp_modify; [done|]). apply wp_ret. cbn. rewrite Ew.
  destruct (law_ioctl (page_command buf name_w offset_w name_r offset_r) (fs_os s)) as [Ef Et]. done.
Qed.

(** ** Pending I/O through a sequence of steps *)

(** Between [s] and [s'] the pending I/O of file [x] changes by [d x]. *)
Definition Delta (d : Z → Z) s s' : Prop :=
  ∀ x, match fil_nodes (fs_system s) !! x, fil_nodes (fs_system s') !! x with
       | Some a, Some b => node_ident b = node_ident a ∧ node_n_pending b = node_n_pending a + d x
       | None, None => True
       | _, _ => False
       end.

Lemma Delta_trans d d' s s' s'' : Delta d s s' → Delta d' s' s'' → Delta (λ x, d x + d' x) s s''.
Proof.
  intros HD HD' x. specialize (HD x). specialize (HD' x).
  destruct (fil_nodes (fs_system s) !! x), (fil_nodes (fs_system s') !! x), (fil_nodes (fs_system s'') !! x); try done.
  destruct HD, HD'. split; [congruence|lia].
Qed.

Lemma Delta_ext d d' s s' : (∀ x, d x = d' x) → Delta d s s' → Delta d' s s'.
Proof. intros E HD x. rewrite <- E. apply HD. Qed.

Lemma Delta_insert n nd nd' e s s' :
  fil_nodes (fs_system s) !! n = Some nd → fil_nodes (fs_system s') = <[n := nd']> (fil_nodes (fs_system s)) →
  node_ident nd' = node_ident nd → node_n_pending nd' = node_n_pending nd + e →
  Delta (λ x, if x =? n then e else 0) s s'.
Proof.
  intros Hn E Hi Hp x. rewrite E. destruct (Z.eqb_spec x n) as [->|].
  - by rewrite Hn, lookup_insert_eq.
  - rewrite lookup_insert_ne by done. destruct (fil_nodes (fs_system s) !! x); [|done]. split; [done|lia].
Qed.

Lemma Delta_zero d s s' :
  Delta d s s' → (∀ x, d x = 0) → node_sig <$> fil_nodes (fs_system s') = node_sig <$> fil_nodes (fs_system s).
Proof.
  intros HD Hz. apply map_eq. intros x. rewrite !lookup_fmap. specialize (HD x). rewrite Hz in HD.
  destruct (fil_nodes (fs_system s) !! x), (fil_nodes (fs_system s') !! x); try done. destruct HD as [Hi Hp].
  cbn. unfold node_sig. by rewrite Hi, Hp, Z.add_0_r.
Qed.

Lemma Delta_lookup d s s' x nd :
  Delta d s s' → fil_nodes (fs_system s) !! x = Some nd →
  ∃ nd', fil_nodes (fs_system s') !! x = Some nd' ∧ node_ident nd' = node_ident nd ∧
    node_n_pending nd' = node_n_pending nd + d x.
Proof.
  intros HD Hx. specialize (HD x). rewrite Hx in HD.
  destruct (fil_nodes (fs_system s') !! x) as [nd'|]; [by exists nd'|done].
Qed.
Lemma Same_Delta s s' : Same s s' → Delta (λ _, 0) s s'.
Proof.
  intros (_ & [= E _ _] & _) x. apply (f_equal (.!! x)) in E. rewrite !lookup_fmap in E.
  destruct (fil_nodes (fs_system s) !! x), (fil_nodes (fs_system s') !! x); try done.
  apply (inj Some) in E. unfold node_sig in E. injection E. intros. split; [unfold node_ident; congruence|lia].
Qed.

(** ** Writing and reading a page *)

(** Page [off] of space [k] is page [p] of the file [n], which is there and
    small enough for its byte offsets. *)
Record PageOf s k off n nd p : Prop := {
  po_off : 0 ≤ off;
  po_space : ∃ sp, fil_spaces (fs_system s) !! k = Some sp ∧
    sized (fil_nodes (fs_system s)) (fil_is_user_tablespace_id k) (chain sp) ∧
    space_pages (fil_nodes (fs_system s)) (chain sp) !! Z.to_nat off = Some (n, p);
  po_node : fil_nodes (fs_system s) !! n = Some nd;
  po_size : node_size nd * UNIV_PAGE_SIZE < 2 ^ 64;
  po_pending : node_n_pending nd + 2 < 2 ^ 64;
  po_present : os_present (node_name nd);
}.

Lemma space_pages_in m l n p :
  (n, p) ∈ space_pages m l → n ∈ l ∧ ∃ nd, m !! n = Some nd ∧ 0 ≤ p < node_size nd.
Proof.
  unfold space_pages. rewrite list_elem_of_bind. intros (x & Hp & Hx). unfold file_pages in Hp.
  destruct (m !! x) as [nd|] eqn:E; [|by apply not_elem_of_nil in Hp].
  apply list_elem_of_fmap in Hp as (q & [= -> ->] & Hq%elem_of_seqZ). split; [done|]. exists nd. split; [done|lia].
Qed.

Lemma page_in_file s k off n nd p :
  HostOk s → PageOf s k off n nd p → node_space nd = k ∧ 0 ≤ p < node_size nd.
Proof.
  intros [HO _] [_ (sp & Hk & _ & Hp) Hn _ _ _]. apply list_elem_of_lookup_2, space_pages_in in Hp as (Hin & nd' & Hn' & Hp).
  rewrite Hn in Hn'. injection Hn' as <-. apply (fo_chain _ HO k sp n Hk) in Hin as (nd' & Hn' & Hs). naive_solver.
Qed.

Lemma space_pages_Same s s' l :
  Same s s' → space_pages (fil_nodes (fs_system s')) l = space_pages (fil_nodes (fs_system s)) l.
Proof.
  intros HD%Same_Delta. unfold space_pages. induction l as [|n l IH]; [done|]. cbn. rewrite IH. f_equal.
  unfold file_pages. specialize (HD n).
  destruct (fil_nodes (fs_system s) !! n), (fil_nodes (fs_system s') !! n); try done.
  destruct HD as [[= _ _ _ -> _] _]. done.
Qed.
Lemma sized_Same s s' u l : Same s s' → sized (fil_nodes (fs_system s)) u l → sized (fil_nodes (fs_system s')) u l.
Proof.
  intros HD Hl. eapply Forall_impl; [exact Hl|]. intros n (nd & Hn & Hsz).
  destruct (Same_node _ _ _ _ HD Hn) as (nd' & Hn' & Hsig). exists nd'. split; [done|].
  unfold node_sig, node_ident in Hsig. injection Hsig. intros. congruence.
Qed.

Lemma PageOf_Same s s' k off n nd p :
  Same s s' → PageOf s k off n nd p → ∃ nd', PageOf s' k off n nd' p ∧ node_sig nd' = node_sig nd.
Proof.
  intros HD [Ho (sp & Hk & Hz & Hp) Hn Hsz Hpe Hpr]. destruct (Same_node _ _ _ _ HD Hn) as (nd' & Hn' & Hsig).
  destruct (Same_space _ _ _ _ HD Hk) as (sp' & Hk' & Hss). injection Hss as _ _ _ _ Ec _ _.
  exists nd'. split; [|done]. unfold node_sig, node_ident in Hsig. injection Hsig as _ Ena _ Esz _ Epe.
  split; [done| |done|congruence|congruence|congruence]. exists sp'. rewrite Ec. split; [done|].
  split; [by eapply sized_Same|by rewrite (space_pages_Same s)].
Qed.

Context `{!HostConfigOk}.

Lemma page_size_cases : UNIV_PAGE_SIZE = 4096 ∨ UNIV_PAGE_SIZE = 8192 ∨ UNIV_PAGE_SIZE = 16384.
Proof.
  pose proof page_size_shift_bound as Hb. unfold UNIV_PAGE_SIZE.
  assert (srv_page_size_shift = 12 ∨ srv_page_size_shift = 13 ∨ srv_page_size_shift = 14) as [->|[->| ->]] by lia; auto.
Qed.

Lemma byte_offset_ok nd p s :
  0 ≤ p < node_size nd → node_size nd * UNIV_PAGE_SIZE < 2 ^ 64 →
  wp (byte_offset_of 0 nd p 0 UNIV_PAGE_SIZE) (λ r s', r = p * UNIV_PAGE_SIZE ∧ s' = s) s.
Proof.
  intros Hp Hsz. unfold byte_offset_of. cbn [Z.eqb].
  assert (E : u64 (u64 (0 + UNIV_PAGE_SIZE) + (UNIV_PAGE_SIZE - 1)) / UNIV_PAGE_SIZE = 1)
    by (destruct page_size_cases as [->|[->| ->]]; reflexivity).
  assert (Hps : 4096 ≤ UNIV_PAGE_SIZE) by (destruct page_size_cases as [->|[->| ->]]; lia).
  rewrite E, (wrap_small 64 (node_size nd - p)) by nia. apply wp_bind, wp_ASSERT; [apply Z.geb_le; lia|].
  apply wp_ret. split; [|done]. pose proof page_size_shift_bound. 
  assert (Z.shiftl p srv_page_size_shift = p * UNIV_PAGE_SIZE) as ->
    by (unfold UNIV_PAGE_SIZE; rewrite !Z.shiftl_mul_pow2 by lia; lia).
  assert (0 ≤ p * UNIV_PAGE_SIZE ≤ node_size nd * UNIV_PAGE_SIZE)
    by (split; [apply Z.mul_nonneg_nonneg|apply Z.mul_le_mono_nonneg_r]; lia).
  rewrite Z.add_0_r, !wrap_small by (rewrite ?wrap_small; lia). done.
Qed.

Lemma Rest_spaces s s' : Rest s s' → space_sig <$> fil_spaces (fs_system s') = space_sig <$> fil_spaces (fs_system s).
Proof. by intros (-> & _). Qed.

Lemma in_bounds_ok sp nd off s : 0 ≤ off < node_size nd → wp (in_bounds sp nd off) (λ _ s', s' = s) s.
Proof. intros Hp. unfold in_bounds. apply wp_ASSERT; [|done]. by rewrite (proj2 (Z.leb_gt _ _)) by lia. Qed.

(** Both files are open with their new pending I/O, and still the files of the
    pages. *)
Definition Ready s s' n nd nr ndr : Prop :=
  HostOk s' ∧ Rest s s' ∧ Delta (λ x, (if x =? nr then 1 else 0) + (if x =? n then 1 else 0)) s s' ∧
  ∃ nd' ndr', fil_nodes (fs_system s') !! n = Some nd' ∧ node_open nd' = true ∧ node_ident nd' = node_ident nd ∧
    fil_nodes (fs_system s') !! nr = Some ndr' ∧ node_open ndr' = true ∧ node_ident ndr' = node_ident ndr.

Lemma prepare_both_ok {B} (k1 k2 : M (FilSt W) B) (kont : M (FilSt W) B) Φ s k off n nd p kr offr nr ndr pr :
  HostOk s → PageOf s k off n nd p → PageOf s kr offr nr ndr pr →
  (∀ s', Ready s s' n nd nr ndr → wp kont Φ s') →
  wp (ok_r <- fil_node_prepare_for_io nr kr ;; if negb ok_r then k1 else
      ok_w <- fil_node_prepare_for_io n k ;; if negb ok_w then k2 else kont) Φ s.
Proof.
  intros HO HPw HPr HΦ. destruct (page_in_file _ _ _ _ _ _ HO HPw) as [Ek Hp].
  destruct (page_in_file _ _ _ _ _ _ HO HPr) as [Ekr Hpr].
  destruct HPw as [_ (sp & Hk & _) Hn _ Hpe Hpres], HPr as [_ (spr & Hkr & _) Hnr _ Hper Hpresr].
  apply wp_bind. rewrite <- Ekr in Hkr |- *. eapply wp_mono; [eapply (prepare_ok s nr ndr spr); [done|done|done| |lia]|].
  { intros _. split; [lia|done]. }
  intros _ s1 (-> & HO1 & HR1 & ndr1 & En1 & Ho1 & Hi1 & Hp1). cbn [negb].
  pose proof (Delta_insert nr ndr ndr1 1 s s1 Hnr En1 Hi1 Hp1) as HD1.
  destruct (Delta_lookup _ _ _ _ _ HD1 Hn) as (nd1 & Hn1 & Hin1 & Hpn1).
  assert (node_space nd1 = k ∧ node_size nd1 = node_size nd ∧ node_name nd1 = node_name nd) as (Ek1 & Esz1 & Ena1)
    by (unfold node_ident in Hin1; injection Hin1; intros; subst; done).
  apply wp_bind. rewrite <- Ek1. destruct HR1 as (Es1 & Em1 & Ec1 & Et1).
  eapply wp_mono; [eapply (prepare_ok s1 n nd1 sp); [done|done|by rewrite Es1, Ek1| |]|].
  { intros _. split; [lia|congruence]. }
  { rewrite Hpn1. destruct (n =? nr); lia. }
  intros _ s2 (-> & HO2 & HR2 & nd2 & En2 & Ho2 & Hi2 & Hp2). cbn [negb].
  apply HΦ. split_and!; [done| | |].
  - destruct HR2 as (? & ? & ? & ?). split_and!; congruence.
  - eapply (Delta_trans _ _ _ s1); [exact HD1|]. by eapply Delta_insert.
  - exists nd2. rewrite En2, lookup_insert_eq. destruct (decide (nr = n)) as [->|Hne].
    + rewrite lookup_insert_eq. exists nd2. rewrite Hn in Hnr. injection Hnr as <-. split_and!; congruence.
    + rewrite lookup_insert_ne, En1, lookup_insert_eq by done. exists ndr1. split_and!; congruence.
Qed.

Lemma complete_both_ok s n nd nr ndr :
  HostOk s → fil_nodes (fs_system s) !! n = Some nd → fil_nodes (fs_system s) !! nr = Some ndr →
  0 < node_n_pending nd → (if nr =? n then 1 else 0) < node_n_pending ndr →
  fil_modification_counter (fs_system s) + 2 < 2 ^ 64 →
  wp (fil_node_complete_io n OS_FILE_WRITE ;; fil_node_complete_io nr OS_FILE_WRITE ;; ret DB_SUCCESS)
    (λ r s', r = DB_SUCCESS ∧ HostOk s' ∧
      Delta (λ x, (if x =? n then -1 else 0) + (if x =? nr then -1 else 0)) s s' ∧
      space_sig <$> fil_spaces (fs_system s') = space_sig <$> fil_spaces (fs_system s) ∧
      fil_max_n_open (fs_system s') = fil_max_n_open (fs_system s) ∧ os_sent (fs_os s') = os_sent (fs_os s)) s.
Proof.
  intros HO Hn Hnr Hp Hpr Hc. apply wp_bind. eapply wp_mono; [apply (complete_ok s n nd); [done|done|done|lia]|].
  intros [] s1 (HO1 & (nd1 & En1 & Hi1 & Hp1) & Es1 & Em1 & Ec1 & Et1).
  pose proof (Delta_insert n nd nd1 (-1) s s1 Hn En1 Hi1 Hp1) as HD1.
  destruct (Delta_lookup _ _ _ _ _ HD1 Hnr) as (ndr1 & Hnr1 & _ & Hpr1).
  apply wp_bind. eapply wp_mono; [apply (complete_ok s1 nr ndr1); [done|done| |lia]|].
  { rewrite Hpr1. destruct (nr =? n); lia. }
  intros [] s2 (HO2 & (ndr2 & En2 & Hi2 & Hp2) & Es2 & Em2 & Ec2 & Et2). apply wp_ret.
  split_and!; [done|done| |congruence..]. eapply Delta_trans; [exact HD1|]. by eapply Delta_insert.
Qed.

Lemma page_found s k off n nd p sp :
  PageOf s k off n nd p → HostOk s → fil_spaces (fs_system s) !! k = Some sp →
  find_node (fil_is_user_tablespace_id (space_id sp)) (chain sp) off s = Ok (Some (n, p)) s.
Proof.
  intros [Ho (sp' & Hk & Hz & Hp) _ _ _ _] [HO _] Hk'. rewrite Hk in Hk'. injection Hk' as <-.
  rewrite (proj1 (fo_space _ HO k sp' Hk)), find_node_pages, Hp by done. done.
Qed.

Lemma transfer_ok mode buf s s1 k off n nd p kr offr nr ndr pr sp spr :
  (∀ c w, (os_ioctl c w).1 ≠ -1) →
  HostOk s → PageOf s k off n nd p → PageOf s kr offr nr ndr pr → Ready s s1 n nd nr ndr →
  fil_modification_counter (fs_system s) + 2 < 2 ^ 64 →
  wp (rw_transfer OS_FILE_WRITE mode 0 sp spr n p nr pr 0 UNIV_PAGE_SIZE buf)
    (λ r s', r = DB_SUCCESS ∧ HostOk s' ∧ outline (fs_system s') = outline (fs_system s) ∧
      os_sent (fs_os s') = os_sent (fs_os s) ++
        [page_command buf (node_name nd) (p * UNIV_PAGE_SIZE) (node_name ndr) (pr * UNIV_PAGE_SIZE)]) s1.
Proof.
  intros Hup HO HPw HPr (HO1 & (Es1 & Em1 & Ec1 & Et1) & HD1 & nd1 & ndr1 & Hn1 & Ho1 & Hi1 & Hnr1 & Hor1 & Hir1) Hc.
  destruct (page_in_file _ _ _ _ _ _ HO HPw) as [_ Hp], (page_in_file _ _ _ _ _ _ HO HPr) as [_ Hpr].
  assert (node_size nd1 = node_size nd ∧ node_name nd1 = node_name nd) as (Esz & Ena)
    by (unfold node_ident in Hi1; injection Hi1; intros; subst; done).
  assert (node_size ndr1 = node_size ndr ∧ node_name ndr1 = node_name ndr) as (Eszr & Enar)
    by (unfold node_ident in Hir1; injection Hir1; intros; subst; done).
  unfold rw_transfer. apply wp_bind. eapply wp_load; [exact Hnr1|]. apply wp_bind. eapply wp_load; [exact Hn1|].
  apply wp_bind. eapply wp_mono; [apply in_bounds_ok; lia|]. intros [] _ ->.
  apply wp_bind. eapply wp_mono; [apply in_bounds_ok; lia|]. intros [] _ ->.
  apply wp_bind. eapply wp_mono; [apply byte_offset_ok; [lia|rewrite Eszr; apply HPr]|]. intros _ _ [-> ->].
  apply wp_bind. eapply wp_mono; [apply byte_offset_ok; [lia|rewrite Esz; apply HPw]|]. intros _ _ [-> ->].
  apply wp_bind, wp_ASSERT; [done|]. apply wp_bind, wp_ASSERT; [by destruct page_size_cases as [->|[->| ->]]|].
  apply wp_bind. eapply wp_mono.
  { apply (rw_io_ok mode (node_handle nd1) (node_handle ndr1) buf buf (node_name nd1) (node_name ndr1)); [done|..];
      eapply ho_name; try apply HO1; eassumption. }
  intros _ s2 (-> & Es2 & Ef2 & Et2). apply wp_bind, wp_ASSERT; [done|].
  assert (HO2 : HostOk s2).
  { split; [by rewrite Es2; apply HO1|]. rewrite Es2. eapply HandlesOk_files; [exact Ef2|apply HO1]. }
  destruct (Delta_lookup _ _ _ _ _ HD1 (po_node _ _ _ _ _ _ HPw)) as (nd1' & Hn1' & _ & Hpe).
  destruct (Delta_lookup _ _ _ _ _ HD1 (po_node _ _ _ _ _ _ HPr)) as (ndr1' & Hnr1' & _ & Hper).
  destruct (fo_node _ (proj1 HO) _ _ (po_node _ _ _ _ _ _ HPw)) as (? & _ & Hok).
  destruct (fo_node _ (proj1 HO) _ _ (po_node _ _ _ _ _ _ HPr)) as (? & _ & Hokr).
  pose proof (no_pending _ _ _ Hok). pose proof (no_pending _ _ _ Hokr). rewrite !Z.eqb_refl in *.
  eapply wp_mono; [apply (complete_both_ok s2 n nd1' nr ndr1'); [done|by rewrite Es2|by rewrite Es2| | |rewrite Es2; lia]|].
  { destruct (n =? nr); lia. } { destruct (nr =? n); lia. }
  intros _ s3 (-> & HO3 & HD3 & Es3 & Em3 & Et3). split_and!; [done|done| |by rewrite Et3, Et2, Et1, Ena, Enar].
  unfold outline. rewrite Es3, Em3, Es2, Em1, Es1. f_equal. f_equal.
  assert (HD2 : Delta (λ _, 0) s1 s2).
  { intros z. rewrite Es2. destruct (fil_nodes (fs_system s1) !! z); [|done]. split; [done|lia]. }
  eapply Delta_zero; [eapply Delta_trans; [exact HD1|eapply Delta_trans; [exact HD2|exact HD3]]|].
  intros z. cbn beta. destruct (z =? n), (z =? nr); reflexivity.
Qed.

Lemma rw_call_ok fuel type buf s k off n nd p kr offr nr ndr pr :
  (∀ c w, (os_ioctl c w).1 ≠ -1) →
  HostOk s → PageOf s k off n nd p → PageOf s kr offr nr ndr pr →
  stopped (fs_system s) k && stopped (fs_system s) kr = false →
  fil_modification_counter (fs_system s) + 2 < 2 ^ 64 → (3 ≤ fuel)%nat →
  type = OS_FILE_WRITE ∨ type = Z.lor OS_FILE_WRITE OS_AIO_SIMULATED_WAKE_LATER →
  wp (fil_io_with_rw_cmd fuel type k 0 off 0 UNIV_PAGE_SIZE buf kr offr)
    (λ r s', r = DB_SUCCESS ∧ HostOk s' ∧ outline (fs_system s') = outline (fs_system s) ∧
      os_sent (fs_os s') = os_sent (fs_os s) ++
        [page_command buf (node_name nd) (p * UNIV_PAGE_SIZE) (node_name ndr) (pr * UNIV_PAGE_SIZE)]) s.
Proof.
  intros Hup HO HPw HPr Hst Hc Hf Hty. unfold fil_io_with_rw_cmd.
  assert (Z.land (Z.land type (Z.lnot OS_AIO_SIMULATED_WAKE_LATER)) (Z.lnot BUF_READ_IGNORE_NONEXISTENT_PAGES) = OS_FILE_WRITE)
    as -> by (by destruct Hty as [->| ->]). cbn zeta.
  apply wp_bind. eapply wp_modify; [done|]. apply wp_bind. eapply wp_modify; [done|].
  match goal with |- wp _ _ ?s' => set (s0 := s') end.
  assert (HS0 : Same s s0) by (destruct s; done). clearbody s0.
  destruct (po_space _ _ _ _ _ _ HPw) as (sp & Hk & _ & Hpg), (po_space _ _ _ _ _ _ HPr) as (spr & Hkr & _ & Hpgr).
  apply wp_bind. eapply wp_mono; [apply enter_ok; [apply HS0| | | |done]|].
  { by rewrite !(Same_stopped _ _ _ HS0). }
  { eapply Same_chained; [exact HS0|]. unfold chained. rewrite Hk. intros E. by rewrite E in Hpg. }
  { eapply Same_chained; [exact HS0|]. unfold chained. rewrite Hkr. intros E. by rewrite E in Hpgr. }
  intros [] s1 HS1. pose proof (Same_trans _ _ _ HS0 HS1) as HS. clear s0 HS0 HS1.
  destruct (PageOf_Same _ _ _ _ _ _ _ HS HPw) as (nd1 & HPw1 & Hsig), (PageOf_Same _ _ _ _ _ _ _ HS HPr) as (ndr1 & HPr1 & Hsigr).
  destruct HS as (HO1 & Eo & Ec & Et).
  destruct (po_space _ _ _ _ _ _ HPw1) as (sp1 & Hk1 & _), (po_space _ _ _ _ _ _ HPr1) as (spr1 & Hkr1 & _).
  apply wp_bind. eapply wp_load; [exact Hk1|]. apply wp_bind. eapply wp_load; [exact Hkr1|].
  apply wp_bind. unfold wp at 1. rewrite (page_found _ _ _ _ _ _ _ HPr1 HO1 Hkr1).
  apply wp_bind. unfold wp at 1. rewrite (page_found _ _ _ _ _ _ _ HPw1 HO1 Hk1).
  eapply prepare_both_ok; [exact HO1|exact HPw1|exact HPr1|]. intros s2 HR.
  eapply wp_mono; [eapply (transfer_ok _ buf s1 s2); [done|done|exact HPw1|exact HPr1|done|lia]|].
  intros r s3 (-> & HO3 & Eo3 & Et3). rewrite Eo3, Et3, Eo, Et.
  assert (node_name nd1 = node_name nd ∧ node_name ndr1 = node_name ndr) as [-> ->]; [|done].
  unfold node_sig, node_ident in Hsig, Hsigr. by injection Hsig; injection Hsigr.
Qed.


Lemma prepare_fails s n nd k sp :
  HostOk s → fil_nodes (fs_system s) !! n = Some nd → node_size nd = 0 → fil_spaces (fs_system s) !! k = Some sp →
  (∀ w, os_open_simple (node_name nd) w = (None, w)) →
  wp (fil_node_prepare_for_io n k) (λ r s', r = false ∧ s' = s) s.
Proof.
  intros [HO _] Hn Hsz Hk Hno. destruct (fo_node _ HO n nd Hn) as (sp0 & _ & Hok).
  assert (Ho : node_open nd = false).
  { destruct (node_open nd) eqn:E; [|done]. by destruct (no_sized _ _ _ Hok E). }
  pose proof (proj2 (Z.eqb_eq _ _) (no_open _ _ _ Hok Ho)) as Hp.
  unfold fil_node_prepare_for_io. apply wp_bind. eapply wp_load; [exact Hn|]. rewrite Ho. cbn [negb].
  apply wp_bind, wp_bind, wp_ASSERT; [exact Hp|]. unfold fil_node_open_file. apply wp_bind. eapply wp_load; [exact Hn|].
  apply wp_bind, wp_ASSERT; [exact Hp|]. apply wp_bind, wp_ASSERT; [by rewrite Ho|]. rewrite Hsz. cbn [Z.eqb].
  apply wp_bind. unfold learn_size. apply wp_bind. eapply wp_load; [exact Hn|]. apply wp_bind. eapply wp_load; [exact Hk|].
  apply wp_bind, wp_osM. rewrite Hno. cbn [fst snd]. apply wp_ret. cbn [negb]. apply wp_ret. cbn [negb]. by destruct s.
Qed.

(** C30: An I/O that is never completed.  When the file to write is a tablespace
    whose size is not known yet and whose file cannot be opened, the call
    returns DB_TABLESPACE_DELETED, but the file to read keeps the pending I/O
    that was booked for it: it can never be closed again. *)
Theorem failed_write_leaks_the_read fuel type buf s k off n l nd sp kr offr nr ndr pr :
  HostOk s → PageOf s kr offr nr ndr pr →
  fil_spaces (fs_system s) !! k = Some sp → chain sp = n :: l → purpose sp = FIL_TABLESPACE →
  fil_is_user_tablespace_id k = true → fil_nodes (fs_system s) !! n = Some nd →
  node_size nd = 0 → (∀ w, os_open_simple (node_name nd) w = (None, w)) →
  stopped (fs_system s) k && stopped (fs_system s) kr = false → (3 ≤ fuel)%nat →
  wp (fil_io_with_rw_cmd fuel type k 0 off 0 UNIV_PAGE_SIZE buf kr offr)
    (λ r s', r = DB_TABLESPACE_DELETED ∧ os_sent (fs_os s') = os_sent (fs_os s) ∧
      Delta (λ x, if x =? nr then 1 else 0) s s') s.
Proof.
  intros HO HPr Hk Hch Hpu Hu Hn Hsz Hno Hst Hf. unfold fil_io_with_rw_cmd.
  apply wp_bind. eapply wp_modify; [done|]. apply wp_bind. eapply wp_modify; [done|].
  match goal with |- wp _ _ ?s' => set (s0 := s') end.
  assert (HS0 : Same s s0) by (destruct s; done). clearbody s0.
  destruct (po_space _ _ _ _ _ _ HPr) as (spr & Hkr & _ & Hpgr).
  apply wp_bind. eapply wp_mono; [apply enter_ok; [apply HS0| | | |done]|].
  { by rewrite !(Same_stopped _ _ _ HS0). }
  { eapply Same_chained; [exact HS0|]. unfold chained. by rewrite Hk, Hch. }
  { eapply Same_chained; [exact HS0|]. unfold chained. rewrite Hkr. intros E. by rewrite E in Hpgr. }
  intros [] s1 HS1. pose proof (Same_trans _ _ _ HS0 HS1) as HS. clear s0 HS0 HS1.
  destruct (PageOf_Same _ _ _ _ _ _ _ HS HPr) as (ndr1 & HPr1 & Hsigr). pose proof (Same_Delta _ _ HS) as HD.
  destruct (Same_node _ _ _ _ HS Hn) as (nd1 & Hn1 & Hsig), (Same_space _ _ _ _ HS Hk) as (sp1 & Hk1 & Hss).
  destruct HS as (HO1 & _ & _ & Et). unfold space_sig in Hss. injection Hss as Eid _ _ Epu Ech _ _.
  unfold node_sig, node_ident in Hsig. injection Hsig as Esp Ena _ Esz _ _. 
  destruct (po_space _ _ _ _ _ _ HPr1) as (spr1 & Hkr1 & _).
  apply wp_bind. eapply wp_load; [exact Hk1|]. apply wp_bind. eapply wp_load; [exact Hkr1|].
  apply wp_bind. unfold wp at 1. rewrite (page_found _ _ _ _ _ _ _ HPr1 HO1 Hkr1).
  assert (Huser : fil_is_user_tablespace_id (space_id sp1) = true).
  { by rewrite (proj1 (fo_space _ (proj1 HO1) k sp1 Hk1)). }
  rewrite Ech, Hch, Huser. apply wp_bind. cbn [find_node]. apply wp_bind. eapply wp_load; [exact Hn1|].
  rewrite Esz, Hsz. cbn [andb Z.eqb]. apply wp_ret.
  destruct (page_in_file _ _ _ _ _ _ HO1 HPr1) as [Ekr Hpr].
  apply wp_bind. rewrite <- Ekr in Hkr1 |- *. eapply wp_mono; [eapply (prepare_ok s1 nr ndr1 spr1); [done|apply HPr1|done| |]|].
  { intros _. split; [lia|apply HPr1]. } { pose proof (po_pending _ _ _ _ _ _ HPr1). lia. }
  intros _ s2 (-> & HO2 & (Es2 & _ & _ & Et2) & ndr2 & En2 & _ & Hi2 & Hp2). cbn [negb].
  assert (Hne : n ≠ nr) by (intros ->; pose proof (po_node _ _ _ _ _ _ HPr1); simplify_eq; lia).
  apply wp_bind. eapply wp_mono; [apply (prepare_fails s2 n nd1 k sp1); [done|by rewrite En2, lookup_insert_ne|congruence|by rewrite Es2|by rewrite Ena]|].
  intros _ _ [-> ->]. cbn [negb]. unfold open_failed. rewrite Epu, Hpu, Huser. apply wp_ret.
  split; [done|]. split; [congruence|].
  eapply Delta_ext; [|eapply Delta_trans; [exact HD|eapply Delta_insert; [apply HPr1|exact En2|done|done]]]. done.
Qed.
End calls.
