(* ===== verification/BufLru.v ===== *)
(** The buffer pool of the database server, its lists (buf0lru.cc, buf0buf.ic):
    control blocks, the LRU list with its midpoint, the free list.  One buffer
    pool instance, as one thread runs it; mutexes are not modelled.  Tables are
    not compressed: zip.data is NULL and zip_size is 0, so the branches for
    compressed pages are not taken and are left out.  It is not recovery:
    flush_rbt is NULL and recv_recovery_on is false.

    A pointer to a control block is the key of the block; buf_page_t is the first
    member of buf_block_t, so the two have the same address and are one record.
    A UT_LIST is the list of its members.  An [ulint] has 64 bits. *)
From S2P Require Import Prelude Frame HostLld Crc32 Fil PageFormat FilInv.

Inductive buf_page_state :=
| BUF_BLOCK_POOL_WATCH
| BUF_BLOCK_ZIP_PAGE
| BUF_BLOCK_ZIP_DIRTY
| BUF_BLOCK_NOT_USED
| BUF_BLOCK_READY_FOR_USE
| BUF_BLOCK_FILE_PAGE
| BUF_BLOCK_MEMORY
| BUF_BLOCK_REMOVE_HASH.
Inductive buf_io_fix := BUF_IO_NONE | BUF_IO_READ | BUF_IO_WRITE | BUF_IO_PIN.
Inductive buf_flush_t := BUF_FLUSH_LRU | BUF_FLUSH_LIST | BUF_FLUSH_SINGLE_PAGE.
(** The latch on a frame: the number of readers, or a writer. *)
Inductive latch := Shared (readers : nat) | Exclusive.

#[global] Instance buf_page_state_eq_dec : EqDecision buf_page_state.
Proof. solve_decision. Defined.
#[global] Instance buf_io_fix_eq_dec : EqDecision buf_io_fix.
Proof. solve_decision. Defined.
#[global] Instance buf_flush_t_eq_dec : EqDecision buf_flush_t.
Proof. solve_decision. Defined.
#[global] Instance latch_eq_dec : EqDecision latch.
Proof. solve_decision. Defined.

Definition BUF_LRU_OLD_MIN_LEN := 512.
Definition BUF_LRU_OLD_RATIO_DIV := 1024.
Definition BUF_LRU_OLD_RATIO_MAX := BUF_LRU_OLD_RATIO_DIV.
Definition BUF_LRU_OLD_RATIO_MIN := 51.
Definition BUF_LRU_OLD_TOLERANCE := 20.
Definition BUF_LRU_NON_OLD_MIN_LEN := 5.
Definition ULINT32_UNDEFINED := 0xFFFFFFFF.


(** A control block: buf_page_t up to target_rw_cmd, then buf_block_t. *)
Record buf_block_t := Mkbuf_block_t {
  bp_space : Z;
  bp_offset : Z;
  buf_fix_count : Z;
  io_fix : buf_io_fix;
  bp_state : buf_page_state;
  flush_type : buf_flush_t;
  newest_modification : Z;  (** 64 bits *)
  oldest_modification : Z;  (** 64 bits *)
  bp_old : bool;
  bp_freed_page_clock : Z;  (** 31 bits *)
  access_time : Z;
  target_rw_cmd : bool;
  frame : page_t;
  use_rw_cmd : bool;
  bl_lock : latch;
  lock_hash_val : Z;
  check_index_page_at_flush : bool;
  modify_clock : Z;  (** 64 bits *)
  n_hash_helps : Z;  (** 64 bits *)
  n_fields : Z;  (** 64 bits *)
  n_bytes : Z;  (** 64 bits *)
  left_side : bool;
  bl_index : option Z;
}.
#[global] Instance set_bp_space : Field bp_space := λ v r,
  Mkbuf_block_t (wrap 32 v) (bp_offset r) (buf_fix_count r) (io_fix r) (bp_state r) (flush_type r) (newest_modification r) (oldest_modification r) (bp_old r) (bp_freed_page_clock r) (access_time r) (target_rw_cmd r) (frame r) (use_rw_cmd r) (bl_lock r) (lock_hash_val r) (check_index_page_at_flush r) (modify_clock r) (n_hash_helps r) (n_fields r) (n_bytes r) (left_side r) (bl_index r).
#[global] Instance set_bp_offset : Field bp_offset := λ v r,
  Mkbuf_block_t (bp_space r) (wrap 32 v) (buf_fix_count r) (io_fix r) (bp_state r) (flush_type r) (newest_modification r) (oldest_modification r) (bp_old r) (bp_freed_page_clock r) (access_time r) (target_rw_cmd r) (frame r) (use_rw_cmd r) (bl_lock r) (lock_hash_val r) (check_index_page_at_flush r) (modify_clock r) (n_hash_helps r) (n_fields r) (n_bytes r) (left_side r) (bl_index r).
#[global] Instance set_buf_fix_count : Field buf_fix_count := λ v r,
  Mkbuf_block_t (bp_space r) (bp_offset r) (wrap 32 v) (io_fix r) (bp_state r) (flush_type r) (newest_modification r) (oldest_modification r) (bp_old r) (bp_freed_page_clock r) (access_time r) (target_rw_cmd r) (frame r) (use_rw_cmd r) (bl_lock r) (lock_hash_val r) (check_index_page_at_flush r) (modify_clock r) (n_hash_helps r) (n_fields r) (n_bytes r) (left_side r) (bl_index r).
#[global] Instance set_io_fix : Field io_fix := λ v r,
  Mkbuf_block_t (bp_space r) (bp_offset r) (buf_fix_count r) v (bp_state r) (flush_type r) (newest_modification r) (oldest_modification r) (bp_old r) (bp_freed_page_clock r) (access_time r) (target_rw_cmd r) (frame r) (use_rw_cmd r) (bl_lock r) (lock_hash_val r) (check_index_page_at_flush r) (modify_clock r) (n_hash_helps r) (n_fields r) (n_bytes r) (left_side r) (bl_index r).
#[global] Instance set_bp_state : Field bp_state := λ v r,
  Mkbuf_block_t (bp_space r) (bp_offset r) (buf_fix_count r) (io_fix r) v (flush_type r) (newest_modification r) (oldest_modification r) (bp_old r) (bp_freed_page_clock r) (access_time r) (target_rw_cmd r) (frame r) (use_rw_cmd r) (bl_lock r) (lock_hash_val r) (check_index_page_at_flush r) (modify_clock r) (n_hash_helps r) (n_fields r) (n_bytes r) (left_side r) (bl_index r).
#[global] Instance set_flush_type : Field flush_type := λ v r,
  Mkbuf_block_t (bp_space r) (bp_offset r) (buf_fix_count r) (io_fix r) (bp_state r) v (newest_modification r) (oldest_modification r) (bp_old r) (bp_freed_page_clock r) (access_time r) (target_rw_cmd r) (frame r) (use_rw_cmd r) (bl_lock r) (lock_hash_val r) (check_index_page_at_flush r) (modify_clock r) (n_hash_helps r) (n_fields r) (n_bytes r) (left_side r) (bl_index r).
#[global] Instance set_newest_modification : Field newest_modification := λ v r,
  Mkbuf_block_t (bp_space r) (bp_offset r) (buf_fix_count r) (io_fix r) (bp_state r) (flush_type r) (wrap 64 v) (oldest_modification r) (bp_old r) (bp_freed_page_clock r) (access_time r) (target_rw_cmd r) (frame r) (use_rw_cmd r) (bl_lock r) (lock_hash_val r) (check_index_page_at_flush r) (modify_clock r) (n_hash_helps r) (n_fields r) (n_bytes r) (left_side r) (bl_index r).
#[global] Instance set_oldest_modification : Field oldest_modification := λ v r,
  Mkbuf_block_t (bp_space r) (bp_offset r) (buf_fix_count r) (io_fix r) (bp_state r) (flush_type r) (newest_modification r) (wrap 64 v) (bp_old r) (bp_freed_page_clock r) (access_time r) (target_rw_cmd r) (frame r) (use_rw_cmd r) (bl_lock r) (lock_hash_val r) (check_index_page_at_flush r) (modify_clock r) (n_hash_helps r) (n_fields r) (n_bytes r) (left_side r) (bl_index r).
#[global] Instance set_bp_old : Field bp_old := λ v r,
  Mkbuf_block_t (bp_space r) (bp_offset r) (buf_fix_count r) (io_fix r) (bp_state r) (flush_type r) (newest_modification r) (oldest_modification r) v (bp_freed_page_clock r) (access_time r) (target_rw_cmd r) (frame r) (use_rw_cmd r) (bl_lock r) (lock_hash_val r) (check_index_page_at_flush r) (modify_clock r) (n_hash_helps r) (n_fields r) (n_bytes r) (left_side r) (bl_index r).
#[global] Instance set_bp_freed_page_clock : Field bp_freed_page_clock := λ v r,
  Mkbuf_block_t (bp_space r) (bp_offset r) (buf_fix_count r) (io_fix r) (bp_state r) (flush_type r) (newest_modification r) (oldest_modification r) (bp_old r) (wrap 31 v) (access_time r) (target_rw_cmd r) (frame r) (use_rw_cmd r) (bl_lock r) (lock_hash_val r) (check_index_page_at_flush r) (modify_clock r) (n_hash_helps r) (n_fields r) (n_bytes r) (left_side r) (bl_index r).
#[global] Instance set_access_time : Field access_time := λ v r,
  Mkbuf_block_t (bp_space r) (bp_offset r) (buf_fix_count r) (io_fix r) (bp_state r) (flush_type r) (newest_modification r) (oldest_modification r) (bp_old r) (bp_freed_page_clock r) (wrap 32 v) (target_rw_cmd r) (frame r) (use_rw_cmd r) (bl_lock r) (lock_hash_val r) (check_index_page_at_flush r) (modify_clock r) (n_hash_helps r) (n_fields r) (n_bytes r) (left_side r) (bl_index r).
#[global] Instance set_target_rw_cmd : Field target_rw_cmd := λ v r,
  Mkbuf_block_t (bp_space r) (bp_offset r) (buf_fix_count r) (io_fix r) (bp_state r) (flush_type r) (newest_modification r) (oldest_modification r) (bp_old r) (bp_freed_page_clock r) (access_time r) v (frame r) (use_rw_cmd r) (bl_lock r) (lock_hash_val r) (check_index_page_at_flush r) (modify_clock r) (n_hash_helps r) (n_fields r) (n_bytes r) (left_side r) (bl_index r).
#[global] Instance set_frame : Field frame := λ v r,
  Mkbuf_block_t (bp_space r) (bp_offset r) (buf_fix_count r) (io_fix r) (bp_state r) (flush_type r) (newest_modification r) (oldest_modification r) (bp_old r) (bp_freed_page_clock r) (access_time r) (target_rw_cmd r) v (use_rw_cmd r) (bl_lock r) (lock_hash_val r) (check_index_page_at_flush r) (modify_clock r) (n_hash_helps r) (n_fields r) (n_bytes r) (left_side r) (bl_index r).
#[global] Instance set_use_rw_cmd : Field use_rw_cmd := λ v r,
  Mkbuf_block_t (bp_space r) (bp_offset r) (buf_fix_count r) (io_fix r) (bp_state r) (flush_type r) (newest_modification r) (oldest_modification r) (bp_old r) (bp_freed_page_clock r) (access_time r) (target_rw_cmd r) (frame r) v (bl_lock r) (lock_hash_val r) (check_index_page_at_flush r) (modify_clock r) (n_hash_helps r) (n_fields r) (n_bytes r) (left_side r) (bl_index r).
#[global] Instance set_bl_lock : Field bl_lock := λ v r,
  Mkbuf_block_t (bp_space r) (bp_offset r) (buf_fix_count r) (io_fix r) (bp_state r) (flush_type r) (newest_modification r) (oldest_modification r) (bp_old r) (bp_freed_page_clock r) (access_time r) (target_rw_cmd r) (frame r) (use_rw_cmd r) v (lock_hash_val r) (check_index_page_at_flush r) (modify_clock r) (n_hash_helps r) (n_fields r) (n_bytes r) (left_side r) (bl_index r).
#[global] Instance set_lock_hash_val : Field lock_hash_val := λ v r,
  Mkbuf_block_t (bp_space r) (bp_offset r) (buf_fix_count r) (io_fix r) (bp_state r) (flush_type r) (newest_modification r) (oldest_modification r) (bp_old r) (bp_freed_page_clock r) (access_time r) (target_rw_cmd r) (frame r) (use_rw_cmd r) (bl_lock r) (wrap 32 v) (check_index_page_at_flush r) (modify_clock r) (n_hash_helps r) (n_fields r) (n_bytes r) (left_side r) (bl_index r).
#[global] Instance set_check_index_page_at_flush : Field check_index_page_at_flush := λ v r,
  Mkbuf_block_t (bp_space r) (bp_offset r) (buf_fix_count r) (io_fix r) (bp_state r) (flush_type r) (newest_modification r) (oldest_modification r) (bp_old r) (bp_freed_page_clock r) (access_time r) (target_rw_cmd r) (frame r) (use_rw_cmd r) (bl_lock r) (lock_hash_val r) v (modify_clock r) (n_hash_helps r) (n_fields r) (n_bytes r) (left_side r) (bl_index r).
#[global] Instance set_modify_clock : Field modify_clock := λ v r,
  Mkbuf_block_t (bp_space r) (bp_offset r) (buf_fix_count r) (io_fix r) (bp_state r) (flush_type r) (newest_modification r) (oldest_modification r) (bp_old r) (bp_freed_page_clock r) (access_time r) (target_rw_cmd r) (frame r) (use_rw_cmd r) (bl_lock r) (lock_hash_val r) (check_index_page_at_flush r) (wrap 64 v) (n_hash_helps r) (n_fields r) (n_bytes r) (left_side r) (bl_index r).
#[global] Instance set_n_hash_helps : Field n_hash_helps := λ v r,
  Mkbuf_block_t (bp_space r) (bp_offset r) (buf_fix_count r) (io_fix r) (bp_state r) (flush_type r) (newest_modification r) (oldest_modification r) (bp_old r) (bp_freed_page_clock r) (access_time r) (target_rw_cmd r) (frame r) (use_rw_cmd r) (bl_lock r) (lock_hash_val r) (check_index_page_at_flush r) (modify_clock r) (wrap 64 v) (n_fields r) (n_bytes r) (left_side r) (bl_index r).
#[global] Instance set_n_fields : Field n_fields := λ v r,
  Mkbuf_block_t (bp_space r) (bp_offset r) (buf_fix_count r) (io_fix r) (bp_state r) (flush_type r) (newest_modification r) (oldest_modification r) (bp_old r) (bp_freed_page_clock r) (access_time r) (target_rw_cmd r) (frame r) (use_rw_cmd r) (bl_lock r) (lock_hash_val r) (check_index_page_at_flush r) (modify_clock r) (n_hash_helps r) (wrap 64 v) (n_bytes r) (left_side r) (bl_index r).
#[global] Instance set_n_bytes : Field n_bytes := λ v r,
  Mkbuf_block_t (bp_space r) (bp_offset r) (buf_fix_count r) (io_fix r) (bp_state r) (flush_type r) (newest_modification r) (oldest_modification r) (bp_old r) (bp_freed_page_clock r) (access_time r) (target_rw_cmd r) (frame r) (use_rw_cmd r) (bl_lock r) (lock_hash_val r) (check_index_page_at_flush r) (modify_clock r) (n_hash_helps r) (n_fields r) (wrap 64 v) (left_side r) (bl_index r).
#[global] Instance set_left_side : Field left_side := λ v r,
  Mkbuf_block_t (bp_space r) (bp_offset r) (buf_fix_count r) (io_fix r) (bp_state r) (flush_type r) (newest_modification r) (oldest_modification r) (bp_old r) (bp_freed_page_clock r) (access_time r) (target_rw_cmd r) (frame r) (use_rw_cmd r) (bl_lock r) (lock_hash_val r) (check_index_page_at_flush r) (modify_clock r) (n_hash_helps r) (n_fields r) (n_bytes r) v (bl_index r).
#[global] Instance set_bl_index : Field bl_index := λ v r,
  Mkbuf_block_t (bp_space r) (bp_offset r) (buf_fix_count r) (io_fix r) (bp_state r) (flush_type r) (newest_modification r) (oldest_modification r) (bp_old r) (bp_freed_page_clock r) (access_time r) (target_rw_cmd r) (frame r) (use_rw_cmd r) (bl_lock r) (lock_hash_val r) (check_index_page_at_flush r) (modify_clock r) (n_hash_helps r) (n_fields r) (n_bytes r) (left_side r) v.


(** A node of page_hash: a block, or the sentinel of a watch with its fix count. *)
Inductive hash_node := Hashed (b : Z) | Sentinel (buf_fix_count : Z).


(** The buffer pool, with its statistics. *)
Record buf_pool_t := Mkbuf_pool_t {
  blocks : gmap Z buf_block_t;
  curr_size : Z;  (** 64 bits *)
  LRU_old_ratio : Z;  (** 64 bits *)
  page_hash : gmap (Z * Z) hash_node;
  n_pend_reads : Z;  (** 64 bits *)
  pool_free : list Z;
  pool_LRU : list Z;
  LRU_old : option Z;
  LRU_old_len : Z;  (** 64 bits *)
  flush_list : list Z;
  n_flush : buf_flush_t → Z;
  pool_freed_page_clock : Z;  (** 64 bits *)
  try_LRU_scan : bool;
  n_page_gets : Z;  (** 64 bits *)
  n_pages_read : Z;  (** 64 bits *)
  n_pages_written : Z;  (** 64 bits *)
  n_pages_created : Z;  (** 64 bits *)
  n_ra_pages_evicted : Z;  (** 64 bits *)
  n_pages_made_young : Z;  (** 64 bits *)
  n_pages_not_made_young : Z;  (** 64 bits *)
  LRU_bytes : Z;  (** 64 bits *)
  flush_list_bytes : Z;  (** 64 bits *)
  init_flush : buf_flush_t → bool;
  flush_list_hp : option Z;
  no_flush : buf_flush_t → bool;  (** the event is set *)
}.
#[global] Instance set_blocks : Field blocks := λ v r,
  Mkbuf_pool_t v (curr_size r) (LRU_old_ratio r) (page_hash r) (n_pend_reads r) (pool_free r) (pool_LRU r) (LRU_old r) (LRU_old_len r) (flush_list r) (n_flush r) (pool_freed_page_clock r) (try_LRU_scan r) (n_page_gets r) (n_pages_read r) (n_pages_written r) (n_pages_created r) (n_ra_pages_evicted r) (n_pages_made_young r) (n_pages_not_made_young r) (LRU_bytes r) (flush_list_bytes r) (init_flush r) (flush_list_hp r) (no_flush r).
#[global] Instance set_curr_size : Field curr_size := λ v r,
  Mkbuf_pool_t (blocks r) (wrap 64 v) (LRU_old_ratio r) (page_hash r) (n_pend_reads r) (pool_free r) (pool_LRU r) (LRU_old r) (LRU_old_len r) (flush_list r) (n_flush r) (pool_freed_page_clock r) (try_LRU_scan r) (n_page_gets r) (n_pages_read r) (n_pages_written r) (n_pages_created r) (n_ra_pages_evicted r) (n_pages_made_young r) (n_pages_not_made_young r) (LRU_bytes r) (flush_list_bytes r) (init_flush r) (flush_list_hp r) (no_flush r).
#[global] Instance set_LRU_old_ratio : Field LRU_old_ratio := λ v r,
  Mkbuf_pool_t (blocks r) (curr_size r) (wrap 64 v) (page_hash r) (n_pend_reads r) (pool_free r) (pool_LRU r) (LRU_old r) (LRU_old_len r) (flush_list r) (n_flush r) (pool_freed_page_clock r) (try_LRU_scan r) (n_page_gets r) (n_pages_read r) (n_pages_written r) (n_pages_created r) (n_ra_pages_evicted r) (n_pages_made_young r) (n_pages_not_made_young r) (LRU_bytes r) (flush_list_bytes r) (init_flush r) (flush_list_hp r) (no_flush r).
#[global] Instance set_page_hash : Field page_hash := λ v r,
  Mkbuf_pool_t (blocks r) (curr_size r) (LRU_old_ratio r) v (n_pend_reads r) (pool_free r) (pool_LRU r) (LRU_old r) (LRU_old_len r) (flush_list r) (n_flush r) (pool_freed_page_clock r) (try_LRU_scan r) (n_page_gets r) (n_pages_read r) (n_pages_written r) (n_pages_created r) (n_ra_pages_evicted r) (n_pages_made_young r) (n_pages_not_made_young r) (LRU_bytes r) (flush_list_bytes r) (init_flush r) (flush_list_hp r) (no_flush r).
#[global] Instance set_n_pend_reads : Field n_pend_reads := λ v r,
  Mkbuf_pool_t (blocks r) (curr_size r) (LRU_old_ratio r) (page_hash r) (wrap 64 v) (pool_free r) (pool_LRU r) (LRU_old r) (LRU_old_len r) (flush_list r) (n_flush r) (pool_freed_page_clock r) (try_LRU_scan r) (n_page_gets r) (n_pages_read r) (n_pages_written r) (n_pages_created r) (n_ra_pages_evicted r) (n_pages_made_young r) (n_pages_not_made_young r) (LRU_bytes r) (flush_list_bytes r) (init_flush r) (flush_list_hp r) (no_flush r).
#[global] Instance set_pool_free : Field pool_free := λ v r,
  Mkbuf_pool_t (blocks r) (curr_size r) (LRU_old_ratio r) (page_hash r) (n_pend_reads r) v (pool_LRU r) (LRU_old r) (LRU_old_len r) (flush_list r) (n_flush r) (pool_freed_page_clock r) (try_LRU_scan r) (n_page_gets r) (n_pages_read r) (n_pages_written r) (n_pages_created r) (n_ra_pages_evicted r) (n_pages_made_young r) (n_pages_not_made_young r) (LRU_bytes r) (flush_list_bytes r) (init_flush r) (flush_list_hp r) (no_flush r).
#[global] Instance set_pool_LRU : Field pool_LRU := λ v r,
  Mkbuf_pool_t (blocks r) (curr_size r) (LRU_old_ratio r) (page_hash r) (n_pend_reads r) (pool_free r) v (LRU_old r) (LRU_old_len r) (flush_list r) (n_flush r) (pool_freed_page_clock r) (try_LRU_scan r) (n_page_gets r) (n_pages_read r) (n_pages_written r) (n_pages_created r) (n_ra_pages_evicted r) (n_pages_made_young r) (n_pages_not_made_young r) (LRU_bytes r) (flush_list_bytes r) (init_flush r) (flush_list_hp r) (no_flush r).
#[global] Instance set_LRU_old : Field LRU_old := λ v r,
  Mkbuf_pool_t (blocks r) (curr_size r) (LRU_old_ratio r) (page_hash r) (n_pend_reads r) (pool_free r) (pool_LRU r) v (LRU_old_len r) (flush_list r) (n_flush r) (pool_freed_page_clock r) (try_LRU_scan r) (n_page_gets r) (n_pages_read r) (n_pages_written r) (n_pages_created r) (n_ra_pages_evicted r) (n_pages_made_young r) (n_pages_not_made_young r) (LRU_bytes r) (flush_list_bytes r) (init_flush r) (flush_list_hp r) (no_flush r).
#[global] Instance set_LRU_old_len : Field LRU_old_len := λ v r,
  Mkbuf_pool_t (blocks r) (curr_size r) (LRU_old_ratio r) (page_hash r) (n_pend_reads r) (pool_free r) (pool_LRU r) (LRU_old r) (wrap 64 v) (flush_list r) (n_flush r) (pool_freed_page_clock r) (try_LRU_scan r) (n_page_gets r) (n_pages_read r) (n_pages_written r) (n_pages_created r) (n_ra_pages_evicted r) (n_pages_made_young r) (n_pages_not_made_young r) (LRU_bytes r) (flush_list_bytes r) (init_flush r) (flush_list_hp r) (no_flush r).
#[global] Instance set_flush_list : Field flush_list := λ v r,
  Mkbuf_pool_t (blocks r) (curr_size r) (LRU_old_ratio r) (page_hash r) (n_pend_reads r) (pool_free r) (pool_LRU r) (LRU_old r) (LRU_old_len r) v (n_flush r) (pool_freed_page_clock r) (try_LRU_scan r) (n_page_gets r) (n_pages_read r) (n_pages_written r) (n_pages_created r) (n_ra_pages_evicted r) (n_pages_made_young r) (n_pages_not_made_young r) (LRU_bytes r) (flush_list_bytes r) (init_flush r) (flush_list_hp r) (no_flush r).
#[global] Instance set_n_flush : Field n_flush := λ v r,
  Mkbuf_pool_t (blocks r) (curr_size r) (LRU_old_ratio r) (page_hash r) (n_pend_reads r) (pool_free r) (pool_LRU r) (LRU_old r) (LRU_old_len r) (flush_list r) v (pool_freed_page_clock r) (try_LRU_scan r) (n_page_gets r) (n_pages_read r) (n_pages_written r) (n_pages_created r) (n_ra_pages_evicted r) (n_pages_made_young r) (n_pages_not_made_young r) (LRU_bytes r) (flush_list_bytes r) (init_flush r) (flush_list_hp r) (no_flush r).
#[global] Instance set_pool_freed_page_clock : Field pool_freed_page_clock := λ v r,
  Mkbuf_pool_t (blocks r) (curr_size r) (LRU_old_ratio r) (page_hash r) (n_pend_reads r) (pool_free r) (pool_LRU r) (LRU_old r) (LRU_old_len r) (flush_list r) (n_flush r) (wrap 64 v) (try_LRU_scan r) (n_page_gets r) (n_pages_read r) (n_pages_written r) (n_pages_created r) (n_ra_pages_evicted r) (n_pages_made_young r) (n_pages_not_made_young r) (LRU_bytes r) (flush_list_bytes r) (init_flush r) (flush_list_hp r) (no_flush r).
#[global] Instance set_try_LRU_scan : Field try_LRU_scan := λ v r,
  Mkbuf_pool_t (blocks r) (curr_size r) (LRU_old_ratio r) (page_hash r) (n_pend_reads r) (pool_free r) (pool_LRU r) (LRU_old r) (LRU_old_len r) (flush_list r) (n_flush r) (pool_freed_page_clock r) v (n_page_gets r) (n_pages_read r) (n_pages_written r) (n_pages_created r) (n_ra_pages_evicted r) (n_pages_made_young r) (n_pages_not_made_young r) (LRU_bytes r) (flush_list_bytes r) (init_flush r) (flush_list_hp r) (no_flush r).
#[global] Instance set_n_page_gets : Field n_page_gets := λ v r,
  Mkbuf_pool_t (blocks r) (curr_size r) (LRU_old_ratio r) (page_hash r) (n_pend_reads r) (pool_free r) (pool_LRU r) (LRU_old r) (LRU_old_len r) (flush_list r) (n_flush r) (pool_freed_page_clock r) (try_LRU_scan r) (wrap 64 v) (n_pages_read r) (n_pages_written r) (n_pages_created r) (n_ra_pages_evicted r) (n_pages_made_young r) (n_pages_not_made_young r) (LRU_bytes r) (flush_list_bytes r) (init_flush r) (flush_list_hp r) (no_flush r).
#[global] Instance set_n_pages_read : Field n_pages_read := λ v r,
  Mkbuf_pool_t (blocks r) (curr_size r) (LRU_old_ratio r) (page_hash r) (n_pend_reads r) (pool_free r) (pool_LRU r) (LRU_old r) (LRU_old_len r) (flush_list r) (n_flush r) (pool_freed_page_clock r) (try_LRU_scan r) (n_page_gets r) (wrap 64 v) (n_pages_written r) (n_pages_created r) (n_ra_pages_evicted r) (n_pages_made_young r) (n_pages_not_made_young r) (LRU_bytes r) (flush_list_bytes r) (init_flush r) (flush_list_hp r) (no_flush r).
#[global] Instance set_n_pages_written : Field n_pages_written := λ v r,
  Mkbuf_pool_t (blocks r) (curr_size r) (LRU_old_ratio r) (page_hash r) (n_pend_reads r) (pool_free r) (pool_LRU r) (LRU_old r) (LRU_old_len r) (flush_list r) (n_flush r) (pool_freed_page_clock r) (try_LRU_scan r) (n_page_gets r) (n_pages_read r) (wrap 64 v) (n_pages_created r) (n_ra_pages_evicted r) (n_pages_made_young r) (n_pages_not_made_young r) (LRU_bytes r) (flush_list_bytes r) (init_flush r) (flush_list_hp r) (no_flush r).
#[global] Instance set_n_pages_created : Field n_pages_created := λ v r,
  Mkbuf_pool_t (blocks r) (curr_size r) (LRU_old_ratio r) (page_hash r) (n_pend_reads r) (pool_free r) (pool_LRU r) (LRU_old r) (LRU_old_len r) (flush_list r) (n_flush r) (pool_freed_page_clock r) (try_LRU_scan r) (n_page_gets r) (n_pages_read r) (n_pages_written r) (wrap 64 v) (n_ra_pages_evicted r) (n_pages_made_young r) (n_pages_not_made_young r) (LRU_bytes r) (flush_list_bytes r) (init_flush r) (flush_list_hp r) (no_flush r).
#[global] Instance set_n_ra_pages_evicted : Field n_ra_pages_evicted := λ v r,
  Mkbuf_pool_t (blocks r) (curr_size r) (LRU_old_ratio r) (page_hash r) (n_pend_reads r) (pool_free r) (pool_LRU r) (LRU_old r) (LRU_old_len r) (flush_list r) (n_flush r) (pool_freed_page_clock r) (try_LRU_scan r) (n_page_gets r) (n_pages_read r) (n_pages_written r) (n_pages_created r) (wrap 64 v) (n_pages_made_young r) (n_pages_not_made_young r) (LRU_bytes r) (flush_list_bytes r) (init_flush r) (flush_list_hp r) (no_flush r).
#[global] Instance set_n_pages_made_young : Field n_pages_made_young := λ v r,
  Mkbuf_pool_t (blocks r) (curr_size r) (LRU_old_ratio r) (page_hash r) (n_pend_reads r) (pool_free r) (pool_LRU r) (LRU_old r) (LRU_old_len r) (flush_list r) (n_flush r) (pool_freed_page_clock r) (try_LRU_scan r) (n_page_gets r) (n_pages_read r) (n_pages_written r) (n_pages_created r) (n_ra_pages_evicted r) (wrap 64 v) (n_pages_not_made_young r) (LRU_bytes r) (flush_list_bytes r) (init_flush r) (flush_list_hp r) (no_flush r).
#[global] Instance set_n_pages_not_made_young : Field n_pages_not_made_young := λ v r,
  Mkbuf_pool_t (blocks r) (curr_size r) (LRU_old_ratio r) (page_hash r) (n_pend_reads r) (pool_free r) (pool_LRU r) (LRU_old r) (LRU_old_len r) (flush_list r) (n_flush r) (pool_freed_page_clock r) (try_LRU_scan r) (n_page_gets r) (n_pages_read r) (n_pages_written r) (n_pages_created r) (n_ra_pages_evicted r) (n_pages_made_young r) (wrap 64 v) (LRU_bytes r) (flush_list_bytes r) (init_flush r) (flush_list_hp r) (no_flush r).
#[global] Instance set_LRU_bytes : Field LRU_bytes := λ v r,
  Mkbuf_pool_t (blocks r) (curr_size r) (LRU_old_ratio r) (page_hash r) (n_pend_reads r) (pool_free r) (pool_LRU r) (LRU_old r) (LRU_old_len r) (flush_list r) (n_flush r) (pool_freed_page_clock r) (try_LRU_scan r) (n_page_gets r) (n_pages_read r) (n_pages_written r) (n_pages_created r) (n_ra_pages_evicted r) (n_pages_made_young r) (n_pages_not_made_young r) (wrap 64 v) (flush_list_bytes r) (init_flush r) (flush_list_hp r) (no_flush r).
#[global] Instance set_flush_list_bytes : Field flush_list_bytes := λ v r,
  Mkbuf_pool_t (blocks r) (curr_size r) (LRU_old_ratio r) (page_hash r) (n_pend_reads r) (pool_free r) (pool_LRU r) (LRU_old r) (LRU_old_len r) (flush_list r) (n_flush r) (pool_freed_page_clock r) (try_LRU_scan r) (n_page_gets r) (n_pages_read r) (n_pages_written r) (n_pages_created r) (n_ra_pages_evicted r) (n_pages_made_young r) (n_pages_not_made_young r) (LRU_bytes r) (wrap 64 v) (init_flush r) (flush_list_hp r) (no_flush r).
#[global] Instance set_init_flush : Field init_flush := λ v r,
  Mkbuf_pool_t (blocks r) (curr_size r) (LRU_old_ratio r) (page_hash r) (n_pend_reads r) (pool_free r) (pool_LRU r) (LRU_old r) (LRU_old_len r) (flush_list r) (n_flush r) (pool_freed_page_clock r) (try_LRU_scan r) (n_page_gets r) (n_pages_read r) (n_pages_written r) (n_pages_created r) (n_ra_pages_evicted r) (n_pages_made_young r) (n_pages_not_made_young r) (LRU_bytes r) (flush_list_bytes r) v (flush_list_hp r) (no_flush r).
#[global] Instance set_flush_list_hp : Field flush_list_hp := λ v r,
  Mkbuf_pool_t (blocks r) (curr_size r) (LRU_old_ratio r) (page_hash r) (n_pend_reads r) (pool_free r) (pool_LRU r) (LRU_old r) (LRU_old_len r) (flush_list r) (n_flush r) (pool_freed_page_clock r) (try_LRU_scan r) (n_page_gets r) (n_pages_read r) (n_pages_written r) (n_pages_created r) (n_ra_pages_evicted r) (n_pages_made_young r) (n_pages_not_made_young r) (LRU_bytes r) (flush_list_bytes r) (init_flush r) v (no_flush r).
#[global] Instance set_no_flush : Field no_flush := λ v r,
  Mkbuf_pool_t (blocks r) (curr_size r) (LRU_old_ratio r) (page_hash r) (n_pend_reads r) (pool_free r) (pool_LRU r) (LRU_old r) (LRU_old_len r) (flush_list r) (n_flush r) (pool_freed_page_clock r) (try_LRU_scan r) (n_page_gets r) (n_pages_read r) (n_pages_written r) (n_pages_created r) (n_ra_pages_evicted r) (n_pages_made_young r) (n_pages_not_made_young r) (LRU_bytes r) (flush_list_bytes r) (init_flush r) (flush_list_hp r) v.


(** ** Lists *)

Fixpoint UT_LIST_GET_PREV (l : list Z) (b : Z) : option Z :=
  match l with
  | x :: (y :: _) as l' => if y =? b then Some x else UT_LIST_GET_PREV l' b
  | _ => None
  end.
Fixpoint UT_LIST_GET_NEXT (l : list Z) (b : Z) : option Z :=
  match l with
  | x :: l' => if x =? b then head l' else UT_LIST_GET_NEXT l' b
  | [] => None
  end.
Fixpoint UT_LIST_INSERT_AFTER (l : list Z) (a b : Z) : list Z :=
  match l with
  | x :: l' => if x =? a then x :: b :: l' else x :: UT_LIST_INSERT_AFTER l' a b
  | [] => []
  end.
Abbreviation UT_LIST_REMOVE l b := (list_remove_key b l).
Abbreviation UT_LIST_GET_LEN l := (Z.of_nat (length l)).

Section lru.
Context `{HostConfig}.

Abbreviation pM := (M buf_pool_t).

Definition blk (b : Z) : lval buf_pool_t buf_block_t := (glob blocks).[b].

Definition buf_page_in_file (st : buf_page_state) : pM bool :=
  match st with
  | BUF_BLOCK_POOL_WATCH => fail Assert
  | BUF_BLOCK_ZIP_PAGE | BUF_BLOCK_ZIP_DIRTY | BUF_BLOCK_FILE_PAGE => ret true
  | BUF_BLOCK_NOT_USED | BUF_BLOCK_READY_FOR_USE | BUF_BLOCK_MEMORY | BUF_BLOCK_REMOVE_HASH => ret false
  end.

(** ut_a(buf_page_in_file(bpage)) *)
Definition assert_in_file (b : Z) : pM unit :=
  st <- !((blk b)∙bp_state) ;; ok <- buf_page_in_file st ;; ASSERT ok.

Definition buf_page_set_old (b : Z) (old : bool) : pM unit :=
  assert_in_file b ;; (blk b)∙bp_old ::= old.

(** ut_a of a pointer that must not be NULL. *)
Definition the {A} (o : option A) : pM A := match o with Some a => ret a | None => fail Assert end.

(** ** The midpoint of the LRU list *)

(** The length the old sublist should have. *)
Definition LRU_new_len (len ratio : Z) : Z :=
  Z.min (u64 (len * ratio) / BUF_LRU_OLD_RATIO_DIV) (u64 (len - (BUF_LRU_OLD_TOLERANCE + BUF_LRU_NON_OLD_MIN_LEN))).

Definition buf_LRU_old_adjust_len : pM unit :=
  o <- !(glob LRU_old) ;; the o ;;
  old_len <- !(glob LRU_old_len) ;;
  lru <- !(glob pool_LRU) ;;
  ratio <- !(glob LRU_old_ratio) ;;
  let new_len := LRU_new_len (UT_LIST_GET_LEN lru) ratio in
  loop (Datatypes.S (length lru)) (λ old_len,
    o <- !(glob LRU_old) ;; LRU_old' <- the o ;;
    if old_len + BUF_LRU_OLD_TOLERANCE <? new_len then
      let p := UT_LIST_GET_PREV lru LRU_old' in
      glob LRU_old ::= p ;;
      incr (glob LRU_old_len) ;;
      old_len <- !(glob LRU_old_len) ;;
      p <- the p ;; buf_page_set_old p true ;;
      ret (inl old_len)
    else if new_len + BUF_LRU_OLD_TOLERANCE <? old_len then
      glob LRU_old ::= UT_LIST_GET_NEXT lru LRU_old' ;;
      decr (glob LRU_old_len) ;;
      old_len <- !(glob LRU_old_len) ;;
      buf_page_set_old LRU_old' false ;;
      ret (inl old_len)
    else ret (inr tt)) old_len.

Definition buf_LRU_old_init : pM unit :=
  lru <- !(glob pool_LRU) ;;
  ASSERT (UT_LIST_GET_LEN lru =? BUF_LRU_OLD_MIN_LEN) ;;
  for_each (λ b, (blk b)∙bp_old ::= true) (reverse lru) ;;
  glob LRU_old ::= head lru ;;
  glob LRU_old_len ::= UT_LIST_GET_LEN lru ;;
  buf_LRU_old_adjust_len.

(** The end of buf_LRU_remove_block: the block leaves the list. *)
Definition LRU_unlink (b : Z) : pM unit :=
  modify (glob pool_LRU) (λ l, UT_LIST_REMOVE l b) ;;
  modify (glob LRU_bytes) (λ n, n - UNIV_PAGE_SIZE) ;;
  lru <- !(glob pool_LRU) ;;
  if UT_LIST_GET_LEN lru <? BUF_LRU_OLD_MIN_LEN then
    for_each (λ b, (blk b)∙bp_old ::= false) lru ;;
    glob LRU_old ::= None ;;
    glob LRU_old_len ::= 0
  else
    old <- !((blk b)∙bp_old) ;;
    when old (decr (glob LRU_old_len)) ;;
    buf_LRU_old_adjust_len.

Definition buf_LRU_remove_block (b : Z) : pM unit :=
  assert_in_file b ;;
  o <- !(glob LRU_old) ;;
  when (bool_decide (o = Some b))
    (lru <- !(glob pool_LRU) ;;
     prev <- the (UT_LIST_GET_PREV lru b) ;;
     glob LRU_old ::= Some prev ;;
     buf_page_set_old prev true ;;
     incr (glob LRU_old_len)) ;;
  LRU_unlink b.

(** The end of both functions that add a block: the old flag of the block. *)
Definition LRU_set_old_flag (b : Z) (old : bool) (grow : pM unit) : pM unit :=
  lru <- !(glob pool_LRU) ;;
  if BUF_LRU_OLD_MIN_LEN <? UT_LIST_GET_LEN lru then
    buf_page_set_old b old ;; grow ;; buf_LRU_old_adjust_len
  else if UT_LIST_GET_LEN lru =? BUF_LRU_OLD_MIN_LEN then buf_LRU_old_init
  else o <- !(glob LRU_old) ;; buf_page_set_old b (bool_decide (is_Some o)).

Definition buf_LRU_add_block_to_end_low (b : Z) : pM unit :=
  assert_in_file b ;;
  modify (glob pool_LRU) (λ l, l ++ [b]) ;;
  modify (glob LRU_bytes) (λ n, n + UNIV_PAGE_SIZE) ;;
  LRU_set_old_flag b true (incr (glob LRU_old_len)).

Definition buf_LRU_add_block_low (b : Z) (old : bool) : pM unit :=
  assert_in_file b ;;
  lru <- !(glob pool_LRU) ;;
  (if negb old || (UT_LIST_GET_LEN lru <? BUF_LRU_OLD_MIN_LEN) then
     glob pool_LRU ::= (b :: lru) ;;
     c <- !(glob pool_freed_page_clock) ;;
     (blk b)∙bp_freed_page_clock ::= c
   else
     o <- !(glob LRU_old) ;; o <- the o ;;
     glob pool_LRU ::= UT_LIST_INSERT_AFTER lru o b ;;
     incr (glob LRU_old_len)) ;;
  modify (glob LRU_bytes) (λ n, n + UNIV_PAGE_SIZE) ;;
  LRU_set_old_flag b old skip.

Definition buf_LRU_add_block : Z → bool → pM unit := buf_LRU_add_block_low.

Definition buf_LRU_make_block_young (b : Z) : pM unit :=
  old <- !((blk b)∙bp_old) ;;
  when old (incr (glob n_pages_made_young)) ;;
  buf_LRU_remove_block b ;; buf_LRU_add_block_low b false.

Definition buf_LRU_make_block_old (b : Z) : pM unit :=
  buf_LRU_remove_block b ;; buf_LRU_add_block_to_end_low b.

(** The new ratio of the old sublist (buf_LRU_old_ratio_update_instance). *)
Definition buf_LRU_old_ratio_update_instance (old_pct : Z) (adjust : bool) : pM unit :=
  let ratio := u32 (old_pct * BUF_LRU_OLD_RATIO_DIV) / 100 in
  let ratio := if ratio <? BUF_LRU_OLD_RATIO_MIN then BUF_LRU_OLD_RATIO_MIN
               else if BUF_LRU_OLD_RATIO_MAX <? ratio then BUF_LRU_OLD_RATIO_MAX else ratio in
  if (adjust : bool) then
    r <- !(glob LRU_old_ratio) ;;
    when (negb (ratio =? r))
      (glob LRU_old_ratio ::= ratio ;;
       lru <- !(glob pool_LRU) ;;
       when (BUF_LRU_OLD_MIN_LEN <=? UT_LIST_GET_LEN lru) buf_LRU_old_adjust_len)
  else glob LRU_old_ratio ::= ratio.

(** The loop of buf_LRU_validate_instance over the LRU list, from [l] on: it
    counts the old blocks. *)
Fixpoint validate_blocks (lru l : list Z) (old_len : Z) : pM Z :=
  match l with
  | [] => ret old_len
  | b :: l =>
      st <- !((blk b)∙bp_state) ;;
      (match st with
       | BUF_BLOCK_FILE_PAGE | BUF_BLOCK_ZIP_PAGE | BUF_BLOCK_ZIP_DIRTY => skip
       | _ => fail Assert
       end) ;;
      old <- !((blk b)∙bp_old) ;;
      (if old : bool then
         (if old_len =? 0 then o <- !(glob LRU_old) ;; ASSERT (bool_decide (o = Some b))
          else match UT_LIST_GET_PREV lru b with
               | Some prev => old <- !((blk prev)∙bp_old) ;; ASSERT old
               | None => skip
               end) ;;
         (match UT_LIST_GET_NEXT lru b with
          | Some next => old <- !((blk next)∙bp_old) ;; ASSERT old
          | None => skip
          end) ;;
         validate_blocks lru l (old_len + 1)
       else validate_blocks lru l old_len)
  end.

Definition buf_LRU_validate_instance : pM unit :=
  lru <- !(glob pool_LRU) ;;
  when (BUF_LRU_OLD_MIN_LEN <=? UT_LIST_GET_LEN lru)
    (o <- !(glob LRU_old) ;; the o ;;
     old_len <- !(glob LRU_old_len) ;;
     ratio <- !(glob LRU_old_ratio) ;;
     let new_len := LRU_new_len (UT_LIST_GET_LEN lru) ratio in
     ASSERT (u64 (new_len - BUF_LRU_OLD_TOLERANCE) <=? old_len) ;;
     ASSERT (old_len <=? u64 (new_len + BUF_LRU_OLD_TOLERANCE))) ;;
  old_len <- validate_blocks lru lru 0 ;;
  n <- !(glob LRU_old_len) ;;
  ASSERT (n =? old_len) ;;
  free <- !(glob pool_free) ;;
  for_each (λ b, st <- !((blk b)∙bp_state) ;; ASSERT (bool_decide (st = BUF_BLOCK_NOT_USED))) free.
End lru.


(** ** Lists without duplicates *)

Lemma prev_of l1 x y l2 : NoDup (l1 ++ x :: y :: l2) → UT_LIST_GET_PREV (l1 ++ x :: y :: l2) y = Some x.
Proof.
  induction l1 as [|z l1 IH]; intros Hnd; cbn; [by rewrite Z.eqb_refl|]. cbn in Hnd. apply NoDup_cons in Hnd as [Hz Hnd].
  specialize (IH Hnd). destruct l1 as [|z' l1]; cbn in *.
  - destruct (Z.eqb_spec x y) as [->|]; [|done]. apply NoDup_cons in Hnd as [Hn _]. by destruct Hn; left.
  - destruct (Z.eqb_spec z' y) as [->|]; [|done]. apply NoDup_cons in Hnd as [Hn _]. destruct Hn. set_solver.
Qed.

Lemma next_of l1 x l2 : x ∉ l1 → UT_LIST_GET_NEXT (l1 ++ x :: l2) x = head l2.
Proof.
  induction l1 as [|z l1 IH]; intros Hx; cbn; [by rewrite Z.eqb_refl|].
  destruct (Z.eqb_spec z x) as [->|]; [by destruct Hx; left|]. apply IH. set_solver.
Qed.

Lemma insert_after l1 x l2 b : x ∉ l1 → UT_LIST_INSERT_AFTER (l1 ++ x :: l2) x b = l1 ++ x :: b :: l2.
Proof.
  induction l1 as [|z l1 IH]; intros Hx; cbn; [by rewrite Z.eqb_refl|].
  destruct (Z.eqb_spec z x) as [->|]; [by destruct Hx; left|]. f_equal. apply IH. set_solver.
Qed.

Lemma remove_middle l1 b l2 : NoDup (l1 ++ b :: l2) → UT_LIST_REMOVE (l1 ++ b :: l2) b = l1 ++ l2.
Proof.
  intros Hnd. apply NoDup_app in Hnd as (_ & H1 & [H2 _]%NoDup_cons).
  unfold list_remove_key. rewrite filter_app, filter_cons_False by (intros Hn; by apply Hn).
  f_equal; apply remove_absent; [|done]. intros Hb. by destruct (H1 b Hb); left.
Qed.

(** ** The midpoint *)

Section midpoint.
Context `{HostConfig}.
Implicit Types (p : buf_pool_t) (b : Z) (l young old : list Z).

(** Every block of [l] has the old flag [v]; every block of [l] holds a page. *)
Definition flagged p l (v : bool) : Prop := ∀ b, b ∈ l → bp_old <$> blocks p !! b = Some v.
Definition in_files p l : Prop := ∀ b, b ∈ l → bp_state <$> blocks p !! b = Some BUF_BLOCK_FILE_PAGE.

(** The LRU list is [young] followed by [old], which LRU_old points to. *)
Record Split p young old : Prop := {
  sp_lru : pool_LRU p = young ++ old;
  sp_head : LRU_old p = head old;
  sp_some : old ≠ [];
  sp_len : LRU_old_len p = Z.of_nat (length old);
  sp_young : flagged p young false;
  sp_old : flagged p old true;
}.

Definition len p : Z := Z.of_nat (length (pool_LRU p)).
Definition new_len p : Z := LRU_new_len (len p) (LRU_old_ratio p).

(** What the LRU list is besides its midpoint. *)
Record Chained p : Prop := {
  cn_nodup : NoDup (pool_LRU p);
  cn_files : in_files p (pool_LRU p);
  cn_ratio : BUF_LRU_OLD_RATIO_MIN ≤ LRU_old_ratio p ≤ BUF_LRU_OLD_RATIO_MAX;
  cn_bound : len p < 2 ^ 32;
}.

(** A short list has no midpoint; the old part of a long list has about the
    length it should have. *)
Definition Midpoint p : Prop :=
  len p < BUF_LRU_OLD_MIN_LEN ∧ LRU_old p = None ∧ LRU_old_len p = 0 ∧ flagged p (pool_LRU p) false ∨
  BUF_LRU_OLD_MIN_LEN ≤ len p ∧ ∃ young old, Split p young old ∧
    new_len p - BUF_LRU_OLD_TOLERANCE ≤ LRU_old_len p ≤ new_len p + BUF_LRU_OLD_TOLERANCE.

Definition LruOk p : Prop := Chained p ∧ Midpoint p.

(** The pool but for the LRU list: the flags of the blocks and the fields of the
    list do not count. *)
Definition unflagged (r : buf_block_t) : buf_block_t := fset bp_freed_page_clock 0 (fset bp_old false r).
Definition rest p : buf_pool_t :=
  fset LRU_bytes 0 (fset n_pages_made_young 0 (fset LRU_old_len 0 (fset LRU_old None (fset pool_LRU []
    (fset blocks (unflagged <$> blocks p) p))))).

Lemma new_len_range p : BUF_LRU_OLD_RATIO_MIN ≤ LRU_old_ratio p ≤ BUF_LRU_OLD_RATIO_MAX →
  BUF_LRU_OLD_MIN_LEN ≤ len p < 2 ^ 32 → 25 ≤ new_len p ≤ len p - 25.
Proof.
  unfold new_len, LRU_new_len, BUF_LRU_OLD_RATIO_MAX, BUF_LRU_OLD_RATIO_MIN, BUF_LRU_OLD_RATIO_DIV, BUF_LRU_OLD_MIN_LEN,
    BUF_LRU_OLD_TOLERANCE, BUF_LRU_NON_OLD_MIN_LEN. intros Hr Hl.
  rewrite !wrap_small by nia. assert (25 ≤ len p * LRU_old_ratio p / 1024) by (apply Z.div_le_lower_bound; nia). lia.
Qed.

Lemma rest_block {T} (f : buf_block_t → T) p p' b :
  (∀ r, f (unflagged r) = f r) → rest p' = rest p → f <$> blocks p' !! b = f <$> blocks p !! b.
Proof.
  intros Hf E. assert (unflagged <$> blocks p' = unflagged <$> blocks p) as Eb by exact (f_equal blocks E).
  apply (f_equal (.!! b)) in Eb. rewrite !lookup_fmap in Eb.
  destruct (blocks p' !! b) as [r'|], (blocks p !! b) as [r|]; try done. apply (inj Some) in Eb. cbn. f_equal.
  rewrite <- (Hf r'), <- (Hf r). by f_equal.
Qed.

Lemma Chained_rest p p' : rest p' = rest p → pool_LRU p' = pool_LRU p → Chained p → Chained p'.
Proof.
  intros E El [Hn Hf Hr Hb]. split; [by rewrite El| | |unfold len in *; by rewrite El].
  - intros b. rewrite El. intros Hin. rewrite (rest_block bp_state p p' b) by done. by apply Hf.
  - assert (LRU_old_ratio p' = LRU_old_ratio p) as -> by exact (f_equal LRU_old_ratio E). done.
Qed.

Lemma in_files_lookup p l b : in_files p l → b ∈ l → ∃ r, blocks p !! b = Some r ∧ bp_state r = BUF_BLOCK_FILE_PAGE.
Proof.
  intros Hf Hb. specialize (Hf b Hb). destruct (blocks p !! b) as [r|]; [|done]. exists r. split; [done|]. by apply (inj Some) in Hf.
Qed.

(** A store to a field of a block. *)
Lemma poke_blk {T} (f : buf_block_t → T) `{!Field f} v p b r :
  blocks p !! b = Some r → poke ((blk b)∙f) v p = fset blocks (<[b := fset f v r]> (blocks p)) p.
Proof. intros Hb. cbn. by rewrite Hb. Qed.

(** The flag of one block. *)
Definition set_old_at p b (r : buf_block_t) (v : bool) : buf_pool_t := fset blocks (<[b := fset bp_old v r]> (blocks p)) p.

Lemma set_old_ok b v p r (Φ : unit → buf_pool_t → Prop) :
  blocks p !! b = Some r → bp_state r = BUF_BLOCK_FILE_PAGE → Φ tt (set_old_at p b r v) → wp (buf_page_set_old b v) Φ p.
Proof.
  intros Hb Hs HΦ. unfold buf_page_set_old, assert_in_file.
  apply wp_bind, wp_bind. eapply wp_load; [cbn; by rewrite Hb|]. cbn [fmap option_fmap option_map]. rewrite Hs.
  apply wp_bind, wp_ret, wp_ret. eapply wp_store; [cbn; by rewrite Hb|]. cbn. by rewrite Hb.
Qed.

Lemma rest_set_old p b r v : blocks p !! b = Some r → rest (set_old_at p b r v) = rest p.
Proof.
  intros Hb. assert (unflagged <$> blocks (set_old_at p b r v) = unflagged <$> blocks p) as E.
  { cbn. rewrite fmap_insert. apply insert_id. by rewrite lookup_fmap, Hb. }
  unfold rest. rewrite E. by destruct p.
Qed.

Lemma flagged_set_old p b r v l w :
  b ∉ l → flagged p l w → flagged (set_old_at p b r v) l w.
Proof. intros Hb Hl x Hx. cbn. rewrite lookup_insert_ne by (intros ->; done). by apply Hl. Qed.

Lemma flagged_here p b r v l : flagged (set_old_at p b r v) l v → flagged (set_old_at p b r v) (b :: l) v.
Proof. intros Hl x [->|Hx]%elem_of_cons; [cbn; by rewrite lookup_insert_eq|by apply Hl]. Qed.

(** The midpoint moves one block towards the head, or towards the tail. *)
Lemma move_up p young x old :
  Chained p → Split p (young ++ [x]) old →
  ∃ r, blocks p !! x = Some r ∧ bp_state r = BUF_BLOCK_FILE_PAGE ∧
    let p' := fset LRU_old_len (LRU_old_len p + 1) (fset LRU_old (Some x) p) in
    UT_LIST_GET_PREV (pool_LRU p) (default 0 (LRU_old p)) = Some x ∧ Split (set_old_at p' x r true) young (x :: old).
Proof.
  intros [Hn Hf _ Hb] [El Eh Hne Elen Hy Ho]. destruct old as [|y old]; [done|]. rewrite El, <- app_assoc in *. cbn in El, Hn.
  destruct (in_files_lookup p _ x Hf) as (r & Hr & Hs); [set_solver|]. exists r. split; [done|]. split; [done|]. cbn zeta. split.
  - rewrite Eh. cbn. by apply prev_of.
  - apply NoDup_app in Hn as (_ & Hd & Hx%NoDup_cons). destruct Hx as [Hx _]. split.
    + cbn. by rewrite El.
    + done.
    + done.
    + cbn -[wrap]. rewrite Elen, wrap_small; [cbn; lia|]. unfold len in Hb. rewrite El, length_app in Hb. cbn in Hb |- *. lia.
    + intros z Hz. cbn. rewrite lookup_insert_ne by (intros ->; apply (Hd z Hz); by left). apply Hy. set_solver.
    + intros z Hz. cbn. destruct (decide (z = x)) as [->|]; [by rewrite lookup_insert_eq|rewrite lookup_insert_ne by done].
      apply Ho. set_solver.
Qed.

Lemma move_down p young x y old :
  Chained p → Split p young (x :: y :: old) →
  ∃ r, blocks p !! x = Some r ∧ bp_state r = BUF_BLOCK_FILE_PAGE ∧
    let p' := fset LRU_old_len (LRU_old_len p - 1) (fset LRU_old (Some y) p) in
    UT_LIST_GET_NEXT (pool_LRU p) x = Some y ∧ Split (set_old_at p' x r false) (young ++ [x]) (y :: old).
Proof.
  intros [Hn Hf _ Hb] [El Eh Hne Elen Hy Ho]. rewrite El in *.
  destruct (in_files_lookup p _ x Hf) as (r & Hr & Hs); [set_solver|]. exists r. split; [done|]. split; [done|]. cbn zeta. split.
  - apply NoDup_app in Hn as (_ & Hd & _). rewrite next_of; [done|]. intros Hx. apply (Hd x Hx). by left.
  - apply NoDup_app in Hn as (_ & Hd & Hx%NoDup_cons). destruct Hx as [Hx _]. split.
    + cbn. by rewrite El, <- app_assoc.
    + done.
    + done.
    + cbn -[wrap]. rewrite Elen, wrap_small; [cbn; lia|]. unfold len in Hb. rewrite El, length_app in Hb. cbn in Hb |- *. lia.
    + intros z Hz. cbn. destruct (decide (z = x)) as [->|]; [by rewrite lookup_insert_eq|rewrite lookup_insert_ne by done].
      apply Hy. set_solver.
    + intros z Hz. cbn. rewrite lookup_insert_ne by (intros ->; done). apply Ho. by right.
Qed.

(** LRU_old ends near the wanted length, from wherever it was. *)
Lemma adjust_ok p young old :
  Chained p → BUF_LRU_OLD_MIN_LEN ≤ len p → Split p young old →
  wp buf_LRU_old_adjust_len (λ _ p', LruOk p' ∧ pool_LRU p' = pool_LRU p ∧ rest p' = rest p) p.
Proof.
  intros HC Hlen HS. pose proof (new_len_range p (cn_ratio _ HC) (conj Hlen (cn_bound _ HC))) as Hnew.
  unfold buf_LRU_old_adjust_len. apply wp_bind. eapply wp_load; [done|]. apply wp_bind.
  rewrite (sp_head _ _ _ HS). destruct old as [|o old]; [by destruct (sp_some _ _ _ HS)|]. apply wp_ret.
  apply wp_bind. eapply wp_load; [done|]. apply wp_bind. eapply wp_load; [done|]. apply wp_bind. eapply wp_load; [done|].
  fold (len p) (new_len p). cbn zeta.
  apply (wp_loop (λ n p', ∃ y l, Split p' y l ∧ n = LRU_old_len p' ∧ pool_LRU p' = pool_LRU p ∧ rest p' = rest p)
    (λ n _, Z.to_nat (Z.abs (n - new_len p)))).
  { pose proof (sp_len _ _ _ HS) as E. unfold len in *. rewrite (sp_lru _ _ _ HS), length_app in *. lia. }
  { by exists young, (o :: old). }
  clear HS young o old. intros n p1 (young & old & HS & -> & El & Er).
  assert (HC1 : Chained p1) by (by eapply Chained_rest). pose proof (sp_len _ _ _ HS) as En.
  assert (Elen : len p = Z.of_nat (length young) + Z.of_nat (length old)).
  { unfold len. rewrite <- El, (sp_lru _ _ _ HS), length_app. lia. }
  apply wp_bind. eapply wp_load; [done|]. rewrite (sp_head _ _ _ HS). apply wp_bind.
  destruct old as [|o old]; [by destruct (sp_some _ _ _ HS)|]. apply wp_ret. rewrite <- El.
  destruct (Z.ltb_spec (LRU_old_len p1 + BUF_LRU_OLD_TOLERANCE) (new_len p)) as [Hlt|Hge];
    [|destruct (Z.ltb_spec (new_len p + BUF_LRU_OLD_TOLERANCE) (LRU_old_len p1)) as [Hlt|Hge']]; unfold BUF_LRU_OLD_TOLERANCE in *.
  - destruct young as [|x young _] using rev_ind; [cbn in *; lia|].
    destruct (move_up _ _ _ _ HC1 HS) as (r & Hr & Hs & Hp & HS'). cbn zeta in HS'. rewrite (sp_head _ _ _ HS) in Hp. cbn in Hp.
    rewrite Hp. apply wp_bind. eapply wp_store; [done|]. apply wp_bind. eapply wp_modify; [done|]. apply wp_bind. eapply wp_load; [done|].
    apply wp_bind, wp_ret. apply wp_bind. eapply set_old_ok; [done|done|]. apply wp_ret. cbn [poke glob]. split.
    + exists young, (x :: o :: old). split_and!; [done|done|done|]. rewrite rest_set_old by done. rewrite <- Er. by destruct p1.
    + pose proof (sp_len _ _ _ HS') as En'. cbn -[wrap] in En' |- *. cbn [length] in En. lia.
  - destruct old as [|y old]; [cbn in *; lia|].
    destruct (move_down _ _ _ _ _ HC1 HS) as (r & Hr & Hs & Hp & HS'). cbn zeta in HS'.
    rewrite Hp. apply wp_bind. eapply wp_store; [done|]. apply wp_bind. eapply wp_modify; [done|]. apply wp_bind. eapply wp_load; [done|].
    apply wp_bind. eapply set_old_ok; [done|done|]. apply wp_ret. cbn [poke glob]. split.
    + exists (young ++ [o]), (y :: old). split_and!; [done|done|done|]. rewrite rest_set_old by done. rewrite <- Er. by destruct p1.
    + pose proof (sp_len _ _ _ HS') as En'. cbn -[wrap] in En' |- *. cbn [length] in En. lia.
  - apply wp_ret. split_and!; [split; [done|right]|done|done].
    assert (new_len p1 = new_len p) as E. { unfold new_len, len. rewrite El. f_equal. exact (f_equal LRU_old_ratio Er). }
    unfold len in *. rewrite El. split; [done|]. exists young, (o :: old). split; [done|]. rewrite E. unfold BUF_LRU_OLD_TOLERANCE. lia.
Qed.

(** The blocks of a list get the flag [v]; the rest of the pool is as it was. *)
Definition Reflags p p' : Prop := p' = fset blocks (blocks p') p ∧ rest p' = rest p.

Lemma Reflags_set p p1 b r v : blocks p1 !! b = Some r → Reflags p p1 → Reflags p (set_old_at p1 b r v).
Proof. intros Hr [E Er]. split; [rewrite E; by destruct p|by rewrite rest_set_old]. Qed.

Lemma flag_all l v p : in_files p l →
  wp (for_each (λ b, (blk b)∙bp_old ::= v) l) (λ _ p', flagged p' l v ∧ Reflags p p') p.
Proof.
  intros Hf. assert (Hr : Reflags p p) by (split; [by destruct p|done]).
  assert (Hd : flagged p [] v) by (intros b Hb; by apply not_elem_of_nil in Hb).
  enough (∀ l1 l2 p1, in_files p l2 → Reflags p p1 → flagged p1 l1 v →
    wp (for_each (λ b, (blk b)∙bp_old ::= v) l2) (λ _ p', flagged p' (l1 ++ l2) v ∧ Reflags p p') p1) as G by exact (G [] l p Hf Hr Hd).
  clear Hf Hr Hd. intros l1 l2. revert l1. induction l2 as [|b l2 IH]; intros l1 p1 Hf Hr Hl; [by rewrite app_nil_r|].
  cbn [for_each]. destruct (in_files_lookup p _ b Hf) as (r & Hb & Hs); [by left|].
  assert (is_Some (blocks p1 !! b)) as [r1 Hb1].
  { destruct Hr as [_ Hr]. apply (rest_block bp_state p p1 b) in Hr; [|done]. rewrite Hb in Hr. destruct (blocks p1 !! b); [by eexists|done]. }
  apply wp_bind. eapply wp_store; [cbn; by rewrite Hb1|]. cbn [poke]. cbn. rewrite Hb1. cbn.
  rewrite (app_assoc l1 [b] l2 : l1 ++ b :: l2 = _).
  apply (IH (l1 ++ [b]) (set_old_at p1 b r1 v)); [intros x Hx; apply Hf; by right|by apply Reflags_set|].
  intros x [Hx|Hx]%elem_of_app.
  - cbn. destruct (decide (x = b)) as [->|]; [by rewrite lookup_insert_eq|]. rewrite lookup_insert_ne by done. by apply Hl.
  - apply list_elem_of_singleton in Hx as ->. cbn. by rewrite lookup_insert_eq.
Qed.

Lemma flagged_perm p l1 l2 v : l1 ≡ₚ l2 → flagged p l1 v → flagged p l2 v.
Proof. intros E Hl b Hb. apply Hl. by rewrite E. Qed.

Lemma old_init_ok p : Chained p → len p = BUF_LRU_OLD_MIN_LEN →
  wp buf_LRU_old_init (λ _ p', LruOk p' ∧ pool_LRU p' = pool_LRU p ∧ rest p' = rest p) p.
Proof.
  intros HC Hlen. unfold buf_LRU_old_init. apply wp_bind. eapply wp_load; [done|]. apply wp_bind. fold (len p). rewrite Hlen.
  apply wp_ret. apply wp_bind. eapply wp_mono; [apply flag_all; intros b Hb; apply (cn_files _ HC); by rewrite elem_of_reverse in Hb|].
  cbn beta. intros [] p1 [Hf [E Er]]. apply wp_bind. eapply wp_store; [done|]. apply wp_bind. eapply wp_store; [done|]. cbn [poke glob].
  set (p2 := fset LRU_old_len _ _). assert (El : pool_LRU p2 = pool_LRU p) by (exact (f_equal pool_LRU E)).
  assert (E2 : rest p2 = rest p) by (rewrite <- Er; by destruct p1).
  eapply wp_mono; [apply (adjust_ok p2 [] (pool_LRU p))|].
  - by eapply Chained_rest.
  - unfold len. rewrite El. fold (len p). lia.
  - split; [done|done| |..].
    + intros E0. unfold len in Hlen. by rewrite E0 in Hlen.
    + unfold p2. cbn -[wrap]. by rewrite <- Hlen, wrap_small by (rewrite Hlen; done).
    + intros b Hb. by apply not_elem_of_nil in Hb.
    + eapply flagged_perm, Hf. apply reverse_Permutation.
  - cbn beta. intros [] p3 (HL & E3 & Er3). split_and!; [done|congruence|congruence].
Qed.

(** A block leaves the list. *)
Definition Removed b p p' : Prop :=
  LruOk p' ∧ pool_LRU p' = UT_LIST_REMOVE (pool_LRU p) b ∧ rest p' = rest p.

Lemma remove_length p b : NoDup (pool_LRU p) → b ∈ pool_LRU p →
  Z.of_nat (length (UT_LIST_REMOVE (pool_LRU p) b)) = len p - 1.
Proof.
  intros Hn Hb. unfold len. apply list_elem_of_split in Hb as (l1 & l2 & El). rewrite El in *.
  rewrite remove_middle by done. rewrite !length_app. cbn. lia.
Qed.

Lemma Chained_removed p p' b :
  Chained p → rest p' = rest p → pool_LRU p' = UT_LIST_REMOVE (pool_LRU p) b → Chained p'.
Proof.
  intros [Hn Hf Hr Hb] E El. split.
  - rewrite El. by apply NoDup_filter.
  - intros x Hx. rewrite El, elem_of_key_removed in Hx. rewrite (rest_block bp_state p p' x) by done. apply Hf, Hx.
  - assert (LRU_old_ratio p' = LRU_old_ratio p) as -> by exact (f_equal LRU_old_ratio E). done.
  - unfold len in *. rewrite El. pose proof (length_filter (λ x, x ≠ b) (pool_LRU p)). unfold list_remove_key. lia.
Qed.

Lemma unlink_short p b :
  Chained p → b ∈ pool_LRU p → len p ≤ BUF_LRU_OLD_MIN_LEN → wp (LRU_unlink b) (λ _, Removed b p) p.
Proof.
  intros HC Hb Hlen. pose proof (remove_length p b (cn_nodup _ HC) Hb) as Hl. unfold LRU_unlink.
  apply wp_bind. eapply wp_modify; [done|]. apply wp_bind. eapply wp_modify; [done|]. apply wp_bind. eapply wp_load; [done|].
  cbn [poke glob]. set (p1 := fset LRU_bytes _ _).
  assert (El : pool_LRU p1 = UT_LIST_REMOVE (pool_LRU p) b) by done.
  rewrite <- El in Hl.
  destruct (Z.ltb_spec (UT_LIST_GET_LEN (pool_LRU p1)) BUF_LRU_OLD_MIN_LEN) as [Hlt|]; [|lia].
  assert (HC1 : Chained p1) by (eapply Chained_removed; [done| |done]; by destruct p).
  apply wp_bind. eapply wp_mono; [apply flag_all, HC1|]. cbn beta. intros [] p2 [Hf [E2 Er]].
  apply wp_bind. eapply wp_store; [done|]. eapply wp_store; [done|]. cbn [poke glob]. set (p3 := fset LRU_old_len _ _).
  assert (E3 : pool_LRU p3 = pool_LRU p1) by exact (f_equal pool_LRU E2).
  assert (R3 : rest p3 = rest p) by (transitivity (rest p2); [by destruct p2|rewrite Er; by destruct p]).
  split; [|by rewrite E3]. split; [apply (Chained_removed p p3 b); [done|done|by rewrite E3]|]. left.
  unfold len. rewrite E3. by split_and!.
Qed.

Lemma flagged_sub p l1 l2 v : l1 ⊆ l2 → flagged p l2 v → flagged p l1 v.
Proof. intros Hs Hl b Hb. by apply Hl, Hs. Qed.

Lemma unlink_long p young old b :
  Chained p → Split p young old → b ∈ pool_LRU p → head old ≠ Some b → BUF_LRU_OLD_MIN_LEN < len p →
  wp (LRU_unlink b) (λ _, Removed b p) p.
Proof.
  intros HC HS Hb Hh Hlen. pose proof (remove_length p b (cn_nodup _ HC) Hb) as Hl. unfold LRU_unlink.
  pose proof (in_files_lookup p _ b (cn_files _ HC) Hb) as (r & Hr & _).
  apply wp_bind. eapply wp_modify; [done|]. apply wp_bind. eapply wp_modify; [done|]. apply wp_bind. eapply wp_load; [done|].
  cbn [poke glob]. set (p1 := fset LRU_bytes _ _).
  assert (El : pool_LRU p1 = UT_LIST_REMOVE (pool_LRU p) b) by done. rewrite <- El in Hl.
  destruct (Z.ltb_spec (UT_LIST_GET_LEN (pool_LRU p1)) BUF_LRU_OLD_MIN_LEN) as [Hlt|Hge]; [lia|].
  apply wp_bind. eapply wp_load; [cbn; by rewrite Hr|]. apply wp_bind.
  assert (∃ p2 y o, rest p2 = rest p ∧ pool_LRU p2 = pool_LRU p1 ∧ Split p2 y o ∧
    wp (when (bp_old r) (decr (glob LRU_old_len))) (λ _ p', p' = p2) p1) as (p2 & y & o & R2 & E2 & HS2 & Hw).
  { pose proof (cn_nodup _ HC) as Hn. destruct HS as [Es Eh Hne Ele Hy Ho]. rewrite Es in *.
    apply elem_of_app in Hb as [Hb|Hb].
    - assert (bp_old r = false) as -> by (specialize (Hy b Hb); rewrite Hr in Hy; by apply (inj Some) in Hy).
      exists p1. apply list_elem_of_split in Hb as (l1 & l2 & ->). exists (l1 ++ l2), old. split_and!; [by destruct p|done| |done].
      rewrite <- app_assoc in Hn, El. cbn in Hn, El. rewrite remove_middle in El by done.
      split; [etrans; [exact El|by rewrite app_assoc]|done|done|done| |done]. eapply flagged_sub, Hy. set_solver.
    - assert (bp_old r = true) as -> by (specialize (Ho b Hb); rewrite Hr in Ho; by apply (inj Some) in Ho).
      destruct old as [|x old]; [done|]. apply elem_of_cons in Hb as [->|Hb]; [done|].
      apply list_elem_of_split in Hb as (l1 & l2 & ->).
      exists (fset LRU_old_len (LRU_old_len p - 1) p1), young, (x :: l1 ++ l2). split_and!; [by destruct p|done| |].
      + change (young ++ x :: l1 ++ b :: l2) with (young ++ (x :: l1) ++ b :: l2) in Hn, El. rewrite app_assoc in Hn, El.
        rewrite remove_middle in El by done. split; [cbn; rewrite <- app_assoc in El; exact El|done|done| |done|].
        * cbn -[wrap]. rewrite Ele. unfold len in Hl. rewrite wrap_small; [cbn; rewrite !length_app; cbn; lia|].
          pose proof (cn_bound _ HC) as Hbd. unfold len in Hbd. rewrite Es, length_app in Hbd. cbn in Hbd |- *. lia.
        * eapply flagged_sub, Ho. set_solver.
      + cbn [when]. by eapply wp_modify. }
  eapply wp_mono; [exact Hw|]. cbn beta. intros [] p2' ->. rewrite El in E2.
  eapply wp_mono; [apply (adjust_ok p2 y o); [by eapply Chained_removed|unfold len; rewrite E2, <- El; lia|done]|].
  cbn beta. intros [] p3 (HL & E3 & R3). split_and!; [done|by rewrite E3|by rewrite R3].
Qed.

Lemma remove_block_ok p b : LruOk p → b ∈ pool_LRU p → wp (buf_LRU_remove_block b) (λ _, Removed b p) p.
Proof.
  intros [HC HM] Hb. pose proof (in_files_lookup p _ b (cn_files _ HC) Hb) as (r & Hr & Hs).
  unfold buf_LRU_remove_block, assert_in_file. apply wp_bind, wp_bind. eapply wp_load; [cbn; by rewrite Hr|].
  cbn [fmap option_fmap option_map]. rewrite Hs. apply wp_bind, wp_ret, wp_ret. apply wp_bind. eapply wp_load; [done|].
  apply wp_bind. destruct HM as [(Hl & -> & _ & _)|(Hl & young & old & HS & Hm)].
  { apply wp_ret. by apply unlink_short; [|done|lia]. }
  case_bool_decide as Eo; cbn [when].
  - pose proof (new_len_range p (cn_ratio _ HC) (conj Hl (cn_bound _ HC))) as Hnew.
    pose proof (sp_head _ _ _ HS) as Eh. destruct old as [|b' old]; [by destruct (sp_some _ _ _ HS)|].
    rewrite Eo in Eh. apply (inj Some) in Eh as <-.
    destruct young as [|x young _] using rev_ind.
    { pose proof (sp_lru _ _ _ HS) as E. pose proof (sp_len _ _ _ HS) as E1. unfold len, BUF_LRU_OLD_TOLERANCE in *. rewrite E in *. cbn in *. lia. }
    destruct (move_up _ _ _ _ HC HS) as (rx & Hrx & Hsx & Hp & HS'). cbn zeta in HS'. rewrite Eo in Hp. cbn in Hp.
    apply wp_bind. eapply wp_load; [done|]. rewrite Hp. apply wp_bind, wp_ret. apply wp_bind. eapply wp_store; [done|].
    apply wp_bind. eapply set_old_ok; [done|done|]. eapply wp_modify; [done|].
    set (p1 := set_old_at _ x rx true) in HS'. change (wp (LRU_unlink b) (λ _, Removed b p) p1).
    assert (R : rest p1 = rest p) by (unfold p1; rewrite rest_set_old by done; by destruct p).
    assert (HC1 : Chained p1) by (by eapply Chained_rest).
    assert (∀ p', Removed b p1 p' → Removed b p p') as Hrem by (intros p' (? & ? & E); rewrite R in E; done).
    destruct (decide (len p = BUF_LRU_OLD_MIN_LEN)) as [E|E].
    + eapply wp_mono; [apply (unlink_short p1 b); [done|done|unfold len in *; cbn; lia]|]. intros [] p'. apply Hrem.
    + eapply wp_mono; [apply (unlink_long p1 young (x :: b :: old) b); [done|done|done| |unfold len in *; cbn; lia]|intros [] p'; apply Hrem].
      intros [= ->]. pose proof (cn_nodup _ HC) as Hn. rewrite (sp_lru _ _ _ HS), <- app_assoc in Hn.
      apply NoDup_app in Hn as (_ & _ & [Hn _]%NoDup_cons). by destruct Hn; left.
  - apply wp_ret. destruct (decide (len p = BUF_LRU_OLD_MIN_LEN)) as [E|E].
    + by apply unlink_short; [|done|lia].
    + apply (unlink_long p young old); [done|done|done| |lia]. rewrite <- (sp_head _ _ _ HS). congruence.
Qed.

(** A block that holds a page enters the list, which becomes [l]. *)
Definition Linked l p p' : Prop := LruOk p' ∧ pool_LRU p' = l ∧ rest p' = rest p.

Definition Outside b p : Prop :=
  (b ∉ pool_LRU p) ∧ (bp_state <$> blocks p !! b) = Some BUF_BLOCK_FILE_PAGE ∧ len p + 1 < 2 ^ 32.

Lemma Chained_added p p' b :
  Chained p → Outside b p → rest p' = rest p → pool_LRU p' ≡ₚ b :: pool_LRU p → Chained p'.
Proof.
  intros [Hn Hf Hr Hb] (Ho & Hs & Hl) E El. split.
  - rewrite El. by constructor.
  - intros x Hx. rewrite El in Hx. rewrite (rest_block bp_state p p' x) by done. apply elem_of_cons in Hx as [->|Hx]; [done|by apply Hf].
  - assert (LRU_old_ratio p' = LRU_old_ratio p) as -> by exact (f_equal LRU_old_ratio E). done.
  - unfold len in *. rewrite El. cbn. lia.
Qed.

Lemma set_old_flag_ok p p1 b (old : bool) (grow : M buf_pool_t unit) :
  Chained p → Outside b p → rest p1 = rest p → pool_LRU p1 ≡ₚ b :: pool_LRU p →
  (len p < BUF_LRU_OLD_MIN_LEN → LRU_old p1 = None ∧ LRU_old_len p1 = 0 ∧ flagged p1 (pool_LRU p) false) →
  (BUF_LRU_OLD_MIN_LEN ≤ len p → ∀ r, blocks p1 !! b = Some r →
     wp grow (λ _ p2, (∃ y o, Split p2 y o) ∧ rest p2 = rest p1 ∧ pool_LRU p2 = pool_LRU p1) (set_old_at p1 b r old)) →
  wp (LRU_set_old_flag b old grow) (λ _, Linked (pool_LRU p1) p) p1.
Proof.
  intros HC HO Er El Hshort Hlong. pose proof (Chained_added p p1 b HC HO Er El) as HC1.
  assert (Elen : len p1 = len p + 1) by (unfold len; rewrite El; cbn; lia).
  destruct (in_files_lookup p1 _ b (cn_files _ HC1)) as (r & Hr & Hs); [rewrite El; by left|].
  unfold LRU_set_old_flag. apply wp_bind. eapply wp_load; [done|]. fold (len p1).
  destruct (Z.ltb_spec BUF_LRU_OLD_MIN_LEN (len p1)) as [Hlt|Hge].
  { apply wp_bind. eapply set_old_ok; [done|done|]. apply wp_bind. eapply wp_mono; [apply Hlong; [lia|done]|].
    cbn beta. intros [] p2 ((y & o & HS) & R2 & E2).
    eapply wp_mono; [apply (adjust_ok p2 y o); [by apply (Chained_rest p1)|unfold len in *; rewrite E2; lia|done]|].
    cbn beta. intros [] p3 (HL & E3 & R3). split_and!; [done|by rewrite E3|congruence]. }
  destruct (Z.eqb_spec (len p1) BUF_LRU_OLD_MIN_LEN) as [He|Hne].
  { eapply wp_mono; [by apply old_init_ok|]. cbn beta. intros [] p3 (HL & E3 & R3). split_and!; [done|done|congruence]. }
  destruct Hshort as (En & E0 & Hf); [lia|]. apply wp_bind. eapply wp_load; [done|]. eapply set_old_ok; [done|done|].
  rewrite En, bool_decide_false by (intros [? ?]; done).
  assert (R2 : rest (set_old_at p1 b r false) = rest p1) by (by rewrite rest_set_old).
  split_and!; [split; [by apply (Chained_rest p1)|left]|done|congruence].
  split_and!; [unfold len in *; cbn; lia|done|done|]. eapply (flagged_perm _ (b :: pool_LRU p)); [by rewrite <- El|].
  apply flagged_here, flagged_set_old; [apply HO|done].
Qed.

Lemma add_to_end_ok p b : LruOk p → Outside b p →
  wp (buf_LRU_add_block_to_end_low b) (λ _, Linked (pool_LRU p ++ [b]) p) p.
Proof.
  intros [HC HM] HO. pose proof HO as (Ho & Hs & Hl). unfold buf_LRU_add_block_to_end_low, assert_in_file.
  destruct (blocks p !! b) as [r|] eqn:Hr; [|done]. apply (inj Some) in Hs.
  apply wp_bind, wp_bind. eapply wp_load; [cbn; by rewrite Hr|].
  cbn [fmap option_fmap option_map]. rewrite Hs. apply wp_bind, wp_ret, wp_ret. apply wp_bind. eapply wp_modify; [done|].
  apply wp_bind. eapply wp_modify; [done|]. cbn [poke glob]. set (p1 := fset LRU_bytes _ _).
  assert (R1 : rest p1 = rest p) by (by destruct p).
  apply (set_old_flag_ok p p1 b true); [done|done|done|cbn; by rewrite Permutation_app_comm| |].
  - intros Hsh. destruct HM as [(_ & ? & ? & ?)|[? _]]; [done|lia].
  - intros Hlo r0 Hr0. assert (r0 = r) as -> by (cbn in Hr0; congruence).
    destruct HM as [[? _]|(_ & y & o & [El Eh Hne Elen Hy Ho'] & _)]; [lia|]. eapply wp_modify; [done|].
    split; [|split; [|done]; etrans; [|by apply (rest_set_old p1 b r true)]; by destruct p].
    exists y, (o ++ [b]). rewrite El in Ho. split.
    + cbn. by rewrite El, app_assoc.
    + cbn. rewrite Eh. by destruct o.
    + by destruct o.
    + cbn -[wrap]. rewrite Elen, wrap_small; [rewrite length_app; cbn; lia|]. unfold len in Hl. rewrite El, length_app in Hl. lia.
    + apply (flagged_set_old p1 b r true); [set_solver|done].
    + eapply flagged_perm; [apply (Permutation_app_comm [b])|]. apply (flagged_here p1 b r true), flagged_set_old; [set_solver|done].
Qed.

(** Where buf_LRU_add_block puts a block. *)
Definition added_at p b (old : bool) : list Z :=
  if negb old || (len p <? BUF_LRU_OLD_MIN_LEN) then b :: pool_LRU p
  else UT_LIST_INSERT_AFTER (pool_LRU p) (default 0 (LRU_old p)) b.

Lemma add_block_ok p b (old : bool) : LruOk p → Outside b p →
  wp (buf_LRU_add_block b old) (λ _, Linked (added_at p b old) p) p.
Proof.
  intros [HC HM] HO. pose proof HO as (Ho & Hs & Hl). unfold buf_LRU_add_block, buf_LRU_add_block_low, assert_in_file.
  destruct (blocks p !! b) as [r|] eqn:Hr; [|done]. apply (inj Some) in Hs.
  apply wp_bind, wp_bind. eapply wp_load; [cbn; by rewrite Hr|].
  cbn [fmap option_fmap option_map]. rewrite Hs. apply wp_bind, wp_ret, wp_ret. apply wp_bind. eapply wp_load; [done|].
  fold (len p). unfold added_at. apply wp_bind. destruct (negb old || (len p <? BUF_LRU_OLD_MIN_LEN)) eqn:Eb.
  - apply wp_bind. eapply wp_store; [done|]. apply wp_bind. eapply wp_load; [done|]. eapply wp_store; [cbn; by rewrite Hr|].
    apply wp_bind. eapply wp_modify; [done|]. cbn [poke glob].
    rewrite (poke_blk bp_freed_page_clock _ _ b r) by done.
    set (r1 := fset bp_freed_page_clock _ r). set (p1 := fset LRU_bytes _ _).
    assert (R1 : rest p1 = rest p).
    { assert (unflagged <$> blocks p1 = unflagged <$> blocks p) as E.
      { cbn. rewrite fmap_insert. apply insert_id. by rewrite lookup_fmap, Hr. }
      unfold rest. rewrite E. by destruct p. }
    assert (Hfl : ∀ l v, b ∉ l → flagged p l v → flagged p1 l v).
    { intros l v Hb Hf x Hx. cbn. rewrite lookup_insert_ne by (intros ->; done). by apply Hf. }
    apply (set_old_flag_ok p p1 b old); [done|done|done|done| |].
    + intros Hsh. destruct HM as [(_ & ? & ? & Hf)|[? _]]; [|lia]. split_and!; [done|done|by apply Hfl].
    + intros Hlo r0 Hr0. destruct old; cbn in Eb; [apply Z.ltb_lt in Eb; lia|].
      destruct HM as [[? _]|(_ & y & o & [El Eh Hne Elen Hy Ho'] & _)]; [lia|]. apply wp_ret.
      split; [|split; [by apply rest_set_old|done]]. rewrite El in Ho. exists (b :: y), o. split; [|done|done|done| |].
      * cbn. by rewrite El.
      * apply flagged_here, flagged_set_old, Hfl; [set_solver|set_solver|done].
      * apply flagged_set_old, Hfl; [set_solver|set_solver|done].
  - apply orb_false_iff in Eb as [->%negb_false_iff Eb%Z.ltb_ge].
    destruct HM as [[? _]|(_ & y & o & [El Eh Hne Elen Hy Ho'] & _)]; [lia|]. destruct o as [|m o]; [done|].
    apply wp_bind. eapply wp_load; [done|]. rewrite Eh. apply wp_bind, wp_ret. apply wp_bind. eapply wp_store; [done|].
    eapply wp_modify; [done|]. apply wp_bind. eapply wp_modify; [done|]. cbn [poke glob default head]. set (p1 := fset LRU_bytes _ _).
    assert (Ei : UT_LIST_INSERT_AFTER (pool_LRU p) m b = y ++ m :: b :: o).
    { rewrite El. apply insert_after. pose proof (cn_nodup _ HC) as Hn. rewrite El in Hn. apply NoDup_app in Hn as (_ & Hn & _).
      intros Hm. apply (Hn m Hm). by left. }
    apply (set_old_flag_ok p p1 b true); [done|done|by destruct p| |lia|].
    + cbn. rewrite Ei, El. rewrite (Permutation_swap b m o). by rewrite Permutation_middle.
    + intros _ r0 Hr0. apply wp_ret. split; [|split; [by apply rest_set_old|done]]. rewrite El in Ho.
      exists y, (m :: b :: o). split; [done|done|done| | |].
      * cbn -[wrap]. rewrite Elen, wrap_small; [cbn; lia|]. unfold len in Hl. rewrite El, length_app in Hl. cbn in Hl |- *. lia.
      * apply flagged_set_old; [set_solver|done].
      * eapply flagged_perm; [apply (Permutation_swap m b o)|]. apply flagged_here, flagged_set_old; [set_solver|done].
Qed.

Lemma Outside_removed p p' b : LruOk p → b ∈ pool_LRU p → Removed b p p' → Outside b p'.
Proof.
  intros [HC _] Hb (_ & El & R). split_and!.
  - rewrite El, elem_of_key_removed. by intros [? _].
  - rewrite (rest_block bp_state p p' b) by done. by apply (cn_files _ HC).
  - unfold len. rewrite El, (remove_length p b (cn_nodup _ HC) Hb). pose proof (cn_bound _ HC). lia.
Qed.

Lemma make_young_ok p b : LruOk p → b ∈ pool_LRU p →
  wp (buf_LRU_make_block_young b) (λ _, Linked (b :: UT_LIST_REMOVE (pool_LRU p) b) p) p.
Proof.
  intros HL Hb. pose proof (in_files_lookup p _ b (cn_files _ (proj1 HL)) Hb) as (r & Hr & _).
  unfold buf_LRU_make_block_young. apply wp_bind. eapply wp_load; [cbn; by rewrite Hr|]. apply wp_bind.
  assert (∃ p1, wp (when (bp_old r) (incr (glob n_pages_made_young))) (λ _ p', p' = p1) p ∧
    rest p1 = rest p ∧ pool_LRU p1 = pool_LRU p ∧ LruOk p1) as (p1 & Hw & R1 & E1 & HL1).
  { destruct (bp_old r); [|by exists p].
    exists (fset n_pages_made_young (n_pages_made_young p + 1) p). split_and!; [by eapply wp_modify|by destruct p|done|].
    destruct HL as [HC HM]. split; [by apply (Chained_rest p); [destruct p| |]|].
    destruct HM as [?|(? & y & o & [] & ?)]; [by left|right]. split; [done|]. exists y, o. by split. }
  eapply wp_mono; [exact Hw|]. cbn beta. intros [] p1' ->. rewrite <- E1 in Hb.
  apply wp_bind. eapply wp_mono; [by apply remove_block_ok|]. cbn beta. intros [] p2 HR.
  pose proof (Outside_removed _ _ _ HL1 Hb HR) as HO. destruct HR as (HL2 & E2 & R2).
  eapply wp_mono; [apply (add_block_ok p2 b false); done|]. cbn beta. intros [] p3 (HL3 & E3 & R3).
  split_and!; [done| |congruence]. rewrite E3. cbn. by rewrite E2, E1.
Qed.

Lemma make_old_ok p b : LruOk p → b ∈ pool_LRU p →
  wp (buf_LRU_make_block_old b) (λ _, Linked (UT_LIST_REMOVE (pool_LRU p) b ++ [b]) p) p.
Proof.
  intros HL Hb. unfold buf_LRU_make_block_old. apply wp_bind. eapply wp_mono; [by apply remove_block_ok|].
  cbn beta. intros [] p2 HR. pose proof (Outside_removed _ _ _ HL Hb HR) as HO. destruct HR as (HL2 & E2 & R2).
  eapply wp_mono; [apply (add_to_end_ok p2 b); done|]. cbn beta. intros [] p3 (HL3 & E3 & R3).
  split_and!; [done|by rewrite E3, E2|congruence].
Qed.

(** The ratio stays within its limits, and an adjusted list has its midpoint at
    the new one. *)
Definition new_ratio (old_pct : Z) : Z :=
  Z.max BUF_LRU_OLD_RATIO_MIN (Z.min BUF_LRU_OLD_RATIO_MAX (old_pct * BUF_LRU_OLD_RATIO_DIV / 100)).

Lemma ratio_update_ok p old_pct : LruOk p → 0 ≤ old_pct ≤ 100 →
  wp (buf_LRU_old_ratio_update_instance old_pct true)
    (λ _ p', LruOk p' ∧ pool_LRU p' = pool_LRU p ∧ LRU_old_ratio p' = new_ratio old_pct ∧ fset LRU_old_ratio 0 (rest p') = fset LRU_old_ratio 0 (rest p)) p.
Proof.
  intros [HC HM] Hp. unfold buf_LRU_old_ratio_update_instance. cbn zeta.
  assert (Hd : 0 ≤ old_pct * BUF_LRU_OLD_RATIO_DIV / 100 ≤ 1024).
  { unfold BUF_LRU_OLD_RATIO_DIV. split; [apply Z.div_pos; lia|]. apply Z.lt_succ_r, Z.div_lt_upper_bound; lia. }
  rewrite (wrap_small 32) by (unfold BUF_LRU_OLD_RATIO_DIV; lia).
  assert (En : ∀ d, (if d <? BUF_LRU_OLD_RATIO_MIN then BUF_LRU_OLD_RATIO_MIN
    else if BUF_LRU_OLD_RATIO_MAX <? d then BUF_LRU_OLD_RATIO_MAX else d) = Z.max BUF_LRU_OLD_RATIO_MIN (Z.min BUF_LRU_OLD_RATIO_MAX d)).
  { intros d. unfold BUF_LRU_OLD_RATIO_MAX, BUF_LRU_OLD_RATIO_MIN, BUF_LRU_OLD_RATIO_DIV. destruct (Z.ltb_spec d 51); [lia|]. destruct (Z.ltb_spec 1024 d); lia. }
  rewrite En. fold (new_ratio old_pct). set (n := new_ratio old_pct).
  assert (Hn : BUF_LRU_OLD_RATIO_MIN ≤ n ≤ BUF_LRU_OLD_RATIO_MAX).
  { unfold n, new_ratio, BUF_LRU_OLD_RATIO_MAX, BUF_LRU_OLD_RATIO_MIN, BUF_LRU_OLD_RATIO_DIV. lia. }
  apply wp_bind. eapply wp_load; [done|]. destruct (Z.eqb_spec n (LRU_old_ratio p)) as [E|_].
  { by apply wp_ret. }
  apply wp_bind. eapply wp_store; [done|]. apply wp_bind. eapply wp_load; [done|]. cbn [poke glob].
  set (p1 := fset LRU_old_ratio n p).
  assert (Er : LRU_old_ratio p1 = n).
  { cbn -[wrap]. rewrite wrap_small; [done|]. unfold BUF_LRU_OLD_RATIO_MAX, BUF_LRU_OLD_RATIO_MIN, BUF_LRU_OLD_RATIO_DIV in Hn. lia. }
  assert (HC1 : Chained p1) by (destruct HC as [? ? ? ?]; split; [done|done|by rewrite Er|done]).
  fold (len p1). destruct (Z.leb_spec BUF_LRU_OLD_MIN_LEN (len p1)) as [Hge|Hlt]; cbn [when].
  - destruct HM as [[? _]|(_ & y & o & HS & _)]; [unfold len in *; cbn in *; lia|].
    eapply wp_mono; [apply (adjust_ok p1 y o); [done|done|by destruct HS]|]. cbn beta. intros [] p2 (HL & E2 & R2).
    assert (E : LRU_old_ratio p2 = n) by (rewrite <- Er; exact (f_equal LRU_old_ratio R2)).
    split_and!; [done|done|done|]. rewrite R2. reflexivity.
  - apply wp_ret. split_and!; [split; [done|]|done|done|by destruct p].
    left. destruct HM as [(? & ? & ? & ?)|[? _]]; [done|unfold len in *; cbn in *; lia].
Qed.

(** The debug check of the server holds. *)
Lemma in_files_flag p l b v : in_files p l → flagged p l v → b ∈ l →
  ∃ r, blocks p !! b = Some r ∧ bp_state r = BUF_BLOCK_FILE_PAGE ∧ bp_old r = v.
Proof.
  intros Hf Hl Hb. destruct (in_files_lookup p l b Hf Hb) as (r & Hr & Hs). exists r. split_and!; [done|done|].
  specialize (Hl b Hb). rewrite Hr in Hl. by apply (inj Some) in Hl.
Qed.

Lemma validate_young p lru l1 l2 n (Φ : Z → buf_pool_t → Prop) : in_files p l1 → flagged p l1 false →
  wp (validate_blocks lru l2 n) Φ p → wp (validate_blocks lru (l1 ++ l2) n) Φ p.
Proof.
  intros Hf Hl HΦ. induction l1 as [|b l1 IH]; [done|].
  destruct (in_files_flag p _ b _ Hf Hl) as (r & Hr & Hs & Ho); [by left|]. cbn.
  apply wp_bind. eapply wp_load; [cbn; by rewrite Hr|]. rewrite Hs. apply wp_bind, wp_ret.
  apply wp_bind. eapply wp_load; [cbn; by rewrite Hr|]. rewrite Ho. apply IH; intros x Hx; [apply Hf|apply Hl]; by right.
Qed.

Lemma assert_old p b (Φ : unit → buf_pool_t → Prop) :
  bp_old <$> blocks p !! b = Some true → Φ tt p → wp (old <- !((blk b)∙bp_old) ;; ASSERT old) Φ p.
Proof.
  intros Hb HΦ. destruct (blocks p !! b) as [r|] eqn:Hr; [|done]. apply (inj Some) in Hb.
  apply wp_bind. eapply wp_load; [cbn; by rewrite Hr|]. rewrite Hb. by apply wp_ret.
Qed.

Lemma validate_old p y o1 o2 : Chained p → Split p y (o1 ++ o2) →
  wp (validate_blocks (pool_LRU p) o2 (Z.of_nat (length o1))) (λ n p', n = Z.of_nat (length (o1 ++ o2)) ∧ p' = p) p.
Proof.
  intros HC. revert o1. induction o2 as [|b o2 IH]; intros o1 HS; [by rewrite app_nil_r|].
  pose proof HS as [El Eh Hne _ _ Ho]. pose proof (cn_files _ HC) as Hf. pose proof (cn_nodup _ HC) as Hn.
  assert (Hfo : in_files p (o1 ++ b :: o2)) by (intros x Hx; apply Hf; rewrite El; apply elem_of_app; by right).
  destruct (in_files_flag p _ b _ Hfo Ho) as (r & Hr & Hs & Hb); [set_solver|].
  cbn [validate_blocks]. apply wp_bind. eapply wp_load; [cbn; by rewrite Hr|]. cbn [fmap option_fmap option_map]. rewrite Hs. apply wp_bind, wp_ret.
  apply wp_bind. eapply wp_load; [cbn; by rewrite Hr|]. rewrite Hb. apply wp_bind.
  assert (E1 : o1 ++ b :: o2 = (o1 ++ [b]) ++ o2) by (by rewrite <- app_assoc).
  match goal with |- wp _ ?Φ _ => enough (Φ tt p) as HΦ end.
  { destruct o1 as [|x o1 _] using rev_ind.
    - apply wp_bind. eapply wp_load; [done|]. rewrite Eh. cbn [app head]. rewrite bool_decide_true by done. by apply wp_ret.
    - destruct (Z.eqb_spec (Z.of_nat (length (o1 ++ [x]))) 0) as [E0|_]; [rewrite length_app in E0; cbn in E0; lia|].
      assert (UT_LIST_GET_PREV (pool_LRU p) b = Some x) as ->.
      { rewrite El in Hn |- *. replace (y ++ (o1 ++ [x]) ++ b :: o2) with ((y ++ o1) ++ x :: b :: o2) in * by (by rewrite <- !app_assoc).
        by apply prev_of. }
      apply assert_old; [apply Ho; set_solver|done]. }
  apply wp_bind. match goal with |- wp _ ?Φ _ => enough (Φ tt p) as HΦ end.
  { assert (UT_LIST_GET_NEXT (pool_LRU p) b = head o2) as ->.
    { rewrite El, app_assoc in Hn |- *. apply next_of. apply NoDup_app in Hn as (_ & Hn & _). intros Hx. apply (Hn b Hx). by left. }
    destruct o2 as [|z o2]; cbn [head]; [by apply wp_ret|]. apply assert_old; [apply Ho; set_solver|done]. }
  rewrite E1 in HS |- *. specialize (IH (o1 ++ [b]) HS). rewrite length_app in IH at 1. cbn in IH.
  replace (Z.of_nat (length o1) + 1) with (Z.of_nat (length o1 + 1)) by lia. done.
Qed.

Lemma validate_ok p : LruOk p → (∀ b, b ∈ pool_free p → bp_state <$> blocks p !! b = Some BUF_BLOCK_NOT_USED) →
  wp buf_LRU_validate_instance (λ _ p', p' = p) p.
Proof.
  intros [HC HM] Hfree. unfold buf_LRU_validate_instance. apply wp_bind. eapply wp_load; [done|].
  assert (wp (validate_blocks (pool_LRU p) (pool_LRU p) 0) (λ n p', n = LRU_old_len p ∧ p' = p) p) as Hv.
  { destruct HM as [(_ & _ & El & Hf)|(_ & y & o & HS & _)].
    - rewrite <- (app_nil_r (pool_LRU p)) at 2. apply validate_young; [apply HC|done|]. by rewrite El.
    - rewrite (sp_lru _ _ _ HS) at 2. apply validate_young; [|apply HS|].
      + intros x Hx. apply (cn_files _ HC). rewrite (sp_lru _ _ _ HS). set_solver.
      + eapply wp_mono; [apply (validate_old p y [] o); done|]. cbn beta. intros n p' [-> ->]. by rewrite (sp_len _ _ _ HS). }
  apply wp_bind. fold (len p). match goal with |- wp _ ?Φ _ => enough (Φ tt p) as HΦ end.
  { destruct (Z.leb_spec BUF_LRU_OLD_MIN_LEN (len p)) as [Hge|Hlt]; [|done]. cbn [when].
    destruct HM as [[? _]|(_ & y & o & HS & Hm)]; [lia|].
    pose proof (new_len_range p (cn_ratio _ HC) (conj Hge (cn_bound _ HC))) as Hr. pose proof (cn_bound _ HC).
    apply wp_bind. eapply wp_load; [done|]. rewrite (sp_head _ _ _ HS). apply wp_bind.
    destruct o as [|x o]; [by destruct (sp_some _ _ _ HS)|]. apply wp_ret. apply wp_bind. eapply wp_load; [done|].
    apply wp_bind. eapply wp_load; [done|]. fold (new_len p). cbn zeta. unfold BUF_LRU_OLD_TOLERANCE in *.
    rewrite !wrap_small by lia. apply wp_bind. destruct (Z.leb_spec (new_len p - 20) (LRU_old_len p)); [|lia]. apply wp_ret.
    destruct (Z.leb_spec (LRU_old_len p) (new_len p + 20)); [|lia]. by apply wp_ret. }
  apply wp_bind. eapply wp_mono; [exact Hv|]. cbn beta. intros n p' [-> ->].
  apply wp_bind. eapply wp_load; [done|]. rewrite Z.eqb_refl. apply wp_bind, wp_ret. apply wp_bind. eapply wp_load; [done|].
  apply (wp_for_each (λ p', p' = p)); [done|]. intros b p' Hb ->. specialize (Hfree b Hb).
  destruct (blocks p !! b) as [r|] eqn:Hr; [|done]. apply (inj Some) in Hfree.
  apply wp_bind. eapply wp_load; [cbn; by rewrite Hr|]. cbn [fmap option_fmap option_map]. rewrite bool_decide_true by done. by apply wp_ret.
Qed.

(** ** The operations of the list together *)

Inductive lru_op :=
| Add (b : Z) (old : bool)      (** buf_LRU_add_block *)
| Take (b : Z)                  (** buf_LRU_remove_block *)
| Young (b : Z)                 (** buf_LRU_make_block_young *)
| Last (b : Z)                  (** buf_LRU_make_block_old *)
| Ratio (old_pct : Z).          (** buf_LRU_old_ratio_update_instance *)

Definition lru_exec (o : lru_op) : M buf_pool_t unit :=
  match o with
  | Add b old => buf_LRU_add_block b old
  | Take b => buf_LRU_remove_block b
  | Young b => buf_LRU_make_block_young b
  | Last b => buf_LRU_make_block_old b
  | Ratio old_pct => buf_LRU_old_ratio_update_instance old_pct true
  end.

(** A block is added when it holds a page and is not in the list, and moved or
    removed when it is in the list. *)
Definition lru_guard p (o : lru_op) : Prop :=
  match o with
  | Add b _ => Outside b p
  | Take b | Young b | Last b => b ∈ pool_LRU p
  | Ratio old_pct => 0 ≤ old_pct ≤ 100
  end.

Definition lru_after p (o : lru_op) : list Z :=
  match o with
  | Add b old => added_at p b old
  | Take b => UT_LIST_REMOVE (pool_LRU p) b
  | Young b => b :: UT_LIST_REMOVE (pool_LRU p) b
  | Last b => UT_LIST_REMOVE (pool_LRU p) b ++ [b]
  | Ratio _ => pool_LRU p
  end.

(** The blocks of the free list hold no page. *)
Definition FreeOk p : Prop := ∀ b, b ∈ pool_free p → bp_state <$> blocks p !! b = Some BUF_BLOCK_NOT_USED.

Lemma exec_ok p o : LruOk p → lru_guard p o →
  wp (lru_exec o) (λ _ p', LruOk p' ∧ pool_LRU p' = lru_after p o ∧ fset LRU_old_ratio 0 (rest p') = fset LRU_old_ratio 0 (rest p)) p.
Proof.
  intros HL Hg. assert (Hlink : ∀ l p', Linked l p p' →
    LruOk p' ∧ pool_LRU p' = l ∧ fset LRU_old_ratio 0 (rest p') = fset LRU_old_ratio 0 (rest p)) by (intros l p' (? & ? & ->); done).
  destruct o as [b old|b|b|b|pct]; cbn in *.
  - eapply wp_mono; [by apply add_block_ok|]. intros [] p'. apply Hlink.
  - eapply wp_mono; [by apply remove_block_ok|]. intros [] p'. apply Hlink.
  - eapply wp_mono; [by apply make_young_ok|]. intros [] p'. apply Hlink.
  - eapply wp_mono; [by apply make_old_ok|]. intros [] p'. apply Hlink.
  - eapply wp_mono; [by apply ratio_update_ok|]. cbn beta. intros [] p' (? & ? & _ & ?). done.
Qed.

(** C14: Every operation of the LRU list keeps its midpoint.  From a list whose
    old blocks are the ones from LRU_old on, whose old part has the wanted length
    up to the tolerance and which has no midpoint while it is short, any of the
    operations (adding a block as young or as old, removing one, moving one to
    either end, changing the ratio) ends without a failed assertion, in a list
    with the order the operation promises, on which the debug check
    buf_LRU_validate_instance passes; the midpoint is again in place. *)
Theorem lru_operations_validate p o :
  LruOk p → FreeOk p → lru_guard p o →
  wp (lru_exec o ;; buf_LRU_validate_instance) (λ _ p', LruOk p' ∧ FreeOk p' ∧ pool_LRU p' = lru_after p o) p.
Proof.
  intros HL HF Hg. apply wp_bind. eapply wp_mono; [by apply exec_ok|]. cbn beta. intros [] p' (HL' & El & R).
  assert (HF' : FreeOk p').
  { assert (pool_free p' = pool_free p) as E by exact (f_equal pool_free R). intros b Hb. rewrite E in Hb.
    rewrite <- (HF b Hb). assert (unflagged <$> blocks p' = unflagged <$> blocks p) as Eb by exact (f_equal blocks R).
    apply (f_equal (.!! b)) in Eb. rewrite !lookup_fmap in Eb. destruct (blocks p' !! b), (blocks p !! b); try done.
    apply (inj Some) in Eb. cbn. f_equal. exact (f_equal bp_state Eb). }
  eapply wp_mono; [by apply validate_ok|]. cbn beta. intros [] p'' ->. done.
Qed.
End midpoint.

(** A pool with one page less than it takes for a midpoint, and a block that holds
    one more. *)
Definition some_page (n : Z) : buf_block_t :=
  Mkbuf_block_t 5 n 0 BUF_IO_NONE BUF_BLOCK_FILE_PAGE BUF_FLUSH_LRU 0 0 false 0 0 false [] false (Shared 0) 0 false 0 0 0 0 false None.
Definition short_pool : buf_pool_t :=
  Mkbuf_pool_t (list_to_map ((λ n, (n, some_page n)) <$> seqZ 0 512)) 512 378 ∅ 0 [] (seqZ 0 511) None 0 [] (λ _, 0) 0 false 0 0 0 0 0 0 0 (511 * 4096) 0 (λ _, false) None (λ _, false).

Lemma lru_operations_validate_witness :
  ∃ p', (lru_exec (H := config_4k) (Add 511 true) ;; buf_LRU_validate_instance) short_pool = Ok tt p' ∧
    pool_LRU p' = 511 :: seqZ 0 511.
Proof.
  assert (Hd : ∀ (P : Z → Prop) (HP : ∀ b, Decision (P b)), bool_decide (Forall P (seqZ 0 511)) = true → ∀ b, b ∈ seqZ 0 511 → P b).
  { intros P ? Hall b Hb. apply bool_decide_eq_true in Hall. rewrite Forall_forall in Hall. by apply Hall. }
  assert (HL : LruOk short_pool).
  { split; [split|left; split_and!; [done|done|done|]].
    - apply NoDup_seqZ.
    - refine (Hd (λ b, bp_state <$> blocks short_pool !! b = Some BUF_BLOCK_FILE_PAGE) (λ b, decide _) _). by vm_compute.
    - vm_compute. by split.
    - by vm_compute.
    - refine (Hd (λ b, bp_old <$> blocks short_pool !! b = Some false) (λ b, decide _) _). by vm_compute. }
  assert (Hg : lru_guard short_pool (Add 511 true)).
  { split_and!; [cbn -[seqZ]; rewrite elem_of_seqZ; lia|by vm_compute|by vm_compute]. }
  assert (HF : FreeOk short_pool) by (intros b Hb; by apply not_elem_of_nil in Hb).
  pose proof (lru_operations_validate (H := config_4k) short_pool (Add 511 true) HL HF Hg) as Hw.
  unfold wp in Hw. destruct ((lru_exec (H := config_4k) (Add 511 true) ;; buf_LRU_validate_instance) short_pool) as [[] p'|]; [|done].
  exists p'. split; [done|]. apply Hw.
Defined.
