(* ===== verification/BufPool.v ===== *)
(** The buffer pool of the database server, its operations: the flush list and the
    writes (buf0flu.cc), the eviction of pages and the search for a free block
    (buf0lru.cc), the reads (buf0rea.cc) and the access to pages (buf0buf.cc),
    with the RW command that writes a dirty victim and reads the wanted page into
    its frame.  The assumptions are those of the LRU list: one thread, one
    instance, no compressed pages, no recovery; moreover the doublewrite buffer
    and read-ahead are off and the insert buffer is empty.  Latches held by other
    threads are the latches and fix counts the state starts with. *)
From S2P Require Import Prelude Frame HostLld Crc32 Fil PageFormat FilInv BufLru.

(** The counters of rw0rw.cc, buf_LRU_stat_cur.io, buf_lru_flush_page_count,
    srv_stats.buf_pool_flushed and the switches of the monitor. *)
Record RwStat := MkRwStat {
  n_lru_batch : Z;  (** 64 bits *)
  n_ckpt_batch : Z;  (** 64 bits *)
  n_spf : Z;  (** 64 bits *)
  n_rwcmd : Z;  (** 64 bits *)
  n_total_reads : Z;  (** 64 bits *)
  n_free_block : Z;  (** 64 bits *)
  n_clean_block : Z;  (** 64 bits *)
  n_no_block : Z;  (** 64 bits *)
  lru_stat_cur_io : Z;  (** 64 bits *)
  buf_lru_flush_page_count : Z;  (** 64 bits *)
  buf_pool_flushed : Z;  (** 64 bits *)
  buf_lru_switched_on_innodb_mon : bool;
  srv_print_innodb_monitor : bool;
}.
#[global] Instance set_n_lru_batch : Field n_lru_batch := λ v r,
  MkRwStat (wrap 64 v) (n_ckpt_batch r) (n_spf r) (n_rwcmd r) (n_total_reads r) (n_free_block r) (n_clean_block r) (n_no_block r) (lru_stat_cur_io r) (buf_lru_flush_page_count r) (buf_pool_flushed r) (buf_lru_switched_on_innodb_mon r) (srv_print_innodb_monitor r).
#[global] Instance set_n_ckpt_batch : Field n_ckpt_batch := λ v r,
  MkRwStat (n_lru_batch r) (wrap 64 v) (n_spf r) (n_rwcmd r) (n_total_reads r) (n_free_block r) (n_clean_block r) (n_no_block r) (lru_stat_cur_io r) (buf_lru_flush_page_count r) (buf_pool_flushed r) (buf_lru_switched_on_innodb_mon r) (srv_print_innodb_monitor r).
#[global] Instance set_n_spf : Field n_spf := λ v r,
  MkRwStat (n_lru_batch r) (n_ckpt_batch r) (wrap 64 v) (n_rwcmd r) (n_total_reads r) (n_free_block r) (n_clean_block r) (n_no_block r) (lru_stat_cur_io r) (buf_lru_flush_page_count r) (buf_pool_flushed r) (buf_lru_switched_on_innodb_mon r) (srv_print_innodb_monitor r).
#[global] Instance set_n_rwcmd : Field n_rwcmd := λ v r,
  MkRwStat (n_lru_batch r) (n_ckpt_batch r) (n_spf r) (wrap 64 v) (n_total_reads r) (n_free_block r) (n_clean_block r) (n_no_block r) (lru_stat_cur_io r) (buf_lru_flush_page_count r) (buf_pool_flushed r) (buf_lru_switched_on_innodb_mon r) (srv_print_innodb_monitor r).
#[global] Instance set_n_total_reads : Field n_total_reads := λ v r,
  MkRwStat (n_lru_batch r) (n_ckpt_batch r) (n_spf r) (n_rwcmd r) (wrap 64 v) (n_free_block r) (n_clean_block r) (n_no_block r) (lru_stat_cur_io r) (buf_lru_flush_page_count r) (buf_pool_flushed r) (buf_lru_switched_on_innodb_mon r) (srv_print_innodb_monitor r).
#[global] Instance set_n_free_block : Field n_free_block := λ v r,
  MkRwStat (n_lru_batch r) (n_ckpt_batch r) (n_spf r) (n_rwcmd r) (n_total_reads r) (wrap 64 v) (n_clean_block r) (n_no_block r) (lru_stat_cur_io r) (buf_lru_flush_page_count r) (buf_pool_flushed r) (buf_lru_switched_on_innodb_mon r) (srv_print_innodb_monitor r).
#[global] Instance set_n_clean_block : Field n_clean_block := λ v r,
  MkRwStat (n_lru_batch r) (n_ckpt_batch r) (n_spf r) (n_rwcmd r) (n_total_reads r) (n_free_block r) (wrap 64 v) (n_no_block r) (lru_stat_cur_io r) (buf_lru_flush_page_count r) (buf_pool_flushed r) (buf_lru_switched_on_innodb_mon r) (srv_print_innodb_monitor r).
#[global] Instance set_n_no_block : Field n_no_block := λ v r,
  MkRwStat (n_lru_batch r) (n_ckpt_batch r) (n_spf r) (n_rwcmd r) (n_total_reads r) (n_free_block r) (n_clean_block r) (wrap 64 v) (lru_stat_cur_io r) (buf_lru_flush_page_count r) (buf_pool_flushed r) (buf_lru_switched_on_innodb_mon r) (srv_print_innodb_monitor r).
#[global] Instance set_lru_stat_cur_io : Field lru_stat_cur_io := λ v r,
  MkRwStat (n_lru_batch r) (n_ckpt_batch r) (n_spf r) (n_rwcmd r) (n_total_reads r) (n_free_block r) (n_clean_block r) (n_no_block r) (wrap 64 v) (buf_lru_flush_page_count r) (buf_pool_flushed r) (buf_lru_switched_on_innodb_mon r) (srv_print_innodb_monitor r).
#[global] Instance set_buf_lru_flush_page_count : Field buf_lru_flush_page_count := λ v r,
  MkRwStat (n_lru_batch r) (n_ckpt_batch r) (n_spf r) (n_rwcmd r) (n_total_reads r) (n_free_block r) (n_clean_block r) (n_no_block r) (lru_stat_cur_io r) (wrap 64 v) (buf_pool_flushed r) (buf_lru_switched_on_innodb_mon r) (srv_print_innodb_monitor r).
#[global] Instance set_buf_pool_flushed : Field buf_pool_flushed := λ v r,
  MkRwStat (n_lru_batch r) (n_ckpt_batch r) (n_spf r) (n_rwcmd r) (n_total_reads r) (n_free_block r) (n_clean_block r) (n_no_block r) (lru_stat_cur_io r) (buf_lru_flush_page_count r) (wrap 64 v) (buf_lru_switched_on_innodb_mon r) (srv_print_innodb_monitor r).
#[global] Instance set_buf_lru_switched_on_innodb_mon : Field buf_lru_switched_on_innodb_mon := λ v r,
  MkRwStat (n_lru_batch r) (n_ckpt_batch r) (n_spf r) (n_rwcmd r) (n_total_reads r) (n_free_block r) (n_clean_block r) (n_no_block r) (lru_stat_cur_io r) (buf_lru_flush_page_count r) (buf_pool_flushed r) v (srv_print_innodb_monitor r).
#[global] Instance set_srv_print_innodb_monitor : Field srv_print_innodb_monitor := λ v r,
  MkRwStat (n_lru_batch r) (n_ckpt_batch r) (n_spf r) (n_rwcmd r) (n_total_reads r) (n_free_block r) (n_clean_block r) (n_no_block r) (lru_stat_cur_io r) (buf_lru_flush_page_count r) (buf_pool_flushed r) (buf_lru_switched_on_innodb_mon r) v.

(** The state: the pool, the counters, the blocks that the adaptive hash index
    has entries for, and the storage. *)
Record PSt (V : Type) := MkPSt {
  p_pool : buf_pool_t;
  p_stat : RwStat;
  p_ahi : gset Z;
  p_io : V;
}.
Arguments MkPSt {V} _ _ _ _.
Arguments p_pool {V} _.
Arguments p_stat {V} _.
Arguments p_ahi {V} _.
Arguments p_io {V} _.
#[global] Instance set_p_pool {V : Type} : Field (R:=PSt V) (T:=buf_pool_t) p_pool := λ v r,
  MkPSt v (p_stat r) (p_ahi r) (p_io r).
#[global] Instance set_p_stat {V : Type} : Field (R:=PSt V) (T:=RwStat) p_stat := λ v r,
  MkPSt (p_pool r) v (p_ahi r) (p_io r).
#[global] Instance set_p_ahi {V : Type} : Field (R:=PSt V) (T:=gset Z) p_ahi := λ v r,
  MkPSt (p_pool r) (p_stat r) v (p_io r).
#[global] Instance set_p_io {V : Type} : Field (R:=PSt V) (T:=V) p_io := λ v r,
  MkPSt (p_pool r) (p_stat r) (p_ahi r) v.

(** ** What the pool uses *)

(** The settings of the server. *)
Class PoolConfig := {
  srv_checksum_algorithm : srv_checksum_algorithm_t;
  srv_LRU_scan_depth : Z;
  srv_flush_neighbors : Z;
  srv_force_recovery : Z;
  buf_LRU_old_threshold_ms : Z;
  lock_rec_hash : Z → Z → Z;          (** the cell of the lock table for a page *)
}.

(** The tablespace files and the log, as the buffer pool sees them (fil_io,
    fil_io_with_rw_cmd and fil_flush of fil0fil.cc, log_write_up_to and the
    reservation of space in the log buffer of log0log.cc, the dictionary and the
    clock).  A read returns its error code and the page;
    an asynchronous request is carried out when it is posted, and the i/o handler
    thread that completes it later is a call of [buf_page_io_complete]. *)
Class PageIo (V : Type) := {
  fil_io_read : Z → Z → V → dberr_t * page_t * V;
  fil_io_write : Z → Z → page_t → V → V;
  fil_io_rw : Z → Z → page_t → Z → Z → V → dberr_t * page_t * V;
  fil_flush_space : Z → V → V;
  fil_space_get_size : Z → V → Z;
  log_write_up_to : Z → V → V;
  log_reserve_and_write : V → Z * Z * V;  (** the start and the end lsn of the records of a mini-transaction *)
  fil_tablespace_deleted_or_being_deleted_in_mem : Z → V → bool;
  dict_set_corrupted_by_space : Z → V → bool;
  ut_time_ms : V → Z;
  fil_log_fd : V → Z;                  (** log_fd of rw0rw.cc, set when the file is opened *)
}.

Definition SRV_FORCE_IGNORE_CORRUPT := 1.
Definition TRX_SYS_SPACE := 0.
Definition TRX_SYS_PAGE_NO := 5.
Definition FSP_IBUF_BITMAP_OFFSET := 1.
Definition BUF_PAGE_READ_MAX_RETRIES := 100.
Definition FIL_PAGE_PREV := 8.
Definition FIL_PAGE_NEXT := 12.
Definition FIL_PAGE_TYPE := 24.
Definition FIL_PAGE_TYPE_ALLOCATED := 0.

Inductive rw_latch_t := RW_S_LATCH | RW_X_LATCH | RW_NO_LATCH.
Inductive get_mode :=
| BUF_GET | BUF_GET_IF_IN_POOL | BUF_PEEK_IF_IN_POOL | BUF_GET_NO_LATCH | BUF_GET_IF_IN_POOL_OR_WATCH | BUF_GET_POSSIBLY_FREED.
#[global] Instance get_mode_eq_dec : EqDecision get_mode.
Proof. solve_decision. Defined.

#[global] Instance dberr_t_eq_dec : EqDecision dberr_t.
Proof. solve_decision. Defined.

Definition mach_write_to_2 (page : page_t) (off n : Z) : page_t := put_bytes page off [u8 (Z.shiftr n 8); u8 n].
(** memset of [n] bytes of a page *)
Definition memset (page : page_t) (off byte n : Z) : page_t := put_bytes page off (replicate (Z.to_nat n) byte).

(** ** Operations on the tables of the pool alone *)

Section tables.
Context `{HostConfig} `{PoolConfig}.

Abbreviation pM := (M buf_pool_t).

(** The latch of a frame: an attempt that does not wait, the latch of an i/o
    request, which nobody else holds, and the releases.  One thread that waits
    for itself waits for ever. *)
Definition rw_lock_s_lock_nowait (b : Z) : pM bool :=
  l <- !((blk b)∙bl_lock) ;;
  match l with
  | Shared n => (blk b)∙bl_lock ::= Shared (S n) ;; ret true
  | Exclusive => ret false
  end.
Definition rw_lock_s_lock (b : Z) : pM unit :=
  ok <- rw_lock_s_lock_nowait b ;; if ok : bool then skip else fail NoFuel.
Definition rw_lock_x_lock (b : Z) : pM unit :=
  l <- !((blk b)∙bl_lock) ;;
  match l with Shared O => (blk b)∙bl_lock ::= Exclusive | _ => fail NoFuel end.
Definition rw_lock_s_unlock (b : Z) : pM unit :=
  l <- !((blk b)∙bl_lock) ;;
  match l with Shared (S n) => (blk b)∙bl_lock ::= Shared n | _ => fail Assert end.
Definition rw_lock_x_unlock (b : Z) : pM unit :=
  l <- !((blk b)∙bl_lock) ;;
  match l with Exclusive => (blk b)∙bl_lock ::= Shared 0 | _ => fail Assert end.

Definition buf_page_hash_get_low (space offset : Z) : pM (option hash_node) :=
  h <- !(glob page_hash) ;;
  match h !! (space, offset) with
  | Some (Hashed b) => assert_in_file b ;; ret (Some (Hashed b))
  | o => ret o
  end.

Definition buf_page_can_relocate (r : buf_block_t) : bool :=
  bool_decide (io_fix r = BUF_IO_NONE) && (buf_fix_count r =? 0).

Definition buf_flush_ready_for_replace (b : Z) : pM bool :=
  r <- !(blk b) ;;
  in_file <- buf_page_in_file (bp_state r) ;;
  ret (in_file && (oldest_modification r =? 0) && (buf_fix_count r =? 0) && negb (target_rw_cmd r)
       && negb (use_rw_cmd r) && bool_decide (io_fix r = BUF_IO_NONE)).

Definition buf_flush_ready_for_flush (b : Z) : pM bool :=
  r <- !(blk b) ;;
  if use_rw_cmd r || target_rw_cmd r || bool_decide (bp_state r = BUF_BLOCK_MEMORY) then ret false else
  assert_in_file b ;;
  ret (negb ((oldest_modification r =? 0) || negb (bool_decide (io_fix r = BUF_IO_NONE)))).

(** *** The flush list *)

Definition buf_flush_insert_into_flush_list (b lsn : Z) : pM unit :=
  (blk b)∙oldest_modification ::= lsn ;;
  modify (glob flush_list) (cons b) ;;
  modify (glob flush_list_bytes) (λ n, n + UNIV_PAGE_SIZE).

(** The linear search of buf_flush_insert_sorted_into_flush_list: the blocks
    modified after [lsn], then the block, then the others. *)
Fixpoint sorted_position (m : gmap Z buf_block_t) (b lsn : Z) (l : list Z) : list Z :=
  match l with
  | x :: l' =>
      match m !! x with
      | Some r => if lsn <? oldest_modification r then x :: sorted_position m b lsn l' else b :: l
      | None => b :: l
      end
  | [] => [b]
  end.
Definition buf_flush_insert_sorted_into_flush_list (b lsn : Z) : pM unit :=
  (blk b)∙oldest_modification ::= lsn ;;
  m <- !(glob blocks) ;;
  modify (glob flush_list) (sorted_position m b lsn) ;;
  modify (glob flush_list_bytes) (λ n, n + UNIV_PAGE_SIZE).

Definition buf_flush_note_modification (b start_lsn end_lsn : Z) (made_dirty : bool) : pM unit :=
  (blk b)∙newest_modification ::= end_lsn ;;
  o <- !((blk b)∙oldest_modification) ;;
  when (o =? 0) (ASSERT made_dirty ;; buf_flush_insert_into_flush_list b start_lsn).

Definition buf_flush_recv_note_modification (b start_lsn end_lsn : Z) : pM unit :=
  (blk b)∙newest_modification ::= end_lsn ;;
  o <- !((blk b)∙oldest_modification) ;;
  when (o =? 0) (buf_flush_insert_sorted_into_flush_list b start_lsn).

(** The hazard pointer of a scan of the flush list. *)
Definition buf_flush_set_hp (o : option Z) : pM unit := glob flush_list_hp ::= o.
Definition buf_flush_is_hp (o : option Z) : pM bool := hp <- !(glob flush_list_hp) ;; ret (bool_decide (hp = o)).
Definition buf_flush_update_hp (b : Z) : pM unit := is_hp <- buf_flush_is_hp (Some b) ;; when is_hp (buf_flush_set_hp None).

Definition buf_flush_remove (b : Z) : pM unit :=
  st <- !((blk b)∙bp_state) ;;
  (match st with
   | BUF_BLOCK_ZIP_DIRTY =>
       (blk b)∙bp_state ::= BUF_BLOCK_ZIP_PAGE ;; modify (glob flush_list) (λ l, UT_LIST_REMOVE l b)
   | BUF_BLOCK_FILE_PAGE => modify (glob flush_list) (λ l, UT_LIST_REMOVE l b)
   | _ => fail Assert
   end) ;;
  modify (glob flush_list_bytes) (λ n, n - UNIV_PAGE_SIZE) ;;
  (blk b)∙oldest_modification ::= 0 ;;
  buf_flush_update_hp b.

Definition count_flush (t : buf_flush_t) (f : Z → Z) : pM unit :=
  modify (glob n_flush) (λ n t', if decide (t' = t) then u64 (f (n t)) else n t').

(** os_event_set and os_event_reset of no_flush *)
Definition event_no_flush (t : buf_flush_t) (x : bool) : pM unit :=
  modify (glob no_flush) (λ e t', if decide (t' = t) then x else e t').

Definition buf_flush_write_complete (b : Z) : pM unit :=
  buf_flush_remove b ;;
  t <- !((blk b)∙flush_type) ;;
  count_flush t (λ n, n - 1) ;;
  n <- !(glob n_flush) ;; init <- !(glob init_flush) ;;
  when ((n t =? 0) && negb (init t)) (event_no_flush t true).

(** *** The free list *)

Definition buf_LRU_get_free_only : pM (option Z) :=
  free <- !(glob pool_free) ;;
  match free with
  | [] => ret None
  | b :: _ =>
      st <- !((blk b)∙bp_state) ;;
      in_file <- buf_page_in_file st ;;
      ASSERT (negb in_file) ;;
      glob pool_free ::= UT_LIST_REMOVE free b ;;
      (blk b)∙bp_state ::= BUF_BLOCK_READY_FOR_USE ;;
      ret (Some b)
  end.

Definition buf_LRU_buf_pool_running_out : pM bool :=
  free <- !(glob pool_free) ;; lru <- !(glob pool_LRU) ;; n <- !(glob curr_size) ;;
  ret (UT_LIST_GET_LEN free + UT_LIST_GET_LEN lru <? n / 4).

Definition buf_LRU_block_free_non_file_page (b : Z) : pM unit :=
  st <- !((blk b)∙bp_state) ;;
  (match st with BUF_BLOCK_MEMORY | BUF_BLOCK_READY_FOR_USE => skip | _ => fail Assert end) ;;
  (blk b)∙bp_state ::= BUF_BLOCK_NOT_USED ;;
  modify ((blk b)∙frame) (λ f, memset (memset f FIL_PAGE_OFFSET 0xfe 4) FIL_PAGE_ARCH_LOG_NO_OR_SPACE_ID 0xfe 4) ;;
  modify (glob pool_free) (cons b).

Definition buf_block_free (b : Z) : pM unit :=
  st <- !((blk b)∙bp_state) ;;
  ASSERT (negb (bool_decide (st = BUF_BLOCK_FILE_PAGE))) ;;
  buf_LRU_block_free_non_file_page b.

(** *** Eviction *)

(** The part that buf_LRU_block_remove_hashed and its copy for the RW command
    share: out of the LRU list and out of page_hash. *)
Definition remove_from_tables (b : Z) : pM unit :=
  r <- !(blk b) ;;
  ASSERT (bool_decide (io_fix r = BUF_IO_NONE)) ;;
  ASSERT (buf_fix_count r =? 0) ;;
  buf_LRU_remove_block b ;;
  modify (glob pool_freed_page_clock) (λ n, n + 1) ;;
  r <- !(blk b) ;;
  (match bp_state r with
   | BUF_BLOCK_FILE_PAGE => modify ((blk b)∙modify_clock) (λ n, n + 1) ;; ASSERT (oldest_modification r =? 0)
   | BUF_BLOCK_ZIP_PAGE => ASSERT (oldest_modification r =? 0)
   | _ => fail Assert
   end) ;;
  hashed <- buf_page_hash_get_low (bp_space r) (bp_offset r) ;;
  ASSERT (match hashed with Some (Hashed b') => b' =? b | _ => false end) ;;
  modify (glob page_hash) (delete (bp_space r, bp_offset r)).

(** Without compressed pages the state is BUF_BLOCK_FILE_PAGE: a compressed page
    has no zip.data to free. *)
Definition buf_LRU_block_remove_hashed (b : Z) : pM bool :=
  remove_from_tables b ;;
  st <- !((blk b)∙bp_state) ;;
  match st with
  | BUF_BLOCK_FILE_PAGE =>
      modify ((blk b)∙frame) (λ f, memset (memset f FIL_PAGE_OFFSET 0xff 4) FIL_PAGE_ARCH_LOG_NO_OR_SPACE_ID 0xff 4) ;;
      (blk b)∙bp_state ::= BUF_BLOCK_REMOVE_HASH ;;
      (blk b)∙bp_space ::= ULINT32_UNDEFINED ;;
      (blk b)∙bp_offset ::= ULINT32_UNDEFINED ;;
      ret true
  | _ => fail Assert
  end.

Definition buf_LRU_block_remove_hashed_for_rw_cmd (b : Z) : pM bool :=
  (blk b)∙target_rw_cmd ::= false ;;
  (blk b)∙use_rw_cmd ::= true ;;
  remove_from_tables b ;;
  st <- !((blk b)∙bp_state) ;;
  match st with
  | BUF_BLOCK_FILE_PAGE =>
      (blk b)∙bp_state ::= BUF_BLOCK_READY_FOR_USE ;;
      (blk b)∙bp_space ::= ULINT32_UNDEFINED ;;
      (blk b)∙bp_offset ::= ULINT32_UNDEFINED ;;
      ret true
  | _ => fail Assert
  end.

Definition buf_LRU_block_free_hashed_page (b : Z) : pM unit :=
  (blk b)∙bp_state ::= BUF_BLOCK_MEMORY ;; buf_LRU_block_free_non_file_page b.

Definition buf_LRU_free_one_page (b : Z) : pM unit :=
  ok <- buf_LRU_block_remove_hashed b ;; when ok (buf_LRU_block_free_hashed_page b).

(** *** A block for a page *)

Definition buf_block_set_file_page (b space page_no : Z) : pM unit :=
  (blk b)∙bp_state ::= BUF_BLOCK_FILE_PAGE ;;
  (blk b)∙bp_space ::= space ;;
  (blk b)∙bp_offset ::= page_no.

Definition buf_block_init_low_with_rw_cmd (b : Z) : pM unit :=
  (blk b)∙check_index_page_at_flush ::= false ;;
  (blk b)∙bl_index ::= None ;;
  (blk b)∙n_hash_helps ::= 0 ;;
  (blk b)∙n_fields ::= 1 ;;
  (blk b)∙n_bytes ::= 0 ;;
  (blk b)∙left_side ::= true.

Definition buf_block_init_low (b : Z) : pM unit :=
  buf_block_init_low_with_rw_cmd b ;; (blk b)∙use_rw_cmd ::= false.

Definition buf_page_init_low (b : Z) : pM unit :=
  (blk b)∙flush_type ::= BUF_FLUSH_LRU ;;
  (blk b)∙io_fix ::= BUF_IO_NONE ;;
  (blk b)∙buf_fix_count ::= 0 ;;
  (blk b)∙bp_freed_page_clock ::= 0 ;;
  (blk b)∙access_time ::= 0 ;;
  (blk b)∙newest_modification ::= 0 ;;
  (blk b)∙oldest_modification ::= 0 ;;
  (blk b)∙target_rw_cmd ::= false.

(** The end of both functions that put a block into page_hash; a watch on the
    page passes its fix count on. *)
Definition insert_into_page_hash (b space offset : Z) : pM unit :=
  hash_page <- buf_page_hash_get_low space offset ;;
  (match hash_page with
   | None => skip
   | Some (Sentinel n) =>
       ASSERT (0 <? n) ;;
       modify ((blk b)∙buf_fix_count) (λ c, c + n) ;;
       modify (glob page_hash) (delete (space, offset))
   | Some (Hashed _) => fail Assert
   end) ;;
  modify (glob page_hash) <[(space, offset) := Hashed b]>.

Definition buf_page_init (space offset b : Z) : pM unit :=
  st <- !((blk b)∙bp_state) ;;
  ASSERT (negb (bool_decide (st = BUF_BLOCK_FILE_PAGE))) ;;
  buf_block_set_file_page b space offset ;;
  buf_block_init_low b ;;
  (blk b)∙lock_hash_val ::= lock_rec_hash space offset ;;
  buf_page_init_low b ;;
  insert_into_page_hash b space offset.

Definition buf_page_init_with_rw_cmd (space offset b : Z) : pM unit :=
  buf_block_set_file_page b space offset ;;
  buf_block_init_low_with_rw_cmd b ;;
  (blk b)∙lock_hash_val ::= lock_rec_hash space offset ;;
  buf_page_init_low b ;;
  insert_into_page_hash b space offset.

(** *** Access to a page in the pool *)

Definition buf_block_fix (b : Z) : pM unit := incr ((blk b)∙buf_fix_count).
Definition buf_block_unfix (b : Z) : pM unit := decr ((blk b)∙buf_fix_count).

Definition buf_page_peek_if_young (b : Z) : pM bool :=
  c <- !(glob pool_freed_page_clock) ;; r <- !(blk b) ;; n <- !(glob curr_size) ;; ratio <- !(glob LRU_old_ratio) ;;
  ret (Z.land c (2 ^ 31 - 1) <?
       u64 (bp_freed_page_clock r + u64 (n * u64 (BUF_LRU_OLD_RATIO_DIV - ratio)) / (BUF_LRU_OLD_RATIO_DIV * 4))).

Definition buf_page_peek_if_too_old (now b : Z) : pM bool :=
  c <- !(glob pool_freed_page_clock) ;;
  if c =? 0 then ret false else
  r <- !(blk b) ;;
  if negb (buf_LRU_old_threshold_ms =? 0) && bp_old r then
    if (0 <? access_time r) && (buf_LRU_old_threshold_ms <=? u32 (now - access_time r)) then ret true
    else incr (glob n_pages_not_made_young) ;; ret false
  else y <- buf_page_peek_if_young b ;; ret (negb y).

Definition buf_page_make_young (b : Z) : pM unit := assert_in_file b ;; buf_LRU_make_block_young b.

Definition buf_page_make_young_if_needed (now b : Z) : pM unit :=
  assert_in_file b ;;
  old <- buf_page_peek_if_too_old now b ;;
  when old (buf_page_make_young b).

Definition buf_page_set_accessed (now b : Z) : pM unit :=
  assert_in_file b ;;
  t <- !((blk b)∙access_time) ;;
  when (t =? 0) ((blk b)∙access_time ::= now).

Definition buf_page_release (b : Z) (latch : rw_latch_t) : pM unit :=
  st <- !((blk b)∙bp_state) ;;
  ASSERT (bool_decide (st = BUF_BLOCK_FILE_PAGE)) ;;
  (match latch with
   | RW_S_LATCH => rw_lock_s_unlock b
   | RW_X_LATCH => rw_lock_x_unlock b
   | RW_NO_LATCH => skip
   end) ;;
  buf_block_unfix b.
End tables.

(** ** Operations with input and output *)

Section pool.
Context `{HostConfig} `{PoolConfig} {V : Type} `{PageIo V}.

Abbreviation sM := (M (PSt V)).

(** An operation of the tables, a counter, a call of the storage. *)
Definition pool {A} (m : M buf_pool_t A) : sM A := zoom p_pool m.
Definition stat {T} (get : RwStat → T) `{!Field get} : lval (PSt V) T := (glob p_stat)∙get.
Definition io {A} (f : V → A * V) : sM A := zoom p_io (λ v, let (a, v') := f v in Ok a v').
Definition io_do (f : V → V) : sM unit := modify (glob p_io) f.
Definition io_look {A} (f : V → A) : sM A := v <- !(glob p_io) ;; ret (f v).
Definition buf_LRU_stat_inc_io : sM unit := incr (stat lru_stat_cur_io).

(** The entries of the adaptive hash index for the page in a block go away
    (btr0sea.cc). *)
Definition btr_search_drop_page_hash_index (b : Z) : sM unit :=
  i <- pool (!((blk b)∙bl_index)) ;;
  when (bool_decide (is_Some i)) (modify (glob p_ahi) (λ s, s ∖ {[b]}) ;; pool ((blk b)∙bl_index ::= None)).

(** *** Completion of a request *)

Definition buf_mark_space_corrupt (b : Z) : sM bool :=
  space <- pool (!((blk b)∙bp_space)) ;;
  pool ((blk b)∙io_fix ::= BUF_IO_NONE ;; rw_lock_x_unlock b) ;;
  ok <- io_look (dict_set_corrupted_by_space space) ;;
  when ok (pool (buf_LRU_free_one_page b)) ;;
  pool (decr (glob n_pend_reads)) ;;
  ret ok.

(** What buf_page_io_complete does to a page that was read, before it releases
    it: [true] when the page was corrupt and its space has been marked. *)
Definition check_read (b : Z) : sM bool :=
  r <- pool (!(blk b)) ;;
  ASSERT (bool_decide (bp_state r = BUF_BLOCK_FILE_PAGE)) ;;
  if buf_page_is_corrupted srv_checksum_algorithm (frame r) && (srv_force_recovery <? SRV_FORCE_IGNORE_CORRUPT) then
    if TRX_SYS_SPACE <? bp_space r then
      marked <- buf_mark_space_corrupt b ;;
      ASSERT marked ;; ret true
    else fail Assert
  else ret false.

Definition buf_page_io_complete (b : Z) : sM bool :=
  pool (assert_in_file b) ;;
  io_type <- pool (!((blk b)∙io_fix)) ;;
  marked <- (if bool_decide (io_type = BUF_IO_READ) then check_read b else ret false) ;;
  if marked : bool then ret false else
  pool ((blk b)∙io_fix ::= BUF_IO_NONE) ;;
  (match io_type with
   | BUF_IO_READ =>
       pool (decr (glob n_pend_reads) ;; incr (glob n_pages_read)) ;;
       incr (stat n_total_reads) ;;
       pool (rw_lock_x_unlock b)
   | BUF_IO_WRITE =>
       pool (buf_flush_write_complete b ;; rw_lock_s_unlock b ;; incr (glob n_pages_written))
   | _ => fail Assert
   end) ;;
  ret true.

(** *** Writes *)

(** The page is stamped for writing in its frame. *)
Definition stamp (b : Z) : sM buf_block_t :=
  st <- pool (!((blk b)∙bp_state)) ;;
  match st with
  | BUF_BLOCK_FILE_PAGE =>
      n <- pool (!((blk b)∙newest_modification)) ;;
      pool (modify ((blk b)∙frame) (λ f, buf_flush_init_for_writing srv_checksum_algorithm f n)) ;;
      pool (!(blk b))
  | BUF_BLOCK_ZIP_DIRTY => fail Undef      (* a compressed page *)
  | _ => fail Assert
  end.

Definition buf_flush_write_block_low (b : Z) (sync : bool) : sM unit :=
  n <- pool (!((blk b)∙newest_modification)) ;;
  io_do (log_write_up_to n) ;;
  r <- stamp b ;;
  io_do (fil_io_write (bp_space r) (bp_offset r) (frame r)) ;;
  when sync (io_do (fil_flush_space (bp_space r)) ;; buf_page_io_complete b ;; skip) ;;
  buf_LRU_stat_inc_io.

Definition start_write (b : Z) (type : buf_flush_t) : M buf_pool_t unit :=
  (blk b)∙io_fix ::= BUF_IO_WRITE ;;
  (blk b)∙BufLru.flush_type ::= type ;;
  n <- !(glob n_flush) ;;
  when (n type =? 0) (event_no_flush type false) ;;
  count_flush type (λ n, n + 1).

Definition buf_flush_page (b : Z) (type : buf_flush_t) (sync : bool) : sM bool :=
  r <- pool (!(blk b)) ;;
  let is_uncompressed := bool_decide (bp_state r = BUF_BLOCK_FILE_PAGE) in
  let no_fix_count := buf_fix_count r =? 0 in
  flush <- (if negb is_uncompressed then ret true
            else if negb (no_fix_count || bool_decide (type = BUF_FLUSH_LIST)) then ret false
            else if negb (bool_decide (type = BUF_FLUSH_LIST)) then pool (rw_lock_s_lock_nowait b)
            else ret true) ;;
  when flush
    (pool (start_write b type) ;;
     when (bool_decide (type = BUF_FLUSH_LIST) && is_uncompressed) (pool (rw_lock_s_lock b)) ;;
     when (bool_decide (type = BUF_FLUSH_LIST)) (incr (stat n_ckpt_batch)) ;;
     when (bool_decide (type = BUF_FLUSH_LRU)) (incr (stat n_lru_batch)) ;;
     buf_flush_write_block_low b sync) ;;
  ret flush.

Definition buf_flush_page_with_rw_cmd (b : Z) (type : buf_flush_t) (space offset : Z) : sM bool :=
  flush <- pool (rw_lock_s_lock_nowait b) ;;
  when flush
    (pool (start_write b type) ;;
     n <- pool (!((blk b)∙newest_modification)) ;;
     io_do (log_write_up_to n) ;;
     r <- stamp b ;;
     '(err, page) <- io (fil_io_rw (bp_space r) (bp_offset r) (frame r) space offset) ;;
     pool ((blk b)∙frame ::= page) ;;
     ASSERT (bool_decide (err = DB_SUCCESS)) ;;
     buf_page_io_complete b ;;
     buf_LRU_stat_inc_io) ;;
  ret flush.

(** The search for a victim from the end of the LRU list. *)
Fixpoint flush_victim (space offset : Z) (l : list Z) : sM (option Z) :=
  match l with
  | [] => ret None
  | b :: l =>
      r <- pool (!(blk b)) ;;
      log_fd <- io_look fil_log_fd ;;
      if bp_space r <? u32 log_fd then flush_victim space offset l else
      ready <- (if buf_fix_count r =? 0 then pool (buf_flush_ready_for_flush b) else ret false) ;;
      if ready : bool then
        pool ((blk b)∙target_rw_cmd ::= true) ;;
        flushed <- buf_flush_page_with_rw_cmd b BUF_FLUSH_SINGLE_PAGE space offset ;;
        if flushed : bool then ret (Some b)
        else pool ((blk b)∙target_rw_cmd ::= false) ;; flush_victim space offset l
      else flush_victim space offset l
  end.
Definition buf_flush_single_page_with_rw_cmd (space offset : Z) : sM (option Z) :=
  lru <- pool (!(glob pool_LRU)) ;; flush_victim space offset (reverse lru).

(** *** Eviction of clean pages *)

Definition buf_LRU_free_page (b : Z) : sM bool :=
  r <- pool (!(blk b)) ;;
  if use_rw_cmd r || target_rw_cmd r then ret false
  else if negb (buf_page_can_relocate r) then ret false
  else if negb (oldest_modification r =? 0) then ret false
  else
    removed <- pool (buf_LRU_block_remove_hashed b) ;;
    if negb removed then ret true else
    pool ((blk b)∙io_fix ::= BUF_IO_PIN) ;;
    btr_search_drop_page_hash_index b ;;
    pool ((blk b)∙io_fix ::= BUF_IO_NONE) ;;
    pool (buf_LRU_block_free_hashed_page b) ;;
    ret true.

Fixpoint flush_single (l : list Z) : sM bool :=
  match l with
  | [] => ret false
  | b :: l =>
      r <- pool (!(blk b)) ;;
      if target_rw_cmd r || use_rw_cmd r then flush_single l else
      ready <- pool (buf_flush_ready_for_flush b) ;;
      if ready : bool then
        flushed <- buf_flush_page b BUF_FLUSH_SINGLE_PAGE true ;;
        if flushed : bool then ret true else flush_single l
      else flush_single l
  end.
Fixpoint free_first (l : list Z) : sM bool :=
  match l with
  | [] => ret false
  | b :: l =>
      ready <- pool (buf_flush_ready_for_replace b) ;;
      if ready : bool then buf_LRU_free_page b else free_first l
  end.
Definition buf_flush_single_page_from_LRU : sM bool :=
  lru <- pool (!(glob pool_LRU)) ;;
  flushed <- flush_single (reverse lru) ;;
  if negb flushed then ret false else
  lru <- pool (!(glob pool_LRU)) ;; free_first (reverse lru).

Fixpoint free_from_tail (scan_all : bool) (scanned : Z) (l : list Z) : sM bool :=
  match l with
  | [] => ret false
  | b :: l =>
      if scan_all || (scanned <? srv_LRU_scan_depth) then
        accessed <- pool (!((blk b)∙access_time)) ;;
        freed <- buf_LRU_free_page b ;;
        when (freed && (accessed =? 0)) (pool (incr (glob n_ra_pages_evicted))) ;;
        if freed : bool then ret true else free_from_tail scan_all (scanned + 1) l
      else ret false
  end.
Definition buf_LRU_free_from_common_LRU_list (scan_all : bool) : sM bool :=
  lru <- pool (!(glob pool_LRU)) ;; free_from_tail scan_all 1 (reverse lru).
(** There are no compressed pages to free first. *)
Definition buf_LRU_scan_and_free_block : bool → sM bool := buf_LRU_free_from_common_LRU_list.

(** *** The search for a free block *)

Definition buf_LRU_check_size_of_non_data_objects : sM unit :=
  p <- !(glob p_pool) ;;
  let used := UT_LIST_GET_LEN (pool_free p) + UT_LIST_GET_LEN (pool_LRU p) in
  if used <? curr_size p / 20 then fail Assert else
  on <- !(stat buf_lru_switched_on_innodb_mon) ;;
  if used <? curr_size p / 3 then
    when (negb on) (stat buf_lru_switched_on_innodb_mon ::= true ;; stat srv_print_innodb_monitor ::= true)
  else when on (stat buf_lru_switched_on_innodb_mon ::= false ;; stat srv_print_innodb_monitor ::= false).

(** The local variables of the loop: n_iterations, mon_value_was and
    started_monitor; flush_failures is only printed. *)
Record search := MkSearch { n_iterations : Z; mon_value_was : bool; started_monitor : bool }.

Definition get_free_step (space offset : Z) (v : search) : sM (search + Z) :=
  buf_LRU_check_size_of_non_data_objects ;;
  block <- pool buf_LRU_get_free_only ;;
  match block with
  | Some b =>
      when (started_monitor v) (stat srv_print_innodb_monitor ::= mon_value_was v) ;;
      incr (stat n_free_block) ;; ret (inr b)
  | None =>
      try <- pool (!(glob try_LRU_scan)) ;;
      freed <- (if (try : bool) || (0 <? n_iterations v)
                then f <- buf_LRU_scan_and_free_block (0 <? n_iterations v) ;;
                     when (negb f && (n_iterations v =? 0)) (pool (glob try_LRU_scan ::= false)) ;; ret f
                else ret false) ;;
      if freed : bool then incr (stat n_clean_block) ;; ret (inl v) else
      v <- (if 20 <? n_iterations v
            then was <- !(stat srv_print_innodb_monitor) ;;
                 stat srv_print_innodb_monitor ::= true ;; ret (MkSearch (n_iterations v) was true)
            else ret v) ;;
      block <- buf_flush_single_page_with_rw_cmd space offset ;;
      match block with
      | Some b =>
          pool (buf_LRU_block_remove_hashed_for_rw_cmd b) ;;
          incr (stat n_rwcmd) ;; incr (stat n_no_block) ;; ret (inr b)
      | None =>
          ok <- buf_flush_single_page_from_LRU ;;
          when ok (incr (stat n_spf) ;; incr (stat n_no_block)) ;;
          ret (inl (MkSearch (u64 (n_iterations v + 1)) (mon_value_was v) (started_monitor v)))
      end
  end.
(** [fuel] bounds the number of times the search starts again. *)
Definition buf_LRU_get_free_block (fuel : nat) (space offset : Z) : sM Z :=
  loop fuel (get_free_step space offset) (MkSearch 0 false false).

Definition buf_block_alloc (fuel : nat) : sM Z :=
  b <- buf_LRU_get_free_block fuel 0 0 ;;
  pool ((blk b)∙bp_state ::= BUF_BLOCK_MEMORY) ;;
  ret b.

(** *** Reads *)

Definition is_resident (n : option hash_node) : option Z := match n with Some (Hashed b) => Some b | _ => None end.

(** [None]: NULL.  The mode is BUF_READ_ANY_PAGE. *)
Definition buf_page_init_for_read (fuel : nat) (space offset : Z) (sync : bool) : sM (dberr_t * option Z) :=
  b <- (if sync then buf_LRU_get_free_block fuel space offset else buf_LRU_get_free_block fuel 0 0) ;;
  let err_exit (err : dberr_t) : sM (dberr_t * option Z) :=
    r <- pool (!(blk b)) ;;
    when (negb (use_rw_cmd r) && negb (target_rw_cmd r)) (pool (buf_LRU_block_free_non_file_page b)) ;;
    ret (err, None) in
  watch_page <- pool (buf_page_hash_get_low space offset) ;;
  if bool_decide (is_Some (is_resident watch_page)) then err_exit DB_SUCCESS else
  deleted <- io_look (fil_tablespace_deleted_or_being_deleted_in_mem space) ;;
  if deleted : bool then err_exit DB_TABLESPACE_DELETED else
  r <- pool (!(blk b)) ;;
  pool (if use_rw_cmd r && (mach_read_from_4 (frame r) FIL_PAGE_ARCH_LOG_NO_OR_SPACE_ID =? space)
           && (mach_read_from_4 (frame r) FIL_PAGE_OFFSET =? offset)
        then buf_page_init_with_rw_cmd space offset b
        else buf_page_init space offset b) ;;
  pool ((blk b)∙io_fix ::= BUF_IO_READ) ;;
  r <- pool (!(blk b)) ;;
  pool (buf_LRU_add_block b (negb (use_rw_cmd r))) ;;
  pool (rw_lock_x_lock b) ;;
  pool (incr (glob n_pend_reads)) ;;
  ret (DB_SUCCESS, Some b).

Definition buf_read_page_handle_error (b : Z) : sM unit :=
  pool ((blk b)∙io_fix ::= BUF_IO_NONE ;; rw_lock_x_unlock b ;; buf_LRU_free_one_page b ;; decr (glob n_pend_reads)).

Definition ibuf_bitmap_page (page_no : Z) : bool := Z.land page_no (UNIV_PAGE_SIZE - 1) =? FSP_IBUF_BITMAP_OFFSET.
Definition trx_sys_hdr_page (space page_no : Z) : bool := (space =? TRX_SYS_SPACE) && (page_no =? TRX_SYS_PAGE_NO).

(** The error code and the number of requests issued. *)
Definition buf_read_page_low (fuel : nat) (sync : bool) (ignore_nonexistent_pages : bool) (space offset : Z) : sM (dberr_t * Z) :=
  let sync := sync || ibuf_bitmap_page offset || trx_sys_hdr_page space offset in
  '(err, bpage) <- buf_page_init_for_read fuel space offset sync ;;
  match bpage with
  | None => ret (err, 0)
  | Some b =>
      r <- pool (!(blk b)) ;;
      err <- (if negb (use_rw_cmd r)
              then ASSERT (bool_decide (bp_state r = BUF_BLOCK_FILE_PAGE)) ;;
                   '(err, page) <- io (fil_io_read space offset) ;;
                   pool ((blk b)∙frame ::= page) ;; ret err
              else ret DB_SUCCESS) ;;
      if negb (bool_decide (err = DB_SUCCESS)) then
        if ignore_nonexistent_pages || bool_decide (err = DB_TABLESPACE_DELETED) then
          buf_read_page_handle_error b ;;
          pool ((blk b)∙use_rw_cmd ::= false) ;; ret (err, 0)
        else fail Assert
      else if sync then
        pool ((blk b)∙use_rw_cmd ::= false) ;;
        ok <- buf_page_io_complete b ;;
        ret (err, if ok : bool then 1 else 0)
      else ret (err, 1)
  end.

Definition buf_read_page (fuel : nat) (space offset : Z) : sM bool :=
  '(_, count) <- buf_read_page_low fuel true false space offset ;;
  buf_LRU_stat_inc_io ;;
  ret (0 <? count).

(** *** Access to a page *)

(** The number of attempts to read the page is the local variable [retries]; a
    page that another thread is replacing makes this one try again. *)
Definition get_gen_step (fuel : nat) (space offset : Z) (mode : get_mode) (retries : Z) : sM (Z + option Z) :=
  node <- pool (buf_page_hash_get_low space offset) ;;
  block <- (match is_resident node with
            | Some b => r <- pool (!(blk b)) ;; ret (if target_rw_cmd r || use_rw_cmd r then None else Some b)
            | None => ret None
            end) ;;
  match block with
  | Some b => pool (buf_block_fix b) ;; ret (inr (Some b))
  | None =>
      match mode with
      | BUF_GET_IF_IN_POOL_OR_WATCH => fail Undef      (* block->target_rw_cmd of NULL *)
      | BUF_GET_IF_IN_POOL | BUF_PEEK_IF_IN_POOL => ret (inr None)
      | _ =>
          ok <- buf_read_page fuel space offset ;;
          if ok : bool then ret (inl 0)
          else if retries <? BUF_PAGE_READ_MAX_RETRIES then ret (inl (retries + 1))
          else fail Assert
      end
  end.

(** [tries] bounds the number of times the search starts again; a guess is not
    given. *)
Definition buf_page_get_gen (tries fuel : nat) (space offset : Z) (latch : rw_latch_t) (mode : get_mode) : sM (option Z) :=
  pool (incr (glob n_page_gets)) ;;
  block <- loop tries (get_gen_step fuel space offset mode) 0 ;;
  match block with
  | None => ret None
  | Some b =>
      r <- pool (!(blk b)) ;;
      if bool_decide (mode = BUF_GET_IF_IN_POOL ∨ mode = BUF_PEEK_IF_IN_POOL) && bool_decide (io_fix r = BUF_IO_READ)
      then pool (buf_block_unfix b) ;; ret None else
      ASSERT (bool_decide (bp_state r = BUF_BLOCK_FILE_PAGE)) ;;
      now <- io_look ut_time_ms ;;
      when (access_time r =? 0) (pool (buf_page_set_accessed (u32 now) b)) ;;
      when (negb (bool_decide (mode = BUF_PEEK_IF_IN_POOL))) (pool (buf_page_make_young_if_needed now b)) ;;
      (if bool_decide (io_fix r = BUF_IO_READ) then fail NoFuel else skip) ;;
      pool (match latch with
            | RW_NO_LATCH => skip
            | RW_S_LATCH => rw_lock_s_lock b
            | RW_X_LATCH => rw_lock_x_lock b
            end) ;;
      ret (Some b)
  end.

Definition buf_page_create (tries fuel : nat) (space offset : Z) : sM (option Z) :=
  free_block <- buf_LRU_get_free_block fuel 0 0 ;;
  node <- pool (buf_page_hash_get_low space offset) ;;
  match is_resident node with
  | Some _ =>
      pool (buf_block_free free_block) ;;
      buf_page_get_gen tries fuel space offset RW_NO_LATCH BUF_GET_NO_LATCH
  | None =>
      let b := free_block in
      pool (buf_page_init space offset b) ;;
      pool (buf_LRU_add_block b false) ;;
      pool (buf_block_fix b) ;;
      pool (incr (glob n_pages_created)) ;;
      now <- io_look ut_time_ms ;;
      pool (buf_page_set_accessed (u32 now) b) ;;
      pool (modify ((blk b)∙frame) (λ f,
        memset (mach_write_to_2 (memset (memset f FIL_PAGE_PREV 0xff 4) FIL_PAGE_NEXT 0xff 4)
                  FIL_PAGE_TYPE FIL_PAGE_TYPE_ALLOCATED) FIL_PAGE_FILE_FLUSH_LSN 0 8)) ;;
      ret (Some b)
  end.
End pool.
