(* ===== verification/BufBatch.v ===== *)
(** The batches that write pages back in the background: the neighbours of a page,
    the batches over the LRU list and over the flush list (buf0flu.cc), the page
    cleaner's scan of the tail of the LRU list, and the flush before a checkpoint
    (log0log.cc).  A batch posts its writes; the i/o handler threads complete them
    when somebody waits for the end of the batch. *)
From S2P Require Import Prelude Frame HostLld Crc32 Fil PageFormat FilInv BufLru BufPool.

Definition BUF_LRU_MIN_LEN := 256.
Definition PAGE_CLEANER_LRU_BATCH_CHUNK_SIZE := 100.
Definition ULINT_MAX := 2 ^ 64 - 1.

(** The loop of ut_2_power_up; 64 doublings reach every number of 64 bits that has
    a power of two above it. *)
Fixpoint power_up (fuel : nat) (res n : Z) : Z :=
  match fuel with
  | O => res
  | S fuel => if res <? n then power_up fuel (u64 (res * 2)) n else res
  end.
Definition ut_2_power_up (n : Z) : Z := power_up 64 1 n.

Definition BUF_READ_AHEAD_AREA (curr_size : Z) : Z := Z.min 64 (ut_2_power_up (curr_size / 32)).

Section batch.
Context `{HostConfig} `{PoolConfig} {V : Type} `{PageIo V}.

Abbreviation sM := (M (PSt V)).

(** ** The neighbours of a page *)

(** buf_page_hash_get: a watch is not a page. *)
Definition buf_page_hash_get (space offset : Z) : sM (option Z) :=
  node <- pool (buf_page_hash_get_low space offset) ;; ret (is_resident node).

Definition buf_flush_check_neighbor (space offset : Z) (type : buf_flush_t) : sM bool :=
  bpage <- buf_page_hash_get space offset ;;
  match bpage with
  | None => ret false
  | Some b =>
      pool (assert_in_file b) ;;
      old <- pool (!((blk b)∙bp_old)) ;;
      if negb (bool_decide (type = BUF_FLUSH_LRU)) || (old : bool) then pool (buf_flush_ready_for_flush b) else ret false
  end.

(** The two loops that limit the area to the contiguous dirty pages: down from
    [i] to [low], up from [i] to [high]; each ends after at most [n] steps. *)
Definition dirty_below (n : nat) (space low : Z) (type : buf_flush_t) : Z → sM Z :=
  loop n (λ i, if low <=? i then
                 ok <- buf_flush_check_neighbor space i type ;;
                 ret (if ok : bool then inl (u64 (i - 1)) else inr i)
               else ret (inr i)).
Definition dirty_above (n : nat) (space high : Z) (type : buf_flush_t) : Z → sM Z :=
  loop n (λ i, if i <? high then
                 ok <- buf_flush_check_neighbor space i type ;;
                 ret (if ok : bool then inl (i + 1) else inr i)
               else ret (inr i)).

(** The area to write: [low] and [high]. *)
Definition flush_area (space offset : Z) (type : buf_flush_t) : sM (Z * Z) :=
  lru <- pool (!(glob pool_LRU)) ;;
  if (UT_LIST_GET_LEN lru <? BUF_LRU_OLD_MIN_LEN) || (srv_flush_neighbors =? 0) then ret (offset, offset + 1) else
  size <- pool (!(glob curr_size)) ;;
  let buf_flush_area := Z.min (BUF_READ_AHEAD_AREA size) (size / 16) in
  if buf_flush_area =? 0 then fail Undef else
  let low := offset / buf_flush_area * buf_flush_area in
  let high := (offset / buf_flush_area + 1) * buf_flush_area in
  if srv_flush_neighbors =? 1 then
    let n := Z.to_nat (buf_flush_area + 2) in
    low <- (if low <? offset then i <- dirty_below n space low type (offset - 1) ;; ret (u64 (i + 1)) else ret low) ;;
    high <- dirty_above n space high type (offset + 1) ;;
    ret (low, high)
  else ret (low, high).

(** One page of the area: whether it was written. *)
Definition try_neighbor (space offset i : Z) (type : buf_flush_t) : sM bool :=
  bpage <- buf_page_hash_get space i ;;
  match bpage with
  | None => ret false
  | Some b =>
      pool (assert_in_file b) ;;
      r <- pool (!(blk b)) ;;
      if negb (bool_decide (type = BUF_FLUSH_LRU)) || (i =? offset) || bp_old r then
        ready <- pool (buf_flush_ready_for_flush b) ;;
        if (ready : bool) && ((i =? offset) || (buf_fix_count r =? 0)) then buf_flush_page b type false else ret false
      else ret false
  end.

(** The variables of the loop are [i] and [count]. *)
Definition buf_flush_try_neighbors (space offset : Z) (type : buf_flush_t) (n_flushed n_to_flush : Z) : sM Z :=
  '(low, high) <- flush_area space offset type ;;
  size <- io_look (fil_space_get_size space) ;;
  let high := Z.min high size in
  loop (S (Z.to_nat (high - low)))
    (λ '(i, count),
       if i <? high then
         let enough := n_to_flush <=? u64 (count + n_flushed) in
         if enough && (offset <? i) then ret (inr count) else
         let i := if enough then offset else i in
         flushed <- try_neighbor space offset i type ;;
         ret (inl (i + 1, if flushed : bool then count + 1 else count))
       else ret (inr count)) (low, 0).

(** Whether the mutex of the pool was released, and the new count. *)
Definition buf_flush_page_and_try_neighbors (b : Z) (type : buf_flush_t) (n_to_flush count : Z) : sM (bool * Z) :=
  pool (assert_in_file b) ;;
  ready <- pool (buf_flush_ready_for_flush b) ;;
  if ready : bool then
    r <- pool (!(blk b)) ;;
    n <- buf_flush_try_neighbors (bp_space r) (bp_offset r) type count n_to_flush ;;
    ret (true, u64 (count + n))
  else ret (false, count).

(** ** A batch over the LRU list *)

(** One page: the next page to look at, and the new count. *)
Definition LRU_batch_step (max b count : Z) : sM (option Z * Z) :=
  r <- pool (!(blk b)) ;;
  lru <- pool (!(glob pool_LRU)) ;;
  let prev := UT_LIST_GET_PREV lru b in
  if target_rw_cmd r || use_rw_cmd r then ret (prev, count) else
  evict <- pool (buf_flush_ready_for_replace b) ;;
  if evict : bool then
    freed <- buf_LRU_free_page b ;;
    lru <- pool (!(glob pool_LRU)) ;;
    ret (if freed : bool then last lru else UT_LIST_GET_PREV lru b, count)
  else
    key <- (match prev with
            | Some x => rx <- pool (!(blk x)) ;; ret (Some (bp_space rx, bp_offset rx))
            | None => ret None
            end) ;;
    '(released, count) <- buf_flush_page_and_try_neighbors b BUF_FLUSH_LRU max count ;;
    if negb released then ret (prev, count) else
    match key with
    | Some (space, offset) => prev <- buf_page_hash_get space offset ;; ret (prev, count)
    | None => ret (None, count)
    end.

(** Every step moves towards the head of the list or frees a block. *)
Definition buf_flush_LRU_list_batch (max : Z) : sM Z :=
  lru <- pool (!(glob pool_LRU)) ;;
  let n := length lru in
  count <- loop (S (n * n + n))
    (λ '(bpage, count),
       free <- pool (!(glob pool_free)) ;;
       lru <- pool (!(glob pool_LRU)) ;;
       match bpage with
       | Some b =>
           if (count <? max) && (UT_LIST_GET_LEN free <? srv_LRU_scan_depth) && (BUF_LRU_MIN_LEN <? UT_LIST_GET_LEN lru)
           then x <- LRU_batch_step max b count ;; ret (inl x)
           else ret (inr count)
       | None => ret (inr count)
       end) (last lru, 0) ;;
  modify (stat buf_lru_flush_page_count) (λ c, c + count) ;;
  ret count.

(** There are no compressed pages: the unzip_LRU list is empty. *)
Definition buf_do_LRU_batch (max : Z) : sM Z :=
  if 0 <? max then buf_flush_LRU_list_batch max else ret 0.

(** ** A batch over the flush list *)

(** One page: the next page to look at, the number of pages left and the new
    count. *)
Definition flush_list_step (min_n b len count : Z) : sM (option Z * Z * Z) :=
  r <- pool (!(blk b)) ;;
  l <- pool (!(glob flush_list)) ;;
  let prev := UT_LIST_GET_PREV l b in
  if target_rw_cmd r || use_rw_cmd r then
    pool (buf_flush_set_hp prev) ;; ret (prev, u64 (len - 1), count)
  else
    ASSERT (0 <? oldest_modification r) ;;
    pool (buf_flush_set_hp prev) ;;
    '(_, count) <- buf_flush_page_and_try_neighbors b BUF_FLUSH_LIST min_n count ;;
    is_hp <- pool (buf_flush_is_hp prev) ;;
    if negb is_hp then
      l <- pool (!(glob flush_list)) ;; ret (last l, UT_LIST_GET_LEN l, count)
    else pool (buf_flush_set_hp None) ;; ret (prev, u64 (len - 1), count).

(** Only another thread that takes a page off the list makes the scan start
    again. *)
Definition buf_do_flush_list_batch (min_n lsn_limit : Z) : sM Z :=
  l <- pool (!(glob flush_list)) ;;
  loop (S (length l))
    (λ '(bpage, len, count),
       match bpage with
       | Some b =>
           if (count <? min_n) && (0 <? len) then
             oldest <- pool (!((blk b)∙oldest_modification)) ;;
             if oldest <? lsn_limit then x <- flush_list_step min_n b len count ;; ret (inl x) else ret (inr count)
           else ret (inr count)
       | None => ret (inr count)
       end) (last l, UT_LIST_GET_LEN l, 0).

(** ** Batches *)

Definition buf_flush_batch (type : buf_flush_t) (min_n lsn_limit : Z) : sM Z :=
  match type with
  | BUF_FLUSH_LRU => buf_do_LRU_batch min_n
  | BUF_FLUSH_LIST => buf_do_flush_list_batch min_n lsn_limit
  | _ => fail Assert
  end.

(** The doublewrite buffer is off: there is nothing buffered in it. *)
Definition buf_flush_common (type : buf_flush_t) (page_count : Z) : sM unit :=
  ASSERT (bool_decide (type = BUF_FLUSH_LRU) || bool_decide (type = BUF_FLUSH_LIST)) ;;
  modify (stat buf_pool_flushed) (λ n, n + page_count).

Definition note_init_flush (type : buf_flush_t) (x : bool) : M buf_pool_t unit :=
  modify (glob init_flush) (λ f t, if decide (t = type) then x else f t).

Definition buf_flush_start (type : buf_flush_t) : sM bool :=
  n <- pool (!(glob n_flush)) ;;
  running <- pool (!(glob init_flush)) ;;
  if (0 <? n type) || running type then ret false else pool (note_init_flush type true) ;; ret true.

Definition buf_flush_end (type : buf_flush_t) : sM unit :=
  pool (note_init_flush type false ;;
        glob try_LRU_scan ::= true ;;
        n <- !(glob n_flush) ;;
        when (n type =? 0) (event_no_flush type true)).

(** Whether a batch was queued, and the number of pages. *)
Definition buf_flush_LRU (min_n : Z) : sM (bool * Z) :=
  ok <- buf_flush_start BUF_FLUSH_LRU ;;
  if negb ok then ret (false, 0) else
  page_count <- buf_flush_batch BUF_FLUSH_LRU min_n 0 ;;
  buf_flush_end BUF_FLUSH_LRU ;;
  buf_flush_common BUF_FLUSH_LRU page_count ;;
  ret (true, page_count).

(** With one instance min_n stays as it is. *)
Definition buf_flush_list (min_n lsn_limit : Z) : sM (bool * Z) :=
  ok <- buf_flush_start BUF_FLUSH_LIST ;;
  if negb ok then ret (false, 0) else
  page_count <- buf_flush_batch BUF_FLUSH_LIST min_n lsn_limit ;;
  buf_flush_end BUF_FLUSH_LIST ;;
  buf_flush_common BUF_FLUSH_LIST page_count ;;
  ret (true, page_count).

(** The blocks with a write of a batch of type [type]. *)
Definition in_write (type : buf_flush_t) (p : buf_pool_t) (b : Z) : bool :=
  match blocks p !! b with
  | Some r => bool_decide (io_fix r = BUF_IO_WRITE) && bool_decide (flush_type r = type)
  | None => false
  end.
Definition pending (type : buf_flush_t) (p : buf_pool_t) : list Z := filter (λ b, in_write type p b = true) (pool_LRU p).

(** If the event no_flush is not set, the thread waits for it: the i/o handler
    threads complete the writes of the batch, and the last of them sets the event. *)
Definition buf_flush_wait_batch_end (type : buf_flush_t) : sM unit :=
  p <- !(glob p_pool) ;;
  if no_flush p type then skip else
  for_each (λ b, buf_page_io_complete b ;; skip) (pending type p) ;;
  p <- !(glob p_pool) ;;
  if no_flush p type then skip else fail NoFuel.

Definition buf_flush_LRU_tail : sM Z :=
  lru <- pool (!(glob pool_LRU)) ;;
  let scan_depth := Z.min srv_LRU_scan_depth (UT_LIST_GET_LEN lru) in
  loop (S (length lru))
    (λ '(j, total),
       if j <? scan_depth then
         '(ok, n_flushed) <- buf_flush_LRU PAGE_CLEANER_LRU_BATCH_CHUNK_SIZE ;;
         when ok (buf_flush_wait_batch_end BUF_FLUSH_LRU) ;;
         ret (if n_flushed =? 0 then inr total
              else inl (j + PAGE_CLEANER_LRU_BATCH_CHUNK_SIZE, u64 (total + n_flushed)))
       else ret (inr total)) (0, 0).

(** Without recovery. *)
Definition log_preflush_pool_modified_pages (new_oldest : Z) : sM bool :=
  '(success, _) <- buf_flush_list ULINT_MAX new_oldest ;;
  buf_flush_wait_batch_end BUF_FLUSH_LIST ;;
  ret success.

Definition buf_pool_get_oldest_modification : sM Z :=
  l <- pool (!(glob flush_list)) ;;
  match last l with
  | Some b => pool (!((blk b)∙oldest_modification))
  | None => ret 0
  end.
End batch.
