(* ===== verification/BufInv.v ===== *)
(** The invariant of the buffer pool (the consistency conditions of buf0buf.h):
    which list and which table a control block is in follows from its state.  The
    rules for stepping through operations on one block. *)
From S2P Require Import Prelude Frame HostLld Crc32 Fil PageFormat FilInv BufLru BufPool.

(** ** One block *)

(** The pool with [r] as the control block [b]. *)
Definition at_block (p : buf_pool_t) (b : Z) (r : buf_block_t) : buf_pool_t := fset blocks (<[b := r]> (blocks p)) p.
#[global] Arguments at_block : simpl never.

Lemma at_block_id p b r : blocks p !! b = Some r → at_block p b r = p.
Proof. intros Hb. unfold at_block. rewrite insert_id by done. by destruct p. Qed.

Section step.
Context (p : buf_pool_t) (b : Z) (r : buf_block_t).

#[local] Arguments at_block _ _ _ /.

Lemma wp_blk (Φ : buf_block_t → buf_pool_t → Prop) : Φ r (at_block p b r) → wp (!(blk b)) Φ (at_block p b r).
Proof. intros HΦ. eapply wp_load; [cbn; by rewrite lookup_insert_eq|done]. Qed.

Lemma wp_field {T} (f : buf_block_t → T) `{!Field f} (Φ : T → buf_pool_t → Prop) :
  Φ (f r) (at_block p b r) → wp (!((blk b)∙f)) Φ (at_block p b r).
Proof. intros HΦ. eapply wp_load; [cbn; by rewrite lookup_insert_eq|done]. Qed.

Lemma poke_at {T} (f : buf_block_t → T) `{!Field f} v : poke ((blk b)∙f) v (at_block p b r) = at_block p b (fset f v r).
Proof.
  rewrite (poke_blk f v _ b r); [|apply lookup_insert_eq]. unfold at_block. cbn. by rewrite insert_insert_eq.
Qed.

Lemma wp_set_field {T} (f : buf_block_t → T) `{!Field f} v (Φ : unit → buf_pool_t → Prop) :
  Φ tt (at_block p b (fset f v r)) → wp ((blk b)∙f ::= v) Φ (at_block p b r).
Proof. intros HΦ. eapply wp_store; [cbn; by rewrite lookup_insert_eq|]. by rewrite poke_at. Qed.

Lemma wp_modify_field {T} (f : buf_block_t → T) `{!Field f} g (Φ : unit → buf_pool_t → Prop) :
  Φ tt (at_block p b (fset f (g (f r)) r)) → wp (modify ((blk b)∙f) g) Φ (at_block p b r).
Proof. intros HΦ. eapply wp_modify; [cbn; by rewrite lookup_insert_eq|]. by rewrite poke_at. Qed.

Lemma wp_in_file (Φ : unit → buf_pool_t → Prop) :
  bp_state r = BUF_BLOCK_FILE_PAGE → Φ tt (at_block p b r) → wp (assert_in_file b) Φ (at_block p b r).
Proof. intros Hs HΦ. apply wp_bind, wp_field. rewrite Hs. by apply wp_bind, wp_ret, wp_ret. Qed.

(** The lists and counters are beside the block. *)
Lemma wp_glob {T} (g : buf_pool_t → T) `{!Field g} (Φ : T → buf_pool_t → Prop) :
  g (at_block p b r) = g p → Φ (g p) (at_block p b r) → wp (!(glob g)) Φ (at_block p b r).
Proof. intros E HΦ. eapply wp_load; [done|]. by rewrite E. Qed.

Lemma wp_set_glob {T} (g : buf_pool_t → T) `{!Field g} v (Φ : unit → buf_pool_t → Prop) :
  fset g v (at_block p b r) = at_block (fset g v p) b r → Φ tt (at_block (fset g v p) b r) → wp (glob g ::= v) Φ (at_block p b r).
Proof. intros E HΦ. eapply wp_store; [done|]. cbn [poke glob]. by rewrite E. Qed.

Lemma wp_modify_glob {T} (g : buf_pool_t → T) `{!Field g} f (Φ : unit → buf_pool_t → Prop) :
  g (at_block p b r) = g p → fset g (f (g p)) (at_block p b r) = at_block (fset g (f (g p)) p) b r →
  Φ tt (at_block (fset g (f (g p)) p) b r) → wp (modify (glob g) f) Φ (at_block p b r).
Proof. intros E1 E2 HΦ. eapply wp_modify; [done|]. cbn [poke glob]. by rewrite E1, E2. Qed.
End step.

(** The steps on the block of [at_block]. *)
Ltac bstep :=
  lazymatch goal with
  | |- wp (bind _ _) _ _ => apply wp_bind
  | |- wp (ret _) _ _ => apply wp_ret
  | |- wp (ASSERT true) _ _ => apply wp_ret
  | |- wp (match (_, _) with _ => _ end) _ _ => cbv beta iota
  | |- wp (if true then _ else _) _ _ => cbn iota
  | |- wp (if false then _ else _) _ _ => cbn iota
  | |- wp (when true _) _ _ => cbn [when]
  | |- wp (when false _) _ _ => cbn [when]; apply wp_ret
  | |- wp (assert_in_file _) _ _ => apply wp_in_file; [assumption || reflexivity|]
  | |- wp (buf_page_in_file _) _ _ => unfold buf_page_in_file
  | |- wp (!(blk _)) _ _ => apply wp_blk
  | |- wp (!((blk _)∙_)) _ _ => apply wp_field
  | |- wp ((blk _)∙_ ::= _) _ _ => apply wp_set_field
  | |- wp (modify ((blk _)∙_) _) _ _ => apply wp_modify_field
  | |- wp (incr _) _ _ => unfold incr
  | |- wp (decr _) _ _ => unfold decr
  | |- wp (!(glob _)) _ _ => apply wp_glob; [reflexivity|]
  | |- wp (glob _ ::= _) _ _ => apply wp_set_glob; [reflexivity|]
  | |- wp (modify (glob _) _) _ _ => apply wp_modify_glob; [reflexivity|reflexivity|]
  | |- wp (count_flush _ _) _ _ => unfold count_flush
  | |- wp (event_no_flush _ _) _ _ => unfold event_no_flush
  end.
Ltac bsteps := repeat bstep.
(** Evaluate what the next step branches on. *)
Ltac scrut :=
  lazymatch goal with
  | |- wp (match ?x with _ => _ end) _ _ => let y := eval cbn in x in change x with y; cbv beta iota
  | |- wp (when ?x _) _ _ => let y := eval cbn in x in change x with y
  | |- wp (ASSERT ?x) _ _ => let y := eval cbn in x in change x with y
  end.

(** ** The tables *)

Definition WIPED := 0xfefefefe.
Definition page_key (r : buf_block_t) : Z * Z := (bp_space r, bp_offset r).

Section tables.
Context `{HostConfig}.
Implicit Types (m : gmap Z buf_block_t) (lru free flush : list Z) (hash : gmap (Z * Z) hash_node) (b : Z) (r : buf_block_t).

Record BlockOk lru free flush hash b r : Prop := {
  bo_lru : b ∈ lru ↔ bp_state r = BUF_BLOCK_FILE_PAGE;
  bo_free : b ∈ free ↔ bp_state r = BUF_BLOCK_NOT_USED;
  bo_flush : b ∈ flush ↔ bp_state r = BUF_BLOCK_FILE_PAGE ∧ oldest_modification r ≠ 0;
  bo_hash : bp_state r = BUF_BLOCK_FILE_PAGE → hash !! page_key r = Some (Hashed b);
  bo_frame : Z.of_nat (length (frame r)) = UNIV_PAGE_SIZE;
  bo_idle : bp_state r ≠ BUF_BLOCK_FILE_PAGE → io_fix r = BUF_IO_NONE ∧ buf_fix_count r = 0 ∧ target_rw_cmd r = false ∧ oldest_modification r = 0;
  bo_latch : io_fix r = BUF_IO_NONE → buf_fix_count r = 0 → bl_lock r = Shared 0;
  bo_reading : io_fix r = BUF_IO_READ → oldest_modification r = 0;
  bo_lsn : oldest_modification r ≠ 0 → 0 < newest_modification r < 2 ^ 64;
  bo_wiped : bp_state r = BUF_BLOCK_NOT_USED → use_rw_cmd r = true → mach_read_from_4 (frame r) FIL_PAGE_OFFSET = WIPED;
}.

Record Tables m lru free flush hash : Prop := {
  tb_blocks : ∀ b r, m !! b = Some r → BlockOk lru free flush hash b r;
  tb_dom : ∀ b, b ∈ lru ∨ b ∈ free ∨ b ∈ flush → is_Some (m !! b);
  tb_hash : ∀ k b, hash !! k = Some (Hashed b) → ∃ r, m !! b = Some r ∧ bp_state r = BUF_BLOCK_FILE_PAGE ∧ k = page_key r;
  tb_watch : ∀ k n, hash !! k = Some (Sentinel n) → 0 < n < 2 ^ 32;
  tb_free : NoDup free;
  tb_flush : NoDup flush;
  tb_size : Z.of_nat (size m) < 2 ^ 32;
}.

(** The old flags and freed_page_clock do not matter. *)
Lemma BlockOk_flags lru free flush hash b r r' :
  unflagged r' = unflagged r → BlockOk lru free flush hash b r → BlockOk lru free flush hash b r'.
Proof.
  intros E [H1 H2 H3 H4 H5 H6 H7 H8 H9 H10].
  assert (∀ {T} (f : buf_block_t → T), (∀ x, f (unflagged x) = f x) → f r' = f r) as Hf.
  { intros T f Hf. by rewrite <- (Hf r'), <- (Hf r), E. }
  split; unfold page_key in *;
    rewrite ?(Hf _ bp_state), ?(Hf _ bp_space), ?(Hf _ bp_offset), ?(Hf _ oldest_modification), ?(Hf _ newest_modification),
      ?(Hf _ frame), ?(Hf _ io_fix), ?(Hf _ buf_fix_count), ?(Hf _ target_rw_cmd), ?(Hf _ use_rw_cmd), ?(Hf _ bl_lock) by done; done.
Qed.

Lemma lookup_flags m m' b r' : unflagged <$> m' = unflagged <$> m → m' !! b = Some r' →
  ∃ r, m !! b = Some r ∧ unflagged r' = unflagged r.
Proof.
  intros E Hb. apply (f_equal (.!! b)) in E. rewrite !lookup_fmap, Hb in E.
  destruct (m !! b) as [r|]; [|done]. exists r. split; [done|]. by apply (inj Some) in E.
Qed.

(** The lsns of the oldest modifications of the blocks of a list. *)
Definition lsns m (l : list Z) : list Z := omap (λ b, oldest_modification <$> m !! b) l.

Lemma lsns_update m m' l b r' : unflagged <$> m' = unflagged <$> <[b := r']> m → b ∉ l → lsns m' l = lsns m l.
Proof.
  intros Em Hb. unfold lsns. induction l as [|x l IH]; [done|]. apply not_elem_of_cons in Hb as [Hx Hb]. cbn. rewrite IH by done.
  apply (f_equal (.!! x)) in Em. rewrite !lookup_fmap, lookup_insert_ne in Em by done.
  destruct (m' !! x) as [r1|], (m !! x) as [r2|]; try done. apply (inj Some) in Em. cbn.
  by rewrite (f_equal oldest_modification Em : oldest_modification r1 = oldest_modification r2).
Qed.

Lemma lsns_same m m' l b r r' : unflagged <$> m' = unflagged <$> <[b := r']> m → m !! b = Some r →
  oldest_modification r' = oldest_modification r → lsns m' l = lsns m l.
Proof.
  intros Em Hb Eo. unfold lsns. induction l as [|x l IH]; [done|]. cbn. rewrite IH. apply (f_equal (.!! x)) in Em. rewrite !lookup_fmap in Em.
  destruct (decide (x = b)) as [->|Hx].
  - rewrite lookup_insert_eq in Em. destruct (m' !! b) as [r1|]; [|done]. apply (inj Some) in Em. rewrite Hb. cbn.
    by rewrite (f_equal oldest_modification Em : oldest_modification r1 = oldest_modification r'), Eo.
  - rewrite lookup_insert_ne in Em by done. destruct (m' !! x) as [r1|], (m !! x) as [r2|]; try done. apply (inj Some) in Em. cbn.
    by rewrite (f_equal oldest_modification Em : oldest_modification r1 = oldest_modification r2).
Qed.

Lemma lsns_sublist m l l' : l' `sublist_of` l → lsns m l' `sublist_of` lsns m l.
Proof.
  unfold lsns. induction 1 as [|x l1 l2 H1 IH|x l1 l2 H1 IH]; cbn; [constructor| |]; destruct (m !! x); cbn; [by constructor|done|by constructor|done].
Qed.

(** A block leaves the flush list. *)
Lemma lsns_remove m m' flush b r' : unflagged <$> m' = unflagged <$> <[b := r']> m →
  lsns m' (UT_LIST_REMOVE flush b) `sublist_of` lsns m flush.
Proof.
  intros Em. rewrite (lsns_update m m' _ b r' Em).
  - apply lsns_sublist. induction flush as [|x l IH]; [constructor|]. unfold list_remove_key. rewrite filter_cons.
    case_decide; by constructor.
  - rewrite elem_of_key_removed. by intros [? _].
Qed.

(** One block changes, with its place in the lists and tables; the flags of any
    block may change. *)
Lemma Tables_update m lru free flush hash m' lru' free' flush' hash' b r r' :
  Tables m lru free flush hash → m !! b = Some r → unflagged <$> m' = unflagged <$> <[b := r']> m →
  BlockOk lru' free' flush' hash' b r' →
  (∀ x, x ≠ b → (x ∈ lru' ↔ x ∈ lru) ∧ (x ∈ free' ↔ x ∈ free) ∧ (x ∈ flush' ↔ x ∈ flush)) →
  NoDup free' → NoDup flush' →
  (∀ k x, x ≠ b → hash' !! k = Some (Hashed x) ↔ hash !! k = Some (Hashed x)) →
  (∀ k, hash' !! k = Some (Hashed b) → bp_state r' = BUF_BLOCK_FILE_PAGE ∧ k = page_key r') →
  (∀ k n, hash' !! k = Some (Sentinel n) → hash !! k = Some (Sentinel n)) →
  Tables m' lru' free' flush' hash'.
Proof.
  intros HT Hb Em Hok Hl Nf Nd Hh Hhb Hw.
  assert (Hdom : ∀ x, is_Some (m' !! x) ↔ x = b ∨ is_Some (m !! x)).
  { intros x. apply (f_equal (.!! x)) in Em. rewrite !lookup_fmap in Em. destruct (decide (x = b)) as [->|Hx].
    - rewrite lookup_insert_eq in Em. split; [by left|]. intros _. destruct (m' !! b); [by eexists|done].
    - rewrite lookup_insert_ne in Em by done. destruct (m' !! x), (m !! x); try done; naive_solver. }
  split; [| | | |done|done|].
  - intros x rx Hx. destruct (lookup_flags _ _ _ _ Em Hx) as (r0 & Hr0 & E).
    apply (BlockOk_flags _ _ _ _ _ r0); [done|]. destruct (decide (x = b)) as [->|Hne].
    { rewrite lookup_insert_eq in Hr0. by apply (inj Some) in Hr0 as ->. }
    rewrite lookup_insert_ne in Hr0 by done. destruct (tb_blocks _ _ _ _ _ HT x r0 Hr0) as [B1 B2 B3 B4 B5 B6 B7 B8 B9 B10].
    destruct (Hl x Hne) as (L1 & L2 & L3). split; rewrite ?L1, ?L2, ?L3; try done. intros Hs. apply Hh; [done|]. by apply B4.
  - intros x Hx. apply Hdom. destruct (decide (x = b)) as [->|Hne]; [by left|right].
    destruct (Hl x Hne) as (L1 & L2 & L3). rewrite L1, L2, L3 in Hx. by apply (tb_dom _ _ _ _ _ HT).
  - intros k x Hk. destruct (decide (x = b)) as [->|Hne].
    + destruct (Hhb k Hk) as [Hs ->]. destruct (proj2 (Hdom b) (or_introl eq_refl)) as [rb Hrb]. exists rb.
      destruct (lookup_flags _ _ _ _ Em Hrb) as (r0 & Hr0 & E). rewrite lookup_insert_eq in Hr0. apply (inj Some) in Hr0 as ->.
      split_and!; [done| |].
      * rewrite <- Hs. exact (f_equal bp_state E).
      * unfold page_key. f_equal; [exact (eq_sym (f_equal bp_space E))|exact (eq_sym (f_equal bp_offset E))].
    + apply Hh in Hk; [|done]. destruct (tb_hash _ _ _ _ _ HT k x Hk) as (r0 & Hr0 & Hs & ->).
      destruct (proj2 (Hdom x)) as [rx Hrx]; [right; by eexists|]. exists rx.
      destruct (lookup_flags _ _ _ _ Em Hrx) as (r1 & Hr1 & E). rewrite lookup_insert_ne in Hr1 by done. rewrite Hr0 in Hr1. apply (inj Some) in Hr1 as ->.
      split_and!; [done| |].
      * rewrite <- Hs. exact (f_equal bp_state E).
      * unfold page_key. f_equal; [exact (eq_sym (f_equal bp_space E))|exact (eq_sym (f_equal bp_offset E))].
  - intros k n Hk. by eapply tb_watch, Hw.
  - assert (size m' = size m) as ->; [|apply HT]. rewrite <- (map_size_fmap unflagged m'), Em, map_size_fmap. apply map_size_insert_Some. by eexists.
Qed.
End tables.

Definition PoolOk `{HostConfig} (p : buf_pool_t) : Prop :=
  LruOk p ∧ Tables (blocks p) (pool_LRU p) (pool_free p) (flush_list p) (page_hash p).

(** ** The LRU list beside the rest *)

Definition lru_part (p : buf_pool_t) := (blocks p, pool_LRU p, LRU_old p, LRU_old_len p, LRU_old_ratio p).

Lemma LruOk_part p p' : lru_part p' = lru_part p → LruOk p → LruOk p'.
Proof.
  intros E. assert (blocks p' = blocks p) as Eb by exact (f_equal (λ x, x.1.1.1.1) E).
  assert (pool_LRU p' = pool_LRU p) as El by exact (f_equal (λ x, x.1.1.1.2) E).
  assert (LRU_old p' = LRU_old p) as Eo by exact (f_equal (λ x, x.1.1.2) E).
  assert (LRU_old_len p' = LRU_old_len p) as En by exact (f_equal (λ x, x.1.2) E).
  assert (LRU_old_ratio p' = LRU_old_ratio p) as Er by exact (f_equal snd E).
  intros [[H1 H2 H3 H4] HM]. unfold in_files, len in *. split.
  - split; unfold in_files, len; rewrite ?Eb, ?El, ?Er; done.
  - unfold Midpoint, new_len, len, flagged in *. rewrite Eb, El, Eo, En, Er.
    destruct HM as [HM|(Hl & y & o & [S1 S2 S3 S4 S5 S6] & Hm)]; [by left|right]. split; [done|]. exists y, o. split; [|done].
    split; unfold flagged in *; rewrite ?Eb, ?El, ?Eo, ?En; done.
Qed.

(** A block changes; if it is in the list, it still holds a page and has its flag. *)
Lemma LruOk_at p b r r' : LruOk p → blocks p !! b = Some r →
  (b ∈ pool_LRU p → bp_state r' = bp_state r ∧ bp_old r' = bp_old r) → LruOk (at_block p b r').
Proof.
  intros [[H1 H2 H3 H4] HM] Hb Hr.
  assert (Hin : ∀ {T} (f : buf_block_t → T) x, (b ∈ pool_LRU p → f r' = f r) → x ∈ pool_LRU p →
    f <$> blocks (at_block p b r') !! x = f <$> blocks p !! x).
  { intros T f x Hf Hx. unfold at_block. cbn. destruct (decide (x = b)) as [->|]; [|by rewrite lookup_insert_ne].
    rewrite lookup_insert_eq, Hb. cbn. f_equal. by apply Hf. }
  assert (Hst : b ∈ pool_LRU p → bp_state r' = bp_state r) by (intros Hx; by apply Hr).
  assert (Hold : b ∈ pool_LRU p → bp_old r' = bp_old r) by (intros Hx; by apply Hr).
  split; [split; [done| |done|done]|].
  - intros x Hx. rewrite Hin by done. by apply H2.
  - destruct HM as [(Hl & Eo & En & Hf)|(Hl & y & o & [S1 S2 S3 S4 S5 S6] & Hm)]; [left|right].
    + split_and!; [done|done|done|]. intros x Hx. rewrite Hin by done. by apply Hf.
    + split; [done|]. exists y, o. split; [|done]. split; [done|done|done|done| |].
      * intros x Hx. rewrite Hin; [by apply S5|done|rewrite S1; set_solver].
      * intros x Hx. rewrite Hin; [by apply S6|done|rewrite S1; set_solver].
Qed.

(** A block that holds a page and is not in the list can be added to it. *)
Lemma Outside_size `{HostConfig} p b r :
  LruOk p → blocks p !! b = Some r → bp_state r = BUF_BLOCK_FILE_PAGE → b ∉ pool_LRU p →
  Z.of_nat (size (blocks p)) < 2 ^ 32 → Outside b p.
Proof.
  intros [[Hn Hf _ _] _] Hb Hs Ho Hz. split_and!; [done|by rewrite Hb; cbn; rewrite Hs|].
  assert (length (b :: pool_LRU p) ≤ size (blocks p))%nat; [|unfold len; cbn in *; lia].
  rewrite <- size_dom. rewrite <- (size_list_to_set (C := gset Z) (b :: pool_LRU p)) by (by constructor).
  apply subseteq_size. intros x. rewrite elem_of_list_to_set, elem_of_dom, elem_of_cons. intros [->|Hx]; [by eexists|].
  specialize (Hf x Hx). destruct (blocks p !! x); [by eexists|done].
Qed.
