(* ===== verification/BufStore.v ===== *)
(** What the buffer pool promises: the content of every page.  The interface to the
    storage with its laws, the content of a page (the frame of a resident page, else
    what is on the disk), and the invariant that ties the frames to the disk: a
    clean frame is what is on the disk, every page on the disk is intact, and the
    log is durable up to the lsn of every page on the disk. *)
From S2P Require Import Prelude Frame HostLld Crc32 Fil PageFormat FilInv BufLru BufPool BufInv.

(** ** The storage *)

(** [disk], [durable_lsn] and [log_lsn] are the pages in the files, how far the log is
    on the disk and how far it has been written to the log buffer.  A read returns the
    page; the RW command writes first and then reads; nothing else changes the files,
    and no request drops a tablespace.  A page that is in a file is below the size of
    the file.  An lsn is positive and has 64 bits, and the log grows. *)
Class PageIoOk (V : Type) `{PageIo V} := {
  disk : V → gmap (Z * Z) page_t;
  durable_lsn : V → Z;
  log_lsn : V → Z;
  Wrote (d : gmap (Z * Z) page_t) (v v' : V) : Prop :=
    disk v' = d ∧ durable_lsn v ≤ durable_lsn v' ∧
    (∀ s, fil_tablespace_deleted_or_being_deleted_in_mem s v' = fil_tablespace_deleted_or_being_deleted_in_mem s v) ∧
    log_lsn v ≤ log_lsn v';
  read_law : ∀ space offset v page, disk v !! (space, offset) = Some page →
    ∃ v', fil_io_read space offset v = (DB_SUCCESS, page, v') ∧ Wrote (disk v) v v';
  write_law : ∀ space offset page v, Wrote (<[(space, offset) := page]> (disk v)) v (fil_io_write space offset page v);
  rw_law : ∀ space offset page space' offset' v page',
    <[(space, offset) := page]> (disk v) !! (space', offset') = Some page' →
    ∃ v', fil_io_rw space offset page space' offset' v = (DB_SUCCESS, page', v') ∧
      Wrote (<[(space, offset) := page]> (disk v)) v v';
  flush_law : ∀ space v, Wrote (disk v) v (fil_flush_space space v);
  log_law : ∀ lsn v, Wrote (disk v) v (log_write_up_to lsn v) ∧ lsn ≤ durable_lsn (log_write_up_to lsn v);
  reserve_law : ∀ v, ∃ start_lsn end_lsn v', log_reserve_and_write v = (start_lsn, end_lsn, v') ∧ Wrote (disk v) v v' ∧
    0 < start_lsn < 2 ^ 64 ∧ 0 < end_lsn < 2 ^ 64 ∧ log_lsn v ≤ start_lsn ≤ log_lsn v';
  size_law : ∀ space offset v, is_Some (disk v !! (space, offset)) → offset < fil_space_get_size space v;
}.

(** ** Steps of operations with input and output *)

Section steps.
Context `{HostConfig} `{PoolConfig} {V : Type} `{PageIo V}.
Context (p : buf_pool_t) (c : RwStat) (a : gset Z) (v : V).

Lemma wp_pool {A} (m : M buf_pool_t A) (Φ : A → PSt V → Prop) :
  wp m (λ x p', Φ x (MkPSt p' c a v)) p → wp (pool m) Φ (MkPSt p c a v).
Proof. intros Hm. by apply wp_zoom. Qed.

Lemma wp_io {A} (f : V → A * V) x v' (Φ : A → PSt V → Prop) :
  f v = (x, v') → Φ x (MkPSt p c a v') → wp (io f) Φ (MkPSt p c a v).
Proof. intros Hf HΦ. apply wp_zoom. unfold wp. cbn. by rewrite Hf. Qed.

Lemma wp_io_do (f : V → V) (Φ : unit → PSt V → Prop) : Φ tt (MkPSt p c a (f v)) → wp (io_do f) Φ (MkPSt p c a v).
Proof. intros HΦ. by eapply wp_modify. Qed.

Lemma wp_io_look {A} (f : V → A) (Φ : A → PSt V → Prop) : Φ (f v) (MkPSt p c a v) → wp (io_look f) Φ (MkPSt p c a v).
Proof. intros HΦ. apply wp_bind. by eapply wp_load. Qed.

Lemma wp_stat {T} (g : RwStat → T) `{!Field g} f (Φ : unit → PSt V → Prop) :
  Φ tt (MkPSt p (fset g (f (g c)) c) a v) → wp (modify (stat g) f) Φ (MkPSt p c a v).
Proof. intros HΦ. by eapply wp_modify. Qed.

Lemma wp_set_stat {T} (g : RwStat → T) `{!Field g} x (Φ : unit → PSt V → Prop) :
  Φ tt (MkPSt p (fset g x c) a v) → wp (stat g ::= x) Φ (MkPSt p c a v).
Proof. intros HΦ. by eapply wp_store. Qed.

Lemma wp_get_stat {T} (g : RwStat → T) `{!Field g} (Φ : T → PSt V → Prop) :
  Φ (g c) (MkPSt p c a v) → wp (!(stat g)) Φ (MkPSt p c a v).
Proof. intros HΦ. by eapply wp_load. Qed.
End steps.

Ltac sstep :=
  lazymatch goal with
  | |- wp (pool _) _ _ => apply wp_pool
  | |- wp (io_do _) _ _ => apply wp_io_do
  | |- wp (io_look _) _ _ => apply wp_io_look
  | |- wp buf_LRU_stat_inc_io _ _ => unfold buf_LRU_stat_inc_io, incr; apply wp_stat
  | |- wp (incr (stat _)) _ _ => unfold incr; apply wp_stat
  | |- wp (modify (stat _) _) _ _ => apply wp_stat
  | |- wp (stat _ ::= _) _ _ => apply wp_set_stat
  | |- wp (!(stat _)) _ _ => apply wp_get_stat
  | |- _ => bstep
  end.
Ltac ssteps := repeat sstep.
Ltac run := repeat first [sstep|progress scrut].

(** ** The content of pages *)

Section content.
Context `{HostConfig} `{PoolConfig} {V : Type} `{PageIoOk V}.
Implicit Types (m : gmap Z buf_block_t) (hash : gmap (Z * Z) hash_node) (b : Z) (r : buf_block_t) (v : V) (k : Z * Z).

(** Pages with the same number, space and data; the stamps of a write may differ. *)
Definition same_page (page page' : page_t) : Prop :=
  mach_read_from_4 page' FIL_PAGE_OFFSET = mach_read_from_4 page FIL_PAGE_OFFSET ∧
  mach_read_from_4 page' FIL_PAGE_ARCH_LOG_NO_OR_SPACE_ID = mach_read_from_4 page FIL_PAGE_ARCH_LOG_NO_OR_SPACE_ID ∧
  bytes_at page' FIL_PAGE_DATA (UNIV_PAGE_SIZE - FIL_PAGE_DATA - 8) = bytes_at page FIL_PAGE_DATA (UNIV_PAGE_SIZE - FIL_PAGE_DATA - 8).

(** The content of page [k]: the frame of a page that has been read in, else the
    disk. *)
Definition content m hash v k : option page_t :=
  match hash !! k with
  | Some (Hashed b) =>
      match m !! b with
      | Some r => if bool_decide (io_fix r = BUF_IO_READ) then disk v !! k else Some (frame r)
      | None => None
      end
  | _ => disk v !! k
  end.

Record StoreOk m v : Prop := {
  so_clean : ∀ b r, m !! b = Some r → bp_state r = BUF_BLOCK_FILE_PAGE → oldest_modification r = 0 →
    io_fix r ≠ BUF_IO_READ → disk v !! page_key r = Some (frame r);
  so_disk : ∀ k page, disk v !! k = Some page →
    Z.of_nat (length page) = UNIV_PAGE_SIZE ∧ buf_page_is_corrupted srv_checksum_algorithm page = false ∧
    mach_read_from_8 page FIL_PAGE_LSN ≤ durable_lsn v;
}.

(** The whole state. *)
Definition Inv (st : PSt V) : Prop := PoolOk (p_pool st) ∧ StoreOk (blocks (p_pool st)) (p_io st).
Definition content_of (st : PSt V) : Z * Z → option page_t :=
  content (blocks (p_pool st)) (page_hash (p_pool st)) (p_io st).
Definition same_content (st st' : PSt V) : Prop := ∀ k, option_Forall2 same_page (content_of st k) (content_of st' k).

#[global] Instance same_page_preorder : PreOrder same_page.
Proof. split; [done|]. intros x y z (? & ? & ?) (? & ? & ?). split_and!; congruence. Qed.
#[global] Instance same_content_preorder : PreOrder same_content.
Proof.
  split.
  - intros st k. reflexivity.
  - intros x y z Hxy Hyz k. etrans; [apply Hxy|apply Hyz].
Qed.

(** ** What a change of one block does *)

Lemma written_facts r (Hok : HostConfigOk) :
  Z.of_nat (length (frame r)) = UNIV_PAGE_SIZE → 0 < newest_modification r < 2 ^ 64 →
  let w := buf_flush_init_for_writing srv_checksum_algorithm (frame r) (newest_modification r) in
  Z.of_nat (length w) = UNIV_PAGE_SIZE ∧ buf_page_is_corrupted srv_checksum_algorithm w = false ∧
  mach_read_from_8 w FIL_PAGE_LSN = newest_modification r ∧ same_page (frame r) w.
Proof.
  intros Hl Hn. destruct (written_ok srv_checksum_algorithm srv_checksum_algorithm (frame r) _ Hl Hn) as (? & ? & ? & ?).
  split_and!; [by apply written_length|done|apply written_lsn; [done|lia]|done..].
Qed.

Lemma StoreOk_update m m' v v' b r' : StoreOk m v → unflagged <$> m' = unflagged <$> <[b := r']> m →
  (∀ k page, disk v' !! k = Some page →
    Z.of_nat (length page) = UNIV_PAGE_SIZE ∧ buf_page_is_corrupted srv_checksum_algorithm page = false ∧
    mach_read_from_8 page FIL_PAGE_LSN ≤ durable_lsn v') →
  (bp_state r' = BUF_BLOCK_FILE_PAGE → oldest_modification r' = 0 → io_fix r' ≠ BUF_IO_READ →
    disk v' !! page_key r' = Some (frame r')) →
  (∀ x rx, x ≠ b → m !! x = Some rx → bp_state rx = BUF_BLOCK_FILE_PAGE → disk v' !! page_key rx = disk v !! page_key rx) →
  StoreOk m' v'.
Proof.
  intros [HC HD] Em Hd Hb Hx. split; [|done]. intros x rx Hrx. destruct (lookup_flags _ _ _ _ Em Hrx) as (r0 & Hr0 & E).
  assert (∀ {T} (f : buf_block_t → T), (∀ y, f (unflagged y) = f y) → f rx = f r0) as Hf.
  { intros T f Hf. by rewrite <- (Hf rx), <- (Hf r0), E. }
  rewrite (Hf _ bp_state), (Hf _ oldest_modification), (Hf _ io_fix), (Hf _ page_key), (Hf _ frame) by done.
  destruct (decide (x = b)) as [->|Hne].
  - rewrite lookup_insert_eq in Hr0. by apply (inj Some) in Hr0 as ->.
  - rewrite lookup_insert_ne in Hr0 by done. intros Hs Ho Hio. rewrite (Hx x r0) by done. by apply (HC x).
Qed.

Lemma content_other m m' hash hash' v v' b r' k : unflagged <$> m' = unflagged <$> <[b := r']> m →
  hash' !! k = hash !! k → hash !! k ≠ Some (Hashed b) → disk v' !! k = disk v !! k →
  content m' hash' v' k = content m hash v k.
Proof.
  intros Em Eh Hb Ed. unfold content. rewrite Eh. destruct (hash !! k) as [[x|n]|] eqn:Ek; [|done|done].
  assert (x ≠ b) as Hne by (by intros ->). apply (f_equal (.!! x)) in Em. rewrite !lookup_fmap, lookup_insert_ne in Em by done.
  destruct (m' !! x) as [rx|], (m !! x) as [r0|]; try done. apply (inj Some) in Em.
  assert (io_fix rx = io_fix r0) as -> by exact (f_equal io_fix Em).
  assert (frame rx = frame r0) as -> by exact (f_equal frame Em). by rewrite Ed.
Qed.

(** Two blocks do not hold the same page. *)
Lemma page_key_inj m lru free flush hash x rx b r : Tables m lru free flush hash →
  m !! x = Some rx → bp_state rx = BUF_BLOCK_FILE_PAGE → m !! b = Some r → bp_state r = BUF_BLOCK_FILE_PAGE →
  page_key rx = page_key r → x = b.
Proof.
  intros HT Hx Hsx Hb Hs E. pose proof (bo_hash _ _ _ _ _ _ (tb_blocks _ _ _ _ _ HT x rx Hx) Hsx) as H1'.
  pose proof (bo_hash _ _ _ _ _ _ (tb_blocks _ _ _ _ _ HT b r Hb) Hs) as H2'. rewrite E, H2' in H1'. congruence.
Qed.
End content.
