(* ===== verification/BufEvict.v ===== *)
(** How the buffer pool gets a free block (buf_LRU_get_free_block): writing a
    victim, with or without the RW command, and evicting a clean page. *)
From S2P Require Import Prelude Frame HostLld Crc32 Fil PageFormat FilInv BufLru BufPool BufInv BufStore.

Section evict.
Context `{HostConfig} {Hok : HostConfigOk} `{PoolConfig} {V : Type} `{PageIoOk V}.
Implicit Types (p : buf_pool_t) (b : Z) (r : buf_block_t) (c : RwStat) (a : gset Z) (v : V).

Lemma Wrote_next d d' v v1 v2 : Wrote d v v1 → (disk v1 = d → Wrote d' v1 v2) → Wrote d' v v2.
Proof. intros (E & ? & E1 & ?) W. destruct (W E) as (? & ? & E2 & ?). split_and!; [done|lia| |lia]. intros s. by rewrite E2, E1. Qed.

(** The page as it is written. *)
Definition written r : page_t := buf_flush_init_for_writing srv_checksum_algorithm (frame r) (newest_modification r).

(** ** Writing a page *)

(** The batch of type [t]: the number of its writes, whether it is being posted, and
    the event that it has ended. *)
Definition batch_state p (t : buf_flush_t) : Z * bool * bool := (n_flush p t, init_flush p t, no_flush p t).
Definition batches p := (batch_state p BUF_FLUSH_LRU, batch_state p BUF_FLUSH_LIST).

(** One more write, and one less. *)
Definition started (x : Z * bool * bool) : Z * bool * bool := (u64 (x.1.1 + 1), x.1.2, if x.1.1 =? 0 then false else x.2).
Definition finished (x : Z * bool * bool) : Z * bool * bool :=
  let n := u64 (x.1.1 - 1) in (n, x.1.2, if (n =? 0) && negb x.1.2 then true else x.2).

Record Counted (t : buf_flush_t) (f : Z * bool * bool → Z * bool * bool) p p' : Prop := {
  ct_pool : fset n_flush (n_flush p) (fset no_flush (no_flush p) p') = p;
  ct_state : batch_state p' t = f (batch_state p t);
  ct_other : ∀ u, u ≠ t → batch_state p' u = batch_state p u;
}.

Lemma start_write_ok p b r t (Φ : unit → buf_pool_t → Prop) :
  (∀ p', Counted t started p p' → Φ tt (at_block p' b (fset flush_type t (fset io_fix BUF_IO_WRITE r)))) →
  wp (start_write b t) Φ (at_block p b r).
Proof.
  intros HΦ. unfold start_write. bsteps. destruct (n_flush p t =? 0) eqn:E; bsteps; apply HΦ; split; unfold batch_state, started; cbn; rewrite ?decide_True by done;
    rewrite ?E; try done; try (by destruct p); intros u Hu; by rewrite ?decide_False.
Qed.

Lemma finish_write_ok p b r t (Φ : unit → buf_pool_t → Prop) :
  (∀ p', Counted t finished p p' → Φ tt (at_block p' b r)) →
  wp (count_flush t (λ n, n - 1) ;; n <- !(glob n_flush) ;; init <- !(glob init_flush) ;;
      when ((n t =? 0) && negb (init t)) (event_no_flush t true)) Φ (at_block p b r).
Proof.
  intros HΦ. bsteps. match goal with |- wp (when ?x _) _ _ => destruct x eqn:E end; cbn -[wrap Z.eqb] in E; rewrite decide_True in E by done;
    bsteps; apply HΦ; split; unfold batch_state, finished; cbn -[wrap Z.eqb]; rewrite ?decide_True, ?E by done; try done; try (by destruct p);
    intros u Hu; by rewrite ?decide_False.
Qed.

(** The pool after a write of block [b]: the block is off the flush list. *)
Record Flushed b (t : buf_flush_t) p p' : Prop := {
  fl_lru : lru_part p' = lru_part p;
  fl_free : pool_free p' = pool_free p;
  fl_hash : page_hash p' = page_hash p;
  fl_list : flush_list p' = UT_LIST_REMOVE (flush_list p) b;
  fl_size : curr_size p' = curr_size p;
  fl_scan : try_LRU_scan p' = try_LRU_scan p;
  fl_batch : ∀ u, u ≠ t → batch_state p' u = batch_state p u;
}.

Lemma Flushed_counted b t p p1 p' : Counted t started p p1 → Flushed b t p1 p' → Flushed b t p p'.
Proof.
  intros [E _ Ho] [F1 F2 F3 F4 F5 F6 F7]. split; [..|intros u Hu; by rewrite F7, Ho].
  - rewrite F1. exact (f_equal lru_part E).
  - rewrite F2. exact (f_equal pool_free E).
  - rewrite F3. exact (f_equal page_hash E).
  - rewrite F4. by rewrite (f_equal flush_list E : flush_list p1 = flush_list p).
  - rewrite F5. exact (f_equal curr_size E).
  - rewrite F6. exact (f_equal try_LRU_scan E).
Qed.

Definition flushed_block r page : buf_block_t :=
  fset bl_lock (Shared 0) (fset oldest_modification 0 (fset io_fix BUF_IO_NONE
    (fset frame page (fset flush_type BUF_FLUSH_SINGLE_PAGE r)))).

Lemma complete_write_ok p b r n c a v (Φ : bool → PSt V → Prop) :
  bp_state r = BUF_BLOCK_FILE_PAGE → io_fix r = BUF_IO_WRITE → bl_lock r = Shared (S n) →
  (∀ p', Flushed b (flush_type r) p p' → batch_state p' (flush_type r) = finished (batch_state p (flush_type r)) → Φ true (MkPSt (at_block p' b
     (fset bl_lock (Shared n) (fset oldest_modification 0 (fset io_fix BUF_IO_NONE r)))) c a v)) →
  wp (buf_page_io_complete b) Φ (MkPSt (at_block p b r) c a v).
Proof.
  intros Hs Hio Hl HΦ. unfold buf_page_io_complete. ssteps. rewrite Hio, bool_decide_false by done. ssteps.
  unfold buf_flush_write_complete, buf_flush_remove, buf_flush_update_hp, buf_flush_is_hp, buf_flush_set_hp, rw_lock_s_unlock.
  ssteps. scrut. rewrite Hs. ssteps.
  case_bool_decide; repeat first [apply finish_write_ok; intros p' [E E1 E2]|sstep]; scrut; rewrite Hl; ssteps;
    (apply HΦ; [split; [exact (f_equal lru_part E)|exact (f_equal pool_free E)|exact (f_equal page_hash E)|exact (f_equal flush_list E)
       |exact (f_equal curr_size E)|exact (f_equal try_LRU_scan E)|exact E2]|exact E1]).
Qed.

Lemma stamp_write_ok p b r c a v (Φ : buf_block_t → PSt V → Prop) :
  bp_state r = BUF_BLOCK_FILE_PAGE →
  Φ (fset frame (written r) r) (MkPSt (at_block p b (fset frame (written r) r)) c a v) →
  wp (stamp b) Φ (MkPSt (at_block p b r) c a v).
Proof. intros Hs HΦ. unfold stamp. ssteps. rewrite Hs. ssteps. exact HΦ. Qed.

(** A page that is dirty, not fixed and not in a request. *)
Definition flushable r : Prop :=
  bp_state r = BUF_BLOCK_FILE_PAGE ∧ io_fix r = BUF_IO_NONE ∧ bl_lock r = Shared 0.

Lemma flush_rw_ok p b r c a v space offset page :
  flushable r → <[page_key r := written r]> (disk v) !! (space, offset) = Some page →
  wp (buf_flush_page_with_rw_cmd b BUF_FLUSH_SINGLE_PAGE space offset)
    (λ ok st', ok = true ∧ ∃ p' c' v', st' = MkPSt (at_block p' b (flushed_block r page)) c' a v' ∧ Flushed b BUF_FLUSH_SINGLE_PAGE p p' ∧
       Wrote (<[page_key r := written r]> (disk v)) v v' ∧ newest_modification r ≤ durable_lsn v')
    (MkPSt (at_block p b r) c a v).
Proof.
  intros (Hs & Hio & Hl) Hp. unfold buf_flush_page_with_rw_cmd, rw_lock_s_lock_nowait. ssteps. rewrite Hl. ssteps.
  apply start_write_ok. intros p1 HC1. ssteps. eapply stamp_write_ok; [done|].
  destruct (log_law (newest_modification r) v) as [W1 D1]. cbn [fset set_io_fix newest_modification].
  set (v1 := log_write_up_to _ v). change (log_write_up_to (newest_modification r) v) with v1 in *.
  destruct (rw_law (bp_space r) (bp_offset r) (written r) space offset v1 page) as (v2 & E2 & W2).
  { destruct W1 as [-> _]. exact Hp. }
  ssteps. eapply wp_io; [exact E2|]. ssteps. rewrite bool_decide_true by done. ssteps.
  eapply complete_write_ok; [done|done|done|]. intros p' HF _. ssteps. split; [done|].
  exists p'. do 2 eexists. split; [reflexivity|]. split_and!.
  - by eapply Flushed_counted.
  - eapply Wrote_next; [exact W1|]. by intros <-.
  - destruct W2 as (_ & ? & _). lia.
Qed.

Lemma flush_sync_ok p b r c a v :
  flushable r → buf_fix_count r = 0 →
  wp (buf_flush_page b BUF_FLUSH_SINGLE_PAGE true)
    (λ ok st', ok = true ∧ ∃ p' c' v', st' = MkPSt (at_block p' b (flushed_block r (written r))) c' a v' ∧ Flushed b BUF_FLUSH_SINGLE_PAGE p p' ∧
       Wrote (<[page_key r := written r]> (disk v)) v v' ∧ newest_modification r ≤ durable_lsn v')
    (MkPSt (at_block p b r) c a v).
Proof.
  intros (Hs & Hio & Hl) Hfix. unfold buf_flush_page, rw_lock_s_lock_nowait. ssteps. rewrite Hs, Hfix. cbn [bool_decide].
  rewrite !bool_decide_true, !bool_decide_false by done. cbn [negb orb andb]. ssteps. scrut. ssteps.
  rewrite Hl. ssteps.
  apply start_write_ok. intros p1 HC1. unfold buf_flush_write_block_low. run. eapply stamp_write_ok; [done|]. ssteps.
  destruct (log_law (newest_modification r) v) as [W1 D1].
  set (v1 := log_write_up_to _ v). change (log_write_up_to (newest_modification r) v) with v1 in *.
  pose proof (write_law (bp_space r) (bp_offset r) (written r) v1) as W2. set (v2 := fil_io_write _ _ _ _) in *.
  change (fil_io_write (bp_space r) (bp_offset r) (written r) v1) with v2 in W2.
  pose proof (flush_law (bp_space r) v2) as W3.
  eapply complete_write_ok; [done|done|done|]. intros p' HF _. ssteps. split; [done|].
  exists p'. do 2 eexists. split; [reflexivity|]. split_and!.
  - by eapply Flushed_counted.
  - eapply Wrote_next; [exact W1|]. intros <-. eapply Wrote_next; [exact W2|]. unfold page_key. by intros <-.
  - destruct W2 as (_ & ? & _), W3 as (_ & ? & _). change (fil_flush_space _ v2) with (fil_flush_space (bp_space r) v2). lia.
Qed.

(** A write leaves intact pages on the disk. *)
Lemma disk_written m v v' r : StoreOk m v → Z.of_nat (length (frame r)) = UNIV_PAGE_SIZE → 0 < newest_modification r < 2 ^ 64 →
  Wrote (<[page_key r := written r]> (disk v)) v v' → newest_modification r ≤ durable_lsn v' →
  ∀ k page, disk v' !! k = Some page →
    Z.of_nat (length page) = UNIV_PAGE_SIZE ∧ buf_page_is_corrupted srv_checksum_algorithm page = false ∧
    mach_read_from_8 page FIL_PAGE_LSN ≤ durable_lsn v'.
Proof.
  intros [_ HD] Hl Hn (E & Hd & _) Hlsn k page. rewrite E. destruct (written_facts r Hok Hl Hn) as (W1 & W2 & W3 & _).
  destruct (decide (k = page_key r)) as [->|Hne].
  - rewrite lookup_insert_eq. intros [= <-]. unfold written. rewrite W3. done.
  - rewrite lookup_insert_ne by done. intros Hk. destruct (HD k page Hk) as (? & ? & ?). split_and!; [done|done|lia].
Qed.

(** A page is written, or its write is completed: the frame and the disk agree, and
    the content of no page has changed. *)
Lemma written_inv p b r r' c a v p' c' a' v' :
  Inv (MkPSt p c a v) → blocks p !! b = Some r → bp_state r = BUF_BLOCK_FILE_PAGE → io_fix r ≠ BUF_IO_READ → oldest_modification r ≠ 0 →
  lru_part p' = lru_part p → pool_free p' = pool_free p → page_hash p' = page_hash p →
  (oldest_modification r' = 0 ∧ flush_list p' = UT_LIST_REMOVE (flush_list p) b ∨
   oldest_modification r' = oldest_modification r ∧ flush_list p' = flush_list p) →
  bp_state r' = BUF_BLOCK_FILE_PAGE → bp_old r' = bp_old r → page_key r' = page_key r → newest_modification r' = newest_modification r →
  io_fix r' ≠ BUF_IO_READ → (io_fix r' = BUF_IO_NONE → buf_fix_count r' = 0 → bl_lock r' = Shared 0) →
  Z.of_nat (length (frame r')) = UNIV_PAGE_SIZE → same_page (frame r) (frame r') →
  disk v' = <[page_key r := frame r']> (disk v) →
  (∀ k page, disk v' !! k = Some page →
    Z.of_nat (length page) = UNIV_PAGE_SIZE ∧ buf_page_is_corrupted srv_checksum_algorithm page = false ∧
    mach_read_from_8 page FIL_PAGE_LSN ≤ durable_lsn v') →
  let st' := MkPSt (at_block p' b r') c' a' v' in Inv st' ∧ same_content (MkPSt p c a v) st'.
Proof.
  intros [[HL HT] HS] Hb Hs Hio Ho F1 F2 F3 F4 Hs' Eo Ek En Hio' Hlock Hlen Hsame Ed HD. cbn zeta. cbn [p_pool p_io] in *.
  destruct (tb_blocks _ _ _ _ _ HT b r Hb) as [B1 B2 B3 B4 B5 B6 B7 B8 B9 B10].
  assert (Eb : blocks p' = blocks p) by exact (f_equal (λ x, x.1.1.1.1) F1).
  assert (El : pool_LRU p' = pool_LRU p) by exact (f_equal (λ x, x.1.1.1.2) F1).
  assert (Em : unflagged <$> blocks (at_block p' b r') = unflagged <$> <[b := r']> (blocks p)) by (unfold at_block; cbn; by rewrite Eb).
  assert (Hhash : ∀ k, page_hash p !! k = Some (Hashed b) → k = page_key r).
  { intros k Hk. destruct (tb_hash _ _ _ _ _ HT k b Hk) as (r0 & Hr0 & _ & ->). rewrite Hb in Hr0. by apply (inj Some) in Hr0 as ->. }
  split; [split; [split|]|].
  - apply (LruOk_part (at_block p b r')); [unfold at_block, lru_part in *; cbn; congruence|]. apply (LruOk_at p b r); [done|done|]. by rewrite Hs, Hs'.
  - unfold at_block. cbn. rewrite Eb, El, F2, F3. eapply Tables_update; [done|done|done| |..].
    + split; rewrite ?Hs', ?Ek; try done.
      * rewrite B1. by rewrite Hs.
      * rewrite B2. by rewrite Hs.
      * destruct F4 as [[-> ->]|[-> ->]]; [rewrite elem_of_key_removed; split; [by intros [? _]|by intros [_ ?]]|]. rewrite B3. by rewrite Hs.
      * intros _. by apply B4.
      * rewrite En. intros _. by apply B9.
    + intros x Hx. split; [done|]. split; [done|]. destruct F4 as [[_ ->]|[_ ->]]; [|done]. rewrite elem_of_key_removed. naive_solver.
    + apply HT.
    + destruct F4 as [[_ ->]|[_ ->]]; [apply NoDup_filter|]; apply HT.
    + done.
    + intros k Hk. split; [done|]. rewrite Ek. by apply Hhash.
    + done.
  - cbn [p_io p_pool]. eapply StoreOk_update; [exact HS|exact Em|done| |].
    + intros _ _ _. rewrite Ed, Ek. apply lookup_insert_eq.
    + intros x rx Hne Hrx Hsx. rewrite Ed, lookup_insert_ne; [done|]. intros E. apply Hne. by eapply page_key_inj.
  - intros k. unfold content_of. cbn [p_pool p_io]. destruct (decide (k = page_key r)) as [->|Hne].
    + unfold content. unfold at_block. cbn. rewrite F3, B4 by done. rewrite Hb, lookup_insert_eq, !bool_decide_false by done. by constructor.
    + erewrite (content_other (blocks p) _ (page_hash p) _ v v' b r'); [reflexivity|done|unfold at_block; cbn; by rewrite F3| |].
      * intros Hk. by apply Hne, Hhash.
      * rewrite Ed. by rewrite lookup_insert_ne.
Qed.

Lemma flushed_inv p b r c a v p' c' v' :
  Inv (MkPSt p c a v) → blocks p !! b = Some r → bp_state r = BUF_BLOCK_FILE_PAGE → io_fix r = BUF_IO_NONE →
  buf_fix_count r = 0 → oldest_modification r ≠ 0 → Flushed b BUF_FLUSH_SINGLE_PAGE p p' →
  Wrote (<[page_key r := written r]> (disk v)) v v' → newest_modification r ≤ durable_lsn v' →
  let st' := MkPSt (at_block p' b (flushed_block r (written r))) c' a v' in
  Inv st' ∧ same_content (MkPSt p c a v) st'.
Proof.
  intros HI Hb Hs Hio Hfix Ho [F1 F2 F3 F4 F5 F6 _] HW Hd. pose proof HI as [[HL HT] HS]. cbn [p_pool p_io] in *.
  pose proof (tb_blocks _ _ _ _ _ HT b r Hb) as HB. pose proof (bo_lsn _ _ _ _ _ _ HB Ho) as Hn. pose proof (bo_frame _ _ _ _ _ _ HB) as Hl.
  destruct (written_facts r Hok Hl Hn) as (W1 & _ & _ & W4). apply (written_inv p b r); try done.
  - by rewrite Hio.
  - by left.
  - apply HW.
  - by apply (disk_written (blocks p) v v' r).
Qed.

(** ** Taking a page out of the pool *)

(** Block [b] has become [r'] and is out of the LRU list and of page_hash. *)
Record Evicted b r r' p p' : Prop := {
  ev_lru : LruOk p';
  ev_list : pool_LRU p' = UT_LIST_REMOVE (pool_LRU p) b;
  ev_hash : page_hash p' = delete (page_key r) (page_hash p);
  ev_free : pool_free p' = pool_free p;
  ev_flush : flush_list p' = flush_list p;
  ev_size : curr_size p' = curr_size p;
  ev_scan : try_LRU_scan p' = try_LRU_scan p;
  ev_batch : batches p' = batches p;
  ev_block : blocks p' !! b = Some r';
  ev_blocks : unflagged <$> blocks p' = unflagged <$> <[b := r']> (blocks p);
}.

Lemma remove_from_tables_ok p b r : LruOk p → b ∈ pool_LRU p → blocks p !! b = Some r →
  bp_state r = BUF_BLOCK_FILE_PAGE → io_fix r = BUF_IO_NONE → buf_fix_count r = 0 → oldest_modification r = 0 →
  page_hash p !! page_key r = Some (Hashed b) →
  wp (remove_from_tables b) (λ _ p', ∃ r', Evicted b r r' p p' ∧ unflagged r' = unflagged (fset modify_clock (modify_clock r + 1) r)) p.
Proof.
  intros HL Hin Hb Hs Hio Hfix Ho Hh. unfold remove_from_tables. rewrite <- (at_block_id p b r Hb) at 1.
  bsteps. rewrite Hio, Hfix, bool_decide_true by done. bsteps. scrut. bsteps. rewrite at_block_id by done.
  eapply wp_mono; [by apply remove_block_ok|]. cbn beta. intros [] p1 (HL1 & El & R).
  assert (Eb : unflagged <$> blocks p1 = unflagged <$> blocks p) by exact (f_equal blocks R).
  assert (∃ r1, blocks p1 !! b = Some r1 ∧ unflagged r1 = unflagged r) as (r1 & Hr1 & E1).
  { apply (f_equal (.!! b)) in Eb as Eb'. rewrite !lookup_fmap, Hb in Eb'. destruct (blocks p1 !! b) as [r1|]; [|done].
    exists r1. split; [done|]. by apply (inj Some) in Eb'. }
  assert (Hs1 : bp_state r1 = BUF_BLOCK_FILE_PAGE) by (rewrite <- Hs; exact (f_equal bp_state E1)).
  assert (Ek : page_key r1 = page_key r) by exact (f_equal page_key E1).
  rewrite <- (at_block_id p1 b r1 Hr1). bsteps. rewrite Hs1. bsteps.
  assert (oldest_modification r1 = 0) as -> by (rewrite <- Ho; exact (f_equal oldest_modification E1)). scrut. bsteps.
  unfold buf_page_hash_get_low. bsteps.
  assert (Eh : page_hash p1 !! (bp_space r1, bp_offset r1) = Some (Hashed b)).
  { assert (page_hash p1 = page_hash p) as -> by exact (f_equal page_hash R). rewrite <- Hh. f_equal. exact Ek. }
  cbn [page_hash fset set_pool_freed_page_clock]. rewrite Eh. bsteps. rewrite Z.eqb_refl. bsteps.
  set (r2 := fset modify_clock _ r1). exists r2. split.
  - split; try done.
    + eapply LruOk_part; [|apply (LruOk_at p1 b r1 r2); [done|done|done]]. done.
    + cbn. assert (page_hash p1 = page_hash p) as -> by exact (f_equal page_hash R). unfold page_key in Ek. by rewrite Ek.
    + exact (f_equal pool_free R).
    + exact (f_equal flush_list R).
    + exact (f_equal curr_size R).
    + exact (f_equal try_LRU_scan R).
    + exact (f_equal batches R).
    + unfold at_block. cbn. apply lookup_insert_eq.
    + unfold at_block. cbn. by rewrite !fmap_insert, Eb.
  - assert (modify_clock r1 = modify_clock r) as E2 by exact (f_equal modify_clock E1).
    unfold r2. rewrite E2. transitivity (fset modify_clock (modify_clock r + 1) (unflagged r1)); [done|]. by rewrite E1.
Qed.

(** A block without a page. *)
Record Idle r : Prop := {
  id_state : bp_state r = BUF_BLOCK_NOT_USED ∨ bp_state r = BUF_BLOCK_READY_FOR_USE;
  id_frame : Z.of_nat (length (frame r)) = UNIV_PAGE_SIZE;
  id_io : io_fix r = BUF_IO_NONE;
  id_fix : buf_fix_count r = 0;
  id_target : target_rw_cmd r = false;
  id_lock : bl_lock r = Shared 0;
  id_clean : oldest_modification r = 0;
  id_wiped : bp_state r = BUF_BLOCK_NOT_USED → use_rw_cmd r = true → mach_read_from_4 (frame r) FIL_PAGE_OFFSET = WIPED;
}.

Definition free_with b r (free : list Z) : list Z := if bool_decide (bp_state r = BUF_BLOCK_NOT_USED) then b :: free else free.

Lemma Idle_ok lru free flush hash b r : Idle r → b ∉ lru → b ∉ free → b ∉ flush →
  BlockOk lru (free_with b r free) flush hash b r.
Proof.
  intros [[E|E] ? ? ? ? ? ? ?] Hl Hf Hd; unfold free_with; case_bool_decide as Hd'; try congruence;
    split; rewrite ?E; try done; try set_solver; naive_solver.
Qed.

Lemma elem_of_free_with b r free x : x ≠ b → x ∈ free_with b r free ↔ x ∈ free.
Proof. unfold free_with. case_bool_decide; set_solver. Qed.

(** A page leaves the pool, its content being on the disk. *)
Lemma evict_inv p b r c a v p' r' c' a' v' :
  Inv (MkPSt p c a v) → blocks p !! b = Some r → bp_state r = BUF_BLOCK_FILE_PAGE → io_fix r = BUF_IO_NONE →
  LruOk p' → unflagged <$> blocks p' = unflagged <$> <[b := r']> (blocks p) → pool_LRU p' = UT_LIST_REMOVE (pool_LRU p) b →
  page_hash p' = delete (page_key r) (page_hash p) → flush_list p' = UT_LIST_REMOVE (flush_list p) b →
  pool_free p' = free_with b r' (pool_free p) → Idle r' →
  (∀ k page, disk v' !! k = Some page →
    Z.of_nat (length page) = UNIV_PAGE_SIZE ∧ buf_page_is_corrupted srv_checksum_algorithm page = false ∧
    mach_read_from_8 page FIL_PAGE_LSN ≤ durable_lsn v') →
  (∀ k, k ≠ page_key r → disk v' !! k = disk v !! k) →
  (∃ w, disk v' !! page_key r = Some w ∧ same_page (frame r) w) →
  let st' := MkPSt p' c' a' v' in Inv st' ∧ same_content (MkPSt p c a v) st'.
Proof.
  intros [[HL HT] HS] Hb Hs Hio HL' Em El Eh Ed Ef HI HD Hk (w & Hw & Hsame). cbn zeta. cbn [p_pool p_io] in *.
  pose proof (tb_blocks _ _ _ _ _ HT b r Hb) as HB.
  assert (Hnf : b ∉ pool_free p) by (rewrite (bo_free _ _ _ _ _ _ HB), Hs; done).
  assert (Hns : bp_state r' ≠ BUF_BLOCK_FILE_PAGE) by (destruct (id_state _ HI) as [->| ->]; done).
  assert (Hhash : ∀ k, page_hash p !! k = Some (Hashed b) → k = page_key r).
  { intros k Hk'. destruct (tb_hash _ _ _ _ _ HT k b Hk') as (r0 & Hr0 & _ & ->). by simplify_eq. }
  split; [split; [split; [done|]|]|].
  - cbn [p_pool]. rewrite El, Eh, Ed, Ef. eapply Tables_update; [done|done|done| |..].
    + apply Idle_ok; [done|rewrite elem_of_key_removed; by intros [? _]|done|rewrite elem_of_key_removed; by intros [? _]].
    + intros x Hx. rewrite !elem_of_key_removed, elem_of_free_with by done. naive_solver.
    + unfold free_with. case_bool_decide; [constructor; [done|]|]; apply HT.
    + apply NoDup_filter, HT.
    + intros k x Hx. rewrite lookup_delete_Some. split; [by intros [_ ?]|]. intros Hk'. split; [|done].
      intros <-. rewrite (bo_hash _ _ _ _ _ _ HB Hs) in Hk'. congruence.
    + intros k. rewrite lookup_delete_Some. intros [Hne Hk']. by destruct Hne; rewrite (Hhash k).
    + intros k n. rewrite lookup_delete_Some. by intros [_ ?].
  - cbn [p_io p_pool]. eapply StoreOk_update; [exact HS|exact Em|done|done|]. intros x rx Hne Hrx Hsx. apply Hk. intros E. apply Hne.
    by eapply page_key_inj.
  - intros k. unfold content_of. cbn [p_pool p_io]. destruct (decide (k = page_key r)) as [->|Hne].
    + unfold content. rewrite Eh, lookup_delete_eq, (bo_hash _ _ _ _ _ _ HB Hs), Hb, Hio, Hw. cbn. by constructor.
    + erewrite (content_other (blocks p) _ (page_hash p) _ v v' b r'); [reflexivity|done| | |by apply Hk].
      * by rewrite Eh, lookup_delete_ne.
      * intros Hk'. apply Hne, Hhash, Hk'.
Qed.

(** ** Freeing a clean page *)

Lemma length_memset page off byte : 0 ≤ off → off + 4 ≤ Z.of_nat (length page) → length (memset page off byte 4) = length page.
Proof. intros. apply length_put_bytes; [done|]. rewrite length_replicate. lia. Qed.

Definition wipe (byte : Z) (f : page_t) : page_t :=
  memset (memset f FIL_PAGE_OFFSET byte 4) FIL_PAGE_ARCH_LOG_NO_OR_SPACE_ID byte 4.

Lemma wipe_ok byte f : Z.of_nat (length f) = UNIV_PAGE_SIZE →
  Z.of_nat (length (wipe byte f)) = UNIV_PAGE_SIZE ∧ (byte = 0xfe → mach_read_from_4 (wipe byte f) FIL_PAGE_OFFSET = WIPED).
Proof.
  intros Hl. pose proof univ_page_size as Hu. unfold wipe, FIL_PAGE_OFFSET, FIL_PAGE_ARCH_LOG_NO_OR_SPACE_ID. split.
  - rewrite !length_memset; rewrite ?length_memset; lia.
  - intros ->. rewrite (read_4_ext (memset f 4 0xfe 4)).
    + unfold mach_read_from_4. unfold memset. rewrite bytes_at_put_same; [done|lia|done|lia].
    + unfold memset at 1. apply bytes_at_put_other; [lia|lia| |cbn; lia]. rewrite length_memset by lia. rewrite length_replicate. lia.
Qed.

Definition replaceable r : bool :=
  (oldest_modification r =? 0) && (buf_fix_count r =? 0) && negb (target_rw_cmd r) && negb (use_rw_cmd r)
  && bool_decide (io_fix r = BUF_IO_NONE).

Lemma replaceable_spec r : replaceable r = true ↔
  oldest_modification r = 0 ∧ buf_fix_count r = 0 ∧ target_rw_cmd r = false ∧ use_rw_cmd r = false ∧ io_fix r = BUF_IO_NONE.
Proof. unfold replaceable. rewrite !andb_true_iff, !negb_true_iff, !Z.eqb_eq, bool_decide_eq_true. tauto. Qed.

(** What other threads rely on: the pages that stay keep their latches, fixes and
    requests, and a page that is being written stays as it is, in the frame and on
    the disk. *)
Definition pins r := (page_key r, io_fix r, buf_fix_count r, bl_lock r, use_rw_cmd r, target_rw_cmd r).
Definition write_pins (d : gmap (Z * Z) page_t) r := (frame r, oldest_modification r, flush_type r, d !! page_key r).
Definition kept (m m' : gmap Z buf_block_t) (d d' : gmap (Z * Z) page_t) : Prop :=
  ∀ b r', m' !! b = Some r' → bp_state r' = BUF_BLOCK_FILE_PAGE →
  ∃ r, m !! b = Some r ∧ bp_state r = BUF_BLOCK_FILE_PAGE ∧ pins r' = pins r ∧ (io_fix r = BUF_IO_WRITE → write_pins d' r' = write_pins d r).

Lemma kept_update m m' d d' b r' : unflagged <$> m' = unflagged <$> <[b := r']> m →
  (bp_state r' = BUF_BLOCK_FILE_PAGE → ∃ r, m !! b = Some r ∧ bp_state r = BUF_BLOCK_FILE_PAGE ∧ pins r' = pins r ∧ io_fix r ≠ BUF_IO_WRITE) →
  (∀ x rx, x ≠ b → m !! x = Some rx → bp_state rx = BUF_BLOCK_FILE_PAGE → d' !! page_key rx = d !! page_key rx) →
  kept m m' d d'.
Proof.
  intros Em Hb Hd x rx Hx Hs. destruct (lookup_flags _ _ _ _ Em Hx) as (r0 & Hr0 & E).
  assert (Es : bp_state rx = bp_state r0) by exact (f_equal bp_state E). rewrite Es in Hs.
  assert (pins rx = pins r0) as -> by exact (f_equal pins E).
  assert (write_pins d' rx = write_pins d' r0) as -> by exact (f_equal (write_pins d') E). destruct (decide (x = b)) as [->|Hne].
  - rewrite lookup_insert_eq in Hr0. apply (inj Some) in Hr0 as ->. destruct (Hb Hs) as (r & ? & ? & ? & ?). exists r. by split_and!.
  - rewrite lookup_insert_ne in Hr0 by done. exists r0. split_and!; [done|done|done|]. intros _. unfold write_pins. by rewrite (Hd x).
Qed.

(** What the search for a block does to the state. *)
Record Searched (st st' : PSt V) : Prop := {
  se_inv : Inv st';
  se_content : same_content st st';
  se_hash : page_hash (p_pool st') ⊆ page_hash (p_pool st);
  se_size : curr_size (p_pool st') = curr_size (p_pool st);
  se_disk : ∀ k, is_Some (disk (p_io st) !! k) → is_Some (disk (p_io st') !! k);
  se_deleted : ∀ s, fil_tablespace_deleted_or_being_deleted_in_mem s (p_io st') =
                    fil_tablespace_deleted_or_being_deleted_in_mem s (p_io st);
  se_kept : kept (blocks (p_pool st)) (blocks (p_pool st')) (disk (p_io st)) (disk (p_io st'));
  se_lsns : lsns (blocks (p_pool st')) (flush_list (p_pool st')) `sublist_of` lsns (blocks (p_pool st)) (flush_list (p_pool st));
  se_log : log_lsn (p_io st) ≤ log_lsn (p_io st');
  se_batch : batches (p_pool st') = batches (p_pool st);
}.

Definition available (p : buf_pool_t) : Z := Z.of_nat (length (pool_free p)) + Z.of_nat (length (pool_LRU p)).

Definition Freed b (st st' : PSt V) : Prop :=
  Searched st st' ∧ pool_free (p_pool st') = b :: pool_free (p_pool st) ∧ available (p_pool st') = available (p_pool st) ∧
  pool_LRU (p_pool st') = UT_LIST_REMOVE (pool_LRU (p_pool st)) b ∧
  ∃ r', unflagged <$> blocks (p_pool st') = unflagged <$> <[b := r']> (blocks (p_pool st)).

Lemma drop_index_ok p b r c a v (Φ : unit → PSt V → Prop) :
  (∀ a', Φ tt (MkPSt (at_block p b (fset bl_index None r)) c a' v)) →
  wp (btr_search_drop_page_hash_index b) Φ (MkPSt (at_block p b r) c a v).
Proof.
  intros HΦ. unfold btr_search_drop_page_hash_index. run. case_bool_decide as Hi; cbn [when].
  - run. eapply wp_modify; [done|]. cbn [poke glob]. change (fset p_ahi ?x (MkPSt ?y ?z _ ?w)) with (MkPSt y z x w). run. apply HΦ.
  - apply wp_ret. assert (r = fset bl_index None r) as E; [|rewrite E; apply HΦ].
    destruct r; cbn in *. f_equal. destruct bl_index; [|done]. destruct Hi. by eexists.
Qed.

Lemma free_page_ok p b r c a v : Inv (MkPSt p c a v) → blocks p !! b = Some r → bp_state r = BUF_BLOCK_FILE_PAGE →
  replaceable r = true →
  wp (buf_LRU_free_page b) (λ ok st', ok = true ∧ Freed b (MkPSt p c a v) st') (MkPSt p c a v).
Proof.
  intros HI Hb Hs (Ho & Hfix & Ht & Hu & Hio)%replaceable_spec. pose proof HI as [[HL HT] HS]. cbn [p_pool p_io] in *.
  pose proof (tb_blocks _ _ _ _ _ HT b r Hb) as HB. pose proof (proj2 (bo_lru _ _ _ _ _ _ HB) Hs) as Hin.
  unfold buf_LRU_free_page. rewrite <- (at_block_id p b r Hb) at 1. ssteps. unfold buf_page_can_relocate. rewrite Hu, Ht, Hio, Hfix, Ho.
  rewrite bool_decide_true by done. run. unfold buf_LRU_block_remove_hashed. ssteps. rewrite at_block_id by done.
  eapply wp_mono; [apply (remove_from_tables_ok p b r); try done; by apply HB|]. cbn beta. intros [] p1 (r1 & HE & E1).
  destruct HE as [HL1 El Eh Ef Ed Esz Esc Eba Hr1 Eb].
  assert (Hf1 : ∀ {T} (f : buf_block_t → T), (∀ y, f (unflagged y) = f y) → (∀ y n, f (fset modify_clock n y) = f y) → f r1 = f r).
  { intros T f H3 H4. rewrite <- (H3 r1), E1, (H3 (fset _ _ r)), H4. done. }
  rewrite <- (at_block_id p1 b r1 Hr1). bsteps. rewrite (Hf1 _ bp_state), Hs by done. run.
  eapply drop_index_ok. intros a'. unfold buf_LRU_block_free_hashed_page, buf_LRU_block_free_non_file_page. run.
  split; [done|]. set (r' := fset frame _ _). set (p' := at_block _ b r').
  assert (Hf' : Z.of_nat (length (frame r1)) = UNIV_PAGE_SIZE) by (rewrite (Hf1 _ frame) by done; apply HB).
  destruct (wipe_ok 0xff _ Hf') as [L1 _], (wipe_ok 0xfe _ L1) as [L2 L3].
  assert (HId : Idle r').
  { split; cbn; rewrite ?(Hf1 _ buf_fix_count), ?(Hf1 _ target_rw_cmd), ?(Hf1 _ bl_lock), ?(Hf1 _ oldest_modification) by done; try done.
    - by left.
    - by apply HB.
    - intros _ _. by apply L3. }
  assert (Em : unflagged <$> blocks p' = unflagged <$> <[b := r']> (blocks p)).
  { unfold p', at_block. cbn. by rewrite fmap_insert, Eb, !fmap_insert, insert_insert_eq. }
  assert (Efl' : flush_list p' = UT_LIST_REMOVE (flush_list p) b).
  { unfold p', at_block. cbn. rewrite Ed. symmetry. apply remove_absent. rewrite (bo_flush _ _ _ _ _ _ HB). by intros [_ ?]. }
  destruct (evict_inv p b r c a v p' r' c a' v) as [HI' Hsame]; try done.
  - eapply LruOk_part; [|apply (LruOk_at p1 b r1 r'); [done|done|]]; [done|].
    rewrite El, elem_of_key_removed. by intros [? _].
  - unfold p', at_block. cbn. by rewrite Ef.
  - apply HS.
  - exists (frame r). split; [|done]. eapply so_clean; [exact HS|done|done|done|]. by rewrite Hio.
  - split; [split|]; try done.
    + unfold p', at_block. cbn. rewrite Eh. apply delete_subseteq.
    + by apply (kept_update _ _ _ _ b r').
    + change (p_pool (MkPSt p' c a' v)) with p'. rewrite Efl'. by eapply lsns_remove.
    + split; [unfold p', at_block; cbn; by rewrite Ef|]. split; [|split; [exact El|by exists r']]. unfold available. unfold p', at_block. cbn [p_pool pool_free pool_LRU fset set_pool_free set_blocks].
      rewrite Ef, El, remove_length; [|apply HL|done]. unfold len. cbn [length]. lia.
Qed.

(** The counters do not matter. *)
Definition rest_of (p : buf_pool_t) := (curr_size p, batches p).
Definition tables_of (p : buf_pool_t) := (lru_part p, pool_free p, flush_list p, page_hash p, rest_of p).

Lemma Inv_lists p p' c c' a a' v : (tables_of p').1 = (tables_of p).1 → Inv (MkPSt p c a v) → Inv (MkPSt p' c' a' v).
Proof.
  intros E [[HL HT] HS]. assert (lru_part p' = lru_part p) as E1 by exact (f_equal (λ x, x.1.1.1) E).
  assert (pool_free p' = pool_free p) as E2 by exact (f_equal (λ x, x.1.1.2) E).
  assert (flush_list p' = flush_list p) as E3 by exact (f_equal (λ x, x.1.2) E).
  assert (page_hash p' = page_hash p) as E4 by exact (f_equal snd E).
  assert (blocks p' = blocks p) as E5 by exact (f_equal (λ x, x.1.1.1.1) E1).
  assert (pool_LRU p' = pool_LRU p) as E6 by exact (f_equal (λ x, x.1.1.1.2) E1).
  split; [split; [by apply (LruOk_part p)|]|]; cbn [p_pool p_io] in *; rewrite ?E2, ?E3, ?E4, ?E5, ?E6; done.
Qed.

Lemma Inv_tables p p' c c' a a' v : tables_of p' = tables_of p → Inv (MkPSt p c a v) → Inv (MkPSt p' c' a' v).
Proof. intros E. apply Inv_lists. exact (f_equal fst E). Qed.

Lemma content_lists p p' c c' a a' v : (tables_of p').1 = (tables_of p).1 → content_of (MkPSt p' c' a' v) = content_of (MkPSt p c a v).
Proof.
  intros E. unfold content_of. cbn [p_pool p_io]. f_equal; [exact (f_equal (λ x, x.1.1.1.1.1.1.1) E)|exact (f_equal snd E)].
Qed.
Lemma content_tables p p' c c' a a' v : tables_of p' = tables_of p → content_of (MkPSt p' c' a' v) = content_of (MkPSt p c a v).
Proof. intros E. apply content_lists. exact (f_equal fst E). Qed.

Lemma Searched_tables st p p' c c' a a' v : tables_of p' = tables_of p → Searched st (MkPSt p c a v) → Searched st (MkPSt p' c' a' v).
Proof.
  intros E [S1 S2 S3 S4 S5 S6 S7 S8 S9 S10]. split; [by eapply Inv_tables| | | |done|done| | |done|].
  - intros k. rewrite (content_tables p p' c c' a a' v E). apply S2.
  - cbn [p_pool] in *. assert (page_hash p' = page_hash p) as -> by exact (f_equal (λ x, x.1.2) E). done.
  - cbn [p_pool] in *. rewrite <- S4. exact (f_equal (λ x, x.2.1) E).
  - cbn [p_pool] in *. assert (blocks p' = blocks p) as -> by exact (f_equal (λ x, x.1.1.1.1.1.1.1.1) E). done.
  - cbn [p_pool] in *. assert (blocks p' = blocks p) as -> by exact (f_equal (λ x, x.1.1.1.1.1.1.1.1) E).
    assert (flush_list p' = flush_list p) as -> by exact (f_equal (λ x, x.1.1.2) E). done.
  - cbn [p_pool] in *. rewrite <- S10. exact (f_equal (λ x, x.2.2) E).
Qed.

Lemma Searched_refl st : Inv st → Searched st st.
Proof. intros HI. split; try done. intros b r Hb Hs. by exists r. Qed.
Lemma Searched_trans st st1 st2 : Searched st st1 → Searched st1 st2 → Searched st st2.
Proof.
  intros [A1 A2 A3 A4 A5 A6 A7 A8 A9 A10] [B1 B2 B3 B4 B5 B6 B7 B8 B9 B10].
  split; [done|by etrans|by etrans|congruence|auto|intros s; by rewrite B6| |by etrans|by etrans|congruence]. intros b r Hb Hs.
  destruct (B7 b r Hb Hs) as (r1 & Hr1 & Hs1 & -> & Hw). destruct (A7 b r1 Hr1 Hs1) as (r2 & Hr2 & Hs2 & E & Hw2). exists r2.
  assert (Eio : io_fix r1 = io_fix r2) by exact (f_equal (λ x, x.1.1.1.1.2) E). split_and!; [done|done|done|]. intros Hio. rewrite Hw by congruence. by apply Hw2.
Qed.

Lemma Freed_tables b st p p' c c' a a' v : tables_of p' = tables_of p → Freed b st (MkPSt p c a v) → Freed b st (MkPSt p' c' a' v).
Proof.
  intros E (HS & Ef & Ea & Hr). assert (pool_free p' = pool_free p) as E2 by exact (f_equal (λ x, x.1.1.1.2) E).
  assert (pool_LRU p' = pool_LRU p) as E3 by exact (f_equal (λ x, x.1.1.1.1.1.1.1.2) E).
  assert (blocks p' = blocks p) as E4 by exact (f_equal (λ x, x.1.1.1.1.1.1.1.1) E).
  split; [by eapply Searched_tables|]. unfold available in *. cbn [p_pool] in *. by rewrite E2, E3, E4.
Qed.

(** ** Scans of the LRU list *)

Lemma in_pool p b : PoolOk p → b ∈ pool_LRU p → ∃ r, blocks p !! b = Some r ∧ bp_state r = BUF_BLOCK_FILE_PAGE.
Proof. intros [[HC _] _] Hb. by apply (in_files_lookup p _ b (cn_files _ HC)). Qed.

Lemma free_page_no p b r c a v : blocks p !! b = Some r → replaceable r = false →
  wp (buf_LRU_free_page b) (λ ok st', ok = false ∧ st' = MkPSt p c a v) (MkPSt p c a v).
Proof.
  intros Hb Hr. unfold buf_LRU_free_page, buf_page_can_relocate, replaceable in *. rewrite <- (at_block_id p b r Hb). ssteps.
  destruct (use_rw_cmd r), (target_rw_cmd r); try by apply wp_ret. cbn [orb]. cbn [negb] in Hr. rewrite !andb_true_r in Hr.
  destruct (bool_decide (io_fix r = BUF_IO_NONE)); cbn [andb negb]; [|by apply wp_ret]. rewrite andb_true_r in Hr.
  destruct (buf_fix_count r =? 0); cbn [negb]; [|by apply wp_ret]. rewrite andb_true_r in Hr. rewrite Hr. by apply wp_ret.
Qed.

Lemma free_from_tail_ok p c a v all n l : Inv (MkPSt p c a v) → l ⊆ pool_LRU p →
  wp (free_from_tail all n l) (λ ok st',
    ok = true ∧ (∃ b, Freed b (MkPSt p c a v) st') ∨
    ok = false ∧ st' = MkPSt p c a v ∧
      (all = true → ∀ b r, b ∈ l → blocks p !! b = Some r → replaceable r = false)) (MkPSt p c a v).
Proof.
  intros HI. revert n. induction l as [|b l IH]; intros n Hl; cbn [free_from_tail].
  { apply wp_ret. right. split_and!; [done|done|]. intros _ b r Hb. by apply not_elem_of_nil in Hb. }
  destruct (in_pool p b (proj1 HI)) as (r & Hb & Hs); [apply Hl; by left|].
  destruct (all || (n <? srv_LRU_scan_depth)) eqn:Eall.
  2:{ apply wp_ret. right. split_and!; [done|done|]. intros ->. done. }
  apply wp_bind, wp_pool. eapply wp_load; [cbn; by rewrite Hb|]. apply wp_bind. destruct (replaceable r) eqn:Er.
  - eapply wp_mono; [by apply (free_page_ok p b r)|]. cbn beta. intros ok [p' c' a' v'] [-> HF]. cbn [andb].
    apply wp_bind, (wp_mono _ (λ _ st', Freed b (MkPSt p c a v) st')); [|intros [] st' H'; apply wp_ret; left; split; [done|by exists b]].
    destruct (access_time r =? 0); cbn [when]; [|by apply wp_ret]. ssteps. eapply wp_modify; [done|]. by eapply Freed_tables; [|exact HF].
  - eapply wp_mono; [by apply (free_page_no p b r)|]. cbn beta. intros ok st' [-> ->]. cbn [andb]. ssteps.
    eapply wp_mono; [apply IH; set_solver|]. cbn beta. intros ok st' [[-> ?]|(-> & -> & Hno)]; [by left|right].
    split_and!; [done|done|]. intros Ha x rx [->|Hx]%elem_of_cons Hrx; [by simplify_eq|]. by eapply Hno.
Qed.

Lemma ready_for_replace_ok p b r c a v (Φ : bool → PSt V → Prop) :
  blocks p !! b = Some r → bp_state r = BUF_BLOCK_FILE_PAGE → Φ (replaceable r) (MkPSt p c a v) →
  wp (pool (buf_flush_ready_for_replace b)) Φ (MkPSt p c a v).
Proof.
  intros Hb Hs HΦ. unfold buf_flush_ready_for_replace. rewrite <- (at_block_id p b r Hb). ssteps. rewrite Hs. ssteps.
  rewrite at_block_id by done. exact HΦ.
Qed.

Lemma free_first_ok p c a v l : Inv (MkPSt p c a v) → l ⊆ pool_LRU p →
  wp (free_first l) (λ ok st',
    ok = true ∧ (∃ b, Freed b (MkPSt p c a v) st') ∨
    ok = false ∧ st' = MkPSt p c a v ∧ ∀ b r, b ∈ l → blocks p !! b = Some r → replaceable r = false) (MkPSt p c a v).
Proof.
  intros HI. induction l as [|b l IH]; intros Hl; cbn [free_first].
  { apply wp_ret. right. split_and!; [done|done|]. intros b r Hb. by apply not_elem_of_nil in Hb. }
  destruct (in_pool p b (proj1 HI)) as (r & Hb & Hs); [apply Hl; by left|]. apply wp_bind, (ready_for_replace_ok p b r); [done|done|].
  destruct (replaceable r) eqn:Er.
  - eapply wp_mono; [by apply (free_page_ok p b r)|]. cbn beta. intros ok st' [-> HF]. left. split; [done|by exists b].
  - eapply wp_mono; [apply IH; set_solver|]. cbn beta. intros ok st' [[-> ?]|(-> & -> & Hno)]; [by left|right].
    split_and!; [done|done|]. intros x rx [->|Hx]%elem_of_cons Hrx; [by simplify_eq|]. by eapply Hno.
Qed.

Definition flush_ready r : bool :=
  negb (use_rw_cmd r) && negb (target_rw_cmd r) && negb (oldest_modification r =? 0) && bool_decide (io_fix r = BUF_IO_NONE)
  && (buf_fix_count r =? 0).

Lemma flush_ready_spec r : flush_ready r = true ↔
  use_rw_cmd r = false ∧ target_rw_cmd r = false ∧ oldest_modification r ≠ 0 ∧ io_fix r = BUF_IO_NONE ∧ buf_fix_count r = 0.
Proof. unfold flush_ready. rewrite !andb_true_iff, !negb_true_iff, Z.eqb_neq, Z.eqb_eq, bool_decide_eq_true. tauto. Qed.

Lemma ready_for_flush_ok p b r c a v (Φ : bool → PSt V → Prop) :
  blocks p !! b = Some r → bp_state r = BUF_BLOCK_FILE_PAGE →
  Φ (negb (use_rw_cmd r) && negb (target_rw_cmd r) && negb (oldest_modification r =? 0) && bool_decide (io_fix r = BUF_IO_NONE))
    (MkPSt p c a v) →
  wp (pool (buf_flush_ready_for_flush b)) Φ (MkPSt p c a v).
Proof.
  intros Hb Hs HΦ. unfold buf_flush_ready_for_flush. rewrite <- (at_block_id p b r Hb). ssteps. rewrite Hs.
  rewrite bool_decide_false by done. rewrite orb_false_r. destruct (use_rw_cmd r); cbn [orb].
  { ssteps. by rewrite at_block_id. }
  destruct (target_rw_cmd r); cbn [orb]; ssteps; rewrite at_block_id by done; [done|]. cbn [negb andb] in HΦ.
  by rewrite negb_orb, negb_involutive.
Qed.

Lemma flush_single_ok p c a v l : Inv (MkPSt p c a v) → l ⊆ pool_LRU p →
  wp (flush_single l) (λ ok st',
    ok = true ∧ Searched (MkPSt p c a v) st' ∧ pool_free (p_pool st') = pool_free p ∧ pool_LRU (p_pool st') = pool_LRU p ∧
      (∃ b r', b ∈ pool_LRU p ∧ blocks (p_pool st') !! b = Some r' ∧ replaceable r' = true) ∨
    ok = false ∧ st' = MkPSt p c a v ∧ ∀ b r, b ∈ l → blocks p !! b = Some r → flush_ready r = false) (MkPSt p c a v).
Proof.
  intros HI. pose proof HI as [[HL HT] HS]. cbn [p_pool p_io] in *. induction l as [|b l IH]; intros Hl; cbn [flush_single].
  { apply wp_ret. right. split_and!; [done|done|]. intros b r Hb. by apply not_elem_of_nil in Hb. }
  destruct (in_pool p b (proj1 HI)) as (r & Hb & Hs); [apply Hl; by left|]. pose proof (tb_blocks _ _ _ _ _ HT b r Hb) as HB.
  assert (Hnext : flush_ready r = false → wp (flush_single l) (λ ok st',
    ok = true ∧ Searched (MkPSt p c a v) st' ∧ pool_free (p_pool st') = pool_free p ∧ pool_LRU (p_pool st') = pool_LRU p ∧
      (∃ b r', b ∈ pool_LRU p ∧ blocks (p_pool st') !! b = Some r' ∧ replaceable r' = true) ∨
    ok = false ∧ st' = MkPSt p c a v ∧ ∀ x r, x ∈ b :: l → blocks p !! x = Some r → flush_ready r = false) (MkPSt p c a v)).
  { intros Hr. eapply wp_mono; [apply IH; set_solver|]. cbn beta. intros ok st' [?|(-> & -> & Hno)]; [by left|right].
    split_and!; [done|done|]. intros x rx [->|Hx]%elem_of_cons Hrx; [by simplify_eq|]. by eapply Hno. }
  apply wp_bind, wp_pool. eapply wp_load; [cbn; by rewrite Hb|]. unfold flush_ready in Hnext.
  destruct (target_rw_cmd r) eqn:Et; cbn [orb]; [apply Hnext; by rewrite andb_false_r|].
  destruct (use_rw_cmd r) eqn:Eu; cbn [negb andb] in Hnext; [by apply Hnext|].
  apply wp_bind, (ready_for_flush_ok p b r); [done|done|]. rewrite Eu, Et. cbn [negb andb].
  destruct (oldest_modification r =? 0) eqn:Eo; cbn [negb andb] in *; [by apply Hnext|]. apply Z.eqb_neq in Eo.
  case_bool_decide as Hio; cbn [andb] in *; [|by apply Hnext]. apply wp_bind.
  destruct (Z.eqb_spec (buf_fix_count r) 0) as [Hfix|Hfix].
  - rewrite <- (at_block_id p b r Hb) at 1.
    eapply wp_mono; [apply (flush_sync_ok p b r); [split_and!; [done|done|by apply HB]|done]|].
    cbn beta. intros ok st' (-> & p' & c' & v' & -> & HF & HW & Hd). apply wp_ret. left. split; [done|].
    destruct (flushed_inv p b r c a v p' c' v' HI Hb Hs Hio Hfix Eo HF HW Hd) as [HI' Hsame].
    destruct HF as [F1 F2 F3 F4 F5 F6 F7], HW as (E & _ & E' & Elsn). cbn [p_pool].
    assert (Em : unflagged <$> blocks (at_block p' b (flushed_block r (written r))) = unflagged <$> <[b := flushed_block r (written r)]> (blocks p)).
    { unfold at_block. cbn. by assert (blocks p' = blocks p) as -> by exact (f_equal (λ x, x.1.1.1.1) F1). } split_and!; [|done|exact (f_equal (λ x, x.1.1.1.2) F1)|].
    + split; [done|done|cbn; unfold at_block; cbn; by rewrite F3|done| |done| | |done|].
      * intros k. cbn [p_io]. rewrite E. intros Hk. destruct (decide (k = page_key r)) as [->|]; [rewrite lookup_insert_eq; by eexists|].
        by rewrite lookup_insert_ne.
      * apply (kept_update _ _ _ _ b (flushed_block r (written r)) Em).
        -- intros _. exists r. split_and!; [done|done| |by rewrite Hio].
           unfold pins, flushed_block. cbn. rewrite Hio, (bo_latch _ _ _ _ _ _ HB Hio Hfix). done.
        -- intros x rx Hne Hrx Hsx. cbn [p_io]. rewrite E, lookup_insert_ne; [done|]. intros Ek. apply Hne. by eapply page_key_inj.
      * cbn [p_pool]. change (flush_list (at_block p' b _)) with (flush_list p'). rewrite F4. by eapply lsns_remove.
      * change (batches p' = batches p). unfold batches. by rewrite !F7.
    + exists b, (flushed_block r (written r)). split_and!; [by apply HB|unfold at_block; cbn; apply lookup_insert_eq|].
      apply replaceable_spec. by split_and!.
  - apply (wp_mono _ (λ ok st', ok = false ∧ st' = MkPSt p c a v)).
    + unfold buf_flush_page. rewrite <- (at_block_id p b r Hb). ssteps. rewrite Hs. destruct (Z.eqb_spec (buf_fix_count r) 0); [done|].
      rewrite bool_decide_true, !bool_decide_false by done. run. done.
    + cbn beta. intros ok st' [-> ->]. by apply Hnext.
Qed.

(** ** The RW command *)

(** The victim [b] has been written and page (space, offset) has been read into
    its frame; it is still in the tables. *)
Definition Exchanged (space offset : Z) b p c a v (st' : PSt V) : Prop :=
  ∃ r page p' c' v', blocks p !! b = Some r ∧ bp_state r = BUF_BLOCK_FILE_PAGE ∧ flush_ready r = true ∧
    <[page_key r := written r]> (disk v) !! (space, offset) = Some page ∧
    st' = MkPSt (at_block p' b (flushed_block (fset target_rw_cmd true r) page)) c' a v' ∧ Flushed b BUF_FLUSH_SINGLE_PAGE p p' ∧
    Wrote (<[page_key r := written r]> (disk v)) v v' ∧ newest_modification r ≤ durable_lsn v'.

Lemma flush_victim_ok space offset p c a v l : Inv (MkPSt p c a v) → l ⊆ pool_LRU p → is_Some (disk v !! (space, offset)) →
  wp (flush_victim space offset l) (λ o st',
    match o with Some b => Exchanged space offset b p c a v st' | None => st' = MkPSt p c a v end) (MkPSt p c a v).
Proof.
  intros HI Hl Hd. pose proof HI as [[HL HT] HS]. cbn [p_pool p_io] in *. induction l as [|b l IH]; cbn [flush_victim]; [by apply wp_ret|].
  specialize (IH ltac:(set_solver)). destruct (in_pool p b (proj1 HI)) as (r & Hb & Hs); [apply Hl; by left|].
  pose proof (tb_blocks _ _ _ _ _ HT b r Hb) as HB.
  apply wp_bind, wp_pool. eapply wp_load; [cbn; by rewrite Hb|]. apply wp_bind, wp_io_look.
  destruct (bp_space r <? u32 (fil_log_fd v)); [done|]. apply wp_bind.
  destruct (Z.eqb_spec (buf_fix_count r) 0) as [Hfix|Hfix]; [|by apply wp_ret].
  apply (ready_for_flush_ok p b r); [done|done|].
  assert (Er : negb (use_rw_cmd r) && negb (target_rw_cmd r) && negb (oldest_modification r =? 0) && bool_decide (io_fix r = BUF_IO_NONE) = flush_ready r).
  { unfold flush_ready. by rewrite Hfix, andb_true_r. }
  rewrite Er. destruct (flush_ready r) eqn:Erd; [|done]. pose proof Erd as (Hu & Ht & Ho & Hio & _)%flush_ready_spec.
  assert (∃ page, <[page_key r := written r]> (disk v) !! (space, offset) = Some page) as [page Hpage].
  { destruct (decide ((space, offset) = page_key r)) as [->|]; [rewrite lookup_insert_eq; by eexists|]. rewrite lookup_insert_ne by done. done. }
  rewrite <- (at_block_id p b r Hb) at 1. ssteps.
  eapply wp_mono; [apply (flush_rw_ok p b (fset target_rw_cmd true r)); [split_and!; [done|done|by apply HB]|exact Hpage]|].
  cbn beta. intros ok st' (-> & p' & c' & v' & -> & HF & HW & Hlsn). apply wp_ret. exists r, page, p', c', v'. by split_and!.
Qed.

(** The block is out of the tables and belongs to the caller. *)
Definition Ready b r (st : PSt V) : Prop :=
  blocks (p_pool st) !! b = Some r ∧ bp_state r = BUF_BLOCK_READY_FOR_USE ∧ Idle r.

Lemma rw_evict_ok space offset b p c a v st' : Inv (MkPSt p c a v) → Exchanged space offset b p c a v st' →
  wp (pool (buf_LRU_block_remove_hashed_for_rw_cmd b))
    (λ _ st2, Searched (MkPSt p c a v) st2 ∧ available (p_pool st2) = available p - 1 ∧
       ∃ r, Ready b r st2 ∧ use_rw_cmd r = true ∧ disk (p_io st2) !! (space, offset) = Some (frame r)) st'.
Proof.
  intros HI (r & page & p' & c' & v' & Hb & Hs & (Hu & Ht & Ho & Hio & Hfix)%flush_ready_spec & Hpage & -> & HF & HW & Hlsn).
  pose proof HI as [[HL HT] HS]. cbn [p_pool p_io] in *. pose proof (tb_blocks _ _ _ _ _ HT b r Hb) as HB.
  pose proof (bo_lsn _ _ _ _ _ _ HB Ho) as Hn. pose proof (bo_frame _ _ _ _ _ _ HB) as Hfl.
  destruct HF as [F1 F2 F3 F4 F5 F6 F7]. assert (Eb : blocks p' = blocks p) by exact (f_equal (λ x, x.1.1.1.1) F1).
  assert (El : pool_LRU p' = pool_LRU p) by exact (f_equal (λ x, x.1.1.1.2) F1).
  unfold buf_LRU_block_remove_hashed_for_rw_cmd. ssteps. set (r1 := fset use_rw_cmd true _).
  assert (HL1 : LruOk (at_block p' b r1)).
  { apply (LruOk_part (at_block p b r1)); [unfold at_block, lru_part in *; cbn; congruence|]. by apply (LruOk_at p b r). }
  eapply wp_mono; [apply (remove_from_tables_ok (at_block p' b r1) b r1)|].
  { done. }
  { unfold at_block. cbn. rewrite El. by apply HB. }
  { unfold at_block. cbn. apply lookup_insert_eq. }
  1-4: done.
  { unfold at_block. cbn. rewrite F3. by apply HB. }
  cbn beta. intros [] p1 (r2 & HE & E2). destruct HE as [HL2 El2 Eh2 Ef2 Ed2 Esz2 Esc2 Eba2 Hr2 Eb2].
  assert (Hf2 : ∀ {T} (f : buf_block_t → T), (∀ y, f (unflagged y) = f y) → (∀ y n, f (fset modify_clock n y) = f y) → f r2 = f r1).
  { intros T f H3 H4. rewrite <- (H3 r2), E2, (H3 (fset _ _ r1)), H4. done. }
  rewrite <- (at_block_id p1 b r2 Hr2). bsteps. rewrite (Hf2 _ bp_state) by done. change (bp_state r1) with (bp_state r). rewrite Hs. run. set (r3 := fset bp_offset _ _).
  assert (Hin' : disk v' = <[page_key r := written r]> (disk v)) by apply HW.
  assert (Hdisk : ∀ k page, disk v' !! k = Some page →
    Z.of_nat (length page) = UNIV_PAGE_SIZE ∧ buf_page_is_corrupted srv_checksum_algorithm page = false ∧
    mach_read_from_8 page FIL_PAGE_LSN ≤ durable_lsn v') by (by apply (disk_written (blocks p) v v' r)).
  assert (Hpl : Z.of_nat (length page) = UNIV_PAGE_SIZE) by (rewrite <- Hin' in Hpage; apply (Hdisk _ _ Hpage)).
  assert (HId : Idle r3).
  { split; cbn; rewrite ?(Hf2 _ frame), ?(Hf2 _ io_fix), ?(Hf2 _ buf_fix_count), ?(Hf2 _ target_rw_cmd), ?(Hf2 _ bl_lock), ?(Hf2 _ oldest_modification) by done;
      try done. by right. }
  assert (Em : unflagged <$> blocks (at_block p1 b r3) = unflagged <$> <[b := r3]> (blocks p)).
  { unfold at_block in *. cbn in *. rewrite fmap_insert, Eb2, !fmap_insert, Eb, !insert_insert_eq. done. }
  assert (Efl' : flush_list (at_block p1 b r3) = UT_LIST_REMOVE (flush_list p) b) by (unfold at_block in *; cbn in *; by rewrite Ed2, F4).
  destruct (evict_inv p b r c a v (at_block p1 b r3) r3 c' a v') as [HI' Hsame]; try done.
  - eapply LruOk_at; [done|done|]. rewrite El2, elem_of_key_removed. by intros [? _].
  - unfold at_block in *. cbn in *. by rewrite El2, El.
  - unfold at_block in *. cbn in *. by rewrite Eh2, F3.
  - unfold at_block in *. cbn in *. rewrite Ef2, F2. done.
  - intros k Hk. rewrite Hin'. by rewrite lookup_insert_ne.
  - exists (written r). split; [rewrite Hin'; apply lookup_insert_eq|]. apply (written_facts r Hok); [done|done].
  - split; [split; [done|done| | | | | | | |]|].
    + unfold at_block in *. cbn in *. rewrite Eh2, F3. apply delete_subseteq.
    + unfold at_block in *. cbn in *. congruence.
    + intros k. cbn [p_io]. rewrite Hin'. intros Hk. destruct (decide (k = page_key r)) as [->|]; [rewrite lookup_insert_eq; by eexists|].
      by rewrite lookup_insert_ne.
    + apply HW.
    + apply (kept_update _ _ _ _ b r3 Em); [done|]. intros x rx Hne Hrx Hsx. cbn [p_io].
      rewrite Hin', lookup_insert_ne; [done|]. intros Ek. apply Hne. by eapply page_key_inj.
    + cbn [p_pool]. rewrite Efl'. by eapply lsns_remove.
    + apply HW.
    + transitivity (batches p'); [exact Eba2|]. unfold batches. by rewrite !F7.
    + split; [|exists r3].
      { unfold available, at_block in *. cbn [p_pool pool_free pool_LRU fset set_blocks] in *. rewrite Ef2, El2, F2, El, remove_length; [|apply HL|by apply HB].
        unfold len. lia. }
       split_and!; [split_and!; [unfold at_block; cbn; apply lookup_insert_eq|done|done]|cbn; by rewrite (Hf2 _ use_rw_cmd)|].
      cbn [p_io]. rewrite Hin', Hpage. cbn. by rewrite (Hf2 _ frame).
Qed.

(** ** The search for a block *)

(** The caller gets block [b]; if the RW command was used, its frame holds the
    page it was used for. *)
Definition Got (space offset : Z) (st : PSt V) b (st' : PSt V) : Prop :=
  Searched st st' ∧ available (p_pool st') = available (p_pool st) - 1 ∧ ∃ r, Ready b r st' ∧
    (use_rw_cmd r = true → mach_read_from_4 (frame r) FIL_PAGE_OFFSET = WIPED ∨ disk (p_io st') !! (space, offset) = Some (frame r)).

Lemma take_free_block_ok space offset p c a v b free : Inv (MkPSt p c a v) → pool_free p = b :: free →
  wp (pool buf_LRU_get_free_only) (λ o st', o = Some b ∧ Got space offset (MkPSt p c a v) b st') (MkPSt p c a v).
Proof.
  intros HI Ef. pose proof HI as [[HL HT] HS]. cbn [p_pool p_io] in *.
  destruct (tb_dom _ _ _ _ _ HT b) as [r Hb]; [right; left; rewrite Ef; by left|]. pose proof (tb_blocks _ _ _ _ _ HT b r Hb) as HB.
  assert (Hs : bp_state r = BUF_BLOCK_NOT_USED) by (apply (bo_free _ _ _ _ _ _ HB); rewrite Ef; by left).
  assert (Hns : bp_state r ≠ BUF_BLOCK_FILE_PAGE) by (by rewrite Hs).
  assert (Hnl : b ∉ pool_LRU p) by (by rewrite (bo_lru _ _ _ _ _ _ HB)).
  assert (Hnd : b ∉ flush_list p) by (rewrite (bo_flush _ _ _ _ _ _ HB); by intros [? _]).
  assert (Hnh : ∀ k, page_hash p !! k ≠ Some (Hashed b)).
  { intros k Hk. destruct (tb_hash _ _ _ _ _ HT k b Hk) as (r0 & Hr0 & Hs0 & _). congruence. }
  pose proof (tb_free _ _ _ _ _ HT) as Hfr. rewrite Ef in Hfr. apply NoDup_cons in Hfr as [Hbf Hfr].
  assert (Erem : UT_LIST_REMOVE (b :: free) b = free).
  { unfold list_remove_key. rewrite filter_cons_False by (intros Hne; by apply Hne). by apply remove_absent. }
  unfold buf_LRU_get_free_only. rewrite <- (at_block_id p b r Hb) at 1. ssteps. rewrite Ef. ssteps. rewrite Hs. run. rewrite Erem.
  set (r' := fset bp_state _ r). set (p' := at_block _ b r'). split; [done|].
  destruct (bo_idle _ _ _ _ _ _ HB Hns) as (Hio & Hfix & Ht & Hclean).
  assert (HId : Idle r').
  { split; cbn; try done; [by right|by apply HB|by apply HB]. }
  split; [split|].
  - split; [split|].
    + apply (LruOk_part (at_block p b r')); [done|]. by apply (LruOk_at p b r).
    + unfold p', at_block. cbn. eapply Tables_update; [done|done|done| |..].
      * replace free with (free_with b r' free) by done. by apply Idle_ok.
      * intros x Hx. rewrite Ef. set_solver.
      * done.
      * apply HT.
      * done.
      * intros k Hk. by destruct (Hnh k).
      * done.
    + cbn [p_io p_pool]. eapply (StoreOk_update _ _ _ _ b r'); [exact HS|by unfold p', at_block|apply HS|done|done].
  - intros k. unfold content_of. cbn [p_io p_pool].
    assert (content (blocks p') (page_hash p') v k = content (blocks p) (page_hash p) v k) as ->; [by apply (content_other _ _ _ _ _ _ b r')|reflexivity].
  - done.
  - done.
  - done.
  - done.
  - by apply (kept_update _ _ _ _ b r').
  - cbn [p_pool]. change (flush_list p') with (flush_list p). rewrite <- (remove_absent b (flush_list p) Hnd) at 1. by eapply lsns_remove.
  - done.
  - done.
  - split; [|exists r'].
    { unfold available, p', at_block. cbn. rewrite Ef. cbn [length]. lia. }
    split; [split_and!; [unfold p', at_block; cbn; apply lookup_insert_eq|done|done]|]. intros Hu. left. by apply HB.
Qed.

Lemma check_size_ok p c a v (Φ : unit → PSt V → Prop) : curr_size p / 20 ≤ available p →
  (∀ c', Φ tt (MkPSt p c' a v)) → wp buf_LRU_check_size_of_non_data_objects Φ (MkPSt p c a v).
Proof.
  intros Ha HΦ. unfold buf_LRU_check_size_of_non_data_objects. apply wp_bind. eapply wp_load; [done|]. cbn zeta. cbn [p_pool].
  fold (available p). destruct (Z.ltb_spec (available p) (curr_size p / 20)); [lia|]. ssteps.
  destruct (available p <? curr_size p / 3).
  - destruct (buf_lru_switched_on_innodb_mon c); cbn [negb when]; ssteps; apply HΦ.
  - destruct (buf_lru_switched_on_innodb_mon c); cbn [negb when]; ssteps; apply HΦ.
Qed.

Lemma single_page_ok p c a v : Inv (MkPSt p c a v) →
  wp buf_flush_single_page_from_LRU (λ ok st',
    ok = true ∧ Searched (MkPSt p c a v) st' ∧ pool_free (p_pool st') ≠ [] ∧ available (p_pool st') = available p ∨
    ok = false ∧ st' = MkPSt p c a v ∧ ∀ b r, b ∈ pool_LRU p → blocks p !! b = Some r → flush_ready r = false) (MkPSt p c a v).
Proof.
  intros HI. unfold buf_flush_single_page_from_LRU. apply wp_bind, wp_pool. eapply wp_load; [done|]. apply wp_bind.
  eapply wp_mono; [apply flush_single_ok; [done|intros x; by rewrite elem_of_reverse]|].
  cbn beta. intros ok st' [(-> & HS & Ef & El & b & r & Hin & Hb & Hr)|(-> & -> & Hno)]; cbn [negb].
  2:{ apply wp_ret. right. split_and!; [done|done|]. intros b r Hb. apply Hno. by rewrite elem_of_reverse. }
  destruct st' as [p1 c1 a1 v1]. cbn [p_pool] in *. apply wp_bind, wp_pool. eapply wp_load; [done|].
  eapply wp_mono; [apply free_first_ok; [apply HS|intros x; by rewrite elem_of_reverse]|].
  cbn beta. intros ok st' [(-> & b' & HF & Efr & Eav & _)|(-> & -> & Hno)].
  - left. split_and!; [done|by eapply Searched_trans|by rewrite Efr|]. rewrite Eav. cbn [p_pool]. unfold available. by rewrite Ef, El.
  - exfalso. rewrite (Hno b r) in Hr; [done|by rewrite elem_of_reverse, El|done].
Qed.

(** A free block, or a page that can be replaced or written. *)
Definition has_replaceable p : Prop := ∃ b r, b ∈ pool_LRU p ∧ blocks p !! b = Some r ∧ replaceable r = true.
Definition Usable p : Prop :=
  pool_free p ≠ [] ∨ has_replaceable p ∨ ∃ b r, b ∈ pool_LRU p ∧ blocks p !! b = Some r ∧ flush_ready r = true.

Definition searching (x : search) p : Prop :=
  pool_free p ≠ [] ∨ n_iterations x = 0 ∧ Usable p ∨ n_iterations x = 1 ∧ has_replaceable p.
Definition rounds (x : search) p : nat :=
  if bool_decide (pool_free p = []) then if n_iterations x =? 0 then 2%nat else 1%nat else 0%nat.

Lemma scan_ok p c a v x : Inv (MkPSt p c a v) → searching x p → pool_free p = [] →
  wp (if try_LRU_scan p || (0 <? n_iterations x)
      then f <- buf_LRU_scan_and_free_block (0 <? n_iterations x) ;;
           when (negb f && (n_iterations x =? 0)) (pool (glob try_LRU_scan ::= false)) ;; ret f
      else ret false)
    (λ ok st', ok = true ∧ (∃ b, Freed b (MkPSt p c a v) st') ∨
       ok = false ∧ n_iterations x = 0 ∧ ∃ p', st' = MkPSt p' c a v ∧ tables_of p' = tables_of p) (MkPSt p c a v).
Proof.
  intros HI Hx Hf.
  assert (Hx' : n_iterations x = 0 ∨ n_iterations x = 1 ∧ has_replaceable p) by (destruct Hx as [?|[[? ?]|?]]; [done|by left|by right]).
  destruct (try_LRU_scan p || (0 <? n_iterations x)) eqn:Et.
  2:{ apply wp_ret. right. apply orb_false_iff in Et as [_ Et%Z.ltb_ge]. split_and!; [done|lia|by exists p]. }
  apply wp_bind. unfold buf_LRU_scan_and_free_block, buf_LRU_free_from_common_LRU_list. apply wp_bind, wp_pool. eapply wp_load; [done|].
  eapply wp_mono; [apply free_from_tail_ok; [done|intros y; by rewrite elem_of_reverse]|].
  cbn beta. intros ok st' [[-> HF]|(-> & -> & Hno)]; cbn [negb andb].
  - apply wp_bind, wp_ret, wp_ret. by left.
  - apply wp_bind. destruct Hx' as [E|[E (b & r & Hb & Hr & Hrep)]].
    + rewrite E. cbn [when]. ssteps. right. split_and!; [done|done|]. by eexists.
    + exfalso. rewrite E in Hno. rewrite (Hno eq_refl b r) in Hrep; [done|by rewrite elem_of_reverse|done].
Qed.

Lemma searching_tables x p p' : tables_of p' = tables_of p → searching x p → searching x p'.
Proof.
  intros E. unfold searching, Usable, has_replaceable. assert (pool_free p' = pool_free p) as -> by exact (f_equal (λ y, y.1.1.1.2) E).
  assert (pool_LRU p' = pool_LRU p) as -> by exact (f_equal (λ y, y.1.1.1.1.1.1.1.2) E).
  assert (blocks p' = blocks p) as -> by exact (f_equal (λ y, y.1.1.1.1.1.1.1.1) E). done.
Qed.

Lemma get_free_step_ok space offset st0 p c a v x : Searched st0 (MkPSt p c a v) → searching x p →
  curr_size p / 20 ≤ available p → available p = available (p_pool st0) → is_Some (disk v !! (space, offset)) →
  wp (get_free_step space offset x) (λ o st', match o with
    | inl x' => Searched st0 st' ∧ searching x' (p_pool st') ∧ curr_size (p_pool st') / 20 ≤ available (p_pool st') ∧
        available (p_pool st') = available (p_pool st0) ∧ is_Some (disk (p_io st') !! (space, offset)) ∧ (rounds x' (p_pool st') < rounds x p)%nat
    | inr b => Got space offset st0 b st' end) (MkPSt p c a v).
Proof.
  intros HS Hx Ha Ha0 Hd. unfold get_free_step. apply wp_bind, check_size_ok; [done|]. intros c1. apply wp_bind.
  assert (HS1 : Searched st0 (MkPSt p c1 a v)) by (by eapply Searched_tables; [|exact HS]). pose proof (se_inv _ _ HS1) as HI.
  destruct (pool_free p) as [|b free] eqn:Ef.
  2:{ eapply wp_mono; [by apply (take_free_block_ok space offset p c1 a v b free)|]. cbn beta. intros o [p2 c2 a2 v2] (-> & HG & Hav & r & HR & Hu).
      apply wp_bind. assert (∀ c3, Got space offset st0 b (MkPSt p2 c3 a2 v2)) as HG'.
      { intros c3. split; [eapply Searched_trans; [exact HS1|]; by eapply Searched_tables; [|exact HG]|]. split; [|by exists r]. rewrite <- Ha0. exact Hav. }
      destruct (started_monitor x); cbn [when]; ssteps; apply HG'. }
  unfold buf_LRU_get_free_only. ssteps. eapply wp_load; [done|]. rewrite Ef. ssteps. eapply wp_load; [done|]. ssteps. cbn [p_pool].
  change (fset p_pool ?y (MkPSt _ ?z ?w ?u)) with (MkPSt y z w u).
  eapply wp_mono; [by apply scan_ok|]. cbn beta. intros ok st1 [(-> & b & HF & Efr & Eav & _)|(-> & Hn & p1 & -> & Et)]; cbn iota.
  { destruct st1 as [p1 c2 a1 v1]. ssteps. cbn [p_pool p_io] in *. pose proof (Searched_trans _ _ _ HS1 HF) as HS2. split_and!.
    - by eapply Searched_tables; [|exact HS2].
    - left. by rewrite Efr.
    - pose proof (se_size _ _ HF) as Esz. cbn [p_pool] in Esz. by rewrite Eav, Esz.
    - by rewrite <- Ha0.
    - by apply (se_disk _ _ HF).
    - unfold rounds. rewrite Ef, Efr. cbn. case_match; lia. }
  apply wp_bind. rewrite Hn. cbn [Z.ltb Z.compare]. apply wp_ret. apply wp_bind.
  pose proof (searching_tables x p p1 Et Hx) as Hx1. assert (Ef1 : pool_free p1 = []) by (rewrite <- Ef; exact (f_equal (λ y, y.1.1.1.2) Et)).
  assert (Ea1 : available p1 = available p).
  { unfold available. by rewrite Ef1, Ef, (f_equal (λ y, y.1.1.1.1.1.1.1.2) Et : pool_LRU p1 = _). }
  assert (Ha1 : curr_size p1 / 20 ≤ available p1) by (by rewrite Ea1, (f_equal (λ x, x.2.1) Et : curr_size p1 = _)).
  assert (HS2 : Searched st0 (MkPSt p1 c1 a v)) by (by eapply Searched_tables; [|exact HS1]). pose proof (se_inv _ _ HS2) as HI2.
  unfold buf_flush_single_page_with_rw_cmd. apply wp_bind, wp_pool. eapply wp_load; [done|].
  eapply wp_mono; [apply flush_victim_ok; [done|intros y; by rewrite elem_of_reverse|done]|].
  cbn beta. intros [b|] st1 Hst1; cbn iota.
  { apply wp_bind. eapply wp_mono; [by apply (rw_evict_ok space offset b p1 c1 a v)|]. cbn beta. intros _ [p2 c2 a2 v2] (HS3 & Hav & r & HR & Hu & Hd2).
    ssteps. split; [eapply Searched_trans; [exact HS2|]; by eapply Searched_tables; [|exact HS3]|].
    split; [rewrite <- Ha0, <- Ea1; exact Hav|]. exists r. split; [done|]. intros _. by right. }
  subst st1. apply wp_bind. eapply wp_mono; [by apply single_page_ok|].
  cbn beta. intros ok [p2 c2 a2 v2] [(-> & HS3 & Efr & Eav)|(-> & E3 & Hno)]; cbn [when p_pool] in *.
  - ssteps. cbn [p_pool p_io]. pose proof (se_size _ _ HS3) as Esz. cbn [p_pool] in Esz.
    split_and!.
    + eapply Searched_trans; [exact HS2|]. by eapply Searched_tables; [|exact HS3].
    + by left.
    + change (curr_size p2 / 20 ≤ available p2). by rewrite Eav, Esz.
    + change (available p2 = available (p_pool st0)). congruence.
    + by apply (se_disk _ _ HS3).
    + unfold rounds. change (pool_free (p_pool _)) with (pool_free p2). rewrite Ef, (bool_decide_false (pool_free p2 = [])) by done. rewrite Hn. cbn. lia.
  - injection E3 as -> -> -> ->. ssteps. cbn [p_pool p_io]. split_and!; [done| | |congruence|done|].
    + right. right. rewrite Hn. split; [done|]. destruct Hx1 as [?|[[_ [?|[?|(b & r & Hb & Hr & Hfr)]]]|[? ?]]]; [done|done|done| |lia].
      exfalso. by rewrite (Hno b r Hb Hr) in Hfr.
    + done.
    + unfold rounds. rewrite Ef, Ef1, Hn. cbn [n_iterations].
      change (1 < 2)%nat. lia.
Qed.

(** The search of [buf_LRU_get_free_block] ends within three rounds: the first
    may only write a page, the second may only find that none is to be written,
    and the third takes a block. *)
Lemma get_free_block_ok fuel space offset st : Inv st → Usable (p_pool st) → curr_size (p_pool st) / 20 ≤ available (p_pool st) →
  is_Some (disk (p_io st) !! (space, offset)) → (3 ≤ fuel)%nat →
  wp (buf_LRU_get_free_block fuel space offset) (Got space offset st) st.
Proof.
  intros HI Hu Ha Hd Hfuel. unfold buf_LRU_get_free_block.
  apply (wp_loop (λ x st', Searched st st' ∧ searching x (p_pool st') ∧ curr_size (p_pool st') / 20 ≤ available (p_pool st') ∧
    available (p_pool st') = available (p_pool st) ∧ is_Some (disk (p_io st') !! (space, offset))) (λ x st', rounds x (p_pool st'))).
  - unfold rounds. cbn. case_bool_decide; lia.
  - split_and!; [by apply Searched_refl|by right; left|done|done|done].
  - intros x [p c a v] (HS & Hx & Ha' & Hav & Hd'). cbn [p_pool p_io] in *. eapply wp_mono; [by apply get_free_step_ok|].
    cbn beta. intros [x'|b] st'; [|done]. intros (? & ? & ? & ? & ? & ?). by split_and!.
Qed.
End evict.
