(* ===== verification/BufRead.v ===== *)
(** Reading a page into the buffer pool and access to pages (buf_read_page,
    buf_page_get_gen): the pool is a store of pages, whatever it evicts and
    whether the RW command reads the page or an ordinary request does. *)
From S2P Require Import Prelude Frame HostLld Crc32 Fil PageFormat FilInv BufLru BufPool BufInv BufStore BufEvict.

Section read.
Context `{HostConfig} {Hok : HostConfigOk} `{PoolConfig} {V : Type} `{PageIoOk V}.
Implicit Types (p : buf_pool_t) (b : Z) (r : buf_block_t) (c : RwStat) (a : gset Z) (v : V).

Definition resident (hash : gmap (Z * Z) hash_node) (k : Z * Z) : Prop := ∃ b, hash !! k = Some (Hashed b).
(** The fix count a page starts with: that of the watch on it. *)
Definition watchers (hash : gmap (Z * Z) hash_node) (k : Z * Z) : Z := match hash !! k with Some (Sentinel n) => n | _ => 0 end.

Lemma is_resident_spec hash k : is_Some (is_resident (hash !! k)) ↔ resident hash k.
Proof. unfold resident. destruct (hash !! k) as [[b|n]|]; cbn; split; naive_solver. Qed.

(** ** A block for a page *)

Record Fresh (k : Z * Z) (n : Z) r r' : Prop := {
  fr_state : bp_state r' = BUF_BLOCK_FILE_PAGE;
  fr_key : page_key r' = k;
  fr_io : io_fix r' = BUF_IO_NONE;
  fr_fix : buf_fix_count r' = n;
  fr_target : target_rw_cmd r' = false;
  fr_clean : oldest_modification r' = 0;
  fr_frame : frame r' = frame r;
  fr_lock : bl_lock r' = bl_lock r;
}.

Lemma hash_get_low_ok p space offset (Φ : option hash_node → buf_pool_t → Prop) :
  Tables (blocks p) (pool_LRU p) (pool_free p) (flush_list p) (page_hash p) →
  Φ (page_hash p !! (space, offset)) p → wp (buf_page_hash_get_low space offset) Φ p.
Proof.
  intros HT HΦ. unfold buf_page_hash_get_low. apply wp_bind. eapply wp_load; [done|].
  destruct (page_hash p !! (space, offset)) as [[b|n]|] eqn:E; [|by apply wp_ret|by apply wp_ret].
  destruct (tb_hash _ _ _ _ _ HT _ _ E) as (r & Hb & Hs & _). rewrite <- (at_block_id p b r Hb). bsteps. by rewrite at_block_id.
Qed.

Lemma insert_hash_ok p b r space offset : 0 ≤ space < 2 ^ 32 → 0 ≤ offset < 2 ^ 32 →
  (∀ n, page_hash p !! (space, offset) = Some (Sentinel n) → 0 < n < 2 ^ 32) → ¬ resident (page_hash p) (space, offset) →
  buf_fix_count r = 0 →
  wp (insert_into_page_hash b space offset)
    (λ _ p', p' = at_block (fset page_hash (<[(space, offset) := Hashed b]> (page_hash p)) p) b
       (fset buf_fix_count (watchers (page_hash p) (space, offset)) r)) (at_block p b r).
Proof.
  intros Hsp Hof Hw Hn Hfix. unfold insert_into_page_hash, buf_page_hash_get_low, watchers. bsteps.
  destruct (page_hash p !! (space, offset)) as [[x|n]|] eqn:E.
  - destruct Hn. by exists x.
  - bsteps. pose proof (Hw n eq_refl). assert ((0 <? n) = true) as -> by (apply Z.ltb_lt; lia). bsteps.
    cbn [page_hash fset set_page_hash]. rewrite insert_delete_eq. by rewrite Hfix.
  - bsteps. f_equal. destruct r. cbn in *. by rewrite Hfix.
Qed.

Lemma init_ok p b r space offset (rw : bool) : 0 ≤ space < 2 ^ 32 → 0 ≤ offset < 2 ^ 32 →
  (∀ n, page_hash p !! (space, offset) = Some (Sentinel n) → 0 < n < 2 ^ 32) → ¬ resident (page_hash p) (space, offset) →
  bp_state r ≠ BUF_BLOCK_FILE_PAGE →
  wp (if rw then buf_page_init_with_rw_cmd space offset b else buf_page_init space offset b)
    (λ _ p', ∃ r', p' = at_block (fset page_hash (<[(space, offset) := Hashed b]> (page_hash p)) p) b r' ∧
       Fresh (space, offset) (watchers (page_hash p) (space, offset)) r r' ∧ use_rw_cmd r' = rw && use_rw_cmd r) (at_block p b r).
Proof.
  intros Hsp Hof Hw Hn Hs.
  assert (0 ≤ watchers (page_hash p) (space, offset) < 2 ^ 32) as Hwn.
  { unfold watchers. destruct (page_hash p !! (space, offset)) as [[x|n]|]; [lia| |lia]. specialize (Hw n eq_refl). lia. }
  assert (∀ r1, Fresh (space, offset) 0 r r1 → use_rw_cmd r1 = rw && use_rw_cmd r → wp (insert_into_page_hash b space offset)
    (λ _ p', ∃ r', p' = at_block (fset page_hash (<[(space, offset) := Hashed b]> (page_hash p)) p) b r' ∧
       Fresh (space, offset) (watchers (page_hash p) (space, offset)) r r' ∧ use_rw_cmd r' = rw && use_rw_cmd r) (at_block p b r1)) as Hend.
  { intros r1 HF Hu. eapply wp_mono; [apply insert_hash_ok; try done; apply HF|]. cbn beta. intros [] p' ->.
    eexists. split; [done|]. split; [|done]. destruct HF. split; try done. cbn. by apply wrap_small. }
  destruct rw; unfold buf_page_init_with_rw_cmd, buf_page_init, buf_block_set_file_page, buf_block_init_low,
    buf_block_init_low_with_rw_cmd, buf_page_init_low.
  - bsteps. apply Hend; [|done]. split; try done. unfold page_key. cbn. rewrite !wrap_small by done. done.
  - bsteps. rewrite bool_decide_false by done. scrut. bsteps. apply Hend; [|done].
    split; try done. unfold page_key. cbn. rewrite !wrap_small by done. done.
Qed.

Lemma added_perm p b old : LruOk p → added_at p b old ≡ₚ b :: pool_LRU p.
Proof.
  intros [HC HM]. unfold added_at. destruct (negb old || (len p <? BUF_LRU_OLD_MIN_LEN)) eqn:Eb; [done|].
  apply orb_false_iff in Eb as [_ Eb%Z.ltb_ge]. destruct HM as [[? _]|(_ & y & o & [El Eh Hne _ _ _] & _)]; [lia|].
  destruct o as [|m o]; [done|]. rewrite Eh, El. cbn [head default].
  rewrite insert_after; [by rewrite (Permutation_swap b m o), Permutation_middle|].
  pose proof (cn_nodup _ HC) as Hn. rewrite El in Hn. apply NoDup_app in Hn as (_ & Hn & _). intros Hm. apply (Hn m Hm). by left.
Qed.

(** Block [b] has become [r'], which holds page [k] and is in the LRU list. *)
Record Placed (k : Z * Z) b r' p p' : Prop := {
  pl_lru : LruOk p';
  pl_list : pool_LRU p' ≡ₚ b :: pool_LRU p;
  pl_hash : page_hash p' = <[k := Hashed b]> (page_hash p);
  pl_free : pool_free p' = pool_free p;
  pl_flush : flush_list p' = flush_list p;
  pl_rest : rest_of p' = rest_of p;
  pl_block : blocks p' !! b = Some r';
  pl_blocks : unflagged <$> blocks p' = unflagged <$> <[b := r']> (blocks p);
}.

Lemma Placed_at k b r' r2 p p' p2 : Placed k b r' p p' → bp_state r2 = bp_state r' → bp_old r2 = bp_old r' →
  tables_of p2 = tables_of (at_block p' b r2) → Placed k b r2 p p2.
Proof.
  intros [H1' H2' H3' H4' H5' H6' H7' H8'] Es Eo E.
  assert (lru_part p2 = lru_part (at_block p' b r2)) as E1 by exact (f_equal (λ x, x.1.1.1.1) E).
  assert (Eb : blocks p2 = <[b := r2]> (blocks p')) by exact (f_equal (λ x, x.1.1.1.1) E1).
  assert (El : pool_LRU p2 = pool_LRU p') by exact (f_equal (λ x, x.1.1.1.2) E1).
  split.
  - apply (LruOk_part _ _ E1). by apply (LruOk_at p' b r').
  - by rewrite El.
  - rewrite <- H3'. exact (f_equal (λ x, x.1.2) E).
  - rewrite <- H4'. exact (f_equal (λ x, x.1.1.1.2) E).
  - rewrite <- H5'. exact (f_equal (λ x, x.1.1.2) E).
  - rewrite <- H6'. exact (f_equal snd E).
  - rewrite Eb. apply lookup_insert_eq.
  - rewrite Eb, fmap_insert, H8', !fmap_insert, insert_insert_eq. done.
Qed.

(** The block while the page is being read. *)
Record Reading (k : Z * Z) (n : Z) r r' : Prop := {
  rd_state : bp_state r' = BUF_BLOCK_FILE_PAGE;
  rd_key : page_key r' = k;
  rd_io : io_fix r' = BUF_IO_READ;
  rd_fix : buf_fix_count r' = n;
  rd_target : target_rw_cmd r' = false;
  rd_clean : oldest_modification r' = 0;
  rd_lock : bl_lock r' = Exclusive;
  rd_frame : frame r' = frame r;
}.

Definition Posted (space offset : Z) (st : PSt V) b (st' : PSt V) : Prop :=
  ∃ p r p' r' c a v, Searched st (MkPSt p c a v) ∧ available p = available (p_pool st) - 1 ∧ Ready b r (MkPSt p c a v) ∧
    st' = MkPSt p' c a v ∧ Placed (space, offset) b r' p p' ∧ Reading (space, offset) (watchers (page_hash p) (space, offset)) r r' ∧
    (use_rw_cmd r' = true → disk v !! (space, offset) = Some (frame r')).

(** A block that belongs to the caller is in no list and holds no page. *)
Lemma Ready_out p b r c a v : Inv (MkPSt p c a v) → Ready b r (MkPSt p c a v) →
  (b ∉ pool_LRU p) ∧ (b ∉ pool_free p) ∧ (b ∉ flush_list p) ∧ ∀ k, page_hash p !! k ≠ Some (Hashed b).
Proof.
  intros [[HL HT] HS] (Hb & Hs & HId). cbn [p_pool] in *. pose proof (tb_blocks _ _ _ _ _ HT b r Hb) as [B1 B2 B3 _ _ _ _ _ _ _].
  rewrite B1, B2, B3, Hs. split_and!; [done|done|by intros [? _]|]. intros k Hk.
  destruct (tb_hash _ _ _ _ _ HT k b Hk) as (r0 & Hr0 & Hs0 & _). congruence.
Qed.

(** What a read needs: a page that is not resident, and a block for it. *)
Record CanRead (space offset : Z) (st : PSt V) : Prop := {
  cr_inv : Inv st;
  cr_usable : Usable (p_pool st);
  cr_room : curr_size (p_pool st) / 20 ≤ available (p_pool st);
  cr_space : 0 ≤ space < 2 ^ 32;
  cr_offset : 0 ≤ offset < WIPED;
  cr_disk : is_Some (disk (p_io st) !! (space, offset));
  cr_exists : fil_tablespace_deleted_or_being_deleted_in_mem space (p_io st) = false;
  cr_absent : ¬ resident (page_hash (p_pool st)) (space, offset);
}.

(** The LRU list takes the block in. *)
Lemma add_placed k p b r r2 (old : bool) : LruOk p → blocks p !! b = Some r → b ∉ pool_LRU p → Z.of_nat (size (blocks p)) < 2 ^ 32 →
  bp_state r2 = BUF_BLOCK_FILE_PAGE →
  wp (buf_LRU_add_block b old) (λ _ p', ∃ r', Placed k b r' p p' ∧ unflagged r' = unflagged r2)
    (at_block (fset page_hash (<[k := Hashed b]> (page_hash p)) p) b r2).
Proof.
  intros HL Hb Hn Hsz Hs. set (p2 := at_block _ b r2).
  assert (HL2 : LruOk p2) by (apply (LruOk_part (at_block p b r2)); [done|]; by apply (LruOk_at p b r)).
  assert (HO : Outside b p2).
  { apply (Outside_size p2 b r2); [done|unfold p2, at_block; cbn; apply lookup_insert_eq|done|done|].
    unfold p2, at_block. cbn. rewrite map_size_insert_Some by (by eexists). done. }
  eapply wp_mono; [by apply add_block_ok|]. cbn beta. intros [] p3 (HL3 & El & R).
  assert (Eb : unflagged <$> blocks p3 = unflagged <$> <[b := r2]> (blocks p)) by exact (f_equal blocks R).
  pose proof (f_equal (.!! b) Eb) as Eb'. rewrite !lookup_fmap, lookup_insert_eq in Eb'. cbn in Eb'.
  destruct (blocks p3 !! b) as [r3|] eqn:Hr3; [|done]. apply (inj Some) in Eb'. exists r3. split; [|done]. split; try done.
  - rewrite El. by rewrite (added_perm p2 b old).
  - exact (f_equal page_hash R).
  - exact (f_equal pool_free R).
  - exact (f_equal flush_list R).
  - exact (f_equal rest_of R).
  - by rewrite Eb, !fmap_insert, Eb'.
Qed.

Lemma init_for_read_ok fuel space offset st : CanRead space offset st → (3 ≤ fuel)%nat →
  wp (buf_page_init_for_read fuel space offset true) (λ o st', ∃ b, o = (DB_SUCCESS, Some b) ∧ Posted space offset st b st') st.
Proof.
  intros [HI Hu Hroom Hsp Hof Hd Hdel Hres] Hfuel. unfold buf_page_init_for_read. apply wp_bind.
  eapply wp_mono; [by apply get_free_block_ok|]. cbn beta. intros b [p c a v] (HS & Hav & r & HR & Hrw). cbn zeta.
  pose proof (se_inv _ _ HS) as HI1. destruct (Ready_out p b r c a v HI1 HR) as (Hnl & Hnf & Hnd & Hnh).
  pose proof HI1 as [[HL HT] HSt]. cbn [p_pool p_io] in *. pose proof HR as (Hb & Hs & HId). cbn [p_pool] in Hb.
  assert (Hres1 : ¬ resident (page_hash p) (space, offset)).
  { intros [x Hx]. apply Hres. exists x. by eapply lookup_weaken; [|apply (se_hash _ _ HS)]. }
  apply wp_bind, wp_pool, hash_get_low_ok; [done|]. rewrite bool_decide_false by (by rewrite is_resident_spec).
  apply wp_bind, wp_io_look. pose proof (se_deleted _ _ HS space) as E. cbn [p_io] in E. rewrite E, Hdel.
  rewrite <- (at_block_id p b r Hb) at 1. apply wp_bind, wp_pool, wp_blk. apply wp_bind, wp_pool.
  eapply wp_mono; [apply init_ok; [done|unfold WIPED in *; lia|intros n Hn; by eapply tb_watch|done|by rewrite Hs]|].
  cbn beta. intros [] p1 (r1 & -> & HF & Hu1). ssteps. set (r2 := fset io_fix BUF_IO_READ r1).
  eapply wp_mono; [apply (add_placed _ p b r); [done|done|done|apply HT|apply HF]|].
  cbn beta. intros [] p3 (r3 & HP & E3). pose proof (pl_block _ _ _ _ _ HP) as Hr3.
  assert (Hf : ∀ {T} (f : buf_block_t → T), (∀ y, f (unflagged y) = f y) → f r3 = f r2).
  { intros T f Hf. by rewrite <- (Hf r3), <- (Hf r2), E3. }
  rewrite <- (at_block_id p3 b r3 Hr3). unfold rw_lock_x_lock. ssteps.
  assert (bl_lock r3 = Shared 0) as -> by (rewrite (Hf _ bl_lock) by done; cbn; rewrite (fr_lock _ _ _ _ HF); apply HId). ssteps.
  exists b. split; [done|]. do 7 eexists. split_and!; [exact HS|done|exact HR|reflexivity| | |].
  - eapply Placed_at; [exact HP| | |]; [..|reflexivity]; done.
  - destruct HF as [G1 G2 G3 G4 G5 G6 G7 G8]. split; cbn; [by rewrite (Hf _ bp_state)| |by rewrite (Hf _ io_fix)
      |by rewrite (Hf _ buf_fix_count)|by rewrite (Hf _ target_rw_cmd)|by rewrite (Hf _ oldest_modification)|done|by rewrite (Hf _ frame)].
    change (page_key r3 = (space, offset)). by rewrite (Hf _ page_key).
  - cbn [use_rw_cmd frame fset set_bl_lock]. rewrite (Hf _ use_rw_cmd), (Hf _ frame) by done. cbn. rewrite Hu1, (fr_frame _ _ _ _ HF).
    intros [[[Hu' _]%andb_prop Ho%Z.eqb_eq]%andb_prop _]%andb_prop. destruct (Hrw Hu') as [Hw|Hw]; [|done].
    rewrite Hw in Ho. lia.
Qed.

(** The block when the page has been read. *)
Record Loaded (k : Z * Z) (n : Z) (page : page_t) r' : Prop := {
  ld_state : bp_state r' = BUF_BLOCK_FILE_PAGE;
  ld_key : page_key r' = k;
  ld_io : io_fix r' = BUF_IO_NONE;
  ld_fix : buf_fix_count r' = n;
  ld_target : target_rw_cmd r' = false;
  ld_use : use_rw_cmd r' = false;
  ld_clean : oldest_modification r' = 0;
  ld_lock : bl_lock r' = Shared 0;
  ld_frame : frame r' = page;
}.

Lemma loaded_inv k n page b r r' p c a v p' c' a' v' : Inv (MkPSt p c a v) → Ready b r (MkPSt p c a v) → Placed k b r' p p' →
  ¬ resident (page_hash p) k → Loaded k n page r' → disk v !! k = Some page → Wrote (disk v) v v' →
  Inv (MkPSt p' c' a' v') ∧ same_content (MkPSt p c a v) (MkPSt p' c' a' v').
Proof.
  intros HI HR HP Hres HLd Hdk HW. destruct (Ready_out p b r c a v HI HR) as (Hnl & Hnf & Hnd & Hnh).
  destruct HI as [[HL HT] HS], HR as (Hb & Hs & HId). cbn [p_pool p_io] in *. destruct HLd as [G1 G2 G3 G4 G5 G6 G7 G8 G9].
  destruct (so_disk _ _ HS k page Hdk) as (Hlen & Hcor & Hlsn). destruct HW as (Ed & Hdur & _).
  split; [split; [split|]|].
  - apply HP.
  - cbn [p_pool]. rewrite (pl_free _ _ _ _ _ HP), (pl_flush _ _ _ _ _ HP), (pl_hash _ _ _ _ _ HP).
    eapply Tables_update; [done|done|apply HP| |..].
    + split; rewrite ?G1, ?G2, ?G3, ?G7, ?G9, ?(pl_list _ _ _ _ _ HP); try done.
      * split; [done|by left].
      * split; [|by intros [_ ?]]. by intros ?.
      * by rewrite lookup_insert_eq.
    + intros x Hx. rewrite (pl_list _ _ _ _ _ HP). set_solver.
    + apply HT.
    + apply HT.
    + intros k' x Hx. destruct (decide (k' = k)) as [->|]; [|by rewrite lookup_insert_ne]. rewrite lookup_insert_eq. split; [congruence|].
      intros Hx'. destruct Hres. by exists x.
    + intros k' Hk'. destruct (decide (k' = k)) as [->|]; [done|]. rewrite lookup_insert_ne in Hk' by done. by destruct (Hnh k').
    + intros k' n' Hk'. destruct (decide (k' = k)) as [->|]; [by rewrite lookup_insert_eq in Hk'|]. by rewrite lookup_insert_ne in Hk'.
  - cbn [p_io p_pool]. eapply StoreOk_update; [exact HS|apply HP| | |].
    + intros k' page' Hk'. rewrite Ed in Hk'. destruct (so_disk _ _ HS k' page' Hk') as (? & ? & ?). split_and!; [done|done|lia].
    + intros _ _ _. by rewrite Ed, G2, G9.
    + intros x rx _ _ _. by rewrite Ed.
  - intros k'. unfold content_of. cbn [p_pool p_io]. destruct (decide (k' = k)) as [->|Hne].
    + unfold content. rewrite (pl_hash _ _ _ _ _ HP), lookup_insert_eq, (pl_block _ _ _ _ _ HP), G3, G9. cbn.
      destruct (page_hash p !! k) as [[x|n']|] eqn:E; [destruct Hres; by exists x| |]; rewrite Hdk; by constructor.
    + erewrite (content_other (blocks p) _ (page_hash p) _ v v' b r'); [reflexivity|apply HP| |by apply Hnh|by rewrite Ed].
      by rewrite (pl_hash _ _ _ _ _ HP), lookup_insert_ne.
Qed.

(** ** Reading a page *)

Record ReadIn (k : Z * Z) (st st' : PSt V) b r : Prop := {
  ri_inv : Inv st';
  ri_content : same_content st st';
  ri_size : curr_size (p_pool st') = curr_size (p_pool st);
  ri_available : available (p_pool st') = available (p_pool st);
  ri_disk : ∀ k', is_Some (disk (p_io st) !! k') → is_Some (disk (p_io st') !! k');
  ri_deleted : ∀ s, fil_tablespace_deleted_or_being_deleted_in_mem s (p_io st') =
                    fil_tablespace_deleted_or_being_deleted_in_mem s (p_io st);
  ri_hash : page_hash (p_pool st') ⊆ <[k := Hashed b]> (page_hash (p_pool st));
  ri_resident : page_hash (p_pool st') !! k = Some (Hashed b);
  ri_block : blocks (p_pool st') !! b = Some r;
  ri_loaded : ∃ n page, Loaded k n page r ∧ disk (p_io st') !! k = Some page ∧ (page_hash (p_pool st) !! k = None → n = 0);
  ri_kept : ∀ x rx, x ≠ b → blocks (p_pool st') !! x = Some rx → bp_state rx = BUF_BLOCK_FILE_PAGE →
    ∃ r0, blocks (p_pool st) !! x = Some r0 ∧ bp_state r0 = BUF_BLOCK_FILE_PAGE ∧ pins rx = pins r0;
  ri_lsns : lsns (blocks (p_pool st')) (flush_list (p_pool st')) `sublist_of` lsns (blocks (p_pool st)) (flush_list (p_pool st));
  ri_log : log_lsn (p_io st) ≤ log_lsn (p_io st');
  ri_batch : batches (p_pool st') = batches (p_pool st);
}.

(** The completion of a read of an intact page. *)
Lemma complete_read_ok p b r c a v (Φ : bool → PSt V → Prop) :
  bp_state r = BUF_BLOCK_FILE_PAGE → io_fix r = BUF_IO_READ → bl_lock r = Exclusive →
  buf_page_is_corrupted srv_checksum_algorithm (frame r) = false →
  (∀ p' c', tables_of p' = tables_of p → Φ true (MkPSt (at_block p' b (fset bl_lock (Shared 0) (fset io_fix BUF_IO_NONE r))) c' a v)) →
  wp (buf_page_io_complete b) Φ (MkPSt (at_block p b r) c a v).
Proof.
  intros Hs Hio Hl Hc HΦ. unfold buf_page_io_complete, check_read, rw_lock_x_unlock. ssteps. rewrite Hio, bool_decide_true by done. ssteps.
  rewrite Hs, bool_decide_true by done. ssteps. rewrite Hc. run. rewrite Hl. ssteps. by apply HΦ.
Qed.

Lemma tables_at p p' b r : tables_of p' = tables_of p → tables_of (at_block p' b r) = tables_of (at_block p b r).
Proof.
  intros E. assert (lru_part p' = lru_part p) as E1 by exact (f_equal (λ x, x.1.1.1.1) E). unfold tables_of, rest_of, batches, batch_state, lru_part, at_block in *. cbn in *. congruence.
Qed.

Lemma read_in space offset b r p c a v st p' r' page c' v' : CanRead space offset st → Searched st (MkPSt p c a v) →
  available p = available (p_pool st) - 1 → Ready b r (MkPSt p c a v) →
  Placed (space, offset) b r' p p' → Loaded (space, offset) (watchers (page_hash p) (space, offset)) page r' →
  disk v !! (space, offset) = Some page → Wrote (disk v) v v' →
  ReadIn (space, offset) st (MkPSt p' c' a v') b r'.
Proof.
  intros HC HS Hav HR HP HLd Hdk HW. pose proof (se_inv _ _ HS) as HI1. pose proof (se_hash _ _ HS) as Hsub. cbn [p_pool] in Hsub.
  assert (Hres : ¬ resident (page_hash p) (space, offset)).
  { intros [x Hx]. apply (cr_absent _ _ _ HC). exists x. by eapply lookup_weaken. }
  destruct (loaded_inv _ _ _ b r r' p c a v p' c' a v' HI1 HR HP Hres HLd Hdk HW) as [HI' Hsame]. destruct HW as (Ed & _ & Edel & Elog).
  split; cbn [p_pool p_io].
  - done.
  - etrans; [apply (se_content _ _ HS)|done].
  - rewrite <- (se_size _ _ HS). exact (f_equal fst (pl_rest _ _ _ _ _ HP)).
  - unfold available in *. rewrite (pl_free _ _ _ _ _ HP), (Permutation_length (pl_list _ _ _ _ _ HP)). cbn [length]. lia.
  - intros k'. rewrite Ed. apply (se_disk _ _ HS).
  - intros s. rewrite Edel. apply (se_deleted _ _ HS).
  - rewrite (pl_hash _ _ _ _ _ HP). by apply insert_mono.
  - rewrite (pl_hash _ _ _ _ _ HP). apply lookup_insert_eq.
  - apply HP.
  - do 2 eexists. split_and!; [done|by rewrite Ed|]. intros Hn. unfold watchers. destruct (page_hash p !! (space, offset)) eqn:E; [|done].
    by rewrite (lookup_weaken _ _ _ _ E Hsub) in Hn.
  - intros x rx Hx Hrx Hsx. destruct (lookup_flags _ _ _ _ (pl_blocks _ _ _ _ _ HP) Hrx) as (r0 & Hr0 & E). rewrite lookup_insert_ne in Hr0 by done.
    assert (pins rx = pins r0) as -> by exact (f_equal pins E). destruct (se_kept _ _ HS x r0) as (r1 & ? & ? & ? & _); [done| |by exists r1].
    rewrite <- Hsx. exact (eq_sym (f_equal bp_state E)).
  - destruct (Ready_out p b r c a v HI1 HR) as (_ & _ & Hnd & _). etrans; [|apply (se_lsns _ _ HS)]. cbn [p_pool].
    rewrite (pl_flush _ _ _ _ _ HP), (lsns_update _ _ _ b r' (pl_blocks _ _ _ _ _ HP)) by done. done.
  - etrans; [apply (se_log _ _ HS)|exact Elog].
  - rewrite <- (se_batch _ _ HS). exact (f_equal snd (pl_rest _ _ _ _ _ HP)).
Qed.

Lemma read_page_ok fuel space offset st : CanRead space offset st → (3 ≤ fuel)%nat →
  wp (buf_read_page fuel space offset) (λ ok st', ok = true ∧ ∃ b r, ReadIn (space, offset) st st' b r) st.
Proof.
  intros HC Hfuel. unfold buf_read_page, buf_read_page_low. apply wp_bind. cbn [orb]. apply wp_bind.
  eapply wp_mono; [by apply init_for_read_ok|].
  cbn beta. intros o st' (b & -> & p & r & p' & r' & c & a & v & HS & Hav & HR & -> & HP & HRd & Hrw). cbn iota.
  pose proof HRd as [G1 G2 G3 G4 G5 G6 G7 G8]. pose proof (pl_block _ _ _ _ _ HP) as Hb'.
  destruct (se_disk _ _ HS (space, offset) (cr_disk _ _ _ HC)) as [page Hpage]. cbn [p_io] in Hpage.
  pose proof (se_inv _ _ HS) as [_ HSt]. cbn [p_io p_pool] in HSt. destruct (so_disk _ _ HSt _ _ Hpage) as (_ & Hcor & _).
  assert (∀ v' c1 r1 p1, r1 = fset frame page r' → Wrote (disk v) v v' → tables_of p1 = tables_of (at_block p' b r1) →
    wp (pool ((blk b)∙use_rw_cmd ::= false) ;; ok <- buf_page_io_complete b ;; ret (DB_SUCCESS, if ok : bool then 1 else 0))
      (λ x s', wp (let '(_, count) := x in buf_LRU_stat_inc_io ;; ret (0 <? count))
        (λ ok st', ok = true ∧ ∃ b r, ReadIn (space, offset) st st' b r) s') (MkPSt p1 c1 a v')) as Hend.
  { intros v' c1 r1 p1 -> HW E.
    assert (Hb1 : blocks p1 !! b = Some (fset frame page r')).
    { assert (blocks p1 = <[b := fset frame page r']> (blocks p')) as -> by exact (f_equal (λ x, x.1.1.1.1.1.1.1.1) E). apply lookup_insert_eq. }
    rewrite <- (at_block_id p1 b _ Hb1). ssteps. eapply complete_read_ok; [done|done|done|done|]. intros p2 c2 E2. ssteps.
    split; [done|]. do 2 eexists. eapply read_in; [done|exact HS|done|done| | |done|done].
    - eapply Placed_at; [exact HP| | |]; [..|rewrite (tables_at _ _ _ _ E2), (tables_at _ _ _ _ E); unfold at_block; cbn; unfold tables_of, lru_part; cbn;
        rewrite insert_insert_eq; reflexivity]; done.
    - by split. }
  rewrite <- (at_block_id p' b r' Hb'). ssteps. destruct (use_rw_cmd r') eqn:Eu; cbn [negb].
  - ssteps. apply (Hend v c r'); [|by split_and!|done]. rewrite Hrw in Hpage by done. apply (inj Some) in Hpage as <-. by destruct r'.
  - rewrite G1, bool_decide_true by done. ssteps. destruct (read_law space offset v page Hpage) as (v' & E' & HW).
    eapply wp_io; [exact E'|]. ssteps. eapply Hend; [done|done|]. done.
Qed.

(** ** A resident page changes *)

Lemma update_inv p b r c a v p' r' c' a' : Inv (MkPSt p c a v) → blocks p !! b = Some r → bp_state r = BUF_BLOCK_FILE_PAGE →
  LruOk p' → pool_LRU p' ≡ₚ pool_LRU p → pool_free p' = pool_free p → page_hash p' = page_hash p →
  unflagged <$> blocks p' = unflagged <$> <[b := r']> (blocks p) →
  NoDup (flush_list p') → (∀ x, x ∈ flush_list p' ↔ x ∈ flush_list p ∨ x = b ∧ oldest_modification r' ≠ 0) →
  bp_state r' = BUF_BLOCK_FILE_PAGE → page_key r' = page_key r → io_fix r' = BUF_IO_NONE →
  Z.of_nat (length (frame r')) = UNIV_PAGE_SIZE → (buf_fix_count r' = 0 → bl_lock r' = Shared 0) →
  (oldest_modification r' ≠ 0 → 0 < newest_modification r' < 2 ^ 64) →
  (oldest_modification r' = 0 → oldest_modification r = 0 ∧ disk v !! page_key r = Some (frame r')) →
  let st' := MkPSt p' c' a' v in
  Inv st' ∧ ∀ k, content_of st' k = if decide (k = page_key r) then Some (frame r') else content_of (MkPSt p c a v) k.
Proof.
  intros [[HL HT] HS] Hb Hs HL' El Ef Eh Em Hnd Hfl Hs' Ek Hio' Hlen Hlock Hlsn Hclean. cbn zeta. cbn [p_pool p_io] in *.
  pose proof (tb_blocks _ _ _ _ _ HT b r Hb) as [B1 B2 B3 B4 B5 B6 B7 B8 B9 B10].
  assert (Hhash : ∀ k, page_hash p !! k = Some (Hashed b) → k = page_key r).
  { intros k Hk. destruct (tb_hash _ _ _ _ _ HT k b Hk) as (r0 & Hr0 & _ & ->). rewrite Hb in Hr0. by apply (inj Some) in Hr0 as ->. }
  split; [split; [split; [done|]|]|].
  - cbn [p_pool]. rewrite Ef, Eh. eapply Tables_update; [done|done|done| |..].
    + split; rewrite ?Hs', ?Ek, ?Hio', ?El, ?Hfl, ?B1, ?B2, ?Hs; auto; try done.
      * rewrite B3. destruct (decide (oldest_modification r' = 0)) as [E|E]; [destruct (Hclean E) as [E' _]|]; naive_solver.
    + intros x Hx. rewrite El, Hfl. naive_solver.
    + apply HT.
    + done.
    + done.
    + intros k Hk. split; [done|]. rewrite Ek. by apply Hhash.
    + done.
  - cbn [p_io p_pool]. eapply StoreOk_update; [exact HS|exact Em|apply HS| |done]. intros _ Ho _. rewrite Ek. by apply Hclean.
  - intros k. unfold content_of. cbn [p_pool p_io]. case_decide as Hk.
    + subst k. unfold content. rewrite Eh, B4 by done. pose proof (f_equal (.!! b) Em) as Eb. rewrite !lookup_fmap, lookup_insert_eq in Eb.
      destruct (blocks p' !! b) as [r1|]; [|done]. apply (inj Some) in Eb.
      assert (io_fix r1 = BUF_IO_NONE) as -> by (rewrite <- Hio'; exact (f_equal io_fix Eb)). cbn. f_equal. exact (f_equal frame Eb).
    + apply (content_other _ _ _ _ _ _ b r'); [done|by rewrite Eh| |done]. intros Hk'. apply Hk, Hhash, Hk'.
Qed.

(** ** Access to a page *)

(** The pool but for the order of the LRU list. *)
Record Moved p p' : Prop := {
  mv_lru : LruOk p';
  mv_list : pool_LRU p' ≡ₚ pool_LRU p;
  mv_hash : page_hash p' = page_hash p;
  mv_free : pool_free p' = pool_free p;
  mv_flush : flush_list p' = flush_list p;
  mv_rest : rest_of p' = rest_of p;
  mv_blocks : unflagged <$> blocks p' = unflagged <$> blocks p;
}.

Lemma Moved_refl p : LruOk p → Moved p p.
Proof. by split. Qed.

Lemma remove_perm b l : NoDup l → b ∈ l → b :: UT_LIST_REMOVE l b ≡ₚ l.
Proof.
  intros Hn (l1 & l2 & ->)%list_elem_of_split. rewrite remove_middle by done. by rewrite Permutation_middle.
Qed.

Lemma young_moved p p0 b : LruOk p → b ∈ pool_LRU p → tables_of p = tables_of p0 →
  wp (buf_LRU_make_block_young b) (λ _ p', Moved p0 p') p.
Proof.
  intros HL Hin E. eapply wp_mono; [by apply make_young_ok|]. cbn beta. intros [] p' (HL' & El & R).
  assert (pool_LRU p = pool_LRU p0) as E1 by exact (f_equal (λ x, x.1.1.1.1.1.1.1.2) E). split.
  - done.
  - rewrite El, E1. apply remove_perm; [rewrite <- E1; apply HL|by rewrite <- E1].
  - rewrite (f_equal page_hash R : page_hash p' = page_hash p). exact (f_equal (λ x, x.1.2) E).
  - rewrite (f_equal pool_free R : pool_free p' = pool_free p). exact (f_equal (λ x, x.1.1.1.2) E).
  - rewrite (f_equal flush_list R : flush_list p' = flush_list p). exact (f_equal (λ x, x.1.1.2) E).
  - rewrite (f_equal rest_of R : rest_of p' = rest_of p). exact (f_equal snd E).
  - assert (blocks p = blocks p0) as <- by exact (f_equal (λ x, x.1.1.1.1.1.1.1.1) E). exact (f_equal blocks R).
Qed.

Lemma make_young_if_needed_ok p b r now : LruOk p → blocks p !! b = Some r → bp_state r = BUF_BLOCK_FILE_PAGE → b ∈ pool_LRU p →
  wp (buf_page_make_young_if_needed now b) (λ _ p', Moved p p') p.
Proof.
  intros HL Hb Hs Hin. rewrite <- (at_block_id p b r Hb) at 1. unfold buf_page_make_young_if_needed. bsteps.
  apply (wp_mono _ (λ _ p', tables_of p' = tables_of p)).
  - unfold buf_page_peek_if_too_old, buf_page_peek_if_young. bsteps. case_match; bsteps; [by rewrite at_block_id|].
    case_match; [|bsteps; by rewrite at_block_id].
    case_match; bsteps; [by rewrite at_block_id|].
    by rewrite (at_block_id (fset n_pages_not_made_young _ p)).
  - intros old p' E.
    assert (HL' : LruOk p') by (apply (LruOk_part p); [exact (f_equal (λ x, x.1.1.1.1) E)|done]).
    assert (Hb' : blocks p' !! b = Some r) by (rewrite <- Hb; f_equal; exact (f_equal (λ x, x.1.1.1.1.1.1.1.1) E)).
    assert (Hin' : b ∈ pool_LRU p') by (rewrite (f_equal (λ x, x.1.1.1.1.1.1.1.2) E : pool_LRU p' = pool_LRU p); done).
    destruct old; cbn [when].
    + unfold buf_page_make_young. rewrite <- (at_block_id p' b r Hb'). bsteps. rewrite (at_block_id p' b r Hb'). by apply young_moved.
    + apply wp_ret. split; [done|..]; [by rewrite (f_equal (λ x, x.1.1.1.1.1.1.1.2) E : pool_LRU p' = pool_LRU p)|exact (f_equal (λ x, x.1.2) E)
        |exact (f_equal (λ x, x.1.1.1.2) E)|exact (f_equal (λ x, x.1.1.2) E)|exact (f_equal snd E)|].
      by rewrite (f_equal (λ x, x.1.1.1.1.1.1.1.1) E : blocks p' = blocks p).
Qed.
End read.
