(* ===== verification/Mtr.v ===== *)
(** Mini-transactions (mtr0mtr.cc, mtr0mtr.ic) and what they log (mtr0log.cc): the
    memo of the pages a mini-transaction has fixed and latched, and the commit
    that puts the modified pages into the flush list before it releases them.
    The memo holds pages only, not the latches of index trees; the log mode is
    MTR_LOG_ALL, and the log records themselves are only counted. *)
From S2P Require Import Prelude Frame HostLld Crc32 Fil PageFormat FilInv BufLru BufPool.

(** A slot of the memo; [None] is NULL.  The types of slots for pages are the
    types of latches. *)
Record mtr_memo_slot_t := MkSlot { slot_object : option Z; slot_type : rw_latch_t }.

Record mtr_t := MkMtr {
  memo : list mtr_memo_slot_t;
  modifications : bool;
  made_dirty : bool;
  n_log_recs : Z;
  start_lsn : Z;
  end_lsn : Z;
}.

#[global] Instance rw_latch_t_eq_dec : EqDecision rw_latch_t.
Proof. solve_decision. Defined.

Section mtr.
Context `{HostConfig} `{PoolConfig} {V : Type} `{PageIo V}.
Implicit Types (mtr : mtr_t) (slot : mtr_memo_slot_t) (b : Z).

Abbreviation sM := (M (PSt V)).

(** The lsns are not read before the commit sets them. *)
Definition mtr_start : mtr_t := MkMtr [] false false 0 0 0.

Definition mtr_block_dirtied (b : Z) : sM bool := o <- pool (!((blk b)∙oldest_modification)) ;; ret (o =? 0).

Definition mtr_memo_push mtr b (type : rw_latch_t) : sM mtr_t :=
  dirty <- (if bool_decide (type = RW_X_LATCH) && negb (made_dirty mtr) then mtr_block_dirtied b else ret (made_dirty mtr)) ;;
  ret (MkMtr (memo mtr ++ [MkSlot (Some b) type]) (modifications mtr) dirty (n_log_recs mtr) (start_lsn mtr) (end_lsn mtr)).

Definition mtr_memo_slot_release slot : sM unit :=
  match slot_object slot with Some b => pool (buf_page_release b (slot_type slot)) | None => skip end.

Definition mtr_memo_pop_all mtr : sM unit := for_each mtr_memo_slot_release (reverse (memo mtr)).

Definition mtr_memo_slot_note_modification mtr slot : sM unit :=
  match slot_object slot, slot_type slot with
  | Some b, RW_X_LATCH => pool (buf_flush_note_modification b (start_lsn mtr) (end_lsn mtr) (made_dirty mtr))
  | _, _ => skip
  end.

Definition mtr_memo_note_modifications mtr : sM unit :=
  for_each (mtr_memo_slot_note_modification mtr) (reverse (memo mtr)).

Definition mtr_add_dirtied_pages_to_flush_list mtr : sM unit :=
  when (modifications mtr) (mtr_memo_note_modifications mtr).

Definition mtr_log_reserve_and_write mtr : sM mtr_t :=
  '(start, last) <- io log_reserve_and_write ;;
  let mtr := MkMtr (memo mtr) (modifications mtr) (made_dirty mtr) (n_log_recs mtr) start last in
  mtr_add_dirtied_pages_to_flush_list mtr ;;
  ret mtr.

Definition mtr_commit mtr : sM mtr_t :=
  mtr <- (if modifications mtr && negb (n_log_recs mtr =? 0) then mtr_log_reserve_and_write mtr else ret mtr) ;;
  mtr_memo_pop_all mtr ;;
  ret mtr.

(** The search of mtr_memo_release, from the last slot: the slots that remain
    after it and whether it found the object. *)
Fixpoint release_last (b : Z) (type : rw_latch_t) (slots : list mtr_memo_slot_t) : option (list mtr_memo_slot_t) :=
  match slots with
  | [] => None
  | slot :: slots' =>
      if bool_decide (slot_object slot = Some b) && bool_decide (slot_type slot = type) then Some (MkSlot None type :: slots')
      else cons slot <$> release_last b type slots'
  end.
Definition mtr_memo_release mtr b (type : rw_latch_t) : sM (bool * mtr_t) :=
  match release_last b type (reverse (memo mtr)) with
  | Some slots =>
      pool (buf_page_release b type) ;;
      ret (true, MkMtr (reverse slots) (modifications mtr) (made_dirty mtr) (n_log_recs mtr) (start_lsn mtr) (end_lsn mtr))
  | None => ret (false, mtr)
  end.

(** mlog_open and mlog_write_initial_log_record_fast: the mini-transaction has
    modified a page, and there is one more record. *)
Definition mlog_record mtr : mtr_t :=
  MkMtr (memo mtr) true (made_dirty mtr) (u64 (n_log_recs mtr + 1)) (start_lsn mtr) (end_lsn mtr).

Definition mlog_write_string mtr b (off : Z) (str : list Z) : sM mtr_t :=
  ASSERT (Z.of_nat (length str) <? UNIV_PAGE_SIZE) ;;
  pool (modify ((blk b)∙frame) (λ f, put_bytes f off str)) ;;
  ret (mlog_record mtr).

(** [type] is the number of bytes, MLOG_1BYTE, MLOG_2BYTES or MLOG_4BYTES. *)
Definition mlog_write_ulint mtr b (off val type : Z) : sM mtr_t :=
  (if type =? 1 then pool (modify ((blk b)∙frame) (λ f, put_bytes f off [u8 val]))
   else if type =? 2 then pool (modify ((blk b)∙frame) (λ f, mach_write_to_2 f off val))
   else if type =? 4 then pool (modify ((blk b)∙frame) (λ f, mach_write_to_4 f off val))
   else fail Assert) ;;
  ret (mlog_record mtr).

(** buf_page_get: buf_page_get_gen in mode BUF_GET, with the page in the memo. *)
Definition buf_page_get (tries fuel : nat) mtr (space offset : Z) (latch : rw_latch_t) : sM (Z * mtr_t) :=
  block <- buf_page_get_gen tries fuel space offset latch BUF_GET ;;
  match block with
  | Some b => mtr <- mtr_memo_push mtr b latch ;; ret (b, mtr)
  | None => fail Undef
  end.
End mtr.
