(* ===== verification/BufAccess.v ===== *)
(** Access to pages through the buffer pool (buf_page_get_gen, the latches,
    buf_flush_note_modification, buf_page_release) by one client at a time: the
    pool behaves as a store of pages. *)
From stdpp Require Import sorting.
From S2P Require Import Prelude Frame HostLld Crc32 Fil PageFormat FilInv BufLru BufPool BufInv BufStore BufEvict BufRead.

Section access.
Context `{HostConfig} {Hok : HostConfigOk} `{PoolConfig} {V : Type} `{PageIoOk V}.
Implicit Types (p : buf_pool_t) (b : Z) (r : buf_block_t) (c : RwStat) (a : gset Z) (v : V) (st : PSt V).

(** Nobody uses a page, except perhaps the one in block [o]. *)
Definition quiet_block r : Prop :=
  io_fix r = BUF_IO_NONE ∧ buf_fix_count r = 0 ∧ use_rw_cmd r = false ∧ target_rw_cmd r = false.
Definition others_quiet (o : option Z) (m : gmap Z buf_block_t) : Prop :=
  ∀ x rx, Some x ≠ o → m !! x = Some rx → bp_state rx = BUF_BLOCK_FILE_PAGE → quiet_block rx.

(** The page is on the disk and its tablespace exists. *)
Definition Exists (k : Z * Z) st : Prop :=
  0 ≤ k.1 < 2 ^ 32 ∧ 0 ≤ k.2 < WIPED ∧ is_Some (disk (p_io st) !! k) ∧
  fil_tablespace_deleted_or_being_deleted_in_mem k.1 (p_io st) = false.

(** The flush list is in the order of the oldest modifications, the latest first. *)
Definition Ordered st : Prop :=
  let l := lsns (blocks (p_pool st)) (flush_list (p_pool st)) in
  StronglySorted Z.ge l ∧ Forall (λ lsn, 0 < lsn ≤ log_lsn (p_io st)) l.

Lemma StronglySorted_sublist {A} (R : A → A → Prop) l l' : l' `sublist_of` l → StronglySorted R l → StronglySorted R l'.
Proof.
  induction 1 as [|x l1 l2 H1' IH|x l1 l2 H1' IH]; intros Hs; [done| |]; apply StronglySorted_inv in Hs as [Hs Hf]; [|by apply IH].
  constructor; [by apply IH|]. rewrite Forall_forall in *. intros y Hy. apply Hf. by eapply elem_of_sublist.
Qed.

Lemma Ordered_sublist st st' :
  lsns (blocks (p_pool st')) (flush_list (p_pool st')) `sublist_of` lsns (blocks (p_pool st)) (flush_list (p_pool st)) →
  log_lsn (p_io st) ≤ log_lsn (p_io st') → Ordered st → Ordered st'.
Proof.
  intros Hl Hlog [Hs Hf]. split; [by eapply StronglySorted_sublist|]. rewrite Forall_forall in *. intros x Hx.
  assert (0 < x ≤ log_lsn (p_io st)) by (apply Hf; by eapply elem_of_sublist). lia.
Qed.

(** No flush batch is running.  The event may be set or not: it is not set before the
    end of the first batch. *)
Definition ended (x : Z * bool * bool) : Prop := x.1 = (0, false).
Definition idle (p : buf_pool_t) : Prop := ended (batches p).1 ∧ ended (batches p).2.

Record Steady (o : option Z) st : Prop := {
  sd_inv : Inv st;
  sd_quiet : others_quiet o (blocks (p_pool st));
  sd_watch : ∀ k n, page_hash (p_pool st) !! k ≠ Some (Sentinel n);
  sd_room : curr_size (p_pool st) / 20 ≤ available (p_pool st) ∧ available (p_pool st) ≤ curr_size (p_pool st) < 2 ^ 32;
  sd_some : 0 < available (p_pool st);
  sd_disk : ∀ k b, page_hash (p_pool st) !! k = Some (Hashed b) → Exists k st;
  sd_order : Ordered st;
  sd_idle : idle (p_pool st);
}.

(** What no access changes: the set of pages. *)
Definition Env st st' : Prop := ∀ k, Exists k st → Exists k st'.

#[global] Instance Env_preorder : PreOrder Env.
Proof. split; [by intros st k|]. intros x y z Hxy Hyz k Hk. by apply Hyz, Hxy. Qed.

Lemma quiet_pins r r' : pins r' = pins r → quiet_block r → quiet_block r'.
Proof.
  intros E (? & ? & ? & ?). assert (io_fix r' = io_fix r) as E1 by exact (f_equal (λ x, x.1.1.1.1.2) E).
  assert (buf_fix_count r' = buf_fix_count r) as E2 by exact (f_equal (λ x, x.1.1.1.2) E).
  assert (use_rw_cmd r' = use_rw_cmd r) as E3 by exact (f_equal (λ x, x.1.2) E).
  assert (target_rw_cmd r' = target_rw_cmd r) as E4 by exact (f_equal snd E). unfold quiet_block. by rewrite E1, E2, E3, E4.
Qed.

(** A page nobody uses can be replaced, or written first. *)
Lemma steady_usable st : Steady None st → Usable (p_pool st).
Proof.
  intros [HI Hq _ _ Hs _ _ _]. unfold available in Hs. destruct (pool_free (p_pool st)) as [|x l] eqn:Ef; [|left; by rewrite Ef].
  destruct (pool_LRU (p_pool st)) as [|b l] eqn:El; [cbn in Hs; lia|]. right.
  destruct (in_pool (p_pool st) b (proj1 HI)) as (r & Hb & Hst); [rewrite El; by left|].
  destruct (Hq b r ltac:(done) Hb Hst) as (Hio & Hfix & Hu & Ht).
  destruct (decide (oldest_modification r = 0)) as [Ho|Ho]; [left|right]; exists b, r; rewrite El;
    (split_and!; [by left|done|]); [by apply replaceable_spec|by apply flush_ready_spec].
Qed.

Lemma steady_absent k st : Steady None st → ¬ resident (page_hash (p_pool st)) k → page_hash (p_pool st) !! k = None.
Proof.
  intros HS Hn. destruct (page_hash (p_pool st) !! k) as [[b|n]|] eqn:E; [destruct Hn; by exists b|by destruct (sd_watch _ _ HS k n)|done].
Qed.

Lemma steady_read k st st' b r : Steady None st → Exists k st → ¬ resident (page_hash (p_pool st)) k → ReadIn k st st' b r →
  Steady None st' ∧ Env st st'.
Proof.
  intros HS Hx Hn [R1 R2 R3 R4 R5 R6 R7 R8 R9 (n & page & [L1 L2 L3 L4 L5 L6 L7 L8 L9] & Hpage & Hz) R11 R12 R13 R14].
  specialize (Hz (steady_absent k st HS Hn)). destruct HS as [_ Hq Hw Hr Ha Hd Ho Hid].
  assert (HE : Env st st').
  { intros k' (? & ? & ? & ?). split; [done|]. split; [done|]. split; [by apply R5|by rewrite R6]. }
  split; [split|done].
  - done.
  - intros x rx Hx0 Hrx Hsx. destruct (decide (x = b)) as [->|Hne].
    + rewrite R9 in Hrx. apply (inj Some) in Hrx as <-. unfold quiet_block. by rewrite L4.
    + destruct (R11 x rx Hne Hrx Hsx) as (r0 & Hr0 & Hs0 & E). eapply quiet_pins; [done|]. by eapply Hq.
  - intros k' n' Hk'. pose proof (lookup_weaken _ _ _ _ Hk' R7) as Hk2. destruct (decide (k' = k)) as [->|]; [congruence|].
    rewrite lookup_insert_ne in Hk2 by done. by destruct (Hw k' n').
  - by rewrite R3, R4.
  - by rewrite R4.
  - intros k' x Hk'. pose proof (lookup_weaken _ _ _ _ Hk' R7) as Hk2. destruct (decide (k' = k)) as [->|]; [by apply HE|].
    rewrite lookup_insert_ne in Hk2 by done. by eapply HE, Hd.
  - by eapply Ordered_sublist.
  - unfold idle. by rewrite R14.
Qed.

(** ** Getting a page *)

Definition Found (k : Z * Z) st b p r c a v : Prop :=
  let st1 := MkPSt p c a v in
  Steady None st1 ∧ same_content st st1 ∧ Env st st1 ∧ blocks p !! b = Some r ∧ bp_state r = BUF_BLOCK_FILE_PAGE ∧ page_key r = k.

Lemma get_gen_step_ok fuel space offset st0 st retries : Steady None st → same_content st0 st → Env st0 st →
  Exists (space, offset) st → (3 ≤ fuel)%nat →
  wp (get_gen_step fuel space offset BUF_GET retries) (λ o st', match o with
    | inl _ => Steady None st' ∧ same_content st0 st' ∧ Env st0 st' ∧ ¬ resident (page_hash (p_pool st)) (space, offset) ∧
        resident (page_hash (p_pool st')) (space, offset)
    | inr x => ∃ b p r c a v, x = Some b ∧ Found (space, offset) st0 b p r c a v ∧ st' = MkPSt (at_block p b (fset buf_fix_count 1 r)) c a v
    end) st.
Proof.
  intros HS Hc HE Hx Hfuel. destruct st as [p c a v]. pose proof (sd_inv _ _ HS) as [[HL HT] HSt]. cbn [p_pool p_io] in *.
  unfold get_gen_step. apply wp_bind, wp_pool, hash_get_low_ok; [done|]. apply wp_bind.
  destruct (is_resident (page_hash p !! (space, offset))) as [b|] eqn:E.
  - assert (Hk : page_hash p !! (space, offset) = Some (Hashed b)).
    { destruct (page_hash p !! (space, offset)) as [[x|n]|]; cbn in E; congruence. }
    destruct (tb_hash _ _ _ _ _ HT _ _ Hk) as (r & Hb & Hs & Ek). destruct (sd_quiet _ _ HS b r ltac:(done) Hb Hs) as (Hio & Hfix & Hu & Ht).
    rewrite <- (at_block_id p b r Hb) at 1. ssteps. rewrite Hu, Ht. cbn [orb]. unfold buf_block_fix. ssteps. rewrite Hfix.
    exists b, p, r, c, a, v. split_and!; [done| |done]. split_and!; try done.
  - assert (Hn : ¬ resident (page_hash p) (space, offset)).
    { intros [b Hb]. by rewrite Hb in E. }
    apply wp_ret. apply wp_bind. eapply wp_mono; [apply read_page_ok; [|done]|].
    { destruct Hx as (? & ? & ? & ?). split; try done; [by apply (steady_usable (MkPSt p c a v))|apply (sd_room _ _ HS)]. }
    cbn beta. intros ok st' (-> & b & r & HR). apply wp_ret. destruct (steady_read _ _ _ _ _ HS Hx Hn HR) as [HS' HE']. split_and!; [done| | |done|].
    + etrans; [exact Hc|apply HR].
    + by etrans.
    + exists b. apply HR.
Qed.

Definition latched (l : rw_latch_t) : latch := match l with RW_S_LATCH => Shared 1 | RW_X_LATCH => Exclusive | RW_NO_LATCH => Shared 0 end.

(** The client has the page in block [b]. *)
Record Held (k : Z * Z) (l : rw_latch_t) b r st : Prop := {
  hd_steady : Steady (Some b) st;
  hd_block : blocks (p_pool st) !! b = Some r;
  hd_state : bp_state r = BUF_BLOCK_FILE_PAGE;
  hd_key : page_key r = k;
  hd_io : io_fix r = BUF_IO_NONE;
  hd_fix : buf_fix_count r = 1;
  hd_lock : bl_lock r = latched l;
  hd_use : use_rw_cmd r = false;
  hd_target : target_rw_cmd r = false;
}.

(** The client takes hold of the page, or gives it back. *)
Lemma steady_update o o' p b r c a v p' r' c' a' : Steady o (MkPSt p c a v) → (o = None ∨ o = Some b) → blocks p !! b = Some r →
  bp_state r = BUF_BLOCK_FILE_PAGE → LruOk p' → pool_LRU p' ≡ₚ pool_LRU p → pool_free p' = pool_free p → page_hash p' = page_hash p →
  rest_of p' = rest_of p → unflagged <$> blocks p' = unflagged <$> <[b := r']> (blocks p) →
  NoDup (flush_list p') → (∀ x, x ∈ flush_list p' ↔ x ∈ flush_list p ∨ x = b ∧ oldest_modification r' ≠ 0) →
  bp_state r' = BUF_BLOCK_FILE_PAGE → page_key r' = page_key r → io_fix r' = BUF_IO_NONE →
  Z.of_nat (length (frame r')) = UNIV_PAGE_SIZE → (buf_fix_count r' = 0 → bl_lock r' = Shared 0) →
  (oldest_modification r' ≠ 0 → 0 < newest_modification r' < 2 ^ 64) →
  (oldest_modification r' = 0 → oldest_modification r = 0 ∧ disk v !! page_key r = Some (frame r')) →
  (o' = Some b ∨ o' = None ∧ quiet_block r') →
  let st' := MkPSt p' c' a' v in Ordered st' →
  Steady o' st' ∧ ∀ k, content_of st' k = if decide (k = page_key r) then Some (frame r') else content_of (MkPSt p c a v) k.
Proof.
  intros [HI Hq Hw Hr Ha Hd Hord Hid] Ho Hb Hs HL' El Ef Eh Er Em Hnd Hfl Hs' Ek Hio' Hlen Hlock Hlsn Hclean Ho'. cbn zeta. intros Hord'.
  destruct (update_inv p b r c a v p' r' c' a' HI Hb Hs HL' El Ef Eh Em Hnd Hfl Hs' Ek Hio' Hlen Hlock Hlsn Hclean) as [HI' Hc].
  split; [|done]. assert (Esz : curr_size p' = curr_size p) by exact (f_equal fst Er). assert (Hav : available p' = available p) by (unfold available; by rewrite Ef, El). split; cbn [p_pool] in *.
  - done.
  - intros x rx Hx Hrx Hsx. destruct (lookup_flags _ _ _ _ Em Hrx) as (r0 & Hr0 & E).
    assert (pins rx = pins r0) as Ep by exact (f_equal pins E). apply (quiet_pins r0); [done|].
    assert (bp_state r0 = BUF_BLOCK_FILE_PAGE) as Hs0 by (rewrite <- Hsx; exact (eq_sym (f_equal bp_state E))).
    destruct (decide (x = b)) as [->|Hne].
    + rewrite lookup_insert_eq in Hr0. apply (inj Some) in Hr0 as <-. destruct Ho' as [->|[_ ?]]; [done|done].
    + rewrite lookup_insert_ne in Hr0 by done. apply (Hq x r0); [|done|done]. destruct Ho as [->| ->]; congruence.
  - by rewrite Eh.
  - by rewrite Esz, Hav.
  - by rewrite Hav.
  - intros k x Hk. rewrite Eh in Hk. exact (Hd k x Hk).
  - done.
  - unfold idle. by rewrite (f_equal snd Er : batches p' = batches p).
Qed.

(** A page is looked at: its time of access and its place in the LRU list change. *)
Definition seen r : buf_block_t := fset access_time 0 (unflagged r).

Lemma look_ok p b r c a v now (m : get_mode) : LruOk p → blocks p !! b = Some r → bp_state r = BUF_BLOCK_FILE_PAGE → b ∈ pool_LRU p →
  wp (when (access_time r =? 0) (pool (buf_page_set_accessed (u32 now) b)) ;;
      when (negb (bool_decide (m = BUF_PEEK_IF_IN_POOL))) (pool (buf_page_make_young_if_needed now b)))
    (λ _ st', ∃ p' r', st' = MkPSt p' c a v ∧ LruOk p' ∧ pool_LRU p' ≡ₚ pool_LRU p ∧ pool_free p' = pool_free p ∧
       page_hash p' = page_hash p ∧ flush_list p' = flush_list p ∧ rest_of p' = rest_of p ∧ blocks p' !! b = Some r' ∧
       seen r' = seen r ∧ unflagged <$> blocks p' = unflagged <$> <[b := r']> (blocks p)) (MkPSt p c a v).
Proof.
  intros HL Hb Hs Hin. apply wp_bind, (wp_mono _ (λ _ st', ∃ r2, st' = MkPSt (at_block p b r2) c a v ∧ seen r2 = seen r ∧
    bp_state r2 = bp_state r ∧ bp_old r2 = bp_old r)).
  { destruct (access_time r =? 0) eqn:Et; cbn [when].
    - rewrite <- (at_block_id p b r Hb) at 1. unfold buf_page_set_accessed. ssteps. rewrite Et. ssteps. by eexists.
    - apply wp_ret. exists r. by rewrite at_block_id. }
  intros [] st' (r2 & -> & E2 & Es2 & Eo2). assert (HL2 : LruOk (at_block p b r2)) by (by apply (LruOk_at p b r)).
  apply (wp_mono _ (λ _ st', ∃ p', st' = MkPSt p' c a v ∧ Moved (at_block p b r2) p')).
  { case_bool_decide; cbn [negb when]; [apply wp_ret; eexists; split; [done|by apply Moved_refl]|]. apply wp_pool.
    eapply wp_mono; [apply (make_young_if_needed_ok _ b r2)|].
    1: done. 1: unfold at_block; cbn; apply lookup_insert_eq. 1: congruence. 1: done. cbn beta. intros [] p' HM. by exists p'. }
  intros [] st' (p' & -> & [M1 M2 M3 M4 M5 M6 M7]). exists p'.
  change (unflagged <$> blocks p' = unflagged <$> <[b := r2]> (blocks p)) in M7.
  pose proof (f_equal (.!! b) M7) as E. rewrite !lookup_fmap, lookup_insert_eq in E. cbn in E.
  destruct (blocks p' !! b) as [r'|]; [|done]. apply (inj Some) in E. exists r'. split_and!; try done.
  - rewrite <- E2. unfold seen. by rewrite E.
  - by rewrite M7, !fmap_insert, E.
Qed.

Lemma wp_assoc {S A B C} (m : M S A) (f : A → M S B) (g : B → M S C) (Φ : C → S → Prop) s :
  wp (x <- m ;; f x) (λ y s', wp (g y) Φ s') s → wp m (λ x s', wp (y <- f x ;; g y) Φ s') s.
Proof. unfold wp, bind. destruct (m s) as [x s1|e]; [|done]. by destruct (f x s1). Qed.

Lemma take_hold k l st b p r c a v p' r' : Found k st b p r c a v →
  LruOk p' → pool_LRU p' ≡ₚ pool_LRU p → pool_free p' = pool_free p → page_hash p' = page_hash p → flush_list p' = flush_list p →
  rest_of p' = rest_of p → blocks p' !! b = Some r' → unflagged <$> blocks p' = unflagged <$> <[b := r']> (blocks p) →
  fset bl_lock (Shared 0) (seen r') = fset bl_lock (Shared 0) (seen (fset buf_fix_count 1 r)) → bl_lock r' = latched l →
  let st' := MkPSt p' c a v in
  Held k l b r' st' ∧ same_content st st' ∧ Env st st' ∧ content_of st' k = Some (frame r').
Proof.
  intros (HS & Hc & HE & Hb & Hs & <-) HL' El Ef Eh Efl Esz Hr' Em E Hl. cbn zeta.
  pose proof (sd_inv _ _ HS) as [[HL HT] HSt]. cbn [p_pool p_io] in *. pose proof (tb_blocks _ _ _ _ _ HT b r Hb) as [B1 B2 B3 B4 B5 B6 B7 B8 B9 B10].
  destruct (sd_quiet _ _ HS b r ltac:(done) Hb Hs) as (Hio & Hfix & Hu & Ht).
  assert (Hf : ∀ {T} (f : buf_block_t → T), (∀ y, f (fset bl_lock (Shared 0) (seen y)) = f y) → f r' = f (fset buf_fix_count 1 r)).
  { intros T f Hf. by rewrite <- (Hf r'), E, Hf. }
  pose proof (Hf _ bp_state ltac:(done)) as F1. pose proof (Hf _ page_key ltac:(done)) as F2. pose proof (Hf _ io_fix ltac:(done)) as F3.
  pose proof (Hf _ frame ltac:(done)) as F4. pose proof (Hf _ oldest_modification ltac:(done)) as F5.
  pose proof (Hf _ newest_modification ltac:(done)) as F6. pose proof (Hf _ buf_fix_count ltac:(done)) as F7.
  pose proof (Hf _ use_rw_cmd ltac:(done)) as F8. pose proof (Hf _ target_rw_cmd ltac:(done)) as F9.
  change (page_key (fset buf_fix_count 1 r)) with (page_key r) in F2. cbn in F1, F3, F4, F5, F6, F7, F8, F9.
  destruct (steady_update None (Some b) p b r c a v p' r' c a HS ltac:(by left) Hb Hs HL' El Ef Eh Esz Em) as [HS' Hc'].
  - rewrite Efl. apply HT.
  - intros x. rewrite Efl, F5. split; [by left|]. intros [?|[-> Ho]]; [done|]. by apply B3.
  - congruence.
  - congruence.
  - congruence.
  - by rewrite F4.
  - by rewrite F7.
  - rewrite F5, F6. exact B9.
  - rewrite F5, F4. intros Ho. split; [done|]. eapply so_clean; [exact HSt|done|done|done|]. by rewrite Hio.
  - by left.
  - apply (Ordered_sublist (MkPSt p c a v)); [|reflexivity|apply (sd_order _ _ HS)]. cbn [p_pool]. by rewrite Efl, (lsns_same _ _ _ b r r' Em).
  - assert (Hsame : ∀ k, content_of (MkPSt p' c a v) k = content_of (MkPSt p c a v) k).
    { intros k. rewrite Hc'. case_decide as Hk; [|done]. subst k. unfold content_of, content. cbn [p_pool p_io].
      rewrite B4 by done. rewrite Hb, Hio, F4. done. }
    split_and!; [split; try done; congruence| |exact HE|by rewrite Hc', decide_True].
    intros k. rewrite Hsame. apply Hc.
Qed.

(** What is left to do when the page has been found. *)
Lemma found_ok space offset l st b p r c a v : Found (space, offset) st b p r c a v →
  wp (r <- pool (!(blk b)) ;;
      if bool_decide (BUF_GET = BUF_GET_IF_IN_POOL ∨ BUF_GET = BUF_PEEK_IF_IN_POOL) && bool_decide (io_fix r = BUF_IO_READ)
      then pool (buf_block_unfix b) ;; ret None else
      ASSERT (bool_decide (bp_state r = BUF_BLOCK_FILE_PAGE)) ;;
      now <- io_look ut_time_ms ;;
      when (access_time r =? 0) (pool (buf_page_set_accessed (u32 now) b)) ;;
      when (negb (bool_decide (BUF_GET = BUF_PEEK_IF_IN_POOL))) (pool (buf_page_make_young_if_needed now b)) ;;
      (if bool_decide (io_fix r = BUF_IO_READ) then fail NoFuel else skip) ;;
      pool (match l with
            | RW_NO_LATCH => skip
            | RW_S_LATCH => rw_lock_s_lock b
            | RW_X_LATCH => rw_lock_x_lock b
            end) ;;
      ret (Some b))
    (λ o st', ∃ b r, o = Some b ∧ Held (space, offset) l b r st' ∧ same_content st st' ∧ Env st st' ∧
       content_of st' (space, offset) = Some (frame r)) (MkPSt (at_block p b (fset buf_fix_count 1 r)) c a v).
Proof.
  intros (HS & Hc & HE & Hb & Hs & Ek). pose proof (sd_inv _ _ HS) as [[HL HT] HSt]. cbn [p_pool p_io] in *.
  destruct (sd_quiet _ _ HS b r ltac:(done) Hb Hs) as (Hio & Hfix & Hu & Ht). pose proof (tb_blocks _ _ _ _ _ HT b r Hb) as HB.
  ssteps. change (io_fix (fset buf_fix_count 1 r)) with (io_fix r). rewrite Hio. cbn [andb bool_decide]. rewrite andb_false_r. ssteps.
  change (bp_state (fset buf_fix_count 1 r)) with (bp_state r). rewrite Hs, bool_decide_true by done. ssteps.
  set (r1 := fset buf_fix_count 1 r). apply wp_assoc.
  eapply wp_mono; [apply (look_ok (at_block p b r1) b r1)|].
  { by apply (LruOk_at p b r). }
  { unfold at_block. cbn. apply lookup_insert_eq. }
  { done. }
  { by apply HB. }
  cbn beta. intros [] st' (p2 & r2 & -> & HL2 & El & Ef & Eh & Efl & Esz & Hr2 & E2 & Em).
  change (unflagged <$> blocks p2 = unflagged <$> <[b := r2]> (<[b := r1]> (blocks p))) in Em. rewrite insert_insert_eq in Em.
  assert (Hf : ∀ {T} (f : buf_block_t → T), (∀ y, f (seen y) = f y) → f r2 = f r1).
  { intros T f Hf. by rewrite <- (Hf r2), <- (Hf r1), E2. }
  assert (Hl2 : bl_lock r2 = Shared 0) by (rewrite (Hf _ bl_lock) by done; by apply HB).
  assert (Hend : ∀ r3, bp_old r3 = bp_old r2 → bp_state r3 = bp_state r2 → fset bl_lock (Shared 0) r3 = fset bl_lock (Shared 0) r2 →
    bl_lock r3 = latched l → ∃ b0 r0, Some b = Some b0 ∧ Held (space, offset) l b0 r0 (MkPSt (at_block p2 b r3) c a v) ∧
      same_content st (MkPSt (at_block p2 b r3) c a v) ∧ Env st (MkPSt (at_block p2 b r3) c a v) ∧
      content_of (MkPSt (at_block p2 b r3) c a v) (space, offset) = Some (frame r0)).
  { intros r3 Eo Es E3 El3. exists b, r3. split; [done|]. apply (take_hold (space, offset) l st b p r); try done.
    - by apply (LruOk_at p2 b r2).
    - unfold at_block. cbn. apply lookup_insert_eq.
    - unfold at_block. cbn. by rewrite fmap_insert, Em, !fmap_insert, insert_insert_eq.
    - transitivity (seen (fset bl_lock (Shared 0) r3)); [done|]. rewrite E3. transitivity (fset bl_lock (Shared 0) (seen r2)); [done|]. by rewrite E2. }
  rewrite <- (at_block_id p2 b r2 Hr2). rewrite bool_decide_false by done. ssteps. unfold rw_lock_s_lock, rw_lock_s_lock_nowait, rw_lock_x_lock.
  destruct l; ssteps; rewrite ?Hl2; ssteps; by apply Hend.
Qed.

Lemma get_gen_ok tries fuel space offset l st : Steady None st → Exists (space, offset) st → (2 ≤ tries)%nat → (3 ≤ fuel)%nat →
  wp (buf_page_get_gen tries fuel space offset l BUF_GET)
    (λ o st', ∃ b r, o = Some b ∧ Held (space, offset) l b r st' ∧ same_content st st' ∧ Env st st' ∧
       content_of st' (space, offset) = Some (frame r)) st.
Proof.
  intros HS Hx Ht Hfuel. unfold buf_page_get_gen. destruct st as [p0 c0 a0 v0]. apply wp_bind, wp_pool. eapply wp_modify; [done|]. cbn [poke glob].
  set (p1 := fset n_page_gets _ p0). set (st := MkPSt p0 c0 a0 v0) in *. set (st1 := MkPSt p1 c0 a0 v0).
  assert (HS1 : Steady None st1) by (destruct HS; split; [by apply (Inv_tables p0 p1 c0 c0 a0 a0 v0)|done..]).
  apply wp_bind, (wp_loop (λ _ st', Steady None st' ∧ same_content st st' ∧ Env st st')
    (λ _ st', match is_resident (page_hash (p_pool st') !! (space, offset)) with Some _ => 0%nat | None => 1%nat end)).
  { case_match; lia. }
  { split_and!; [done| |intros k Hk; exact Hk]. intros k. unfold st, st1. rewrite (content_tables p0 p1 c0 c0 a0 a0 v0) by done. reflexivity. }
  { intros n st' (HS' & Hc' & HE'). eapply wp_mono; [apply (get_gen_step_ok fuel space offset st); [done|done|done|by apply HE'|done]|].
    cbn beta. intros [n'|o] st2.
    - intros (? & ? & ? & Hn & [b Hb]). split; [by split_and!|]. rewrite Hb. cbn.
      destruct (page_hash (p_pool st') !! (space, offset)) as [[x|?]|] eqn:E; cbn; [|lia|lia]. destruct Hn. by exists x.
    - intros (b & p & r & c & a & v & -> & HF & ->). by apply found_ok. }
Qed.
End access.
