(* ===== verification/BatchInv.v ===== *)
(** The batches that write pages back: they change the content of no page, they
    end, and a batch over the flush list without a limit on the number of pages
    writes every page that was modified before its limit. *)
From stdpp Require Import sorting.
From S2P Require Import Prelude Frame HostLld Crc32 Fil PageFormat FilInv BufLru BufPool BufBatch BufInv BufStore BufEvict BufRead BufAccess.

Section batch_ok.
Context `{HostConfig} {Hok : HostConfigOk} `{PoolConfig} {V : Type} `{PageIoOk V}.
Implicit Types (p : buf_pool_t) (b : Z) (r : buf_block_t) (c : RwStat) (a : gset Z) (v : V) (st : PSt V) (t : buf_flush_t).

(** ** The pool while a batch runs *)

(** A page whose write has been posted and not completed. *)
Definition writing t r : Prop :=
  io_fix r = BUF_IO_WRITE ∧ flush_type r = t ∧ buf_fix_count r = 0 ∧ use_rw_cmd r = false ∧ target_rw_cmd r = false ∧
  bl_lock r = Shared 1 ∧ oldest_modification r ≠ 0.

(** The blocks in [W] are being written: the counter of the batch and its event. *)
Definition Tally (W : gset Z) (x : Z * bool * bool) : Prop :=
  x.1.1 = Z.of_nat (size W) ∧ (W ≠ ∅ → x.2 = false) ∧ (W = ∅ → x.1.2 = false → x.2 = true).

Lemma Tally_started W x b : b ∉ W → Z.of_nat (size W) < 2 ^ 32 → Tally W x → Tally ({[b]} ∪ W) (started x).
Proof.
  intros Hb Hsz (E1 & E2 & E3). unfold Tally, started. cbn [fst snd]. rewrite size_union, size_singleton by set_solver.
  split_and!; [rewrite E1, wrap_small by lia; lia| |set_solver]. intros _. rewrite E1. destruct (Z.eqb_spec (Z.of_nat (size W)) 0) as [|Hn]; [done|].
  apply E2. intros ->. by rewrite size_empty in Hn.
Qed.

Lemma Tally_finished W x b : b ∈ W → Z.of_nat (size W) < 2 ^ 32 → Tally W x → Tally (W ∖ {[b]}) (finished x).
Proof.
  intros Hb Hsz (E1 & E2 & E3). unfold Tally, finished. cbn [fst snd]. assert (Hs : size W = S (size (W ∖ {[b]}))).
  { rewrite (union_difference_L {[b]} W) at 1 by set_solver. rewrite size_union, size_singleton by set_solver. lia. }
  assert (u64 (x.1.1 - 1) = Z.of_nat (size (W ∖ {[b]}))) as -> by (rewrite E1, wrap_small; lia). split_and!; [done| |].
  - intros Hne. destruct (Z.eqb_spec (Z.of_nat (size (W ∖ {[b]}))) 0) as [Hz|]; [|cbn; apply E2; set_solver].
    destruct Hne. apply leibniz_equiv, size_empty_inv. lia.
  - intros -> ->. rewrite size_empty. done.
Qed.

Definition batch_type t : Prop := t = BUF_FLUSH_LRU ∨ t = BUF_FLUSH_LIST.

Definition is_writing t (m : gmap Z buf_block_t) b : Prop := ∃ r, m !! b = Some r ∧ bp_state r = BUF_BLOCK_FILE_PAGE ∧ writing t r.

(** The batch of type [t] has the writes it counts, and no other batch is running. *)
Definition Running t p : Prop :=
  (∃ W, (∀ b, b ∈ W ↔ is_writing t (blocks p) b) ∧ Tally W (batch_state p t)) ∧ ∀ u, batch_type u → u ≠ t → ended (batch_state p u).

(** Nobody uses a page; some are being written in a batch of type [t]. *)
Record Busy t st : Prop := {
  bz_inv : Inv st;
  bz_batch : Running t (p_pool st);
  bz_blocks : ∀ b r, blocks (p_pool st) !! b = Some r → bp_state r = BUF_BLOCK_FILE_PAGE →
    quiet_block r ∨ writing t r ∧ disk (p_io st) !! page_key r = Some (frame r);
  bz_watch : ∀ k n, page_hash (p_pool st) !! k ≠ Some (Sentinel n);
  bz_room : curr_size (p_pool st) / 20 ≤ available (p_pool st) ∧ available (p_pool st) ≤ curr_size (p_pool st) < 2 ^ 32;
  bz_some : 0 < available (p_pool st);
  bz_disk : ∀ k b, page_hash (p_pool st) !! k = Some (Hashed b) → Exists k st;
  bz_order : Ordered st;
}.

Lemma idle_batch t p : idle p → batch_type t → ended (batch_state p t).
Proof. by intros [? ?] [-> | ->]. Qed.

Definition no_writes st : Prop := ∀ b r, blocks (p_pool st) !! b = Some r → bp_state r = BUF_BLOCK_FILE_PAGE → io_fix r ≠ BUF_IO_WRITE.

(** When all writes are completed, the event is set. *)
Lemma busy_event t st : Busy t st → init_flush (p_pool st) t = false → no_writes st → batch_state (p_pool st) t = (0, false, true).
Proof.
  intros HB Hi Hn. destruct (bz_batch _ _ HB) as [(W & HW & T1 & T2 & T3) _]. assert (W = ∅) as ->.
  { apply elem_of_equiv_empty_L. intros b (r & Hb & Hs & Hio & _)%HW. by destruct (Hn b r Hb Hs). }
  unfold batch_state in *. cbn [fst snd] in *. by rewrite T1, Hi, T3.
Qed.

Lemma busy_steady t st : batch_type t → Busy t st → init_flush (p_pool st) t = false → no_writes st → Steady None st.
Proof.
  intros Ht HB Hi Hn. pose proof (busy_event t st HB Hi Hn) as He. destruct HB as [HI [_ Ho] Hq Hw Hr Ha Hd Hor]. split; try done.
  - intros b r _ Hb Hs. destruct (Hq b r Hb Hs) as [?|[(Hio & _) _]]; [done|]. by destruct (Hn b r Hb Hs).
  - assert (Hu : ∀ u, batch_type u → ended (batch_state (p_pool st) u)).
    { intros u Hu. destruct (decide (u = t)) as [->|]; [unfold ended; by rewrite He|by apply Ho]. }
    split; apply Hu; [by left|by right].
Qed.

(** What a batch keeps. *)
Definition Keeps st st' : Prop := same_content st st' ∧ Env st st'.
#[global] Instance Keeps_preorder : PreOrder Keeps.
Proof. split; [by intros st; split|]. intros x y z [? ?] [? ?]. split; by etrans. Qed.

Lemma busy_lists t p p' c c' a a' v : (tables_of p').1 = (tables_of p).1 → curr_size p' = curr_size p → (Running t p → Running t p') →
  Busy t (MkPSt p c a v) → Busy t (MkPSt p' c' a' v) ∧ Keeps (MkPSt p c a v) (MkPSt p' c' a' v).
Proof.
  intros E E7 Hrun [HI Hb Hq Hw Hr Ha Hd Ho].
  assert (pool_free p' = pool_free p) as E2 by exact (f_equal (λ x, x.1.1.2) E).
  assert (flush_list p' = flush_list p) as E3 by exact (f_equal (λ x, x.1.2) E).
  assert (page_hash p' = page_hash p) as E4 by exact (f_equal snd E).
  assert (blocks p' = blocks p) as E5 by exact (f_equal (λ x, x.1.1.1.1.1.1.1) E).
  assert (pool_LRU p' = pool_LRU p) as E6 by exact (f_equal (λ x, x.1.1.1.1.1.1.2) E).
  split; [split|split].
  - by eapply Inv_lists.
  - by apply Hrun.
  - cbn [p_pool p_io] in *. by rewrite E5.
  - cbn [p_pool p_io] in *. by rewrite E4.
  - unfold available in *. cbn [p_pool p_io] in *. by rewrite E2, E6, E7.
  - unfold available in *. cbn [p_pool p_io] in *. by rewrite E2, E6.
  - cbn [p_pool] in *. rewrite E4. exact Hd.
  - unfold Ordered in *. cbn [p_pool p_io] in *. by rewrite E3, E5.
  - intros k. rewrite (content_lists p p' c c' a a' v E). reflexivity.
  - by intros k.
Qed.

Lemma batches_same p p' t : batches p' = batches p → batch_type t → batch_state p' t = batch_state p t.
Proof. intros E [-> | ->]; [exact (f_equal fst E)|exact (f_equal snd E)]. Qed.

Lemma busy_tables t p p' c c' a a' v : batch_type t → tables_of p' = tables_of p → Busy t (MkPSt p c a v) →
  Busy t (MkPSt p' c' a' v) ∧ Keeps (MkPSt p c a v) (MkPSt p' c' a' v).
Proof.
  intros Ht E. apply busy_lists; [exact (f_equal fst E)|exact (f_equal (λ x, x.2.1) E)|].
  assert (Eu : ∀ u, batch_type u → batch_state p' u = batch_state p u) by (intros u; apply batches_same; exact (f_equal (λ x, x.2.2) E)).
  assert (blocks p' = blocks p) as E5 by exact (f_equal (λ x, x.1.1.1.1.1.1.1.1) E).
  intros [HW Ho]. split; [by rewrite Eu, E5|]. intros u Hu Hne. rewrite Eu by done. by apply Ho.
Qed.

(** One more block is being written, or one less. *)
Lemma running_update t p p' b r r' : Running t p → blocks p !! b = Some r → bp_state r' = BUF_BLOCK_FILE_PAGE →
  bp_state r = BUF_BLOCK_FILE_PAGE → blocks p' = <[b := r']> (blocks p) → Z.of_nat (size (blocks p)) < 2 ^ 32 →
  (∀ u, u ≠ t → batch_state p' u = batch_state p u) →
  quiet_block r ∧ writing t r' ∧ batch_state p' t = started (batch_state p t) ∨
  writing t r ∧ quiet_block r' ∧ batch_state p' t = finished (batch_state p t) → Running t p'.
Proof.
  intros [(W & HW & HT) Ho] Hb Hs' Hs Eb Hsz Eu Hcase. split; [|intros u ? ?; rewrite Eu by done; by apply Ho].
  assert (HsW : Z.of_nat (size W) < 2 ^ 32).
  { assert (size W ≤ size (blocks p))%nat; [|lia]. rewrite <- size_dom. apply subseteq_size. intros x (rx & Hx & _)%HW. apply elem_of_dom. by eexists. }
  assert (Hx : ∀ x, x ≠ b → is_writing t (blocks p') x ↔ x ∈ W).
  { intros x Hx. rewrite HW, Eb. unfold is_writing. by rewrite lookup_insert_ne. }
  assert (Hnot : ∀ y, quiet_block y → ¬ writing t y) by (intros y (E & _) (E' & _); congruence).
  destruct Hcase as [(Hq & Hw & E)|(Hw & Hq & E)]; rewrite E.
  - exists ({[b]} ∪ W). split; [|apply Tally_started; [|done|done]]; [|intros (r0 & Hr0 & _ & Hw0)%HW; rewrite Hb in Hr0; apply (inj Some) in Hr0 as <-; by apply (Hnot r)].
    intros x. destruct (decide (x = b)) as [->|Hne]; [|rewrite Hx by done; set_solver]. split; [intros _|set_solver].
    exists r'. by rewrite Eb, lookup_insert_eq.
  - exists (W ∖ {[b]}). split; [|apply Tally_finished; [|done|done]]; [|apply HW; by exists r].
    intros x. destruct (decide (x = b)) as [->|Hne]; [|rewrite Hx by done; set_solver]. split; [set_solver|].
    intros (r0 & Hr0 & _ & Hw0). rewrite Eb, lookup_insert_eq in Hr0. apply (inj Some) in Hr0 as <-. by destruct (Hnot r').
Qed.

(** A page is written, or its write is completed. *)
Lemma busy_write t p b r r' c a v p' c' a' v' :
  Busy t (MkPSt p c a v) → blocks p !! b = Some r → bp_state r = BUF_BLOCK_FILE_PAGE → io_fix r ≠ BUF_IO_READ → oldest_modification r ≠ 0 →
  lru_part p' = lru_part p → pool_free p' = pool_free p → page_hash p' = page_hash p → curr_size p' = curr_size p →
  (oldest_modification r' = 0 ∧ flush_list p' = UT_LIST_REMOVE (flush_list p) b ∨
   oldest_modification r' = oldest_modification r ∧ flush_list p' = flush_list p) →
  bp_state r' = BUF_BLOCK_FILE_PAGE → bp_old r' = bp_old r → page_key r' = page_key r → newest_modification r' = newest_modification r →
  quiet_block r ∧ writing t r' ∧ batch_state p' t = started (batch_state p t) ∨
  (writing t r ∧ quiet_block r' ∧ batch_state p' t = finished (batch_state p t)) ∧ bl_lock r' = Shared 0 →
  (∀ u, u ≠ t → batch_state p' u = batch_state p u) →
  Z.of_nat (length (frame r')) = UNIV_PAGE_SIZE → same_page (frame r) (frame r') →
  Wrote (<[page_key r := frame r']> (disk v)) v v' →
  (∀ k page, disk v' !! k = Some page →
    Z.of_nat (length page) = UNIV_PAGE_SIZE ∧ buf_page_is_corrupted srv_checksum_algorithm page = false ∧
    mach_read_from_8 page FIL_PAGE_LSN ≤ durable_lsn v') →
  let st' := MkPSt (at_block p' b r') c' a' v' in Busy t st' ∧ Keeps (MkPSt p c a v) st'.
Proof.
  intros HBz Hb Hs Hio Ho F1 F2 F3 F5 F4 Hs' Eo Ek En Hq' Hu Hlen Hsame (Ed & Hdur & Edel & Elog) HD. cbn zeta.
  pose proof HBz as [HI Hbt Hq Hw Hr Ha Hd Hord]. cbn [p_pool p_io] in *. pose proof HI as [[_ HT] _]. cbn [p_pool] in HT.
  destruct (written_inv p b r r' c a v p' c' a' v' HI Hb Hs Hio Ho F1 F2 F3 F4 Hs' Eo Ek En) as [HI' Hc]; try done.
  { destruct Hq' as [(_ & (-> & _) & _)|[(_ & (-> & _) & _) _]]; done. }
  { intros E _. destruct Hq' as [(_ & (E' & _) & _)|[_ ?]]; [congruence|done]. }
  assert (Eb : blocks p' = blocks p) by exact (f_equal (λ x, x.1.1.1.1) F1).
  assert (El : pool_LRU p' = pool_LRU p) by exact (f_equal (λ x, x.1.1.1.2) F1).
  assert (Em : unflagged <$> blocks (at_block p' b r') = unflagged <$> <[b := r']> (blocks p)) by (unfold at_block; cbn; by rewrite Eb).
  assert (HE : Env (MkPSt p c a v) (MkPSt (at_block p' b r') c' a' v')).
  { intros k (? & ? & ? & ?). split; [done|]. split; [done|]. cbn [p_io] in *. rewrite Ed, Edel. split; [|done].
    destruct (decide (k = page_key r)) as [->|]; [rewrite lookup_insert_eq; by eexists|by rewrite lookup_insert_ne]. }
  split; [split|by split].
  - done.
  - eapply running_update; [exact Hbt|exact Hb|done|done| |apply HT|exact Hu|destruct Hq' as [?|[? _]]; [by left|by right]]. unfold at_block. cbn. by rewrite Eb.
  - intros x rx. cbn [p_pool p_io]. unfold at_block. cbn [blocks fset set_blocks]. rewrite Eb. destruct (decide (x = b)) as [->|Hne].
    + rewrite lookup_insert_eq. intros [= <-] _. destruct Hq' as [(_ & ? & _)|[(_ & ? & _) _]]; [right|by left]. split; [done|]. rewrite Ek, Ed. apply lookup_insert_eq.
    + rewrite lookup_insert_ne by done. intros Hrx Hsx. destruct (Hq x rx Hrx Hsx) as [?|[? Hk]]; [by left|right]. split; [done|].
      rewrite Ed, lookup_insert_ne; [done|]. intros E. apply Hne. by eapply page_key_inj.
  - cbn. unfold at_block. cbn. by rewrite F3.
  - unfold available, at_block in *. cbn [p_pool pool_free pool_LRU curr_size fset set_blocks]. by rewrite F2, El, F5.
  - unfold available, at_block in *. cbn [p_pool pool_free pool_LRU fset set_blocks]. by rewrite F2, El.
  - intros k x Hk. eapply HE, Hd. unfold at_block in Hk. cbn in Hk. by rewrite F3 in Hk.
  - apply (Ordered_sublist (MkPSt p c a v)); [|done|done]. cbn [p_pool]. change (flush_list (at_block p' b r')) with (flush_list p').
    destruct F4 as [[_ ->]|[E ->]]; [by eapply lsns_remove|]. by rewrite (lsns_same _ _ _ b r r' Em).
Qed.

(** An eviction. *)
Lemma writing_pins t d d' r r' : pins r' = pins r → write_pins d' r' = write_pins d r → writing t r' ↔ writing t r.
Proof.
  intros E Hwr. unfold pins, write_pins in *. injection E as E1 E2 E3 E4 E5 E6 E7. injection Hwr as X1 X2 X3 X4.
  unfold writing. by rewrite E3, E4, E5, E6, E7, X2, X3.
Qed.

Lemma running_freed t b r r' p p' d d' : batch_type t → Running t p → batches p' = batches p → blocks p !! b = Some r → io_fix r ≠ BUF_IO_WRITE →
  unflagged <$> blocks p' = unflagged <$> <[b := r']> (blocks p) → kept (blocks p) (blocks p') d d' → Running t p'.
Proof.
  intros Ht [(W & HW & HT) Ho] Eb Hb Hio Em HK. split; [|intros u Hu Hne; rewrite (batches_same p p') by done; by apply Ho].
  exists W. rewrite (batches_same p p') by done. split; [|done]. intros x. rewrite HW. split.
  - intros (rx & Hx & Hs & Hw). assert (x ≠ b) as Hne by (intros ->; destruct Hw as (? & _); congruence).
    rewrite <- (lookup_insert_ne (blocks p) b x r') in Hx by done. destruct (lookup_flags _ _ _ _ (eq_sym Em) Hx) as (r2 & Hr2 & E).
    exists r2. split_and!; [done|rewrite <- Hs; exact (eq_sym (f_equal bp_state E))|].
    apply (writing_pins t ∅ ∅ rx r2); [exact (eq_sym (f_equal pins E))|exact (eq_sym (f_equal (write_pins ∅) E))|done].
  - intros (r2 & Hr2 & Hs2 & Hw). destruct (HK x r2 Hr2 Hs2) as (rx & Hx & Hs & E & Hwr). exists rx. split_and!; [done|done|].
    apply (writing_pins t d d' rx r2); [done| |done]. apply Hwr. destruct Hw as (<- & _). exact (eq_sym (f_equal (λ x, x.1.1.1.1.2) E)).
Qed.

Lemma busy_freed t b r st st' : batch_type t → Busy t st → Freed b st st' → blocks (p_pool st) !! b = Some r → io_fix r ≠ BUF_IO_WRITE →
  Busy t st' ∧ Keeps st st'.
Proof.
  intros Ht [HI Hbt Hq Hw Hr Ha Hd Ho] ([S1 S2 S3 S4 S5 S6 S7 S8 S9 S10] & _ & Hav & _ & r1 & Em) Hb Hio.
  assert (HE : Env st st').
  { intros k (? & ? & ? & ?). split; [done|]. split; [done|]. split; [by apply S5|by rewrite S6]. }
  split; [split|by split].
  - done.
  - by eapply running_freed.
  - intros x r' Hb' Hs'. destruct (S7 x r' Hb' Hs') as (r0 & Hb0 & Hs & E & Hwr).
    destruct (Hq x r0 Hb0 Hs) as [Hqr|[Hwx Hk]]; [left; by eapply quiet_pins|right]. specialize (Hwr (proj1 Hwx)).
    split; [by eapply writing_pins|]. injection Hwr as X1 _ _ X4. by rewrite X4, X1.
  - intros k n Hk. by apply (Hw k n), (lookup_weaken _ _ _ _ Hk).
  - by rewrite S4, Hav.
  - by rewrite Hav.
  - intros k x Hk. eapply HE, Hd. by eapply lookup_weaken.
  - by apply (Ordered_sublist st).
Qed.

(** ** Posting and completing a write *)

Definition posted t r : buf_block_t :=
  fset frame (written r) (fset bl_lock (Shared 1) (fset flush_type t (fset io_fix BUF_IO_WRITE r))).

(** The pool but for its counters. *)
Definition frame_of p := ((tables_of p).1, curr_size p, flush_list_hp p, init_flush p).

Lemma flush_post_ok t p b r c a v : batch_type t → flushable r → buf_fix_count r = 0 →
  wp (buf_flush_page b t false)
    (λ ok st', ok = true ∧ ∃ p' c' v', st' = MkPSt (at_block p' b (posted t r)) c' a v' ∧ frame_of p' = frame_of p ∧
       batch_state p' t = started (batch_state p t) ∧ (∀ u, u ≠ t → batch_state p' u = batch_state p u) ∧
       Wrote (<[page_key r := written r]> (disk v)) v v' ∧ newest_modification r ≤ durable_lsn v')
    (MkPSt (at_block p b r) c a v).
Proof.
  intros Ht (Hs & Hio & Hl) Hfix.
  destruct (log_law (newest_modification r) v) as [W1 D1]. set (v1 := log_write_up_to (newest_modification r) v) in *.
  pose proof (write_law (bp_space r) (bp_offset r) (written r) v1) as W2. set (v2 := fil_io_write (bp_space r) (bp_offset r) (written r) v1) in *.
  assert (Hend : ∀ p1 p' c', Counted t started p p1 → frame_of p' = frame_of p1 → (∀ u, batch_state p' u = batch_state p1 u) →
    true = true ∧ ∃ p2 c2 v', MkPSt (at_block p' b (posted t r)) c' a v2 =
    MkPSt (at_block p2 b (posted t r)) c2 a v' ∧ frame_of p2 = frame_of p ∧
    batch_state p2 t = started (batch_state p t) ∧ (∀ u, u ≠ t → batch_state p2 u = batch_state p u) ∧
    Wrote (<[page_key r := written r]> (disk v)) v v' ∧ newest_modification r ≤ durable_lsn v').
  { intros p1 p' c' [C1 C2 C3] E Eu. split; [done|]. exists p', c', v2. split_and!; [done| |by rewrite Eu|intros u Hu; by rewrite Eu, C3| |destruct W2 as (_ & ? & _); lia].
    - rewrite E. exact (f_equal frame_of C1).
    - eapply Wrote_next; [exact W1|]. by intros <-. }
  unfold buf_flush_page, rw_lock_s_lock, rw_lock_s_lock_nowait, buf_flush_write_block_low. ssteps. rewrite Hs, Hfix.
  destruct Ht as [-> | ->].
  - rewrite !(bool_decide_true (_ = BUF_FLUSH_LRU)), !bool_decide_true, !bool_decide_false by done. cbn [negb orb andb Z.eqb]. ssteps. rewrite Hl.
    repeat first [apply start_write_ok; intros p1 HC1|sstep]. run.
    eapply stamp_write_ok; [done|]. ssteps. by apply (Hend p1).
  - rewrite !bool_decide_true, !bool_decide_false by done. cbn [negb orb andb Z.eqb].
    repeat first [apply start_write_ok; intros p1 HC1|sstep]. scrut. rewrite Hl. run.
    eapply stamp_write_ok; [done|]. ssteps. by apply (Hend p1).
Qed.

Lemma busy_latch t st b r : Busy t st → blocks (p_pool st) !! b = Some r → bp_state r = BUF_BLOCK_FILE_PAGE → quiet_block r → bl_lock r = Shared 0.
Proof.
  intros HB Hb Hs (Hio & Hfix & _). destruct (bz_inv _ _ HB) as [[_ HT] _]. apply (tb_blocks _ _ _ _ _ HT b r Hb); done.
Qed.

Lemma post_ok t p b r c a v : batch_type t → Busy t (MkPSt p c a v) → blocks p !! b = Some r →
  bp_state r = BUF_BLOCK_FILE_PAGE → quiet_block r → oldest_modification r ≠ 0 →
  wp (buf_flush_page b t false)
    (λ ok st', ok = true ∧ Busy t st' ∧ Keeps (MkPSt p c a v) st' ∧
       ∃ p' c' v', st' = MkPSt (at_block p' b (posted t r)) c' a v' ∧ frame_of p' = frame_of p) (MkPSt p c a v).
Proof.
  intros Ht HBz Hb Hs Hq Ho. pose proof (busy_latch t _ b r HBz Hb Hs Hq) as Hl. pose proof Hq as (Hio & Hfix & Hu & Htg).
  pose proof (bz_inv _ _ HBz) as [[_ HT] HS]. cbn [p_pool p_io] in *. pose proof (tb_blocks _ _ _ _ _ HT b r Hb) as HB.
  pose proof (bo_lsn _ _ _ _ _ _ HB Ho) as Hn. pose proof (bo_frame _ _ _ _ _ _ HB) as Hlen.
  destruct (written_facts r Hok Hlen Hn) as (W1 & _ & _ & W4).
  rewrite <- (at_block_id p b r Hb) at 1. eapply wp_mono; [by apply flush_post_ok|].
  cbn beta. intros ok st' (-> & p' & c' & v' & -> & E & Est & Eot & HW & Hd). split; [done|].
  assert (E0 : (tables_of p').1 = (tables_of p).1) by exact (f_equal (λ x, x.1.1.1) E).
  destruct (busy_write t p b r (posted t r) c a v p' c' a v' HBz Hb Hs) as [HBz' HK]; try done.
  - by rewrite Hio.
  - exact (f_equal (λ x, x.1.1.1) E0).
  - exact (f_equal (λ x, x.1.1.2) E0).
  - exact (f_equal snd E0).
  - exact (f_equal (λ x, x.1.1.2) E).
  - right. split; [done|]. exact (f_equal (λ x, x.1.2) E0).
  - left. by split_and!.
  - by apply (disk_written (blocks p) v v' r).
  - split_and!; [done|done|]. by exists p', c', v'.
Qed.

Definition completed r : buf_block_t := fset bl_lock (Shared 0) (fset oldest_modification 0 (fset io_fix BUF_IO_NONE r)).

Lemma write_complete_ok t st b r : Busy t st → blocks (p_pool st) !! b = Some r → bp_state r = BUF_BLOCK_FILE_PAGE → writing t r →
  wp (buf_page_io_complete b)
    (λ _ st', Busy t st' ∧ Keeps st st' ∧ blocks (p_pool st') = <[b := completed r]> (blocks (p_pool st)) ∧
       init_flush (p_pool st') t = init_flush (p_pool st) t) st.
Proof.
  destruct st as [p c a v]. intros HBz Hb Hs HW. pose proof HW as (Hio & Hft & Hfix & Hu & Htg & Hl & Ho). cbn [p_pool p_io] in *.
  pose proof (bz_inv _ _ HBz) as [[_ HT] HS]. cbn [p_pool p_io] in *. pose proof (tb_blocks _ _ _ _ _ HT b r Hb) as HB.
  assert (Hd : disk v !! page_key r = Some (frame r)).
  { destruct (bz_blocks _ _ HBz b r Hb Hs) as [(E & _)|[_ ?]]; [congruence|done]. }
  rewrite <- (at_block_id p b r Hb) at 1. eapply complete_write_ok; [done|done|done|]. rewrite Hft. intros p' [F1 F2 F3 F4 F5 F6 F7] Est.
  destruct (busy_write t p b r (completed r) c a v p' c a v HBz Hb Hs) as [HBz' HK]; try done.
  - by rewrite Hio.
  - by left.
  - right. by split_and!.
  - apply HB.
  - split_and!; [by rewrite insert_id|done|done|done].
  - apply HS.
  - split_and!; [done|done| |exact (f_equal (λ x, x.1.2) Est)]. cbn. unfold at_block. cbn.
    by rewrite (f_equal (λ x, x.1.1.1.1) F1 : blocks p' = blocks p).
Qed.

(** ** A step of a batch *)

Definition lists_of p := (pool_LRU p, pool_free p, flush_list p, page_hash p, curr_size p, flush_list_hp p, init_flush p).

(** Some dirty pages are now being written. *)
Definition grown r r' : Prop :=
  bp_state r' = bp_state r ∧ page_key r' = page_key r ∧ oldest_modification r' = oldest_modification r ∧
  (io_fix r = BUF_IO_WRITE → io_fix r' = BUF_IO_WRITE).
Definition Grown st st' : Prop :=
  ∀ b r, blocks (p_pool st) !! b = Some r → ∃ r', blocks (p_pool st') !! b = Some r' ∧ grown r r'.
#[global] Instance Grown_preorder : PreOrder Grown.
Proof.
  split; [by intros st b r Hb; exists r|]. intros st st1 st2 HA HB b r Hb.
  destruct (HA b r Hb) as (r1 & Hr1 & G1 & G2 & G3 & G4), (HB b r1 Hr1) as (r2 & Hr2 & K1 & K2 & K3 & K4).
  exists r2. split; [done|]. split_and!; [congruence..|auto].
Qed.

Record Batch t st st' : Prop := {
  bt_busy : Busy t st';
  bt_keeps : Keeps st st';
  bt_lists : lists_of (p_pool st') = lists_of (p_pool st);
  bt_blocks : Grown st st';
}.

Lemma Batch_refl t st : Busy t st → Batch t st st.
Proof. intros HB. by split. Qed.
Lemma Batch_trans t st st1 st2 : Batch t st st1 → Batch t st1 st2 → Batch t st st2.
Proof. intros [A1 A2 A3 A4] [B1 B2 B3 B4]. split; [done|by etrans|congruence|by etrans]. Qed.

Lemma post_batch t b r st : batch_type t → Busy t st → blocks (p_pool st) !! b = Some r →
  bp_state r = BUF_BLOCK_FILE_PAGE → quiet_block r → oldest_modification r ≠ 0 →
  wp (buf_flush_page b t false)
    (λ ok st', ok = true ∧ Batch t st st' ∧ ∃ r', blocks (p_pool st') !! b = Some r' ∧ io_fix r' = BUF_IO_WRITE) st.
Proof.
  destruct st as [p c a v]. cbn [p_pool]. intros Ht HB Hb Hs Hq Ho. eapply wp_mono; [by apply (post_ok t p b r)|].
  cbn beta. intros ok st' (-> & HB' & HK & p' & c' & v' & -> & E). split; [done|].
  assert (Eb : blocks p' = blocks p) by exact (f_equal (λ x, x.1.1.1.1.1.1.1.1.1.1) E).
  assert (Hb' : blocks (at_block p' b (posted t r)) !! b = Some (posted t r)) by (unfold at_block; cbn; apply lookup_insert_eq).
  split; [|by exists (posted t r)]. split; [done|done| |].
  - change (lists_of p' = lists_of p). unfold frame_of, tables_of, lru_part in E. cbn [fst] in E. unfold lists_of. congruence.
  - intros x rx Hx. cbn [p_pool] in *. destruct (decide (x = b)) as [->|Hne].
    + exists (posted t r). rewrite Hb in Hx. apply (inj Some) in Hx as <-. by split.
    + exists rx. split; [|by split_and!]. unfold at_block. cbn. by rewrite lookup_insert_ne, Eb.
Qed.

(** ** The neighbours of a page *)

Lemma page_hash_get_ok space offset st (Φ : option Z → PSt V → Prop) : Inv st →
  Φ (is_resident (page_hash (p_pool st) !! (space, offset))) st → wp (buf_page_hash_get space offset) Φ st.
Proof.
  destruct st as [p c a v]. intros [[_ HT] _] HΦ. unfold buf_page_hash_get. apply wp_bind, wp_pool. by apply hash_get_low_ok; [|apply wp_ret].
Qed.

Lemma resident_block st k b : Inv st → is_resident (page_hash (p_pool st) !! k) = Some b →
  page_hash (p_pool st) !! k = Some (Hashed b) ∧ ∃ r, blocks (p_pool st) !! b = Some r ∧ bp_state r = BUF_BLOCK_FILE_PAGE ∧ k = page_key r.
Proof.
  intros [[_ HT] _] E. destruct (page_hash (p_pool st) !! k) as [[x|n]|] eqn:Ek; cbn in E; [|done|done]. apply (inj Some) in E as ->.
  split; [done|]. by apply (tb_hash _ _ _ _ _ HT).
Qed.

Lemma ready_ok t st b r (Φ : bool → PSt V → Prop) : Busy t st → blocks (p_pool st) !! b = Some r → bp_state r = BUF_BLOCK_FILE_PAGE →
  (quiet_block r → oldest_modification r ≠ 0 → Φ true st) →
  (quiet_block r ∧ oldest_modification r = 0 ∨ io_fix r = BUF_IO_WRITE → Φ false st) →
  wp (pool (buf_flush_ready_for_flush b)) Φ st.
Proof.
  destruct st as [p c a v]. intros HB Hb Hs Hyes Hno. cbn [p_pool] in Hb. apply (ready_for_flush_ok p b r); [done|done|].
  destruct (bz_blocks _ _ HB b r Hb Hs) as [Hq|[(W1 & W2 & W3 & W4 & W5 & W6 & W7) _]].
  - pose proof Hq as (Hio & Hfix & Hu & Ht). rewrite Hio, Hu, Ht, bool_decide_true by done. cbn [negb andb]. rewrite andb_true_r.
    destruct (Z.eqb_spec (oldest_modification r) 0) as [Ho|Ho]; cbn [negb]; [apply Hno; by left|by apply Hyes].
  - rewrite W1, bool_decide_false by done. rewrite andb_false_r. apply Hno. by right.
Qed.

Lemma in_file_ok st b r (Φ : unit → PSt V → Prop) : blocks (p_pool st) !! b = Some r → bp_state r = BUF_BLOCK_FILE_PAGE →
  Φ tt st → wp (pool (assert_in_file b)) Φ st.
Proof.
  destruct st as [p c a v]. cbn [p_pool]. intros Hb Hs HΦ. rewrite <- (at_block_id p b r Hb). ssteps. by rewrite at_block_id.
Qed.

Lemma block_ok st b r (Φ : buf_block_t → PSt V → Prop) : blocks (p_pool st) !! b = Some r → Φ r st → wp (pool (!(blk b))) Φ st.
Proof. destruct st as [p c a v]. cbn [p_pool]. intros Hb HΦ. apply wp_pool. eapply wp_load; [cbn; by rewrite Hb|]. done. Qed.

Lemma check_neighbor_ok t st space offset : Busy t st →
  wp (buf_flush_check_neighbor space offset t) (λ ok st', st' = st ∧ (ok = true → resident (page_hash (p_pool st)) (space, offset))) st.
Proof.
  intros HB. unfold buf_flush_check_neighbor. apply wp_bind, page_hash_get_ok; [apply HB|].
  destruct (is_resident (page_hash (p_pool st) !! (space, offset))) as [b|] eqn:E; [|apply wp_ret; by split].
  destruct (resident_block st (space, offset) b (bz_inv _ _ HB) E) as (Hk & r & Hb & Hs & _).
  assert (Hres : resident (page_hash (p_pool st)) (space, offset)) by (by exists b).
  apply wp_bind, (in_file_ok st b r); [done|done|]. apply wp_bind. destruct st as [p c a v]. cbn [p_pool] in Hb. apply wp_pool. eapply wp_load; [cbn; by rewrite Hb|].
  case_match; [|by apply wp_ret]. by apply (ready_ok t (MkPSt p c a v) b r).
Qed.

Lemma try_neighbor_ok t st space offset i : batch_type t → Busy t st →
  wp (try_neighbor space offset i t) (λ _ st', Batch t st st' ∧
    ∀ b r, i = offset → page_hash (p_pool st) !! (space, i) = Some (Hashed b) → blocks (p_pool st) !! b = Some r →
      oldest_modification r ≠ 0 → ∃ r', blocks (p_pool st') !! b = Some r' ∧ io_fix r' = BUF_IO_WRITE) st.
Proof.
  intros Ht HB. unfold try_neighbor. apply wp_bind, page_hash_get_ok; [apply HB|].
  destruct (is_resident (page_hash (p_pool st) !! (space, i))) as [b|] eqn:E.
  2:{ apply wp_ret. split; [by apply Batch_refl|]. intros b r _ Hk. by rewrite Hk in E. }
  destruct (resident_block st (space, i) b (bz_inv _ _ HB) E) as (Hk & r & Hb & Hs & _).
  apply wp_bind, (in_file_ok st b r); [done|done|]. apply wp_bind, (block_ok st b r); [done|].
  destruct (negb (bool_decide (t = BUF_FLUSH_LRU)) || (i =? offset) || bp_old r) eqn:Eg.
  2:{ apply wp_ret. split; [by apply Batch_refl|]. intros x rx ->. rewrite Z.eqb_refl, orb_true_r in Eg. done. }
  apply wp_bind, (ready_ok t st b r); [done|done|done| |].
  - intros Hq Ho. pose proof Hq as (_ & -> & _). rewrite orb_true_r. cbn [andb].
    eapply wp_mono; [by apply (post_batch t b r)|]. cbn beta. intros ok st' (_ & HBt & Hw). split; [done|].
    intros x rx _ Hx _ _. rewrite Hk in Hx. by injection Hx as ->.
  - intros Hno. cbn [andb]. apply wp_ret. split; [by apply Batch_refl|]. intros x rx _ Hx Hrx Ho. rewrite Hk in Hx. injection Hx as ->.
    rewrite Hb in Hrx. apply (inj Some) in Hrx as ->. destruct Hno as [[_ ?]|?]; [done|by exists rx].
Qed.

Lemma dirty_below_ok t st n space low offset : Busy t st → 0 ≤ low < offset → offset < WIPED → offset - low + 1 < Z.of_nat n →
  wp (dirty_below n space low t (offset - 1)) (λ i st', st' = st ∧ low ≤ u64 (i + 1) ≤ offset) st.
Proof.
  intros HB Hlow Hoff Hn. unfold WIPED in Hoff. unfold dirty_below.
  apply (wp_loop (λ i st', st' = st ∧ (low ≤ i ≤ offset - 1 ∨ i = u64 (low - 1)))
    (λ i _, if decide (low ≤ i ≤ offset - 1) then Z.to_nat (i - low + 2) else 1%nat)).
  - case_decide; lia.
  - split; [done|left; lia].
  - intros i st' [-> Hi]. destruct (Z.leb_spec low i) as [Hle|Hlt].
    2:{ apply wp_ret. split; [done|]. destruct Hi as [?| ->]; [lia|]. destruct (Z.eq_dec low 0) as [->|]; [by vm_compute in Hlt|].
        rewrite (wrap_small 64 (low - 1)) by lia. rewrite wrap_small by lia. lia. }
    apply wp_bind. eapply wp_mono; [by apply check_neighbor_ok|]. cbn beta. intros ok st' [-> Hres]. apply wp_ret.
    assert (Hcase : low ≤ i ≤ offset - 1 ∨ low = 0 ∧ i = 2 ^ 64 - 1).
    { destruct Hi as [?|E]; [by left|right]. destruct (Z.eq_dec low 0) as [->|]; [by rewrite E|]. rewrite wrap_small in E by lia. lia. }
    destruct ok; cbn iota.
    + destruct Hcase as [Hr|[-> ->]].
      2:{ exfalso. destruct (Hres eq_refl) as [b Hb]. destruct (bz_disk _ _ HB _ _ Hb) as (_ & Hk & _). cbn in Hk. unfold WIPED in Hk. lia. }
      rewrite (decide_True (P := low ≤ i ≤ offset - 1)) by done. destruct (Z.eq_dec i low) as [->|].
      * split; [split; [done|by right]|]. rewrite decide_False; [lia|]. destruct (Z.eq_dec low 0) as [->|]; [change (u64 (0 - 1)) with (2 ^ 64 - 1); lia|].
        rewrite wrap_small by lia. lia.
      * rewrite wrap_small by lia. split; [split; [done|left; lia]|]. rewrite decide_True by lia. lia.
    + split; [done|]. destruct Hcase as [Hr|[-> ->]]; [|change (u64 (2 ^ 64 - 1 + 1)) with 0; lia]. rewrite wrap_small by lia. lia.
Qed.

Lemma dirty_above_ok t st n space high offset : Busy t st → offset < high → high - offset < Z.of_nat n →
  wp (dirty_above n space high t (offset + 1)) (λ i st', st' = st ∧ offset < i ≤ high) st.
Proof.
  intros HB Hhigh Hn. unfold dirty_above. apply (wp_loop (λ i st', st' = st ∧ offset < i ≤ high) (λ i _, Z.to_nat (high - i))).
  - lia.
  - split; [done|lia].
  - intros i st' [-> Hi]. destruct (Z.ltb_spec i high) as [Hlt|Hge]; [|by apply wp_ret].
    apply wp_bind. eapply wp_mono; [by apply check_neighbor_ok|]. cbn beta. intros ok st' [-> _]. apply wp_ret.
    destruct ok; cbn iota; [|by split]. split; [split; [done|lia]|lia].
Qed.

Lemma power_up_pos fuel res n : 1 ≤ res → n ≤ 2 ^ 63 → 1 ≤ power_up fuel res n.
Proof.
  revert res. induction fuel as [|fuel IH]; intros res Hr Hn; cbn [power_up]; [done|]. destruct (Z.ltb_spec res n); [|done].
  apply IH; [|done]. rewrite wrap_small by lia. lia.
Qed.

Lemma flush_area_ok t st space offset : Busy t st → 0 ≤ offset < WIPED →
  wp (flush_area space offset t) (λ x st', st' = st ∧ 0 ≤ x.1 ≤ offset ∧ offset < x.2 ∧ x.2 - x.1 ≤ 64) st.
Proof.
  intros HB Hoff. destruct st as [p c a v]. unfold flush_area. apply wp_bind, wp_pool. eapply wp_load; [done|].
  destruct (Z.ltb_spec (UT_LIST_GET_LEN (pool_LRU p)) BUF_LRU_OLD_MIN_LEN) as [|Hlen]; cbn [orb]; [apply wp_ret; cbn; split; [done|lia]|].
  destruct (srv_flush_neighbors =? 0); [apply wp_ret; cbn; split; [done|lia]|]. apply wp_bind, wp_pool. eapply wp_load; [done|]. cbn zeta.
  pose proof (bz_room _ _ HB) as [_ Hroom]. cbn [p_pool] in Hroom. unfold available, BUF_LRU_OLD_MIN_LEN in *.
  set (area := Z.min _ _). assert (Harea : 1 ≤ area ≤ 64).
  { unfold area, BUF_READ_AHEAD_AREA, ut_2_power_up. pose proof (power_up_pos 64 1 (curr_size p / 32)) as Hp.
    assert (32 ≤ curr_size p / 16) by (apply Z.div_le_lower_bound; lia). assert (curr_size p / 32 ≤ 2 ^ 63) by (apply Z.div_le_upper_bound; lia). lia. }
  destruct (Z.eqb_spec area 0); [lia|]. pose proof (Z.div_mod offset area ltac:(lia)) as Hdm. pose proof (Z.mod_pos_bound offset area ltac:(lia)) as Hm.
  assert (Hq : 0 ≤ offset / area) by (apply Z.div_pos; lia). set (q := offset / area) in *.
  destruct (srv_flush_neighbors =? 1); [|apply wp_ret; cbn; split; [done|nia]].
  change (fset p_pool ?x (MkPSt _ ?y ?z ?w)) with (MkPSt x y z w).
  apply wp_bind, (wp_mono _ (λ low st', st' = MkPSt p c a v ∧ q * area ≤ low ≤ offset)).
  - destruct (Z.ltb_spec (q * area) offset); [|apply wp_ret; split; [done|nia]]. apply wp_bind.
    eapply wp_mono; [apply dirty_below_ok; [done|nia|lia|nia]|]. cbn beta. intros i st' [-> Hi]. by apply wp_ret.
  - cbn beta. intros low st' [-> Hl]. apply wp_bind. eapply wp_mono; [apply dirty_above_ok; [done|nia|nia]|].
    cbn beta. intros high st' [-> Hh]. apply wp_ret. cbn. split; [done|nia].
Qed.

(** The page itself is written, whatever the limits. *)
Lemma try_neighbors_ok t st b r n_flushed n_to_flush : batch_type t → Busy t st →
  blocks (p_pool st) !! b = Some r → bp_state r = BUF_BLOCK_FILE_PAGE → oldest_modification r ≠ 0 →
  wp (buf_flush_try_neighbors (bp_space r) (bp_offset r) t n_flushed n_to_flush) (λ n st', Batch t st st' ∧ 0 ≤ n ≤ 64 ∧
    ∃ r', blocks (p_pool st') !! b = Some r' ∧ io_fix r' = BUF_IO_WRITE) st.
Proof.
  intros Ht HB Hb Hs Ho. unfold buf_flush_try_neighbors. pose proof (bz_inv _ _ HB) as [[_ HT] _].
  pose proof (bo_hash _ _ _ _ _ _ (tb_blocks _ _ _ _ _ HT b r Hb) Hs) as Hk.
  destruct (bz_disk _ _ HB _ _ Hk) as (_ & Hoff & Hd & _). cbn [snd page_key] in Hoff. apply size_law in Hd.
  apply wp_bind. eapply wp_mono; [by apply (flush_area_ok t)|]. cbn beta. intros [low high0] st' (-> & Hlow & Hhigh & Har). cbn [fst snd] in *.
  cbn iota. destruct st as [p c a v]. apply wp_bind, wp_io_look. cbn [p_pool p_io] in *. set (high := Z.min high0 _).
  assert (Hh : bp_offset r < high ≤ high0) by (unfold high; cbn [fst snd page_key] in *; lia). cbn zeta.
  apply (wp_loop (λ x st', Batch t (MkPSt p c a v) st' ∧ low ≤ x.1 ≤ high ∧ 0 ≤ x.2 ≤ x.1 - low ∧
    (bp_offset r < x.1 → ∃ r', blocks (p_pool st') !! b = Some r' ∧ io_fix r' = BUF_IO_WRITE)) (λ x _, Z.to_nat (high - x.1))).
  - cbn. lia.
  - cbn [fst snd]. split_and!; [by apply Batch_refl|lia..|]. lia.
  - intros [i count] st' (HBt & Hi & Hc & Hw). cbn [fst snd] in *. destruct (Z.ltb_spec i high) as [Hlt|Hge].
    2:{ apply wp_ret. split_and!; [done|lia|lia|]. apply Hw. lia. }
    set (enough := n_to_flush <=? _). destruct (enough && (bp_offset r <? i)) eqn:Ee.
    { apply wp_ret. apply andb_prop in Ee as [_ Ee%Z.ltb_lt]. split_and!; [done|lia|lia|]. by apply Hw. }
    set (j := if enough then bp_offset r else i).
    assert (Hj : i ≤ j < high ∧ (bp_offset r < j → bp_offset r < i)).
    { unfold j. destruct enough; [|lia]. cbn [andb] in Ee. apply Z.ltb_ge in Ee. lia. }
    apply wp_bind. eapply wp_mono; [apply try_neighbor_ok; [done|apply HBt]|]. cbn beta. intros flushed st2 [HBt2 Hw2]. apply wp_ret.
    cbn [fst snd]. split; [|lia]. split_and!; [by eapply Batch_trans|lia|lia|destruct flushed; lia|destruct flushed; lia|].
    intros Hgt. destruct (Z.eq_dec j (bp_offset r)) as [Ej|Ej].
    + destruct (bt_blocks _ _ _ HBt b r Hb) as (r1 & Hr1 & G1 & G2 & G3 & _). apply (Hw2 b r1); [done| |done|congruence].
      assert (page_hash (p_pool st') = page_hash p) as -> by exact (f_equal (λ x, x.1.1.1.2) (bt_lists _ _ _ HBt)). by rewrite Ej.
    + destruct Hw as (r1 & Hr1 & Hio); [lia|]. destruct (bt_blocks _ _ _ HBt2 b r1 Hr1) as (r2 & Hr2 & _ & _ & _ & Hg). exists r2. auto.
Qed.

Lemma page_and_neighbors_ok t st b r n_to_flush count : batch_type t → Busy t st →
  blocks (p_pool st) !! b = Some r → bp_state r = BUF_BLOCK_FILE_PAGE →
  wp (buf_flush_page_and_try_neighbors b t n_to_flush count) (λ x st', Batch t st st' ∧ (0 ≤ count < 2 ^ 63 → count ≤ x.2 ≤ count + 64) ∧
    (oldest_modification r ≠ 0 → ∃ r', blocks (p_pool st') !! b = Some r' ∧ io_fix r' = BUF_IO_WRITE)) st.
Proof.
  intros Ht HB Hb Hs. unfold buf_flush_page_and_try_neighbors. apply wp_bind, (in_file_ok st b r); [done|done|].
  apply wp_bind, (ready_ok t st b r); [done|done|done| |].
  - intros Hq Ho. apply wp_bind, (block_ok st b r); [done|]. apply wp_bind. eapply wp_mono; [by apply (try_neighbors_ok t st b r)|].
    cbn beta. intros n st' (HBt & Hn & Hw). apply wp_ret. cbn [snd].
    split_and!; [done|intros Hc; rewrite wrap_small; lia|done].
  - intros Hno. apply wp_ret. cbn [snd]. split_and!; [by apply Batch_refl|lia|]. intros Ho. destruct Hno as [[_ ?]|?]; [done|by exists r].
Qed.

(** ** The end of a batch *)

Lemma complete_all_ok t l st : Busy t st → NoDup l →
  (∀ b, b ∈ l → ∃ r, blocks (p_pool st) !! b = Some r ∧ bp_state r = BUF_BLOCK_FILE_PAGE ∧ writing t r) →
  wp (for_each (λ b, buf_page_io_complete b ;; skip) l) (λ _ st', Busy t st' ∧ Keeps st st' ∧
    init_flush (p_pool st') t = init_flush (p_pool st) t ∧
    ∀ b r', blocks (p_pool st') !! b = Some r' →
      (b ∉ l) ∧ blocks (p_pool st) !! b = Some r' ∨ io_fix r' = BUF_IO_NONE ∧ oldest_modification r' = 0) st.
Proof.
  revert st. induction l as [|b l IH]; intros st HB Hn Hl; cbn [for_each].
  { apply wp_ret. split_and!; [done|done|done|]. intros b r' Hb. left. split; [apply not_elem_of_nil|done]. }
  apply NoDup_cons in Hn as [Hbl Hn]. destruct (Hl b ltac:(by left)) as (r & Hb & Hs & Hw). apply wp_bind, wp_bind.
  eapply wp_mono; [by apply (write_complete_ok t st b r)|]. cbn beta. intros _ st1 (HB1 & HK1 & Eb & Ei). apply wp_ret.
  eapply wp_mono; [apply IH; [done|done|]|].
  { intros x Hx. destruct (Hl x ltac:(by right)) as (rx & ? & ? & ?). exists rx. split_and!; [|done|done]. rewrite Eb, lookup_insert_ne; [done|congruence]. }
  cbn beta. intros _ st2 (HB2 & HK2 & Ei2 & Hbl2). split_and!; [done|by etrans|congruence|]. intros x rx Hx. destruct (Hbl2 x rx Hx) as [[Hxl Hx1]|?]; [|by right].
  rewrite Eb in Hx1. destruct (decide (x = b)) as [->|Hne].
  - rewrite lookup_insert_eq in Hx1. apply (inj Some) in Hx1 as <-. by right.
  - rewrite lookup_insert_ne in Hx1 by done. left. split; [by apply not_elem_of_cons|done].
Qed.

(** When the batch has ended, nobody uses a page again, and the pages still dirty
    are those that were not being written. *)
Lemma pending_writing t st b : Busy t st → b ∈ pending t (p_pool st) ↔ is_writing t (blocks (p_pool st)) b.
Proof.
  intros HB. pose proof (bz_inv _ _ HB) as [[_ HT] _]. unfold pending. rewrite list_elem_of_filter. unfold in_write. split.
  - intros [Hw Hin]. destruct (in_pool _ b (proj1 (bz_inv _ _ HB)) Hin) as (r & Hb & Hs). exists r. split_and!; [done|done|].
    rewrite Hb in Hw. apply andb_prop in Hw as [Hio%bool_decide_eq_true _].
    destruct (bz_blocks _ _ HB b r Hb Hs) as [(E & _)|[? _]]; [congruence|done].
  - intros (r & Hb & Hs & (Hio & Hft & _)). rewrite Hb, Hio, Hft, !bool_decide_true by done. split; [done|].
    by apply (bo_lru _ _ _ _ _ _ (tb_blocks _ _ _ _ _ HT b r Hb)).
Qed.

(** The event is set only when no page is being written. *)
Lemma event_no_writes t st : Busy t st → no_flush (p_pool st) t = true → no_writes st.
Proof.
  intros HB He b r Hb Hs Hio. destruct (bz_batch _ _ HB) as [(W & HW & _ & T2 & _) _]. cbn [batch_state snd] in T2. rewrite T2 in He; [done|].
  assert (b ∈ W); [|set_solver]. apply HW. exists r. split_and!; [done|done|].
  destruct (bz_blocks _ _ HB b r Hb Hs) as [(E & _)|[? _]]; [congruence|done].
Qed.

Lemma wait_ok t st : batch_type t → Busy t st → init_flush (p_pool st) t = false →
  wp (buf_flush_wait_batch_end t) (λ _ st', Steady None st' ∧ Keeps st st' ∧
    ∀ b r', blocks (p_pool st') !! b = Some r' → bp_state r' = BUF_BLOCK_FILE_PAGE → oldest_modification r' ≠ 0 →
      blocks (p_pool st) !! b = Some r' ∧ io_fix r' ≠ BUF_IO_WRITE) st.
Proof.
  intros Ht HB Hi. unfold buf_flush_wait_batch_end. apply wp_bind. eapply wp_load; [done|].
  destruct (no_flush (p_pool st) t) eqn:Ee.
  { pose proof (event_no_writes t st HB Ee) as Hn. apply wp_ret. split_and!; [by apply (busy_steady t)|done|]. intros b r' Hb Hs _. split; [done|by apply (Hn b)]. }
  pose proof (bz_inv _ _ HB) as [[HL _] _]. apply wp_bind.
  eapply wp_mono; [apply (complete_all_ok t); [done|apply NoDup_filter, HL|intros b Hb; by apply pending_writing]|].
  cbn beta. intros _ st' (HB' & HK & Ei & Hbl). rewrite Hi in Ei.
  assert (Hnw : no_writes st').
  { intros b r' Hb Hs. destruct (Hbl b r' Hb) as [[Hn Hb0]|[-> _]]; [|done]. intros E. apply Hn, pending_writing; [done|]. exists r'. split_and!; [done|done|].
    destruct (bz_blocks _ _ HB b r' Hb0 Hs) as [(E' & _)|[? _]]; [congruence|done]. }
  apply wp_bind. eapply wp_load; [done|]. pose proof (f_equal snd (busy_event t st' HB' Ei Hnw)) as Hev. cbn in Hev. rewrite Hev. apply wp_ret.
  split_and!; [by apply (busy_steady t)|done|]. intros b r' Hb Hs Ho. split; [|by apply (Hnw b)].
  destruct (Hbl b r' Hb) as [[_ ?]|[_ ?]]; [done|done].
Qed.

Lemma tally_end W n i e : Tally W (n, i, e) → Tally W (n, false, if n =? 0 then true else e).
Proof.
  intros (T1 & T2 & T3). cbn [fst snd] in *. subst n. split_and!; cbn [fst snd]; [done| |by intros ->].
  intros Hne. destruct (Z.eqb_spec (Z.of_nat (size W)) 0) as [Hz|]; [|by apply T2]. destruct Hne. apply leibniz_equiv, size_empty_inv. lia.
Qed.

Lemma batch_end_ok {A} t st (x : A) (Φ : A → PSt V → Prop) n : batch_type t → Busy t st →
  (∀ st', Busy t st' → Keeps st st' → blocks (p_pool st') = blocks (p_pool st) → init_flush (p_pool st') t = false → Φ x st') →
  wp (buf_flush_end t ;; buf_flush_common t n ;; ret x) Φ st.
Proof.
  destruct st as [p c a v]. intros Ht HB HΦ. unfold buf_flush_end, buf_flush_common, note_init_flush, event_no_flush.
  assert (Hend : ∀ p', (tables_of p').1 = (tables_of p).1 → curr_size p' = curr_size p →
    batch_state p' t = (n_flush p t, false, if n_flush p t =? 0 then true else no_flush p t) → (∀ u, u ≠ t → batch_state p' u = batch_state p u) →
    wp (buf_flush_common t n ;; ret x) Φ (MkPSt p' c a v)).
  { intros p' E Ez Et Eu. assert (Eb : blocks p' = blocks p) by exact (f_equal (λ x, x.1.1.1.1.1.1.1) E). unfold buf_flush_common.
    assert ((bool_decide (t = BUF_FLUSH_LRU) || bool_decide (t = BUF_FLUSH_LIST)) = true) as -> by (by destruct Ht as [-> | ->]).
    apply wp_bind, wp_bind, wp_ret. apply wp_stat, wp_ret.
    destruct (busy_lists t p p' c (fset buf_pool_flushed (buf_pool_flushed c + n) c) a a v) as [HB' HK]; [done|done| |done|].
    - intros [(W & HW & HT) Ho]. split; [|intros u Hu Hne; rewrite Eu by done; by apply Ho]. exists W. rewrite Eb, Et. split; [done|].
      by eapply tally_end.
    - apply HΦ; [done|done|done|]. exact (f_equal (λ x, x.1.2) Et). }
  apply wp_bind, wp_pool, wp_bind. eapply wp_modify; [done|]. apply wp_bind. eapply wp_store; [done|]. cbn [poke glob].
  apply wp_bind. eapply wp_load; [done|]. cbn [peek glob n_flush fset set_try_LRU_scan set_init_flush].
  destruct (n_flush p t =? 0) eqn:En; cbn [when]; [eapply wp_modify; [done|]|apply wp_ret];
    (apply Hend; [done|done|unfold batch_state; cbn; by rewrite ?decide_True|intros u Hu; unfold batch_state; cbn; by rewrite ?decide_False]).
Qed.

(** Between batches a batch can always be started. *)
Lemma batch_start_ok t st (Φ : bool → PSt V → Prop) : batch_type t → Steady None st →
  (∀ st', Busy t st' → Keeps st st' → Φ true st') →
  wp (buf_flush_start t) Φ st.
Proof.
  destruct st as [p c a v]. intros Ht HS HΦ. pose proof (idle_batch t p (sd_idle _ _ HS) Ht) as Hid.
  unfold buf_flush_start, note_init_flush. apply wp_bind, wp_pool. eapply wp_load; [done|].
  apply wp_bind, wp_pool. eapply wp_load; [done|]. cbn [peek glob]. rewrite (f_equal fst Hid : n_flush p t = 0), (f_equal snd Hid : init_flush p t = false).
  cbn [orb Z.ltb Z.compare]. apply wp_bind, wp_pool. eapply wp_modify; [done|]. cbn [poke glob]. apply wp_ret. set (p' := fset init_flush _ _).
  destruct HS as [HI Hq Hw Hr Ha Hd Ho Hi]. apply HΦ.
  - split; try done.
    + by apply (Inv_lists p p' c c a a v).
    + split.
      * exists ∅. split; [|unfold p', batch_state in *; cbn; rewrite decide_True by done; split_and!; [exact (f_equal fst Hid)|done|done]].
        intros b. split; [done|]. intros (r & Hb & Hs & (Hio & _)). destruct (Hq b r ltac:(done) Hb Hs) as (? & _). congruence.
      * intros u Hu Hne. pose proof (idle_batch u p Hi Hu) as Hu'. unfold p', batch_state, ended in *. cbn in *. by rewrite decide_False.
    + intros b r Hb Hs. left. by apply (Hq b r).
  - split; [|by intros k]. intros k. by rewrite (content_lists p p' c c a a v).
Qed.

(** ** A batch over the flush list *)

Lemma prev_last l1 b l2 : NoDup (l1 ++ b :: l2) → UT_LIST_GET_PREV (l1 ++ b :: l2) b = last l1.
Proof.
  intros Hn. destruct l1 as [|x l1 _] using rev_ind.
  - cbn [app last]. destruct l2 as [|y l2]; [done|]. cbn in Hn. apply NoDup_cons in Hn as [Hb _]. apply not_elem_of_cons in Hb as [Hb Hl].
    assert (∀ z l, b ∉ l → UT_LIST_GET_PREV (z :: l) b = None) as Hnone.
    { intros z l. revert z. induction l as [|w l IH]; intros z Hz; [done|]. apply not_elem_of_cons in Hz as [Hw Hz].
      cbn -[Z.eqb]. destruct (Z.eqb_spec w b); [congruence|]. by apply IH. }
    apply Hnone. by apply not_elem_of_cons.
  - rewrite <- app_assoc in *. cbn in *. rewrite prev_of by done. by rewrite last_snoc.
Qed.

Lemma flush_list_length t st : Busy t st → Z.of_nat (length (flush_list (p_pool st))) < 2 ^ 32.
Proof.
  intros HB. destruct (bz_inv _ _ HB) as [[_ HT] _]. pose proof (tb_size _ _ _ _ _ HT).
  assert (length (flush_list (p_pool st)) ≤ size (blocks (p_pool st)))%nat; [|lia].
  rewrite <- size_dom, <- (size_list_to_set (C := gset Z) (flush_list (p_pool st))) by apply HT. apply subseteq_size.
  intros x. rewrite elem_of_list_to_set, elem_of_dom. intros Hx. apply (tb_dom _ _ _ _ _ HT). by right; right.
Qed.

(** The blocks behind the scan are being written. *)
Definition scanned st (l : list Z) : Prop := ∀ b, b ∈ l → ∃ r, blocks (p_pool st) !! b = Some r ∧ io_fix r = BUF_IO_WRITE.

Lemma scanned_grown st st' l : Grown st st' → scanned st l → scanned st' l.
Proof. intros HG Hsc b Hb. destruct (Hsc b Hb) as (r & Hr & Hio), (HG b r Hr) as (r' & Hr' & _ & _ & _ & Hw). exists r'. auto. Qed.

Lemma set_hp_ok t st o (Φ : unit → PSt V → Prop) : batch_type t → Busy t st →
  (∀ st', Busy t st' → Keeps st st' → blocks (p_pool st') = blocks (p_pool st) → flush_list (p_pool st') = flush_list (p_pool st) →
    flush_list_hp (p_pool st') = o → Φ tt st') → wp (pool (buf_flush_set_hp o)) Φ st.
Proof.
  destruct st as [p c a v]. intros Ht HB HΦ. unfold buf_flush_set_hp. apply wp_pool. eapply wp_store; [done|]. cbn [poke glob].
  destruct (busy_tables t p (fset flush_list_hp o p) c c a a v) as [HB' HK]; [done|done|done|]. by apply HΦ.
Qed.

Lemma lsns_elem m (l : list Z) b r : b ∈ l → m !! b = Some r → oldest_modification r ∈ lsns m l.
Proof. intros Hb Hr. apply list_elem_of_omap. exists b. by rewrite Hr. Qed.

Lemma flush_step_ok st l1 b l2 min_n count : Busy BUF_FLUSH_LIST st → flush_list (p_pool st) = l1 ++ b :: l2 → scanned st l2 →
  0 ≤ count ≤ 64 * Z.of_nat (length l2) →
  wp (flush_list_step min_n b (Z.of_nat (length (l1 ++ [b]))) count) (λ x st', Busy BUF_FLUSH_LIST st' ∧ Keeps st st' ∧ Grown st st' ∧
    flush_list (p_pool st') = l1 ++ b :: l2 ∧ scanned st' (b :: l2) ∧
    x.1 = (last l1, Z.of_nat (length l1)) ∧ 0 ≤ x.2 ≤ 64 * Z.of_nat (length (b :: l2))) st.
Proof.
  intros HB El Hsc Hc. pose proof (bz_inv _ _ HB) as [[_ HT] _]. pose proof (flush_list_length _ _ HB) as Hlen. rewrite El, length_app in Hlen. cbn in Hlen.
  destruct (tb_dom _ _ _ _ _ HT b) as [r Hb]; [right; right; rewrite El; set_solver|].
  destruct (proj1 (bo_flush _ _ _ _ _ _ (tb_blocks _ _ _ _ _ HT b r Hb))) as [Hs Ho]; [rewrite El; set_solver|].
  assert (Hpos : 0 < oldest_modification r).
  { destruct (bz_order _ _ HB) as [_ Hf]. rewrite Forall_forall in Hf. apply Hf, (lsns_elem _ _ b); [rewrite El; set_solver|done]. }
  unfold flush_list_step. apply wp_bind, (block_ok st b r); [done|].
  assert (Hflags : target_rw_cmd r = false ∧ use_rw_cmd r = false).
  { destruct (bz_blocks _ _ HB b r Hb Hs) as [(_ & _ & ? & ?)|[(_ & _ & _ & ? & ? & _) _]]; done. }
  destruct Hflags as [-> ->]. cbn [orb]. assert ((0 <? oldest_modification r) = true) as -> by (by apply Z.ltb_lt).
  apply wp_bind. apply (wp_mono _ (λ l st', l = l1 ++ b :: l2 ∧ st' = st)); [destruct st as [p c a v]; apply wp_pool; eapply wp_load; [done|by rewrite <- El]|].
  intros l st' [-> ->]. cbn zeta. rewrite prev_last by (rewrite <- El; apply HT). apply wp_bind, wp_ret.
  apply wp_bind, (set_hp_ok BUF_FLUSH_LIST); [by right|done|]. intros st1 HB1 HK1 Eb1 El1 Ehp1. apply wp_bind.
  eapply wp_mono; [apply (page_and_neighbors_ok BUF_FLUSH_LIST st1 b r); [by right|done|by rewrite Eb1|done]|].
  cbn beta. intros [rel n] st2 (HBt & Hn & Hw). cbn [snd] in Hn. specialize (Hn ltac:(lia)). cbn iota.
  assert (Ehp2 : flush_list_hp (p_pool st2) = last l1) by (rewrite <- Ehp1; exact (f_equal (λ x, x.1.2) (bt_lists _ _ _ HBt))).
  assert (El2 : flush_list (p_pool st2) = l1 ++ b :: l2) by (rewrite <- El, <- El1; exact (f_equal (λ x, x.1.1.1.1.2) (bt_lists _ _ _ HBt))).
  apply wp_bind. apply (wp_mono _ (λ x st', x = true ∧ st' = st2)).
  { destruct st2 as [p2 c2 a2 v2]. apply wp_pool. unfold buf_flush_is_hp. apply wp_bind. eapply wp_load; [done|]. apply wp_ret. cbn [p_pool] in Ehp2.
    split; [by apply bool_decide_true|done]. }
  intros x st' [-> ->]. cbn [negb]. apply wp_bind, (set_hp_ok BUF_FLUSH_LIST); [by right|apply HBt|]. intros st3 HB3 HK3 Eb3 El3 _. apply wp_ret.
  assert (HG : Grown st st3).
  { intros x rx Hx. destruct (bt_blocks _ _ _ HBt x rx) as (r' & Hr' & HG); [by rewrite Eb1|]. exists r'. by rewrite Eb3. }
  split_and!; [done| |done|congruence| | | |].
  - etrans; [exact HK1|]. etrans; [apply HBt|done].
  - intros x [->|Hx]%elem_of_cons; [|by apply (scanned_grown st st3 l2)]. rewrite Eb3. by apply Hw.
  - cbn [fst]. f_equal. rewrite length_app. cbn. rewrite wrap_small by lia. lia.
  - cbn [snd]. lia.
  - cbn [snd length]. lia.
Qed.

(** The flush list is in order: what is in front of a page was modified later. *)
Lemma in_front st l1 b r l2 x rx : Ordered st → flush_list (p_pool st) = l1 ++ b :: l2 → blocks (p_pool st) !! b = Some r →
  x ∈ l1 → blocks (p_pool st) !! x = Some rx → oldest_modification r ≤ oldest_modification rx.
Proof.
  intros [Ho _] El Hb Hx Hrx. rewrite El in Ho. unfold lsns in Ho. rewrite omap_app in Ho. cbn in Ho. rewrite Hb in Ho. cbn in Ho.
  assert (Z.ge (oldest_modification rx) (oldest_modification r)); [|lia]. eapply StronglySorted_app_1_elem_of; [exact Ho| |by left].
  by apply (lsns_elem _ l1 x).
Qed.

(** The scan has come to the end of [l1]. *)
Definition Scan st (x : option Z * Z * Z) st' : Prop := Busy BUF_FLUSH_LIST st' ∧ Keeps st st' ∧ Grown st st' ∧
  flush_list (p_pool st') = flush_list (p_pool st) ∧ ∃ l1 l2, flush_list (p_pool st) = l1 ++ l2 ∧ x.1 = (last l1, Z.of_nat (length l1)) ∧
    scanned st' l2 ∧ 0 ≤ x.2 ≤ 64 * Z.of_nat (length l2).
(** If it is not stopped by [min_n], every page that was modified before [lsn_limit]
    is being written. *)
Definition Swept min_n lsn_limit st n st' : Prop := Busy BUF_FLUSH_LIST st' ∧ Keeps st st' ∧ 0 ≤ n < 2 ^ 38 ∧
  (n < min_n → ∀ b r, blocks (p_pool st') !! b = Some r → bp_state r = BUF_BLOCK_FILE_PAGE → oldest_modification r ≠ 0 →
     oldest_modification r < lsn_limit → io_fix r = BUF_IO_WRITE).

Lemma flush_list_batch_ok min_n lsn_limit st : Busy BUF_FLUSH_LIST st →
  wp (buf_do_flush_list_batch min_n lsn_limit) (Swept min_n lsn_limit st) st.
Proof.
  intros HB. unfold buf_do_flush_list_batch. apply wp_bind.
  apply (wp_mono _ (λ l st', l = flush_list (p_pool st) ∧ st' = st)); [destruct st as [p c a v]; apply wp_pool; by eapply wp_load|].
  intros l st0 [-> ->]. pose proof (flush_list_length _ _ HB) as Hlen. apply (wp_loop (Scan st) (λ x _, Z.to_nat x.1.2)).
  { cbn. lia. }
  { split_and!; [done|done|done|done|]. exists (flush_list (p_pool st)), []. rewrite app_nil_r.
    split_and!; [done|done|by intros b Hb%not_elem_of_nil|done|done]. }
  intros [[bpage len] count] st' (HB' & HK & HG & El & l1 & l2 & E & Ex & Hsc & Hc). cbn [fst snd] in *. injection Ex as -> ->.
  rewrite E, length_app in Hlen.
  assert (Hend : (∀ b r, b ∈ l1 → blocks (p_pool st) !! b = Some r → oldest_modification r < lsn_limit → count < min_n → False) →
    Swept min_n lsn_limit st count st').
  { intros Hno. split_and!; [done|done|lia|lia|]. intros Hlt b r Hr Hs Ho Hlim. pose proof (bz_inv _ _ HB') as [[_ HT'] _].
    assert (Hb : b ∈ flush_list (p_pool st')) by (by apply (bo_flush _ _ _ _ _ _ (tb_blocks _ _ _ _ _ HT' b r Hr))).
    rewrite El, E, elem_of_app in Hb. destruct Hb as [Hb|Hb]; [|destruct (Hsc b Hb) as (r1 & Hr1 & ?); congruence].
    pose proof (bz_inv _ _ HB) as [[_ HT] _]. destruct (tb_dom _ _ _ _ _ HT b) as [r0 Hr0]; [right; right; rewrite E; set_solver|].
    destruct (HG b r0 Hr0) as (r1 & Hr1 & _ & _ & Eo & _). rewrite Hr in Hr1. apply (inj Some) in Hr1 as <-.
    destruct (Hno b r0 Hb Hr0); [lia|done]. }
  destruct (last l1) as [b|] eqn:Elast.
  2:{ apply last_None in Elast as ->. apply wp_ret, Hend. intros b r Hb. by apply not_elem_of_nil in Hb. }
  apply last_Some in Elast as [l1' ->]. destruct (Z.ltb_spec count min_n) as [Hlt|Hge]; cbn [andb].
  2:{ apply wp_ret, Hend. intros; lia. }
  assert ((0 <? Z.of_nat (length (l1' ++ [b]))) = true) as -> by (rewrite length_app; cbn; apply Z.ltb_lt; lia).
  rewrite <- app_assoc in E. cbn [app] in E. pose proof (bz_inv _ _ HB) as [[_ HT] _].
  destruct (tb_dom _ _ _ _ _ HT b) as [r Hb]; [right; right; rewrite E; set_solver|]. destruct (HG b r Hb) as (r' & Hr' & _ & _ & Eo & _).
  apply wp_bind. apply (wp_mono _ (λ o st2, o = oldest_modification r' ∧ st2 = st')).
  { destruct st' as [p c a v]. cbn [p_pool] in Hr'. apply wp_pool. eapply wp_load; [cbn; by rewrite Hr'|]. done. }
  intros o st2 [-> ->]. rewrite Eo. destruct (Z.ltb_spec (oldest_modification r) lsn_limit) as [Hl|Hg].
  - apply wp_bind. eapply wp_mono; [apply (flush_step_ok st' l1' b l2); [done|congruence|done|done]|].
    cbn beta. intros [x n] st2 (HB2 & HK2 & HG2 & El2 & Hsc2 & Ex2 & Hc2). apply wp_ret. cbn [fst snd] in *. subst x. cbn [fst snd]. split.
    + split_and!; [done|by etrans|by etrans|congruence|]. exists l1', (b :: l2). split_and!; [done|done|done|cbn [snd length] in *; lia..].
    + rewrite length_app. cbn. lia.
  - apply wp_ret, Hend. intros x rx Hx Hrx Ho _. apply elem_of_app in Hx as [Hx|Hx%list_elem_of_singleton].
    + pose proof (in_front st l1' b r l2 x rx (bz_order _ _ HB) E Hb Hx Hrx). lia.
    + subst x. rewrite Hb in Hrx. apply (inj Some) in Hrx as <-. lia.
Qed.

(** ** A batch over the LRU list *)

(** The place of a block in a list, from 1. *)
Fixpoint rank (l : list Z) (b : Z) : nat :=
  match l with [] => 0 | x :: l => if x =? b then 1 else S (rank l b) end.

Lemma rank_le l b : (rank l b ≤ length l)%nat.
Proof. induction l as [|x l IH]; cbn; [lia|]. case_match; lia. Qed.
Lemma rank_split l1 b l2 : b ∉ l1 → rank (l1 ++ b :: l2) b = S (length l1).
Proof.
  induction l1 as [|x l1 IH]; cbn; intros Hb; [by rewrite Z.eqb_refl|]. apply not_elem_of_cons in Hb as [Hx Hb].
  destruct (Z.eqb_spec x b); [congruence|]. by rewrite IH.
Qed.
Lemma rank_prev l b x : NoDup l → b ∈ l → UT_LIST_GET_PREV l b = Some x → x ∈ l ∧ (rank l x < rank l b)%nat.
Proof.
  intros Hn (l1 & l2 & ->)%list_elem_of_split. rewrite prev_last by done. intros (l1' & ->)%last_Some. rewrite <- app_assoc in *. cbn [app] in *.
  split; [set_solver|]. apply NoDup_app in Hn as (_ & Hx & Hn). rewrite rank_split by (intros Hx'; apply (Hx x Hx'); by left).
  rewrite (app_assoc l1' [x] (b :: l2) : l1' ++ x :: b :: l2 = (l1' ++ [x]) ++ b :: l2), rank_split.
  - rewrite length_app. cbn. lia.
  - rewrite elem_of_app, list_elem_of_singleton. intros [Hb| ->]; [apply (Hx b Hb); by right; left|]. apply NoDup_cons in Hn as [Hn _]. apply Hn. by left.
Qed.

(** Every step moves towards the head of the list or frees a block. *)
Definition to_scan (o : option Z) st : nat :=
  let n := length (pool_LRU (p_pool st)) in n * n + match o with Some b => rank (pool_LRU (p_pool st)) b | None => 0 end.

Definition LruScan st (x : option Z * Z) st' : Prop := Busy BUF_FLUSH_LRU st' ∧ Keeps st st' ∧ ∀ b, x.1 = Some b → b ∈ pool_LRU (p_pool st').

Lemma prev_scan st b o count : Busy BUF_FLUSH_LRU st → b ∈ pool_LRU (p_pool st) →
  (∀ x, o = Some x → UT_LIST_GET_PREV (pool_LRU (p_pool st)) b = Some x) → LruScan st (o, count) st ∧ (to_scan o st < to_scan (Some b) st)%nat.
Proof.
  intros HB Hb Ho. pose proof (bz_inv _ _ HB) as [[HL _] _]. pose proof (cn_nodup _ (proj1 HL)) as Hn. unfold to_scan. destruct o as [x|].
  - destruct (rank_prev _ b x Hn Hb (Ho x eq_refl)) as [Hx Hr]. split; [|lia]. split_and!; [done|done|]. by intros y [= <-].
  - split; [by split_and!|]. apply list_elem_of_split in Hb as (l1 & l2 & E). rewrite E in *.
    apply NoDup_app in Hn as (_ & Hn & _). rewrite rank_split; [lia|]. intros Hb. apply (Hn b Hb). by left.
Qed.

Lemma lru_ok st (Φ : list Z → PSt V → Prop) : Φ (pool_LRU (p_pool st)) st → wp (pool (!(glob pool_LRU))) Φ st.
Proof. destruct st as [p c a v]. intros HΦ. apply wp_pool. by eapply wp_load. Qed.

Lemma LRU_step_ok st b max count : Busy BUF_FLUSH_LRU st → b ∈ pool_LRU (p_pool st) →
  wp (LRU_batch_step max b count) (λ x st', LruScan st x st' ∧ (to_scan x.1 st' < to_scan (Some b) st)%nat) st.
Proof.
  intros HB Hin. pose proof (bz_inv _ _ HB) as HI. pose proof HI as [[HL HT] _].
  destruct (in_pool _ b (proj1 HI) Hin) as (r & Hb & Hs). unfold LRU_batch_step.
  apply wp_bind, (block_ok st b r); [done|]. apply wp_bind, lru_ok. cbn zeta. set (prev := UT_LIST_GET_PREV _ b).
  destruct (target_rw_cmd r || use_rw_cmd r); [apply wp_ret; cbn [fst]; by apply prev_scan|].
  apply wp_bind. apply (wp_mono _ (λ x st', x = replaceable r ∧ st' = st)).
  { destruct st as [p c a v]. by apply (ready_for_replace_ok p b r). }
  intros evict st' [-> ->]. destruct (replaceable r) eqn:Er.
  - apply wp_bind. destruct st as [p c a v]. eapply wp_mono; [by apply (free_page_ok p b r)|]. cbn beta. intros ok st' (-> & HF). pose proof HF as (HS & Ef & Ea & _).
    apply wp_bind, lru_ok, wp_ret. cbn [fst]. destruct (busy_freed _ _ _ _ _ (or_introl eq_refl) HB HF Hb) as [HB' HK]; [by apply replaceable_spec in Er as (_ & _ & _ & _ & ->)|]. unfold available in Ea. cbn [p_pool] in *.
    rewrite Ef in Ea. cbn [length] in Ea. assert (Hlen : length (pool_LRU p) = S (length (pool_LRU (p_pool st')))) by lia. split.
    + split_and!; [done|done|]. cbn [fst]. intros x (l & ->)%last_Some. set_solver.
    + unfold to_scan. cbn [p_pool]. rewrite Hlen. destruct (last (pool_LRU (p_pool st'))) as [x|]; [pose proof (rank_le (pool_LRU (p_pool st')) x)|]; nia.
  - apply wp_bind. apply (wp_mono _ (λ k st', st' = st ∧ match prev with
      | Some x => ∃ rx, blocks (p_pool st) !! x = Some rx ∧ bp_state rx = BUF_BLOCK_FILE_PAGE ∧ k = Some (page_key rx) | None => k = None end)).
    { destruct prev as [x|] eqn:Ep; [|by apply wp_ret]. destruct (rank_prev _ b x (cn_nodup _ (proj1 HL)) Hin Ep) as [Hx _].
      destruct (in_pool _ x (proj1 HI) Hx) as (rx & Hrx & Hsx). apply wp_bind, (block_ok st x rx); [done|]. apply wp_ret. split; [done|]. by exists rx. }
    intros k st' [-> Hk]. apply wp_bind.
    eapply wp_mono; [apply (page_and_neighbors_ok BUF_FLUSH_LRU st b r); [by left|done|done|done]|].
    cbn beta. intros [rel n] st' (HBt & _ & _). cbn iota.
    assert (El : pool_LRU (p_pool st') = pool_LRU (p_pool st)) by exact (f_equal (λ x, x.1.1.1.1.1.1) (bt_lists _ _ _ HBt)).
    assert (Eh : page_hash (p_pool st') = page_hash (p_pool st)) by exact (f_equal (λ x, x.1.1.1.2) (bt_lists _ _ _ HBt)).
    assert (Hend : ∀ m o, o = prev → LruScan st (o, m) st' ∧ (to_scan o st' < to_scan (Some b) st)%nat).
    { intros m o ->. destruct (prev_scan st' b prev m (bt_busy _ _ _ HBt)) as [HS Hlt]; [by rewrite El|by rewrite El; intros x <-|].
      split; [|unfold to_scan in *; by rewrite El in *]. destruct HS as (? & _ & ?). split_and!; [done|apply HBt|done]. }
    destruct rel; cbn [negb]; [|apply wp_ret; by apply Hend]. destruct prev as [x|] eqn:Ep.
    + destruct Hk as (rx & Hrx & Hsx & ->). cbn [page_key]. apply wp_bind, page_hash_get_ok; [apply HBt|]. apply wp_ret. apply Hend.
      rewrite Eh. by rewrite (bo_hash _ _ _ _ _ _ (tb_blocks _ _ _ _ _ HT x rx Hrx) Hsx : page_hash (p_pool st) !! (bp_space rx, bp_offset rx) = _).
    + subst k. apply wp_ret. by apply Hend.
Qed.

Lemma LRU_batch_ok max st : Busy BUF_FLUSH_LRU st →
  wp (buf_flush_LRU_list_batch max) (λ _ st', Busy BUF_FLUSH_LRU st' ∧ Keeps st st') st.
Proof.
  intros HB. unfold buf_flush_LRU_list_batch. apply wp_bind, lru_ok. cbn zeta. apply wp_bind.
  apply (wp_loop (LruScan st) (λ x st', to_scan x.1 st')).
  - unfold to_scan. cbn [fst]. case_match; [pose proof (rank_le (pool_LRU (p_pool st)) z)|]; lia.
  - split_and!; [done|done|]. cbn [fst]. intros b (l & ->)%last_Some. set_solver.
  - intros [bpage count] st' (HB' & HK & Hin). cbn [fst] in *. apply wp_bind.
    apply (wp_mono _ (λ _ st2, st2 = st')); [destruct st' as [p c a v]; apply wp_pool; by eapply wp_load|]. intros free st2 ->.
    assert (Hend : wp (modify (stat buf_lru_flush_page_count) (λ n, n + count) ;; ret count) (λ _ st', Busy BUF_FLUSH_LRU st' ∧ Keeps st st') st').
    { destruct st' as [p c a v]. apply wp_bind, wp_stat, wp_ret. destruct (busy_tables BUF_FLUSH_LRU p p c (fset buf_lru_flush_page_count (buf_lru_flush_page_count c + count) c) a a v) as [HB2 HK2]; [by left|done|done|].
      split; [done|by etrans]. }
    apply wp_bind, lru_ok. destruct bpage as [b|]; [|by apply wp_ret]. case_match; [|by apply wp_ret].
    apply wp_bind. eapply wp_mono; [apply LRU_step_ok; [done|by apply Hin]|]. cbn beta. intros x st2 ((HB2 & HK2 & Hin2) & Hlt). apply wp_ret.
    split; [|done]. split_and!; [done|by etrans|done].
Qed.

(** ** Batches *)

Lemma flush_list_ok min_n lsn_limit st : Steady None st →
  wp (buf_flush_list min_n lsn_limit) (λ x st', x.1 = true ∧ Busy BUF_FLUSH_LIST st' ∧ Keeps st st' ∧
    init_flush (p_pool st') BUF_FLUSH_LIST = false ∧ x.2 < 2 ^ 38 ∧
    (x.2 < min_n → ∀ b r, blocks (p_pool st') !! b = Some r → bp_state r = BUF_BLOCK_FILE_PAGE → oldest_modification r ≠ 0 →
       oldest_modification r < lsn_limit → io_fix r = BUF_IO_WRITE)) st.
Proof.
  intros HS. unfold buf_flush_list. apply wp_bind, (batch_start_ok BUF_FLUSH_LIST); [by right|done|].
  intros st1 HB1 HK1. cbn [negb]. apply wp_bind. eapply wp_mono; [by apply (flush_list_batch_ok min_n lsn_limit st1)|].
  cbn beta. intros n st2 (HB2 & HK2 & Hn & Hsw). apply (batch_end_ok BUF_FLUSH_LIST); [by right|done|].
  intros st3 HB3 HK3 Eb Ei. cbn [fst snd]. split_and!; [done|done| |done|lia|by rewrite Eb]. etrans; [exact HK1|]. by etrans.
Qed.

Lemma flush_LRU_ok min_n st : Steady None st →
  wp (buf_flush_LRU min_n) (λ x st', x.1 = true ∧ Busy BUF_FLUSH_LRU st' ∧ Keeps st st' ∧ init_flush (p_pool st') BUF_FLUSH_LRU = false) st.
Proof.
  intros HS. unfold buf_flush_LRU. apply wp_bind, (batch_start_ok BUF_FLUSH_LRU); [by left|done|].
  intros st1 HB1 HK1. cbn [negb buf_flush_batch]. apply wp_bind, (wp_mono _ (λ _ st', Busy BUF_FLUSH_LRU st' ∧ Keeps st1 st')).
  { unfold buf_do_LRU_batch. case_match; [by apply LRU_batch_ok|by apply wp_ret]. }
  intros n st2 (HB2 & HK2). apply (batch_end_ok BUF_FLUSH_LRU); [by left|done|].
  intros st3 HB3 HK3 _ Ei. cbn [fst]. split_and!; [done|done| |done]. etrans; [exact HK1|]. by etrans.
Qed.

(** The page cleaner's scan of the tail of the LRU list. *)
Lemma LRU_tail_ok st : Steady None st → wp buf_flush_LRU_tail (λ _ st', Steady None st' ∧ Keeps st st') st.
Proof.
  intros HS. unfold buf_flush_LRU_tail. apply wp_bind, lru_ok. cbn zeta. set (depth := Z.min _ _).
  apply (wp_loop (λ _ st', Steady None st' ∧ Keeps st st') (λ x _, Z.to_nat (depth - x.1))).
  - cbn [fst]. lia.
  - by split.
  - intros [j total] st1 [HS1 HK1]. destruct (Z.ltb_spec j depth) as [Hj|]; [|by apply wp_ret].
    apply wp_bind. eapply wp_mono; [by apply flush_LRU_ok|]. cbn beta. intros [ok n] st2 Hst2. cbn [fst] in Hst2. cbn iota. apply wp_bind.
    apply (wp_mono _ (λ _ st', Steady None st' ∧ Keeps st st')).
    + destruct Hst2 as (-> & HB2 & HK2 & Hi). cbn [when].
      eapply wp_mono; [apply (wait_ok BUF_FLUSH_LRU); [by left|done|done]|]. cbn beta. intros _ st3 (? & ? & _). split; [done|]. etrans; [exact HK1|]. by etrans.
    + intros _ st3 [HS3 HK3]. apply wp_ret. destruct (n =? 0); [done|]. split; [done|]. cbn [fst]. unfold PAGE_CLEANER_LRU_BATCH_CHUNK_SIZE. lia.
Qed.

(** A flush of the pages modified before [lsn]: afterwards none of them is dirty. *)
Lemma preflush_ok lsn st : Steady None st →
  wp (log_preflush_pool_modified_pages lsn) (λ ok st', ok = true ∧ Steady None st' ∧ Keeps st st' ∧
    ∀ b r, blocks (p_pool st') !! b = Some r → bp_state r = BUF_BLOCK_FILE_PAGE → oldest_modification r ≠ 0 → lsn ≤ oldest_modification r) st.
Proof.
  intros HS. unfold log_preflush_pool_modified_pages. apply wp_bind. eapply wp_mono; [by apply flush_list_ok|].
  cbn beta. intros [ok n] st1. cbn [fst snd]. intros (-> & HB1 & HK1 & Hi & Hn & Hw).
  cbn iota. apply wp_bind. eapply wp_mono; [apply (wait_ok BUF_FLUSH_LIST); [by right|done|done]|]. cbn beta. intros _ st2 (HS2 & HK2 & Hd). apply wp_ret.
  split_and!; [done|done|by etrans|]. intros b r Hb Hs Ho. destruct (Hd b r Hb Hs Ho) as [Hb1 Hio].
  destruct (Z.le_gt_cases lsn (oldest_modification r)) as [|Hlt]; [done|]. destruct Hio. apply (Hw ltac:(unfold ULINT_MAX; lia) b r Hb1 Hs Ho Hlt).
Qed.

(** The oldest modification in the pool. *)
Lemma oldest_ok st : Steady None st →
  wp buf_pool_get_oldest_modification (λ lsn st', st' = st ∧ (lsn = 0 ↔ flush_list (p_pool st) = []) ∧
    (∀ b r, blocks (p_pool st) !! b = Some r → bp_state r = BUF_BLOCK_FILE_PAGE → oldest_modification r ≠ 0 → 0 < lsn ≤ oldest_modification r) ∧
    (lsn ≠ 0 → ∃ b r, blocks (p_pool st) !! b = Some r ∧ bp_state r = BUF_BLOCK_FILE_PAGE ∧ oldest_modification r = lsn)) st.
Proof.
  intros HS. unfold buf_pool_get_oldest_modification. apply wp_bind. pose proof (sd_inv _ _ HS) as [[_ HT] _].
  apply (wp_mono _ (λ l st', l = flush_list (p_pool st) ∧ st' = st)); [destruct st as [p c a v]; apply wp_pool; by eapply wp_load|].
  intros l st' [-> ->]. assert (Hin : ∀ b r, blocks (p_pool st) !! b = Some r → bp_state r = BUF_BLOCK_FILE_PAGE → oldest_modification r ≠ 0 →
    b ∈ flush_list (p_pool st)).
  { intros b r Hb Hs Ho. by apply (bo_flush _ _ _ _ _ _ (tb_blocks _ _ _ _ _ HT b r Hb)). }
  destruct (last (flush_list (p_pool st))) as [b|] eqn:El.
  - apply last_Some in El as [l El]. destruct (tb_dom _ _ _ _ _ HT b) as [r Hb]; [right; right; rewrite El; set_solver|].
    destruct (proj1 (bo_flush _ _ _ _ _ _ (tb_blocks _ _ _ _ _ HT b r Hb))) as [Hs Ho]; [rewrite El; set_solver|].
    assert (Hpos : 0 < oldest_modification r).
    { destruct (sd_order _ _ HS) as [_ Hf]. rewrite Forall_forall in Hf. apply Hf, (lsns_elem _ _ b); [rewrite El; set_solver|done]. }
    apply (wp_mono _ (λ o st', o = oldest_modification r ∧ st' = st)).
    { destruct st as [p c a v]. cbn [p_pool] in Hb. apply wp_pool. eapply wp_load; [cbn; by rewrite Hb|]. done. }
    intros o st' [-> ->]. split_and!; [done|rewrite El; split; [lia|by intros [_ ?]%app_nil]| |by exists b, r].
    intros x rx Hx Hsx Hox. split; [done|]. pose proof (Hin x rx Hx Hsx Hox) as Hxl. rewrite El, elem_of_app, list_elem_of_singleton in Hxl.
    destruct Hxl as [Hxl| ->]; [by apply (in_front st l b r [] x rx (sd_order _ _ HS) El)|]. rewrite Hb in Hx. by apply (inj Some) in Hx as ->.
  - apply last_None in El. apply wp_ret. split_and!; [done|by rewrite El| |done]. intros b r Hb Hs Ho. pose proof (Hin b r Hb Hs Ho) as Hbl.
    rewrite El in Hbl. by apply not_elem_of_nil in Hbl.
Qed.
End batch_ok.
