(* ===== verification/MtrInv.v ===== *)
(** Mini-transactions on one page, over the buffer pool: reading and writing the
    data of pages through buf_page_get, mlog_write_string and mtr_commit, with batches
    of the page cleaner in between, is reading and writing a store of pages. *)
From S2P Require Import Prelude Frame HostLld Crc32 Fil PageFormat FilInv BufLru BufPool BufBatch BufInv BufStore BufEvict BufRead Mtr BufAccess BatchInv.

Section mtr_ok.
Context `{HostConfig} {Hok : HostConfigOk} `{PoolConfig} {V : Type} `{PageIoOk V}.
Implicit Types (p : buf_pool_t) (b : Z) (r : buf_block_t) (c : RwStat) (a : gset Z) (v : V) (st : PSt V).

(** ** The end of a mini-transaction *)

Definition released r : buf_block_t := fset buf_fix_count 0 (fset bl_lock (Shared 0) r).

Lemma release_ok p b r l c a v (Φ : unit → PSt V → Prop) :
  bp_state r = BUF_BLOCK_FILE_PAGE → buf_fix_count r = 1 → bl_lock r = latched l →
  Φ tt (MkPSt (at_block p b (released r)) c a v) → wp (pool (buf_page_release b l)) Φ (MkPSt (at_block p b r) c a v).
Proof.
  intros Hs Hfix Hl HΦ. unfold buf_page_release, buf_block_unfix, rw_lock_s_unlock, rw_lock_x_unlock.
  ssteps. rewrite Hs, bool_decide_true by done. ssteps. unfold released in HΦ. destruct l; cbn [latched] in Hl; ssteps; rewrite ?Hl; ssteps.
  1,2: change (buf_fix_count (fset bl_lock _ r)) with (buf_fix_count r); by rewrite Hfix.
  assert (fset bl_lock (Shared 0) r = r) as E by (destruct r; cbn in *; by rewrite Hl). rewrite E in HΦ. by rewrite Hfix.
Qed.

(** Requests that change no page. *)
Lemma Steady_io o p c c' a a' v v' : Steady o (MkPSt p c a v) → Wrote (disk v) v v' →
  Steady o (MkPSt p c' a' v') ∧ Env (MkPSt p c a v) (MkPSt p c' a' v') ∧
  ∀ k, content_of (MkPSt p c' a' v') k = content_of (MkPSt p c a v) k.
Proof.
  intros [[HP [S1 S2]] Hq Hw Hr Ha Hdk Hord Hid] (Ed & Hd & Edel & Elog). cbn [p_pool p_io] in *.
  assert (HE : Env (MkPSt p c a v) (MkPSt p c' a' v')).
  { intros k (? & ? & ? & ?). split; [done|]. split; [done|]. cbn [p_io] in *. by rewrite Ed, Edel. }
  split_and!; [|done|].
  - split; [split; [done|]|done|done|done|done|intros k b Hk; by eapply HE, Hdk|by apply (Ordered_sublist (MkPSt p c a v))|done]. cbn [p_pool p_io]. split; [by rewrite Ed|]. intros k page Hk. rewrite Ed in Hk.
    destruct (S2 k page Hk) as (? & ? & ?). split_and!; [done|done|lia].
  - intros k. unfold content_of, content. cbn [p_pool p_io]. by rewrite Ed.
Qed.

Lemma Held_io k l b r p c c' a a' v v' : Held k l b r (MkPSt p c a v) → Wrote (disk v) v v' → Held k l b r (MkPSt p c' a' v').
Proof. intros [HS Hb Hs Ek Hio Hfix Hl Hu Ht] HW. split; try done. by eapply Steady_io. Qed.

(** The client gives the page back; if it changed it, the page is in the flush
    list. *)
Lemma give_back k l b r p c a v p' r' c' a' : Held k l b r (MkPSt p c a v) →
  tables_of (fset flush_list [] p') = tables_of (fset flush_list [] (at_block p b r')) →
  flush_list p' = (if decide (oldest_modification r = 0 ∧ oldest_modification r' ≠ 0) then b :: flush_list p else flush_list p) →
  bp_old r' = bp_old r → quiet_block r' → bp_state r' = BUF_BLOCK_FILE_PAGE → page_key r' = k → bl_lock r' = Shared 0 →
  Z.of_nat (length (frame r')) = UNIV_PAGE_SIZE → (oldest_modification r' ≠ 0 → 0 < newest_modification r' < 2 ^ 64) →
  (oldest_modification r' = 0 → oldest_modification r = 0 ∧ frame r' = frame r) →
  oldest_modification r' = oldest_modification r ∨ oldest_modification r = 0 ∧
    Forall (λ lsn, lsn ≤ oldest_modification r') (lsns (blocks p) (flush_list p)) ∧ 0 < oldest_modification r' ≤ log_lsn v →
  let st' := MkPSt p' c' a' v in
  Steady None st' ∧ ∀ k', content_of st' k' = if decide (k' = k) then Some (frame r') else content_of (MkPSt p c a v) k'.
Proof.
  intros [HS Hb Hs Ek Hio Hfix Hl Hu Ht] E Efl Eo Hq Hs' Ek' Hl' Hlen Hlsn Hclean Hold. cbn [p_pool] in *.
  pose proof (sd_inv _ _ HS) as [[HL HT] HSt]. cbn [p_pool p_io] in *. pose proof (tb_blocks _ _ _ _ _ HT b r Hb) as HB.
  assert (lru_part p' = lru_part (at_block p b r')) as E1 by exact (f_equal (λ x, x.1.1.1.1) E). rewrite <- Ek in *.
  apply (steady_update (Some b) None p b r c a v p' r' c' a'); try done.
  - by right.
  - apply (LruOk_part _ _ E1). apply (LruOk_at p b r); [done|done|]. intros _. by rewrite Hs, Hs'.
  - by rewrite (f_equal (λ x, x.1.1.1.2) E1 : pool_LRU p' = _).
  - exact (f_equal (λ x, x.1.1.1.2) E).
  - exact (f_equal (λ x, x.1.2) E).
  - exact (f_equal snd E).
  - by rewrite (f_equal (λ x, x.1.1.1.1) E1 : blocks p' = _).
  - rewrite Efl. case_decide as Hd; [|apply HT]. constructor; [|apply HT]. rewrite (bo_flush _ _ _ _ _ _ HB). naive_solver.
  - intros x. rewrite Efl. case_decide as Hd; [rewrite elem_of_cons; naive_solver|]. split; [by left|]. intros [?|[-> Hx]]; [done|].
    apply (bo_flush _ _ _ _ _ _ HB). split; [done|]. naive_solver.
  - apply Hq.
  - intros Ho. destruct (Hclean Ho) as [Ho' ->]. split; [done|]. eapply so_clean; [exact HSt|done|done|done|]. by rewrite Hio.
  - by right.
  - assert (Em : unflagged <$> blocks p' = unflagged <$> <[b := r']> (blocks p)) by (by rewrite (f_equal (λ x, x.1.1.1.1) E1 : blocks p' = _)).
    destruct (sd_order _ _ HS) as [O1 O2]. cbn [p_pool p_io] in O1, O2. unfold Ordered. cbn [p_pool p_io]. rewrite Efl. case_decide as Hd.
    + assert (b ∉ flush_list p) as Hnd by (rewrite (bo_flush _ _ _ _ _ _ HB); intros [_ ?]; by destruct Hd).
      assert (lsns (blocks p') (b :: flush_list p) = oldest_modification r' :: lsns (blocks p) (flush_list p)) as ->.
      { rewrite <- (lsns_update _ _ _ b r' Em Hnd). pose proof (f_equal (.!! b) Em) as Eb. rewrite !lookup_fmap, lookup_insert_eq in Eb.
        unfold lsns. cbn. destruct (blocks p' !! b) as [r1|]; [|done]. apply (inj Some) in Eb. cbn. f_equal. exact (f_equal oldest_modification Eb). }
      destruct Hold as [?|(_ & Hle & Hlog)]; [destruct Hd; congruence|]. split; [constructor; [done|]|by constructor].
      eapply Forall_impl; [exact Hle|]. cbn. intros; lia.
    + assert (oldest_modification r' = oldest_modification r) as Eq by (destruct Hold as [?|(? & _)]; [done|]; destruct (decide (oldest_modification r' = 0)); [congruence|by destruct Hd]).
      by rewrite (lsns_same _ _ _ b r r' Em).
Qed.

(** ** The store *)

(** The data of a page: what is between the header and the trailer. *)
Definition DATA_SIZE := UNIV_PAGE_SIZE - FIL_PAGE_DATA - 8.
Definition data_of (page : page_t) : list Z := bytes_at page FIL_PAGE_DATA DATA_SIZE.

Lemma data_read page off len : FIL_PAGE_DATA ≤ off → 0 ≤ len → off + len ≤ UNIV_PAGE_SIZE - 8 →
  bytes_at (data_of page) (off - FIL_PAGE_DATA) len = bytes_at page off len.
Proof.
  unfold data_of, bytes_at, DATA_SIZE, FIL_PAGE_DATA. intros Ho Hl He. rewrite skipn_firstn_comm, take_take, drop_drop. f_equal; [lia|f_equal; lia].
Qed.

Lemma data_write page off str : Z.of_nat (length page) = UNIV_PAGE_SIZE → FIL_PAGE_DATA ≤ off →
  off + Z.of_nat (length str) ≤ UNIV_PAGE_SIZE - 8 →
  data_of (put_bytes page off str) = put_bytes (data_of page) (off - FIL_PAGE_DATA) str.
Proof.
  unfold data_of, bytes_at, put_bytes, DATA_SIZE, FIL_PAGE_DATA. intros Hlen Ho He.
  rewrite drop_app_le by (rewrite length_take; lia). rewrite !skipn_firstn_comm, take_take, !drop_drop.
  rewrite !take_app, !take_take, !length_take, !length_drop. f_equal; [f_equal; lia|]. f_equal; [apply take_ge; lia|]. f_equal; [lia|f_equal; lia].
Qed.

(** Mini-transactions on one page and batches in the background, and what they mean
    for a store of the data of pages. *)
Inductive page_op :=
| ReadBytes (space offset off len : Z)
| WriteBytes (space offset off : Z) (str : list Z)
| FlushList (min_n lsn_limit : Z)
| FlushTail.

Definition exec_op (tries fuel : nat) (op : page_op) : M (PSt V) (list Z) :=
  match op with
  | ReadBytes space offset off len =>
      '(b, mtr) <- buf_page_get tries fuel mtr_start space offset RW_S_LATCH ;;
      f <- pool (!((blk b)∙frame)) ;;
      mtr_commit mtr ;;
      ret (bytes_at f off len)
  | WriteBytes space offset off str =>
      '(b, mtr) <- buf_page_get tries fuel mtr_start space offset RW_X_LATCH ;;
      mtr <- mlog_write_string mtr b off str ;;
      mtr_commit mtr ;;
      ret []
  | FlushList min_n lsn_limit =>
      '(ok, _) <- buf_flush_list min_n lsn_limit ;;
      when ok (buf_flush_wait_batch_end BUF_FLUSH_LIST) ;;
      ret []
  | FlushTail => buf_flush_LRU_tail ;; ret []
  end.
Fixpoint exec_ops (tries fuel : nat) (ops : list page_op) : M (PSt V) (list (list Z)) :=
  match ops with
  | [] => ret []
  | op :: ops => x <- exec_op tries fuel op ;; xs <- exec_ops tries fuel ops ;; ret (x :: xs)
  end.

Definition store := Z * Z → option (list Z).
Definition store_op (op : page_op) (s : store) : list Z * store :=
  match op with
  | ReadBytes space offset off len => (bytes_at (default [] (s (space, offset))) (off - FIL_PAGE_DATA) len, s)
  | WriteBytes space offset off str =>
      ([], λ k, if decide (k = (space, offset)) then (λ d, put_bytes d (off - FIL_PAGE_DATA) str) <$> s k else s k)
  | FlushList _ _ | FlushTail => ([], s)
  end.
Fixpoint store_ops (ops : list page_op) (s : store) : list (list Z) * store :=
  match ops with
  | [] => ([], s)
  | op :: ops => let (x, s) := store_op op s in let (xs, s) := store_ops ops s in (x :: xs, s)
  end.

Definition op_ok (st : PSt V) (op : page_op) : Prop :=
  match op with
  | ReadBytes space offset off len => Exists (space, offset) st ∧ FIL_PAGE_DATA ≤ off ∧ 0 ≤ len ∧ off + len ≤ UNIV_PAGE_SIZE - 8
  | WriteBytes space offset off str =>
      Exists (space, offset) st ∧ FIL_PAGE_DATA ≤ off ∧ off + Z.of_nat (length str) ≤ UNIV_PAGE_SIZE - 8
  | FlushList _ _ | FlushTail => True
  end.

(** The pool stands for a store. *)
Definition stands_for (st : PSt V) (s : store) : Prop := ∀ k, s k = data_of <$> content_of st k.

Lemma stands_for_same st st' s : same_content st st' → stands_for st s → stands_for st' s.
Proof.
  intros Hc Hs k. rewrite Hs. destruct (Hc k) as [x y (_ & _ & E)|]; [|done]. cbn. by f_equal.
Qed.

Lemma page_get_ok tries fuel space offset l st : Steady None st → Exists (space, offset) st → (2 ≤ tries)%nat → (3 ≤ fuel)%nat →
  wp (buf_page_get tries fuel mtr_start space offset l)
    (λ o st', ∃ b r, o = (b, MkMtr [MkSlot (Some b) l] false (bool_decide (l = RW_X_LATCH) && (oldest_modification r =? 0)) 0 0 0) ∧
       Held (space, offset) l b r st' ∧ same_content st st' ∧ Env st st' ∧ content_of st' (space, offset) = Some (frame r)) st.
Proof.
  intros HS Hx Ht Hf. unfold buf_page_get. apply wp_bind. eapply wp_mono; [by apply get_gen_ok|].
  cbn beta. intros o [p c a v] (b & r & -> & HH & Hc & HE & Hfr). pose proof (hd_block _ _ _ _ _ HH) as Hb. cbn [p_pool] in Hb.
  apply wp_bind. unfold mtr_memo_push, mtr_block_dirtied. cbn [made_dirty mtr_start negb]. rewrite andb_true_r. apply wp_bind.
  case_bool_decide as Hl; cbn [andb].
  - rewrite <- (at_block_id p b r Hb) at 1. ssteps. exists b, r. rewrite (at_block_id p b r Hb). done.
  - ssteps. exists b, r. done.
Qed.

Lemma for_one {X} (f : X → M (PSt V) unit) x (Φ : unit → PSt V → Prop) st : wp (f x) Φ st → wp (for_each f (reverse [x])) Φ st.
Proof. intros Hx. apply wp_bind. eapply wp_mono; [exact Hx|]. intros [] st' Hst. by apply wp_ret. Qed.

Lemma read_op_ok tries fuel space offset off len st s : Steady None st → stands_for st s → op_ok st (ReadBytes space offset off len) →
  (2 ≤ tries)%nat → (3 ≤ fuel)%nat →
  wp (exec_op tries fuel (ReadBytes space offset off len))
    (λ x st', x = bytes_at (default [] (s (space, offset))) (off - FIL_PAGE_DATA) len ∧ Steady None st' ∧ Env st st' ∧ stands_for st' s) st.
Proof.
  intros HS Hs (Hx & Ho & Hl & He) Ht Hf. cbn [exec_op]. apply wp_bind. eapply wp_mono; [by apply page_get_ok|].
  cbn beta. intros o [p c a v] (b & r & -> & HH & Hc & HE & Hfr). pose proof HH as [HS' Hb Hst Ek Hio Hfix Hlk Hu Htg]. cbn [p_pool] in Hb.
  cbn iota. rewrite <- (at_block_id p b r Hb) at 1. ssteps. cbn [bool_decide andb].
  unfold mtr_commit, mtr_memo_pop_all. cbn [modifications andb]. ssteps. apply for_one. unfold mtr_memo_slot_release. cbn [slot_object slot_type].
  apply (release_ok p b r RW_S_LATCH); [done|done|done|]. ssteps.
  destruct (give_back (space, offset) RW_S_LATCH b r p c a v (at_block p b (released r)) (released r) c a HH) as [HS2 Hc2]; try done.
  - rewrite decide_False; [done|]. by intros [? ?].
  - apply (tb_blocks _ _ _ _ _ (proj2 (proj1 (sd_inv _ _ HS'))) b r Hb).
  - apply (tb_blocks _ _ _ _ _ (proj2 (proj1 (sd_inv _ _ HS'))) b r Hb).
  - by left.
  - split_and!; [|done|done|].
    + pose proof (stands_for_same _ _ _ Hc Hs (space, offset)) as E. rewrite Hfr in E. rewrite E. cbn. symmetry. by apply data_read.
    + intros k. rewrite Hc2. pose proof (stands_for_same _ _ _ Hc Hs k) as E. rewrite E. case_decide as Hk; [|done]. by rewrite Hk, Hfr.
Qed.

(** The block after a mini-transaction has written [str] to the page. *)
Definition rewritten r off str first last : buf_block_t :=
  let r1 := fset newest_modification last (fset frame (put_bytes (frame r) off str) r) in
  if oldest_modification r =? 0 then fset oldest_modification first r1 else r1.

(** The page goes into the flush list, if it is not there. *)
Lemma note_ok p b r off str first last :
  let r1 := fset frame (put_bytes (frame r) off str) r in
  wp (buf_flush_note_modification b first last (oldest_modification r =? 0))
    (λ _ p', ∃ p2, p' = at_block p2 b (rewritten r off str first last) ∧
       tables_of (fset flush_list [] p2) = tables_of (fset flush_list [] p) ∧
       flush_list p2 = (if oldest_modification r =? 0 then b :: flush_list p else flush_list p)) (at_block p b r1).
Proof.
  cbn zeta. unfold buf_flush_note_modification, buf_flush_insert_into_flush_list, rewritten. bsteps.
  change (oldest_modification (fset newest_modification _ _)) with (oldest_modification r).
  destruct (oldest_modification r =? 0) eqn:Eo; cbn [when]; bsteps; by eexists.
Qed.

Lemma write_op_ok tries fuel space offset off str st s : Steady None st → stands_for st s → op_ok st (WriteBytes space offset off str) →
  (2 ≤ tries)%nat → (3 ≤ fuel)%nat →
  wp (exec_op tries fuel (WriteBytes space offset off str))
    (λ x st', x = [] ∧ Steady None st' ∧ Env st st' ∧ stands_for st' (store_op (WriteBytes space offset off str) s).2) st.
Proof.
  intros HS Hs (Hx & Ho & He) Ht Hf. cbn [exec_op]. apply wp_bind. eapply wp_mono; [by apply page_get_ok|].
  cbn beta. intros o [p c a v] (b & r & -> & HH & Hc & HE & Hfr). pose proof HH as [HS' Hb Hst Ek Hio Hfix Hlk Hu Htg]. cbn [p_pool] in Hb.
  pose proof (tb_blocks _ _ _ _ _ (proj2 (proj1 (sd_inv _ _ HS'))) b r Hb) as HB. pose proof (bo_frame _ _ _ _ _ _ HB) as Hlen.
  pose proof univ_page_size as Hps. cbn iota. unfold mlog_write_string.
  assert ((Z.of_nat (length str) <? UNIV_PAGE_SIZE) = true) as -> by (apply Z.ltb_lt; unfold FIL_PAGE_DATA in *; lia).
  rewrite <- (at_block_id p b r Hb) at 1. ssteps.
  unfold mtr_commit, mtr_log_reserve_and_write. cbn [modifications mlog_record n_log_recs andb negb]. ssteps.
  change (negb (u64 (0 + 1) =? 0)) with true. cbn [memo made_dirty mlog_record]. rewrite bool_decide_true by done. cbn [andb].
  destruct (reserve_law v) as (first & last & v' & E & HW & Hfirst & Hlast & Hlog). ssteps. eapply wp_io; [exact E|]. ssteps.
  unfold mtr_add_dirtied_pages_to_flush_list, mtr_memo_note_modifications. cbn [modifications when]. apply for_one.
  unfold mtr_memo_slot_note_modification. cbn [slot_object slot_type start_lsn end_lsn made_dirty bool_decide].
  apply wp_pool. eapply wp_mono; [apply note_ok|]. cbn beta. intros [] p3 (p2 & -> & E2 & Efl). ssteps.
  unfold mtr_memo_pop_all. cbn [memo]. apply for_one. unfold mtr_memo_slot_release. cbn [slot_object slot_type].
  set (r2 := rewritten r off str first last) in *. pose proof (Held_io _ _ _ _ _ _ c _ a _ _ HH HW) as HH'.
  assert (Hr2 : ∀ {T} (f : buf_block_t → T), (∀ y g, f (fset frame g y) = f y) → (∀ y n, f (fset newest_modification n y) = f y) →
    (∀ y n, f (fset oldest_modification n y) = f y) → f r2 = f r).
  { intros T f Hf1 Hf2 Hf3. unfold r2, rewritten. case_match; by rewrite ?Hf3, Hf2, Hf1. }
  assert (Hfr2 : frame r2 = put_bytes (frame r) off str) by (unfold r2, rewritten; by case_match).
  assert (Hold2 : oldest_modification r2 ≠ 0).
  { unfold r2, rewritten. destruct (Z.eqb_spec (oldest_modification r) 0); [|done]. cbn -[wrap]. rewrite wrap_small by lia. lia. }
  assert (Hold3 : oldest_modification r2 = oldest_modification r ∨ oldest_modification r = 0 ∧ oldest_modification r2 = first).
  { unfold r2, rewritten. destruct (Z.eqb_spec (oldest_modification r) 0); [right|by left]. split; [done|]. cbn -[wrap]. apply wrap_small. lia. }
  assert (Hnew2 : newest_modification r2 = last).
  { unfold r2, rewritten. case_match; cbn -[wrap]; apply wrap_small; lia. }
  apply (release_ok p2 b r2 RW_X_LATCH); [by rewrite (Hr2 _ bp_state)|by rewrite (Hr2 _ buf_fix_count)|by rewrite (Hr2 _ bl_lock)|]. ssteps.
  destruct (give_back (space, offset) RW_X_LATCH b r p c a v' (at_block p2 b (released r2)) (released r2) c a HH') as [HS2 Hc2].
  - pose proof (tables_at (fset flush_list [] p) (fset flush_list [] p2) b (released r2) E2) as E3. exact E3.
  - change (flush_list (at_block p2 b (released r2))) with (flush_list p2). rewrite Efl.
    destruct (Z.eqb_spec (oldest_modification r) 0); [by rewrite decide_True|rewrite decide_False; [done|by intros [? _]]].
  - change (bp_old r2 = bp_old r). by rewrite (Hr2 _ bp_old).
  - change (io_fix r2 = BUF_IO_NONE ∧ 0 = 0 ∧ use_rw_cmd r2 = false ∧ target_rw_cmd r2 = false).
    by rewrite (Hr2 _ io_fix), (Hr2 _ use_rw_cmd), (Hr2 _ target_rw_cmd).
  - change (bp_state r2 = BUF_BLOCK_FILE_PAGE). by rewrite (Hr2 _ bp_state).
  - change (page_key r2 = (space, offset)). by rewrite (Hr2 _ page_key).
  - done.
  - change (frame (released r2)) with (frame r2). rewrite Hfr2, length_put_bytes by (unfold FIL_PAGE_DATA in *; lia). done.
  - change (newest_modification (released r2)) with (newest_modification r2). by rewrite Hnew2.
  - change (oldest_modification (released r2)) with (oldest_modification r2). by intros.
  - change (oldest_modification (released r2)) with (oldest_modification r2). destruct Hold3 as [?|[? ->]]; [by left|right]. split_and!; [done| |lia|lia].
    destruct (sd_order _ _ HS') as [_ O2]. eapply Forall_impl; [exact O2|]. cbn. intros; lia.
  - destruct (Steady_io _ _ _ c _ a _ _ HS' HW) as (_ & HE3 & Hc3). split_and!; [done|done|etrans; [exact HE|exact HE3]|].
    intros k. rewrite Hc2. change (frame (released r2)) with (frame r2). rewrite Hfr2. pose proof (stands_for_same _ _ _ Hc Hs k) as Ek2.
    cbn [store_op snd]. case_decide as Hk; [|by rewrite Hc3]. rewrite Ek2, Hk, Hfr. cbn. f_equal. symmetry. by apply data_write.
Qed.

(** A batch changes no page. *)
Lemma flush_op_ok tries fuel op st s : Steady None st → stands_for st s → (op = FlushTail ∨ ∃ min_n lsn_limit, op = FlushList min_n lsn_limit) →
  wp (exec_op tries fuel op) (λ x st', x = [] ∧ Steady None st' ∧ Env st st' ∧ stands_for st' s) st.
Proof.
  intros HS Hs Hop. apply (wp_mono _ (λ x st', x = [] ∧ Steady None st' ∧ Keeps st st')).
  2:{ intros x st' (-> & HS' & Hc & HE). split_and!; [done|done|done|]. by apply (stands_for_same st). }
  destruct Hop as [->|(min_n & lsn_limit & ->)]; cbn [exec_op].
  - apply wp_bind. eapply wp_mono; [by apply LRU_tail_ok|]. cbn beta. intros n st' [? ?]. by apply wp_ret.
  - apply wp_bind. eapply wp_mono; [by apply flush_list_ok|]. cbn beta. intros [ok n] st1. cbn [fst]. intros (-> & HB1 & HK1 & Hi & _).
    cbn [when]. apply wp_bind. eapply wp_mono; [apply (wait_ok BUF_FLUSH_LIST); [by right|done|done]|]. cbn beta. intros _ st2 (HS2 & HK2 & _). apply wp_ret. split_and!; [done|done|by etrans].
Qed.

Lemma exec_op_ok tries fuel op st s : Steady None st → stands_for st s → op_ok st op → (2 ≤ tries)%nat → (3 ≤ fuel)%nat →
  wp (exec_op tries fuel op)
    (λ x st', x = (store_op op s).1 ∧ Steady None st' ∧ Env st st' ∧ stands_for st' (store_op op s).2) st.
Proof.
  intros HS Hs Hop Ht Hf. destruct op; [by apply read_op_ok|by apply write_op_ok| |].
  - apply flush_op_ok; [done|done|right]. by do 2 eexists.
  - apply flush_op_ok; [done|done|by left].
Qed.

Lemma op_ok_env st st' op : Env st st' → op_ok st op → op_ok st' op.
Proof. intros HE. destruct op; cbn; [intros (? & ?); split; auto..|done|done]. Qed.

Lemma exec_ops_ok tries fuel ops st s : Steady None st → stands_for st s → Forall (op_ok st) ops → (2 ≤ tries)%nat → (3 ≤ fuel)%nat →
  wp (exec_ops tries fuel ops)
    (λ xs st', xs = (store_ops ops s).1 ∧ Steady None st' ∧ stands_for st' (store_ops ops s).2) st.
Proof.
  intros HS Hs Hops Ht Hf. revert st s HS Hs Hops. induction ops as [|op ops IH]; intros st s HS Hs Hops; cbn [exec_ops store_ops].
  { by apply wp_ret. }
  apply Forall_cons in Hops as [Hop Hops]. apply wp_bind. eapply wp_mono; [by apply exec_op_ok|].
  cbn beta. intros x st' (-> & HS' & HE & Hs'). destruct (store_op op s) as [x s']. cbn [fst snd] in *.
  apply wp_bind. eapply wp_mono; [apply IH; [done|done|]|].
  { eapply Forall_impl; [exact Hops|]. intros op'. by apply op_ok_env. }
  cbn beta. intros xs st2 (-> & HS2 & Hs2). destruct (store_ops ops s') as [xs s2]. by apply wp_ret.
Qed.
End mtr_ok.
