(* ===== verification/BufRuns.v ===== *)
(** The buffer pool as a whole: what it promises to the mini-transactions that run
    over it, a small pool over files in memory, and runs of it in which the RW
    command leaves something behind. *)
From stdpp Require Import sorting.
From S2P Require Import Prelude Frame HostLld Crc32 Fil PageFormat FilInv BufLru BufPool BufBatch BufInv BufStore BufEvict BufRead Mtr BufAccess BatchInv MtrInv.

Section promises.
Context `{HostConfig} {Hok : HostConfigOk} `{PoolConfig} {V : Type} `{PageIoOk V}.

(** C3: The buffer pool is a store of pages.  Whatever sequence of mini-transactions
    reads and writes the data of pages, with however few blocks and with whatever
    batches of the page cleaner in between, the reads return what a plain store would
    return, and afterwards the pool still stands for that store: neither eviction nor
    writing back nor the RW command, which reads a page into the frame of the victim
    it writes, loses or invents a byte. *)
Theorem pool_is_a_store tries fuel (ops : list page_op) (st : PSt V) (s : store) :
  Steady None st → stands_for st s → Forall (op_ok st) ops → (2 ≤ tries)%nat → (3 ≤ fuel)%nat →
  wp (exec_ops tries fuel ops) (λ xs st', xs = (store_ops ops s).1 ∧ stands_for st' (store_ops ops s).2) st.
Proof. intros. eapply wp_mono; [by apply (exec_ops_ok tries fuel ops st s)|]. by intros xs st' (? & _ & ?). Qed.

(** C13: Write-ahead logging and page checksums.  After any sequence of
    mini-transactions and batches, every page in the files passes the check a read
    makes, and the log is on the disk at least up to the lsn stamped on the page. *)
Theorem pages_on_disk_are_intact tries fuel (ops : list page_op) (st : PSt V) :
  Steady None st → Forall (op_ok st) ops → (2 ≤ tries)%nat → (3 ≤ fuel)%nat →
  wp (exec_ops tries fuel ops) (λ _ st', ∀ k page, disk (p_io st') !! k = Some page →
    buf_page_is_corrupted srv_checksum_algorithm page = false ∧ mach_read_from_8 page FIL_PAGE_LSN ≤ durable_lsn (p_io st')) st.
Proof.
  intros. eapply wp_mono; [by apply (exec_ops_ok tries fuel ops st (λ k, data_of <$> content_of st k))|].
  intros xs st' (_ & HS & _) k page Hk. apply (so_disk _ _ (proj2 (sd_inv _ _ HS)) k page Hk).
Qed.

(** C15: The consistency conditions of buf0buf.h.  After any sequence of
    mini-transactions and batches the state of a control block says where it is: a block is in
    the LRU list exactly if it holds a page, and then page_hash leads to it; in the
    free list exactly if it is not used; in the flush list exactly if it holds a page
    that was modified.  The flush list is in the order of the oldest modifications. *)
Theorem pool_tables_are_consistent tries fuel (ops : list page_op) (st : PSt V) :
  Steady None st → Forall (op_ok st) ops → (2 ≤ tries)%nat → (3 ≤ fuel)%nat →
  wp (exec_ops tries fuel ops) (λ _ st', StronglySorted Z.ge (lsns (blocks (p_pool st')) (flush_list (p_pool st'))) ∧
    ∀ b r, blocks (p_pool st') !! b = Some r →
    (b ∈ pool_LRU (p_pool st') ↔ bp_state r = BUF_BLOCK_FILE_PAGE) ∧ (b ∈ pool_free (p_pool st') ↔ bp_state r = BUF_BLOCK_NOT_USED) ∧
    (b ∈ flush_list (p_pool st') ↔ bp_state r = BUF_BLOCK_FILE_PAGE ∧ oldest_modification r ≠ 0) ∧
    (bp_state r = BUF_BLOCK_FILE_PAGE → page_hash (p_pool st') !! (bp_space r, bp_offset r) = Some (Hashed b))) st.
Proof.
  intros. eapply wp_mono; [by apply (exec_ops_ok tries fuel ops st (λ k, data_of <$> content_of st k))|].
  intros xs st' (_ & HS & _). split; [apply (sd_order _ _ HS)|]. intros b r Hb. pose proof (tb_blocks _ _ _ _ _ (proj2 (proj1 (sd_inv _ _ HS))) b r Hb) as HB.
  split_and!; apply HB.
Qed.

(** C10: Reading a page in.  buf_read_page of a page that is not resident succeeds,
    whether it reads the page itself or the RW command has read it into the frame
    of its victim: page_hash then leads to a block whose frame is the page in the
    file, and no page has changed. *)
Theorem page_is_read_in fuel space offset (st : PSt V) : CanRead space offset st → (3 ≤ fuel)%nat →
  wp (buf_read_page fuel space offset) (λ ok st', ok = true ∧ Inv st' ∧ same_content st st' ∧
    ∃ b r, page_hash (p_pool st') !! (space, offset) = Some (Hashed b) ∧ blocks (p_pool st') !! b = Some r ∧
      io_fix r = BUF_IO_NONE ∧ disk (p_io st') !! (space, offset) = Some (frame r)) st.
Proof.
  intros HC Hf. eapply wp_mono; [by apply read_page_ok|]. intros ok st' (-> & b & r & HR).
  split_and!; [done|apply HR|apply HR|]. exists b, r. destruct (ri_loaded _ _ _ _ _ HR) as (n & page & HL & Hd & _).
  split_and!; [apply HR|apply HR|apply HL|]. by rewrite (ld_frame _ _ _ _ HL).
Qed.

(** C11: The search for a free block ends.  If a block is free or some page can be
    replaced or written, buf_LRU_get_free_block finds one within three rounds: it
    returns a block that is out of every list, and no page has changed. *)
Theorem free_block_is_found fuel space offset (st : PSt V) : Inv st → Usable (p_pool st) →
  curr_size (p_pool st) / 20 ≤ available (p_pool st) → is_Some (disk (p_io st) !! (space, offset)) → (3 ≤ fuel)%nat →
  wp (buf_LRU_get_free_block fuel space offset) (λ b st', same_content st st' ∧
    bp_state <$> blocks (p_pool st') !! b = Some BUF_BLOCK_READY_FOR_USE ∧
    (b ∉ pool_LRU (p_pool st')) ∧ (b ∉ pool_free (p_pool st')) ∧ (b ∉ flush_list (p_pool st')) ∧
    ∀ k, page_hash (p_pool st') !! k ≠ Some (Hashed b)) st.
Proof.
  intros HI Hu Ha Hd Hf. eapply wp_mono; [by apply get_free_block_ok|]. intros b [p c a v] (HS & _ & r & HR & _).
  split; [apply HS|]. split; [by destruct HR as (-> & <- & _)|]. apply (Ready_out p b r c a v (se_inv _ _ HS) HR).
Qed.

(** C12: A checkpoint flush ends and leaves no old page behind.  Between batches
    log_preflush_pool_modified_pages succeeds, whatever the neighbours it writes along
    and with the i/o completed later, and the event it waits for is set: afterwards
    no batch is running, every page that is not on the disk as it is in its frame was
    first modified at or after the limit, the oldest modification in the pool is 0
    (none) or at least the limit, and no page has changed. *)
Theorem checkpoint_flushes_old_pages lsn (st : PSt V) : Steady None st →
  wp (ok <- log_preflush_pool_modified_pages lsn ;; oldest <- buf_pool_get_oldest_modification ;; ret (ok, oldest))
    (λ x st', x.1 = true ∧ idle (p_pool st') ∧ (x.2 = 0 ∨ lsn ≤ x.2) ∧ same_content st st' ∧
       ∀ b r, blocks (p_pool st') !! b = Some r → bp_state r = BUF_BLOCK_FILE_PAGE →
         disk (p_io st') !! (bp_space r, bp_offset r) = Some (frame r) ∨ lsn ≤ oldest_modification r) st.
Proof.
  intros HS. apply wp_bind. eapply wp_mono; [by apply preflush_ok|]. cbn beta. intros ok st1 (-> & HS1 & [Hc _] & Hd).
  apply wp_bind. eapply wp_mono; [by apply oldest_ok|]. cbn beta. intros n st2 (-> & _ & _ & Hn). apply wp_ret. split_and!; [done|apply HS1| |done|].
  - cbn [snd]. destruct (Z.eq_dec n 0) as [|Hnz]; [by left|right]. destruct (Hn Hnz) as (b & r & Hb & Hs & <-). by apply (Hd b r).
  - intros b r Hb Hs. destruct (Z.eq_dec (oldest_modification r) 0) as [Ho|Ho]; [left|right; by apply (Hd b r)].
    apply (so_clean _ _ (proj2 (sd_inv _ _ HS1)) b r Hb Hs Ho). by destruct (sd_quiet _ _ HS1 b r ltac:(done) Hb Hs) as (-> & _).
Qed.
End promises.

(** ** A small pool *)

(** Files in memory: the pages, the last lsn given out, the lsn up to which the log is
    written, and the tablespaces that have been dropped. *)
Record Files := MkFiles { f_pages : gmap (Z * Z) page_t; f_lsn : Z; f_durable : Z; f_deleted : list Z }.

Definition next_lsn (lsn : Z) : Z := Z.max 1 (Z.min (lsn + 100) (2 ^ 64 - 1)).

#[global] Instance files_io : PageIo Files := {|
  fil_io_read space offset f :=
    match f_pages f !! (space, offset) with Some page => (DB_SUCCESS, page, f) | None => (DB_TABLESPACE_DELETED, [], f) end;
  fil_io_write space offset page f := MkFiles (<[(space, offset) := page]> (f_pages f)) (f_lsn f) (f_durable f) (f_deleted f);
  fil_io_rw space offset page space' offset' f :=
    let f' := MkFiles (<[(space, offset) := page]> (f_pages f)) (f_lsn f) (f_durable f) (f_deleted f) in
    match f_pages f' !! (space', offset') with Some page' => (DB_SUCCESS, page', f') | None => (DB_TABLESPACE_DELETED, [], f') end;
  fil_flush_space _ f := f;
  fil_space_get_size space f := map_fold (λ k _ n, if k.1 =? space then Z.max (k.2 + 1) n else n) 0 (f_pages f);
  log_write_up_to lsn f := MkFiles (f_pages f) (f_lsn f) (Z.max lsn (f_durable f)) (f_deleted f);
  log_reserve_and_write f :=
    (next_lsn (f_lsn f), next_lsn (next_lsn (f_lsn f)), MkFiles (f_pages f) (next_lsn (next_lsn (f_lsn f))) (f_durable f) (f_deleted f));
  fil_tablespace_deleted_or_being_deleted_in_mem space f := bool_decide (space ∈ f_deleted f);
  dict_set_corrupted_by_space _ _ := true;
  ut_time_ms _ := 1000;
  fil_log_fd _ := 0;
|}.

Lemma size_covers (m : gmap (Z * Z) page_t) space offset : is_Some (m !! (space, offset)) →
  offset < map_fold (λ k _ n, if k.1 =? space then Z.max (k.2 + 1) n else n) 0 m.
Proof.
  revert offset. apply (map_fold_weak_ind (λ n m, ∀ offset, is_Some (m !! (space, offset)) → offset < n)); [by intros offset [? ?]|].
  intros k page m' n Hk IH offset [page' Hp]. destruct (Z.eqb_spec k.1 space) as [E|E];
    apply lookup_insert_Some in Hp as [[-> _]|[_ Hp]]; cbn in *; try lia.
  - specialize (IH offset ltac:(by eexists)). lia.
  - apply IH. by eexists.
Qed.

#[global] Instance files_io_ok : PageIoOk Files.
Proof.
  refine {| disk := f_pages; durable_lsn := f_durable; log_lsn f := Z.min (f_lsn f) (2 ^ 64 - 1); read_law := _ |}.
  - intros space offset v page Hp. exists v. cbn. rewrite Hp. done.
  - intros space offset page v. done.
  - intros space offset page space' offset' v page' Hp. eexists. cbn. rewrite Hp. done.
  - done.
  - intros lsn v. cbn. split_and!; [done|lia|done|lia|lia].
  - intros v. do 3 eexists. split; [reflexivity|]. cbn. split_and!; try done; unfold next_lsn; lia.
  - intros space offset v. apply size_covers.
Defined.

Definition innodb_pool : PoolConfig := {|
  srv_checksum_algorithm := SRV_CHECKSUM_ALGORITHM_INNODB;
  srv_LRU_scan_depth := 1024;
  srv_flush_neighbors := 1;
  srv_force_recovery := 0;
  buf_LRU_old_threshold_ms := 1000;
  lock_rec_hash := λ space page_no, space + page_no;
|}.

(** Two free blocks over a file with four pages that have never been written. *)
Definition free_block : buf_block_t :=
  Mkbuf_block_t 0xFFFFFFFF 0xFFFFFFFF 0 BUF_IO_NONE BUF_BLOCK_NOT_USED BUF_FLUSH_LRU 0 0 false 0 0 false (replicate 4096 0) false (Shared 0) 0 false 0 0 0 0 false None.
Definition two_blocks : buf_pool_t :=
  Mkbuf_pool_t {[1 := free_block; 2 := free_block]} 2 378 ∅ 0 [1; 2] [] None 0 [] (λ _, 0) 0 true 0 0 0 0 0 0 0 0 0 (λ _, false) None (λ _, false).
Definition no_counts : RwStat := MkRwStat 0 0 0 0 0 0 0 0 0 0 0 false false.
Definition four_pages : Files := MkFiles (list_to_map ((λ n, ((7, n), replicate 4096 0)) <$> seqZ 0 4)) 1000 1000 [].
Definition fresh_pool : PSt Files := MkPSt two_blocks no_counts ∅ four_pages.

Lemma config_4k_ok : HostConfigOk (H := config_4k).
Proof. split; vm_compute; discriminate. Qed.

Lemma fresh_pool_steady : Steady (H := config_4k) (H0 := innodb_pool) None fresh_pool.
Proof.
  assert (Hb : ∀ b r, blocks two_blocks !! b = Some r → (b = 1 ∨ b = 2) ∧ r = free_block).
  { cbn. intros b r. rewrite lookup_insert_Some, lookup_singleton_Some. naive_solver. }
  assert (Hd : ∀ k page, f_pages four_pages !! k = Some page → page = replicate 4096 0).
  { intros k page Hk. apply elem_of_list_to_map_2, list_elem_of_fmap in Hk as (n & [= _ ->] & _). done. }
  split; [split; [split|]|..]; cbn [p_pool p_io fresh_pool].
  - split; [|left; split_and!; try done; by intros x Hx%not_elem_of_nil]. split; try done; [constructor|by intros x Hx%not_elem_of_nil].
  - split; try done.
    + intros b r Hr. apply Hb in Hr as [Hr ->]. split; try done.
      * split; [by intros ?%not_elem_of_nil|done].
      * change (b ∈ [1; 2] ↔ BUF_BLOCK_NOT_USED = BUF_BLOCK_NOT_USED). split; [done|]. intros _. destruct Hr as [->| ->]; [left|right; left].
      * split; [by intros ?%not_elem_of_nil|by intros [? _]].
    + intros b [Hx|[Hx|Hx]]; [by apply not_elem_of_nil in Hx| |by apply not_elem_of_nil in Hx].
      change (b ∈ [1; 2]) in Hx. rewrite !elem_of_cons in Hx.
      destruct Hx as [->|[->|Hx]]; [by exists free_block|by exists free_block|by apply not_elem_of_nil in Hx].
    + change (NoDup [1; 2]). apply (bool_decide_unpack _). by vm_compute.
    + constructor.
  - split; [by intros b r Hr; apply Hb in Hr as [_ ->]|]. intros k page Hk. rewrite (Hd k page Hk). by vm_compute.
  - intros b r _ Hr. by apply Hb in Hr as [_ ->].
  - done.
  - by vm_compute.
  - by vm_compute.
  - done.
  - split; constructor.
  - done.
Qed.

(** Three writes fill and overflow the pool: the third and the first read use the RW
    command; a batch writes the pages back in between. *)
Definition demo_ops : list page_op :=
  [WriteBytes 7 0 100 [1; 2; 3]; WriteBytes 7 1 100 [4; 5]; WriteBytes 7 2 200 [6]; FlushTail; ReadBytes 7 0 99 4;
   FlushList ULINT_MAX 1500; ReadBytes 7 2 200 1].
Definition demo_run := exec_ops (H := config_4k) (H0 := innodb_pool) 2 3 demo_ops fresh_pool.
Definition demo_store : store := λ k, data_of (H := config_4k) <$> content_of fresh_pool k.

Lemma fresh_exists n : 0 ≤ n < 4 → Exists (7, n) fresh_pool.
Proof.
  intros Hn. split_and!; cbn; try lia; unfold WIPED; try lia; [|done].
  assert (n = 0 ∨ n = 1 ∨ n = 2 ∨ n = 3) as [->|[->|[->| ->]]] by lia; by eexists.
Qed.

Lemma demo_ops_ok : Forall (op_ok (H := config_4k) fresh_pool) demo_ops.
Proof.
  assert (UNIV_PAGE_SIZE (H := config_4k) = 4096) as E by done.
  unfold demo_ops. rewrite !Forall_cons, Forall_nil.
  split_and!; cbn [op_ok]; try done; rewrite E; unfold FIL_PAGE_DATA; (split; [apply fresh_exists; lia|cbn; lia]).
Qed.

Lemma pool_is_a_store_witness : ∃ st', demo_run = Ok [[]; []; []; []; [0; 1; 2; 3]; []; [6]] st' ∧
  stands_for (H := config_4k) st' (store_ops demo_ops demo_store).2.
Proof.
  pose proof (pool_is_a_store (H := config_4k) (Hok := config_4k_ok) (H0 := innodb_pool) 2 3 demo_ops fresh_pool demo_store
    fresh_pool_steady (λ k, eq_refl) demo_ops_ok ltac:(lia) ltac:(lia)) as Hw.
  unfold wp in Hw. fold demo_run in Hw. destruct demo_run as [xs st'|e]; [|done]. exists st'. destruct Hw as [-> Hs].
  split; [|exact Hs]. assert ((store_ops demo_ops demo_store).1 = [[]; []; []; []; [0; 1; 2; 3]; []; [6]]) as -> by (by vm_compute). done.
Defined.

Lemma pages_on_disk_are_intact_witness : ∃ xs st', demo_run = Ok xs st' ∧ ∀ k page, f_pages (p_io st') !! k = Some page →
  buf_page_is_corrupted (H := config_4k) SRV_CHECKSUM_ALGORITHM_INNODB page = false ∧ mach_read_from_8 page FIL_PAGE_LSN ≤ f_durable (p_io st').
Proof.
  pose proof (pages_on_disk_are_intact (H := config_4k) (Hok := config_4k_ok) (H0 := innodb_pool) 2 3 demo_ops fresh_pool
    fresh_pool_steady demo_ops_ok ltac:(lia) ltac:(lia)) as Hw.
  unfold wp in Hw. fold demo_run in Hw. destruct demo_run as [xs st'|e]; [|done]. exists xs, st'. split; [done|exact Hw].
Defined.

Lemma pool_tables_are_consistent_witness : ∃ xs st', demo_run = Ok xs st' ∧
  StronglySorted Z.ge (lsns (blocks (p_pool st')) (flush_list (p_pool st'))) ∧ ∀ b r, blocks (p_pool st') !! b = Some r →
  (b ∈ pool_LRU (p_pool st') ↔ bp_state r = BUF_BLOCK_FILE_PAGE) ∧ (b ∈ pool_free (p_pool st') ↔ bp_state r = BUF_BLOCK_NOT_USED) ∧
  (b ∈ flush_list (p_pool st') ↔ bp_state r = BUF_BLOCK_FILE_PAGE ∧ oldest_modification r ≠ 0) ∧
  (bp_state r = BUF_BLOCK_FILE_PAGE → page_hash (p_pool st') !! (bp_space r, bp_offset r) = Some (Hashed b)).
Proof.
  pose proof (pool_tables_are_consistent (H := config_4k) (Hok := config_4k_ok) (H0 := innodb_pool) 2 3 demo_ops fresh_pool
    fresh_pool_steady demo_ops_ok ltac:(lia) ltac:(lia)) as Hw.
  unfold wp in Hw. fold demo_run in Hw. destruct demo_run as [xs st'|e]; [|done]. exists xs, st'. split; [done|exact Hw].
Defined.

(** A page is modified at lsn 1100 and flushed. *)
Definition dirty_run := exec_ops (H := config_4k) (H0 := innodb_pool) 2 3 [WriteBytes 7 0 100 [1; 2; 3]] fresh_pool.

Lemma dirty_run_ok :
  match dirty_run with Ok _ st1 => flush_list (p_pool st1) ≠ [] | Err _ => False end.
Proof. vm_compute. discriminate. Qed.

Lemma checkpoint_flushes_old_pages_witness : ∃ xs st1 x st', dirty_run = Ok xs st1 ∧ flush_list (p_pool st1) ≠ [] ∧
  (ok <- log_preflush_pool_modified_pages (H := config_4k) (H0 := innodb_pool) 2000 ;;
   oldest <- buf_pool_get_oldest_modification ;; ret (ok, oldest)) st1 = Ok x st' ∧ x.1 = true ∧ (x.2 = 0 ∨ 2000 ≤ x.2).
Proof.
  assert (Hop : Forall (op_ok (H := config_4k) fresh_pool) [WriteBytes 7 0 100 [1; 2; 3]]).
  { pose proof demo_ops_ok as Hd. unfold demo_ops in Hd. apply Forall_cons in Hd as [Hd _]. by constructor. }
  pose proof (exec_ops_ok (H := config_4k) (Hok := config_4k_ok) (H0 := innodb_pool) 2 3 _ fresh_pool demo_store
    fresh_pool_steady (λ k, eq_refl) Hop ltac:(lia) ltac:(lia)) as Hw. unfold wp in Hw. fold dirty_run in Hw.
  pose proof dirty_run_ok as Hrun. destruct dirty_run as [xs st1|e]; [|done]. destruct Hw as (_ & HS & _).
  pose proof (checkpoint_flushes_old_pages (H := config_4k) (Hok := config_4k_ok) (H0 := innodb_pool) 2000 st1 HS) as Hc. unfold wp in Hc.
  destruct (bind _ _ st1) as [x st'|e] eqn:E; [|done]. destruct Hc as (? & _ & ? & _). by exists xs, st1, x, st'.
Defined.

Lemma page_is_read_in_witness : ∃ st', buf_read_page (H := config_4k) (H0 := innodb_pool) 3 7 2 fresh_pool = Ok true st' ∧
  ∃ b r, page_hash (p_pool st') !! (7, 2) = Some (Hashed b) ∧ blocks (p_pool st') !! b = Some r ∧ f_pages (p_io st') !! (7, 2) = Some (frame r).
Proof.
  assert (HC : CanRead (H := config_4k) (H0 := innodb_pool) 7 2 fresh_pool).
  { destruct (fresh_exists 2) as (? & ? & ? & ?); [lia|]. pose proof fresh_pool_steady as HS.
    split; [apply HS|by apply (steady_usable (H := config_4k) (H0 := innodb_pool))|apply (sd_room _ _ HS)|lia|done|done|done|by intros [b Hb]]. }
  pose proof (page_is_read_in (H := config_4k) (Hok := config_4k_ok) (H0 := innodb_pool) 3 7 2 fresh_pool HC ltac:(lia)) as Hw.
  unfold wp in Hw. destruct (buf_read_page (H := config_4k) (H0 := innodb_pool) 3 7 2 fresh_pool) as [ok st'|e]; [|done].
  destruct Hw as (-> & _ & _ & b & r & ? & ? & _ & ?). exists st'. split; [done|]. by exists b, r.
Defined.

Lemma free_block_is_found_witness : ∃ b st', buf_LRU_get_free_block (H := config_4k) (H0 := innodb_pool) 3 7 0 fresh_pool = Ok b st' ∧
  bp_state <$> blocks (p_pool st') !! b = Some BUF_BLOCK_READY_FOR_USE.
Proof.
  pose proof fresh_pool_steady as HS. destruct (fresh_exists 0) as (_ & _ & Hd & _); [lia|].
  pose proof (free_block_is_found (H := config_4k) (Hok := config_4k_ok) (H0 := innodb_pool) 3 7 0 fresh_pool
    (sd_inv _ _ HS) (steady_usable _ HS) (proj1 (sd_room _ _ HS)) Hd ltac:(lia)) as Hw.
  unfold wp in Hw. destruct (buf_LRU_get_free_block (H := config_4k) (H0 := innodb_pool) 3 7 0 fresh_pool) as [b st'|e]; [|done].
  destruct Hw as (_ & ? & _). by exists b, st'.
Defined.

(** ** What the RW command leaves behind *)

(** One block, which holds page (7, 0), modified and with entries in the adaptive
    hash index; tablespace 9 is being dropped. *)
Definition dirty_block : buf_block_t :=
  Mkbuf_block_t 7 0 0 BUF_IO_NONE BUF_BLOCK_FILE_PAGE BUF_FLUSH_LRU 1200 1100 false 0 1000 false (replicate 4096 0) false (Shared 0) 0 false 0 0 0 0 false (Some 42).
Definition one_dirty_block : PSt Files :=
  MkPSt (Mkbuf_pool_t {[1 := dirty_block]} 1 378 {[(7, 0) := Hashed 1]} 0 [] [1] None 0 [1] (λ _, 0) 0 true 0 0 0 0 0 0 0 4096 4096 (λ _, false) None (λ _, false))
    no_counts {[1]}
    (MkFiles (list_to_map ((λ k, (k, replicate 4096 0)) <$> [(7, 0); (7, 1); (9, 0); (0, 0)])) 1200 1000 [9]).



(** An asynchronous read of page 0 of the system tablespace never completes.  For
    an asynchronous read the search for a block always asks the RW command for page
    (0, 0); when that is the page wanted, no request is posted, and the page stays
    latched and in state BUF_IO_READ with nobody to complete it. *)
Theorem async_read_of_first_page_hangs :
  match buf_read_page_low (H := config_4k) (H0 := innodb_pool) 3 false false 0 0 one_dirty_block with
  | Ok x st' => x = (DB_SUCCESS, 1) ∧ io_fix <$> blocks (p_pool st') !! 1 = Some BUF_IO_READ ∧
      bl_lock <$> blocks (p_pool st') !! 1 = Some Exclusive ∧ n_total_reads (p_stat st') = 0 ∧
      f_pages (p_io st') !! (0, 0) = frame <$> blocks (p_pool st') !! 1
  | Err _ => False
  end.
Proof. vm_compute. done. Qed.


(** The scan of the flush list skips a page that the RW command is working on and
    keeps the hazard pointer set, although buf_flush_set_hp asserts in debug builds
    that it sets it only when it is NULL: the next step sets it again. *)
Lemma skipped_page_keeps_hazard_pointer `{HostConfig} `{PoolConfig} {V : Type} `{PageIo V} min_n b len count r x (st : PSt V) :
  blocks (p_pool st) !! b = Some r → target_rw_cmd r || use_rw_cmd r = true → UT_LIST_GET_PREV (flush_list (p_pool st)) b = Some x →
  wp (flush_list_step min_n b len count) (λ y st', y.1.1 = Some x ∧ flush_list_hp (p_pool st') = Some x) st.
Proof.
  destruct st as [p c a v]. cbn [p_pool]. intros Hb Hf Hx. unfold flush_list_step. rewrite <- (at_block_id p b r Hb). ssteps.
  change (flush_list (at_block p b r)) with (flush_list p). rewrite Hx, Hf. unfold buf_flush_set_hp. ssteps. by split.
Qed.

