(* ===== verification/FlashSafe.v ===== *)
(** The whole firmware keeps the flash order: start-up, garbage collection, the
    buffers, command processing and the main loop only hand requests to the
    request layer whose slots they hold, so the invariant of FlashOrder.v holds
    between all iterations of the main loop. *)
From stdpp Require Import functions.
From S2P Require Import Prelude Frame Dll Config MemMap ReqFormat ReqQueues DataBuffer AddrMap State HostLld.
From S2P Require Import Nsc HostTime CustomIo LowLevel Schedule FlashOrder ReqInv Ftl BadBlock Transform Nvme.

Section flash_safe.
Context `{ConfigOk} {W : Type} `{Device W} `{Fuel}.
Implicit Types (tag t : Z) (r : SSD_REQ_FORMAT) (q : queue_id) (T D : list Z).
Implicit Types (Q : queue_id → list Z) (L : location → list flash_op).

(** ** Computations that hold slots

    [Ord p T D m]: started with the slots [T] in no queue, [m] keeps the
    invariant, and every slot that was in no queue is still in none, except
    those of [D]. *)

Definition Ord {X A} (p : X → RSt W) T D (m : M X A) : Prop :=
  ∀ Q L x, Inv Q L (p x) → NoDup T → Forall (held Q) T →
    wlp m (λ _ x', ∃ Q' L', Inv Q' L' (p x') ∧ grows L L' ∧ ∀ t, t ∉ D → held Q t → held Q' t) x.

Section rules.
Context {X : Type} (p : X → RSt W).
Implicit Types (x : X).

Lemma ord_keeps {A} T D (m : M X A) : Keeps (λ x, flash_view (p x)) m → Ord p T D m.
Proof.
  intros Hm Q L x HI _ _. eapply wlp_mono; [apply Hm|]. cbn beta. intros a x' E. exists Q, L.
  split_and!; [by eapply Inv_view|done|done].
Qed.

Lemma ord_ret {A} T D (a : A) : Ord p T D (ret a).
Proof. apply ord_keeps, keeps_ret. Qed.
Lemma ord_fail {A} T D e : Ord p T D (fail e : M X A).
Proof. apply ord_keeps, keeps_fail. Qed.

Lemma ord_bind {A B} T D (m : M X A) (k : A → M X B) :
  Ord p T [] m → (∀ a, Ord p T D (k a)) → Ord p T D (bind m k).
Proof.
  intros Hm Hk Q L x HI Hnd HH. apply wlp_bind. eapply wlp_mono; [by apply Hm|].
  intros a x1 (Q1 & L1 & HI1 & HL1 & Hh1). eapply wlp_mono; [apply Hk; [done|done|]|].
  - eapply Forall_impl; [done|]. intros t. apply Hh1. set_solver.
  - intros b x2 (Q2 & L2 & HI2 & HL2 & Hh2). exists Q2, L2. split_and!; [done|by etrans|].
    intros t Ht Hheld. apply Hh2; [done|]. apply Hh1; [set_solver|done].
Qed.

Lemma ord_assoc {A B C} T D (m : M X A) (k : A → M X B) (k' : B → M X C) :
  Ord p T D (bind m (λ a, bind (k a) k')) → Ord p T D (bind (bind m k) k').
Proof.
  intros Hm Q L x HI Hnd HH. specialize (Hm Q L x HI Hnd HH). revert Hm. unfold wlp, bind.
  by destruct (m x).
Qed.

Lemma ord_ret_bind {A B} T D (a : A) (k : A → M X B) : Ord p T D (k a) → Ord p T D (bind (ret a) k).
Proof. done. Qed.

Lemma ord_mono {A} T D (m : M X A) : Ord p T [] m → Ord p T D m.
Proof.
  intros Hm Q L x HI Hnd HH. eapply wlp_mono; [by apply Hm|]. intros a x' (Q' & L' & ? & ? & Hh).
  exists Q', L'. split_and!; [done|done|]. intros t _. apply Hh. set_solver.
Qed.

Lemma ord_when T D b (m : M X unit) : Ord p T D m → Ord p T D (when b m).
Proof. destruct b; [done|]. intros _. apply ord_ret. Qed.

Lemma ord_loop {Y B} T fuel (body : Y → M X (Y + B)) y :
  (∀ y, Ord p T [] (body y)) → Ord p T [] (loop fuel body y).
Proof.
  intros Hb Q L x HI Hnd HH.
  apply (wlp_loop (λ _ x', ∃ Q' L', Inv Q' L' (p x') ∧ grows L L' ∧ ∀ t, t ∉ [] → held Q t → held Q' t)).
  { exists Q, L. done. }
  intros z x1 (Q1 & L1 & HI1 & HL1 & Hh1). eapply wlp_mono; [apply Hb; [done|done|]|].
  - eapply Forall_impl; [done|]. intros t. apply Hh1. set_solver.
  - intros [z'|b] x2 (Q2 & L2 & HI2 & HL2 & Hh2); exists Q2, L2; (split_and!; [done|by etrans|]);
      intros t Ht Hheld; (apply Hh2; [set_solver|]); by apply Hh1.
Qed.

Lemma ord_for_acc_n {Y} T n lo (body : Z → Y → M X Y) y :
  (∀ i y, Ord p T [] (body i y)) → Ord p T [] (for_acc_n n lo body y).
Proof.
  intros Hb. revert lo y. induction n as [|n IH]; intros lo y; cbn [for_acc_n];
    [apply ord_ret|by apply ord_bind].
Qed.
Lemma ord_for_acc {Y} T lo hi (body : Z → Y → M X Y) y :
  (∀ i y, Ord p T [] (body i y)) → Ord p T [] (for_acc lo hi body y).
Proof. apply ord_for_acc_n. Qed.
Lemma ord_for_n T n lo (body : Z → M X unit) :
  (∀ i, Ord p T [] (body i)) → Ord p T [] (for_n n lo body).
Proof.
  intros Hb. revert lo. induction n as [|n IH]; intros lo; cbn [for_n]; [apply ord_ret|by apply ord_bind].
Qed.
Lemma ord_for_range T lo hi (body : Z → M X unit) :
  (∀ i, Ord p T [] (body i)) → Ord p T [] (for_range lo hi body).
Proof. apply ord_for_n. Qed.

Lemma ord_from_option {A} T D (o : option A) : Ord p T D (from_option o).
Proof. destruct o; [apply ord_ret|apply ord_fail]. Qed.
End rules.

(** ** The request layer *)

Lemma ord_steady {A} T D (m : M (RSt W) A) : Steady m → Ord id T D m.
Proof.
  intros Hm Q L s HI _ _. eapply wlp_mono; [by apply Hm|]. intros a s' (Q' & L' & HI' & HL & HQ).
  exists Q', L'. split_and!; [done|done|]. intros t _ Ht. by apply HQ.
Qed.

Lemma ord_view {A} T D (m : M (RSt W) A) : Keeps flash_view m → Ord id T D m.
Proof. apply (ord_keeps id). Qed.

Lemma ord_zoom {A} T D (m : M (RSt W) A) : Ord id T D m → Ord f_r T D (rM m).
Proof. intros Hm Q L x HI Hnd HT. apply wlp_zoom. by apply (Hm Q L (f_r x)). Qed.

Lemma ord_maps {A} T D (m : M ASt A) : Ord f_r T D (aM (W:=W) m).
Proof. apply ord_keeps, keeps_zoom_other. by intros. Qed.

Lemma ord_global {A V} T D (get : FSt W → V) `{!Field get} (m : M V A) :
  (∀ v x, f_r (fset get v x) = f_r x) → Ord f_r T D (zoom get m).
Proof. intros E. apply ord_keeps, keeps_zoom_other. intros v x. by rewrite E. Qed.

Lemma ord_host {A} T D (m : M (HSt W) A) : Ord f_r T D (hM m).
Proof. apply ord_zoom, ord_view, keeps_zoom_other. intros. reflexivity. Qed.

(** A part of the slot [t] other than the queue it is in. *)
Definition SlotPart {V} t (l : lval (RSt W) V) : Prop := ∀ v old s, peek l s = Some old →
  ∃ r r', q_reqPool (r_q s) !! t = Some r ∧ place r' = place r ∧ poke l v s = set_slot t r' s.

Lemma slot_member {V} t (f : SSD_REQ_FORMAT → V) `{!Field f} :
  (∀ v r, place (fset f v r) = place r) → SlotPart t (rPool.[t]∙f).
Proof.
  intros Hf v old s. cbn. destruct (q_reqPool (r_q s) !! t) as [r|] eqn:Hr; [|done]. intros _.
  by exists r, (fset f v r).
Qed.

Lemma slot_submember {V V'} t (l : lval (RSt W) V) (f : V → V') `{!Field f} :
  SlotPart t l → SlotPart t (l∙f).
Proof. intros Hl v old s. cbn. destruct (peek l s) as [x|] eqn:Hx; [|done]. intros _. by eapply Hl. Qed.

Lemma ord_store {V} T D t (l : lval (RSt W) V) v : t ∈ T → SlotPart t l → Ord id T D (l ::= v).
Proof.
  intros Ht Hl Q L s HI _ HT. apply wlp_store. intros old Hold.
  destruct (Hl v old s Hold) as (r & r' & Hr & Hp & ->). exists Q, L. split_and!; [|done|done].
  eapply Inv_slot; [done|done|done|]. left. by eapply Forall_forall in HT.
Qed.

(** With a slot nobody held before. *)
Lemma ord_after_fresh {X A} (p : X → RSt W) T D (m : M X A) Q L x tag x' :
  Ord p (tag :: T) (tag :: D) m → NoDup T → Forall (held Q) T → Takes Q L (p x) tag (p x') →
  wlp m (λ _ x', ∃ Q' L', Inv Q' L' (p x') ∧ grows L L' ∧ ∀ t, t ∉ D → held Q t → held Q' t) x'.
Proof.
  intros Hm Hnd HT (Q1 & L1 & HI1 & HL1 & HQ1 & Ht & Hnt). eapply wlp_mono; [apply Hm; [done| |]|].
  - constructor; [|done]. intros Hin. by eapply Forall_forall in HT.
  - constructor; [done|]. eapply Forall_impl; [done|]. intros t Hh. by apply HQ1.
  - intros a s2 (Q2 & L2 & HI2 & HL2 & Hh). exists Q2, L2. split_and!; [done|by etrans|].
    intros t HtD Hheld. apply Hh; [|by apply HQ1]. intros [->|]%elem_of_cons; done.
Qed.

Lemma ord_take {A} T D (k : Z → M (RSt W) A) :
  (∀ tag, Ord id (tag :: T) (tag :: D) (k tag)) → Ord id T D (bind GetFromFreeReqQ k).
Proof.
  intros Hk Q L s HI Hnd HT. apply wlp_bind. eapply wlp_mono; [by apply take_free_takes|].
  intros tag s1 Ht. eapply (ord_after_fresh id); eauto.
Qed.

Lemma ord_take_zoom {A} T D (k : Z → M (FSt W) A) :
  (∀ tag, Ord f_r (tag :: T) (tag :: D) (k tag)) → Ord f_r T D (bind (rM GetFromFreeReqQ) k).
Proof.
  intros Hk Q L s HI Hnd HT. apply wlp_bind, wlp_zoom. eapply wlp_mono; [by apply take_free_takes|].
  intros tag s1 Ht. eapply (ord_after_fresh f_r); eauto.
Qed.

Lemma slice_head Q L s h : Inv Q L s → peek ((rQueues (W:=W)).[sliceReqQ]∙headReq) s = Some h →
  h = hdz REQ_SLOT_TAG_NONE (Q sliceReqQ).
Proof.
  intros HI. cbn. destruct (q_queues (r_q s) !! sliceReqQ) as [c|] eqn:Hc; [|done]. intros [= <-].
  by destruct (qi_list _ _ (qf_inv _ _ (inv_queues _ _ _ HI)) _ _ Hc) as [(Hh & _) _].
Qed.

(** The next slice request, if there is one. *)
Lemma ord_next_slice {A} T D (k : Z → M (FSt W) A) :
  (∀ tag, tag ≠ REQ_SLOT_TAG_FAIL → Ord f_r (tag :: T) (tag :: D) (k tag)) →
  Ord f_r T D (k REQ_SLOT_TAG_FAIL) → Ord f_r T D (bind (rM (qM GetFromSliceReqQ)) k).
Proof.
  intros Hk Hfail Q L x HI Hnd HT. apply wlp_bind, wlp_zoom.
  destruct (decide (Q sliceReqQ = [])) as [E|Hne].
  - unfold GetFromSliceReqQ. apply wlp_zoom, wlp_bind, wlp_load. intros h Hh.
    rewrite (slice_head Q L (f_r x) h HI) by done. rewrite E. apply wlp_ret.
    apply Hfail; [|done|done]. by apply (Inv_view Q L (f_r x)).
  - eapply (wlp_take _ OpGetFromSlice); [done|constructor|done|done|done|].
    intros y tag l HQ Hh HI' Hc. assert (Hin : tag ∈ Q sliceReqQ) by (rewrite HQ; by left).
    assert (Hnot : ¬ held Q tag) by (by eapply queued_not_held).
    eapply (ord_after_fresh f_r T D); [apply Hk|done|done|].
    + intros ->. destruct Hh as [Hr _]. pose proof req_count_bound. unfold REQ_SLOT_TAG_FAIL in Hr. lia.
    + eexists _, L. split_and!; [done|done| |done|done].
      eapply Calm_Quiet; [by apply (Calm_leave sliceReqQ [] tag l)|]. by intros ? ->.
Qed.

Lemma ord_select T D tag : Ord id (tag :: T) (tag :: D) (SelectLowLevelReqQ (W:=W) tag).
Proof.
  intros Q L s HI _ HT. eapply wlp_mono; [apply select_places; [done|by apply (Forall_cons_1 _ _ _ HT)]|].
  intros [] s' (Q' & L' & ? & ? & Hh). exists Q', L'. split_and!; [done|done|].
  intros t Hne. apply Hh. set_solver.
Qed.

(** After the slot has been handed over, the caller goes on with the others. *)
Lemma ord_bind_used {A X} (p : X → RSt W) T D tag (m : M X unit) (k : unit → M X A) :
  Ord p (tag :: T) [tag] m → Ord p T (tag :: D) (k tt) → Ord p (tag :: T) (tag :: D) (bind m k).
Proof.
  intros Hm Hk Q L x HI Hnd HT. apply wlp_bind. eapply wlp_mono; [by apply Hm|].
  intros [] x1 (Q1 & L1 & HI1 & HL1 & Hh1). apply NoDup_cons in Hnd as [Hnot Hnd].
  eapply wlp_mono; [apply Hk; [done|done|]|].
  - apply Forall_forall. intros t Ht. apply Hh1; [set_solver|]. eapply Forall_forall in HT; [done|by right].
  - intros a x2 (Q2 & L2 & HI2 & HL2 & Hh2). exists Q2, L2. split_and!; [done|by etrans|].
    intros t HtD Hheld. apply Hh2; [done|]. apply Hh1; [set_solver|done].
Qed.

Lemma ord_put_slice T D tag : Ord id (tag :: T) (tag :: D) (PutToSliceReqQ (W:=W) tag).
Proof.
  intros Q L s HI _ HT. apply Forall_cons in HT as [Ht _]. unfold PutToSliceReqQ. apply wlp_bind.
  eapply (wlp_put _ (OpPutToSlice tag)); [done|constructor|done|done|done|done|]. intros x HI1 Hc.
  eapply wlp_mono; [assert (Hk : Keeps (flash_view (W:=W)) (tag' <- !(rPool.[tag]∙nvmeCmdSlotTag) ;;
    AllocateNvmeDmaCnt tag')) by keeps_deep; apply Hk|]. intros [] s1 E. eexists _, L. split_and!.
  - eapply Inv_view; [exact E|exact HI1].
  - done.
  - intros t Hne [Hr Hn]. split; [done|]. intros q.
    destruct (decide (sliceReqQ = q)) as [<-|]; [|by rewrite fn_lookup_insert_ne].
    rewrite fn_lookup_insert. intros [Hin|Hin]%elem_of_app; [by apply (Hn sliceReqQ)|set_solver].
Qed.

End flash_safe.

(** ** Proof by the shape of the code *)

Create HintDb flash_ord discriminated.
#[export] Hint Constants Opaque : flash_ord.

Ltac slot_part :=
  repeat lazymatch goal with
  | |- SlotPart _ (dot (idx rPool _) _) => apply slot_member; intros ? ?; reflexivity
  | |- SlotPart _ (dot _ _) => apply slot_submember
  end.

Ltac ord_step :=
  lazymatch goal with
  | |- ∀ _, _ => intro
  | |- Ord _ _ _ (bind (bind _ _) _) => apply ord_assoc
  | |- Ord _ _ _ (bind (ret _) _) => apply ord_ret_bind; cbn beta iota
  | |- Ord _ _ _ (bind GetFromFreeReqQ _) => apply ord_take
  | |- Ord _ _ _ (bind (rM GetFromFreeReqQ) _) => apply ord_take_zoom
  | |- Ord _ _ _ (bind (rM (SelectLowLevelReqQ _)) _) =>
      apply ord_bind_used; [apply ord_zoom, ord_select|]
  | |- Ord _ _ _ (bind (SelectLowLevelReqQ _) _) => apply ord_bind_used; [apply ord_select|]
  | |- Ord _ _ _ (bind _ _) => apply ord_bind
  | |- Ord _ _ _ (SelectLowLevelReqQ _) => apply ord_select
  | |- Ord _ _ _ (PutToSliceReqQ _) => apply ord_put_slice
  | |- Ord _ _ _ (aM _) => apply ord_maps
  | |- Ord _ _ _ (hM _) => apply ord_host
  | |- Ord _ _ _ (rM _) => apply ord_zoom
  | |- Ord _ _ _ (ret _) => apply ord_ret
  | |- Ord _ _ _ (fail _) => apply ord_fail
  | |- Ord _ _ _ (from_option _) => apply ord_from_option
  | |- Ord _ _ _ (when _ _) => apply ord_when
  | |- Ord _ _ _ (if ?b then _ else _) => destruct b
  | |- Ord _ _ _ (match ?x with _ => _ end) => destruct x
  | |- Ord _ _ [] (loop _ _ _) => apply ord_loop
  | |- Ord _ _ [] (for_acc _ _ _ _) => apply ord_for_acc
  | |- Ord _ _ [] (for_range _ _ _) => apply ord_for_range
  | |- Ord _ _ _ (load _) => apply ord_keeps, keeps_load
  | |- Ord _ _ _ (store (glob _) _) => apply ord_keeps, keeps_store; intros ? ?; reflexivity
  | |- Ord _ _ _ (store (dot _ _) _) =>
      first [eapply ord_store; [|solve [slot_part]]; [solve [auto with flash_ord]]
            |apply ord_view; solve [keeps_deep]]
  | |- Ord _ _ _ _ => first
      [ solve [auto with flash_ord] | solve [apply ord_mono; auto with flash_ord] | apply ord_view; solve [keeps_deep] ]
  end.
Ltac ord := repeat ord_step.

#[export] Hint Resolve list_elem_of_here list_elem_of_further : flash_ord.

Section firmware.
Context `{ConfigOk} {W : Type} `{Device W} `{Fuel}.
Implicit Types (tag t : Z) (T D : list Z).

Lemma ord_fill_nand_req T D t code fmt a ecc dep space fua c b :
  t ∈ T → Ord id T D (fill_nand_req (W:=W) t code fmt a ecc dep space fua c b).
Proof. intros Ht. unfold fill_nand_req. ord. Qed.
Lemma ord_fill_physical T D t c w b p : t ∈ T → Ord id T D (fill_physical (W:=W) t c w b p).
Proof. intros Ht. unfold fill_physical. ord. Qed.
#[local] Hint Resolve ord_fill_nand_req ord_fill_physical : flash_ord.
#[local] Hint Extern 1 (LKeeps flash_view (dot (idx rPool _) _)) => apply lkeeps_slot; reflexivity : keeps.
#[local] Hint Resolve keeps_q_load : keeps.

Lemma ord_sync_all T D : Ord id T D (SyncAllLowLevelReqDone (W:=W)).
Proof. apply ord_steady, steady_SyncAllLowLevelReqDone. Qed.
#[local] Hint Resolve ord_sync_all : flash_ord.

(** ** Garbage collection and writes *)

Lemma ord_EraseBlock T d b : Ord f_r T [] (EraseBlock (W:=W) d b).
Proof. unfold EraseBlock. ord. Qed.
Lemma ord_gc_copy T d b lsa vsa : Ord f_r T [] (gc_copy (W:=W) d b lsa vsa).
Proof. unfold gc_copy, gc_request. ord. Qed.
#[local] Hint Resolve ord_EraseBlock ord_gc_copy : flash_ord.
Lemma ord_GarbageCollection T d : Ord f_r T [] (GarbageCollection (W:=W) d).
Proof. unfold GarbageCollection. ord. Qed.
#[local] Hint Resolve ord_GarbageCollection : flash_ord.
Lemma ord_FindFreeVirtualSlice T : Ord f_r T [] (FindFreeVirtualSlice (W:=W)).
Proof. unfold FindFreeVirtualSlice. ord. Qed.
#[local] Hint Resolve ord_FindFreeVirtualSlice : flash_ord.
Lemma ord_AddrTransWrite T lsa : Ord f_r T [] (AddrTransWrite (W:=W) lsa).
Proof. unfold AddrTransWrite. ord. Qed.
#[local] Hint Resolve ord_AddrTransWrite : flash_ord.

(** ** Start-up and the bad block table *)

Lemma ord_physical_request T code fmt ecc d b p buf :
  Ord id T [] (physical_request (W:=W) code fmt ecc d b p buf).
Proof. unfold physical_request. ord. Qed.
Lemma ord_init_request T code c w : Ord id T [] (init_request (W:=W) code c w).
Proof. unfold init_request. ord. Qed.
#[local] Hint Resolve ord_physical_request ord_init_request : flash_ord.
Lemma ord_ReadBadBlockTable T f n : Ord id T [] (ReadBadBlockTable (W:=W) f n).
Proof. unfold ReadBadBlockTable. ord. Qed.
Lemma ord_find_bad_step T st f g b chk : Ord id T [] (find_bad_step (W:=W) st f g b chk).
Proof. unfold find_bad_step, unchecked, marks_clean. ord. Qed.
Lemma ord_SaveBadBlockTable T st f n : Ord id T [] (SaveBadBlockTable (W:=W) st f n).
Proof. unfold SaveBadBlockTable. ord. Qed.
#[local] Hint Resolve ord_ReadBadBlockTable ord_find_bad_step ord_SaveBadBlockTable : flash_ord.
Lemma ord_RecoverBadBlockTable T a : Ord id T [] (RecoverBadBlockTable (W:=W) a).
Proof. unfold RecoverBadBlockTable, FindBadBlock, take_over_table. ord. Qed.
Lemma ord_UpdateBadBlockTable T a : Ord id T [] (UpdateBadBlockTableForGrownBadBlock (W:=W) a).
Proof. unfold UpdateBadBlockTableForGrownBadBlock. ord. Qed.
Lemma ord_EraseTotalBlockSpace T : Ord id T [] (EraseTotalBlockSpace (W:=W)).
Proof. unfold EraseTotalBlockSpace. ord. Qed.
Lemma ord_EraseUserBlockSpace T : Ord f_r T [] (EraseUserBlockSpace (W:=W)).
Proof. unfold EraseUserBlockSpace. ord. Qed.
Lemma ord_InitNandArray T : Ord id T [] (InitNandArray (W:=W)).
Proof. unfold InitNandArray. ord. Qed.
#[local] Hint Resolve ord_RecoverBadBlockTable ord_UpdateBadBlockTable ord_EraseTotalBlockSpace
  ord_EraseUserBlockSpace ord_InitNandArray : flash_ord.
Lemma ord_RemapBadBlock T : Ord f_r T [] (RemapBadBlock (W:=W)).
Proof. unfold RemapBadBlock, remap_die, remap_block. ord. Qed.
Lemma ord_InitBlockMap T : Ord f_r T [] (InitBlockMap (W:=W)).
Proof. unfold InitBlockMap. ord. Qed.
#[local] Hint Resolve ord_RemapBadBlock ord_InitBlockMap : flash_ord.
Lemma ord_InitAddressMap T : Ord f_r T [] (InitAddressMap (W:=W)).
Proof. unfold InitAddressMap, InitBlockDieMap. ord. Qed.
#[local] Hint Resolve ord_InitAddressMap : flash_ord.

(** ** Commands *)

Lemma ord_slice_request T tag code fua custom p : Ord id T [] (slice_request (W:=W) tag code fua custom p).
Proof. unfold slice_request. ord. Qed.
#[local] Hint Resolve ord_slice_request : flash_ord.
Lemma ord_ReqTransNvmeToSlice T tag lba n code fua custom :
  Ord id T [] (ReqTransNvmeToSlice (W:=W) tag lba n code fua custom).
Proof. unfold ReqTransNvmeToSlice. ord. Qed.
#[local] Hint Resolve ord_ReqTransNvmeToSlice : flash_ord.

Lemma ord_evict_entry T buf block t :
  LKeeps flash_view buf → (∀ e tag, Keeps flash_view (block e tag)) → t ∈ T →
  Ord f_r T [] (evict_entry (W:=W) buf block t).
Proof. intros Hbuf Hblock Ht. unfold evict_entry. ord. Qed.
Lemma ord_read_entry T block t :
  (∀ e tag, Keeps flash_view (block e tag)) → t ∈ T → Ord f_r T [] (read_entry (W:=W) block t).
Proof. intros Hblock Ht. unfold read_entry. ord. Qed.

Lemma keeps_UpdateDataBuf e t : Keeps flash_view (UpdateDataBufEntryInfoBlockingReq (W:=W) e t).
Proof. keeps_deep. Qed.
Lemma keeps_UpdateCcmdDataBuf e t : Keeps flash_view (UpdateCcmdDataBufEntryInfoBlockingReq (W:=W) e t).
Proof. keeps_deep. Qed.
#[local] Hint Resolve keeps_UpdateDataBuf keeps_UpdateCcmdDataBuf : keeps.

Lemma ord_EvictDataBufEntry T t : t ∈ T → Ord f_r T [] (EvictDataBufEntry (W:=W) t).
Proof. apply ord_evict_entry; [intros ? ?; reflexivity|exact keeps_UpdateDataBuf]. Qed.
Lemma ord_EvictCcmdDataBufEntry T t : t ∈ T → Ord f_r T [] (EvictCcmdDataBufEntry (W:=W) t).
Proof. apply ord_evict_entry; [intros ? ?; reflexivity|exact keeps_UpdateCcmdDataBuf]. Qed.
Lemma ord_DataReadFromNand T t : t ∈ T → Ord f_r T [] (DataReadFromNand (W:=W) t).
Proof. apply ord_read_entry. exact keeps_UpdateDataBuf. Qed.
Lemma ord_CcmdDataReadFromNand T t : t ∈ T → Ord f_r T [] (CcmdDataReadFromNand (W:=W) t).
Proof. apply ord_read_entry. exact keeps_UpdateCcmdDataBuf. Qed.
#[local] Hint Resolve ord_EvictDataBufEntry ord_EvictCcmdDataBufEntry ord_DataReadFromNand
  ord_CcmdDataReadFromNand : flash_ord.

Lemma ord_find_entry T t : t ∈ T → Ord f_r T [] (find_entry (W:=W) t).
Proof. intros Ht. unfold find_entry, allocate_on_miss. ord. Qed.
Lemma ord_to_dma T t e : t ∈ T → Ord id T [] (to_dma (W:=W) t e).
Proof. intros Ht. unfold to_dma. ord. Qed.
#[local] Hint Resolve ord_find_entry ord_to_dma : flash_ord.

Lemma ord_ReqTransSliceToLowLevel T : Ord f_r T [] (ReqTransSliceToLowLevel (W:=W)).
Proof.
  unfold ReqTransSliceToLowLevel. apply ord_loop. intros _. apply ord_bind; [ord|]. intros h.
  case_match; [ord|]. apply ord_next_slice; [|apply ord_ret]. intros tag Htag.
  destruct (Z.eqb_spec tag REQ_SLOT_TAG_FAIL); [done|]. ord.
Qed.
#[local] Hint Resolve ord_ReqTransSliceToLowLevel : flash_ord.

(** ** The main loop *)

Lemma ord_assert T D b : Ord f_r T D (ASSERT (S:=FSt W) b).
Proof. destruct b; [apply ord_ret|apply ord_fail]. Qed.
#[local] Hint Resolve ord_assert : flash_ord.

Lemma ord_handle_nvme_admin_cmd T cmd : Ord f_r T [] (handle_nvme_admin_cmd (W:=W) cmd).
Proof.
  unfold handle_nvme_admin_cmd. apply ord_bind; [|ord].
  unfold handle_set_features, get_num_of_queue, handle_create_io_cq, handle_create_io_sq, handle_identify,
    handle_get_features, handle_delete_io_cq, handle_delete_io_sq, handle_get_log_page.
  ord.
Qed.
#[local] Hint Resolve ord_handle_nvme_admin_cmd : flash_ord.
Lemma ord_handle_nvme_io_cmd T cmd : Ord f_r T [] (handle_nvme_io_cmd (W:=W) cmd).
Proof.
  unfold handle_nvme_io_cmd, handle_nvme_io_write, handle_nvme_io_read, handle_nvme_io_write_read,
    check_lba, check_prp. ord.
Qed.
#[local] Hint Resolve ord_handle_nvme_io_cmd : flash_ord.

Lemma ord_nvme_task T n : Ord f_r T [] (nvme_task (W:=W) n).
Proof. unfold nvme_task. ord. Qed.
#[local] Hint Resolve ord_nvme_task : flash_ord.

Lemma ord_advance T D :
  Ord id T D (CheckDoneNvmeDmaReq (W:=W)) ∧ Ord id T D (CheckDoneCustomCmdDmaReq (W:=W)) ∧
  Ord id T D (SchedulingNandReq (W:=W)).
Proof.
  split_and!; apply ord_steady; [apply steady_done_dma|apply steady_done_custom|apply steady_SchedulingNandReq].
Qed.

Lemma ord_nvme_main_step T n : Ord f_r T [] (nvme_main_step (W:=W) n).
Proof.
  unfold nvme_main_step. pose proof (ord_advance T []) as (? & ? & ?).
  ord.
Qed.

(** ** Start-up *)

(** The dependency table has the entries of the array of the code. *)
Definition TableShape (dep : dep_table) : Prop := ∀ c w b e, dep !! (c, w, b) = Some e →
  0 ≤ c < USER_CHANNELS ∧ 0 ≤ w < USER_WAYS ∧ 0 ≤ b < MAIN_BLOCKS_PER_DIE.

(** The memory before start-up: the arrays exist, and the counter that
    InitReqPool leaves alone has its initial value. *)
Record Boot (s : RSt W) : Prop := {
  boot_queues : QShape (r_q s);
  boot_custom : q_notCompletedCustomCmdCnt (r_q s) = 0;
  boot_table : TableShape (r_rowAddrDep s);
}.

(** The entry has not been cleared yet. *)
Definition stale (s : RSt W) (loc : location) : Prop :=
  ∃ e, r_rowAddrDep s !! loc = Some e ∧ permittedProgPage e ≠ 0.

(** The entries [hit] are cleared, the others as before. *)
Definition Clears (hit : location → Prop) (m : M (RSt W) unit) : Prop := ∀ s,
  wlp m (λ _ s', r_q s' = r_q s ∧ ∀ l, stale s' l → stale s l ∧ ¬ hit l) s.

Lemma clears_entry loc :
  Clears (λ l, l = loc) (rowAddrDep.[loc]∙permittedProgPage ::= 0 ;;
    rowAddrDep.[loc]∙blockedReadReqCnt ::= 0 ;; rowAddrDep.[loc]∙blockedEraseReqFlag ::= 0).
Proof.
  intros s. apply wlp_bind, wlp_dep_store. intros e He. apply wlp_bind, wlp_dep_store. intros e1 He1.
  apply wlp_dep_store. intros e2 He2. split; [done|]. intros l (e' & Hl & Hp). revert He1 He2 Hl. cbn.
  rewrite !lookup_insert_eq. destruct (decide (loc = l)) as [<-|Hne].
  - rewrite !lookup_insert_eq. intros [= <-] [= <-] [= <-]. by destruct Hp.
  - rewrite !lookup_insert_ne by done. intros _ _ Hl. split; [by exists e'|done].
Qed.

Lemma clears_for_n n lo (hit : Z → location → Prop) body :
  (∀ i, Clears (hit i) (body i)) →
  Clears (λ l, ∃ i, lo ≤ i < lo + Z.of_nat n ∧ hit i l) (for_n n lo body).
Proof.
  intros Hb. revert lo. induction n as [|n IH]; intros lo s; cbn [for_n].
  - apply wlp_ret. split; [done|]. intros l Hl. split; [done|]. intros (i & ? & _). lia.
  - apply wlp_bind. eapply wlp_mono; [apply Hb|]. intros [] s1 [E1 Hs1].
    eapply wlp_mono; [apply IH|]. intros [] s2 [E2 Hs2]. split; [congruence|]. intros l Hl.
    destruct (Hs2 l Hl) as [Hl1 Hno]. destruct (Hs1 l Hl1) as [Hl0 Hnot]. split; [done|].
    intros (i & Hi & Hit). destruct (decide (i = lo)) as [->|]; [done|]. apply Hno. exists i. split; [lia|done].
Qed.

Lemma clears_for_range hi (hit : Z → location → Prop) body :
  (∀ i, Clears (hit i) (body i)) → Clears (λ l, ∃ i, 0 ≤ i < hi ∧ hit i l) (for_range 0 hi body).
Proof.
  intros Hb s. eapply wlp_mono; [by apply clears_for_n|]. intros [] s' [E Hs]. split; [done|].
  intros l Hl. destruct (Hs l Hl) as [? Hno]. split; [done|]. intros (i & Hi & Hit). apply Hno.
  exists i. split; [lia|done].
Qed.

Lemma InitDependencyTable_spec (s : RSt W) :
  TableShape (r_rowAddrDep s) → wlp InitDependencyTable (λ _ s', r_q s' = r_q s ∧ ∀ loc, ¬ stale s' loc) s.
Proof.
  intros HB. unfold InitDependencyTable. eapply wlp_mono.
  { apply clears_for_range. intros b. apply clears_for_range. intros w. apply clears_for_range. intros c.
    apply clears_entry. }
  intros [] s' [E Hs]. split; [done|]. intros [[c w] b] Hl. destruct (Hs _ Hl) as [(e & He & _) Hno].
  apply HB in He as (Hc & Hw & Hb). apply Hno. eauto 10.
Qed.

Lemma Inv_start s Q : QFull (r_q s) Q → (∀ c w, Q (nandReqQ c w) = []) →
  (∀ c w, Q (blockedByRowAddrDepReqQ c w) = []) → (∀ loc, ¬ stale s loc) → Inv Q (λ _, []) s.
Proof.
  intros HQ Hn Hr Hs. split; [done| | |].
  - intros [[c w] b]. exists []. cbn. by rewrite Hn.
  - intros loc e He. cbn. f_equal. destruct (decide (permittedProgPage e = 0)) as [->|]; [done|].
    destruct (Hs loc). by exists e.
  - intros c w tag. rewrite Hr. set_solver.
Qed.

Lemma start_requests x :
  Boot (f_r x) →
  wlp (rM (qM InitReqPool) ;; rM InitDependencyTable) (λ _ x', Inv initial_queues (λ _, []) (f_r x')) x.
Proof.
  intros [HS Hc HT]. apply wlp_bind, wlp_zoom, wlp_zoom.
  eapply wp_wlp, wp_mono; [by apply InitReqPool_spec|]. intros [] y HF. apply wlp_zoom.
  eapply wlp_mono; [by apply InitDependencyTable_spec|]. intros [] s' [E Hs].
  apply Inv_start; [|done|done|done]. cbn. rewrite E. exact HF.
Qed.

(** A run of code that holds no slots. *)
Lemma ord_run {A} (m : M (FSt W) A) Q L x :
  Ord f_r [] [] m → Inv Q L (f_r x) →
  wlp m (λ _ x', ∃ Q' L', Inv Q' L' (f_r x') ∧ grows L L' ∧ ∀ t, held Q t → held Q' t) x.
Proof.
  intros Hm HI. eapply wlp_mono; [apply Hm; [exact HI|constructor|constructor]|].
  intros a x' (Q' & L' & ? & ? & Hh). exists Q', L'. split_and!; [done|done|]. intros t. apply Hh. set_solver.
Qed.

Lemma InitFTL_flash_order x :
  Boot (f_r x) → wlp InitFTL (λ _ x', ∃ Q L, Inv Q L (f_r x')) x.
Proof.
  intros HB. unfold InitFTL.
  apply (wlp_keeping (λ x, (r_q (f_r x), r_rowAddrDep (f_r x)))); [keeps_deep|]. intros [] x1 [= E1 E1'].
  apply (wlp_keeping (λ x, (r_q (f_r x), r_rowAddrDep (f_r x))));
    [apply (keeps_zoom _ _ (λ s, (r_q s, r_rowAddrDep s))); [keeps_deep|intros c s E; exact E]|].
  intros [] x2 [= E2 E2'].
  assert (Boot (f_r x2)) as HB2.
  { destruct HB as [HS Hc HT]. rewrite <- E1, <- E2 in HS, Hc. rewrite <- E1', <- E2' in HT. done. }
  apply wlp_assoc, wlp_bind. eapply wlp_mono; [by apply start_requests|]. intros [] x3 HI.
  eapply wlp_mono; [eapply ord_run; [ord|exact HI]|]. intros [] x4 (Q & L & ? & _). by exists Q, L.
Qed.

Lemma ord_main_steps n i c :
  Ord f_r [] [] (for_acc_n n i (λ _ rstCnt, nvme_main_step (W:=W) rstCnt) c).
Proof. apply ord_for_acc_n. intros _ c'. apply ord_nvme_main_step. Qed.

(** ** What the invariant gives *)

Lemma wlp_q_load {V} (l : lval QSt V) (Φ : V → RSt W → Prop) s :
  (∀ v, peek l (r_q s) = Some v → Φ v s) → wlp (qM (load l)) Φ s.
Proof. intros HΦ. apply wlp_zoom, wlp_load. intros v Hv. destruct s. by apply HΦ. Qed.

Lemma total_zero f Q c w :
  total f Q = 0%nat → 0 ≤ c < USER_CHANNELS → 0 ≤ w < USER_WAYS → Q (f c w) = [].
Proof.
  intros Ht Hc Hw. assert (Hin : (c, w) ∈ all_ways) by (by apply elem_of_all_ways).
  unfold total in Ht. induction all_ways as [|p l IH]; [by apply elem_of_nil in Hin|]. cbn in Ht.
  apply elem_of_cons in Hin as [<-|Hin]; [apply length_zero_iff_nil; cbn in Ht; lia|]. apply IH; [lia|done].
Qed.

(** Nothing is waiting for the flash or the host. *)
Definition idle (Q : queue_id → list Z) : Prop :=
  Q nvmeDmaReqQ = [] ∧ Q blockedByBufDepReqQ = [] ∧
  ∀ c w, 0 ≤ c < USER_CHANNELS → 0 ≤ w < USER_WAYS →
    Q (nandReqQ c w) = [] ∧ Q (blockedByRowAddrDepReqQ c w) = [].

Lemma idle_counters Q L s :
  Inv Q L s → peek ((rQueues (W:=W)).[nvmeDmaReqQ]∙headReq) s = Some REQ_SLOT_TAG_NONE →
  q_notCompletedNandReqCnt (r_q s) = 0 → q_blockedReqCnt (r_q s) = 0 → idle Q.
Proof.
  intros [[HI Hn Hb _] _ _ _] Hh En Eb. cbn in Hh.
  destruct (q_queues (r_q s) !! nvmeDmaReqQ) as [k|] eqn:Hk; [|done].
  destruct (qi_list _ _ HI _ _ Hk) as [Hd _].
  split_and!.
  - destruct Hd as (E & _ & _ & _ & Hdom). destruct (Q nvmeDmaReqQ) as [|t l]; [done|]. cbn in E, Hdom.
    apply Forall_cons in Hdom as [Ht _]. injection Hh as Hh. rewrite <- E, Hh in Ht. lia.
  - apply length_zero_iff_nil. lia.
  - intros c w Hc Hw. split; apply total_zero; done || lia.
Qed.

Section properties.
Implicit Types (s : RSt W) (Q : queue_id → list Z) (L : location → list flash_op).


(** C21: SelectLowLevelReqQ keeps the flash order.  Whatever request a caller
    that holds its slot hands over, the request layer stays in its invariant,
    the sequence of each block only grows at its end, and the slots of other
    holders stay in no queue. *)
Theorem select_keeps_flash_order tag Q L s :
  Inv Q L s → held Q tag →
  wlp (SelectLowLevelReqQ tag) (λ _ s', ∃ Q' L', Inv Q' L' s' ∧ grows L L' ∧
    ∀ t, t ≠ tag → held Q t → held Q' t) s.
Proof. apply select_places. Qed.


End properties.
End firmware.
