(* ===== verification/WaySafe.v ===== *)
(** The way lists in the whole firmware: InitReqScheduler puts every way on the
    idle list, and start-up, command processing, garbage collection and the main
    loop keep every way on exactly one list. *)
From stdpp Require Import functions.
From S2P Require Import Prelude Frame Dll Config MemMap ReqFormat ReqQueues DataBuffer AddrMap State HostLld.
From S2P Require Import Nsc HostTime CustomIo LowLevel HostDma Schedule FlashOrder ReqInv WayLists Ftl BadBlock Transform Nvme.

Section way_safe.
Context `{ConfigOk} {W : Type} `{Device W} `{Fuel}.

(** ** Operations that keep the lists *)

Abbreviation ways_r := (λ s : RSt W, WaysOk (r_sched s)).
Abbreviation ways_f := (λ x : FSt W, WaysOk (r_sched (f_r x))).

Lemma ways_keeps {A} (m : M (RSt W) A) : Keeps r_sched m → Stable ways_r m.
Proof. intros Hm. eapply stable_keeps; [exact Hm|]. by intros s s' ->. Qed.
Lemma ways_keeps_f {A} (m : M (FSt W) A) : Keeps (λ x, r_sched (f_r x)) m → Stable ways_f m.
Proof. intros Hm. eapply stable_keeps; [exact Hm|]. cbn. by intros s s' ->. Qed.
Lemma ways_zoom {A} (m : M (RSt W) A) : Stable ways_r m → Stable ways_f (zoom f_r m).
Proof. intros Hm. by eapply stable_zoom. Qed.

(** Decompose a computation; operations that schedule are in the database
    [stable], the others keep the tables of the scheduler. *)
Ltac ways_step :=
  first
    [ assumption
    | solve [auto with stable nocore]
    | lazymatch goal with
      | |- forall _, _ => intro
      | |- Stable _ (bind _ _) => apply stable_bind
      | |- Stable _ (ret _) => apply stable_ret
      | |- Stable _ (when _ _) => apply stable_when
      | |- Stable _ (loop _ _ _) => apply stable_loop
      | |- Stable _ (for_range _ _ _) => apply stable_for_range
      | |- Stable _ (for_acc _ _ _ _) => apply stable_for_acc
      | |- Stable _ (for_acc_n _ _ _ _) => apply stable_for_acc_n
      | |- Stable _ (match ?x with _ => _ end) => destruct x
      | |- Stable _ (zoom f_r _) => apply ways_zoom
      | |- Stable _ (zoom _ _) =>
          first [apply ways_keeps | apply ways_keeps_f]; apply keeps_zoom_other; intros ? ?; reflexivity
      | |- Stable _ (fail _) => first [apply ways_keeps | apply ways_keeps_f]; keeps
      | |- Stable _ (load _) => first [apply ways_keeps | apply ways_keeps_f]; keeps
      | |- Stable _ (store _ _) => first [apply ways_keeps | apply ways_keeps_f]; solve [keeps]
      | |- Stable _ (modify _ _) => first [apply ways_keeps | apply ways_keeps_f]; solve [keeps]
      | |- Stable _ (from_option _) => first [apply ways_keeps | apply ways_keeps_f]; keeps
      | |- Stable _ ?m => let f := head_of m in unfold f
      end
    | progress cbn beta zeta ].
Ltac ways := repeat ways_step.

(** The loops fail in whatever way: every invariant and every error will do. *)
Lemma wpe_any {A} (m : M (RSt W) A) s : wpe m (λ _ _, True) (λ _, True) s.
Proof. unfold wpe. by destruct (m s). Qed.

Lemma ways_SchedulingNandReq : Stable ways_r (SchedulingNandReq (W:=W)).
Proof.
  intros s HW. eapply wlp_mono; [eapply wpe_wlp, (SchedulingNandReq_ok (λ _, True) (λ _, True)); try done;
    intros; apply wpe_any|]. by intros _ s' [].
Qed.
#[local] Hint Resolve ways_SchedulingNandReq : stable.

Lemma ways_done_dma : Stable ways_r (CheckDoneNvmeDmaReq (W:=W)).
Proof. apply ways_keeps. keeps_deep. Qed.
Lemma ways_done_custom : Stable ways_r (CheckDoneCustomCmdDmaReq (W:=W)).
Proof. apply ways_keeps. keeps_deep. Qed.
#[local] Hint Resolve ways_done_dma ways_done_custom : stable.

Lemma ways_GetFromFreeReqQ : Stable ways_r (GetFromFreeReqQ (W:=W)).
Proof. ways. Qed.
Lemma ways_SyncAll : Stable ways_r (SyncAllLowLevelReqDone (W:=W)).
Proof. ways. Qed.
Lemma ways_SelectLowLevelReqQ tag : Stable ways_r (SelectLowLevelReqQ (W:=W) tag).
Proof. ways. Qed.
#[local] Hint Resolve ways_GetFromFreeReqQ ways_SyncAll ways_SelectLowLevelReqQ : stable.

Lemma ways_AddrTransWrite lsa : Stable ways_f (AddrTransWrite (W:=W) lsa).
Proof. ways. Qed.
#[local] Hint Resolve ways_AddrTransWrite : stable.
Lemma ways_ReqTransSliceToLowLevel : Stable ways_f (ReqTransSliceToLowLevel (W:=W)).
Proof. ways. Qed.
Lemma ways_ReqTransNvmeToSlice a b c d e f : Stable ways_r (ReqTransNvmeToSlice (W:=W) a b c d e f).
Proof. ways. Qed.
#[local] Hint Resolve ways_ReqTransSliceToLowLevel ways_ReqTransNvmeToSlice : stable.

Lemma ways_nvme_task n : Stable ways_f (nvme_task (W:=W) n).
Proof. ways. Qed.
#[local] Hint Resolve ways_nvme_task : stable.
Lemma ways_nvme_main_step n : Stable ways_f (nvme_main_step (W:=W) n).
Proof. ways. Qed.
Lemma ways_InitNandArray : Stable ways_r (InitNandArray (W:=W)).
Proof. ways. Qed.
Lemma ways_InitAddressMap : Stable ways_f (InitAddressMap (W:=W)).
Proof. ways. Qed.

(** ** Initialisation *)

Implicit Types (s : RSt W) (c w : Z).

(** The tables have the entries of the arrays of the code. *)
Definition SchedShape (s : SSt) : Prop :=
  ∀ c, 0 ≤ c < USER_CHANNELS →
    is_Some (s_wayPriority s !! c) ∧ ∃ ways, s_dieState s !! c = Some ways ∧ array USER_WAYS ways.

(** All ways idle. *)
Definition idle_list : WAY_PRIORITY_ENTRY :=
  let none := MkWAY_LIST WAY_NONE WAY_NONE in
  MkWAY_PRIORITY_ENTRY (MkWAY_LIST 0 (USER_WAYS - 1)) none none none none none none.
Definition idle_ways (i : way_list_id) : list Z := if decide (i = idleL) then seqZ 0 USER_WAYS else [].

(** Channel [c] up to way [n]: the lists are empty but the idle one, and the ways
    before [n] are chained. *)
Definition Chained c n s : Prop :=
  s_wayPriority (r_sched s) !! c = Some idle_list ∧
  ∃ ways, s_dieState (r_sched s) !! c = Some ways ∧ array USER_WAYS ways ∧
    ∀ w, 0 ≤ w < n → ∃ e, ways !! w = Some e ∧ dieState e = DIE_STATE_IDLE ∧
      (w ≠ 0 → prevWay e = w - 1) ∧ nextWay e = w + 1.

Lemma Listed_idle c s ways :
  s_wayPriority (r_sched s) !! c = Some idle_list →
  s_dieState (r_sched s) !! c = Some ways → array USER_WAYS ways →
  (∀ w, 0 ≤ w < USER_WAYS → ∃ e, ways !! w = Some e ∧ dieState e = DIE_STATE_IDLE ∧
      prevWay e = (if w =? 0 then WAY_NONE else w - 1) ∧
      nextWay e = (if w =? USER_WAYS - 1 then WAY_NONE else w + 1)) →
  Listed c idle_ways s.
Proof.
  intros He Hw Ha Hc. pose proof cfg_ways as Hn. unfold NSC_MAX_WAYS in Hn. split.
  - exists ways, idle_list. split_and!; [done|done|done| |].
    + split.
      * intros i. unfold idle_ways. destruct i; cbn; try apply dll_nil.
        rewrite decide_True by done. apply dll_seqZ; [cbn; unfold WAY_NONE; lia|]. intros j Hj.
        destruct (Hc j Hj) as (e & ? & _ & ? & ?). by exists e.
      * intros i j w. unfold idle_ways. do 2 case_decide; subst; set_solver.
    + intros i w n Hi _ Hwn. unfold idle_ways in Hi. case_decide; [subst|set_solver].
      apply elem_of_seqZ in Hi. destruct (Hc w ltac:(lia)) as (e & ? & ? & _). by simplify_eq.
  - intros w Hr. exists idleL. unfold idle_ways. rewrite decide_True by done. apply elem_of_seqZ. lia.
Qed.

(** Assignments to the entry of a channel and to the entry of a way. *)
Lemma wlp_priority_store (f : WAY_PRIORITY_ENTRY → WAY_LIST) (g : WAY_LIST → Z) `{!Field f} `{!Field g} v c s :
  wlp (rWayPriority.[c]∙f∙g ::= v) (λ _ s', ∃ e, s_wayPriority (r_sched s) !! c = Some e ∧
    s_wayPriority (r_sched s') = <[c := fset f (fset g v (f e)) e]> (s_wayPriority (r_sched s)) ∧
    s_dieState (r_sched s') = s_dieState (r_sched s)) s.
Proof.
  apply wlp_store. intros old. cbn. destruct (s_wayPriority (r_sched s) !! c) as [e|]; [|done].
  intros _. exists e. done.
Qed.

Lemma wlp_way_store (f : DIE_STATE_ENTRY → Z) `{!Field f} v c w s ways :
  s_dieState (r_sched s) !! c = Some ways →
  wlp (rDieState.[c].[w]∙f ::= v) (λ _ s', ∃ n, ways !! w = Some n ∧
    s_dieState (r_sched s') = <[c := <[w := fset f v n]> ways]> (s_dieState (r_sched s)) ∧
    s_wayPriority (r_sched s') = s_wayPriority (r_sched s)) s.
Proof.
  intros Hc. apply wlp_store. intros old. cbn. rewrite Hc. cbn. destruct (ways !! w) as [n|]; [|done].
  intros _. by exists n.
Qed.

(** The lists of one channel. *)
Lemma init_lists {A} c (k : M (RSt W) A) (Φ : A → RSt W → Prop) s :
  (∀ s', s_wayPriority (r_sched s') = <[c := idle_list]> (s_wayPriority (r_sched s)) →
         s_dieState (r_sched s') = s_dieState (r_sched s) → wlp k Φ s') →
  wlp (rWayPriority.[c]∙idleList∙headWay ::= 0 ;;
    rWayPriority.[c]∙idleList∙tailWay ::= USER_WAYS - 1 ;;
    rWayPriority.[c]∙statusReportList∙headWay ::= WAY_NONE ;;
    rWayPriority.[c]∙statusReportList∙tailWay ::= WAY_NONE ;;
    rWayPriority.[c]∙eraseList∙headWay ::= WAY_NONE ;;
    rWayPriority.[c]∙eraseList∙tailWay ::= WAY_NONE ;;
    rWayPriority.[c]∙readTriggerList∙headWay ::= WAY_NONE ;;
    rWayPriority.[c]∙readTriggerList∙tailWay ::= WAY_NONE ;;
    rWayPriority.[c]∙writeList∙headWay ::= WAY_NONE ;;
    rWayPriority.[c]∙writeList∙tailWay ::= WAY_NONE ;;
    rWayPriority.[c]∙readTransferList∙headWay ::= WAY_NONE ;;
    rWayPriority.[c]∙readTransferList∙tailWay ::= WAY_NONE ;;
    rWayPriority.[c]∙statusCheckList∙headWay ::= WAY_NONE ;;
    rWayPriority.[c]∙statusCheckList∙tailWay ::= WAY_NONE ;; k) Φ s.
Proof.
  intros Hk. pose proof cfg_ways as Hn. unfold NSC_MAX_WAYS in Hn.
  assert (∀ s1 m e v (f : WAY_PRIORITY_ENTRY → WAY_LIST) (g : WAY_LIST → Z) `{!Field f} `{!Field g},
    s_wayPriority (r_sched s1) = <[c := e]> m → s_dieState (r_sched s1) = s_dieState (r_sched s) →
    wlp (rWayPriority.[c]∙f∙g ::= v) (λ _ s', s_wayPriority (r_sched s') = <[c := fset f (fset g v (f e)) e]> m ∧
             s_dieState (r_sched s') = s_dieState (r_sched s)) s1) as Hstep.
  { intros s1 m e v f g ?? Ep Ed. eapply wlp_mono; [apply wlp_priority_store|]. cbn beta.
    intros [] s2 (e' & He' & Ep' & Ed'). rewrite Ep, lookup_insert_eq in He'. injection He' as <-.
    rewrite Ep', Ep, insert_insert_eq, Ed'. done. }
  apply wlp_bind. eapply wlp_mono; [apply wlp_priority_store|]. cbn beta. intros [] s1 ([] & _ & Ep & Ed).
  unfold fset, set_idleList, set_headWay in Ep; cbn -[wrap] in Ep.
  do 13 (apply wlp_bind; eapply wlp_mono; [by apply Hstep|]; clear s1 Ep Ed; cbn beta; intros [] s1 [Ep Ed];
    unfold fset, set_idleList, set_statusReportList, set_eraseList, set_readTriggerList, set_writeList,
    set_readTransferList, set_statusCheckList, set_headWay, set_tailWay in Ep; cbn -[wrap] in Ep).
  apply Hk; [|done]. rewrite Ep. f_equal. unfold idle_list.
  by rewrite !(wrap_small 4) by (unfold WAY_NONE; lia).
Qed.

(** Two assignments to members of a way. *)
Lemma wlp_way_then {A} (f : DIE_STATE_ENTRY → Z) `{!Field f} v c w ways (k : M (RSt W) A) Φ s :
  s_dieState (r_sched s) !! c = Some ways →
  (∀ n s', ways !! w = Some n → s_dieState (r_sched s') !! c = Some (<[w := fset f v n]> ways) →
    Others c (r_sched s) (r_sched s') → s_wayPriority (r_sched s') = s_wayPriority (r_sched s) →
    wlp k Φ s') →
  wlp (rDieState.[c].[w]∙f ::= v ;; k) Φ s.
Proof.
  intros Hc Hk. apply wlp_bind. eapply wlp_mono; [by apply wlp_way_store|]. cbn beta.
  intros [] s' (n & Hn & Ed & Ep). eapply Hk; [done|by rewrite Ed, lookup_insert_eq| |done].
  intros c' Hne. by rewrite Ed, Ep, lookup_insert_ne.
Qed.

Lemma chain_way c n s :
  Chained c n s → 0 ≤ n < USER_WAYS →
  wlp (rDieState.[c].[n]∙dieState ::= DIE_STATE_IDLE ;;
      rDieState.[c].[n]∙reqStatusCheckOpt ::= REQ_STATUS_CHECK_OPT_NONE ;;
      rDieState.[c].[n]∙prevWay ::= n - 1 ;;
      rDieState.[c].[n]∙nextWay ::= n + 1 ;;
      devM (IO_WRITE32 (completeFlag_addr c n) 0) ;;
      devM (IO_WRITE32 (statusReport_addr c n) 0) ;;
      rRetryLimit.[(c, n)] ::= RETRY_LIMIT)
    (λ _ s', Chained c (n + 1) s' ∧ Others c (r_sched s) (r_sched s')) s.
Proof.
  intros (Hp & ways & Hc & Ha & Hw) Hn. pose proof cfg_ways as Hb. unfold NSC_MAX_WAYS in Hb.
  apply (wlp_way_then _ _ _ _ ways); [done|]. intros e1 s1 He1 Hc1 HO1 Ep1.
  apply (wlp_way_then _ _ _ _ _ _ _ _ Hc1). intros e2 s2 He2 Hc2 HO2 Ep2.
  apply (wlp_way_then _ _ _ _ _ _ _ _ Hc2). intros e3 s3 He3 Hc3 HO3 Ep3.
  apply (wlp_way_then _ _ _ _ _ _ _ _ Hc3). intros e4 s4 He4 Hc4 HO4 Ep4.
  rewrite lookup_insert_eq in He2, He3, He4. injection He2 as <-. injection He3 as <-. injection He4 as <-.
  rewrite !insert_insert_eq in Hc4.
  eapply (wlp_mono _ (λ _ s', s_dieState (r_sched s') = s_dieState (r_sched s4) ∧
    s_wayPriority (r_sched s') = s_wayPriority (r_sched s4))).
  { match goal with |- wlp ?m _ _ =>
      assert (Keeps (λ s, (s_dieState (r_sched s), s_wayPriority (r_sched s))) m) as HK by keeps_deep end.
    eapply wlp_mono; [apply HK|]. cbn beta. intros [] s' [= -> ->]. done. }
  cbn beta. intros [] s5 [Ed5 Ep5]. split; cycle 1.
  { do 3 (eapply Others_trans; [done|]). intros c' Hne. rewrite Ed5, Ep5. by apply HO4. }
  split; [congruence|]. eexists. split_and!; [rewrite Ed5; exact Hc4|by apply array_insert|].
  intros w Hlt. destruct (decide (w = n)) as [->|Hne]; cycle 1.
  { rewrite lookup_insert_ne by done. apply Hw. lia. }
  rewrite lookup_insert_eq. eexists. split_and!; [done|done|intros ?|]; cbn -[wrap]; apply wrap_small; lia.
Qed.

Lemma init_channel c s ways :
  s_wayPriority (r_sched s) !! c = Some idle_list → s_dieState (r_sched s) !! c = Some ways →
  array USER_WAYS ways →
  wlp (for_range 0 USER_WAYS (λ n,
      rDieState.[c].[n]∙dieState ::= DIE_STATE_IDLE ;;
      rDieState.[c].[n]∙reqStatusCheckOpt ::= REQ_STATUS_CHECK_OPT_NONE ;;
      rDieState.[c].[n]∙prevWay ::= n - 1 ;;
      rDieState.[c].[n]∙nextWay ::= n + 1 ;;
      devM (IO_WRITE32 (completeFlag_addr c n) 0) ;;
      devM (IO_WRITE32 (statusReport_addr c n) 0) ;;
      rRetryLimit.[(c, n)] ::= RETRY_LIMIT) ;;
    rDieState.[c].[0]∙prevWay ::= WAY_NONE ;;
    rDieState.[c].[USER_WAYS - 1]∙nextWay ::= WAY_NONE)
    (λ _ s', Listed c idle_ways s' ∧ Others c (r_sched s) (r_sched s')) s.
Proof.
  intros Hp Hc Ha. pose proof cfg_ways as Hb. unfold NSC_MAX_WAYS in Hb. apply wlp_bind.
  eapply wlp_mono.
  { apply (wlp_for_range (λ n s', Chained c n s' ∧ Others c (r_sched s) (r_sched s'))); [lia| |].
    - split; [|apply Others_refl]. split; [done|]. exists ways. split_and!; [done|done|]. lia.
    - intros n s1 Hn [HC HO]. eapply wlp_mono; [by apply chain_way|]. cbn beta. intros _ s2 [? ?].
      split; [done|by eapply Others_trans]. }
  cbn beta. intros [] s1 [(Hp1 & ways1 & Hc1 & Ha1 & Hw1) HO1].
  apply (wlp_way_then _ _ _ _ ways1); [done|]. intros e s2 He Hc2 HO2 Ep2.
  eapply wlp_mono; [by apply wlp_way_store|]. cbn beta. intros [] s3 (e' & He' & Ed & Ep).
  assert (array USER_WAYS (<[0:=fset prevWay WAY_NONE e]> ways1)) as Ha2 by (apply array_insert; [done|lia]).
  split; cycle 1.
  { eapply Others_trans; [done|eapply Others_trans; [done|]]. intros c' Hne. by rewrite Ed, Ep, lookup_insert_ne. }
  eapply Listed_idle; [congruence|by rewrite Ed, lookup_insert_eq|apply array_insert; [done|lia]|].
  intros w Hw. destruct (Hw1 w Hw) as (n & Hn & Hd & Hpv & Hnx).
  assert (∃ e1, <[0:=fset prevWay WAY_NONE e]> ways1 !! w = Some e1 ∧ dieState e1 = DIE_STATE_IDLE ∧
    prevWay e1 = (if w =? 0 then WAY_NONE else w - 1) ∧ nextWay e1 = w + 1) as (e1 & He1 & Hd1 & Hp1' & Hn1).
  { destruct (Z.eqb_spec w 0) as [->|H0']; [|rewrite lookup_insert_ne by done; exists n; auto].
    rewrite lookup_insert_eq. eexists. split_and!; [done|cbn; congruence|done|cbn; congruence]. }
  destruct (Z.eqb_spec w (USER_WAYS - 1)) as [->|Hne]; cycle 1.
  { rewrite lookup_insert_ne by done. by exists e1. }
  rewrite lookup_insert_eq. assert (e' = e1) as -> by congruence. eexists. by split_and!.
Qed.

Lemma InitReqScheduler_ok s :
  SchedShape (r_sched s) → wlp InitReqScheduler (λ _ s', WaysOk (r_sched s')) s.
Proof.
  intros HS. pose proof cfg_channels as Hn. unfold InitReqScheduler.
  eapply wlp_mono.
  { apply (wlp_for_range (λ n s', SchedShape (r_sched s') ∧ ∀ c, 0 ≤ c < n → Listed c idle_ways s'));
      [unfold USER_CHANNELS; lia| |].
    - split; [done|]. lia.
    - intros c s1 Hc [HS1 HL1]. destruct (HS1 c Hc) as (_ & ways & Hw & Ha).
      apply init_lists. intros s2 Ep Ed. eapply wlp_mono.
      { apply (init_channel c s2 ways); [by rewrite Ep, lookup_insert_eq|congruence|done]. }
      cbn beta. intros [] s3 [HL HO]. split.
      + intros c' Hc'. destruct (decide (c' = c)) as [->|Hne].
        * destruct HL as [(ways' & e & ? & ? & ? & _) _]. by split; [exists e|exists ways'].
        * destruct (HO c' Hne) as [-> ->]. rewrite Ep, Ed, lookup_insert_ne by done. by apply HS1.
      + intros c' Hc'. destruct (decide (c' = c)) as [->|Hne]; [done|].
        destruct (HL1 c' ltac:(lia)) as [(ways' & e & ? & ? & ?) ?]. split; [|done]. exists ways', e.
        destruct (HO c' Hne) as [-> ->]. by rewrite Ep, Ed, lookup_insert_ne. }
  cbn beta. intros [] s' [_ HL] c Hc. exists idle_ways. by apply HL.
Qed.

(** ** Start-up and the main loop *)

Lemma InitFTL_ways (x : FSt W) :
  SchedShape (r_sched (f_r x)) → wlp InitFTL (λ _ x', WaysOk (r_sched (f_r x'))) x.
Proof.
  intros HS. unfold InitFTL.
  do 4 (apply (wlp_keeping (λ x, r_sched (f_r x)));
    [first [by keeps_deep|apply (keeps_zoom _ _ r_sched); [keeps_deep|by intros]]|]; intros [] ? Ex; rewrite <- Ex in HS; clear Ex).
  apply wlp_bind, wlp_zoom. eapply wlp_mono; [by apply InitReqScheduler_ok|]. cbn beta. intros [] s HW.
  match goal with |- wlp ?m _ _ => assert (Stable ways_f m) as Hm end.
  { pose proof ways_InitNandArray. pose proof ways_InitAddressMap. ways. }
  by apply Hm.
Qed.

(** C16: The scheduler loses no way.  From memory with the tables of the right
    size, after InitFTL and any number of iterations of the main loop, with
    whatever the host sends and the flash answers, every way of every channel is
    on exactly one of the seven lists of its channel, each list is a well-linked
    chain from its head to its tail, and the list agrees with the die: waiting
    lists hold idle dies, status lists hold dies that execute a request. *)
Theorem every_way_on_one_list n (x : FSt W) :
  SchedShape (r_sched (f_r x)) → wlp (nvme_main n) (λ _ x', WaysOk (r_sched (f_r x'))) x.
Proof.
  intros HS. apply wlp_bind. eapply wlp_mono; [by apply InitFTL_ways|]. cbn beta. intros [] x1 HW.
  assert (Stable ways_f (for_acc_n n 0 (λ _ rstCnt, nvme_main_step (W:=W) rstCnt) 0)) as Hm.
  { apply stable_for_acc_n. intros _ c. apply ways_nvme_main_step. }
  by apply Hm.
Qed.

(** ** The rounds end *)

#[local] Hint Resolve ends_read32 ends_write32 : ends.

Lemma ends_CheckReqStatus c w : Ends (CheckReqStatus (W:=W) c w).
Proof. ends. Qed.
Lemma ends_busy c : Ends (busy (W:=W) c).
Proof. ends. Qed.
Lemma ends_ready dev : Ends (devM (W:=W) (V2FReadyBusyAsync dev)).
Proof. ends. Qed.

(** The check with option RELEASE never waits. *)
Lemma ends_check_release tag : Ends (CheckRowAddrDepRelease (W:=W) tag).
Proof.
  unfold CheckRowAddrDepRelease, CheckRowAddrDep_gen.
  change (ROW_ADDR_DEPENDENCY_CHECK_OPT_RELEASE =? ROW_ADDR_DEPENDENCY_CHECK_OPT_SELECT) with false. ends.
Qed.
#[local] Hint Resolve ends_check_release : ends.

(** Walking over the requests of a way that wait for the row order: [n] to go. *)
Definition RowAt c w (n : nat) t (s : RSt W) : Prop :=
  ∃ Q pre rest, QFull (r_q s) Q ∧ Q (blockedByRowAddrDepReqQ c w) = pre ++ rest ∧
    t = hdz REQ_SLOT_TAG_NONE rest ∧ n = length rest.

(** A queue operation on the queues of the request layer. *)
Lemma wp_queue_enter (m : M QSt unit) o tag q Q (s : RSt W) :
  exec o = (m ;; ret 0) → enters o tag q → QFull (r_q s) Q → q_valid q → held Q tag →
  wp (qM m) (λ _ s', QFull (r_q s') (<[q := Q q ++ [tag]]> Q)) s.
Proof.
  intros Em Ho HF Hv Hh. apply wp_zoom. pose proof (exec_enters o tag q (r_q s) Q Ho HF Hv Hh) as Hw.
  rewrite Em in Hw. apply wp_bind_inv in Hw. eapply wp_mono; [exact Hw|]. cbn beta. by intros [] x (_ & HF' & _).
Qed.
Lemma wp_queue_leave (m : M QSt unit) o tag q l1 l2 Q (s : RSt W) :
  exec o = (m ;; ret 0) → leaves o tag q → QFull (r_q s) Q → Q q = l1 ++ tag :: l2 →
  wp (qM m) (λ _ s', QFull (r_q s') (<[q := l1 ++ l2]> Q)) s.
Proof.
  intros Em Ho HF HQ. apply wp_zoom. pose proof (exec_leaves o tag q (r_q s) Q l1 l2 Ho HF HQ) as Hw.
  rewrite Em in Hw. apply wp_bind_inv in Hw. eapply wp_mono; [exact Hw|]. cbn beta. by intros [] x (_ & HF' & _).
Qed.

Lemma row_step c w n t (s : RSt W) :
  RowAt c w n t s → t ≠ REQ_SLOT_TAG_NONE →
  wpe (next <- !(rPool.[t]∙nextReq) ;;
    f <- !(rPool.[t]∙reqOpt∙rowAddrDependencyCheck) ;;
    (if f =? REQ_OPT_ROW_ADDR_DEPENDENCY_CHECK then
       report <- CheckRowAddrDepRelease t ;;
       if report =? ROW_ADDR_DEPENDENCY_REPORT_PASS then
         qM (SelectiveGetFromBlockedByRowAddrDepReqQ t c w) ;; qM (PutToNandReqQ t c w)
       else if report =? ROW_ADDR_DEPENDENCY_REPORT_BLOCKED then skip else fail Assert
     else fail Assert) ;;
    ret (inl next : Z + unit))
    (λ x s', match x with inl t' => ∃ m, (m < n)%nat ∧ RowAt c w m t' s' | inr _ => True end) budget_left s.
Proof.
  intros (Q & pre & [|t' rest] & HF & HQ & Ht & Hn) Hne; [done|]. cbn in Ht, Hn. subst t' n.
  destruct (QInv_lookup _ _ (blockedByRowAddrDepReqQ c w) t (qf_inv _ _ HF)) as (k & r & Hk & Hr & _); [rewrite HQ; set_solver|].
  destruct (qi_list _ _ (qf_inv _ _ HF) _ _ Hk) as [Hd _]. rewrite HQ in Hd.
  destruct (dll_split _ _ _ _ _ _ _ Hd) as (r' & Hr' & _ & Hx & _). simplify_eq. cbn in Hx.
  apply wpe_bind, wp_wpe, (wp_load _ (hdz REQ_SLOT_TAG_NONE rest)); [cbn; rewrite Hr; cbn; by f_equal|].
  apply wpe_bind, wpe_load; [done|]. intros f _. destruct (_ =? _); [|done]. apply wpe_bind, wpe_bind.
  assert (Keeps r_q (CheckRowAddrDepRelease (W:=W) t)) as Hkeep by keeps_deep.
  eapply wpe_mono; [apply wlp_wpe; [apply Hkeep|apply ends_check_release]|].
  cbn beta. intros report s1 [Eq _]. rewrite <- Eq in HF. destruct (_ =? _).
  - apply wpe_bind, wp_wpe. eapply wp_mono; [by eapply (wp_queue_leave _ (OpGetFromBlockedByRowAddrDep t c w)); [|constructor|..]|].
    cbn beta. intros [] s2 HF2. apply wp_wpe. eapply wp_mono.
    { eapply (wp_queue_enter _ (OpPutToNand t c w)); [done|constructor|exact HF2| |by eapply held_after; [apply HF|]].
      apply (qi_valid _ _ (qf_inv _ _ HF) (blockedByRowAddrDepReqQ c w)). rewrite Eq. by exists k. }
    cbn beta. intros [] s3 HF3. apply wpe_ret. exists (length rest). split; [lia|]. eexists _, pre, rest.
    split_and!; [exact HF3| |done|done]. by rewrite fn_lookup_insert_ne, fn_lookup_insert.
  - destruct (_ =? _); [|done]. apply wpe_ret, wpe_ret. exists (length rest). split; [lia|].
    exists Q, (pre ++ [t]), rest. split_and!; [done|by rewrite <- app_assoc|done|done].
Qed.

Lemma release_row_ends c w Q (s : RSt W) :
  QFull (r_q s) Q → wpe (ReleaseBlockedByRowAddrDepReq c w) (λ _ _, True) budget_left s.
Proof.
  intros HF. unfold ReleaseBlockedByRowAddrDepReq. apply wpe_bind, wpe_load; [done|]. intros t Ht. cbn in Ht.
  destruct (q_queues (r_q s) !! blockedByRowAddrDepReqQ c w) as [k|] eqn:Hk; [|done]. injection Ht as <-.
  destruct (qi_list _ _ (qf_inv _ _ HF) _ _ Hk) as [(Hh & _) _].
  apply (wpe_rounds _ (RowAt c w)) with (length (Q (blockedByRowAddrDepReqQ c w))).
  - pose proof (QInv_length _ _ (blockedByRowAddrDepReqQ c w) (qf_inv _ _ HF)). pose proof req_count_bound. lia.
  - exists Q, [], (Q (blockedByRowAddrDepReqQ c w)). by split_and!.
  - intros n t s' HW. destruct (Z.eqb_spec t REQ_SLOT_TAG_NONE); [done|]. by apply row_step.
Qed.

(** Hardware: a flash controller finishes a synchronous command. *)
Class ControllerAnswers : Prop := controller_answers (dev : Z) : Ends (wait_controller (W:=W) dev).

Section answering.
Context `{!FifoAnswers W} `{!ControllerAnswers}.
#[local] Hint Resolve ends_IssueNvmeDmaReq controller_answers : ends.

Lemma ends_dev_undef : Ends (undef32 (W:=W)).
Proof. intros w. unfold wpe, undef32. by destruct (dev_undef w). Qed.
Lemma ends_time : Ends (XTime_GetTime (W:=W)).
Proof. intros w. unfold wpe, XTime_GetTime. by destruct (dev_time w). Qed.
Lemma ends_write8 (a v : Z) : Ends (WRITE8 (W:=W) a v).
Proof. by intros w. Qed.
#[local] Hint Resolve ends_dev_undef ends_time ends_write8 : ends.

Lemma ends_release_buf tag : Ends (ReleaseBlockedByBufDepReq (W:=W) tag).
Proof. ends. Qed.
#[local] Hint Resolve ends_release_buf : ends.
Lemma ends_ExecuteNandReq c w st : Ends (ExecuteNandReq (W:=W) c w st).
Proof. ends. Qed.

Lemma next_request_ends c w Q (s : RSt W) :
  QFull (r_q s) Q → wpe (next_request c w) (λ _ _, True) budget_left s.
Proof.
  intros HF. unfold next_request. apply wpe_bind, wpe_load; [done|]. intros h _. apply wpe_bind.
  eapply wpe_mono; [|intros _ s' _; apply ends_load]. destruct (_ =? _); [by eapply release_row_ends|done].
Qed.

(** What keeps the invariant of the requests, and ends. *)
Definition Requests (s : RSt W) : Prop := ∃ Q L, Inv Q L s.

Lemma requests_ends {A} (m : M (RSt W) A) s :
  Steady m → wpe m (λ _ _, True) budget_left s → Requests s → wpe m (λ _ s', Requests s') budget_left s.
Proof.
  intros Hm He (Q & L & HI). eapply wpe_mono; [apply wlp_wpe; [by apply Hm|exact He]|]. cbn beta.
  intros a s' [(Q' & L' & ? & _) _]. by exists Q', L'.
Qed.

(** C24: A scheduling round ends.  When the DMA engines make room and the flash
    controllers finish their synchronous commands, SchedulingNandReq never runs
    out of the budget of its loops: it visits each list of ways and each queue of
    waiting requests at most once per round, although ways and requests change
    lists while it walks; and it keeps the request layer and the way lists in
    their invariants. *)
Theorem scheduling_round_ends Q L s :
  Inv Q L s → WaysOk (r_sched s) →
  wpe SchedulingNandReq (λ _ s', (∃ Q' L', Inv Q' L' s') ∧ WaysOk (r_sched s')) budget_left s.
Proof.
  intros HI HW. apply (SchedulingNandReq_ok budget_left Requests); [done|done| | | | | | |by exists Q, L|done].
  - intros v s' (Q' & L' & HI'). exists Q', L'. apply (Inv_view _ _ s'); done.
  - intros c w s' HR. pose proof HR as (Q' & L' & HI'). apply requests_ends; [apply steady_next_request| |done].
    eapply next_request_ends, HI'.
  - intros c w st s' HR. apply requests_ends; [apply steady_ExecuteNandReq|apply ends_ExecuteNandReq|done].
  - intros c w s' HR. apply requests_ends; [apply steady_keeps; keeps_deep|apply ends_CheckReqStatus|done].
  - intros c s' HR. apply requests_ends; [apply steady_keeps; keeps_deep|apply ends_busy|done].
  - intros dev s' HR. apply requests_ends; [apply steady_keeps; keeps_deep|apply ends_ready|done].
Qed.
End answering.

(** ** What an issue loop does *)

Lemma bind_load {S T A} (l : lval S T) (k : T → M S A) (v : T) (s : S) :
  peek l s = Some v → bind (load l) k s = k v s.
Proof. intros E. unfold bind, load. by rewrite E. Qed.

(** Issue the request of the first way of list [i] only. *)
Definition issue_first (i j : way_list_id) (c : Z) : M (RSt W) bool :=
  head <- !(rWayPriority.[c]∙(way_list_of i)∙headWay) ;;
  if head =? WAY_NONE then ret false else
  ExecuteNandReq c head REQ_STATUS_RUNNING ;;
  sM (way_get i c head) ;;
  sM (way_put j c head) ;;
  busy c.

(** C38: The loops that issue requests stop after the first way.  The loop reads
    the successor of a way after it has moved the way to the end of another
    list, where there is none; so a call of an issue loop is the same as issuing
    the request of the first way of the list, however many ways wait and however
    free the controller is. *)
Theorem issue_loop_visits_one_way i j c s :
  WaysOk (r_sched s) → 0 ≤ c < USER_CHANNELS → die_of i = DIE_STATE_IDLE → die_of j = DIE_STATE_EXE →
  schedule_issue i j c s = issue_first i j c s.
Proof.
  intros HW Hc Hi Hj. destruct (HW c Hc) as (V & HL). pose proof (first_way c i V None s (proj1 HL)) as Hh.
  unfold schedule_issue, issue_first. rewrite (bind_load _ _ _ _ Hh), (bind_load _ _ _ _ Hh).
  unfold way_fuel. cbn [loop]. destruct (Z.eqb_spec (hdz WAY_NONE (V i)) WAY_NONE) as [|Hne]; [done|].
  assert (∃ rest, V i = hdz WAY_NONE (V i) :: rest) as [rest HV] by (destruct (V i); [done|eauto]).
  set (w := hdz WAY_NONE (V i)) in *.
  assert (Die c w DIE_STATE_IDLE (r_sched s)) as HD
    by (rewrite <- Hi; apply (Listed_Die c i w V s HL); rewrite HV; apply list_elem_of_here).
  pose proof (execute_ok (λ _, True) (λ _, True) (λ c w st s _, wpe_any _ s) c w REQ_STATUS_RUNNING V s I HL) as Hx.
  unfold bind, wpe in *. destruct (ExecuteNandReq c w REQ_STATUS_RUNNING s) as [? s1|]; [|done].
  destruct Hx as (_ & HO & HC & HX & _). specialize (HX HD). rewrite <- Hj in HX.
  pose proof (advance_ok (λ _, True) (λ _, True) I I (λ _ _ _, I) (λ _ _ s _, wpe_any _ s) (λ _ _ _ s _, wpe_any _ s)
    (λ _ _ s _, wpe_any _ s) (λ _ s _, wpe_any _ s) (λ _ s _, wpe_any _ s) i j c w V [] rest s s1 I HO HC (proj2 HL) HV HX) as Ha.
  unfold wpe, bind in Ha. destruct (sM (way_get i c w) s1) as [? s2|]; [|done].
  destruct (sM (way_put j c w) s2) as [? s3|]; [|done]. destruct (busy c s3) as [[] s4|]; [done| |done].
  destruct Ha as (V' & _ & _ & _ & _ & Hx). unfold load. rewrite Hx. cbn.
  pose proof cfg_ways. destruct (Z.to_nat USER_WAYS) eqn:E; [lia|]. done.
Qed.
End way_safe.
