(* ===== verification/FlashRuns.v ===== *)
(** Runs of the whole firmware on the smallest machine: the host has sent a
    write command, the main loop takes it, and the flash order holds. *)
From S2P Require Import Prelude Frame Dll Config MemMap ReqFormat ReqQueues DataBuffer AddrMap State HostLld.
From S2P Require Import Nsc HostTime CustomIo LowLevel Schedule FlashOrder ReqInv Ftl BadBlock Transform.
From S2P Require Import Slices Machine Runs Nvme FlashSafe.

#[local] Existing Instances tiny_config tiny_config_ok quick_device machine_fuel.

(** A write of the 12 blocks from LBA 2, in command slot 7 of queue 1. *)
Definition host_write : gmap Z Z :=
  let cmd := NVME_CMD_SRAM_ADDR + 7 * 64 in
  <[NVME_CMD_FIFO_REG_ADDR := 0x80000000 + 7 * 32 + 1]>
  (<[cmd := IO_NVM_WRITE]> (<[cmd + 40 := 2]> (<[cmd + 48 := 11]> ∅))).

(** The controller is running and the device has the contents [w]. *)
Definition connected (w : gmap Z Z) (x : FSt (gmap Z Z)) : FSt (gmap Z Z) :=
  fset f_r (fset r_host (fset h_nvmeTask (MkNVME_CONTEXT NVME_TASK_RUNNING 0 0 0 ∅ ∅)
    (fset h_world w (r_host (f_r x)))) (f_r x)) x.

Definition switched_on : FSt (gmap Z Z) := connected host_write blank.

Lemma returns_bind {S A B} (m : M S A) (k : A → M S B) s a s' :
  returns (bind m k) s = true → m s = Ok a s' → returns (k a) s' = true.
Proof. unfold returns, bind. intros Hr E. by rewrite E in Hr. Qed.

Lemma returns_first {S A B} (m : M S A) (k : A → M S B) s :
  returns (bind m k) s = true → returns m s = true.
Proof. unfold returns, bind. by destruct (m s). Qed.

Lemma table_domain (x : ROW_ADDR_DEPENDENCY_ENTRY) i n c w b e :
  mk_map (λ i, (0, 0, i)) x i n !! (c, w, b) = Some e → c = 0 ∧ w = 0 ∧ i ≤ b < i + Z.of_nat n.
Proof.
  revert i. induction n as [|n IH]; intros i; cbn [mk_map]; [by rewrite lookup_empty|].
  destruct (decide ((0, 0, i) = (c, w, b))) as [[= <- <- <-]|Hne]; [lia|].
  rewrite lookup_insert_ne by done. intros (-> & -> & ?)%IH. lia.
Qed.

Lemma table_shape x n :
  Z.of_nat n ≤ MAIN_BLOCKS_PER_DIE → TableShape (mk_map (λ i, (0, 0, i)) x 0 n).
Proof.
  intros Hn c w b e He. apply table_domain in He as (-> & -> & Hb).
  change USER_CHANNELS with 1. change USER_WAYS with 1. lia.
Qed.

Lemma blank_table : TableShape (r_rowAddrDep blank_RSt).
Proof. apply table_shape. rewrite Z2Nat.id; [|discriminate]. discriminate. Qed.

Lemma connected_Boot w x : Boot (f_r x) → Boot (f_r (connected w x)).
Proof. intros [HS Hc HT]. split; [exact HS|exact Hc|exact HT]. Qed.

Lemma blank_Boot : Boot (f_r blank).
Proof. split; [exact tiny_QShape|reflexivity|exact blank_table]. Qed.

Lemma switched_on_Boot : Boot (f_r switched_on).
Proof. apply connected_Boot, blank_Boot. Qed.

(** Start-up and the first iteration, which takes the command, and another one. *)
Definition serve : M (FSt (gmap Z Z)) Z :=
  rstCnt <- nvme_main 1 ;; for_acc_n 1 0 (λ _ rstCnt, nvme_main_step rstCnt) rstCnt.

Lemma serve_returns : returns serve switched_on = true.
Proof. vm_compute. reflexivity. Qed.


(** ** The request layer after start-up *)

Definition idle_machine : RSt (gmap Z Z) := ready_RSt (λ _, 0).

Lemma ready_queues pages : QFull (r_q (ready_RSt pages)) initial_queues.
Proof.
  pose proof (InitReqPool_spec tiny_QSt tiny_QShape eq_refl) as Hw.
  change (r_q (ready_RSt pages)) with (after InitReqPool tiny_QSt). unfold wp, after in *.
  destruct (InitReqPool tiny_QSt); [exact Hw|destruct Hw].
Qed.

Lemma ready_table loc : ¬ stale idle_machine loc.
Proof.
  intros (e & He & Hp). apply Hp. clear Hp. revert He. unfold idle_machine, ready_RSt. cbn [r_rowAddrDep].
  intros He. apply elem_of_list_to_map_2, list_elem_of_fmap in He as (i & [= -> ->] & _). reflexivity.
Qed.

Lemma idle_machine_Inv : Inv initial_queues (λ _, []) idle_machine.
Proof. apply Inv_start; [apply ready_queues|reflexivity|reflexivity|apply ready_table]. Qed.

Lemma take_returns : returns GetFromFreeReqQ idle_machine = true.
Proof. vm_compute. reflexivity. Qed.


(** The program of the first page of block 2, under dependency control. *)
Definition fill_program (tag : Z) : M (RSt (gmap Z Z)) unit :=
  fill_nand_req tag REQ_CODE_WRITE REQ_OPT_DATA_BUF_ENTRY REQ_OPT_NAND_ADDR_VSA
    (Some (REQ_OPT_NAND_ECC_ON, REQ_OPT_NAND_ECC_WARNING_ON))
    REQ_OPT_ROW_ADDR_DEPENDENCY_CHECK REQ_OPT_BLOCK_SPACE_MAIN REQ_OPT_FORCE_UNIT_ACCESS_OFF
    REQ_OPT_CUSTOM_CMD_OFF REQ_OPT_CUSTOM_CMD_BUF_OFF ;;
  rPool.[tag]∙nandInfo∙virtualSliceAddr ::= Vorg2VsaTranslation 0 2 0.

Definition prepare_program : M (RSt (gmap Z Z)) Z := tag <- GetFromFreeReqQ ;; fill_program tag ;; ret tag.
Definition submit_program : M (RSt (gmap Z Z)) unit := tag <- prepare_program ;; SelectLowLevelReqQ tag.

Lemma fill_program_ord tag : Ord id [tag] [] (fill_program tag).
Proof.
  apply ord_bind; [apply ord_fill_nand_req, list_elem_of_here|]. intros _.
  eapply ord_store; [apply list_elem_of_here|slot_part].
Qed.

Lemma prepare_program_spec : wlp prepare_program (λ tag s', ∃ Q L, Inv Q L s' ∧ held Q tag) idle_machine.
Proof.
  apply wlp_bind. eapply wlp_mono; [apply take_free_takes, idle_machine_Inv|].
  intros tag s1 (Q & L & HI & _ & _ & Hh & _). apply wlp_bind.
  eapply wlp_mono; [apply (fill_program_ord tag Q L s1 HI); [apply NoDup_singleton|by apply Forall_singleton]|].
  intros [] s2 (Q2 & L2 & HI2 & _ & Hh2). apply wlp_ret. exists Q2, L2. split; [exact HI2|].
  apply Hh2; [apply not_elem_of_nil|exact Hh].
Qed.

Lemma submit_program_spec : wlp submit_program (λ _ s', ∃ Q L, Inv Q L s') idle_machine.
Proof.
  apply wlp_bind. eapply wlp_mono; [apply prepare_program_spec|]. intros tag s (Q & L & HI & Hh).
  eapply wlp_mono; [apply (select_places tag Q L s HI Hh)|]. intros [] s' (Q' & L' & HI' & _). by exists Q', L'.
Qed.

Lemma submit_returns : returns submit_program idle_machine = true.
Proof. vm_compute. reflexivity. Qed.

Lemma submit_and_wait_returns : returns (submit_program ;; SyncAllLowLevelReqDone) idle_machine = true.
Proof. vm_compute. reflexivity. Qed.

(** The request is queued on its way. *)
Lemma select_keeps_flash_order_witness :
  ∃ tag s s', prepare_program idle_machine = Ok tag s ∧ SelectLowLevelReqQ tag s = Ok tt s' ∧
    ∃ Q L, Inv Q L s'.
Proof.
  pose proof submit_returns as Hr. unfold submit_program in Hr.
  pose proof (returns_first _ _ _ Hr) as Hr1.
  apply (wlp_returns _ _ _ prepare_program_spec) in Hr1 as (tag & s & E & Q & L & HI & Hh).
  pose proof (returns_bind _ _ _ _ _ Hr E) as Hr2.
  apply (wlp_returns _ _ _ (select_keeps_flash_order tag Q L s HI Hh)) in Hr2
    as ([] & s' & E' & Q' & L' & HI' & _).
  exists tag, s, s'. split; [exact E|]. split; [exact E'|]. exists Q', L'. exact HI'.
Defined.


(** ** A command of eleven blocks *)

Lemma four_free : initial_queues freeReqQ = [0; 1; 2; 3] ++ seqZ 4 (AVAILABLE_OUNTSTANDING_REQ_COUNT - 4).
Proof. vm_compute. reflexivity. Qed.

Lemma idle_machine_slot : is_Some (t_entry (r_time idle_machine) !! 0).
Proof. eexists. reflexivity. Qed.

