(* ===== verification/WayRuns.v ===== *)
(** The way lists on the smallest machine: start-up and the main loop, a
    scheduling round with a device whose counters move, and the issue of the
    request of the only way. *)
From stdpp Require Import functions.
From S2P Require Import Prelude Frame Dll Config MemMap ReqFormat ReqQueues DataBuffer AddrMap State HostLld.
From S2P Require Import Nsc HostTime CustomIo LowLevel HostDma Schedule FlashOrder ReqInv WayLists Ftl BadBlock.
From S2P Require Import Transform Slices Machine Runs Nvme FlashSafe WaySafe FlashRuns.

#[local] Existing Instances tiny_config tiny_config_ok quick_device machine_fuel.

Lemma one_channel c : 0 ≤ c < USER_CHANNELS → c = 0.
Proof. change USER_CHANNELS with 1. lia. Qed.
Lemma one_way {T} (x : T) : array USER_WAYS ({[ 0 := x ]} : gmap Z T).
Proof.
  intros i. change USER_WAYS with 1. rewrite lookup_singleton. case_decide; split; try lia; [eauto|].
  by intros [].
Qed.

Lemma switched_on_shape : SchedShape (r_sched (f_r switched_on)).
Proof.
  intros c ->%one_channel. split; [eexists; reflexivity|]. eexists. split; [reflexivity|apply one_way].
Qed.

Lemma main_returns : returns (nvme_main 1) switched_on = true.
Proof. exact (returns_first _ _ _ serve_returns). Qed.

Lemma every_way_on_one_list_witness :
  ∃ c x, nvme_main 1 switched_on = Ok c x ∧ WaysOk (r_sched (f_r x)).
Proof.
  pose proof main_returns as Hr.
  apply (wlp_returns _ _ _ (every_way_on_one_list 1 switched_on switched_on_shape)) in Hr as (c & x & E & HW).
  exists c, x. split; [exact E|exact HW].
Defined.

(** ** A way with a request *)

(** The only way waits on list [i] with an idle die. *)
Definition waiting_on (i : way_list_id) : SSt :=
  MkSSt {[ 0 := {[ 0 := MkDIE_STATE_ENTRY DIE_STATE_IDLE 0 WAY_NONE WAY_NONE ]} ]}
    {[ 0 := let l := MkWAY_LIST WAY_NONE WAY_NONE in
            fset (way_list_of i) (MkWAY_LIST 0 0) (MkWAY_PRIORITY_ENTRY l l l l l l l) ]}
    {[ (0, 0) := RETRY_LIMIT ]}.

Lemma waiting_on_ok i : die_of i = DIE_STATE_IDLE → WaysOk (waiting_on i).
Proof.
  intros Hi c ->%one_channel. exists (<[i := [0]]> (λ _, [])). split.
  - eexists _, _. split_and!; [reflexivity|reflexivity|apply one_way|split|].
    + intros j. destruct (decide (i = j)) as [<-|Hne].
      * rewrite fn_lookup_insert. destruct i; (split_and!; [reflexivity|reflexivity| | |]);
          try (repeat constructor; set_solver); try (eexists; split_and!; reflexivity);
          (apply Forall_singleton; cbn; unfold WAY_NONE; lia).
      * rewrite fn_lookup_insert_ne by done. destruct i, j; try done; (split_and!; [reflexivity|reflexivity|done|constructor|constructor]).
    + intros j k w. destruct (decide (i = j)) as [<-|], (decide (i = k)) as [<-|]; try done;
        rewrite ?fn_lookup_insert, ?(fn_lookup_insert_ne _ i) by done; set_solver.
    + intros j w n Hw _ Hn. destruct (decide (i = j)) as [<-|]; [|rewrite fn_lookup_insert_ne in Hw by done; set_solver].
      rewrite Hi. revert Hn. rewrite lookup_singleton_Some. by intros [_ <-].
  - intros w Hw. exists i. rewrite fn_lookup_insert. change USER_WAYS with 1 in Hw. apply list_elem_of_singleton. lia.
Qed.

(** A program request is on the queue of the way. *)
Definition with_program : RSt (gmap Z Z) := fset r_sched (waiting_on writeL) (after submit_program idle_machine).

Lemma issue_returns : returns (issue_first writeL statusCheckL 0) with_program = true.
Proof. vm_compute. reflexivity. Qed.

Lemma issue_loop_visits_one_way_witness :
  schedule_issue writeL statusCheckL 0 with_program = issue_first writeL statusCheckL 0 with_program ∧
  returns (issue_first writeL statusCheckL 0) with_program = true.
Proof.
  split; [|exact issue_returns]. apply issue_loop_visits_one_way;
    [exact (waiting_on_ok writeL eq_refl)|split; [discriminate|reflexivity]|reflexivity|reflexivity].
Defined.

(** ** A round with the device whose counters move *)

Section ticking.
#[local] Existing Instance ticking_device.

Lemma ticking_controller : @ControllerAnswers Z ticking_device machine_fuel.
Proof.
  intros dev s. unfold wait_controller.
  apply (wpe_rounds _ (λ n _ w, n = Z.to_nat ((- w) mod 256))) with (Z.to_nat ((- s) mod 256)).
  - pose proof (Z.mod_pos_bound (- s) 256 ltac:(lia)). change (@wait_fuel machine_fuel) with 1000%nat. lia.
  - done.
  - intros n _ w ->. apply wpe_bind. change (V2FIsControllerBusy dev) with (IO_READ32 (dev + channelBusy)).
    unfold wpe at 1, IO_READ32. cbn [dev_read32 ticking_device].
    pose proof (Z.mod_pos_bound w 256 ltac:(lia)). rewrite wrap_small by lia.
    destruct (Z.eqb_spec ((w mod 256) * 0x01010101) 0) as [E|E]; cbn [negb]; apply wpe_ret; [done|].
    eexists. split; [|done]. Z.div_mod_to_equations. lia.
Qed.

(** The same machine with that device. *)
Definition on_ticks (s : RSt (gmap Z Z)) : RSt Z :=
  MkRSt (r_q s) (r_buf s) (r_ccmd s) (r_tempDataBuf s) (r_rowAddrDep s) (r_sched s) (r_customIo s) (r_time s)
    (r_phyBlock s) (r_bbtInfo s) (r_chCtlReg s)
    (MkHSt (h_nvmeTask (r_host s)) (h_dma (r_host s)) (h_assist (r_host s)) 0).

Lemma on_ticks_Inv Q L s : Inv Q L s → Inv Q L (on_ticks s).
Proof. intros [HQ HL HF HW]. split; [exact HQ|exact HL|exact HF|exact HW]. Qed.

Lemma submit_spec : ∃ s Q L, after submit_program idle_machine = s ∧ Inv Q L s.
Proof.
  pose proof submit_returns as Hr. apply (wlp_returns _ _ _ submit_program_spec) in Hr as ([] & s & E & Q & L & HI).
  exists s, Q, L. split; [|exact HI]. unfold after. by rewrite E.
Qed.

Lemma ticking_round_returns : returns SchedulingNandReq (on_ticks with_program) = true.
Proof. vm_compute. reflexivity. Qed.

Lemma scheduling_round_ends_witness :
  ∃ s', SchedulingNandReq (on_ticks with_program) = Ok tt s' ∧ WaysOk (r_sched s').
Proof.
  destruct submit_spec as (s & Q & L & Es & HI).
  assert (Inv Q L (on_ticks with_program)) as HI'.
  { apply on_ticks_Inv. apply (Inv_view Q L s); [|exact HI]. unfold with_program. rewrite Es. reflexivity. }
  pose proof (@scheduling_round_ends tiny_config tiny_config_ok Z ticking_device machine_fuel (ticking_answers 998)
    ticking_controller Q L (on_ticks with_program) HI' (waiting_on_ok writeL eq_refl)) as Hw.
  pose proof ticking_round_returns as Hr. unfold wpe in Hw. unfold returns in Hr.
  destruct (SchedulingNandReq (on_ticks with_program)) as [[] s'|e]; [|discriminate Hr].
  exists s'. split; [reflexivity|exact (proj2 Hw)].
Defined.
End ticking.
