(* ===== verification/RwPath.v ===== *)
(** The whole path of a write-and-read: the call of the database server
    (fil_io_with_rw_cmd) builds the command whose slices the firmware queues,
    the blocks of the written page first and then those of the read page. *)
From Stdlib Require Import Strings.String.
From stdpp Require Import functions.
From S2P Require Import Prelude Config ReqFormat ReqQueues State HostLld HostTime Schedule FlashOrder Ftl Transform.
From S2P Require Import Slices Machine Nvme Fil FilInv FlashRuns.

#[local] Opaque ReqTransNvmeToSlice.

Section path.
Context `{HostConfig} `{!HostConfigOk} {V : Type} `{HostOsLaws V}.
Context `{ConfigOk} {W : Type} `{Device W} `{Fuel}.
Implicit Types (x : FSt W) (s : FilSt V) (Q : queue_id → list Z).

(** What the driver of the host does with a pass-through command: the operation
    code and words 10 to 15 are copied, and the two PRP entries describe the
    buffer, with the alignment and the addresses the device can use. *)
Record delivers (c : nvme_passthru_cmd) (cmd : NVME_COMMAND) : Prop := {
  dl_opcode : OPC cmd = opcode c;
  dl_words : (dw cmd 10, dw cmd 11, dw cmd 12, dw cmd 13, dw cmd 14, dw cmd 15) =
             (cdw10 c, cdw11 c, cdw12 c, cdw13 c, cdw14 c, cdw15 c);
  dl_prp : Z.land (PRP1_0 cmd) 0xF = 0 ∧ Z.land (PRP2_0 cmd) 0xF = 0;
  dl_prp_high : PRP1_1 cmd < 0x10000 ∧ PRP2_1 cmd < 0x10000;
}.

(** The 4KB blocks of a page, and its last block number for the command. *)
Definition page_blocks : Z := UNIV_PAGE_SIZE / 4096.

Lemma page_nlb : u32 (u32 UNIV_PAGE_SIZE / 4096 - 1) = page_blocks - 1 ∧ 1 ≤ page_blocks ≤ 4.
Proof. unfold page_blocks. destruct page_size_cases as [->|[->| ->]]; (split; [reflexivity|split; discriminate]). Qed.

Lemma page_command_words buf name_w offset_w name_r offset_r cmd :
  delivers (page_command buf name_w offset_w name_r offset_r) cmd →
  lba_of name_w offset_w < 2 ^ 32 → lba_of name_r offset_r < 2 ^ 32 →
  OPC cmd = IO_NVM_WRITE_READ ∧ dw cmd 10 = lba_of name_w offset_w ∧ dw cmd 11 = 0 ∧
  NLB (dw cmd 12) = page_blocks - 1 ∧ FUA (dw cmd 12) = 0 ∧ NLB (dw cmd 13) = page_blocks - 1 ∧
  dw cmd 14 = lba_of name_r offset_r.
Proof.
  intros [Ho [= E10 E11 E12 E13 E14 E15] _ _] Hw Hr. destruct page_nlb as [Enlb Hb].
  assert (∀ name offset, 0 ≤ lba_of name offset) as Hpos.
  { intros. unfold lba_of. apply Z.div_pos; [|lia]. apply wrap_bound. lia. }
  rewrite Ho, E10, E11, E12, E13, E14. unfold page_command, rw_command, NLB, FUA. cbn [opcode cdw10 cdw11 cdw12 cdw13 cdw14].
  rewrite Enlb, (wrap_small 32 (page_blocks - 1)), !wrap_small by (split; [apply Hpos||lia|done||lia]).
  assert (page_blocks = 1 ∨ page_blocks = 2 ∨ page_blocks = 3 ∨ page_blocks = 4) as [->|[->|[->| ->]]] by lia; done.
Qed.

Lemma queues_disjoint (q : QSt) Q a b t : QInv q Q → t ∈ Q a → t ∈ Q b → a = b.
Proof.
  intros HI Ha Hb. destruct (QInv_lookup _ _ a t HI Ha) as (c & r & _ & Hr & _).
  destruct (qi_type _ _ HI t r Hr) as [[_ Hno]|(k & _ & _ & Hk)]; [by destruct (Hno a)|].
  rewrite (Hk a Ha). symmetry. by apply Hk.
Qed.

(** The slots [tags] say the requests of the [n] blocks from [lba]. *)
Definition says (pool : gmap Z SSD_REQ_FORMAT) (cmd code lba n : Z) (tags : list Z) : Prop := ∃ parts,
  Forall2 (λ tag p, slice_view <$> pool !! tag = Some (slice_job cmd code 0 1 p)) tags parts ∧
  Forall in_slice parts ∧ concat (part_blocks <$> parts) = seqZ lba n ∧ concat (part_indices <$> parts) = seqZ 0 n.

Lemma Forall2_view (f : Z → option SSD_REQ_FORMAT) (g : Z → option SSD_REQ_FORMAT) tags parts J :
  (∀ t, t ∈ tags → req_core <$> g t = req_core <$> f t) →
  Forall2 (λ tag (p : slice_part), slice_view <$> f tag = Some (J p)) tags parts →
  Forall2 (λ tag (p : slice_part), slice_view <$> g tag = Some (J p)) tags parts.
Proof.
  intros Hc HF. induction HF as [|t p tags parts Ht HF IH]; constructor.
  - specialize (Hc t (list_elem_of_here _ _)). destruct (f t) as [r|], (g t) as [r'|]; cbn in *; try done.
    rewrite <- Ht. f_equal. apply slice_view_core. congruence.
  - apply IH. intros u Hu. apply Hc. by right.
Qed.

(** The slots [tw] and [tr] have moved from the free queue to the end of the
    slice queue, as the requests of the written and of the read page. *)
Definition PageQueued (cmd : Z) Q (tw tr l : list Z) (lba_w lba_r : Z) x' : Prop := ∃ Q',
  QFull (r_q (f_r x')) Q' ∧ Q' freeReqQ = l ∧ Q' sliceReqQ = Q sliceReqQ ++ tw ++ tr ∧
  (∀ q, q ≠ freeReqQ → q ≠ sliceReqQ → Q' q = Q q) ∧
  says (q_reqPool (r_q (f_r x'))) cmd REQ_CODE_WRITE lba_w page_blocks tw ∧
  says (q_reqPool (r_q (f_r x'))) cmd REQ_CODE_READ lba_r page_blocks tr.

Lemma wp_ASSERT_b {S} b (Φ : unit → S → Prop) (y : S) : b = true → Φ tt y → wp (ASSERT b) Φ y.
Proof. by intros ->. Qed.

Lemma parts_say pool cmd code lba tags :
  0 ≤ lba → lba + page_blocks < 2 ^ 32 →
  Forall2 (λ tag p, slice_view <$> pool !! tag = Some (slice_job cmd code 0 1 p)) tags (slice_parts lba (page_blocks - 1)) →
  says pool cmd code lba page_blocks tags.
Proof.
  intros Hl Hb Hv. destruct page_nlb as [_ Hn]. destruct (slice_parts_cover lba (page_blocks - 1)) as (E1 & E2 & E3); [lia..|].
  eexists. split; [exact Hv|]. rewrite Z.sub_add in E1, E2. done.
Qed.

Lemma write_read_slices buf name_w offset_w name_r offset_r cmd Q tw tr l x :
  let lba_w := lba_of name_w offset_w in let lba_r := lba_of name_r offset_r in
  delivers (page_command buf name_w offset_w name_r offset_r) cmd →
  lba_w < f_storageCapacity_L x → lba_r < f_storageCapacity_L x → f_storageCapacity_L x + 3 < 2 ^ 32 →
  0 ≤ cmdSlotTag cmd < 2 ^ 16 → is_Some (t_entry (r_time (f_r x)) !! cmdSlotTag cmd) →
  QFull (r_q (f_r x)) Q → Q freeReqQ = tw ++ tr ++ l →
  length tw = length (slice_parts lba_w (page_blocks - 1)) → length tr = length (slice_parts lba_r (page_blocks - 1)) →
  wp (handle_nvme_io_cmd cmd) (λ _ x', PageQueued (cmdSlotTag cmd) Q tw tr l lba_w lba_r x') x.
Proof.
  intros lba_w lba_r Hdl Hw Hr Hcap Htag Ht HF HQ Hlw Hlr.
  destruct (page_command_words _ _ _ _ _ _ Hdl) as (Eo & E10 & E11 & E12 & Ef & E13 & E14); [unfold lba_w, lba_r in *; lia..|].
  destruct page_nlb as [_ Hb]. assert (Hpos : 0 ≤ lba_w ∧ 0 ≤ lba_r).
  { split; (apply Z.div_pos; [apply wrap_bound; lia|lia]). }
  destruct Hdl as [_ _ [P1 P2] [P3 P4]]. unfold handle_nvme_io_cmd. rewrite Eo.
  change (wp (handle_nvme_io_write_read (cmdSlotTag cmd) cmd)
    (λ _ x', PageQueued (cmdSlotTag cmd) Q tw tr l lba_w lba_r x') x).
  unfold handle_nvme_io_write_read. rewrite E10, E11, E12, Ef, E13, E14. fold lba_w lba_r.
  apply wp_bind. unfold check_lba. apply wp_bind. eapply wp_load; [done|].
  apply wp_ASSERT_b; [by rewrite (proj2 (Z.ltb_lt _ _) Hw)|].
  apply wp_bind. unfold check_prp. apply wp_bind, wp_ASSERT_b; [by rewrite P1, P2|].
  apply wp_ASSERT_b; [by rewrite (proj2 (Z.ltb_lt _ _) P3), (proj2 (Z.ltb_lt _ _) P4)|].
  apply wp_bind. eapply wp_load; [done|]. apply wp_bind, wp_ASSERT_b; [by apply Z.ltb_lt|].
  apply wp_bind. unfold rM. apply wp_zoom.
  eapply wp_mono; [apply (command_slices_ok _ lba_w (page_blocks - 1) IO_NVM_WRITE 0 1 Q tw (tr ++ l)); auto; lia|].
  intros [] r1 (Ht1 & Q1 & HF1 & Hfree1 & Hslice1 & Hoth1 & Hv1 & _).
  apply wp_zoom. cbn [f_r fset set_f_r].
  eapply wp_mono; [apply (command_slices_ok _ lba_r (page_blocks - 1) IO_NVM_READ 0 1 Q1 tr l); auto; lia|].
  intros [] r2 (_ & Q2 & HF2 & Hfree2 & Hslice2 & Hoth2 & Hv2 & Hcore2). exists Q2. cbn [f_r fset set_f_r].
  split_and!; [done|done|by rewrite Hslice2, Hslice1, <- app_assoc|intros; by rewrite Hoth2, Hoth1| |].
  - apply parts_say; [lia..|]. eapply Forall2_view; [|exact Hv1]. intros t Hin. apply Hcore2. intros Hin'.
    enough (freeReqQ = sliceReqQ) by done. apply (queues_disjoint (r_q r1) Q1 _ _ t); [apply HF1|rewrite Hfree1|rewrite Hslice1]; apply elem_of_app; auto.
  - apply parts_say; [lia..|]. exact Hv2.
Qed.

End path.
