(* ===== verification/HostRuns.v ===== *)
(** Runs of the host side: a small operating system that satisfies the laws the
    theorems rely on, a cache of two tablespaces, and the theorems applied to
    them and to the smallest machine (Machine.v). *)
From Stdlib Require Import Strings.String.
From stdpp Require Import gmap infinite.
From S2P Require Import Prelude Config ReqFormat ReqQueues State HostLld HostTime Schedule FlashOrder Ftl Transform.
From S2P Require Import Slices Machine Nvme Fil FilInv FlashRuns RwPath.

(** ** An operating system *)

(** The open descriptors and the commands that have been sent. *)
Record SmallOs := MkSmallOs { so_files : gmap Z string; so_sent : list nvme_passthru_cmd }.

Definition new_descriptor (w : SmallOs) : Z := fresh (map_to_list (so_files w)).*1.
Definition missing (name : string) : bool := String.eqb name "./test/missing.ibd".

Definition small_open (name : string) (w : SmallOs) : option Z * SmallOs :=
  if missing name then (None, w)
  else (Some (new_descriptor w), MkSmallOs (<[new_descriptor w := name]> (so_files w)) (so_sent w)).

(** Files of eight pages of 4KB, one after the other from disk block 1000; all
    of them belong to space 0. *)
#[local] Instance small_os : HostOs SmallOs := {|
  os_open_simple := small_open;
  os_open name _ _ w := small_open name w;
  os_size _ _ := 8 * 4096;
  os_first_page _ _ := (0, 0);
  os_close h w := (bool_decide (is_Some (so_files w !! h)), MkSmallOs (delete h (so_files w)) (so_sent w));
  os_flush _ w := w;
  os_blksize _ _ := 4096;
  os_fibmap h b w := (λ name, if String.eqb name "./test/a.ibd" then 1000 + b else 2000 + b) <$> so_files w !! h;
  os_ioctl c w := (0, MkSmallOs (so_files w) (so_sent w ++ [c]));
|}.

Definition small_block (name : string) (b : Z) : Z := if String.eqb name "./test/a.ibd" then 1000 + b else 2000 + b.

#[local] Instance small_os_laws : HostOsLaws SmallOs.
Proof.
  refine (Build_HostOsLaws SmallOs small_os so_files so_sent (λ name, missing name = false) small_block 4096 _ _ _ _ _ _).
  - intros name raw p w Hp. cbn. unfold small_open. rewrite Hp. eexists _, _. split; [done|]. split; [|done].
    destruct (so_files w !! new_descriptor w) as [f|] eqn:E; [|done]. destruct (infinite_is_fresh (map_to_list (so_files w)).*1).
    apply list_elem_of_fmap. exists (new_descriptor w, f). split; [done|by apply elem_of_map_to_list].
  - intros h w Hh. cbn. rewrite bool_decide_eq_true_2 by done. by eexists.
  - done.
  - done.
  - intros h b w name Hh. cbn. by rewrite Hh.
  - done.
Defined.

#[local] Instance small_config : HostConfig := {|
  srv_page_size_shift := 12; srv_undo_tablespaces_open := 0; srv_no_fsync := false; srv_fast_shutdown := 1 |}.
#[local] Instance small_config_ok : HostConfigOk.
Proof. split; [done|]. cbn. lia. Qed.

(** ** Two tablespaces of one closed file each *)

Definition closed_file (space : Z) (name : string) (size : Z) : fil_node_t :=
  Mkfil_node_t space name false 0 false size 0 0 false 0 0.
Definition one_file_space (id node : Z) : fil_space_t :=
  Mkfil_space_t id false false FIL_TABLESPACE [node] 0 0 0 false.

Definition two_spaces (name : string) (size : Z) : fil_system_t :=
  Mkfil_system_t (<[5 := one_file_space 5 1]> (<[6 := one_file_space 6 2]> ∅))
    (<[1 := closed_file 5 name size]> (<[2 := closed_file 6 "./test/b.ibd" 8]> ∅)) [] [] 0 10 0.
Definition no_counters_yet : OsCounters := MkOsCounters 0 0 0 0 0 0 0 0 0 0 0 0.
Definition host name size : FilSt SmallOs := MkFilSt (two_spaces name size) no_counters_yet 0 (MkSmallOs ∅ []).

Ltac small_map :=
  repeat match goal with
  | H : <[_ := _]> _ !! _ = Some _ |- _ => apply lookup_insert_Some in H as [[<- <-]|[? H]]
  | H : ∅ !! _ = Some _ |- _ => by rewrite lookup_empty in H
  end.

Lemma two_spaces_ok name size : FilOk (two_spaces name size).
Proof.
  split; cbn.
  - intros k sp Hk. small_map; (split; [done|apply NoDup_singleton]).
  - intros k sp n Hk. small_map; cbn; rewrite list_elem_of_singleton; split.
    + intros ->. by eexists.
    + intros (nd & Hn & Es). small_map; done.
    + intros ->. by eexists.
    + intros (nd & Hn & Es). small_map; done.
  - intros n nd Hn. small_map; (eexists; split; [done|split; cbn; (done || lia)]).
  - lia.
  - done.
  - match goal with |- Z.of_nat ?n < _ => change n with 2%nat end. lia.
  - constructor.
  - intros n. split; [by intros ?%not_elem_of_nil|]. intros (nd & Hn & He). small_map; done.
  - constructor.
  - intros k. split; [by intros ?%not_elem_of_nil|]. intros (sp & Hk & He). small_map; done.
Qed.

Lemma host_ok name size : HostOk (host name size).
Proof.
  split; [apply two_spaces_ok|]. split; cbn.
  - intros n nd Hn. small_map; done.
  - intros n n' nd nd' Hn. small_map; done.
Qed.

(** ** The theorems on these tablespaces *)

Lemma find_node_is_lookup_witness :
  find_node true [1; 2] 11 (host "./test/a.ibd" 8) = Ok (Some (2, 3)) (host "./test/a.ibd" 8).
Proof.
  apply (find_node_is_lookup true [1; 2] 11 (host "./test/a.ibd" 8)); [done|].
  repeat constructor; (eexists; split; [reflexivity|done]).
Defined.

Lemma page_of_a : PageOf (host "./test/a.ibd" 8) 5 3 1 (closed_file 5 "./test/a.ibd" 8) 3.
Proof.
  split; [done| |done|done|done|done]. exists (one_file_space 5 1). split; [done|]. split; [|done].
  repeat constructor. by eexists.
Qed.
Lemma page_of_b name size : PageOf (host name size) 6 2 2 (closed_file 6 "./test/b.ibd" 8) 2.
Proof.
  split; [done| |done|done|done|done]. exists (one_file_space 6 2). split; [done|]. split; [|done].
  repeat constructor. by eexists.
Qed.

Definition the_command : nvme_passthru_cmd := page_command 0x1000 "./test/a.ibd" 0x3000 "./test/b.ibd" 0x2000.


Lemma failed_write_leaks_the_read_witness :
  wp (fil_io_with_rw_cmd 3 OS_FILE_WRITE 5 0 3 0 UNIV_PAGE_SIZE 0x1000 6 2)
    (λ r s', r = DB_TABLESPACE_DELETED ∧ ∃ nd, fil_nodes (fs_system s') !! 2 = Some nd ∧ node_n_pending nd = 1)
    (host "./test/missing.ibd" 0).
Proof.
  eapply wp_mono.
  - apply (failed_write_leaks_the_read 3 OS_FILE_WRITE 0x1000 (host "./test/missing.ibd" 0) 5 3 1 []
      (closed_file 5 "./test/missing.ibd" 0) (one_file_space 5 1) 6 2 2 (closed_file 6 "./test/b.ibd" 8) 2);
      [apply host_ok|apply page_of_b|reflexivity..|done|reflexivity|lia].
  - intros r s' (-> & _ & HD). split; [done|].
    destruct (Delta_lookup _ _ _ 2 (closed_file 6 "./test/b.ibd" 8) HD eq_refl) as (nd & Hn & _ & Hp). by exists nd.
Defined.

(** The command in the command slot 0 of the smallest machine. *)
Definition delivered : NVME_COMMAND :=
  MkNVME_COMMAND 1 0 0 [0x66; 0; 0; 0; 0; 0; 0x4000; 0; 0; 0; 1259; 0; 0; 0; 2258; 0].
Definition drive : FSt (gmap Z Z) := MkFSt idle_machine (f_a blank) 0 4096.

Lemma delivers_the_command : delivers the_command delivered.
Proof. split; [reflexivity|reflexivity|done|done]. Qed.

#[local] Existing Instances tiny_config tiny_config_ok quick_device machine_fuel.

Lemma two_free : initial_queues freeReqQ = [0] ++ [1] ++ seqZ 2 (AVAILABLE_OUNTSTANDING_REQ_COUNT - 2).
Proof. vm_compute. reflexivity. Qed.
Lemma first_slot : is_Some (t_entry (r_time (f_r drive)) !! cmdSlotTag delivered).
Proof. eexists. reflexivity. Qed.

